(* ===== verification/_CoqProject ===== *)
-Q . S2P
Prelude.v
Text.v
Json.v
Domain.v
Planning.v
Deliverable.v
DependencySource.v
Strategies.v
FactoryPolicy.v
Store.v
FactoryItems.v
ControlLease.v
RunnerCommands.v
RoomMessages.v
Breaker.v
ExecTables.v
Checkpoint.v
RunFailure.v
RunEvents.v
Dispatch.v
Decisions.v
ExecSpec.v
EventSteps.v
AttemptSteps.v
Execution.v
ExecGuards.v
ExecBounds.v
Materialization.v
MaterializationGuards.v
PublicationRules.v
Publication.v
PublicationSteps.v
PublicationSamples.v
PublicationSafety.v
PublicationGuards.v
Polling.v
GithubResponse.v
FactoryController.v
Watch.v
Access.v
Runners.v
RunnerSafety.v
Secrets.v
SecretSafety.v
RunnerPool.v
RunnerRotation.v
Artifacts.v
ArtifactSafety.v
Handoff.v
HandoffSafety.v
Workers.v
ArtifactUploads.v
ArtifactIngest.v
ArtifactIngestSafety.v
Scheduling.v
SchedulingSafety.v
SchedulingFailure.v
