(* ===== verification/Prelude.v ===== *)
(** * A verification of the core of ecorp (the crates crony-domain, -store, -server, -runner, -cli)

    ecorp runs missions with coding agents.  A server plans a mission as a small
    task graph and keeps every fact in PostgreSQL; runners execute tasks in Git
    worktrees and send events and deliverables back; a "Factory" claims issues of
    a GitHub project, turns them into missions under a pinned policy and publishes
    the result; humans steer agents under control leases, and a circuit breaker
    stops runs that exceed their budgets.

    ** The program and the files that model it

    - [Prelude]: results ([anyhow::Result]), transactions (a handler maps the
      database to an answer and a new database, an error rolls back), 64-bit
      integers, stable sorting, and the tactics of the development.
    - [Text]: [str] as UTF-8 bytes with the operations the code uses (trim, split,
      replace, case folding, prefixes, decimal printing, byte order).
    - [Json]: [serde_json::Value] with objects in key order.
    - [Domain]: crony-domain; the status enumerations with their database texts,
      task contracts, verifier policies and plans, the portable path and
      write-scope grammar, provider-backed outcomes.
    - [Planning]: crony-server/planning.rs [validate_plan], the gate of every plan.
    - [Deliverable]: crony-runner/deliverable.rs; which changes of a worktree are
      exported, and the exported document.
    - [DependencySource]: crony-server/dependency_source.rs; the decoder of that
      document, file by file.
    - [Strategies]: crony-server/planning.rs; the seven manager strategies and the
      registry.
    - [FactoryPolicy]: crony-store/lib.rs; normalisation of Factory sources and
      policies, and the preflight of a plan against the claimed policy.
    - [Store]: what the transactions share: directory lookups, scope and membership
      checks, and the append-only event log, behind the interfaces [HasDirectory]
      and [HasLog].
    - [FactoryItems]: claim, renewal and transition of Factory work items with their
      operations, replays and events.
    - [ControlLease]: acquire, release and transfer of control leases, control
      messages, and the fence of the durable commands.
    - [RunnerCommands]: sending, acknowledging and failing the durable commands,
      requeueing a message, interrupts and emergency stops.
    - [RoomMessages]: posting, replying, mentioning and linking in a room.
    - [Breaker]: the circuit breaker, its SQL twin, rolling budgets and the budget
      policy.
    - [ExecTables]: the tables of mission execution, split into what decides when
      work is accepted ([exec_core]), what execution writes on the way
      ([exec_side]) and what it only reads ([exec_base]); the tables of the other
      components are views of them.
    - [Checkpoint]: the queries about the workspace a run left behind
      (crony-store/lib.rs, checkpoint_retention.rs, budget_checkpoint.rs).
    - [RunFailure]: what runs do to Factory items and recoveries
      (factory_run_failure.rs, and the reconcile functions of lib.rs).
    - [RunEvents]: [apply_runner_event], one definition per event type.
    - [Dispatch]: creating a mission with its staff, scheduling, starting and
      resuming runs, dispatch failures, lost runners.
    - [Decisions]: manual verification and action approvals.
    - [ExecSpec]: the abstract specification of execution, an invariant [core_inv]
      and a transition [core_step] on the core tables, with what follows from them.
    - [EventSteps], [AttemptSteps]: every handler is made of such transitions.
    - [Execution]: the state machine (requests, steps, reachable states) and the
      theorems about it.
    - [ExecGuards]: what execution admits and what it tells the Factory, by a frame
      rule for transactions ([respects]).
    - [ExecBounds]: budgets of resumed runs and the walk along their lineage.
    - [Materialization]: an item becomes a mission, its launch runs, a refused plan
      releases the item, the source commit of an older policy is pinned;
      [MaterializationGuards] holds the theorems.
    - [PublicationRules]: the pure rules of crony-store/publication.rs and
      checkpoint_publication.rs: inputs and their normalisation, the identity of a
      pull request, the lineage of the published run, provenance records.
    - [Publication]: the tables and handlers of publication: start, takeover,
      renewal, checkpoints, credentials of publishers, queries of a viewer.
    - [PublicationSteps]: the abstract specification of publication ([pub_step]) and
      the proof that every handler is made of its steps.
    - [PublicationSamples]: a concrete publication, for the witnesses.
    - [PublicationSafety]: the invariant of the publication tables and what follows.
    - [PublicationGuards]: what publication needs, and what repeats do.
    - [Polling]: crony-cli/factory/quota.rs, [BudgetState]; when the Factory may send
      a request to GitHub, one definition per operation.
    - [GithubResponse]: the rest of quota.rs and the guarded requests of
      crony-cli/factory.rs; HTTP preambles, the classification of failures.
    - [FactoryController]: crony-store/factory_controller.rs; connecting a watcher,
      its heartbeats, and pause, resume and reconcile.
    - [Watch]: the loop [watch] of crony-cli/factory.rs, tick by tick, and watchers
      together with the store.
    - [Access]: crony-server/auth.rs and [authorize_actor] of main.rs; roles and
      permissions, bearer tokens, WebSocket tickets, the identities of humans.
    - [Runners]: enrolment, authentication with rotation, revocation, connections
      with their epochs and grace periods, and claims of runners (crony-store/lib.rs);
      [RunnerSafety] holds the theorems.
    - [Secrets]: the secret broker: crony-server/secrets.rs, creating, revoking and
      granting secrets, resolving them at dispatch, and the expiry in the runner;
      [SecretSafety] holds the theorems.
    - [RunnerPool]: the connected runners in the memory of crony-server/main.rs: which
      of them may take a task, sending to the current socket, and the rotation of
      the lifecycle task over Corps and runners; [RunnerRotation] holds the theorems.
    - [Artifacts]: crony-server/artifacts.rs and the receipts of crony-domain's
      retained_provider_receipt.rs; staged uploads, content addresses, signatures,
      media types, verified reads; [ArtifactSafety] holds the theorems.
    - [Handoff]: what a task gets from the tasks it depends on:
      [dependency_artifacts], [record_dependency_context] and
      [resolve_dependency_context]; [HandoffSafety] holds the theorem.
    - [Workers]: asynchronous functions as trees of accesses, pools that interleave,
      start and lose them at their awaits, and a logic of rely and guarantee for them.
    - [ArtifactUploads]: the rows of artifact uploads (crony-store/lib.rs): reserving,
      finishing, rejecting, releasing, the queries; and what retained_provider_receipt.rs
      has an upload pass.
    - [ArtifactIngest]: [process_runner_event] and [recover_pending_artifacts] of main.rs
      as workers over [ArtifactUploads] and [Artifacts]; [ArtifactIngestSafety] holds
      the theorems.
    - [Scheduling]: [schedule_ready_tasks] and [schedule_ready_corp] of main.rs, which
      compose [RunnerPool], [Dispatch], [Handoff] and [Secrets]; an await is a function
      that says what the rest of the server does meanwhile ([turn]).
      [SchedulingSafety] and [SchedulingFailure] hold the theorems.

    Definitions keep the names of the code.  A database is a record of finite maps
    (table rows by primary key) and an event log; a handler is a function of type
    [txn]; the guards, early returns and error texts are the code's, in its order.
    Uniqueness constraints of the tables are checks of the insertions.

    ** What the theorems show

    - Execution, for every state reachable from empty core tables by any sequence
      of requests in any order: a completed mission has a verified run with full
      evidence and its manual decision for every task; a task and an agent have
      one active run at most; ended runs keep their result; attempts stay within
      their maximum.  Every handler refines the abstract transition [core_step].
      An event is applied once and only by its assignment, a stopped or
      quarantined run makes no progress, a manual gate is decided by the humans it
      names, a task is offered by the scheduler exactly when it can be launched, a
      resumed run stays inside every budget, a Factory item is verified only by
      its verified mission.  [ExecGuards.stale_approval_cancels_mission] and
      [ExecGuards.multiline_rejections_fail] are behaviours the code does not mean.
    - Publication, for every state reachable from empty tables by any requests, any
      credential handlers and any changes of the other components' tables: handlers
      refine [pub_step]; rows are well typed; an effect is published once; a live
      publisher excludes all others; a publication only advances; a recorded pull
      request is the authorised one; no effect without verified work; requests are
      idempotent; a revoked publisher stays locked out; the last checkpoint
      completes the Factory item.
    - Materialisation: the mission is exactly the submitted plan inside the claimed
      policy, made once by the holder of the live claim; links are permanent; repeats
      answer alike; the source commit is pinned at most once.
    - Work items: a live lease excludes every other actor, a lost claim is fenced,
      states move only along the table, terminal states stay, requests are
      idempotent, every change is versioned and logged, and the tables keep their
      invariant, for any sequence of requests with the directory changing in
      between ([factory_step], by rule induction).
    - Polling: a request is admitted exactly when no wait is outstanding and the
      balance allows it; throttling stops every further request, for at least what
      GitHub asked and the local backoff, which is capped; preambles are stripped
      exactly.  A stored wait outlives reconnections and control requests, stale
      watchers are fenced, and what the connected watcher reports is never refused
      for its polling state, across restarts ([Watch.system_step]).
      [Watch.forced_cycles_run_twice] is a behaviour the code does not mean.
    - Plans: validation always terminates, accepts exactly the layered graphs, and
      an accepted plan has bounded resources and cannot deadlock.  The strategies
      pass their own gate, use live agents only, and the studio plan has the shape
      and the exact budget split it promises.
    - Policies: normalisation is canonical; the preflight confines a plan to the
      policy and changes nothing but the source pins.
    - Deliverables: what is exported is inside the write scope and not secret-like;
      what the server decodes is exactly what was declared, within its budgets; the
      two programs agree (export, then decode, is the identity on contents).
    - Control: a live control lease excludes others, stale commands stay fenced
      while the lease is not released, accepted messages are deliverable.
      [ControlLease.release_reopens_fence] shows what a release does to the fence.
      A command is settled once; stops need a live lease or a managing role.  Threads
      of a room have one level, and a repeated post answers with the posted message.
    - Breaker: it only escalates, reacts to the strongest metric with exact
      thresholds, is never refused by the store, and agrees with its SQL twin.
    - Runners: a presented token or credential works once; a revocation ends the runs
      of the runner; a bound run starts only on its connected machine; stale epochs
      change nothing; requests on runners refine execution.
      [RunnerSafety.enrolment_takes_over_runner] and
      [RunnerSafety.revoked_runner_connects] are behaviours the code does not mean.
    - Access: a request is answered in the name of an actor exactly when it may be; a
      ticket opens one socket.
    - Secrets: a grant is made only to what the secret allows, for at most 300
      seconds; a granted secret is the stored value; a revoked one is never granted.
    - Scheduling: the choice of a runner is exact; no ready runner starves; an
      assignment reaches only the runner and Corp its run is bound to, whatever
      happens at the awaits; an assignment that fails ends its run.
    - Artifacts and handoffs: an upload survives crashes and reads back byte for byte;
      what can be downloaded is at its content address and is what was uploaded,
      however uploads and recovery passes interleave or die ([pool_step], by rely and
      guarantee); the context of a run is exactly the verified output of its
      dependencies.  [ArtifactIngestSafety.capital_digests_stay_staged] is a behaviour
      the code does not mean.
    - Domain and store: write scopes are decided exactly and confine paths, status
      texts round-trip, the log appends each event once.

    ** Parameters

    Code that is not in the repository is a parameter with its documented laws:
    [Serde] and [SerdeLaws] (UUID text, JSON sizes, decoding of a verifier policy,
    timestamps), [ExecSerde] (the decoder of a manual gate, the text of JSONB
    values, SHA-256), [Digests], [Envelopes] and [EnvelopeLaws] (SHA-256, base64, the
    JSON reader of an envelope), [worktree] (Git and the file system), [Chrono] and
    [ChronoLaws] (the range of instants and the parsers of their texts), [JsonReader]
    (the JSON reader of an answer), [Aead] and [AeadLaws] (the cipher of
    secrets and its hexadecimal key), [Rfc3339Laws] (the texts of expiries read back),
    [ObjectFormats] and [ObjectFormatsLaws] (HMAC, hexadecimal text, media types, JSON
    bytes, the decoder of a receipt).  That two contents have different SHA-256 sums
    is a hypothesis of the theorems that need it.
    [PublicationAuthorities] stands for two components that are not modelled yet:
    whether a run that continues a budget-stopped one may be published; [Collections]
    for another: whether a verifier run may collect a retained receipt.  Each class
    has a concrete instance, used by the witnesses.  Random UUIDs and clocks are
    inputs of the handlers.

    ** Fuel

    Loops of the code run on fuel.  [compute_depth] gets [depth_fuel], two more than the
    number of tasks: every nested call puts one more task on the current path
    ([compute_depth_total]).  [provider_search] gets [search_fuel], two more than
    the number of dependency edges: each task is expanded once
    ([search_fuel_enough]).  [ancestors], the recursive query along resumed runs,
    gets [lineage_fuel], the number of runs: a longer walk visits nothing else
    ([lineage_walk_is_complete]).  [lineage_loop] gets one step more than there are
    resume links, which no path without a cycle exceeds ([publication_lineage_exact]).
    [evidence_lineage] gets [lineage_limit], the depth the query itself stops at.  No result is the answer of a spent fuel.

    ** Abstractions

    Timestamps count nanoseconds (the database keeps microseconds; only for the end
    of a retention, which is signed, this is written out); JSON columns
    hold the value that was written; row locks and advisory locks are the
    serialisation of the transactions; ids, creation and update times of events are
    not part of an event; only the columns the modelled operations read or write
    are in a row.  Integer columns keep their width: additions are checked, the
    breaker's multiplication saturates, the strategies' arithmetic wraps.

    The other components change the execution tables too: [world_moves] lets a
    step of theirs suspend running runs and tasks and change anything outside the
    core ([breaker_respects_execution] shows that the breaker does no more).  The
    revision of a task's contract or verification policy, the cancellation of a
    mission and the runs that a Factory recovery creates are not such steps.

    ** Not modelled, and the plan

    Left for later: retirement and reactivation of workers, the authorisation of
    recoveries of work items, contract and budget revisions, the authority for
    collecting retained receipts, the setup of workspace connections, the delivery of the durable commands by the server, the cycle [run] of
    the watcher.  The worktrees, the verifier and the provider adapters of the runner,
    HTTP routing, processes, Git and GitHub calls and the web client are I/O and stay
    outside. *)
From stdpp Require Export base tactics list sorting strings gmap numbers pretty.
From Stdlib Require Export ZArith Lia.

(** ** Machine-independent data shared by every component *)

(** A [Uuid] is a 128-bit value, [Uuid::nil()] is zero. *)
Abbreviation uuid := N.
Definition is_nil (id : uuid) : bool := (id =? 0)%N.

(** A [DateTime<Utc>] is a count of nanoseconds; [Duration::seconds] scales it. *)
Abbreviation timestamp := Z.
Definition seconds (n : Z) : Z := (n * 1000000000)%Z.
Definition minutes (n : Z) : Z := seconds (60 * n).

(** ** [anyhow::Result]: a value or the message of the error *)
Inductive result (A : Type) : Type :=
| Ok (a : A)
| Err (message : string).
Arguments Ok {A} a.
Arguments Err {A} message.

#[global] Instance result_ret : MRet result := @Ok.
#[global] Instance result_bind : MBind result := λ A B f m,
  match m with Ok a => f a | Err e => Err e end.
#[global] Instance result_fmap : FMap result := λ A B f m,
  match m with Ok a => Ok (f a) | Err e => Err e end.
#[global] Instance result_eq_dec `{EqDecision A} : EqDecision (result A).
Proof. solve_decision. Defined.

Definition is_ok {A} (r : result A) : bool :=
  match r with Ok _ => true | Err _ => false end.

(** [if condition { return Err(anyhow!(message)) }] *)
Definition bail_if (condition : bool) (message : string) : result unit :=
  if condition then Err message else Ok tt.

(** [option.context(message)?] *)
Definition with_context {A} (o : option A) (message : string) : result A :=
  match o with Some a => Ok a | None => Err message end.

(** [for x in xs { f(x)?; }] *)
Fixpoint for_each {A} (f : A → result unit) (xs : list A) : result unit :=
  match xs with
  | [] => Ok tt
  | x :: rest => f x ;; for_each f rest
  end.

(** [xs.iter().map(f).collect::<Result<Vec<_>>>()] *)
Fixpoint collect {A B} (f : A → result B) (xs : list A) : result (list B) :=
  match xs with
  | [] => Ok []
  | x :: rest => y ← f x; ys ← collect f rest; Ok (y :: ys)
  end.

(** [value.map(f).transpose()?] *)
Definition transpose {A B} (f : A → result B) (o : option A) : result (option B) :=
  match o with None => Ok None | Some a => b ← f a; Ok (Some b) end.

(** ** Transactions

    A handler that runs inside one database transaction maps the database to
    a new database and an answer; an error leaves nothing behind, because the
    transaction is dropped without a commit. *)
Definition txn (S A : Type) : Type := S → result (A * S).

#[global] Instance txn_ret S : MRet (txn S) := λ A a s, Ok (a, s).
#[global] Instance txn_bind S : MBind (txn S) := λ A B f m s,
  match m s with Ok (a, s') => f a s' | Err e => Err e end.

Definition lift {S A} (r : result A) : txn S A := λ s,
  match r with Ok a => Ok (a, s) | Err e => Err e end.
Definition gets {S A} (f : S → A) : txn S A := λ s, Ok (f s, s).
Definition modify {S} (f : S → S) : txn S unit := λ s, Ok (tt, f s).
(** Read something that must be there. *)
Definition fetch {S A} (o : S → option A) (message : string) : txn S A :=
  r ← gets o; lift (with_context r message).

(** Run a transaction against the database: rolled back on an error. *)
Definition run_txn {S A} (t : txn S A) (s : S) : result A * S :=
  match t s with Ok (a, s') => (Ok a, s') | Err e => (Err e, s) end.

(** ** 64-bit integers *)
Definition i64_min : Z := (- 2 ^ 63)%Z.
Definition i64_max : Z := (2 ^ 63 - 1)%Z.
Definition u64_max : Z := (2 ^ 64 - 1)%Z.
Definition in_i64 (z : Z) : bool := ((i64_min <=? z) && (z <=? i64_max))%Z.
Definition checked_i64 (z : Z) : option Z := if in_i64 z then Some z else None.
Definition saturate_i64 (z : Z) : Z := Z.max i64_min (Z.min i64_max z).

(** [(lo..=hi).contains(&value)] *)
Definition in_range (lo hi value : Z) : bool := ((lo <=? value) && (value <=? hi))%Z.

(** ** [Vec::sort_by]: a stable sort; [leb x y] says that [x] may stay before [y] *)
Section sorting.
Context {A : Type} (leb : A → A → bool).

Fixpoint insert_sorted (x : A) (l : list A) : list A :=
  match l with
  | [] => [x]
  | y :: rest => if leb x y then x :: l else y :: insert_sorted x rest
  end.
Definition sort_by (l : list A) : list A := foldr insert_sorted [] l.
End sorting.

(** Every pair of elements, in order. *)
Fixpoint pairwise {A} (R : A → A → Prop) (l : list A) : Prop :=
  match l with
  | [] => True
  | x :: rest => Forall (R x) rest ∧ pairwise R rest
  end.

(** ** Lemmas on results *)
Lemma bind_ok {A B} (f : A → result B) (m : result A) b :
  (m ≫= f) = Ok b ↔ ∃ a, m = Ok a ∧ f a = Ok b.
Proof.
  destruct m; simpl; split; [eauto | by intros (? & [= ->] & ?) | done |].
  by intros (? & ? & ?).
Qed.

Lemma bail_if_ok condition message u : bail_if condition message = Ok u ↔ condition = false.
Proof. destruct u, condition; by simpl. Qed.

Lemma with_context_ok {A} (o : option A) message a : with_context o message = Ok a ↔ o = Some a.
Proof. destruct o; simpl; naive_solver. Qed.

Lemma is_ok_true {A} (r : result A) : is_ok r = true ↔ ∃ a, r = Ok a.
Proof. destruct r; simpl; naive_solver. Qed.

Lemma for_each_ok {A} (f : A → result unit) xs u :
  for_each f xs = Ok u ↔ ∀ x, x ∈ xs → f x = Ok tt.
Proof.
  destruct u. induction xs as [|x xs IH]; simpl.
  - split; [intros _ x Hx; set_solver | done].
  - rewrite bind_ok. split.
    + intros ([] & Hx & Hxs) y [-> | Hy]%elem_of_cons; [done |].
      by apply IH.
    + intros Hall. exists tt. split; [by apply Hall, list_elem_of_here |].
      apply IH. intros y Hy. by apply Hall, list_elem_of_further.
Qed.

Lemma collect_ok {A B} (f : A → result B) xs ys :
  collect f xs = Ok ys ↔ Forall2 (λ x y, f x = Ok y) xs ys.
Proof.
  revert ys. induction xs as [|x xs IH]; intros ys; simpl.
  - split; [intros [= <-]; constructor | by inversion 1].
  - rewrite bind_ok. setoid_rewrite bind_ok. split.
    + intros (y & Hy & zs & Hzs%IH & [= <-]). by constructor.
    + inversion 1; subst. eexists. split; [done |].
      eexists. by rewrite IH.
Qed.

Lemma run_txn_err {S A} (t : txn S A) s e s' :
  run_txn t s = (Err e, s') → s' = s.
Proof. unfold run_txn. destruct (t s) as [[]|]; naive_solver. Qed.

Lemma in_range_spec lo hi v : in_range lo hi v = true ↔ (lo ≤ v ≤ hi)%Z.
Proof. unfold in_range. lia. Qed.

Lemma checked_i64_spec z z' :
  checked_i64 z = Some z' ↔ z' = z ∧ (i64_min ≤ z ≤ i64_max)%Z.
Proof. unfold checked_i64, in_i64. case_match eqn:E; naive_solver lia. Qed.

Lemma saturate_i64_bounds z : (i64_min ≤ saturate_i64 z ≤ i64_max)%Z.
Proof. unfold saturate_i64, i64_min, i64_max. lia. Qed.

Lemma saturate_i64_id z : (i64_min ≤ z ≤ i64_max)%Z → saturate_i64 z = z.
Proof. unfold saturate_i64. lia. Qed.

(** ** Lemmas on sorting *)
Section sorting_lemmas.
Context {A : Type} (leb : A → A → bool).
Notation insert_sorted := (insert_sorted leb).
Notation sort_by := (sort_by leb).

Lemma insert_sorted_perm x l : insert_sorted x l ≡ₚ x :: l.
Proof.
  induction l as [|y l IH]; simpl; [done |]. destruct (leb x y); [done |].
  rewrite IH. by constructor.
Qed.

Lemma sort_by_perm l : sort_by l ≡ₚ l.
Proof.
  induction l as [|x l IH]; simpl; [done |]. by rewrite insert_sorted_perm, IH.
Qed.

Context (leb_total : ∀ x y, leb x y = true ∨ leb y x = true).
Context (leb_trans : ∀ x y z, leb x y = true → leb y z = true → leb x z = true).

Lemma insert_sorted_sorted x l :
  StronglySorted (λ x y, leb x y = true) l →
  StronglySorted (λ x y, leb x y = true) (insert_sorted x l).
Proof using leb_total leb_trans.
  induction 1 as [|y l Hl IH Hy]; simpl; [by repeat constructor |].
  destruct (leb x y) eqn:E.
  - constructor; [by constructor |]. constructor; [done |].
    eapply Forall_impl; [exact Hy |]. simpl. eauto.
  - constructor; [done |]. rewrite insert_sorted_perm. constructor; [| done].
    destruct (leb_total x y); congruence.
Qed.

Lemma sort_by_sorted l : StronglySorted (λ x y, leb x y = true) (sort_by l).
Proof using leb_total leb_trans.
  induction l as [|x l IH]; simpl; [constructor |]. by apply insert_sorted_sorted.
Qed.
End sorting_lemmas.

(** ** Lemmas on pairs of elements *)
Lemma pairwise_app {A} (R : A → A → Prop) l1 l2 :
  pairwise R (l1 ++ l2) ↔
  pairwise R l1 ∧ pairwise R l2 ∧ ∀ x y, x ∈ l1 → y ∈ l2 → R x y.
Proof.
  induction l1 as [|x l1 IH]; simpl; [set_solver |].
  rewrite IH, Forall_app, !Forall_forall. setoid_rewrite elem_of_cons. naive_solver.
Qed.

Lemma pairwise_NoDup {A} (R : A → A → Prop) l : (∀ x, ¬ R x x) → pairwise R l → NoDup l.
Proof.
  intros HR. induction l as [|x l IH]; simpl; [constructor |].
  intros [Hx Hl]. constructor; [| auto]. intros Hin. rewrite Forall_forall in Hx. by eapply HR, Hx.
Qed.

(** ** Automation

    [res_step] takes one layer off a hypothesis that a result is [Ok]:
    a bind, a guard, a lookup. [res_inv] repeats it. *)
Ltac res_step :=
  match goal with
  | H : Ok _ = Ok _ |- _ => injection H as H; subst
  | H : Err _ = Ok _ |- _ => discriminate H
  | H : Ok _ = Err _ |- _ => discriminate H
  | H : Some _ = Some _ |- _ => injection H as H; subst
  | H : None = Some _ |- _ => discriminate H
  | H : Some _ = None |- _ => discriminate H
  | u : unit |- _ => destruct u
  | H : bail_if _ _ = Ok _ |- _ => apply bail_if_ok in H
  | H : with_context _ _ = Ok _ |- _ => apply with_context_ok in H
  | H : mbind _ _ = Ok _ |- _ =>
      let a := fresh "v" in let Ha := fresh "Hv" in
      apply bind_ok in H as (a & Ha & H)
  | H : _ ∨ _ = false |- _ => apply orb_false_iff in H as [? H]
  | H : (_ || _)%bool = false |- _ => apply orb_false_iff in H as [? H]
  | H : (_ && _)%bool = true |- _ => apply andb_true_iff in H as [? H]
  | H : negb _ = false |- _ => apply negb_false_iff in H
  | H : negb _ = true |- _ => apply negb_true_iff in H
  end.
Ltac res_inv := repeat res_step.

Create HintDb ecorp.
Create Rewrite HintDb ecorp.
#[export] Hint Resolve saturate_i64_bounds : ecorp.
#[export] Hint Rewrite @bind_ok bail_if_ok @with_context_ok @for_each_ok @collect_ok : ecorp.
