(* ===== verification/Text.v ===== *)
(** * Rust strings

    A [str] is a [String.string] of UTF-8 bytes: [str::len] is the number of
    bytes, [str::chars] decodes the Unicode scalar values.  This file holds the
    operations of the standard library's [str] and [char] that the program
    uses, and the lemmas the components share about them. *)
From S2P Require Import Prelude.
From Stdlib Require Import Ascii.

#[global] Arguments String.append !s1 s2 : simpl nomatch.

Definition str_len (s : string) : Z := Z.of_nat (String.length s).
Definition is_empty (s : string) : bool :=
  match s with "" => true | _ => false end.
Definition seqb (a b : string) : bool := String.eqb a b.
#[global] Arguments seqb : simpl never.

(** ** UTF-8 *)
Definition byte_val (a : ascii) : Z := Z.of_N (N_of_ascii a).
Definition val_byte (z : Z) : ascii := ascii_of_N (Z.to_N z).

(** [str::chars] *)
Fixpoint chars (s : string) : list Z :=
  match s with
  | EmptyString => []
  | String a r =>
      let x := byte_val a in
      if (x <? 128)%Z then x :: chars r
      else if (x <? 224)%Z then
        match r with
        | String b r' => ((x - 192) * 64 + (byte_val b - 128))%Z :: chars r'
        | _ => []
        end
      else if (x <? 240)%Z then
        match r with
        | String b (String c r') =>
            ((x - 224) * 4096 + (byte_val b - 128) * 64 + (byte_val c - 128))%Z
              :: chars r'
        | _ => []
        end
      else
        match r with
        | String b (String c (String d r')) =>
            ((x - 240) * 262144 + (byte_val b - 128) * 4096
              + (byte_val c - 128) * 64 + (byte_val d - 128))%Z :: chars r'
        | _ => []
        end
  end.

(** [char::encode_utf8] *)
Definition encode_char (c : Z) : string :=
  (if c <? 128 then String (val_byte c) ""
   else if c <? 2048 then
     String (val_byte (192 + c / 64)) (String (val_byte (128 + c mod 64)) "")
   else if c <? 65536 then
     String (val_byte (224 + c / 4096))
       (String (val_byte (128 + (c / 64) mod 64))
         (String (val_byte (128 + c mod 64)) ""))
   else
     String (val_byte (240 + c / 262144))
       (String (val_byte (128 + (c / 4096) mod 64))
         (String (val_byte (128 + (c / 64) mod 64))
           (String (val_byte (128 + c mod 64)) ""))))%Z.

(** [String::from_iter] of characters *)
Fixpoint of_chars (cs : list Z) : string :=
  match cs with [] => "" | c :: rest => encode_char c +:+ of_chars rest end.

(** A Unicode scalar value (surrogates take no part in a Rust [char]). *)
Definition scalar (c : Z) : bool :=
  (((0 <=? c) && (c <? 55296)) || ((57344 <=? c) && (c <? 1114112)))%Z.

(** The invariant of [str]: the bytes are the encoding of their characters. *)
Definition utf8 (s : string) : bool :=
  forallb scalar (chars s) && seqb (of_chars (chars s)) s.

(** ** Characters *)

(** [char::is_control]: the general category Cc. *)
Definition is_control (c : Z) : bool := ((c <=? 31) || ((127 <=? c) && (c <=? 159)))%Z.

(** [char::is_whitespace]: the property White_Space. *)
Definition is_whitespace (c : Z) : bool :=
  (((9 <=? c) && (c <=? 13)) || (c =? 32) || (c =? 133) || (c =? 160)
   || (c =? 5760) || ((8192 <=? c) && (c <=? 8202)) || (c =? 8232)
   || (c =? 8233) || (c =? 8239) || (c =? 8287) || (c =? 12288))%Z.

Definition is_ascii_digit (c : Z) : bool := ((48 <=? c) && (c <=? 57))%Z.
Definition is_ascii_uppercase (c : Z) : bool := ((65 <=? c) && (c <=? 90))%Z.
Definition is_ascii_lowercase (c : Z) : bool := ((97 <=? c) && (c <=? 122))%Z.
Definition is_ascii_alphanumeric (c : Z) : bool :=
  is_ascii_digit c || is_ascii_uppercase c || is_ascii_lowercase c.
Definition is_ascii_hexdigit (c : Z) : bool :=
  (is_ascii_digit c || ((65 <=? c) && (c <=? 70)) || ((97 <=? c) && (c <=? 102)))%Z.

(** The bytes and the characters of a literal, for [matches!] on a character. *)
Fixpoint bytes (s : string) : list Z :=
  match s with "" => [] | String a r => byte_val a :: bytes r end.
Definition one_of (literal : string) (c : Z) : bool := existsb (Z.eqb c) (bytes literal).

Definition any_char (p : Z → bool) (s : string) : bool := existsb p (chars s).
Definition all_chars (p : Z → bool) (s : string) : bool := forallb p (chars s).
Definition all_bytes (p : Z → bool) (s : string) : bool := forallb p (bytes s).

(** ** Slices *)

(** [str::strip_prefix], [str::starts_with] *)
Fixpoint strip_prefix (p s : string) : option string :=
  match p, s with
  | "", _ => Some s
  | String a p', String b s' => if Ascii.eqb a b then strip_prefix p' s' else None
  | _, _ => None
  end.
Definition starts_with (p s : string) : bool :=
  match strip_prefix p s with Some _ => true | None => false end.

(** [str::strip_suffix], [str::ends_with] *)
Fixpoint strip_suffix (p s : string) : option string :=
  if seqb s p then Some ""
  else match s with "" => None | String a r => String a <$> strip_suffix p r end.
Definition ends_with (p s : string) : bool :=
  match strip_suffix p s with Some _ => true | None => false end.

(** [str::contains] *)
Fixpoint contains (needle s : string) : bool :=
  starts_with needle s ||
  match s with "" => false | String _ r => contains needle r end.

(** [str::split] on an ASCII character *)
Fixpoint split_on (sep : ascii) (s : string) : list string :=
  match s with
  | "" => [""]
  | String a r =>
      if Ascii.eqb a sep then "" :: split_on sep r
      else match split_on sep r with
           | [] => [String a ""]
           | w :: ws => String a w :: ws
           end
  end.

(** [\[_\]::join] *)
Fixpoint join (sep : string) (l : list string) : string :=
  match l with [] => "" | [w] => w | w :: ws => w +:+ sep +:+ join sep ws end.

(** [str::split_once] on an ASCII character *)
Fixpoint split_once (sep : ascii) (s : string) : option (string * string) :=
  match s with
  | "" => None
  | String a r =>
      if Ascii.eqb a sep then Some ("", r)
      else match split_once sep r with Some (x, y) => Some (String a x, y) | None => None end
  end.

(** [str::trim] *)
Fixpoint drop_while (p : Z → bool) (cs : list Z) : list Z :=
  match cs with [] => [] | c :: rest => if p c then drop_while p rest else cs end.
Definition trim_chars (cs : list Z) : list Z :=
  reverse (drop_while is_whitespace (reverse (drop_while is_whitespace cs))).
Definition trim (s : string) : string := of_chars (trim_chars (chars s)).

(** [str::trim_end_matches] of an ASCII character *)
Fixpoint trim_end_matches (c : ascii) (s : string) : string :=
  match s with
  | "" => ""
  | String a r =>
      match trim_end_matches c r with
      | "" => if Ascii.eqb a c then "" else String a ""
      | t => String a t
      end
  end.

(** [str::to_ascii_lowercase], [str::to_ascii_uppercase] act on bytes. *)
Fixpoint map_bytes (f : ascii → ascii) (s : string) : string :=
  match s with "" => "" | String a r => String (f a) (map_bytes f r) end.
Definition lower_byte (a : ascii) : ascii :=
  if is_ascii_uppercase (byte_val a) then val_byte (byte_val a + 32)%Z else a.
Definition upper_byte (a : ascii) : ascii :=
  if is_ascii_lowercase (byte_val a) then val_byte (byte_val a - 32)%Z else a.
Definition to_ascii_lowercase : string → string := map_bytes lower_byte.
Definition to_ascii_uppercase : string → string := map_bytes upper_byte.
Definition eq_ignore_ascii_case (a b : string) : bool :=
  seqb (to_ascii_lowercase a) (to_ascii_lowercase b).

(** [str::replace]: left to right, without overlap; [skip] bytes of the last
    match are still to be passed over. *)
Fixpoint replace_from (skip : nat) (from to s : string) : string :=
  match s with
  | "" => ""
  | String a r =>
      match skip with
      | S k => replace_from k from to r
      | O => if starts_with from s
             then to +:+ replace_from (String.length from - 1) from to r
             else String a (replace_from 0 from to r)
      end
  end.
Definition replace (from to s : string) : string := replace_from 0 from to s.

(** [str::split_whitespace] *)
Fixpoint words_of (word : list Z) (cs : list Z) : list (list Z) :=
  match cs with
  | [] => match word with [] => [] | _ => [reverse word] end
  | c :: rest =>
      if is_whitespace c
      then match word with [] => words_of [] rest | _ => reverse word :: words_of [] rest end
      else words_of (c :: word) rest
  end.
Definition split_whitespace (s : string) : list string := of_chars <$> words_of [] (chars s).

(** [i64::to_string] *)
Definition show_int (z : Z) : string := pretty z.

(** [Ord for str]: byte-wise lexicographic *)
Fixpoint str_leb (a b : string) : bool :=
  match a, b with
  | EmptyString, _ => true
  | String _ _, EmptyString => false
  | String x a, String y b =>
      (byte_val x <? byte_val y)%Z || ((byte_val x =? byte_val y)%Z && str_leb a b)
  end.

(** The newline, tab, carriage return, NUL and double quote characters *)
Definition newline : string := String "010"%char "".
Definition tab : string := String "009"%char "".
Definition carriage_return : string := String "013"%char "".
Definition nul : string := String "000"%char "".
Definition quote : string := String "034"%char "".

(** ** Lemmas: equality and slices *)
Lemma seqb_eq a b : seqb a b = true ↔ a = b.
Proof. apply String.eqb_eq. Qed.

Lemma seqb_neq a b : seqb a b = false ↔ a ≠ b.
Proof. apply String.eqb_neq. Qed.

Lemma seqb_refl a : seqb a a = true.
Proof. by apply seqb_eq. Qed.

Lemma str_app_nil_l s : "" +:+ s = s.
Proof. done. Qed.

Lemma str_app_nil_r s : s +:+ "" = s.
Proof. induction s; simpl; congruence. Qed.

Lemma str_app_assoc a b c : (a +:+ b) +:+ c = a +:+ (b +:+ c).
Proof. induction a; simpl; congruence. Qed.

Lemma str_app_inv_head a b c : a +:+ b = a +:+ c → b = c.
Proof. induction a; simpl; [done |]. intros [= ?]. auto. Qed.

Lemma str_length_app a b :
  String.length (a +:+ b) = (String.length a + String.length b)%nat.
Proof. induction a; simpl; congruence. Qed.

Lemma str_len_nonneg s : (0 ≤ str_len s)%Z.
Proof. unfold str_len. lia. Qed.

Lemma str_len_app a b : str_len (a +:+ b) = (str_len a + str_len b)%Z.
Proof. unfold str_len. rewrite str_length_app. lia. Qed.

Lemma is_empty_spec s : is_empty s = true ↔ s = "".
Proof. by destruct s. Qed.

Lemma strip_prefix_spec p s r : strip_prefix p s = Some r ↔ s = p +:+ r.
Proof.
  revert s. induction p as [|a p IH]; intros s; simpl; [naive_solver |].
  destruct s as [|b s]; [naive_solver |].
  destruct (Ascii.eqb_spec a b) as [->|]; [rewrite IH |]; naive_solver.
Qed.

Lemma starts_with_spec p s : starts_with p s = true ↔ ∃ r, s = p +:+ r.
Proof.
  unfold starts_with. setoid_rewrite <- strip_prefix_spec.
  destruct (strip_prefix p s); naive_solver.
Qed.

Lemma str_app_eq_self a p : p = a +:+ p → a = "".
Proof. intros H%(f_equal String.length). rewrite str_length_app in H. destruct a; simpl in *; [done | lia]. Qed.

Lemma strip_suffix_spec p s r : strip_suffix p s = Some r ↔ s = r +:+ p.
Proof.
  revert r. induction s as [|a s IH]; intros r; simpl.
  - destruct (seqb "" p) eqn:E.
    + apply seqb_eq in E as <-. rewrite str_app_nil_r. naive_solver.
    + apply seqb_neq in E. split; [done |]. destruct r; simpl; congruence.
  - destruct (seqb (String a s) p) eqn:E.
    + apply seqb_eq in E as <-. split; [naive_solver |].
      by intros <-%str_app_eq_self.
    + apply seqb_neq in E. rewrite fmap_Some. setoid_rewrite IH.
      destruct r as [|b r]; simpl; split; naive_solver.
Qed.

Lemma ends_with_spec p s : ends_with p s = true ↔ ∃ r, s = r +:+ p.
Proof.
  unfold ends_with. setoid_rewrite <- strip_suffix_spec.
  destruct (strip_suffix p s); naive_solver.
Qed.

Lemma strip_suffix_app r p : strip_suffix p (r +:+ p) = Some r.
Proof. by apply strip_suffix_spec. Qed.

Lemma strip_suffix_None p s : strip_suffix p s = None ↔ ∀ r, s ≠ r +:+ p.
Proof.
  setoid_rewrite <- strip_suffix_spec. destruct (strip_suffix p s); naive_solver.
Qed.

Lemma contains_spec n s : contains n s = true ↔ ∃ a b, s = a +:+ n +:+ b.
Proof.
  induction s as [|c s IH]; simpl; rewrite orb_true_iff, starts_with_spec.
  - split; [intros [[r ?]|]; [by exists "", r | done] |].
    intros (a & b & H). left. destruct a; simpl in H; [eauto | done].
  - rewrite IH. split.
    + intros [[r ->]|(a & b & ->)]; [by exists "", r | by exists (String c a), b].
    + intros ([|c' a] & b & H); simpl in H; [eauto |]. injection H as -> ->. eauto.
Qed.

Lemma contains_app n a b : contains n b = true → contains n (a +:+ b) = true.
Proof.
  rewrite !contains_spec. intros (x & y & ->). exists (a +:+ x), y.
  by rewrite !str_app_assoc.
Qed.

(** ** Lemmas: splitting *)
Lemma split_on_nonempty sep s : split_on sep s ≠ [].
Proof. destruct s; simpl; [done |]. by repeat case_match. Qed.

Lemma split_on_join sep s : join (String sep "") (split_on sep s) = s.
Proof.
  induction s as [|a s IH]; [done |]; simpl.
  destruct (Ascii.eqb_spec a sep) as [->|].
  - destruct (split_on sep s) eqn:E; [by apply split_on_nonempty in E |].
    simpl in *. by f_equal.
  - destruct (split_on sep s) as [|w [|w' ws]] eqn:E.
    + by apply split_on_nonempty in E.
    + simpl in *. by f_equal.
    + simpl in *. by f_equal.
Qed.

Lemma split_on_app sep a b :
  split_on sep (a +:+ String sep b) = split_on sep a ++ split_on sep b.
Proof.
  induction a as [|c a IH]; simpl; [by rewrite Ascii.eqb_refl |].
  destruct (Ascii.eqb_spec c sep) as [->|]; rewrite IH; [done |].
  destruct (split_on sep a) eqn:E; [by apply split_on_nonempty in E | done].
Qed.

Lemma split_on_fresh sep s :
  (∀ a b, s ≠ a +:+ String sep b) → split_on sep s = [s].
Proof.
  induction s as [|c s IH]; intros Hf; [done |]; simpl.
  destruct (Ascii.eqb_spec c sep) as [->|]; [by destruct (Hf "" s) |].
  rewrite IH; [done |]. intros a b ->. by apply (Hf (String c a) b).
Qed.

Lemma split_on_inj sep a b : split_on sep a = split_on sep b → a = b.
Proof. intros H. by rewrite <- (split_on_join sep a), H, split_on_join. Qed.

Lemma split_on_component sep s w a b :
  w ∈ split_on sep s → w ≠ a +:+ String sep b.
Proof.
  revert w a b. induction s as [|c s IH]; intros w a b; simpl.
  - intros ->%list_elem_of_singleton. by destruct a.
  - destruct (Ascii.eqb_spec c sep) as [->|Hne].
    + intros [->|Hw]%elem_of_cons; [by destruct a | by apply IH].
    + destruct (split_on sep s) as [|v vs] eqn:E; [by apply split_on_nonempty in E |].
      intros [->|Hw]%elem_of_cons.
      * destruct a as [|c' a]; simpl; [congruence |]. intros [= -> Hv].
        exact (IH v a b (list_elem_of_here _ _) Hv).
      * apply IH. by apply list_elem_of_further.
Qed.

(** ** Lemmas: UTF-8 *)
Lemma byte_val_range a : (0 ≤ byte_val a < 256)%Z.
Proof. unfold byte_val. pose proof (N_ascii_bounded a). lia. Qed.

Lemma byte_val_of z : (0 ≤ z < 256)%Z → byte_val (val_byte z) = z.
Proof.
  intros Hz. unfold byte_val, val_byte. rewrite N_ascii_embedding; lia.
Qed.

Lemma val_byte_of a : val_byte (byte_val a) = a.
Proof. unfold byte_val, val_byte. by rewrite N2Z.id, ascii_N_embedding. Qed.

Lemma byte_val_inj a b : byte_val a = byte_val b → a = b.
Proof. intros H. by rewrite <- (val_byte_of a), H, val_byte_of. Qed.

Lemma scalar_range c : scalar c = true → (0 ≤ c < 1114112)%Z.
Proof. unfold scalar. lia. Qed.

Lemma chars_encode c s : scalar c = true → chars (encode_char c +:+ s) = c :: chars s.
Proof.
  intros Hc%scalar_range. unfold encode_char.
  destruct (Z.ltb_spec c 128).
  { simpl. rewrite byte_val_of by lia. case_match; [done | lia]. }
  destruct (Z.ltb_spec c 2048); [| destruct (Z.ltb_spec c 65536)]; simpl;
    rewrite !byte_val_of by (Z.div_mod_to_equations; lia);
    repeat (case_match; [try (exfalso; Z.div_mod_to_equations; lia) |
                         try (exfalso; Z.div_mod_to_equations; lia)]);
    f_equal; Z.div_mod_to_equations; lia.
Qed.

Lemma chars_of_chars cs : forallb scalar cs = true → chars (of_chars cs) = cs.
Proof.
  induction cs as [|c cs IH]; [done |]; simpl.
  intros [Hc Hcs]%andb_true_iff. by rewrite chars_encode, IH.
Qed.

Lemma utf8_spec s : utf8 s = true ↔ forallb scalar (chars s) = true ∧ of_chars (chars s) = s.
Proof. unfold utf8. by rewrite andb_true_iff, seqb_eq. Qed.

Lemma utf8_of_chars cs : forallb scalar cs = true → utf8 (of_chars cs) = true.
Proof. intros H. apply utf8_spec. by rewrite chars_of_chars. Qed.

Lemma of_chars_app a b : of_chars (a ++ b) = of_chars a +:+ of_chars b.
Proof. induction a; simpl; [done |]. by rewrite IHa, str_app_assoc. Qed.

Lemma chars_of_chars_app cs s :
  forallb scalar cs = true → chars (of_chars cs +:+ s) = cs ++ chars s.
Proof.
  induction cs as [|c cs IH]; [done |]; simpl.
  intros [Hc Hcs]%andb_true_iff. by rewrite str_app_assoc, chars_encode, IH.
Qed.

Lemma chars_app a b : utf8 a = true → chars (a +:+ b) = chars a ++ chars b.
Proof.
  intros [Hs Ha]%utf8_spec. rewrite <- Ha at 1. by apply chars_of_chars_app.
Qed.

Lemma utf8_app a b : utf8 a = true → utf8 b = true → utf8 (a +:+ b) = true.
Proof.
  intros Ha Hb. apply utf8_spec. rewrite chars_app by done.
  apply utf8_spec in Ha as [Ha1 Ha2], Hb as [Hb1 Hb2].
  by rewrite forallb_app, Ha1, Hb1, of_chars_app, Ha2, Hb2.
Qed.

(** ** Lemmas: trimming *)
Lemma drop_while_suffix p cs : ∃ pre, cs = pre ++ drop_while p cs ∧ forallb p pre = true.
Proof.
  induction cs as [|c cs (pre & Hcs & Hp)]; simpl; [by exists [] |].
  destruct (p c) eqn:E; [exists (c :: pre) | by exists []].
  simpl. rewrite E. split; [by f_equal | done].
Qed.

Lemma drop_while_head p c cs : p c = false → drop_while p (c :: cs) = c :: cs.
Proof. simpl. by intros ->. Qed.

Lemma drop_while_first p cs :
  drop_while p cs = [] ∨ ∃ c rest, drop_while p cs = c :: rest ∧ p c = false.
Proof.
  induction cs as [|c cs IH]; simpl; [by left |].
  destruct (p c) eqn:E; [done | right; eauto].
Qed.

Lemma trim_chars_sublist cs : ∃ pre post,
  cs = pre ++ trim_chars cs ++ post ∧
  forallb is_whitespace pre = true ∧ forallb is_whitespace post = true.
Proof.
  unfold trim_chars.
  destruct (drop_while_suffix is_whitespace cs) as (pre & Hcs & Hpre).
  set (d := drop_while is_whitespace cs) in *.
  destruct (drop_while_suffix is_whitespace (reverse d)) as (post & Hd & Hpost).
  exists pre, (reverse post). split_and!; [| done |].
  - rewrite Hcs at 1. f_equal. rewrite <- (reverse_involutive d), Hd at 1.
    by rewrite reverse_app.
  - apply forallb_forall. intros x Hx. eapply forallb_forall in Hpost; [done |].
    by apply list_elem_of_In, elem_of_reverse, list_elem_of_In.
Qed.

(** [trimmed cs]: no white space at either end. *)
Definition trimmed (cs : list Z) : Prop :=
  (∀ c rest, cs = c :: rest → is_whitespace c = false) ∧
  (∀ c rest, cs = rest ++ [c] → is_whitespace c = false).

Lemma trim_chars_trimmed cs : trimmed (trim_chars cs).
Proof.
  unfold trim_chars. set (d := drop_while is_whitespace cs).
  destruct (drop_while_suffix is_whitespace (reverse d)) as (post & Hd & _).
  destruct (drop_while_first is_whitespace (reverse d)) as [E|(c & rest & E & Hc)]; rewrite E in *.
  { split; intros ? rest H; [done |]. by destruct rest. }
  split.
  - intros c' rest' H.
    destruct (drop_while_first is_whitespace cs) as [E'|(a & r & E' & Ha)]; fold d in E'.
    { rewrite E' in Hd. by apply symmetry, app_nil in Hd as [_ ?]. }
    apply (f_equal reverse) in Hd.
    rewrite reverse_involutive, E', reverse_app, H in Hd. by simplify_eq/=.
  - intros c' rest' H. rewrite reverse_cons in H. by apply app_inj_2 in H as [_ [= <-]].
Qed.

Lemma trim_chars_id cs : trimmed cs → trim_chars cs = cs.
Proof.
  intros [Hhd Htl]. unfold trim_chars.
  assert (drop_while is_whitespace cs = cs) as ->.
  { destruct cs as [|c cs]; [done |]. by eapply drop_while_head, Hhd. }
  destruct (reverse cs) as [|c r] eqn:E.
  { by rewrite <- (reverse_involutive cs), E. }
  rewrite drop_while_head; [by rewrite <- E, reverse_involutive |].
  apply (Htl c (reverse r)). by rewrite <- (reverse_involutive cs), E, reverse_cons.
Qed.

Lemma forallb_app_l {A} (p : A → bool) l1 l2 l3 :
  forallb p (l1 ++ l2 ++ l3) = true → forallb p l2 = true.
Proof. rewrite !forallb_app, !andb_true_iff. tauto. Qed.

Lemma trim_chars_forallb p cs : forallb p cs = true → forallb p (trim_chars cs) = true.
Proof.
  destruct (trim_chars_sublist cs) as (pre & post & H & _).
  rewrite H at 1. apply forallb_app_l.
Qed.

Lemma chars_trim s : utf8 s = true → chars (trim s) = trim_chars (chars s).
Proof.
  intros [Hs _]%utf8_spec. unfold trim. by apply chars_of_chars, trim_chars_forallb.
Qed.

Lemma utf8_trim s : utf8 s = true → utf8 (trim s) = true.
Proof.
  intros [Hs _]%utf8_spec. by apply utf8_of_chars, trim_chars_forallb.
Qed.

Lemma trim_idempotent s : utf8 s = true → trim (trim s) = trim s.
Proof.
  intros Hs. unfold trim at 1. rewrite chars_trim by done.
  rewrite trim_chars_id by apply trim_chars_trimmed. done.
Qed.

Lemma trim_id s : utf8 s = true → trimmed (chars s) → trim s = s.
Proof.
  intros [_ Hs]%utf8_spec Ht. unfold trim. by rewrite trim_chars_id.
Qed.

Lemma trim_substring s : utf8 s = true → ∃ a b, s = a +:+ trim s +:+ b.
Proof.
  intros [_ Hs]%utf8_spec.
  destruct (trim_chars_sublist (chars s)) as (pre & post & H & _).
  exists (of_chars pre), (of_chars post). rewrite <- Hs at 1.
  rewrite H at 1. by rewrite !of_chars_app.
Qed.

Lemma trim_len s : utf8 s = true → (str_len (trim s) ≤ str_len s)%Z.
Proof.
  intros (a & b & H)%trim_substring. rewrite H at 2. rewrite !str_len_app.
  pose proof (str_len_nonneg a). pose proof (str_len_nonneg b). lia.
Qed.

(** ** ASCII text *)

(** A predicate that only ASCII bytes satisfy. *)
Definition ascii_only (p : Z → bool) : Prop := ∀ z, p z = true → (z <? 128)%Z = true.

Lemma chars_ascii p s : ascii_only p → all_bytes p s = true → chars s = bytes s.
Proof.
  unfold all_bytes. intros Hp. induction s as [|a s IH]; simpl; [done |].
  intros [Ha Hs]%andb_true_iff. rewrite (Hp _ Ha). by rewrite IH.
Qed.

Lemma of_chars_bytes p s : ascii_only p → all_bytes p s = true → of_chars (bytes s) = s.
Proof.
  unfold all_bytes. intros Hp. induction s as [|a s IH]; simpl; [done |].
  intros [Ha%Hp Hs]%andb_true_iff. unfold encode_char. rewrite Ha, IH by done. simpl.
  by rewrite val_byte_of.
Qed.

Lemma utf8_ascii p s : ascii_only p → all_bytes p s = true → utf8 s = true.
Proof.
  intros Hp Hs. apply utf8_spec. rewrite (chars_ascii p) by done.
  split; [| by eapply of_chars_bytes].
  unfold all_bytes in Hs. apply forallb_forall. intros x Hx.
  eapply forallb_forall in Hs; [| done].
  assert (0 ≤ x)%Z.
  { clear -Hx. induction s as [|a s IH]; simpl in Hx; [done |].
    destruct Hx as [<-|Hx]; [apply byte_val_range | auto]. }
  apply Hp in Hs. unfold scalar. lia.
Qed.


Lemma trim_ascii p s :
  ascii_only p → (∀ z, p z = true → is_whitespace z = false) → all_bytes p s = true → trim s = s.
Proof.
  intros Hp Hw Hs. pose proof (utf8_ascii _ _ Hp Hs) as Hu. apply trim_id; [done |].
  rewrite (chars_ascii p) by done. unfold all_bytes in Hs. rewrite forallb_forall in Hs.
  split; intros c rest E; apply Hw, Hs; rewrite E.
  - by left.
  - apply in_app_iff. right. by left.
Qed.

Lemma bytes_map f s : bytes (map_bytes f s) = byte_val <$> (f <$> String.list_ascii_of_string s).
Proof. induction s as [|a s IH]; simpl; [done |]. by rewrite IH. Qed.

Lemma lower_byte_idempotent a : lower_byte (lower_byte a) = lower_byte a.
Proof. destruct a as [[] [] [] [] [] [] [] []]; vm_compute; reflexivity. Qed.

Lemma to_ascii_lowercase_idempotent s :
  to_ascii_lowercase (to_ascii_lowercase s) = to_ascii_lowercase s.
Proof.
  unfold to_ascii_lowercase. induction s as [|a s IH]; simpl; [done |].
  by rewrite lower_byte_idempotent, IH.
Qed.

Lemma str_len_lowercase s : str_len (to_ascii_lowercase s) = str_len s.
Proof.
  unfold str_len, to_ascii_lowercase. f_equal. induction s as [|a s IH]; simpl; congruence.
Qed.

Lemma all_bytes_lowercase p s :
  (∀ z, p z = true → is_ascii_uppercase z = true → p (z + 32)%Z = true) →
  all_bytes p s = true → all_bytes p (to_ascii_lowercase s) = true.
Proof.
  unfold all_bytes, to_ascii_lowercase. intros Hp. induction s as [|a s IH]; simpl; [done |].
  intros [Ha Hs]%andb_true_iff. rewrite IH, andb_true_r by done.
  unfold lower_byte. destruct (is_ascii_uppercase (byte_val a)) eqn:E; [| done].
  rewrite byte_val_of; [by apply Hp |]. unfold is_ascii_uppercase in E. lia.
Qed.

(** A well-formed string whose characters are all ASCII is one byte each. *)
Lemma all_chars_ascii p s :
  ascii_only p → utf8 s = true → all_chars p s = true → all_bytes p s = true.
Proof.
  intros Hp [Hsc Hs]%utf8_spec. unfold all_chars, all_bytes. rewrite <- Hs at 2. clear Hs.
  revert Hsc. generalize (chars s). intros cs. induction cs as [|c cs IH]; simpl; [done |].
  intros [Hc Hsc]%andb_true_iff [Hpc Hcs]%andb_true_iff.
  unfold encode_char. rewrite (Hp _ Hpc). simpl.
  apply scalar_range in Hc. pose proof (Hp _ Hpc). rewrite byte_val_of by lia.
  by rewrite Hpc, IH.
Qed.

Lemma all_bytes_app p a b : all_bytes p (a +:+ b) = all_bytes p a && all_bytes p b.
Proof.
  unfold all_bytes. induction a as [|c a IH]; simpl; [done |]. by rewrite IH, andb_assoc.
Qed.

Lemma all_bytes_impl p q s : (∀ z, p z = true → q z = true) → all_bytes p s = true → all_bytes q s = true.
Proof.
  unfold all_bytes. intros Hpq. rewrite !forallb_forall. intros H x Hx. by apply Hpq, H.
Qed.

Lemma any_char_ascii p q s :
  ascii_only p → (∀ z, p z = true → q z = false) → all_bytes p s = true → any_char q s = false.
Proof.
  intros Hp Hq Hs. unfold any_char. rewrite (chars_ascii p) by done.
  apply not_true_iff_false. intros (x & Hx & Hqx)%existsb_exists.
  unfold all_bytes in Hs. rewrite forallb_forall in Hs. by rewrite Hq in Hqx by by apply Hs.
Qed.

Lemma all_chars_of_bytes p s : ascii_only p → all_bytes p s = true → all_chars p s = true.
Proof. intros Hp Hs. unfold all_chars. by rewrite (chars_ascii p). Qed.

(** ** Decimal integers *)
Lemma pretty_N_char_digit x : is_ascii_digit (byte_val (pretty_N_char x)) = true.
Proof. unfold pretty_N_char. by repeat case_match. Qed.

Lemma pretty_N_go_digits x s :
  all_bytes is_ascii_digit s = true → all_bytes is_ascii_digit (pretty_N_go x s) = true.
Proof.
  revert s. induction (N.lt_wf_0 x) as [x _ IH]. intros s Hs.
  destruct (decide (x = 0%N)) as [->|Hx]; [by rewrite pretty_N_go_0 |].
  rewrite pretty_N_go_step by lia. apply IH; [apply N.div_lt; lia |].
  unfold all_bytes in *. simpl. by rewrite pretty_N_char_digit.
Qed.

Lemma pretty_N_go_len k x s :
  (x < 10 ^ N.of_nat k)%N → (str_len (pretty_N_go x s) ≤ Z.of_nat k + str_len s)%Z.
Proof.
  revert x s. induction k as [|k IH]; intros x s Hx.
  { assert (x = 0%N) as -> by (simpl in Hx; lia). rewrite pretty_N_go_0. lia. }
  destruct (decide (x = 0%N)) as [->|H0]; [rewrite pretty_N_go_0; lia |].
  rewrite pretty_N_go_step by lia.
  assert (x / 10 < 10 ^ N.of_nat k)%N as Hd.
  { apply N.Div0.div_lt_upper_bound. rewrite Nat2N.inj_succ, N.pow_succ_r' in Hx. lia. }
  etrans; [apply IH, Hd |]. unfold str_len. simpl. lia.
Qed.

Lemma show_int_pos z : (0 < z)%Z → show_int z = pretty_N_go (Z.to_N z) "".
Proof.
  destruct z as [|p|p]; try lia. intros _. unfold show_int. simpl.
  unfold pretty, pretty_Z, pretty, pretty_positive, pretty, pretty_N. by rewrite decide_False.
Qed.

Lemma show_int_digits z : (0 < z)%Z → all_bytes is_ascii_digit (show_int z) = true.
Proof. intros Hz. rewrite show_int_pos by done. by apply pretty_N_go_digits. Qed.

Lemma show_int_len z : (0 < z ≤ i64_max)%Z → (str_len (show_int z) ≤ 19)%Z.
Proof.
  intros [Hz Hm]. rewrite show_int_pos by done. etrans; [apply (pretty_N_go_len 19) |].
  - unfold i64_max in Hm. simpl. lia.
  - done.
Qed.

(** ** Trailing characters *)
Lemma trim_end_matches_id c s : all_bytes (λ z, negb (z =? byte_val c)%Z) s = true → trim_end_matches c s = s.
Proof.
  unfold all_bytes. induction s as [|a s IH]; simpl; [done |].
  intros [Ha Hs]%andb_true_iff. rewrite IH by done. destruct s; [| done].
  destruct (Ascii.eqb_spec a c) as [->|]; [by rewrite Z.eqb_refl in Ha | done].
Qed.

Lemma trim_end_matches_app c a b :
  b ≠ "" → trim_end_matches c b = b → trim_end_matches c (a +:+ b) = a +:+ b.
Proof.
  intros Hb Ht. induction a as [|x a IH]; simpl; [done |]. rewrite IH.
  destruct (a +:+ b) eqn:E; [| done]. destruct a; simpl in E; [by subst | done].
Qed.

(** ** Common suffixes *)
Lemma str_app_inv_tail a b c : a +:+ c = b +:+ c → a = b.
Proof.
  revert b. induction a as [|x a IH]; intros [|y b]; simpl; try done.
  - intros H. apply (f_equal String.length) in H. simpl in H. rewrite str_length_app in H. lia.
  - intros H. apply (f_equal String.length) in H. simpl in H. rewrite str_length_app in H. lia.
  - intros [= -> H]. by rewrite (IH _ H).
Qed.

Fixpoint last_char (s : string) : option ascii :=
  match s with
  | "" => None
  | String a "" => Some a
  | String _ r => last_char r
  end.

Lemma last_char_app a s : s ≠ "" → last_char (a +:+ s) = last_char s.
Proof.
  intros Hs. induction a as [|x a IH]; [done |]. simpl. rewrite <- IH.
  destruct (a +:+ s) eqn:E; [| done]. destruct a; simpl in E; done.
Qed.

(** ** Lemmas: the order of strings *)
Lemma str_leb_total a b : str_leb a b = true ∨ str_leb b a = true.
Proof.
  revert b. induction a as [|x a IH]; intros [|y b]; simpl; auto.
  destruct (IH b) as [-> | ->]; rewrite ?andb_true_r; lia.
Qed.

Lemma str_leb_trans a b c : str_leb a b = true → str_leb b c = true → str_leb a c = true.
Proof.
  revert b c. induction a as [|x a IH]; intros [|y b] [|z c]; simpl; try done.
  specialize (IH b c). destruct (str_leb a b), (str_leb b c), (str_leb a c);
    rewrite ?andb_true_r, ?andb_false_r, ?orb_false_r; try lia.
  all: specialize (IH eq_refl eq_refl); done.
Qed.

Lemma str_leb_antisym a b : str_leb a b = true → str_leb b a = true → a = b.
Proof.
  revert b. induction a as [|x a IH]; intros [|y b]; simpl; try done.
  intros H1 H2. assert (byte_val x = byte_val y) as E.
  { destruct (str_leb a b), (str_leb b a); lia. }
  apply byte_val_inj in E as <-. rewrite Z.ltb_irrefl, Z.eqb_refl in *. simpl in *. f_equal. auto.
Qed.

(** ** Lemmas: mapping bytes, replacing *)
Lemma split_on_map f sep s :
  (∀ c, f c = sep ↔ c = sep) → split_on sep (map_bytes f s) = map_bytes f <$> split_on sep s.
Proof.
  intros Hf. induction s as [|c s IH]; simpl; [done |]. rewrite IH.
  destruct (Ascii.eqb_spec c sep) as [->|Hc].
  - by rewrite (proj2 (Hf sep) eq_refl), Ascii.eqb_refl.
  - destruct (Ascii.eqb_spec (f c) sep) as [Hs|_]; [by destruct Hc; apply Hf |].
    destruct (split_on sep s) as [|w ws] eqn:E; [by apply split_on_nonempty in E | done].
Qed.

Lemma split_on_lowercase s :
  split_on "/"%char (to_ascii_lowercase s) = to_ascii_lowercase <$> split_on "/"%char s.
Proof.
  apply split_on_map. intros c. destruct c as [[] [] [] [] [] [] [] []]; vm_compute; split; congruence.
Qed.

Lemma starts_with_dot_lowercase s : starts_with "." (to_ascii_lowercase s) = starts_with "." s.
Proof. destruct s as [|[[] [] [] [] [] [] [] []] s]; vm_compute; done. Qed.

Lemma replace_absent from to s : contains from s = false → replace from to s = s.
Proof.
  unfold replace. induction s as [|c s IH]; simpl; [done |].
  intros [H1 H2]%orb_false_iff. by rewrite H1, IH.
Qed.

Lemma starts_with_app p a s : starts_with p s = false → starts_with (p +:+ a) s = false.
Proof.
  rewrite <- !not_true_iff_false, !starts_with_spec. intros Hn [r ->]. apply Hn.
  exists (a +:+ r). by rewrite str_app_assoc.
Qed.
