(* ===== verification/Json.v ===== *)
(** * JSON values

    [serde_json::Value] as the program uses it: the constructors of the type,
    the accessors [as_i64], [as_u64], [as_str], [as_bool], [as_array],
    [as_object], [get], [pointer], and the insertions and removals of an object,
    whose entries are kept in the order of their keys. *)
From S2P Require Import Prelude Text.
From Stdlib Require Import Ascii.

Inductive json : Type :=
| JNull
| JBool (b : bool)
| JInt (z : Z)                        (* an integer literal *)
| JFloat (literal : string)           (* any other number, not inspected *)
| JStr (s : string)
| JArr (values : list json)
| JObj (entries : list (string * json)).

Abbreviation json_map := (list (string * json)).

(** ** Accessors *)
Definition as_i64 (v : json) : option Z :=
  match v with JInt z => if in_i64 z then Some z else None | _ => None end.
Definition as_u64 (v : json) : option Z :=
  match v with JInt z => if in_range 0 u64_max z then Some z else None | _ => None end.
Definition as_str (v : json) : option string :=
  match v with JStr s => Some s | _ => None end.
Definition as_bool (v : json) : option bool :=
  match v with JBool b => Some b | _ => None end.
Definition as_array (v : json) : option (list json) :=
  match v with JArr l => Some l | _ => None end.
Definition as_object (v : json) : option json_map :=
  match v with JObj o => Some o | _ => None end.
Definition is_null (v : json) : bool := match v with JNull => true | _ => false end.
Definition is_object (v : json) : bool := match v with JObj _ => true | _ => false end.

(** ** Objects *)
Fixpoint obj_get (key : string) (o : json_map) : option json :=
  match o with
  | [] => None
  | (k, v) :: rest => if seqb k key then Some v else obj_get key rest
  end.

Fixpoint obj_insert (key : string) (value : json) (o : json_map) : json_map :=
  match o with
  | [] => [(key, value)]
  | (k, v) :: rest =>
      if seqb k key then (key, value) :: rest
      else if String.ltb key k then (key, value) :: o
      else (k, v) :: obj_insert key value rest
  end.

Fixpoint obj_remove (key : string) (o : json_map) : json_map :=
  match o with
  | [] => []
  | (k, v) :: rest => if seqb k key then rest else (k, v) :: obj_remove key rest
  end.

(** [json!({...})] *)
Definition json_object (entries : list (string * json)) : json :=
  JObj (foldl (λ o '(k, v), obj_insert k v o) [] entries).

(** [value.get(key)] *)
Definition get (key : string) (v : json) : option json :=
  match v with JObj o => obj_get key o | _ => None end.

(** [value.pointer("/a/b")], for the tokens of the pointer; the program names
    object members only, and a non-numeric token finds nothing in an array. *)
Fixpoint pointer (tokens : list string) (v : json) : option json :=
  match tokens with
  | [] => Some v
  | t :: rest => v' ← get t v; pointer rest v'
  end.

Definition json_opt_str (o : option string) : json :=
  match o with Some s => JStr s | None => JNull end.

(** ** Structural equality, [==] on values *)
Fixpoint json_eqb (a b : json) {struct a} : bool :=
  match a, b with
  | JNull, JNull => true
  | JBool x, JBool y => Bool.eqb x y
  | JInt x, JInt y => (x =? y)%Z
  | JFloat x, JFloat y => seqb x y
  | JStr x, JStr y => seqb x y
  | JArr l, JArr m =>
      (fix go l m := match l, m with
         | [], [] => true
         | x :: l', y :: m' => json_eqb x y && go l' m'
         | _, _ => false end) l m
  | JObj o, JObj p =>
      (fix go o p := match o, p with
         | [], [] => true
         | (k, x) :: o', (h, y) :: p' => seqb k h && json_eqb x y && go o' p'
         | _, _ => false end) o p
  | _, _ => false
  end.

(** The induction principle that reaches into arrays and objects. *)
Section json_ind_nested.
Context (P : json → Prop).
Hypothesis (Hnull : P JNull) (Hbool : ∀ b, P (JBool b)) (Hint : ∀ z, P (JInt z))
  (Hfloat : ∀ s, P (JFloat s)) (Hstr : ∀ s, P (JStr s))
  (Harr : ∀ l, Forall P l → P (JArr l))
  (Hobj : ∀ o, Forall (λ kv, P kv.2) o → P (JObj o)).

Fixpoint json_nested_ind (v : json) : P v :=
  match v with
  | JNull => Hnull
  | JBool b => Hbool b
  | JInt z => Hint z
  | JFloat s => Hfloat s
  | JStr s => Hstr s
  | JArr l => Harr l ((fix go l : Forall P l := match l with
      | [] => List.Forall_nil _
      | x :: l' => List.Forall_cons _ _ _ (json_nested_ind x) (go l') end) l)
  | JObj o => Hobj o ((fix go o : Forall (λ kv, P kv.2) o := match o with
      | [] => List.Forall_nil _
      | kv :: o' => List.Forall_cons _ kv _ (json_nested_ind kv.2) (go o') end) o)
  end.
End json_ind_nested.

Lemma json_eqb_eq a b : json_eqb a b = true ↔ a = b.
Proof.
  revert b. induction a as [|x|x|x|x|l IH|o IH] using json_nested_ind;
    intros b; destruct b as [|y|y|y|y|m|p]; simpl; try (split; congruence).
  - rewrite Bool.eqb_true_iff. split; congruence.
  - rewrite Z.eqb_eq. split; congruence.
  - rewrite seqb_eq. split; congruence.
  - rewrite seqb_eq. split; congruence.
  - transitivity (l = m); [| split; congruence].
    revert m. induction IH as [|x l Hx _ IHl]; intros [|y m]; try (split; congruence).
    rewrite andb_true_iff, Hx, IHl. split; [by intros [-> ->] | by intros [= -> ->]].
  - transitivity (o = p); [| split; congruence].
    revert p. induction IH as [|[k x] o Hx _ IHo]; intros [|[h y] p]; try (split; congruence).
    simpl in Hx. rewrite !andb_true_iff, seqb_eq, Hx, IHo.
    split; [by intros [[-> ->] ->] | by intros [= -> -> ->]].
Qed.

#[global] Instance json_eq_dec : EqDecision json.
Proof.
  intros a b. destruct (json_eqb a b) eqn:E.
  - left. by apply json_eqb_eq.
  - right. intros H%json_eqb_eq. congruence.
Defined.

(** ** Lemmas on objects *)
Lemma obj_get_insert key value o : obj_get key (obj_insert key value o) = Some value.
Proof.
  induction o as [|[k v] o IH]; simpl; [by rewrite seqb_refl |].
  destruct (seqb k key) eqn:E; simpl; [by rewrite seqb_refl |].
  destruct (String.ltb key k); simpl; [by rewrite seqb_refl | by rewrite E].
Qed.

Lemma obj_get_insert_ne key key' value o :
  key ≠ key' → obj_get key' (obj_insert key value o) = obj_get key' o.
Proof.
  intros Hne%seqb_neq. induction o as [|[k v] o IH]; simpl; [by rewrite Hne |].
  destruct (seqb k key) eqn:E; simpl.
  - apply seqb_eq in E as ->. by rewrite Hne.
  - destruct (String.ltb key k); simpl; [by rewrite Hne |]. by rewrite IH.
Qed.

(** The insertion point of a key does not move: inserting an entry again, also
    after other keys were inserted, changes nothing. *)
Lemma ltb_cons a s b t :
  String.ltb (String a s) (String b t) = true ↔
  (N_of_ascii a < N_of_ascii b)%N ∨ a = b ∧ String.ltb s t = true.
Proof.
  unfold String.ltb. simpl. unfold Ascii.compare.
  destruct (N.compare_spec (N_of_ascii a) (N_of_ascii b)) as [E|E|E].
  - apply (f_equal ascii_of_N) in E. rewrite !ascii_N_embedding in E. subst.
    split; [by right | by intros [?%N.lt_irrefl|[_ ?]]].
  - split; [by left | done].
  - split; [done |]. intros [?|[-> _]]; lia.
Qed.

Lemma ltb_trans a b c : String.ltb a b = true → String.ltb b c = true → String.ltb a c = true.
Proof.
  revert b c. induction a as [|x a IH]; intros [|y b] [|z c]; try done.
  rewrite !ltb_cons. intros [?|[-> ?]] [?|[-> ?]].
  - left. lia.
  - by left.
  - by left.
  - right. split; [done |]. by eapply IH.
Qed.

Lemma ltb_total a b : String.ltb a b = false → String.ltb b a = false → a = b.
Proof.
  unfold String.ltb. rewrite (String.compare_antisym b a).
  destruct (String.compare a b) eqn:E; simpl; [| done | done].
  intros _ _. by apply String.compare_eq_iff.
Qed.

Lemma ltb_irrefl a : String.ltb a a = false.
Proof.
  induction a as [|x a IH]; [done |]. apply not_true_iff_false.
  intros [?|[_ ?]]%ltb_cons; [lia | congruence].
Qed.

Lemma obj_insert_again key value o :
  obj_insert key value (obj_insert key value o) = obj_insert key value o.
Proof.
  induction o as [|[k v] o IH]; simpl; [by rewrite seqb_refl |].
  destruct (seqb k key) eqn:E; simpl; [by rewrite seqb_refl |].
  destruct (String.ltb key k) eqn:L; simpl; [by rewrite seqb_refl |].
  by rewrite E, L, IH.
Qed.

Lemma obj_insert_stable key value key' value' o :
  key ≠ key' → obj_insert key value o = o →
  obj_insert key value (obj_insert key' value' o) = obj_insert key' value' o.
Proof.
  intros Hne. pose proof (proj2 (seqb_neq key' key) (not_eq_sym Hne)) as Hne'.
  induction o as [|[k v] o IH]; simpl; [done |].
  destruct (seqb k key) eqn:E.
  - apply seqb_eq in E as ->. intros [= ->].
    rewrite (proj2 (seqb_neq key key') Hne). destruct (String.ltb key' key) eqn:L; simpl.
    + rewrite Hne'. destruct (String.ltb key key') eqn:L'.
      * pose proof (ltb_trans _ _ _ L L') as H. by rewrite ltb_irrefl in H.
      * by rewrite seqb_refl.
    + by rewrite seqb_refl.
  - destruct (String.ltb key k) eqn:L; [intros [= H1 H2 H3]; by rewrite H1, seqb_refl in E |].
    intros [= H]. destruct (seqb k key') eqn:E'; simpl.
    + apply seqb_eq in E' as ->. by rewrite E, L, H.
    + destruct (String.ltb key' k) eqn:L'; simpl; [| by rewrite E, L, (IH H)].
      rewrite Hne', E, L, H. destruct (String.ltb key key') eqn:L2; [| done].
      by rewrite (ltb_trans _ _ _ L2 L') in L.
Qed.

Lemma as_object_Some v o : as_object v = Some o ↔ v = JObj o.
Proof. destruct v; simpl; naive_solver. Qed.
