(* ===== verification/Domain.v ===== *)
(** * The domain vocabulary (crates/crony-domain)

    The status enumerations with their wire names ([as_str] in the domain crate,
    [parse_*] in the store), the task contract, the planned graph, the verifier
    policy, the portable path and write-scope grammar, and the two questions a
    plan answers about its final outputs. *)
From S2P Require Import Prelude Text.
From Stdlib Require Import Ascii.

(** ** Enumerations and their wire names *)

(** [assoc v table] is the arm of [match v { "name" => value, .. }]. *)
Fixpoint assoc {A} (v : string) (table : list (string * A)) : option A :=
  match table with
  | [] => None
  | (name, a) :: rest => if seqb v name then Some a else assoc v rest
  end.

Definition parse_enum {A} (what : string) (table : list (string * A)) (v : string) : result A :=
  with_context (assoc v table) ("unknown " +:+ what +:+ " " +:+ v).

Module AgentStatus.
Inductive agent_status :=
| Idle | Starting | Working | Blocked | Reviewing | Offline.

Definition agent_status_as_str (s : agent_status) : string :=
  match s with
  | Idle => "idle" | Starting => "starting" | Working => "working"
  | Blocked => "blocked" | Reviewing => "reviewing" | Offline => "offline"
  end.

Definition parse_agent_status : string → result agent_status :=
  parse_enum "agent status"
    [("idle", Idle); ("starting", Starting); ("working", Working);
     ("blocked", Blocked); ("reviewing", Reviewing); ("offline", Offline)].

#[global] Instance agent_status_eq : EqDecision agent_status.
Proof. solve_decision. Defined.
End AgentStatus.
Export AgentStatus (agent_status).

Module MissionStatus.
Inductive mission_status := Draft | Ready | Running | Completed | Failed | Cancelled.

Definition mission_status_as_str (s : mission_status) : string :=
  match s with
  | Draft => "draft" | Ready => "ready" | Running => "running"
  | Completed => "completed" | Failed => "failed" | Cancelled => "cancelled"
  end.

Definition parse_mission_status : string → result mission_status :=
  parse_enum "mission status"
    [("draft", Draft); ("ready", Ready); ("running", Running);
     ("completed", Completed); ("failed", Failed); ("cancelled", Cancelled)].

#[global] Instance mission_status_eq : EqDecision mission_status.
Proof. solve_decision. Defined.
End MissionStatus.
Export MissionStatus (mission_status).

Module TaskStatus.
Inductive task_status :=
| Pending | Ready | Claimed | Running | Blocked | AwaitingApproval
| VerificationFailed | Review | Completed | Failed | Cancelled.

Definition task_status_as_str (s : task_status) : string :=
  match s with
  | Pending => "pending" | Ready => "ready" | Claimed => "claimed"
  | Running => "running" | Blocked => "blocked"
  | AwaitingApproval => "awaiting_approval"
  | VerificationFailed => "verification_failed" | Review => "review"
  | Completed => "completed" | Failed => "failed" | Cancelled => "cancelled"
  end.

Definition parse_task_status : string → result task_status :=
  parse_enum "task status"
    [("pending", Pending); ("ready", Ready); ("claimed", Claimed);
     ("running", Running); ("blocked", Blocked);
     ("awaiting_approval", AwaitingApproval);
     ("verification_failed", VerificationFailed); ("review", Review);
     ("completed", Completed); ("failed", Failed); ("cancelled", Cancelled)].

#[global] Instance task_status_eq : EqDecision task_status.
Proof. solve_decision. Defined.
End TaskStatus.
Export TaskStatus (task_status).

Module RunStatus.
Inductive run_status :=
| Provisioning | Starting | Running | WaitingForInput | WaitingForApproval
| Verifying | Completed | Failed | Cancelled | Lost.

Definition run_status_as_str (s : run_status) : string :=
  match s with
  | Provisioning => "provisioning" | Starting => "starting" | Running => "running"
  | WaitingForInput => "waiting_for_input"
  | WaitingForApproval => "waiting_for_approval" | Verifying => "verifying"
  | Completed => "completed" | Failed => "failed" | Cancelled => "cancelled"
  | Lost => "lost"
  end.

Definition parse_run_status : string → result run_status :=
  parse_enum "run status"
    [("provisioning", Provisioning); ("starting", Starting); ("running", Running);
     ("waiting_for_input", WaitingForInput);
     ("waiting_for_approval", WaitingForApproval); ("verifying", Verifying);
     ("completed", Completed); ("failed", Failed); ("cancelled", Cancelled);
     ("lost", Lost)].

#[global] Instance run_status_eq : EqDecision run_status.
Proof. solve_decision. Defined.
End RunStatus.
Export RunStatus (run_status).

Module ItemState.
Inductive factory_work_item_state :=
| Claimed | MissionCreated | Running | Blocked | AwaitingApproval
| VerificationFailed | Verified | Publishing | Published | Failed | Cancelled.

Definition item_state_as_str (s : factory_work_item_state) : string :=
  match s with
  | Claimed => "claimed" | MissionCreated => "mission_created"
  | Running => "running" | Blocked => "blocked"
  | AwaitingApproval => "awaiting_approval"
  | VerificationFailed => "verification_failed" | Verified => "verified"
  | Publishing => "publishing" | Published => "published"
  | Failed => "failed" | Cancelled => "cancelled"
  end.

Definition parse_factory_work_item_state : string → result factory_work_item_state :=
  parse_enum "factory work-item state"
    [("claimed", Claimed); ("mission_created", MissionCreated);
     ("running", Running); ("blocked", Blocked);
     ("awaiting_approval", AwaitingApproval);
     ("verification_failed", VerificationFailed); ("verified", Verified);
     ("publishing", Publishing); ("published", Published);
     ("failed", Failed); ("cancelled", Cancelled)].

#[global] Instance item_state_eq : EqDecision factory_work_item_state.
Proof. solve_decision. Defined.
End ItemState.
Export ItemState (factory_work_item_state).

Module PublicationState.
Inductive publication_state :=
| Requested | Publishing | BranchPushed | PullRequestCreated | Published.

Definition publication_state_as_str (s : publication_state) : string :=
  match s with
  | Requested => "requested" | Publishing => "publishing"
  | BranchPushed => "branch_pushed"
  | PullRequestCreated => "pull_request_created" | Published => "published"
  end.

Definition parse_pull_request_publication_state : string → result publication_state :=
  parse_enum "pull-request publication state"
    [("requested", Requested); ("publishing", Publishing);
     ("branch_pushed", BranchPushed);
     ("pull_request_created", PullRequestCreated); ("published", Published)].

#[global] Instance publication_state_eq : EqDecision publication_state.
Proof. solve_decision. Defined.
End PublicationState.
Export PublicationState (publication_state).

(** What the database boundary needs of a status type: printing and parsing
    are inverse to each other. *)
Class WireEnum (A : Type) := {
  wire : A → string;
  unwire : string → result A;
}.
Class WireEnumLaws (A : Type) `{WireEnum A} := {
  unwire_wire : ∀ a, unwire (wire a) = Ok a;
  wire_unwire : ∀ s a, unwire s = Ok a → wire a = s;
}.

#[global] Instance agent_status_wire : WireEnum agent_status :=
  {| wire := AgentStatus.agent_status_as_str; unwire := AgentStatus.parse_agent_status |}.
#[global] Instance mission_status_wire : WireEnum mission_status :=
  {| wire := MissionStatus.mission_status_as_str; unwire := MissionStatus.parse_mission_status |}.
#[global] Instance task_status_wire : WireEnum task_status :=
  {| wire := TaskStatus.task_status_as_str; unwire := TaskStatus.parse_task_status |}.
#[global] Instance run_status_wire : WireEnum run_status :=
  {| wire := RunStatus.run_status_as_str; unwire := RunStatus.parse_run_status |}.
#[global] Instance item_state_wire : WireEnum factory_work_item_state :=
  {| wire := ItemState.item_state_as_str;
     unwire := ItemState.parse_factory_work_item_state |}.
#[global] Instance publication_state_wire : WireEnum publication_state :=
  {| wire := PublicationState.publication_state_as_str;
     unwire := PublicationState.parse_pull_request_publication_state |}.

(** ** Deliverables, verifier policies and task contracts *)
Module DeliverableForm.
Inductive deliverable_form :=
| CommitBranch | Patch | Archive | TypedArtifactSet | ReviewOnlyReport.
#[global] Instance deliverable_form_eq : EqDecision deliverable_form.
Proof. solve_decision. Defined.
End DeliverableForm.
Export DeliverableForm (deliverable_form).

Record deliverable_spec := DeliverableSpec {
  ds_form : deliverable_form;
  ds_commit_after_verification : bool;
  ds_paths : list string;
}.
#[global] Instance deliverable_spec_eq : EqDecision deliverable_spec.
Proof. solve_decision. Defined.

Inductive verifier_check :=
| CheckArtifact (min_bytes : Z)
| CheckFile (path : string) (min_bytes : Z)
| CheckCommand (program : string) (args : list string) (timeout_ms : Z)
| CheckTest (program : string) (args : list string) (timeout_ms : Z)
| CheckJsonSchema (path : string) (required_keys : list string)
| CheckScreenshot (path : string) (min_bytes : Z).
#[global] Instance verifier_check_eq : EqDecision verifier_check.
Proof. solve_decision. Defined.

Inductive manual_verification_gate :=
| HumanApproval (roles : list string)
| IndependentReview (roles : list string) (exclude_requester : bool).
#[global] Instance manual_verification_gate_eq : EqDecision manual_verification_gate.
Proof. solve_decision. Defined.

Record verification_policy := VerificationPolicy {
  vp_checks : list verifier_check;
  vp_manual_gate : option manual_verification_gate;
}.
#[global] Instance verification_policy_eq : EqDecision verification_policy.
Proof. solve_decision. Defined.

Record task_secret_reference := TaskSecretReference {
  sr_secret_id : uuid;
  sr_env_name : string;
  sr_tool : string;
  sr_resource : string;
}.

Record task_contract := TaskContract {
  tc_objective : string;
  tc_expected_output : string;
  tc_source_repository : option string;
  tc_source_base_ref : option string;
  tc_source_base_commit : option string;
  tc_workspace_connection_id : option uuid;
  tc_acceptance_tests : list string;
  tc_allowed_tools : list string;
  tc_prohibited_actions : list string;
  tc_references : list string;
  tc_write_scope : list string;
  tc_budget_tokens : Z;
  tc_budget_cost_microusd : Z;
  tc_deadline_at : option timestamp;
  tc_escalation : string;
  tc_secret_refs : list task_secret_reference;
  tc_model : option string;
  tc_reasoning_effort : option string;
  tc_deliverable : option deliverable_spec;
}.

(** [TaskContract::normalize_for_adapter] *)
Definition normalize_for_adapter (c : task_contract) (adapter : string) : task_contract :=
  if seqb adapter "fake-process" then
    TaskContract (tc_objective c) (tc_expected_output c) (tc_source_repository c)
      (tc_source_base_ref c) (tc_source_base_commit c) (tc_workspace_connection_id c)
      (tc_acceptance_tests c) (tc_allowed_tools c) (tc_prohibited_actions c)
      (tc_references c) (tc_write_scope c) (tc_budget_tokens c)
      (tc_budget_cost_microusd c) (tc_deadline_at c) (tc_escalation c)
      (tc_secret_refs c) None None (tc_deliverable c)
  else c.

Record planned_task := PlannedTask {
  pt_key : string;
  pt_title : string;
  pt_contract : task_contract;
  pt_assigned_agent_id : uuid;
  pt_required_adapter : string;
  pt_depends_on : list string;
  pt_depth : Z;
  pt_max_attempts : Z;
  pt_verification_policy : verification_policy;
}.

Record planned_agent := PlannedAgent {
  pa_id : uuid;
  pa_name : string;
  pa_role : string;
  pa_adapter : string;
  pa_accent : string;
}.

Record task_graph_plan := TaskGraphPlan {
  plan_strategy : string;
  plan_max_nodes : Z;
  plan_max_depth : Z;
  plan_budget_tokens : Z;
  plan_budget_cost_microusd : Z;
  plan_staffing : list planned_agent;
  plan_tasks : list planned_task;
}.

(** The columns of an agent that planning reads. *)
Record agent := Agent {
  agent_id : uuid;
  agent_name : string;
  agent_role : string;
  agent_adapter : string;
  agent_status_of : agent_status;
  agent_retired_at : option timestamp;
}.

(** ** The portable path grammar *)
Definition repository_relative_path_is_valid (value : string) : bool :=
  negb (is_empty value)
  && (str_len value <=? 500)%Z
  && seqb value (trim value)
  && negb (starts_with "/" value)
  && negb (starts_with "\" value)
  && negb (contains "\" value)
  && negb (contains ":" value)
  && negb (contains "//" value)
  && negb (any_char is_control value)
  && forallb (λ component, negb (is_empty component)
                           && negb (seqb component "." || seqb component ".."))
       (split_on "/"%char value).

Definition write_scope_is_valid (value : string) : bool :=
  if seqb value "**" then true
  else
    let path := default value (strip_suffix "/**" value) in
    repository_relative_path_is_valid path && negb (any_char (one_of "*?[]") path).

Definition write_scope_allows_path (scope path : string) : bool :=
  if seqb scope "**" || seqb scope path then true
  else
    match strip_suffix "/**" scope with
    | None => false
    | Some prefix =>
        seqb path prefix
        || match strip_prefix prefix path with
           | Some suffix => starts_with "/" suffix
           | None => false
           end
    end.

Definition write_scope_is_subset (requested allowed : string) : bool :=
  if negb (write_scope_is_valid requested) || negb (write_scope_is_valid allowed) then false
  else if seqb requested "**" then seqb allowed "**"
  else
    match strip_suffix "/**" requested with
    | Some prefix =>
        (seqb allowed "**" || ends_with "/**" allowed)
        && write_scope_allows_path allowed prefix
    | None => write_scope_allows_path allowed requested
    end.

(** ** Final outputs of a plan *)
Definition find_task (tasks : list planned_task) (key : string) : option planned_task :=
  find (λ t, seqb (pt_key t) key) tasks.

Definition terminal_task_keys (plan : task_graph_plan) : gset string :=
  let internal : gset string :=
    list_to_set (concat (pt_depends_on <$> plan_tasks plan)) in
  list_to_set (pt_key <$> filter (λ t, pt_key t ∉ internal) (plan_tasks plan)).

(** The worklist loop of [provider_backed_outcome_keys]: [remaining] is the
    vector with its last element first, [None] means the fuel ran out. *)
Fixpoint provider_search (fuel : nat) (tasks : list planned_task)
    (visited : gset string) (remaining : list string) : option bool :=
  match fuel with
  | O => None
  | S fuel =>
      match remaining with
      | [] => Some false
      | key :: rest =>
          if decide (key ∈ visited) then provider_search fuel tasks visited rest
          else
            let visited := {[key]} ∪ visited in
            match find_task tasks key with
            | None => provider_search fuel tasks visited rest
            | Some task =>
                if negb (seqb (pt_required_adapter task) "fake-process") then Some true
                else provider_search fuel tasks visited
                       (reverse (pt_depends_on task) ++ rest)
            end
      end
  end.

(** Each task is expanded once, so the edges bound the work. *)
Fixpoint edges (tasks : list planned_task) : nat :=
  match tasks with [] => 0 | t :: rest => length (pt_depends_on t) + edges rest end.
Definition search_fuel (tasks : list planned_task) : nat := 2 + edges tasks.

Definition provider_backed_outcome_keys (plan : task_graph_plan) : gset string :=
  let outcomes := terminal_task_keys plan in
  let tasks := plan_tasks plan in
  list_to_set (pt_key <$>
    filter (λ outcome, provider_search (search_fuel tasks) tasks ∅ [pt_key outcome]
                       = Some true)
      (filter (λ t, pt_key t ∈ outcomes) tasks)).

(** ** Lemmas: enumerations *)
Ltac solve_wire :=
  split;
  [ by intros []
  | intros s a; unfold unwire, wire; simpl;
    lazymatch goal with |- ?p s = _ → _ => unfold p end;
    unfold parse_enum; rewrite with_context_ok; simpl;
    repeat (match goal with |- context [seqb s ?n] =>
              let E := fresh in destruct (seqb s n) eqn:E;
              [apply seqb_eq in E as ->; by intros [= <-] |] end);
    done ].

#[global] Instance agent_status_laws : WireEnumLaws agent_status.
Proof. solve_wire. Qed.
#[global] Instance mission_status_laws : WireEnumLaws mission_status.
Proof. solve_wire. Qed.
#[global] Instance task_status_laws : WireEnumLaws task_status.
Proof. solve_wire. Qed.
#[global] Instance run_status_laws : WireEnumLaws run_status.
Proof. solve_wire. Qed.
#[global] Instance item_state_laws : WireEnumLaws factory_work_item_state.
Proof. solve_wire. Qed.
#[global] Instance publication_state_laws : WireEnumLaws publication_state.
Proof. solve_wire. Qed.

Lemma wire_inj `{WireEnumLaws A} a b : wire a = wire b → a = b.
Proof.
  intros Hab. pose proof (unwire_wire a) as Ha. rewrite Hab, unwire_wire in Ha. congruence.
Qed.

(** ** Lemmas: write scopes *)
Lemma double_star_suffix r : r +:+ "/**" ≠ "**".
Proof.
  intros H%(f_equal String.length). rewrite str_length_app in H. simpl in H. lia.
Qed.

Lemma app_slash_cases p q :
  (∃ s, p = q +:+ String "/" s) ↔
  (match strip_prefix q p with Some suffix => starts_with "/" suffix | None => false end) = true.
Proof.
  destruct (strip_prefix q p) as [r|] eqn:E.
  - apply strip_prefix_spec in E as ->. rewrite starts_with_spec. split.
    + intros [s H%str_app_inv_head]. by exists s.
    + intros [s ->]. by exists s.
  - split; [|done]. intros [s Hs]. by apply strip_prefix_spec in Hs; rewrite Hs in E.
Qed.

(** What a scope admits, by the shape of the scope. *)
Lemma allows_spec scope path :
  write_scope_allows_path scope path = true ↔
  scope = "**" ∨ path = scope ∨
  ∃ q, scope = q +:+ "/**" ∧ (path = q ∨ ∃ s, path = q +:+ String "/" s).
Proof.
  unfold write_scope_allows_path.
  destruct (seqb scope "**") eqn:E1; [apply seqb_eq in E1; naive_solver |].
  destruct (seqb scope path) eqn:E2; [apply seqb_eq in E2; naive_solver |].
  apply seqb_neq in E1, E2. simpl.
  destruct (strip_suffix "/**" scope) as [q|] eqn:E.
  - apply strip_suffix_spec in E as ->.
    rewrite orb_true_iff, seqb_eq, <- app_slash_cases. split.
    + intros H. right; right. by exists q.
    + intros [?|[?|(q' & Hq & H)]]; [done | congruence |].
      apply (f_equal (strip_suffix "/**")) in Hq. rewrite !strip_suffix_app in Hq. naive_solver.
  - rewrite strip_suffix_None in E. split; [done |].
    intros [?|[?|(q & Hq & _)]]; [done | congruence | by destruct (E q)].
Qed.

Lemma scope_valid_cases s :
  write_scope_is_valid s = true →
  s = "**" ∨ (∃ q, s = q +:+ "/**" ∧ repository_relative_path_is_valid q = true)
  ∨ (strip_suffix "/**" s = None ∧ repository_relative_path_is_valid s = true).
Proof.
  unfold write_scope_is_valid. destruct (seqb s "**") eqn:E; [apply seqb_eq in E; by left |].
  destruct (strip_suffix "/**" s) as [q|] eqn:Es; simpl; intros [H _]%andb_true_iff.
  - apply strip_suffix_spec in Es. right; left. by exists q.
  - by right; right.
Qed.

Lemma path_valid_nonempty p : repository_relative_path_is_valid p = true → p ≠ "".
Proof. by intros H ->. Qed.

Lemma join_app sep a b :
  a ≠ [] → b ≠ [] → join sep (a ++ b) = join sep a +:+ sep +:+ join sep b.
Proof.
  intros Ha Hb. induction a as [|w a IH]; [done |]. destruct a as [|w' a]; simpl.
  - by destruct b.
  - simpl in IH. by rewrite IH, !str_app_assoc.
Qed.

Lemma allows_directory q path :
  write_scope_allows_path (q +:+ "/**") path = true ↔
  split_on "/" q `prefix_of` split_on "/" path.
Proof.
  rewrite allows_spec. split.
  - intros [H|[->|(q' & Hq & H)]].
    + by apply double_star_suffix in H.
    + exists ["**"]. by rewrite (split_on_app "/" q "**").
    + apply (f_equal (strip_suffix "/**")) in Hq. rewrite !strip_suffix_app in Hq.
      injection Hq as <-. destruct H as [->|[s ->]]; [done |].
      exists (split_on "/" s). apply split_on_app.
  - intros [k Hk]. right; right. exists q. split; [done |].
    destruct k as [|w k].
    + left. rewrite app_nil_r in Hk. by apply split_on_inj in Hk.
    + right. exists (join "/" (w :: k)).
      rewrite <- (split_on_join "/" path), Hk.
      rewrite join_app; [| apply split_on_nonempty | done].
      by rewrite split_on_join.
Qed.

(** A directory scope below another directory scope. *)
Lemma allows_directory_trans q q' path :
  write_scope_allows_path (q' +:+ "/**") q = true →
  write_scope_allows_path (q +:+ "/**") path = true →
  write_scope_allows_path (q' +:+ "/**") path = true.
Proof. rewrite !allows_directory. by intros ? <-. Qed.

Lemma scope_valid_suffix q :
  write_scope_is_valid (q +:+ "/**") = true → repository_relative_path_is_valid q = true.
Proof.
  intros [H|[(q' & H & Hv)|[H _]]]%scope_valid_cases.
  - by apply double_star_suffix in H.
  - apply (f_equal (strip_suffix "/**")) in H. rewrite !strip_suffix_app in H. naive_solver.
  - by rewrite strip_suffix_app in H.
Qed.

Lemma allows_refl scope : write_scope_allows_path scope scope = true.
Proof. apply allows_spec. by right; left. Qed.

Lemma allows_star path : write_scope_allows_path "**" path = true.
Proof. apply allows_spec. by left. Qed.

(** ** Lexical resolution of a repository path

    The components of a path walked from a directory, the way the operating
    system reads them: [.] stays, [..] leaves the directory. *)
Fixpoint resolve (directory : list string) (components : list string) : list string :=
  match components with
  | [] => directory
  | c :: rest =>
      if seqb c "" || seqb c "." then resolve directory rest
      else if seqb c ".." then resolve (take (length directory - 1) directory) rest
      else resolve (directory ++ [c]) rest
  end.

Lemma resolve_plain directory cs :
  forallb (λ c, negb (is_empty c) && negb (seqb c "." || seqb c "..")) cs = true →
  resolve directory cs = directory ++ cs.
Proof.
  revert directory. induction cs as [|c cs IH]; intros directory; simpl.
  { by rewrite app_nil_r. }
  intros [[Hne [Hd Hdd]%negb_true_iff%orb_false_iff]%andb_true_iff Hcs]%andb_true_iff.
  assert (seqb c "" = false) as -> by (apply seqb_neq; by destruct c).
  rewrite Hd, Hdd. simpl. rewrite IH by done. by rewrite <- app_assoc.
Qed.

Lemma path_valid_components p :
  repository_relative_path_is_valid p = true →
  forallb (λ c, negb (is_empty c) && negb (seqb c "." || seqb c "..")) (split_on "/"%char p) = true.
Proof. unfold repository_relative_path_is_valid. by intros [_ H]%andb_true_iff. Qed.

(** ** Lemmas: the worklist search *)

(** [depends tasks a b]: the task found under [a] depends on [b]. *)
Definition depends (tasks : list planned_task) (a b : string) : Prop :=
  ∃ t, find_task tasks a = Some t ∧ b ∈ pt_depends_on t.

(** A task found under the key that does not run on the deterministic harness. *)
Definition provider_backed (tasks : list planned_task) (key : string) : Prop :=
  ∃ t, find_task tasks key = Some t ∧ pt_required_adapter t ≠ "fake-process".

Lemma find_task_key tasks key t : find_task tasks key = Some t → t ∈ tasks ∧ pt_key t = key.
Proof.
  intros [H1 H2]%find_some. split; [by apply list_elem_of_In | by apply seqb_eq].
Qed.

(** Edges of the tasks that are still to be expanded. *)
Definition unvisited_edges (tasks : list planned_task) (visited : gset string) : nat :=
  edges (filter (λ t, pt_key t ∉ visited) tasks).

Lemma unvisited_edges_mono tasks visited key :
  (unvisited_edges tasks ({[key]} ∪ visited) ≤ unvisited_edges tasks visited)%nat.
Proof.
  unfold unvisited_edges. induction tasks as [|t tasks IH]; [done |].
  rewrite !filter_cons. repeat case_decide; simpl; try lia; exfalso; set_solver.
Qed.

Lemma unvisited_edges_visit tasks visited key t :
  find_task tasks key = Some t → key ∉ visited →
  (length (pt_depends_on t) + unvisited_edges tasks ({[key]} ∪ visited)
   ≤ unvisited_edges tasks visited)%nat.
Proof.
  unfold find_task. induction tasks as [|t' tasks IH]; simpl; [done |].
  intros Hf Hkey. unfold unvisited_edges. rewrite !filter_cons.
  destruct (seqb (pt_key t') key) eqn:E.
  - injection Hf as ->. apply seqb_eq in E as <-.
    rewrite decide_False by set_solver. rewrite decide_True by done. simpl.
    pose proof (unvisited_edges_mono tasks visited (pt_key t)).
    unfold unvisited_edges in *. lia.
  - apply seqb_neq in E. specialize (IH Hf Hkey). unfold unvisited_edges in IH.
    repeat case_decide; simpl; try lia; exfalso; set_solver.
Qed.

(** Enough fuel: the search always answers. *)
Lemma provider_search_total fuel tasks visited remaining :
  (length remaining + unvisited_edges tasks visited < fuel)%nat →
  is_Some (provider_search fuel tasks visited remaining).
Proof.
  revert visited remaining. induction fuel as [|fuel IH]; intros visited remaining; [lia |].
  simpl. destruct remaining as [|key rest]; simpl; [eauto |].
  intros Hfuel. case_decide as Hkey; [apply IH; lia |].
  destruct (find_task tasks key) as [t|] eqn:Hf.
  - case_match; [eauto |]. apply IH.
    pose proof (unvisited_edges_visit tasks visited key t Hf Hkey).
    rewrite length_app, length_reverse. lia.
  - apply IH. pose proof (unvisited_edges_mono tasks visited key). lia.
Qed.

Lemma edges_filter P `{∀ t, Decision (P t)} tasks : (edges (filter P tasks) ≤ edges tasks)%nat.
Proof.
  induction tasks as [|t tasks IH]; [done |]. rewrite filter_cons. case_decide; simpl; lia.
Qed.

Lemma search_fuel_enough tasks key :
  is_Some (provider_search (search_fuel tasks) tasks ∅ [key]).
Proof.
  apply provider_search_total. unfold search_fuel, unvisited_edges.
  apply (Nat.le_lt_trans _ (1 + edges tasks)); [apply le_n_S, edges_filter | lia].
Qed.

(** What a positive answer means. *)
Lemma provider_search_sound fuel tasks visited remaining :
  provider_search fuel tasks visited remaining = Some true →
  ∃ k k', k ∈ remaining ∧ rtc (depends tasks) k k' ∧ provider_backed tasks k'.
Proof.
  revert visited remaining. induction fuel as [|fuel IH]; intros visited remaining; [done |].
  simpl. destruct remaining as [|key rest]; [done |].
  case_decide as Hkey.
  { intros (k & k' & Hk & Hr)%IH. exists k, k'. split; [by apply list_elem_of_further | done]. }
  destruct (find_task tasks key) as [t|] eqn:Hf.
  - destruct (seqb (pt_required_adapter t) "fake-process") eqn:E; simpl.
    + intros (k & k' & [Hk|Hk]%elem_of_app & Hr & Hp)%IH.
      * rewrite elem_of_reverse in Hk. exists key, k'. split_and!; [apply list_elem_of_here | | done].
        eapply rtc_l; [| done]. by exists t.
      * exists k, k'. split; [by apply list_elem_of_further | done].
    + intros _. exists key, key. split_and!; [apply list_elem_of_here | done |].
      apply seqb_neq in E. by exists t.
  - intros (k & k' & Hk & Hr)%IH. exists k, k'. split; [by apply list_elem_of_further | done].
Qed.

(** [visited] has been searched: no visited key is provider-backed, and what a
    visited key depends on is visited or still to be searched. *)
Definition searched (tasks : list planned_task) (visited : gset string)
    (remaining : list string) : Prop :=
  ∀ k, k ∈ visited →
    ¬ provider_backed tasks k ∧ ∀ k', depends tasks k k' → k' ∈ visited ∨ k' ∈ remaining.

Lemma provider_search_complete fuel tasks visited remaining :
  searched tasks visited remaining →
  provider_search fuel tasks visited remaining = Some false →
  ∃ visited', visited ⊆ visited' ∧ (∀ k, k ∈ remaining → k ∈ visited') ∧
    searched tasks visited' [].
Proof.
  revert visited remaining. induction fuel as [|fuel IH]; intros visited remaining Hs; [done |].
  simpl. destruct remaining as [|key rest].
  { intros _. exists visited. split_and!; [done | set_solver | done]. }
  case_decide as Hkey; [| destruct (find_task tasks key) as [t|] eqn:Hf;
    [destruct (seqb (pt_required_adapter t) "fake-process") eqn:E; simpl; [| done] |]].
  all: intros (v & Hv & Hrem & Hs')%IH;
    [exists v; split_and!; [set_solver | set_solver | done] |].
  - intros k Hk. destruct (Hs k Hk) as [? Hd]. split; [done |].
    intros k' [?|[->|?]%elem_of_cons]%Hd; auto.
  - intros k [->%elem_of_singleton|Hk]%elem_of_union.
    + split.
      * intros (t' & Ht' & Hne). rewrite Hf in Ht'. injection Ht' as <-. by apply seqb_eq in E.
      * intros k' (t' & Ht' & Hin). rewrite Hf in Ht'. injection Ht' as <-.
        right. apply elem_of_app. left. by apply elem_of_reverse.
    + destruct (Hs k Hk) as [? Hd]. split; [done |].
      intros k' [?|[->|?]%elem_of_cons]%Hd; [set_solver | set_solver |].
      right. apply elem_of_app. by right.
  - intros k [->%elem_of_singleton|Hk]%elem_of_union.
    + split; [by intros (t & Ht & _); rewrite Hf in Ht | by intros k' (t & Ht & _); rewrite Hf in Ht].
    + destruct (Hs k Hk) as [? Hd]. split; [done |].
      intros k' [?|[->|?]%elem_of_cons]%Hd; set_solver.
Qed.

Lemma provider_search_spec tasks key :
  provider_search (search_fuel tasks) tasks ∅ [key] = Some true ↔
  ∃ k', rtc (depends tasks) key k' ∧ provider_backed tasks k'.
Proof.
  split.
  - intros (k & k' & ->%list_elem_of_singleton & H)%provider_search_sound. by exists k'.
  - intros (k' & Hr & Hp). destruct (search_fuel_enough tasks key) as [[] Hb]; [done |].
    exfalso. apply provider_search_complete in Hb as (v & _ & Hin & Hs); [| set_solver].
    assert (k' ∈ v) as Hk' by (clear Hp; induction Hr as [x|x y z Hxy _ IHr];
      [apply Hin, list_elem_of_here |]; apply IHr; intros k ->%list_elem_of_singleton;
      destruct (Hs x (Hin x (list_elem_of_here _ _))) as [_ Hd];
      by destruct (Hd y Hxy) as [|?%elem_of_nil]).
    by destruct (Hs k' Hk').
Qed.

Lemma elem_of_terminal plan key :
  key ∈ terminal_task_keys plan ↔
  (∃ t, t ∈ plan_tasks plan ∧ pt_key t = key) ∧
  ∀ t, t ∈ plan_tasks plan → key ∉ pt_depends_on t.
Proof.
  unfold terminal_task_keys. rewrite elem_of_list_to_set, list_elem_of_fmap.
  setoid_rewrite list_elem_of_filter. setoid_rewrite elem_of_list_to_set.
  setoid_rewrite list_elem_of_In. setoid_rewrite in_concat.
  setoid_rewrite <- list_elem_of_In. setoid_rewrite list_elem_of_fmap. naive_solver.
Qed.

Lemma write_scope_subset_spec requested allowed :
  write_scope_is_subset requested allowed = true ↔
  write_scope_is_valid requested = true ∧ write_scope_is_valid allowed = true ∧
  ∀ path, write_scope_allows_path requested path = true →
          write_scope_allows_path allowed path = true.
Proof.
  unfold write_scope_is_subset.
  destruct (write_scope_is_valid requested) eqn:Vr; simpl; [| naive_solver].
  destruct (write_scope_is_valid allowed) eqn:Va; simpl; [| naive_solver].
  destruct (seqb requested "**") eqn:Er.
  { apply seqb_eq in Er as ->. rewrite seqb_eq. split.
    - intros ->. done.
    - intros (_ & _ & H). specialize (H "" (allows_star "")).
      apply allows_spec in H as [->|[<-|(q & -> & [<-|[s Hs]])]]; [done | done | |].
      + by apply scope_valid_suffix in Va.
      + by destruct q. }
  destruct (strip_suffix "/**" requested) as [q|] eqn:Eq.
  - apply strip_suffix_spec in Eq as ->. rewrite andb_true_iff, orb_true_iff, seqb_eq, ends_with_spec.
    split.
    + intros [[->|[q' ->]] Hq]; split_and!; try done.
      intros path. by apply allows_directory_trans.
    + intros (_ & _ & H). split.
      * specialize (H _ (allows_refl _)).
        apply allows_spec in H as [->|[<-|(q' & -> & _)]]; eauto.
      * apply H, allows_directory. done.
  - split.
    + intros H. split_and!; [done | done |]. intros path.
      intros [->|[->|(q & -> & _)]]%allows_spec; [done | done | by rewrite strip_suffix_app in Eq].
    + intros (_ & _ & H). apply H, allows_refl.
Qed.

(** ** Properties *)

(** [print] and [parse] are inverse to each other. *)
Definition round_trips {A} (print : A → string) (parse : string → result A) : Prop :=
  (∀ a, parse (print a) = Ok a) ∧ (∀ s a, parse s = Ok a → print a = s).

Lemma round_trips_wire A `{WireEnumLaws A} : round_trips (wire (A:=A)) unwire.
Proof. split; [exact unwire_wire | exact wire_unwire]. Qed.

(** Every status the database stores as text survives the trip: parsing
    what a status prints gives the status back, and a text that parses is the
    text its status prints, for agents, missions, tasks, runs, Factory work
    items and publications. *)
Theorem status_wire_round_trip :
  round_trips AgentStatus.agent_status_as_str AgentStatus.parse_agent_status ∧
  round_trips MissionStatus.mission_status_as_str MissionStatus.parse_mission_status ∧
  round_trips TaskStatus.task_status_as_str TaskStatus.parse_task_status ∧
  round_trips RunStatus.run_status_as_str RunStatus.parse_run_status ∧
  round_trips ItemState.item_state_as_str ItemState.parse_factory_work_item_state ∧
  round_trips PublicationState.publication_state_as_str
    PublicationState.parse_pull_request_publication_state.
Proof.
  split_and!;
    [ exact (round_trips_wire agent_status) | exact (round_trips_wire mission_status)
    | exact (round_trips_wire task_status) | exact (round_trips_wire run_status)
    | exact (round_trips_wire factory_work_item_state)
    | exact (round_trips_wire publication_state) ].
Qed.

(** C40: the subset test on write scopes is exact containment: a scope is a
    subset of another precisely when both follow the grammar and every path the
    first admits is admitted by the second. *)
Theorem write_scope_subset_exact requested allowed :
  write_scope_is_subset requested allowed = true ↔
  write_scope_is_valid requested = true ∧ write_scope_is_valid allowed = true ∧
  ∀ path, write_scope_allows_path requested path = true →
          write_scope_allows_path allowed path = true.
Proof. apply write_scope_subset_spec. Qed.

(** A directory scope confines the paths it admits: whatever directory a
    worktree sits in, walking an admitted path that follows the grammar (the
    operating system's reading of [.] and [..]) ends below the directory the
    scope names, component by component. *)
Theorem write_scope_confines q path root :
  write_scope_is_valid (q +:+ "/**") = true →
  repository_relative_path_is_valid path = true →
  write_scope_allows_path (q +:+ "/**") path = true →
  ∃ below, resolve root (split_on "/" path) = resolve root (split_on "/" q) ++ below.
Proof.
  intros Hq%scope_valid_suffix Hp [below Hb]%allows_directory. exists below.
  rewrite !resolve_plain by by apply path_valid_components.
  by rewrite Hb, app_assoc.
Qed.

Lemma write_scope_confines_witness :
  resolve ["srv"; "worktree"] (split_on "/" "src/lib/main.rs")
  = resolve ["srv"; "worktree"] (split_on "/" "src") ++ ["lib"; "main.rs"].
Proof.
  destruct (write_scope_confines "src" "src/lib/main.rs" ["srv"; "worktree"]) as [below H];
    [vm_compute; reflexivity .. |].
  vm_compute in H. vm_compute. reflexivity.
Defined.

(** The outcomes a plan submits to human review are exactly its leaves (tasks
    no other task depends on) from which a dependency path reaches a task that
    runs on a real provider; the worklist search always finishes. *)
Theorem provider_backed_outcome_exact plan key :
  key ∈ provider_backed_outcome_keys plan ↔
  (∃ t, t ∈ plan_tasks plan ∧ pt_key t = key) ∧
  (∀ t, t ∈ plan_tasks plan → key ∉ pt_depends_on t) ∧
  ∃ k, rtc (depends (plan_tasks plan)) key k ∧ provider_backed (plan_tasks plan) k.
Proof.
  unfold provider_backed_outcome_keys. cbv zeta.
  rewrite elem_of_list_to_set, list_elem_of_fmap.
  setoid_rewrite list_elem_of_filter. setoid_rewrite list_elem_of_filter.
  setoid_rewrite provider_search_spec. setoid_rewrite elem_of_terminal. naive_solver.
Qed.
