(* ===== verification/Planning.v ===== *)
(** * Plan validation (crates/crony-server/src/planning.rs)

    [validate_plan] is the gate every manager strategy passes: bounds on the
    graph and its budgets, unique task keys, compatible agents, well-formed
    contracts and verifier policies, and declared depths that are the depths of
    the dependency graph.  The depth computation is the source's depth-first
    search with its [visiting] set and its memo table, run on fuel. *)
From S2P Require Import Prelude Text Domain.
From Stdlib Require Import Ascii.

Definition MAX_TASK_ATTEMPTS : Z := 3.
Definition MAX_GRAPH_NODES : Z := 8.
Definition MAX_GRAPH_DEPTH : Z := 4.
Definition MAX_TASK_BUDGET_TOKENS : Z := 2000000.
Definition MAX_GRAPH_BUDGET_TOKENS : Z := 2000000.

Definition checked_i32 (z : Z) : option Z := if in_range (- 2 ^ 31) (2 ^ 31 - 1) z then Some z else None.

Definition is_some {A} (o : option A) : bool := match o with Some _ => true | None => false end.
Definition vec_len {A} (l : list A) : Z := Z.of_nat (length l).
Definition vec_is_empty {A} (l : list A) : bool := match l with [] => true | _ => false end.
Definition mem (s : string) (l : list string) : bool := existsb (seqb s) l.

(** ** Contracts *)
Definition validate_deliverable (task_key : string) (deliverable : deliverable_spec) : result unit :=
  bail_if (128 <? vec_len (ds_paths deliverable))%Z
    ("task " +:+ task_key +:+ " deliverable cannot contain more than 128 paths");;
  for_each (λ path,
    bail_if (negb (repository_relative_path_is_valid path))
      ("task " +:+ task_key +:+ " deliverable path must be a literal repository-relative path"))
    (ds_paths deliverable).

Definition valid_component (value : string) : bool :=
  negb (is_empty value) && (str_len value <=? 100)%Z
  && all_chars (λ c, is_ascii_alphanumeric c || one_of "-_." c) value.

Definition validate_source_requirement (task_key : string)
    (repository base_ref base_commit : option string) : result unit :=
  match repository, base_ref, base_commit with
  | Some repository, Some base_ref, Some base_commit =>
      let parts := split_on "/"%char repository in
      let owner := default "" (parts !! 0%nat) in
      let name := default "" (parts !! 1%nat) in
      bail_if
        (negb (valid_component owner)
         || negb (valid_component name)
         || is_some (parts !! 2%nat)
         || is_empty base_ref
         || (240 <? str_len base_ref)%Z
         || starts_with "-" base_ref
         || starts_with "/" base_ref
         || ends_with "/" base_ref
         || ends_with "." base_ref
         || contains ".." base_ref
         || contains "@{" base_ref
         || any_char (one_of "\ ~^:?*[") base_ref
         || negb ((str_len base_commit =? 40) || (str_len base_commit =? 64))%Z
         || negb (all_bytes is_ascii_hexdigit base_commit))
        ("task " +:+ task_key +:+ " contains an invalid source repository requirement")
  | _, _, _ =>
      bail_if (is_some repository || is_some base_ref || is_some base_commit)
        ("task " +:+ task_key +:+ " must specify source repository, base ref, and immutable base commit together")
  end.

Definition secret_env_name_is_invalid (name : string) : bool :=
  is_empty name
  || (128 <? str_len name)%Z
  || negb (all_chars (λ c, is_ascii_uppercase c || is_ascii_digit c || (c =? 95)%Z) name)
  || match chars name with c :: _ => is_ascii_digit c | [] => false end.

(** The loop over the secret references, with the names seen so far. *)
Fixpoint validate_secret_refs (task_key : string) (environment_names : gset string)
    (secrets : list task_secret_reference) : result unit :=
  match secrets with
  | [] => Ok tt
  | secret :: rest =>
      bail_if (secret_env_name_is_invalid (sr_env_name secret))
        ("task " +:+ task_key +:+ " secret environment name is invalid");;
      bail_if (bool_decide (sr_env_name secret ∈ environment_names))
        ("task " +:+ task_key +:+ " repeats secret environment name " +:+ sr_env_name secret);;
      bail_if (is_empty (trim (sr_tool secret)) || (64 <? str_len (sr_tool secret))%Z
               || is_empty (trim (sr_resource secret)) || (512 <? str_len (sr_resource secret))%Z)
        ("task " +:+ task_key +:+ " secret scope is invalid");;
      validate_secret_refs task_key ({[sr_env_name secret]} ∪ environment_names) rest
  end.

Definition reasoning_efforts : list string :=
  ["none"; "minimal"; "low"; "medium"; "high"; "xhigh"; "max"].

Definition validate_contract (task_key : string) (contract : task_contract) : result unit :=
  bail_if (is_empty (trim (tc_objective contract))
           || is_empty (trim (tc_expected_output contract))
           || is_empty (trim (tc_escalation contract)))
    ("task " +:+ task_key +:+ " has an incomplete contract");;
  bail_if (vec_is_empty (tc_acceptance_tests contract)
           || vec_is_empty (tc_allowed_tools contract)
           || vec_is_empty (tc_prohibited_actions contract)
           || vec_is_empty (tc_write_scope contract))
    ("task " +:+ task_key +:+ " omits required contract lists");;
  bail_if (negb (in_range 1 MAX_TASK_BUDGET_TOKENS (tc_budget_tokens contract)))
    ("task " +:+ task_key +:+ " budget is invalid");;
  bail_if (negb (in_range 1 10000000 (tc_budget_cost_microusd contract)))
    ("task " +:+ task_key +:+ " cost budget is invalid");;
  validate_source_requirement task_key (tc_source_repository contract)
    (tc_source_base_ref contract) (tc_source_base_commit contract);;
  match tc_deliverable contract with
  | Some deliverable => validate_deliverable task_key deliverable
  | None => Ok tt
  end;;
  bail_if match tc_model contract with
          | Some model => is_empty (trim model) || (128 <? str_len model)%Z
          | None => false
          end
    ("task " +:+ task_key +:+ " model is invalid");;
  bail_if match tc_reasoning_effort contract with
          | Some effort => negb (mem effort reasoning_efforts)
          | None => false
          end
    ("task " +:+ task_key +:+ " reasoning effort is invalid");;
  for_each (λ value,
    bail_if (is_empty (trim value) || (500 <? str_len value)%Z)
      ("task " +:+ task_key +:+ " contains an invalid contract entry"))
    (tc_acceptance_tests contract ++ tc_allowed_tools contract
     ++ tc_prohibited_actions contract ++ tc_references contract ++ tc_write_scope contract);;
  match find (λ scope, negb (write_scope_is_valid scope)) (tc_write_scope contract) with
  | Some scope =>
      Err ("task " +:+ task_key +:+ " contains invalid write scope " +:+ scope)
  | None => Ok tt
  end;;
  validate_secret_refs task_key ∅ (tc_secret_refs contract).

(** ** Verifier policies *)
Definition validate_relative_path (task_key value : string) : result unit :=
  bail_if (negb (repository_relative_path_is_valid value))
    ("task " +:+ task_key +:+ " verifier path must stay inside the worktree").

Definition command_check_is_invalid (program : string) (args : list string) (timeout_ms : Z) : bool :=
  is_empty (trim program)
  || (256 <? str_len program)%Z
  || starts_with "-" program
  || (32 <? vec_len args)%Z
  || existsb (λ arg, (2000 <? str_len arg)%Z) args
  || negb (in_range 100 60000 timeout_ms).

Definition required_keys_are_invalid (required_keys : list string) : bool :=
  vec_is_empty required_keys
  || (32 <? vec_len required_keys)%Z
  || existsb (λ key, is_empty (trim key) || (128 <? str_len key)%Z) required_keys.

Definition validate_check (task_key : string) (check : verifier_check) : result unit :=
  match check with
  | CheckArtifact min_bytes =>
      bail_if (min_bytes =? 0)%Z ("task " +:+ task_key +:+ " artifact check has no byte floor")
  | CheckFile path min_bytes | CheckScreenshot path min_bytes =>
      validate_relative_path task_key path;;
      bail_if (min_bytes =? 0)%Z ("task " +:+ task_key +:+ " file check has no byte floor")
  | CheckJsonSchema path required_keys =>
      validate_relative_path task_key path;;
      bail_if (required_keys_are_invalid required_keys)
        ("task " +:+ task_key +:+ " JSON schema check is invalid")
  | CheckCommand program args timeout_ms | CheckTest program args timeout_ms =>
      bail_if (command_check_is_invalid program args timeout_ms)
        ("task " +:+ task_key +:+ " command verifier is invalid")
  end.

Definition gate_roles (gate : manual_verification_gate) : list string :=
  match gate with HumanApproval roles => roles | IndependentReview roles _ => roles end.

Definition roles_are_invalid (roles : list string) : bool :=
  vec_is_empty roles || (16 <? vec_len roles)%Z
  || existsb (λ role, negb (mem role ["owner"; "admin"; "manager"; "member"])) roles.

Definition validate_verification_policy (task_key : string) (policy : verification_policy) : result unit :=
  bail_if (vec_is_empty (vp_checks policy) || (16 <? vec_len (vp_checks policy))%Z)
    ("task " +:+ task_key +:+ " verifier must contain between 1 and 16 checks");;
  for_each (validate_check task_key) (vp_checks policy);;
  match vp_manual_gate policy with
  | Some gate =>
      bail_if (roles_are_invalid (gate_roles gate))
        ("task " +:+ task_key +:+ " manual verification gate is invalid")
  | None => Ok tt
  end.

(** ** Dependency depth *)

(** The state the recursion threads: keys on the current path, and depths that
    are already known. *)
Definition depth_state : Type := gset string * gmap string Z.

(** The loop over the dependencies of one task. *)
Fixpoint depth_loop (visit : string → depth_state → option (result (Z * depth_state)))
    (task_key : string) (keys : gmap string nat) (dependencies : list string)
    (depth : Z) (st : depth_state) : option (result (Z * depth_state)) :=
  match dependencies with
  | [] => Some (Ok (depth, st))
  | dependency :: rest =>
      match keys !! dependency with
      | None =>
          Some (Err ("task " +:+ task_key +:+ " depends on unknown task " +:+ dependency))
      | Some _ =>
          match visit dependency st with
          | None => None
          | Some (Err e) => Some (Err e)
          | Some (Ok (below, st)) =>
              match checked_i32 (below + 1) with
              | None => Some (Err "task depth overflow")
              | Some next => depth_loop visit task_key keys rest (Z.max depth next) st
              end
          end
      end
  end.

Fixpoint compute_depth (fuel : nat) (tasks : list planned_task) (keys : gmap string nat)
    (key : string) (st : depth_state) : option (result (Z * depth_state)) :=
  match fuel with
  | O => None
  | S fuel =>
      let '(visiting, depths) := st in
      match depths !! key with
      | Some depth => Some (Ok (depth, st))
      | None =>
          if decide (key ∈ visiting)
          then Some (Err ("task graph contains a dependency cycle at " +:+ key))
          else
            match keys !! key ≫= λ index, tasks !! index with
            | None => Some (Err ("unknown task dependency " +:+ key))
            | Some task =>
                match depth_loop (compute_depth fuel tasks keys) (pt_key task) keys
                        (pt_depends_on task) 0 ({[key]} ∪ visiting, depths) with
                | Some (Ok (depth, (visiting, depths))) =>
                    Some (Ok (depth, (visiting ∖ {[key]}, <[key := depth]> depths)))
                | other => other
                end
            end
      end
  end.

(** A path visits each task at most once. *)
Definition depth_fuel (tasks : list planned_task) : nat := 2 + length tasks.
#[global] Arguments depth_fuel : simpl never.

(** The last loop of [validate_plan]. *)
Fixpoint validate_depths (all : list planned_task) (keys : gmap string nat) (max_depth : Z)
    (tasks : list planned_task) (st : depth_state) : option (result unit) :=
  match tasks with
  | [] => Some (Ok tt)
  | task :: rest =>
      match compute_depth (depth_fuel all) all keys (pt_key task) st with
      | None => None
      | Some (Err e) => Some (Err e)
      | Some (Ok (depth, st)) =>
          if negb (depth =? pt_depth task)%Z then
            Some (Err ("task " +:+ pt_key task +:+ " declared depth " +:+ show_int (pt_depth task)
                       +:+ " but dependency depth is " +:+ show_int depth))
          else if ((max_depth <? depth) || (MAX_GRAPH_DEPTH <? depth))%Z then
            Some (Err ("task " +:+ pt_key task +:+ " exceeds graph depth limit"))
          else validate_depths all keys max_depth rest st
      end
  end.

(** ** The plan *)
Definition task_key_is_invalid (key : string) : bool :=
  is_empty key || (64 <? str_len key)%Z
  || negb (all_chars (λ c, is_ascii_alphanumeric c || one_of "._-" c) key).

(** [agents.iter().map(..).collect::<HashMap<_, _>>()]: the last one wins. *)
Definition agents_by_id (agents : list agent) : gmap uuid agent :=
  foldl (λ m a, <[agent_id a := a]> m) ∅ agents.

Definition validate_task (agents : gmap uuid agent) (task : planned_task) : result unit :=
  agent ← with_context (agents !! pt_assigned_agent_id task)
    ("task " +:+ pt_key task +:+ " references an unknown agent");
  bail_if (negb (seqb (agent_adapter agent) (pt_required_adapter task)))
    ("task " +:+ pt_key task +:+ " requires adapter " +:+ pt_required_adapter task
     +:+ " but assigned agent uses " +:+ agent_adapter agent);;
  bail_if (seqb (pt_required_adapter task) "fake-process"
           && (is_some (tc_model (pt_contract task))
               || is_some (tc_reasoning_effort (pt_contract task))))
    ("task " +:+ pt_key task
     +:+ " uses fake-process and cannot require a model or reasoning effort");;
  bail_if (negb (in_range 1 MAX_TASK_ATTEMPTS (pt_max_attempts task)))
    ("task " +:+ pt_key task +:+ " retry limit is invalid");;
  validate_contract (pt_key task) (pt_contract task);;
  validate_verification_policy (pt_key task) (pt_verification_policy task).

(** The loop over the tasks; it leaves the index of every key. *)
Fixpoint validate_tasks (agents : gmap uuid agent) (index : nat)
    (keys : gmap string nat) (tasks : list planned_task) : result (gmap string nat) :=
  match tasks with
  | [] => Ok keys
  | task :: rest =>
      bail_if (task_key_is_invalid (pt_key task)) ("task key is invalid: " +:+ pt_key task);;
      bail_if (is_some (keys !! pt_key task)) ("duplicate task key " +:+ pt_key task);;
      validate_task agents task;;
      validate_tasks agents (S index) (<[pt_key task := index]> keys) rest
  end.

(** [iter().try_fold(0_i64, checked_add)] *)
Fixpoint checked_sum (total : Z) (overflow : string) (values : list Z) : result Z :=
  match values with
  | [] => Ok total
  | v :: rest =>
      total ← with_context (checked_i64 (total + v)) overflow;
      checked_sum total overflow rest
  end.

(** Everything [validate_plan] checks before it walks the graph. *)
Definition validate_plan_tables (plan : task_graph_plan) (agents : list agent) :
    result (gmap string nat) :=
  let nodes := vec_len (plan_tasks plan) in
  bail_if (vec_is_empty (plan_tasks plan) || (MAX_GRAPH_NODES <? nodes))%Z
    "task graph must contain between 1 and 8 nodes";;
  bail_if ((plan_max_nodes plan <? nodes) || (MAX_GRAPH_NODES <? plan_max_nodes plan))%Z
    "task graph node limit is invalid";;
  bail_if (negb (in_range 0 MAX_GRAPH_DEPTH (plan_max_depth plan)))
    "task graph depth limit is invalid";;
  bail_if (negb (in_range 1 MAX_GRAPH_BUDGET_TOKENS (plan_budget_tokens plan)))
    "task graph budget is invalid";;
  bail_if (negb (in_range 1 50000000 (plan_budget_cost_microusd plan)))
    "task graph cost budget is invalid";;
  keys ← validate_tasks (agents_by_id agents) 0 ∅ (plan_tasks plan);
  total_budget ← checked_sum 0 "task graph budget overflow"
    ((tc_budget_tokens ∘ pt_contract) <$> plan_tasks plan);
  bail_if (plan_budget_tokens plan <? total_budget)%Z
    ("task budgets total " +:+ show_int total_budget +:+ ", above mission budget "
     +:+ show_int (plan_budget_tokens plan));;
  total_cost_budget ← checked_sum 0 "task graph cost budget overflow"
    ((tc_budget_cost_microusd ∘ pt_contract) <$> plan_tasks plan);
  bail_if (plan_budget_cost_microusd plan <? total_cost_budget)%Z
    ("task cost budgets total " +:+ show_int total_cost_budget +:+ ", above mission cost budget "
     +:+ show_int (plan_budget_cost_microusd plan));;
  Ok keys.

Definition validate_plan (plan : task_graph_plan) (agents : list agent) : option (result unit) :=
  match validate_plan_tables plan agents with
  | Err e => Some (Err e)
  | Ok keys =>
      validate_depths (plan_tasks plan) keys (plan_max_depth plan) (plan_tasks plan) (∅, ∅)
  end.

(** ** Lemmas: lists of strings *)
Lemma mem_spec s l : mem s l = true ↔ s ∈ l.
Proof.
  unfold mem. rewrite existsb_exists. setoid_rewrite seqb_eq. setoid_rewrite <- list_elem_of_In.
  naive_solver.
Qed.

(** ** Lemmas: the depth computation *)

(** The recursion hands [visiting] back as it found it. *)
Lemma depth_loop_visiting visit task_key keys dl depth vis dm d vis' dm' :
  (∀ k v m e v' m', visit k (v, m) = Some (Ok (e, (v', m'))) → v' = v) →
  depth_loop visit task_key keys dl depth (vis, dm) = Some (Ok (d, (vis', dm'))) → vis' = vis.
Proof.
  intros Hv. revert depth dm. induction dl as [|k dl IH]; intros depth dm; simpl.
  { congruence. }
  destruct (keys !! k); [| done].
  destruct (visit k (vis, dm)) as [[[e [v m]]|]|] eqn:E; try done.
  apply Hv in E as ->. destruct (checked_i32 (e + 1)); [apply IH | done].
Qed.

Lemma compute_depth_visiting fuel tasks keys key vis dm d vis' dm' :
  compute_depth fuel tasks keys key (vis, dm) = Some (Ok (d, (vis', dm'))) → vis' = vis.
Proof.
  revert key vis dm d vis' dm'. induction fuel as [|fuel IH]; intros key vis dm d vis' dm'; [done |].
  simpl. destruct (dm !! key); [congruence |]. case_decide as Hk; [done |].
  destruct (keys !! key ≫= λ index, tasks !! index) as [t|]; [| done].
  destruct (depth_loop _ _ _ _ _ _) as [[[e [v m]]|]|] eqn:E; try done.
  apply depth_loop_visiting in E as ->; [| exact IH]. intros [= <- <- _]. set_solver.
Qed.

(** The fuel bounds the recursion: every nested call is on a known key that is
    not on the path yet. *)
Lemma depth_loop_total visit task_key keys dl depth vis dm :
  (∀ k m, is_Some (visit k (vis, m))) →
  (∀ k v m e v' m', visit k (v, m) = Some (Ok (e, (v', m'))) → v' = v) →
  is_Some (depth_loop visit task_key keys dl depth (vis, dm)).
Proof.
  intros Ht Hv. revert depth dm. induction dl as [|k dl IH]; intros depth dm; simpl; [eauto |].
  destruct (keys !! k); [| eauto].
  destruct (Ht k dm) as [[[e [v m]]|] E]; rewrite E; [| eauto].
  apply Hv in E as ->. destruct (checked_i32 (e + 1)); eauto.
Qed.

Lemma compute_depth_total fuel tasks keys key vis dm :
  (size (dom keys ∖ vis) < fuel)%nat →
  is_Some (compute_depth fuel tasks keys key (vis, dm)).
Proof.
  revert key vis dm. induction fuel as [|fuel IH]; intros key vis dm Hf; [lia |].
  simpl. destruct (dm !! key); [eauto |]. case_decide as Hk; [eauto |].
  destruct (keys !! key ≫= λ index, tasks !! index) as [t|] eqn:Et; [| eauto].
  apply bind_Some in Et as (i & Hi & _).
  edestruct (depth_loop_total (compute_depth fuel tasks keys) (pt_key t) keys
    (pt_depends_on t) 0 ({[key]} ∪ vis) dm) as [r Hr].
  - intros k m. apply IH.
    assert (dom keys ∖ vis = {[key]} ∪ (dom keys ∖ ({[key]} ∪ vis))) as Hd.
    { apply leibniz_equiv. intros x. destruct (decide (x = key)) as [->|]; [| set_solver].
      apply elem_of_dom_2 in Hi. set_solver. }
    rewrite Hd, size_union, size_singleton in Hf by set_solver. lia.
  - intros k v m e v' m'. apply compute_depth_visiting.
  - rewrite Hr. destruct r as [[e [v m]]|]; eauto.
Qed.

(** Every key of the table is the key of the task at its index. *)
Record keys_ok (tasks : list planned_task) (keys : gmap string nat) : Prop := {
  keys_sound : ∀ k i, keys !! k = Some i → ∃ t, tasks !! i = Some t ∧ pt_key t = k;
  keys_total : ∀ i t, tasks !! i = Some t → keys !! pt_key t = Some i;
}.

(** [depths_ok]: a known depth is one more than the deepest dependency. *)
Definition depths_ok (tasks : list planned_task) (keys : gmap string nat)
    (depths : gmap string Z) : Prop :=
  ∀ k d, depths !! k = Some d → ∃ t,
    (keys !! k ≫= λ index, tasks !! index) = Some t ∧ (0 ≤ d)%Z ∧
    (∀ k', k' ∈ pt_depends_on t → ∃ d', depths !! k' = Some d' ∧ (d' + 1 ≤ d)%Z) ∧
    (d = 0 ∨ ∃ k', k' ∈ pt_depends_on t ∧ depths !! k' = Some (d - 1))%Z.

(** What one visit achieves. *)
Definition visit_ok (tasks : list planned_task) (keys : gmap string nat)
    (vis : gset string) (dm dm' : gmap string Z) : Prop :=
  dm ⊆ dm' ∧ depths_ok tasks keys dm' ∧ ∀ k, k ∈ vis → dm' !! k = dm !! k.

Lemma checked_i32_Some z z' : checked_i32 z = Some z' → z' = z ∧ (- 2 ^ 31 ≤ z ≤ 2 ^ 31 - 1)%Z.
Proof. unfold checked_i32. case_match eqn:E; [| done]. apply in_range_spec in E. naive_solver. Qed.

Lemma depth_loop_ok tasks keys visit task_key dl depth vis dm d vis' dm' :
  (∀ k m e v' m', visit k (vis, m) = Some (Ok (e, (v', m'))) → depths_ok tasks keys m →
     v' = vis ∧ visit_ok tasks keys vis m m' ∧ m' !! k = Some e ∧ (0 ≤ e)%Z) →
  depths_ok tasks keys dm →
  depth_loop visit task_key keys dl depth (vis, dm) = Some (Ok (d, (vis', dm'))) →
  visit_ok tasks keys vis dm dm' ∧ (depth ≤ d)%Z ∧
  (∀ k, k ∈ dl → ∃ d', dm' !! k = Some d' ∧ (d' + 1 ≤ d)%Z) ∧
  (d = depth ∨ ∃ k, k ∈ dl ∧ dm' !! k = Some (d - 1)%Z).
Proof.
  intros Hv. revert depth dm. induction dl as [|k dl IH]; intros depth dm Hdm; simpl.
  { intros [= <- <- <-]. split_and!; [done | lia | set_solver | by left]. }
  destruct (keys !! k); [| done].
  destruct (visit k (vis, dm)) as [[[e [v m]]|]|] eqn:E; try done.
  apply Hv in E as (-> & (Hsub & Hok & Hkeep) & Hk & He); [| done].
  destruct (checked_i32 (e + 1)) as [nxt|] eqn:En; [| done].
  apply checked_i32_Some in En as [-> _].
  intros Hl%IH; [| done]. destruct Hl as ((Hsub' & Hok' & Hkeep') & Hle & Hall & Hcase).
  assert (Hk' : dm' !! k = Some e) by by eapply lookup_weaken.
  split_and!.
  - split_and!; [by etrans | done |]. intros k' Hin. by rewrite Hkeep', Hkeep.
  - lia.
  - intros k' [->|Hin]%elem_of_cons; [exists e; split; [done | lia] | by apply Hall].
  - destruct Hcase as [->|(k' & Hin & Hk'')].
    + destruct (Z.max_spec depth (e + 1)) as [[? ->]|[? ->]]; [right | by left].
      exists k. split; [apply list_elem_of_here |]. by replace (e + 1 - 1)%Z with e by lia.
    + right. exists k'. split; [by apply list_elem_of_further | done].
Qed.

Lemma compute_depth_ok fuel tasks keys key vis dm d vis' dm' :
  compute_depth fuel tasks keys key (vis, dm) = Some (Ok (d, (vis', dm'))) →
  depths_ok tasks keys dm →
  vis' = vis ∧ visit_ok tasks keys vis dm dm' ∧ dm' !! key = Some d ∧ (0 ≤ d)%Z.
Proof.
  revert key vis dm d vis' dm'. induction fuel as [|fuel IH]; intros key vis dm d vis' dm' H Hdm; [done |].
  split; [by eapply compute_depth_visiting |]. simpl in H.
  destruct (dm !! key) as [d0|] eqn:Ek.
  { injection H as <- <- <-. split_and!; try done. by apply Hdm in Ek as (? & _ & ? & _). }
  case_decide as Hk; [done |].
  destruct (keys !! key ≫= λ index, tasks !! index) as [t|] eqn:Et; [| done].
  destruct (depth_loop _ _ _ _ _ _) as [[[e [v m]]|]|] eqn:E; try done.
  injection H as <- _ <-.
  eapply depth_loop_ok in E as ((Hsub & Hok & Hkeep) & Hle & Hall & Hcase);
    [| intros k m' e' v'' m'' Hc Hm'; by apply IH in Hc | done].
  assert (Hfresh : m !! key = None) by (rewrite Hkeep by set_solver; done).
  assert (Hsub' : m ⊆ <[key := e]> m) by by apply insert_subseteq.
  split_and!; [split_and! | by rewrite lookup_insert_eq | done].
  - by etrans.
  - intros k d0. destruct (decide (k = key)) as [->|Hne].
    + rewrite lookup_insert_eq. intros [= <-]. exists t. split_and!; [done | done | |].
      * intros k' Hin. destruct (Hall k' Hin) as (d' & Hd' & ?).
        exists d'. split; [by eapply lookup_weaken | done].
      * destruct Hcase as [->|(k' & Hin & Hd')]; [by left | right].
        exists k'. split; [done | by eapply lookup_weaken].
    + rewrite lookup_insert_ne by done. intros (t' & Ht' & H0 & Ha & Hc)%Hok.
      exists t'. split_and!; [done | done | |].
      * intros k' Hin. destruct (Ha k' Hin) as (d' & Hd' & ?).
        exists d'. split; [by eapply lookup_weaken | done].
      * destruct Hc as [->|(k' & Hin & Hd')]; [by left | right].
        exists k'. split; [done | by eapply lookup_weaken].
  - intros k Hin. rewrite lookup_insert_ne by set_solver. apply Hkeep. set_solver.
Qed.

(** ** Lemmas: the tables of a validated plan *)
Lemma validate_tasks_ok agents n keys0 ts keys :
  validate_tasks agents n keys0 ts = Ok keys →
  keys0 ⊆ keys ∧
  (∀ i t, ts !! i = Some t →
     keys !! pt_key t = Some (n + i)%nat ∧ task_key_is_invalid (pt_key t) = false ∧
     validate_task agents t = Ok tt) ∧
  (∀ k j, keys !! k = Some j → keys0 !! k = Some j ∨
     ∃ i t, ts !! i = Some t ∧ j = (n + i)%nat ∧ pt_key t = k).
Proof.
  revert n keys0. induction ts as [|t ts IH]; intros n keys0; simpl.
  { intros [= <-]. split_and!; [done | done | by left]. }
  intros H. do 3 (apply bind_ok in H as ([] & ? & H)). res_inv.
  apply IH in H as (Hsub & Hall & Hinv).
  assert (Hfresh : keys0 !! pt_key t = None) by (by destruct (keys0 !! pt_key t)).
  split_and!.
  - etrans; [by apply insert_subseteq | done].
  - intros [|i] t' Ht'; simpl in Ht'.
    + injection Ht' as <-. split_and!; [| done | done].
      rewrite Nat.add_0_r. eapply lookup_weaken; [apply lookup_insert_eq | done].
    + apply Hall in Ht' as (? & ? & ?). by rewrite Nat.add_succ_r.
  - intros k j Hj. apply Hinv in Hj as [Hj|(i & t' & ? & -> & ?)].
    + rewrite lookup_insert in Hj. case_decide; [| by left].
      right. exists 0%nat, t. simplify_eq. split_and!; [done | lia | done].
    + right. exists (S i), t'. split_and!; [done | lia | done].
Qed.

Lemma validate_tables_keys_ok plan agents keys :
  validate_plan_tables plan agents = Ok keys → keys_ok (plan_tasks plan) keys.
Proof.
  unfold validate_plan_tables. intros H. res_inv.
  match goal with H : validate_tasks _ _ _ _ = Ok _ |- _ =>
    apply validate_tasks_ok in H as (_ & Hall & Hinv) end.
  split.
  - intros k j Hj. apply Hinv in Hj as [Hj|(i & t & Ht & -> & Hk)].
    + by rewrite lookup_empty in Hj.
    + exists t. by rewrite Nat.add_0_l.
  - intros i t Ht. by apply Hall in Ht as (? & _).
Qed.

Lemma depth_fuel_eq tasks : depth_fuel tasks = (2 + length tasks)%nat.
Proof. reflexivity. Qed.
#[local] Opaque depth_fuel.

Section declared_depths.
Context (tasks : list planned_task) (keys : gmap string nat).
Context (Hkeys : keys_ok tasks keys).

Definition task_at (k : string) : option planned_task :=
  keys !! k ≫= λ index, tasks !! index.

Lemma task_at_Some k t : task_at k = Some t ↔ t ∈ tasks ∧ pt_key t = k.
Proof.
  unfold task_at. rewrite bind_Some, list_elem_of_lookup. split.
  - intros (i & Hi & Ht). split; [by exists i |].
    destruct (keys_sound _ _ Hkeys _ _ Hi) as (t' & Ht' & <-). by simplify_eq.
  - intros [[i Hi] <-]. exists i. split; [by apply (keys_total _ _ Hkeys) | done].
Qed.

Lemma task_at_dom k : is_Some (keys !! k) ↔ ∃ t, task_at k = Some t.
Proof.
  unfold task_at. split.
  - intros [i Hi]. destruct (keys_sound _ _ Hkeys _ _ Hi) as (t & Ht & _).
    exists t. by rewrite Hi.
  - intros (t & Ht). apply bind_Some in Ht as (i & Hi & _). eauto.
Qed.

Lemma keys_size : size (dom keys) = length tasks.
Proof.
  assert (dom keys = list_to_set (pt_key <$> tasks)) as ->.
  { apply leibniz_equiv. intros k. rewrite elem_of_dom, elem_of_list_to_set, list_elem_of_fmap.
    rewrite task_at_dom. setoid_rewrite task_at_Some. naive_solver. }
  rewrite size_list_to_set, length_fmap; [done |].
  apply NoDup_alt. intros i j k Hi Hj.
  apply list_lookup_fmap_Some in Hi as (t & -> & Ht), Hj as (t' & Hk & Ht').
  apply (keys_total _ _ Hkeys) in Ht, Ht'. rewrite Hk in Ht. by simplify_eq.
Qed.

Lemma depth_fuel_enough key vis dm :
  is_Some (compute_depth (depth_fuel tasks) tasks keys key (vis, dm)).
Proof.
  apply compute_depth_total. rewrite depth_fuel_eq.
  pose proof (subseteq_size (dom keys ∖ vis) (dom keys)) as H.
  rewrite keys_size in H. specialize (H ltac:(set_solver)). lia.
Qed.

Lemma validate_depths_total max_depth ts st :
  is_Some (validate_depths tasks keys max_depth ts st).
Proof.
  revert st. induction ts as [|t ts IH]; intros [vis dm]; simpl; [eauto |].
  destruct (depth_fuel_enough (pt_key t) vis dm) as [[[d st']|e] ->]; [| eauto].
  repeat case_match; eauto.
Qed.

(** The declared depth of a task is right: one more than its deepest
    dependency, all of which are tasks of the graph. *)
Definition depth_declared (t : planned_task) : Prop :=
  (∀ k, k ∈ pt_depends_on t → ∃ t', t' ∈ tasks ∧ pt_key t' = k ∧
     (pt_depth t' + 1 ≤ pt_depth t)%Z) ∧
  (pt_depth t = 0 ∨ ∃ t', t' ∈ tasks ∧ pt_key t' ∈ pt_depends_on t ∧
     pt_depth t' = pt_depth t - 1)%Z ∧
  (0 ≤ pt_depth t)%Z.

Lemma validate_depths_sound max_depth ts dm :
  depths_ok tasks keys dm →
  validate_depths tasks keys max_depth ts (∅, dm) = Some (Ok tt) →
  ∃ dm', dm ⊆ dm' ∧ depths_ok tasks keys dm' ∧
    ∀ t, t ∈ ts → dm' !! pt_key t = Some (pt_depth t) ∧
      (pt_depth t ≤ max_depth ∧ pt_depth t ≤ MAX_GRAPH_DEPTH)%Z.
Proof.
  revert dm. induction ts as [|t ts IH]; intros dm Hdm; simpl.
  { intros _. exists dm. split_and!; [done | done | set_solver]. }
  destruct (compute_depth _ _ _ _ _) as [[[d [v m]]|]|] eqn:E; try done.
  apply compute_depth_ok in E as (-> & (Hsub & Hok & _) & Hk & _); [| done].
  destruct (Z.eqb_spec d (pt_depth t)) as [->|]; simpl; [| done].
  destruct ((max_depth <? pt_depth t)%Z || (MAX_GRAPH_DEPTH <? pt_depth t)%Z) eqn:El; [done |].
  intros (m' & Hsub' & Hok' & Hall)%IH; [| done].
  exists m'. split_and!; [by etrans | done |].
  intros t' [->|Ht']%elem_of_cons; [| by apply Hall].
  split; [by eapply lookup_weaken | lia].
Qed.

(** A memo table that holds declared depths only. *)
Definition agrees (dm : gmap string Z) : Prop :=
  ∀ k d, dm !! k = Some d → ∃ t, task_at k = Some t ∧ d = pt_depth t.

Definition declared_at (k : string) : Z := default 0%Z (pt_depth <$> task_at k).

Lemma depth_loop_declared visit task_key dl depth vis dm r :
  (∀ k, k ∈ dl → ∃ t, task_at k = Some t ∧ in_range 0 4 (pt_depth t) = true) →
  (∀ k m r, k ∈ dl → agrees m → visit k (vis, m) = Some r →
     ∃ m', r = Ok (declared_at k, (vis, m')) ∧ agrees m') →
  agrees dm →
  depth_loop visit task_key keys dl depth (vis, dm) = Some r →
  ∃ dm', r = Ok (foldl (λ a k, Z.max a (declared_at k + 1)) depth dl, (vis, dm')) ∧ agrees dm'.
Proof.
  intros Hdl Hv. revert depth dm. induction dl as [|k dl IH]; intros depth dm Hdm; simpl.
  { intros [= <-]. by exists dm. }
  destruct (Hdl k (list_elem_of_here _ _)) as (t & Ht & Hr).
  destruct (proj2 (task_at_dom k)) as [i Hi]; [by exists t |]. rewrite Hi.
  destruct (visit k (vis, dm)) as [r'|] eqn:E; [| done].
  apply Hv in E as (m' & -> & Hm'); [| apply list_elem_of_here | done].
  assert (declared_at k = pt_depth t) as -> by (unfold declared_at; by rewrite Ht).
  apply in_range_spec in Hr. unfold checked_i32.
  rewrite (proj2 (in_range_spec _ _ _)) by lia.
  apply IH; [| | done].
  - intros k' Hk'. apply Hdl. by apply list_elem_of_further.
  - intros k' m'' r'' Hk'. apply Hv. by apply list_elem_of_further.
Qed.

Lemma foldl_max_declared dl depth :
  let d := foldl (λ a k, Z.max a (declared_at k + 1)%Z) depth dl in
  (depth ≤ d)%Z ∧ (∀ k, k ∈ dl → declared_at k + 1 ≤ d)%Z ∧
  (d = depth ∨ ∃ k, k ∈ dl ∧ d = declared_at k + 1)%Z.
Proof.
  revert depth. induction dl as [|k dl IH]; intros depth; simpl.
  { split_and!; [lia | set_solver | by left]. }
  destruct (IH (Z.max depth (declared_at k + 1))) as (H1 & H2 & H3). split_and!.
  - lia.
  - intros k' [->|Hk']%elem_of_cons; [lia | by apply H2].
  - destruct H3 as [->|(k' & Hk' & ->)].
    + destruct (Z.max_spec depth (declared_at k + 1)) as [[? ->]|[? ->]]; [right | by left].
      exists k. split; [apply list_elem_of_here | done].
    + right. exists k'. split; [by apply list_elem_of_further | done].
Qed.

Hypothesis Hdeclared : ∀ t, t ∈ tasks → depth_declared t ∧ (pt_depth t ≤ MAX_GRAPH_DEPTH)%Z.

Lemma declared_at_key t : t ∈ tasks → declared_at (pt_key t) = pt_depth t.
Proof. intros Ht. unfold declared_at. by rewrite (proj2 (task_at_Some _ t)). Qed.

Lemma dependency_declared t k : t ∈ tasks → k ∈ pt_depends_on t →
  ∃ t', task_at k = Some t' ∧ in_range 0 4 (pt_depth t') = true ∧
    (pt_depth t' < pt_depth t)%Z ∧ declared_at k = pt_depth t'.
Proof.
  intros Ht Hk. destruct (Hdeclared t Ht) as ((Hdeps & _) & _).
  destruct (Hdeps k Hk) as (t' & Ht' & <- & Hlt). exists t'.
  destruct (Hdeclared t' Ht') as ((_ & _ & ?) & ?). unfold MAX_GRAPH_DEPTH in *.
  split_and!; [by apply task_at_Some | apply in_range_spec; lia | lia | by apply declared_at_key].
Qed.

Lemma compute_depth_declared fuel key t vis dm r :
  agrees dm → task_at key = Some t → (∀ k, k ∈ vis → pt_depth t < declared_at k)%Z →
  compute_depth fuel tasks keys key (vis, dm) = Some r →
  ∃ dm', r = Ok (declared_at key, (vis, dm')) ∧ agrees dm'.
Proof.
  revert key t vis dm r. induction fuel as [|fuel IH]; intros key t vis dm r Hdm Ht Hvis; [done |].
  simpl. destruct (dm !! key) as [d|] eqn:Ek.
  { intros [= <-]. exists dm. apply Hdm in Ek as (t' & Ht' & ->).
    unfold declared_at. by rewrite Ht'. }
  assert (declared_at key = pt_depth t) as Hkey by (unfold declared_at; by rewrite Ht).
  case_decide as Hin; [apply Hvis in Hin; lia |].
  fold (task_at key). rewrite Ht. apply task_at_Some in Ht as [Ht Hk].
  destruct (depth_loop _ _ _ _ _ _) as [r'|] eqn:E; [| done].
  eapply depth_loop_declared in E as (dm' & -> & Hdm'); [| | | done].
  - destruct (foldl_max_declared (pt_depends_on t) 0) as (H1 & H2 & H3).
    set (e := foldl _ _ _) in *.
    assert (e = pt_depth t) as ->.
    { destruct (Hdeclared t Ht) as ((Hdeps & H0 & Hpos) & _).
      assert (pt_depth t ≤ e)%Z.
      { destruct H0 as [->|(t' & Ht' & Hin' & He)]; [lia |].
        apply H2 in Hin'. rewrite declared_at_key in Hin' by done. lia. }
      assert (e ≤ pt_depth t)%Z; [| lia].
      destruct H3 as [->|(k & Hk' & ->)]; [lia |].
      destruct (dependency_declared t k Ht Hk') as (? & _ & _ & ? & ->). lia. }
    intros [= <-]. eexists. rewrite Hkey. split.
    { do 4 f_equal. apply leibniz_equiv. set_solver. }
    intros k d. rewrite lookup_insert. case_decide as Hkk; [| apply Hdm'].
    intros [= <-]. exists t. split; [| done]. apply task_at_Some. by rewrite <- Hkk.
  - intros k Hk'. destruct (dependency_declared t k Ht Hk') as (t' & ? & ? & _). eauto.
  - intros k m r'' Hk' Hm. destruct (dependency_declared t k Ht Hk') as (t' & ? & _ & ? & Hk'').
    eapply IH; [done | done |]. intros k' [->%elem_of_singleton|Hin']%elem_of_union; [lia |].
    apply Hvis in Hin'. lia.
Qed.

Lemma validate_depths_complete max_depth ts dm :
  (∀ t, t ∈ ts → t ∈ tasks ∧ (pt_depth t ≤ max_depth)%Z) → agrees dm →
  validate_depths tasks keys max_depth ts (∅, dm) = Some (Ok tt).
Proof.
  revert dm. induction ts as [|t ts IH]; intros dm Hts Hdm; simpl; [done |].
  destruct (Hts t (list_elem_of_here _ _)) as [Ht Hle].
  destruct (depth_fuel_enough (pt_key t) ∅ dm) as [r Hr]. rewrite Hr.
  eapply compute_depth_declared in Hr as (dm' & -> & Hdm');
    [| done | by apply task_at_Some | set_solver].
  rewrite declared_at_key by done. rewrite Z.eqb_refl.
  destruct (Hdeclared t Ht) as (_ & ?).
  replace (max_depth <? pt_depth t)%Z with false by lia.
  replace (MAX_GRAPH_DEPTH <? pt_depth t)%Z with false by lia. simpl.
  apply IH; [| done]. intros t' Ht'. by apply Hts, list_elem_of_further.
Qed.
End declared_depths.

(** A memo table computed by the walk holds the declared depths once the walk
    has accepted every task. *)
Lemma depths_ok_declared tasks keys dm t :
  keys_ok tasks keys → depths_ok tasks keys dm →
  (∀ t', t' ∈ tasks → dm !! pt_key t' = Some (pt_depth t')) →
  t ∈ tasks → depth_declared tasks t.
Proof.
  intros Hkeys Hok Hall Ht. destruct (Hok _ _ (Hall t Ht)) as (t0 & Ht0 & H0 & Hdeps & Hcase).
  assert (t0 = t) as ->.
  { assert (Hs : task_at tasks keys (pt_key t) = Some t) by by apply task_at_Some.
    unfold task_at in Hs. congruence. }
  assert (Hat : ∀ k d, dm !! k = Some d → ∃ t', t' ∈ tasks ∧ pt_key t' = k ∧ pt_depth t' = d).
  { intros k d Hk. destruct (Hok _ _ Hk) as (t' & Ht' & _).
    apply (task_at_Some _ _ Hkeys) in Ht' as [Ht' <-].
    exists t'. rewrite Hall in Hk by done. naive_solver. }
  split_and!; [| | done].
  - intros k Hk. destruct (Hdeps k Hk) as (d' & Hd' & ?).
    apply Hat in Hd' as (t' & ? & ? & <-). eauto.
  - destruct Hcase as [->|(k & Hk & (t' & ? & <- & ?)%Hat)]; [by left | right]. eauto.
Qed.

(** ** Lemmas: what an accepted plan satisfies *)
Lemma checked_sum_ok total overflow values r :
  checked_sum total overflow values = Ok r →
  r = (total + foldr Z.add 0 values)%Z.
Proof.
  revert total. induction values as [|v values IH]; intros total; simpl.
  - intros [= <-]. lia.
  - intros H. res_inv. apply IH in H. apply checked_i64_spec in Hv as [-> _]. lia.
Qed.

Lemma validate_plan_ok_iff plan agents :
  validate_plan plan agents = Some (Ok tt) ↔
  ∃ keys, validate_plan_tables plan agents = Ok keys ∧
    validate_depths (plan_tasks plan) keys (plan_max_depth plan) (plan_tasks plan) (∅, ∅)
    = Some (Ok tt).
Proof.
  unfold validate_plan. destruct (validate_plan_tables plan agents) as [keys|e]; split.
  - intros H. by exists keys.
  - by intros (? & [= <-] & ?).
  - done.
  - by intros (? & ? & _).
Qed.

Lemma tables_depth_bounds plan agents keys :
  validate_plan_tables plan agents = Ok keys → (0 ≤ plan_max_depth plan ≤ MAX_GRAPH_DEPTH)%Z.
Proof. unfold validate_plan_tables. intros H. res_inv. by apply in_range_spec. Qed.

Lemma tables_depths plan agents keys :
  validate_plan_tables plan agents = Ok keys →
  (validate_depths (plan_tasks plan) keys (plan_max_depth plan) (plan_tasks plan) (∅, ∅)
     = Some (Ok tt) ↔
   ∀ t, t ∈ plan_tasks plan →
     depth_declared (plan_tasks plan) t ∧ (pt_depth t ≤ plan_max_depth plan)%Z).
Proof.
  intros Ht. pose proof (tables_depth_bounds _ _ _ Ht) as Hb.
  apply validate_tables_keys_ok in Ht. split.
  - intros (dm & _ & Hok & Hall)%validate_depths_sound; [| done | by intros k d ?%lookup_empty_Some].
    intros t Hin. split; [| by apply Hall].
    eapply depths_ok_declared; [done | done | | done]. intros t' Ht'. by apply Hall.
  - intros Hall. apply validate_depths_complete; [done | | | by intros k d ?%lookup_empty_Some].
    + intros t Hin. destruct (Hall t Hin). split; [done | lia].
    + intros t Hin. split; [done | by apply Hall].
Qed.

Lemma validated_depths plan agents :
  validate_plan plan agents = Some (Ok tt) →
  ∀ t, t ∈ plan_tasks plan →
    depth_declared (plan_tasks plan) t ∧ (pt_depth t ≤ plan_max_depth plan ≤ MAX_GRAPH_DEPTH)%Z.
Proof.
  intros (keys & Ht & Hd)%validate_plan_ok_iff t Hin.
  pose proof (tables_depth_bounds _ _ _ Ht). rewrite (tables_depths _ _ _ Ht) in Hd.
  destruct (Hd t Hin). split; [done | lia].
Qed.

(** A task of least depth among those left has all its dependencies done. *)
Lemma least_depth (P : planned_task → Prop) `{∀ t, Decision (P t)} (tasks : list planned_task) t0 :
  t0 ∈ tasks → P t0 →
  ∃ t, t ∈ tasks ∧ P t ∧ ∀ t', t' ∈ tasks → P t' → (pt_depth t ≤ pt_depth t')%Z.
Proof.
  revert t0. induction tasks as [|t tasks IH]; intros t0; [set_solver |].
  intros Hin HP.
  destruct (decide (Exists P tasks)) as [(t1 & Ht1 & HP1)%Exists_exists|Hno].
  - destruct (IH t1 Ht1 HP1) as (m & Hm & HPm & Hmin).
    destruct (decide (P t ∧ (pt_depth t < pt_depth m)%Z)) as [[HPt Hlt]|Hge].
    + exists t. split_and!; [apply list_elem_of_here | done |].
      intros t' [->|Ht']%elem_of_cons HP'; [lia |]. specialize (Hmin t' Ht' HP'). lia.
    + exists m. split_and!; [by apply list_elem_of_further | done |].
      intros t' [->|Ht']%elem_of_cons HP'; [| by apply Hmin].
      destruct (decide (pt_depth t < pt_depth m)%Z); [naive_solver | lia].
  - rewrite Exists_exists in Hno. apply elem_of_cons in Hin as [->|Hin]; [| naive_solver].
    exists t. split_and!; [apply list_elem_of_here | done |].
    intros t' [->|Ht']%elem_of_cons HP'; [lia | naive_solver].
Qed.

Lemma agents_by_id_elem agents id a :
  agents_by_id agents !! id = Some a → a ∈ agents ∧ agent_id a = id.
Proof.
  unfold agents_by_id.
  assert (∀ m : gmap uuid agent, foldl (λ m a, <[agent_id a := a]> m) m agents !! id = Some a →
    m !! id = Some a ∨ a ∈ agents ∧ agent_id a = id) as H.
  { induction agents as [|a' agents IH]; intros m; simpl; [by left |].
    intros [H|[H ->]]%IH; [| right; split; [by apply list_elem_of_further | done]].
    rewrite lookup_insert in H. case_decide; [right | by left].
    simplify_eq. split; [apply list_elem_of_here | done]. }
  intros Ha. destruct (H ∅ Ha) as [?%lookup_empty_Some|]; done.
Qed.

Lemma validate_task_ok agents t :
  validate_task (agents_by_id agents) t = Ok tt →
  (1 ≤ pt_max_attempts t ≤ 3)%Z ∧
  (1 ≤ tc_budget_tokens (pt_contract t))%Z ∧
  (1 ≤ tc_budget_cost_microusd (pt_contract t))%Z ∧
  ∃ a, a ∈ agents ∧ agent_id a = pt_assigned_agent_id t ∧
       agent_adapter a = pt_required_adapter t.
Proof.
  unfold validate_task, validate_contract, MAX_TASK_ATTEMPTS. intros H. res_inv.
  repeat match goal with H : in_range _ _ _ = true |- _ => apply in_range_spec in H end.
  match goal with H : seqb _ _ = true |- _ => apply seqb_eq in H end.
  match goal with H : _ !! _ = Some _ |- _ => apply agents_by_id_elem in H as [? ?] end.
  split_and!; try lia. eauto.
Qed.

(** A plan that passes, for the witnesses. *)
Definition sample_contract (tokens : Z) : task_contract :=
  TaskContract "Write the report" "A report" None None None None
    ["The report exists"] ["filesystem.write"] ["Deploy"] [] ["src/**"]
    tokens 1000 None "Stop and ask" [] None None None.
Definition sample_task (key : string) (dependencies : list string) (depth : Z) : planned_task :=
  PlannedTask key key (sample_contract 1000) 7%N "fake-process" dependencies depth 2
    (VerificationPolicy [CheckArtifact 1] None).
Definition sample_agents : list agent :=
  [Agent 7%N "Ada" "Engineer" "fake-process" AgentStatus.Idle None].
Definition sample_plan : task_graph_plan :=
  TaskGraphPlan "parallel-specialists" 4 2 10000 100000 []
    [sample_task "research" [] 0; sample_task "build" ["research"] 1;
     sample_task "review" ["build"; "research"] 2].

(** ** Properties *)

(** Validating a plan always finishes: whatever graph a strategy submits,
    cyclic ones included, the depth computation ends in an answer. *)
Theorem validate_plan_total plan agents : ∃ r, validate_plan plan agents = Some r.
Proof.
  unfold validate_plan. destruct (validate_plan_tables plan agents) as [keys|e] eqn:E; [| eauto].
  apply validate_tables_keys_ok in E.
  destruct (validate_depths_total _ _ E (plan_max_depth plan) (plan_tasks plan) (∅, ∅)). eauto.
Qed.

(** C35: once the tables of a plan are in order, its dependency graph is accepted
    precisely when every declared depth is one more than the deepest dependency
    (every dependency a task of the plan, roots at depth zero) and within the
    plan's limit; in particular a cyclic or dangling graph is always rejected and
    a well-layered one never is. *)
Theorem validate_plan_depth_exact plan agents keys :
  validate_plan_tables plan agents = Ok keys →
  (validate_plan plan agents = Some (Ok tt) ↔
   ∀ t, t ∈ plan_tasks plan →
     depth_declared (plan_tasks plan) t ∧ (pt_depth t ≤ plan_max_depth plan)%Z).
Proof.
  intros Ht. rewrite <- (tables_depths _ _ _ Ht), validate_plan_ok_iff, Ht. naive_solver.
Qed.

Lemma validate_plan_depth_exact_witness :
  ∃ keys, validate_plan_tables sample_plan sample_agents = Ok keys ∧
  ∀ t, t ∈ plan_tasks sample_plan →
    depth_declared (plan_tasks sample_plan) t ∧ (pt_depth t ≤ 2)%Z.
Proof.
  eexists. split; [vm_compute; reflexivity |].
  eapply (validate_plan_depth_exact sample_plan sample_agents).
  - vm_compute. reflexivity.
  - vm_compute. reflexivity.
Defined.

(** C36: a validated plan never deadlocks: whatever tasks have been completed, as
    long as one is left there is a task that is not done and whose dependencies
    all are. *)
Theorem validated_plan_progress plan agents (completed : gset string) left_over :
  validate_plan plan agents = Some (Ok tt) →
  left_over ∈ plan_tasks plan → pt_key left_over ∉ completed →
  ∃ t, t ∈ plan_tasks plan ∧ pt_key t ∉ completed ∧
       ∀ k, k ∈ pt_depends_on t → k ∈ completed.
Proof.
  intros Hv Hin Hleft.
  destruct (least_depth (λ t, pt_key t ∉ completed) _ _ Hin Hleft) as (t & Ht & Hnot & Hmin).
  exists t. split_and!; [done | done |]. intros k Hk.
  destruct (validated_depths _ _ Hv t Ht) as ((Hdeps & _) & _).
  destruct (Hdeps k Hk) as (t' & Ht' & <- & Hlt).
  destruct (decide (pt_key t' ∈ completed)) as [|Hn]; [done |].
  specialize (Hmin t' Ht' Hn). lia.
Qed.

Lemma validated_plan_progress_witness :
  ∃ t, t ∈ plan_tasks sample_plan ∧ pt_key t ∉ ({["research"]} : gset string) ∧
       ∀ k, k ∈ pt_depends_on t → k ∈ ({["research"]} : gset string).
Proof.
  apply (validated_plan_progress sample_plan sample_agents {["research"]}
           (sample_task "build" ["research"] 1)).
  - vm_compute. reflexivity.
  - apply list_elem_of_further, list_elem_of_here.
  - apply (bool_decide_unpack _). vm_compute. exact I.
Defined.

(** What a validated plan promises the dispatcher: between one and eight
    tasks with distinct keys, each with one to three attempts, assigned to a
    known agent that speaks the adapter the task requires, with budgets that
    are positive and whose sum stays inside the mission's. *)
Theorem validated_plan_bounds plan agents :
  validate_plan plan agents = Some (Ok tt) →
  (1 ≤ vec_len (plan_tasks plan) ≤ 8)%Z ∧
  NoDup (pt_key <$> plan_tasks plan) ∧
  (∀ t, t ∈ plan_tasks plan →
     (1 ≤ pt_max_attempts t ≤ 3)%Z ∧
     (1 ≤ tc_budget_tokens (pt_contract t))%Z ∧
     (1 ≤ tc_budget_cost_microusd (pt_contract t))%Z ∧
     ∃ a, a ∈ agents ∧ agent_id a = pt_assigned_agent_id t ∧
          agent_adapter a = pt_required_adapter t) ∧
  (foldr Z.add 0 ((tc_budget_tokens ∘ pt_contract) <$> plan_tasks plan) ≤ plan_budget_tokens plan
     ≤ MAX_GRAPH_BUDGET_TOKENS)%Z ∧
  (foldr Z.add 0 ((tc_budget_cost_microusd ∘ pt_contract) <$> plan_tasks plan)
     ≤ plan_budget_cost_microusd plan ≤ 50000000)%Z.
Proof.
  intros (keys & Ht & _)%validate_plan_ok_iff.
  pose proof (validate_tables_keys_ok _ _ _ Ht) as Hkeys.
  unfold validate_plan_tables in Ht. res_inv.
  repeat match goal with
  | H : in_range _ _ _ = true |- _ => apply in_range_spec in H
  | H : checked_sum _ _ _ = Ok _ |- _ => apply checked_sum_ok in H
  | H : validate_tasks _ _ _ _ = Ok _ |- _ => apply validate_tasks_ok in H as (_ & Hall & _)
  end.
  unfold MAX_GRAPH_NODES, vec_len in *. split_and!; try lia.
  - destruct (plan_tasks plan); [done | simpl; lia].
  - apply NoDup_alt. intros i j k Hi Hj.
    apply list_lookup_fmap_Some in Hi as (t & -> & Ht), Hj as (t' & Hk & Ht').
    apply (keys_total _ _ Hkeys) in Ht, Ht'. rewrite Hk in Ht. by simplify_eq.
  - intros t [i Hi]%list_elem_of_lookup. apply Hall in Hi as (_ & _ & Hi).
    by apply validate_task_ok.
Qed.

Lemma validated_plan_bounds_witness :
  NoDup (pt_key <$> plan_tasks sample_plan) ∧
  (foldr Z.add 0 ((tc_budget_tokens ∘ pt_contract) <$> plan_tasks sample_plan) ≤ 10000)%Z.
Proof.
  edestruct (validated_plan_bounds sample_plan sample_agents) as (_ & Hn & _ & Hb & _).
  - vm_compute. reflexivity.
  - split; [exact Hn | apply Hb].
Defined.
