(* ===== verification/Deliverable.v ===== *)
(** * What a runner exports (crates/crony-runner/src/deliverable.rs)

    The runner reads the changes of a worktree from a temporary Git index,
    refuses the ones outside the task's write scope, secret-like paths and
    anything but regular files, and writes the rest as one document.  Git and
    the file system are the parameter [worktree]. *)
From S2P Require Import Prelude Text Domain Planning.
From Stdlib Require Import Ascii.

(** What Git and the file system answer about the index of one export:
    [git diff --name-status -z], the mode and the content of an indexed path,
    [git diff --binary], and the walk over the physical path that looks for
    links and for an escape from the worktree. *)
Record worktree := Worktree {
  wt_name_status : string;
  wt_index_mode : string → result string;
  wt_show : string → result string;
  wt_patch : string;
  wt_physical : string → result unit;
}.

Definition change : Type := string * string.           (* status, path *)

Definition validate_relative (value : string) : result unit :=
  bail_if (negb (repository_relative_path_is_valid value))
    "deliverable path must stay inside the worktree".

(** ** Reading the changes *)
Definition utf8_field (field : string) : result string :=
  if utf8 field then Ok field else Err "Git path is not UTF-8".

(** [while let Some(status) = fields.next()] *)
Fixpoint parse_changes (fields : list string) : result (list change) :=
  match fields with
  | [] => Ok []
  | status :: rest =>
      status ← utf8_field status;
      match rest with
      | [] => Err "Git name-status output omitted a path"
      | path :: rest =>
          path ← utf8_field path;
          validate_relative path;;
          changes ← parse_changes rest;
          Ok ((status, path) :: changes)
      end
  end.

(** [left.1.cmp(&right.1).then(left.0.cmp(&right.0))] *)
Definition change_leb (left right : change) : bool :=
  if seqb left.2 right.2 then str_leb left.1 right.1 else str_leb left.2 right.2.

Definition changed_paths (output : string) : result (list change) :=
  changes ← parse_changes (List.filter (λ field, negb (is_empty field)) (split_on "000"%char output));
  Ok (sort_by change_leb changes).

(** ** What is refused *)
Definition reject_out_of_scope_changes (changes : list change) (write_scope : list string) :
    result unit :=
  bail_if (vec_is_empty write_scope) "deliverable export requires an explicit task write scope";;
  for_each (λ scope, bail_if (negb (write_scope_is_valid scope))
    "task write scope must be an exact relative path or end in /**") write_scope;;
  for_each (λ '(_, path),
    bail_if (negb (existsb (λ scope, write_scope_allows_path scope path) write_scope))
      ("deliverable contains path outside the task write scope: " +:+ path)) changes.

Definition sensitive_components : list string :=
  [".git"; ".codex"; ".claude"; ".ssh"; ".aws"; ".azure"; ".kube"; ".docker"; ".gnupg";
   ".password-store"; ".terraform.d"; ".pulumi"; ".oci"; ".gem"; ".nuget"; ".m2"; ".gradle";
   ".composer"; ".vercel"; ".netlify"; ".wrangler"; ".fly"; ".yarn"].

Definition sensitive_config : list string :=
  ["gcloud"; "gh"; "hub"; "glab"; "doctl"; "heroku"; "op"; "rclone"; "containers";
   "github-copilot"; "openai"; "anthropic"; "huggingface"; "kaggle"; "wandb"; "pypoetry";
   "composer"; "pip"; "uv"; "npm"; "yarn"; "pnpm"; "bun"; "deno"; "vercel"; "netlify";
   "cloudflare"; "fly"; "azure-devops"].

Definition sensitive_files : list string :=
  [".npmrc"; ".pypirc"; ".netrc"; "_netrc"; ".git-credentials"; ".vault-token"; ".sentryclirc";
   ".terraformrc"; ".yarnrc"; ".yarnrc.yml"; ".yarnrc.yaml"; "terraform.rc"; "npmrc"; "id_rsa";
   "id_ed25519"; "application_default_credentials.json"; "accesstokens.json"; "kubeconfig";
   "credentials"; "credentials.json"; "credentials.toml"; "secrets.json"].

(** [components.windows(2)] *)
Fixpoint sensitive_pair (components : list string) : bool :=
  match components with
  | first :: (second :: _) as rest =>
      (seqb first ".config" && mem second sensitive_config) || sensitive_pair rest
  | _ => false
  end.

Definition sensitive_path (path : string) : bool :=
  let normalized := to_ascii_lowercase (replace "\" "/" path) in
  let components := split_on "/"%char normalized in
  let file_name := default normalized (last components) in
  existsb (λ component, mem component sensitive_components) components
  || sensitive_pair components
  || starts_with ".env" file_name
  || mem file_name sensitive_files
  || ends_with ".pem" file_name || ends_with ".key" file_name
  || ends_with ".p12" file_name || ends_with ".pfx" file_name.

Definition regular_mode (mode : string) : bool := seqb mode "100644" || seqb mode "100755".

Definition reject_unsafe_changes (wt : worktree) (changes : list change) : result unit :=
  for_each (λ '(status, path),
    bail_if (sensitive_path path)
      ("deliverable contains a secret-like or runner-internal path: " +:+ path);;
    if starts_with "D" status then Ok tt
    else
      mode ← wt_index_mode wt path;
      bail_if (seqb mode "120000") ("deliverable cannot contain symbolic link " +:+ path);;
      bail_if (seqb mode "160000") ("deliverable cannot contain Git link " +:+ path);;
      bail_if (negb (regular_mode mode))
        ("deliverable contains unsupported file mode " +:+ mode +:+ ": " +:+ path);;
      wt_physical wt path) changes.

(** The changes an export goes on with. *)
Definition export_changes (wt : worktree) (write_scope : list string) : result (list change) :=
  changes ← changed_paths (wt_name_status wt);
  reject_out_of_scope_changes changes write_scope;;
  reject_unsafe_changes wt changes;;
  Ok changes.

(** ** The document *)

(** [Path::extension] of a relative path with a file name: what follows the last
    dot of the file name, unless that dot is its first character. *)
Definition path_extension (path : string) : option string :=
  match reverse (split_on "."%char (default "" (last (split_on "/"%char path)))) with
  | extension :: before :: rest =>
      if vec_is_empty rest && is_empty before then None else Some extension
  | _ => None
  end.

Definition text_extensions : list string :=
  ["md"; "txt"; "rs"; "ts"; "tsx"; "js"; "mjs"; "css"; "html"; "toml"; "yaml"; "yml"].

Definition infer_media_type (path : string) : string :=
  let extension := to_ascii_lowercase (default "" (path_extension path)) in
  if seqb extension "json" then "application/json"
  else if mem extension text_extensions then "text/plain"
  else if seqb extension "png" then "image/png"
  else if seqb extension "jpg" || seqb extension "jpeg" then "image/jpeg"
  else if seqb extension "svg" then "image/svg+xml"
  else if seqb extension "pdf" then "application/pdf"
  else "application/octet-stream".

(** The hash (hexadecimal SHA-256) and the base64 encoding are library code. *)
Class Digests := {
  sha256_hex : string → string;
  base64_encode : string → string;
}.

Record exported_change := ExportedChange {
  xc_path : string; xc_status : string; xc_mode : option string; xc_sha256 : option string;
  xc_bytes : option Z; xc_media_type : option string; xc_content_base64 : option string }.

Record exported_document := ExportedDocument {
  xd_schema_version : Z; xd_form : string; xd_base_commit : string; xd_head_commit : option string;
  xd_branch : string; xd_verification_sha256 : string; xd_patch_sha256 : string;
  xd_patch_base64 : option string; xd_git_bundle_sha256 : option string;
  xd_git_bundle_base64 : option string; xd_changes : list exported_change }.

Definition form_as_str (form : deliverable_form) : string :=
  match form with
  | DeliverableForm.CommitBranch => "commit_branch"
  | DeliverableForm.Patch => "patch"
  | DeliverableForm.Archive => "archive"
  | DeliverableForm.TypedArtifactSet => "typed_artifact_set"
  | DeliverableForm.ReviewOnlyReport => "review_only_report"
  end.

Definition includes_content (form : deliverable_form) : bool :=
  match form with
  | DeliverableForm.Archive | DeliverableForm.TypedArtifactSet | DeliverableForm.CommitBranch => true
  | _ => false
  end.

Section export.
Context `{Digests}.

Definition archive_change (wt : worktree) (include_content : bool) (c : change) :
    result exported_change :=
  let '(status, path) := c in
  if starts_with "D" status then Ok (ExportedChange path status None None None None None)
  else
    content ← wt_show wt path;
    mode ← wt_index_mode wt path;
    Ok (ExportedChange path status (Some mode) (Some (sha256_hex content))
          (Some (str_len content)) (Some (infer_media_type path))
          (if include_content then Some (base64_encode content) else None)).

Definition archive_changes (wt : worktree) (changes : list change) (include_content : bool) :
    result (list exported_change) :=
  collect (archive_change wt include_content) changes.

(** The document of every form but [Patch]; [git_bundle] is the bundle of a
    commit/branch deliverable. *)
Definition export_document (wt : worktree) (form : deliverable_form) (changes : list change)
    (base_commit branch verification_sha256 : string) (head_commit git_bundle : option string) :
    result exported_document :=
  let include_content := includes_content form in
  archived ← archive_changes wt changes include_content;
  Ok (ExportedDocument 1 (form_as_str form) base_commit head_commit branch verification_sha256
        (sha256_hex (wt_patch wt))
        (if include_content then Some (base64_encode (wt_patch wt)) else None)
        (sha256_hex <$> git_bundle) (base64_encode <$> git_bundle) archived).
End export.

(** ** Lemmas *)
Definition flatten (changes : list change) : list string := changes ≫= λ c, [c.1; c.2].

Lemma utf8_field_ok field v : utf8_field field = Ok v → v = field.
Proof. unfold utf8_field. case_match; naive_solver. Qed.

Lemma parse_changes_ok fields changes :
  parse_changes fields = Ok changes →
  fields = flatten changes ∧ ∀ c, c ∈ changes → repository_relative_path_is_valid c.2 = true.
Proof.
  revert changes. induction fields as [fields IH] using (induction_ltof1 _ length).
  destruct fields as [|status [|path rest]]; intros changes Hp; simpl in Hp.
  - simplify_eq. set_solver.
  - by res_inv.
  - unfold validate_relative in Hp. res_inv.
    repeat match goal with H : utf8_field _ = Ok _ |- _ => apply utf8_field_ok in H as -> end.
    match goal with H : parse_changes rest = Ok _ |- _ => apply IH in H as [-> Hv] end.
    + split; [done |]. intros c [->|Hc]%elem_of_cons; auto.
    + unfold ltof. simpl. lia.
Qed.

Lemma change_leb_total a b : change_leb a b = true ∨ change_leb b a = true.
Proof.
  unfold change_leb. destruct (seqb a.2 b.2) eqn:E.
  - apply seqb_eq in E. rewrite E, seqb_refl. apply str_leb_total.
  - apply seqb_neq in E. rewrite (proj2 (seqb_neq b.2 a.2)) by done. apply str_leb_total.
Qed.

Lemma change_leb_iff a b :
  change_leb a b = true ↔ str_leb a.2 b.2 = true ∧ (a.2 = b.2 → str_leb a.1 b.1 = true).
Proof.
  unfold change_leb. destruct (seqb a.2 b.2) eqn:E.
  - apply seqb_eq in E. rewrite E. pose proof (str_leb_total b.2 b.2). naive_solver.
  - apply seqb_neq in E. naive_solver.
Qed.

Lemma change_leb_trans a b c :
  change_leb a b = true → change_leb b c = true → change_leb a c = true.
Proof.
  rewrite !change_leb_iff. intros [H1 H2] [H3 H4]. split; [by eapply str_leb_trans |].
  intros E. assert (a.2 = b.2) as E1 by (apply str_leb_antisym; congruence).
  assert (b.2 = c.2) as E2 by congruence. eapply str_leb_trans; eauto.
Qed.

Lemma changed_paths_ok output changes :
  changed_paths output = Ok changes →
  StronglySorted (λ a b, change_leb a b = true) changes ∧
  (∃ listed, listed ≡ₚ changes ∧
     flatten listed = List.filter (λ field, negb (is_empty field)) (split_on "000"%char output)) ∧
  ∀ c, c ∈ changes → repository_relative_path_is_valid c.2 = true.
Proof.
  unfold changed_paths. intros Hc. res_inv.
  match goal with H : parse_changes _ = Ok _ |- _ => apply parse_changes_ok in H as [Hf Hv] end.
  split_and!.
  - apply sort_by_sorted; [apply change_leb_total | apply change_leb_trans].
  - eexists. split; [symmetry; apply sort_by_perm | done].
  - intros c Hin. apply Hv. by rewrite <- (sort_by_perm change_leb).
Qed.

Lemma in_scope_ok changes write_scope :
  reject_out_of_scope_changes changes write_scope = Ok tt →
  ∀ c, c ∈ changes → ∃ scope, scope ∈ write_scope ∧ write_scope_is_valid scope = true ∧
    write_scope_allows_path scope c.2 = true.
Proof.
  unfold reject_out_of_scope_changes. intros Hr. res_inv. rewrite !for_each_ok in *.
  intros [status path] Hc. apply Hr in Hc. res_inv.
  match goal with H : existsb _ _ = true |- _ => apply existsb_exists in H as (scope & Hs & ?) end.
  apply list_elem_of_In in Hs. exists scope. split_and!; [done | | done].
  match goal with H : ∀ x, x ∈ write_scope → _ |- _ => apply H in Hs end. by res_inv.
Qed.

Lemma safe_changes_ok wt changes :
  reject_unsafe_changes wt changes = Ok tt →
  ∀ status path, (status, path) ∈ changes → sensitive_path path = false ∧
    (starts_with "D" status = false →
     ∃ mode, wt_index_mode wt path = Ok mode ∧ regular_mode mode = true ∧ wt_physical wt path = Ok tt).
Proof.
  unfold reject_unsafe_changes. rewrite for_each_ok. intros Hr status path Hc.
  apply Hr in Hc. res_inv. split; [done |]. intros Hd. rewrite Hd in *. res_inv. by eexists.
Qed.

(** ** Properties *)

(** An export that goes ahead takes every change Git lists, once, in path
    order, and each is a portable path inside one of the task's write scopes and
    not a secret-like one; unless it is a deletion it is a regular file (mode
    100644 or 100755) whose physical path was inspected. *)
Theorem exported_changes_are_confined wt write_scope changes :
  export_changes wt write_scope = Ok changes →
  StronglySorted (λ a b, change_leb a b = true) changes ∧
  (∃ listed, listed ≡ₚ changes ∧
     flatten listed = List.filter (λ field, negb (is_empty field))
                        (split_on "000"%char (wt_name_status wt))) ∧
  ∀ status path, (status, path) ∈ changes →
    repository_relative_path_is_valid path = true ∧
    (∃ scope, scope ∈ write_scope ∧ write_scope_is_valid scope = true ∧
       write_scope_allows_path scope path = true) ∧
    sensitive_path path = false ∧
    (starts_with "D" status = false →
     ∃ mode, wt_index_mode wt path = Ok mode ∧ regular_mode mode = true ∧ wt_physical wt path = Ok tt).
Proof.
  unfold export_changes. intros He. res_inv.
  match goal with H : changed_paths _ = Ok _ |- _ => apply changed_paths_ok in H as (Hs & Hl & Hv) end.
  split_and!; [done | done |]. intros status path Hc. split_and!.
  - by apply (Hv (status, path)).
  - by eapply (in_scope_ok _ _ ltac:(eassumption) (status, path)).
  - by eapply safe_changes_ok.
  - by eapply safe_changes_ok.
Qed.

(** A worktree with one modified and one new file. *)
Definition sample_worktree : worktree :=
  Worktree ("M" +:+ nul +:+ "src/b.rs" +:+ nul +:+ "A" +:+ nul +:+ "handoffs/a.md" +:+ nul)
    (λ _, Ok "100644") (λ path, Ok (path +:+ " content")) "diff" (λ _, Ok tt).

Lemma exported_changes_are_confined_witness :
  export_changes sample_worktree ["src/**"; "handoffs/a.md"] =
    Ok [("A", "handoffs/a.md"); ("M", "src/b.rs")] ∧
  sensitive_path "src/b.rs" = false.
Proof.
  split; [vm_compute; reflexivity |].
  eapply (exported_changes_are_confined sample_worktree ["src/**"; "handoffs/a.md"]
            [("A", "handoffs/a.md"); ("M", "src/b.rs")]).
  - vm_compute. reflexivity.
  - apply list_elem_of_further, list_elem_of_here.
Defined.
