(* ===== verification/DependencySource.v ===== *)
(** * What the server accepts from an export (crates/crony-server/src/dependency_source.rs)

    The files a finished task hands to the tasks that depend on it: the server
    decodes the runner's typed export again, fail-closed.  Paths are restricted
    to a portable dialect ([safe_path], [checked_paths]), every declared file has
    to be there with the size and hash it claims, and the whole set stays inside
    a prompt budget ([decode_typed_source]). *)
From S2P Require Import Prelude Text Domain Planning Deliverable.
From Stdlib Require Import Ascii.

Definition TYPED_SOURCE_MEDIA_TYPE : string := "application/vnd.ecorp.deliverable+json".
Definition MAX_TYPED_SOURCE_FILES : Z := 8.
Definition MAX_TYPED_SOURCE_FILE_BYTES : Z := 12 * 1024.
Definition MAX_TYPED_SOURCE_PROMPT_BYTES : Z := 16 * 1024.
Definition MAX_TYPED_SOURCE_ENVELOPE_BYTES : Z := 128 * 1024.
Definition MAX_PATCH_BYTES : Z := 64 * 1024.
Definition FILE_FRAMING_BYTES : Z := 128.

Inductive dependency_source_error :=
| InvalidExpectation (detail : string)
| InvalidEnvelope
| LimitExceeded (detail : string)
| ContractMismatch (detail : string)
| UnsafePath
| DuplicatePath
| UnsupportedChange
| UnsupportedMediaType
| InvalidBase64
| ByteCountMismatch
| DigestMismatch
| InvalidText.

(** An error travels as the text it displays. *)
Definition message_of (e : dependency_source_error) : string :=
  match e with
  | InvalidExpectation detail => "invalid typed source expectation: " +:+ detail
  | InvalidEnvelope => "invalid or ambiguous typed source envelope"
  | LimitExceeded detail => "typed source exceeds " +:+ detail
  | ContractMismatch detail => "typed source does not match expected " +:+ detail
  | UnsafePath => "typed source contains an unsafe or unsupported path"
  | DuplicatePath => "typed source contains duplicate, aliased, or conflicting paths"
  | UnsupportedChange => "typed source contains an unsupported status or non-regular file mode"
  | UnsupportedMediaType => "typed source MIME is unsupported or inconsistent with its text file"
  | InvalidBase64 => "typed source base64 is not canonical"
  | ByteCountMismatch => "typed source byte count does not match content"
  | DigestMismatch => "typed source digest does not match content"
  | InvalidText => "typed source content is not supported UTF-8 text"
  end.
Definition reject_if (condition : bool) (e : dependency_source_error) : result unit :=
  bail_if condition (message_of e).

(** ** Hashes and commits *)
Definition lowercase_hex (value : string) : bool :=
  all_bytes (λ b, is_ascii_digit b || ((97 <=? b) && (b <=? 102))%Z) value.
Definition valid_digest (value : string) : bool := (str_len value =? 64)%Z && lowercase_hex value.
Definition valid_commit (value : string) : bool :=
  ((str_len value =? 40) || (str_len value =? 64))%Z && lowercase_hex value.

(** ** Paths *)
Definition unsafe_bytes : string := "*?[]<>|~%" +:+ quote.

Definition device_stem (stem : string) : bool :=
  mem stem ["con"; "prn"; "aux"; "nul"; "conin$"; "conout$"]
  || ((str_len stem =? 4)%Z && (starts_with "com" stem || starts_with "lpt" stem)
      && match bytes stem !! 3%nat with Some b => is_ascii_digit b | None => false end).

Definition secret_component (lower : string) : bool :=
  mem lower ["_netrc"; "npmrc"; "terraform.rc"; "kubeconfig"; "accesstokens.json";
             "application_default_credentials.json"]
  || existsb (λ name, seqb lower name
                      || match strip_prefix name lower with
                         | Some rest => starts_with "." rest
                         | None => false
                         end)
       ["credentials"; "secrets"; "id_rsa"; "id_dsa"; "id_ecdsa"; "id_ed25519"]
  || existsb (λ suffix, ends_with suffix lower)
       [".pem"; ".key"; ".p12"; ".pfx"; ".p8"; ".ppk"; ".jks"; ".keystore"].

Definition safe_component (component : string) : bool :=
  if starts_with "." component || ends_with "." component || negb (seqb (trim component) component)
  then false
  else
    let lower := to_ascii_lowercase component in
    let stem := default "" (head (split_on "."%char lower)) in
    negb (device_stem stem) && negb (secret_component lower).

Definition safe_path (path : string) : bool :=
  if negb (repository_relative_path_is_valid path)
     || negb (all_bytes (λ b, (b <? 128)%Z) path)
     || existsb (one_of unsafe_bytes) (bytes path)
  then false
  else forallb safe_component (split_on "/"%char path).

(** Two case-folded paths that cannot both be files of one checkout. *)
Definition under (parent path : string) : bool :=
  match strip_prefix parent path with Some rest => starts_with "/" rest | None => false end.
Definition paths_conflict (folded other : string) : bool :=
  seqb folded other || under other folded || under folded other.

(** The loop of [checked_paths], with the set and the folded paths so far. *)
Fixpoint check_paths (paths : gset string) (portable : list string) (values : list string) :
    result (gset string) :=
  match values with
  | [] => Ok paths
  | value :: rest =>
      reject_if (Z.of_nat (size paths) =? MAX_TYPED_SOURCE_FILES)%Z (LimitExceeded "file count limit");;
      reject_if (negb (safe_path value)) UnsafePath;;
      let folded := to_ascii_lowercase value in
      reject_if (existsb (paths_conflict folded) portable) DuplicatePath;;
      check_paths ({[value]} ∪ paths) (portable ++ [folded]) rest
  end.
Definition checked_paths (values : list string) : result (gset string) := check_paths ∅ [] values.

(** [path.rsplit('/').next()?.rsplit_once('.')?.1] *)
Definition text_media_type (path : string) : option string :=
  file_name ← last (split_on "/"%char path);
  extension ← match reverse (split_on "."%char file_name) with
              | extension :: _ :: _ => Some (to_ascii_lowercase extension)
              | _ => None
              end;
  if seqb extension "json" then Some "application/json"
  else if mem extension text_extensions then Some "text/plain"
  else None.

Definition validate_typed_source_paths (paths : list string) : result unit :=
  reject_if (vec_is_empty paths) (InvalidExpectation "declared file set must not be empty");;
  validated ← checked_paths paths;
  reject_if (existsb (λ path, negb (is_some (text_media_type path))) (elements validated))
    UnsupportedMediaType.

(** ** The envelope *)
Record archived_change := ArchivedChange {
  ac_path : string; ac_status : string; ac_mode : string; ac_sha256 : string; ac_bytes : Z;
  ac_media_type : string; ac_content_base64 : string }.

Record artifact_set := ArtifactSet {
  as_schema_version : Z; as_form : string; as_base_commit : string; as_head_commit : option string;
  as_branch : string; as_verification_sha256 : string; as_patch_sha256 : string;
  as_patch_base64 : string; as_changes : list archived_change }.

(** The columns of the stored deliverable that are cross-checked. *)
Record source_deliverable := SourceDeliverable {
  sd_form : deliverable_form; sd_sha256 : string; sd_media_type : string; sd_bytes : Z;
  sd_verification_sha256 : string; sd_base_commit : string; sd_head_commit : option string;
  sd_branch : string }.

Record expected_typed_source := ExpectedTypedSource {
  et_base_commit : string; et_verification_sha256 : string; et_declared_paths : list string;
  et_changed_paths : option (list string); et_source : option source_deliverable }.

Record dependency_source_file := DependencySourceFile {
  df_path : string; df_sha256 : string; df_content : string }.

(** Library code: the JSON reader with the field types of the envelope, the
    check that a text is JSON, and the base64 decoder. *)
Class Envelopes `{Digests} := {
  parse_envelope : string → option artifact_set;
  json_parses : string → bool;
  base64_decode : string → option string;
}.

(** [bytes.div_ceil(3) * 4] *)
Definition encoded_len (n : Z) : Z := ((n + 2) / 3 * 4)%Z.

(** What the reader makes of a document the runner wrote: fields that are not
    nullable must be there, the bundle fields must be null. *)
Definition read_change (c : exported_change) : option archived_change :=
  match c with
  | ExportedChange path status (Some mode) (Some sha256) (Some bytes) (Some media) (Some content) =>
      Some (ArchivedChange path status mode sha256 bytes media content)
  | _ => None
  end.
Definition read_document (d : exported_document) : option artifact_set :=
  match xd_patch_base64 d, xd_git_bundle_sha256 d, xd_git_bundle_base64 d with
  | Some patch, None, None =>
      changes ← mapM read_change (xd_changes d);
      Some (ArtifactSet (xd_schema_version d) (xd_form d) (xd_base_commit d) (xd_head_commit d)
              (xd_branch d) (xd_verification_sha256 d) (xd_patch_sha256 d) patch changes)
  | _, _, _ => None
  end.

(** What the libraries promise: SHA-256 prints as 64 lower-case hexadecimal
    digits, and base64 decodes what it encoded, four characters for every three
    bytes begun. *)
Class EnvelopeLaws `{Envelopes} := {
  sha256_hex_valid : ∀ b, valid_digest (sha256_hex b) = true;
  base64_encode_len : ∀ b, str_len (base64_encode b) = encoded_len (str_len b);
  base64_round_trip : ∀ b, base64_decode (base64_encode b) = Some b;
}.

Section decode.
Context `{Envelopes}.

Definition decode_base64 (encoded : string) (limit : Z) : result string :=
  reject_if (encoded_len limit <? str_len encoded)%Z (LimitExceeded "encoded byte limit");;
  decoded ← with_context (base64_decode encoded) (message_of InvalidBase64);
  reject_if (limit <? str_len decoded)%Z (LimitExceeded "decoded byte limit");;
  Ok decoded.

(** [bounded_changes]: a ninth change is an error of the reader. *)
Definition bounded_envelope (input : string) : option artifact_set :=
  document ← parse_envelope input;
  if (MAX_TYPED_SOURCE_FILES <? vec_len (as_changes document))%Z then None else Some document.

Definition check_envelope (document : artifact_set) (expected : expected_typed_source) : result unit :=
  reject_if (negb (as_schema_version document =? 1)%Z
             || negb (seqb (as_form document) "typed_artifact_set")) InvalidEnvelope;;
  reject_if (negb (seqb (as_base_commit document) (et_base_commit expected)))
    (ContractMismatch "base commit");;
  reject_if (negb (seqb (as_verification_sha256 document) (et_verification_sha256 expected)))
    (ContractMismatch "verification SHA-256");;
  reject_if (match as_head_commit document with Some head => negb (valid_commit head) | None => false end
             || is_empty (as_branch document)
             || (512 <? str_len (as_branch document))%Z
             || negb (seqb (trim (as_branch document)) (as_branch document))
             || any_char is_control (as_branch document)
             || negb (valid_digest (as_patch_sha256 document))) InvalidEnvelope.

Definition check_source_record (input : string) (document : artifact_set)
    (source : source_deliverable) : result unit :=
  reject_if (negb (bool_decide (sd_form source = DeliverableForm.TypedArtifactSet))
             || negb (seqb (sd_base_commit source) (as_base_commit document))
             || negb (seqb (sd_verification_sha256 source) (as_verification_sha256 document))
             || negb (seqb (sd_branch source) (as_branch document))
             || negb (bool_decide (sd_head_commit source = as_head_commit document)))
    (ContractMismatch "source deliverable identity");;
  reject_if (negb (seqb (sd_media_type source) TYPED_SOURCE_MEDIA_TYPE)) UnsupportedMediaType;;
  reject_if (negb (sd_bytes source =? str_len input)%Z) ByteCountMismatch;;
  reject_if (negb (seqb (sd_sha256 source) (sha256_hex input))) DigestMismatch.

(** Metadata of every file and the output budget, before any decoding. *)
Definition file_cost (bytes : Z) (path : string) : Z :=
  (bytes + str_len path + 64 + FILE_FRAMING_BYTES)%Z.
Fixpoint check_changes (prompt_bytes : Z) (changes : list archived_change) : result unit :=
  match changes with
  | [] => Ok tt
  | change :: rest =>
      reject_if (negb (mem (ac_status change) ["A"; "M"; "T"]) || negb (regular_mode (ac_mode change)))
        UnsupportedChange;;
      reject_if (negb (bool_decide (text_media_type (ac_path change) = Some (ac_media_type change))))
        UnsupportedMediaType;;
      reject_if (negb (valid_digest (ac_sha256 change))) InvalidEnvelope;;
      reject_if ((MAX_TYPED_SOURCE_FILE_BYTES <? ac_bytes change)%Z
                 || (encoded_len MAX_TYPED_SOURCE_FILE_BYTES <? str_len (ac_content_base64 change))%Z)
        (LimitExceeded "per-file byte limit");;
      reject_if (negb (str_len (ac_content_base64 change) =? encoded_len (ac_bytes change))%Z)
        ByteCountMismatch;;
      let prompt_bytes := (prompt_bytes + file_cost (ac_bytes change) (ac_path change))%Z in
      reject_if (MAX_TYPED_SOURCE_PROMPT_BYTES <? prompt_bytes)%Z
        (LimitExceeded "per-parent prompt byte limit");;
      check_changes prompt_bytes rest
  end.

Definition is_forbidden_control (c : Z) : bool := is_control c && negb (one_of (tab +:+ newline +:+ carriage_return) c).

Definition decode_change (change : archived_change) : result dependency_source_file :=
  decoded ← decode_base64 (ac_content_base64 change) MAX_TYPED_SOURCE_FILE_BYTES;
  reject_if (negb (str_len decoded =? ac_bytes change)%Z) ByteCountMismatch;;
  reject_if (negb (seqb (sha256_hex decoded) (ac_sha256 change))) DigestMismatch;;
  reject_if (negb (utf8 decoded)) InvalidText;;
  reject_if (any_char is_forbidden_control decoded) InvalidText;;
  reject_if (seqb (ac_media_type change) "application/json" && negb (json_parses decoded))
    UnsupportedMediaType;;
  Ok (DependencySourceFile (ac_path change) (ac_sha256 change) decoded).

Definition file_leb (left right : dependency_source_file) : bool :=
  str_leb (df_path left) (df_path right).

Definition decode_typed_source (input : string) (expected : expected_typed_source) :
    result (list dependency_source_file) :=
  reject_if (MAX_TYPED_SOURCE_ENVELOPE_BYTES <? str_len input)%Z (LimitExceeded "envelope byte limit");;
  reject_if (negb (valid_commit (et_base_commit expected))
             || negb (valid_digest (et_verification_sha256 expected)))
    (InvalidExpectation "base commit or verification SHA-256");;
  validate_typed_source_paths (et_declared_paths expected);;
  let declared : gset string := list_to_set (et_declared_paths expected) in
  match et_changed_paths expected with
  | Some changed =>
      paths ← checked_paths changed;
      reject_if (negb (bool_decide (paths = declared))) (ContractMismatch "changed paths")
  | None => Ok tt
  end;;
  document ← with_context (bounded_envelope input) (message_of InvalidEnvelope);
  check_envelope document expected;;
  match et_source expected with
  | Some source => check_source_record input document source
  | None => Ok tt
  end;;
  actual ← checked_paths (ac_path <$> as_changes document);
  reject_if (negb (bool_decide (actual = declared))) (ContractMismatch "declared file set");;
  check_changes 0 (as_changes document);;
  patch ← decode_base64 (as_patch_base64 document) MAX_PATCH_BYTES;
  reject_if (negb (seqb (sha256_hex patch) (as_patch_sha256 document))) DigestMismatch;;
  files ← collect decode_change (as_changes document);
  Ok (sort_by file_leb files).
End decode.

(** ** Lemmas: paths *)

(** One path is a directory above the other, or the same, component by component. *)
Definition nested (a b : string) : Prop :=
  split_on "/"%char a `prefix_of` split_on "/"%char b ∨ split_on "/"%char b `prefix_of` split_on "/"%char a.

Lemma under_prefix parent path :
  seqb path parent || under parent path = true ↔
  split_on "/"%char parent `prefix_of` split_on "/"%char path.
Proof.
  unfold under. rewrite orb_true_iff, seqb_eq. split.
  - intros [->|H]; [done |]. destruct (strip_prefix parent path) as [rest|] eqn:E; [| done].
    apply strip_prefix_spec in E as ->. apply starts_with_spec in H as [r ->].
    exists (split_on "/"%char r). apply (split_on_app "/"%char parent r).
  - intros [[|w ws] Hk].
    + left. rewrite app_nil_r in Hk. by apply split_on_inj in Hk.
    + right. assert (path = parent +:+ "/" +:+ join "/" (w :: ws)) as ->.
      { rewrite <- (split_on_join "/"%char path), Hk.
        rewrite join_app; [| apply split_on_nonempty | done]. by rewrite split_on_join. }
      by rewrite (proj2 (strip_prefix_spec parent _ _) eq_refl).
Qed.

Lemma seqb_sym a b : seqb a b = seqb b a.
Proof. apply eq_true_iff_eq. rewrite !seqb_eq. naive_solver. Qed.

Lemma paths_conflict_iff a b : paths_conflict a b = true ↔ nested a b.
Proof.
  unfold nested. rewrite <- !under_prefix. unfold paths_conflict.
  rewrite (seqb_sym b a). destruct (seqb a b), (under a b), (under b a); simpl; naive_solver.
Qed.

Lemma nested_refl a : nested a a.
Proof. by left. Qed.

(** What [checked_paths] demands of a list of paths. *)
Definition portable_set (values : list string) : Prop :=
  (vec_len values ≤ MAX_TYPED_SOURCE_FILES)%Z ∧ (∀ v, v ∈ values → safe_path v = true) ∧
  pairwise (λ a b, ¬ nested (to_ascii_lowercase a) (to_ascii_lowercase b)) values.

Lemma portable_set_NoDup values : portable_set values → NoDup values.
Proof. intros (_ & _ & Hp). eapply pairwise_NoDup; [| exact Hp]. intros x Hx. apply Hx, nested_refl. Qed.

Lemma portable_set_app pre v :
  portable_set (pre ++ [v]) ↔
  portable_set pre ∧ (vec_len pre < MAX_TYPED_SOURCE_FILES)%Z ∧ safe_path v = true ∧
  ∀ a, a ∈ pre → ¬ nested (to_ascii_lowercase a) (to_ascii_lowercase v).
Proof.
  unfold portable_set, vec_len. rewrite pairwise_app, length_app. simpl.
  setoid_rewrite elem_of_app. setoid_rewrite list_elem_of_singleton.
  split.
  - intros (Hl & Hs & Hp & _ & Hpv). split_and!; auto; lia.
  - intros ((Hl & Hs & Hp) & Hlt & Hv & Hpv). split_and!; try done; [lia | naive_solver |].
    by intros x y Hx ->; apply Hpv.
Qed.

Lemma portable_set_prefix pre post : portable_set (pre ++ post) → portable_set pre.
Proof.
  unfold portable_set, vec_len. rewrite pairwise_app, length_app. intros (? & Hs & ? & _).
  split_and!; [lia | | done]. intros v Hv. apply Hs, elem_of_app. by left.
Qed.

Lemma nested_sym a b : nested a b ↔ nested b a.
Proof. unfold nested. naive_solver. Qed.

Lemma conflicts_with v pre :
  existsb (paths_conflict (to_ascii_lowercase v)) (to_ascii_lowercase <$> pre) = false ↔
  ∀ a, a ∈ pre → ¬ nested (to_ascii_lowercase a) (to_ascii_lowercase v).
Proof.
  rewrite <- not_true_iff_false, existsb_exists. split.
  - intros Hn a Ha Hc. apply Hn. exists (to_ascii_lowercase a). split.
    + by apply list_elem_of_In, list_elem_of_fmap_2.
    + by apply paths_conflict_iff, nested_sym.
  - intros Hn (x & Hx%list_elem_of_In & Hc). apply list_elem_of_fmap_1 in Hx as (a & -> & Ha).
    apply (Hn a Ha). by apply nested_sym, paths_conflict_iff.
Qed.

Lemma check_paths_ok pre values paths :
  portable_set pre →
  check_paths (list_to_set pre) (to_ascii_lowercase <$> pre) values = Ok paths ↔
  portable_set (pre ++ values) ∧ paths = list_to_set (pre ++ values).
Proof.
  revert pre. induction values as [|v values IH]; intros pre Hpre; simpl.
  { rewrite app_nil_r. naive_solver. }
  assert (size (list_to_set pre : gset string) = length pre) as Hsize
    by (by apply size_list_to_set, portable_set_NoDup).
  assert (portable_set (pre ++ [v]) → check_paths ({[v]} ∪ list_to_set pre)
            ((to_ascii_lowercase <$> pre) ++ [to_ascii_lowercase v]) values = Ok paths ↔
          portable_set (pre ++ v :: values) ∧ paths = list_to_set (pre ++ v :: values)) as Hstep.
  { intros Hp. rewrite (cons_middle v pre values), app_assoc. rewrite <- (IH _ Hp).
    rewrite fmap_app. simpl.
    replace ({[v]} ∪ list_to_set pre : gset string) with (list_to_set (pre ++ [v]) : gset string)
      by set_solver. done. }
  rewrite Hsize. unfold reject_if.
  assert (portable_set (pre ++ v :: values) → portable_set (pre ++ [v])) as Hpref.
  { rewrite (cons_middle v pre values), app_assoc. apply portable_set_prefix. }
  split.
  - intros Hc. res_inv. rewrite conflicts_with in *.
    match goal with H : check_paths _ _ _ = Ok _ |- _ => rename H into Hrest end.
    assert (portable_set (pre ++ [v])) as Hp.
    { apply portable_set_app. destruct Hpre as (? & ? & ?). unfold portable_set, vec_len in *.
      split_and!; auto. lia. }
    by apply Hstep in Hrest.
  - intros [Hp ->]. pose proof (Hpref Hp) as Hp1.
    destruct (proj1 (portable_set_app _ _) Hp1) as (_ & Hlt & Hsafe & Hn).
    rewrite Hsafe, (proj2 (conflicts_with v pre) Hn).
    replace (Z.of_nat (length pre) =? MAX_TYPED_SOURCE_FILES)%Z with false by (unfold vec_len in *; lia).
    simpl. by apply Hstep.
Qed.

Lemma checked_paths_ok values paths :
  checked_paths values = Ok paths ↔ portable_set values ∧ paths = list_to_set values.
Proof.
  apply (check_paths_ok []). split_and!; [done | set_solver | done].
Qed.

(** ** Lemmas: the two dialects *)
Lemma safe_path_components path :
  safe_path path = true →
  repository_relative_path_is_valid path = true ∧
  ∀ c, c ∈ split_on "/"%char path → safe_component c = true.
Proof.
  unfold safe_path. case_match eqn:E; [done |]. res_inv. rewrite forallb_forall. intros Hc.
  split; [done |]. intros c Hin. apply Hc. by apply list_elem_of_In.
Qed.

Lemma safe_component_visible c :
  safe_component c = true →
  starts_with "." c = false ∧ secret_component (to_ascii_lowercase c) = false.
Proof. unfold safe_component. case_match eqn:E; [done |]. intros H. by res_inv. Qed.

Lemma hidden_name name c :
  starts_with "." name = true → starts_with "." c = false → seqb c name = false.
Proof. intros H1 H2. apply seqb_neq. intros ->. congruence. Qed.

Lemma hidden_names c names :
  forallb (starts_with ".") names = true → starts_with "." c = false → mem c names = false.
Proof.
  intros Hn Hc. apply not_true_iff_false. unfold mem. rewrite existsb_exists.
  intros (name & Hin & He). rewrite forallb_forall in Hn.
  rewrite (hidden_name name c (Hn name Hin) Hc) in He. done.
Qed.

Lemma sensitive_pair_visible components :
  Forall (λ c, starts_with "." c = false) components → sensitive_pair components = false.
Proof.
  induction 1 as [|c cs Hc Hcs IH]; [done |]. simpl. destruct cs as [|c' cs]; [done |].
  rewrite (hidden_name ".config" c) by done. done.
Qed.

Lemma secret_files_covered name :
  mem name sensitive_files = true → starts_with "." name || secret_component name = true.
Proof.
  assert (forallb (λ n, starts_with "." n || secret_component n) sensitive_files = true) as Hf
    by (vm_compute; reflexivity).
  unfold mem. rewrite existsb_exists. intros (n & Hn & <-%seqb_eq).
  rewrite forallb_forall in Hf. by apply Hf.
Qed.

Lemma secret_suffix suffix name :
  suffix ∈ [".pem"; ".key"; ".p12"; ".pfx"] → secret_component name = false →
  ends_with suffix name = false.
Proof.
  intros Hs Hn. apply not_true_iff_false. intros He. unfold secret_component in Hn. res_inv.
  match goal with H : existsb (λ suffix, ends_with suffix name) _ = false |- _ =>
    apply not_true_iff_false in H; apply H, existsb_exists end.
  exists suffix. split; [| done]. apply list_elem_of_In. set_solver.
Qed.

Lemma safe_path_not_sensitive path : safe_path path = true → sensitive_path path = false.
Proof.
  intros [Hv Hc]%safe_path_components. unfold sensitive_path.
  rewrite replace_absent by (unfold repository_relative_path_is_valid in Hv; by res_inv).
  rewrite split_on_lowercase.
  assert (Forall (λ c, starts_with "." c = false ∧ secret_component c = false)
            (to_ascii_lowercase <$> split_on "/"%char path)) as Hall.
  { apply Forall_forall. intros x (c & -> & Hin)%list_elem_of_fmap_1.
    rewrite starts_with_dot_lowercase. by apply safe_component_visible, Hc. }
  destruct (last (to_ascii_lowercase <$> split_on "/"%char path)) as [name|] eqn:El.
  2:{ apply last_None, fmap_nil_inv in El. by apply split_on_nonempty in El. }
  cbn [default from_option id]. apply last_Some in El as [front El]. rewrite El in Hall |- *.
  assert (starts_with "." name = false ∧ secret_component name = false) as [Hdot Hsec].
  { rewrite Forall_forall in Hall. apply Hall. set_solver. }
  rewrite sensitive_pair_visible; [| eapply Forall_impl; [exact Hall | naive_solver]].
  rewrite (starts_with_app "." "env") by done.
  rewrite !(secret_suffix _ name) by (done || set_solver).
  replace (mem name sensitive_files) with false.
  2:{ symmetry. apply not_true_iff_false. intros Hm%secret_files_covered.
      by rewrite Hdot, Hsec in Hm. }
  rewrite !orb_false_r. apply not_true_iff_false. rewrite existsb_exists.
  intros (c & Hin%list_elem_of_In & Hm). rewrite Forall_forall in Hall.
  rewrite (hidden_names c) in Hm; [done | done | by apply Hall].
Qed.

Lemma text_media_type_inferred path media :
  safe_path path = true → text_media_type path = Some media → infer_media_type path = media.
Proof.
  intros [_ Hc]%safe_path_components. unfold text_media_type, infer_media_type, path_extension.
  destruct (last (split_on "/"%char path)) as [name|] eqn:El; simpl; [| done].
  apply last_Some in El as [front El].
  assert (starts_with "." name = false) as Hdot.
  { apply safe_component_visible, Hc. rewrite El. set_solver. }
  destruct (reverse (split_on "."%char name)) as [|ext [|before rest]] eqn:Er; try done.
  replace (vec_is_empty rest && is_empty before) with false.
  - simpl. repeat case_match; congruence.
  - symmetry. apply not_true_iff_false. intros [Hr Hb]%andb_true_iff.
    destruct rest; [| done]. apply is_empty_spec in Hb as ->.
    apply (f_equal reverse) in Er. rewrite reverse_involutive in Er.
    assert (name = "." +:+ ext) as ->; [| done].
    rewrite <- (split_on_join "."%char name), Er. done.
Qed.

(** ** Lemmas: decoding *)
Lemma file_leb_total a b : file_leb a b = true ∨ file_leb b a = true.
Proof. apply str_leb_total. Qed.
Lemma file_leb_trans a b c : file_leb a b = true → file_leb b c = true → file_leb a c = true.
Proof. apply str_leb_trans. Qed.

Definition sum (l : list Z) : Z := foldr Z.add 0%Z l.

Lemma sum_cons x l : sum (x :: l) = (x + sum l)%Z.
Proof. done. Qed.

Lemma sum_perm l l' : l ≡ₚ l' → sum l = sum l'.
Proof. induction 1; simpl in *; lia. Qed.

Definition change_cost (c : archived_change) : Z := file_cost (ac_bytes c) (ac_path c).
Definition total_cost (files : list dependency_source_file) : Z :=
  sum ((λ f, file_cost (str_len (df_content f)) (df_path f)) <$> files).

(** The metadata of one change is acceptable. *)
Record metadata_ok (c : archived_change) : Prop := {
  meta_status : mem (ac_status c) ["A"; "M"; "T"] = true;
  meta_mode : regular_mode (ac_mode c) = true;
  meta_media : text_media_type (ac_path c) = Some (ac_media_type c);
  meta_digest : valid_digest (ac_sha256 c) = true;
  meta_bytes : (ac_bytes c ≤ MAX_TYPED_SOURCE_FILE_BYTES)%Z;
  meta_encoded : str_len (ac_content_base64 c) = encoded_len (ac_bytes c);
}.

Lemma encoded_len_mono a b : (a ≤ b)%Z → (encoded_len a ≤ encoded_len b)%Z.
Proof. unfold encoded_len. intros H. assert ((a + 2) / 3 ≤ (b + 2) / 3)%Z by (apply Z.div_le_mono; lia). lia. Qed.

Lemma check_changes_ok p changes :
  (∀ c, c ∈ changes → 0 ≤ ac_bytes c)%Z → (p ≤ MAX_TYPED_SOURCE_PROMPT_BYTES)%Z →
  check_changes p changes = Ok tt ↔
  (∀ c, c ∈ changes → metadata_ok c) ∧ (p + sum (change_cost <$> changes) ≤ MAX_TYPED_SOURCE_PROMPT_BYTES)%Z.
Proof.
  revert p. induction changes as [|c changes IH]; intros p Hb Hp.
  { simpl. rewrite Z.add_0_r. split; [set_solver | done]. }
  assert (0 ≤ sum (change_cost <$> changes))%Z as Hpos.
  { assert (∀ c, c ∈ changes → 0 ≤ ac_bytes c)%Z as Hb' by (intros; apply Hb; set_solver).
    clear -Hb'. induction changes as [|c cs IHc]; [done |]. rewrite fmap_cons, sum_cons.
    specialize (IHc ltac:(set_solver)). specialize (Hb' c ltac:(set_solver)).
    unfold change_cost at 1, file_cost. pose proof (str_len_nonneg (ac_path c)).
    unfold FILE_FRAMING_BYTES. lia. }
  rewrite fmap_cons, sum_cons. cbn [check_changes].
  fold (change_cost c). unfold reject_if. split.
  - intros H. res_inv. rewrite bool_decide_eq_true in *. rewrite IH in * by (set_solver || lia).
    destruct H as [Hm Hs]. split; [| lia]. intros c' [->|Hc']%elem_of_cons; [| auto].
    constructor; try done; lia.
  - intros [Hm Hs]. destruct (Hm c ltac:(set_solver)) as [-> -> -> -> Hle ->].
    rewrite bool_decide_eq_true_2 by done. cbn [negb orb bail_if mbind result_bind].
    replace (MAX_TYPED_SOURCE_FILE_BYTES <? ac_bytes c)%Z with false by lia.
    pose proof (encoded_len_mono _ _ Hle).
    replace (encoded_len MAX_TYPED_SOURCE_FILE_BYTES <? encoded_len (ac_bytes c))%Z with false by lia.
    rewrite Z.eqb_refl. cbn [negb orb bail_if mbind result_bind].
    replace (MAX_TYPED_SOURCE_PROMPT_BYTES <? p + change_cost c)%Z with false by lia.
    cbn [bail_if mbind result_bind]. apply IH; [set_solver | lia |].
    split; [set_solver | lia].
Qed.

Section decode_lemmas.
Context `{Envelopes}.

(** A file that was decoded from its change. *)
Record decoded_from (c : archived_change) (f : dependency_source_file) : Prop := {
  from_path : df_path f = ac_path c;
  from_hash : df_sha256 f = ac_sha256 c;
  from_digest : sha256_hex (df_content f) = ac_sha256 c;
  from_size : str_len (df_content f) = ac_bytes c;
  from_limit : (str_len (df_content f) ≤ MAX_TYPED_SOURCE_FILE_BYTES)%Z;
  from_utf8 : utf8 (df_content f) = true;
  from_text : any_char is_forbidden_control (df_content f) = false;
}.

Lemma decode_change_ok c f : decode_change c = Ok f → decoded_from c f.
Proof.
  unfold decode_change, decode_base64, reject_if. intros Hd. res_inv. rewrite seqb_eq in *.
  constructor; simpl; try done; lia.
Qed.

Lemma collect_decoded changes files :
  collect decode_change changes = Ok files → Forall2 decoded_from changes files.
Proof.
  rewrite collect_ok. intros Hf. eapply Forall2_impl; [exact Hf | apply decode_change_ok].
Qed.

Lemma decoded_costs changes files :
  Forall2 decoded_from changes files →
  sum (change_cost <$> changes) = total_cost files ∧ ac_path <$> changes = df_path <$> files ∧
  ∀ c, c ∈ changes → (0 ≤ ac_bytes c)%Z.
Proof.
  induction 1 as [|c f changes files [Hp _ _ Hs] _ (IH1 & IH2 & IH3)]; [set_solver |].
  split_and!.
  - unfold total_cost in *. rewrite !fmap_cons, !sum_cons, IH1. unfold change_cost at 1. by rewrite Hp, Hs.
  - rewrite !fmap_cons. congruence.
  - intros c' [->|Hc]%elem_of_cons; [| auto]. rewrite <- Hs. apply str_len_nonneg.
Qed.

Lemma decoded_elem changes files f :
  Forall2 decoded_from changes files → f ∈ files → ∃ c, c ∈ changes ∧ decoded_from c f.
Proof.
  intros Hf [i Hi]%list_elem_of_lookup. eapply Forall2_lookup_r in Hi as (c & Hc & ?); [| done].
  exists c. split; [| done]. by eapply list_elem_of_lookup_2.
Qed.
End decode_lemmas.

(** ** Lemmas: from an export back to its files *)

(** An export the decoder accepts: [content] and [mode] are what the index holds. *)
Record decodable `{Envelopes} (wt : worktree) (content mode : string → string)
    (changes : list change) : Prop := {
  dec_some : changes ≠ [];
  dec_paths : portable_set (changes.*2);
  dec_show : ∀ s p, (s, p) ∈ changes → wt_show wt p = Ok (content p);
  dec_index : ∀ s p, (s, p) ∈ changes → wt_index_mode wt p = Ok (mode p);
  dec_status : ∀ s p, (s, p) ∈ changes → mem s ["A"; "M"; "T"] = true;
  dec_mode : ∀ s p, (s, p) ∈ changes → regular_mode (mode p) = true;
  dec_media : ∀ s p, (s, p) ∈ changes → is_Some (text_media_type p);
  dec_utf8 : ∀ s p, (s, p) ∈ changes → utf8 (content p) = true;
  dec_text : ∀ s p, (s, p) ∈ changes → any_char is_forbidden_control (content p) = false;
  dec_json : ∀ s p, (s, p) ∈ changes → text_media_type p = Some "application/json" →
    json_parses (content p) = true;
  dec_size : ∀ s p, (s, p) ∈ changes → (str_len (content p) ≤ MAX_TYPED_SOURCE_FILE_BYTES)%Z;
  dec_budget : (sum ((λ c, file_cost (str_len (content c.2)) c.2) <$> changes)
                ≤ MAX_TYPED_SOURCE_PROMPT_BYTES)%Z;
}.

Lemma collect_fmap {A B} (f : A → result B) (g : A → B) xs :
  (∀ x, x ∈ xs → f x = Ok (g x)) → collect f xs = Ok (g <$> xs).
Proof.
  intros Hf. apply collect_ok. induction xs as [|x xs IH]; [constructor |].
  constructor; [apply Hf; set_solver | apply IH; set_solver].
Qed.

Lemma not_deleted s : mem s ["A"; "M"; "T"] = true → starts_with "D" s = false.
Proof. rewrite mem_spec. set_unfold. by intros [-> |[-> |[-> |[]]]]. Qed.

Section round_trip.
Context `{EnvelopeLaws} (wt : worktree) (content mode : string → string) (changes : list change)
  (Hdec : decodable wt content mode changes).

Definition exported (c : change) : exported_change :=
  ExportedChange c.2 c.1 (Some (mode c.2)) (Some (sha256_hex (content c.2)))
    (Some (str_len (content c.2))) (Some (infer_media_type c.2)) (Some (base64_encode (content c.2))).
Definition archived (c : change) : archived_change :=
  ArchivedChange c.2 c.1 (mode c.2) (sha256_hex (content c.2)) (str_len (content c.2))
    (infer_media_type c.2) (base64_encode (content c.2)).
Definition handed_on (c : change) : dependency_source_file :=
  DependencySourceFile c.2 (sha256_hex (content c.2)) (content c.2).

Lemma archive_exported : archive_changes wt changes true = Ok (exported <$> changes).
Proof using Hdec.
  apply collect_fmap. intros [s p] Hin. unfold archive_change.
  rewrite (not_deleted s) by (by eapply dec_status).
  rewrite (dec_show _ _ _ _ Hdec s p Hin), (dec_index _ _ _ _ Hdec s p Hin). done.
Qed.

Lemma read_exported : mapM read_change (exported <$> changes) = Some (archived <$> changes).
Proof. by apply mapM_Some, Forall2_fmap, Forall_Forall2_diag, Forall_true. Qed.

Lemma archived_metadata : ∀ c, c ∈ archived <$> changes → metadata_ok c.
Proof using Hdec H1.
  intros c ([s p] & -> & Hin)%list_elem_of_fmap_1. constructor; simpl.
  - by eapply dec_status.
  - by eapply dec_mode.
  - destruct (dec_media _ _ _ _ Hdec s p Hin) as [media Hm]. rewrite Hm. f_equal. symmetry.
    apply text_media_type_inferred; [| done]. apply (dec_paths _ _ _ _ Hdec).
    apply (list_elem_of_fmap_2 snd _ _ Hin).
  - apply sha256_hex_valid.
  - by eapply dec_size.
  - apply base64_encode_len.
Qed.

Lemma archived_checked : check_changes 0 (archived <$> changes) = Ok tt.
Proof using Hdec H1.
  apply check_changes_ok; [| done | split; [apply archived_metadata |]].
  - intros c ([s p] & -> & Hin)%list_elem_of_fmap_1. apply str_len_nonneg.
  - rewrite <- list_fmap_compose. apply (dec_budget _ _ _ _ Hdec).
Qed.

Lemma encoded_decodes b limit :
  (str_len b ≤ limit)%Z → decode_base64 (base64_encode b) limit = Ok b.
Proof using H1.
  intros Hb. unfold decode_base64, reject_if. rewrite base64_encode_len, base64_round_trip.
  pose proof (encoded_len_mono _ _ Hb).
  replace (encoded_len limit <? encoded_len (str_len b))%Z with false by lia.
  simpl. by replace (limit <? str_len b)%Z with false by lia.
Qed.

Lemma archived_decodes : collect decode_change (archived <$> changes) = Ok (handed_on <$> changes).
Proof using Hdec H1.
  rewrite (collect_fmap _ (λ c, DependencySourceFile (ac_path c) (ac_sha256 c) (content (ac_path c)))).
  { by rewrite <- list_fmap_compose. }
  intros c Hc. pose proof (archived_metadata c Hc) as Hm.
  apply list_elem_of_fmap_1 in Hc as ([s p] & -> & Hin). unfold decode_change, archived in *.
  destruct Hm as [_ _ Hmedia _ _ _]. simpl in *.
  rewrite encoded_decodes by (by eapply dec_size). simpl. unfold reject_if.
  rewrite Z.eqb_refl, seqb_refl, (dec_utf8 _ _ _ _ Hdec s p Hin), (dec_text _ _ _ _ Hdec s p Hin). simpl.
  destruct (seqb (infer_media_type p) "application/json") eqn:Ej; [| done].
  apply seqb_eq in Ej. rewrite Ej in Hmedia. by rewrite (dec_json _ _ _ _ Hdec s p Hin).
Qed.

Lemma declared_valid : validate_typed_source_paths (changes.*2) = Ok tt.
Proof using Hdec.
  unfold validate_typed_source_paths, reject_if.
  rewrite (proj2 (checked_paths_ok _ _) (conj (dec_paths _ _ _ _ Hdec) eq_refl)).
  replace (vec_is_empty (changes.*2)) with false
    by (pose proof (dec_some _ _ _ _ Hdec); by destruct changes).
  simpl. apply bail_if_ok, not_true_iff_false. rewrite existsb_exists.
  intros (p & Hp%list_elem_of_In & Hn). apply elem_of_elements, elem_of_list_to_set in Hp.
  apply list_elem_of_fmap_1 in Hp as ([s p'] & -> & Hin).
  destruct (dec_media _ _ _ _ Hdec s p' Hin) as [m Hm]. simpl in Hn. by rewrite Hm in Hn.
Qed.
End round_trip.

Section exported_envelope.
Context `{EnvelopeLaws} (base branch ver patch : string) (head : option string)
  (cs : list archived_change).
Definition typed_envelope : artifact_set :=
  ArtifactSet 1 "typed_artifact_set" base head branch ver (sha256_hex patch) (base64_encode patch) cs.

Lemma check_envelope_exported declared changed source :
  match head with Some commit => valid_commit commit | None => true end = true →
  is_empty branch = false → (str_len branch ≤ 512)%Z → trim branch = branch →
  any_char is_control branch = false →
  check_envelope typed_envelope (ExpectedTypedSource base ver declared changed source) = Ok tt.
Proof using H1.
  intros Hhead Hbranch Hlen Htrim Hctl. unfold check_envelope, reject_if. simpl.
  rewrite !seqb_refl, Hbranch, Htrim, seqb_refl, Hctl, sha256_hex_valid. simpl.
  replace (512 <? str_len branch)%Z with false by lia.
  destruct head; [by rewrite Hhead | done].
Qed.

Lemma check_source_exported input :
  check_source_record input typed_envelope
    (SourceDeliverable DeliverableForm.TypedArtifactSet (sha256_hex input) TYPED_SOURCE_MEDIA_TYPE
       (str_len input) ver base head branch) = Ok tt.
Proof.
  unfold check_source_record, reject_if. cbn [sd_form sd_base_commit sd_verification_sha256 sd_branch
    sd_head_commit sd_media_type sd_bytes sd_sha256 as_base_commit as_verification_sha256 as_branch
    as_head_commit typed_envelope].
  by rewrite !bool_decide_eq_true_2, !seqb_refl, Z.eqb_refl by done.
Qed.
End exported_envelope.

(** ** Properties *)

(** The portable dialect is exact: a list of paths is accepted precisely when
    it has at most eight entries, each safe, and no two of them are the same path
    or a file and a directory above it, however the file system folds case; the
    answer is the set of the paths. *)
Theorem checked_paths_exact values paths :
  checked_paths values = Ok paths ↔
  (vec_len values ≤ 8)%Z ∧ (∀ v, v ∈ values → safe_path v = true) ∧
  pairwise (λ a b, ¬ nested (to_ascii_lowercase a) (to_ascii_lowercase b)) values ∧
  paths = list_to_set values.
Proof. rewrite checked_paths_ok. unfold portable_set, MAX_TYPED_SOURCE_FILES. naive_solver. Qed.

(** The server's dialect is inside the runner's: a path the decoder considers
    safe is never one the exporter refuses as secret-like, and where the decoder
    expects a text media type the exporter writes that very type. *)
Theorem safe_paths_are_exportable path :
  safe_path path = true →
  repository_relative_path_is_valid path = true ∧ sensitive_path path = false ∧
  ∀ media, text_media_type path = Some media → infer_media_type path = media.
Proof.
  intros Hs. split_and!.
  - by apply safe_path_components.
  - by apply safe_path_not_sensitive.
  - intros media. by apply text_media_type_inferred.
Qed.

Lemma safe_paths_are_exportable_witness :
  safe_path "handoffs/visual-direction.md" = true ∧
  infer_media_type "handoffs/visual-direction.md" = "text/plain".
Proof.
  split; [vm_compute; reflexivity |].
  apply (safe_paths_are_exportable "handoffs/visual-direction.md"); vm_compute; reflexivity.
Defined.

(** Whatever bytes a runner sends, what the decoder hands on is exactly the
    declared set of files, in path order and without repetition; every file has a
    safe path of a text type, the hash it is recorded with, at most 12 KiB of
    UTF-8 without control characters other than tab, newline and carriage return,
    and together they stay inside the 16 KiB prompt budget. *)
Theorem decode_typed_source_sound `{Envelopes} input expected files :
  decode_typed_source input expected = Ok files →
  StronglySorted (λ a b, str_leb (df_path a) (df_path b) = true) files ∧
  NoDup (df_path <$> files) ∧
  (list_to_set (df_path <$> files) : gset string) = list_to_set (et_declared_paths expected) ∧
  (∀ f, f ∈ files →
     safe_path (df_path f) = true ∧ is_Some (text_media_type (df_path f)) ∧
     sha256_hex (df_content f) = df_sha256 f ∧ utf8 (df_content f) = true ∧
     any_char is_forbidden_control (df_content f) = false ∧ (str_len (df_content f) ≤ 12 * 1024)%Z) ∧
  (total_cost files ≤ 16 * 1024)%Z ∧ (str_len input ≤ 128 * 1024)%Z.
Proof.
  unfold decode_typed_source, reject_if. intros Hd. res_inv.
  rewrite !bool_decide_eq_true in *.
  match goal with H : collect decode_change _ = Ok _ |- _ => apply collect_decoded in H as Hall end.
  destruct (decoded_costs _ _ Hall) as (Hcost & Hpaths & Hpos).
  match goal with H : checked_paths (ac_path <$> _) = Ok _ |- _ => apply checked_paths_ok in H as [Hset Hl] end.
  match goal with H : check_changes 0 _ = Ok _ |- _ =>
    apply check_changes_ok in H as [Hmeta Hsum]; [| exact Hpos | done] end.
  rewrite Hpaths in Hset, Hl.
  match goal with |- context [sort_by file_leb ?l] => pose proof (sort_by_perm file_leb l) as Hperm end.
  split_and!.
  - apply (sort_by_sorted file_leb); [apply file_leb_total | apply file_leb_trans].
  - rewrite Hperm. by apply portable_set_NoDup.
  - rewrite Hperm. congruence.
  - intros f Hf. rewrite Hperm in Hf. destruct (decoded_elem _ _ _ Hall Hf) as (c & Hc & Hd).
    destruct (Hmeta c Hc) as [_ _ Hm]. destruct Hd as [E1 E2 E3 _ Hlim Hu Ht].
    split_and!; try done; [| rewrite E1; eauto | congruence].
    destruct Hset as (_ & Hsafe & _). apply Hsafe. set_solver.
  - unfold total_cost. rewrite (sum_perm _ _ (fmap_Permutation _ _ _ Hperm)). fold (total_cost v2).
    rewrite <- Hcost. unfold MAX_TYPED_SOURCE_PROMPT_BYTES in Hsum. lia.
  - unfold MAX_TYPED_SOURCE_ENVELOPE_BYTES in *. lia.
Qed.

(** C38: an export reads back as what was exported, across the two programs: when
    the index holds a decodable set of files, the runner writes a document, and
    whatever bytes the JSON reader reads as that document, the server, expecting
    this base, verification, file set and stored record, decodes them to exactly
    the indexed contents, in path order. *)
Theorem typed_export_round_trip `{EnvelopeLaws} wt content mode changes base branch ver head :
  decodable wt content mode changes →
  valid_commit base = true → valid_digest ver = true →
  match head with Some commit => valid_commit commit | None => true end = true →
  is_empty branch = false → (str_len branch ≤ 512)%Z → trim branch = branch →
  any_char is_control branch = false → (str_len (wt_patch wt) ≤ MAX_PATCH_BYTES)%Z →
  ∃ doc, export_document wt DeliverableForm.TypedArtifactSet changes base branch ver head None = Ok doc ∧
  ∀ input, parse_envelope input = read_document doc → (str_len input ≤ MAX_TYPED_SOURCE_ENVELOPE_BYTES)%Z →
    decode_typed_source input
      (ExpectedTypedSource base ver (changes.*2) (Some (changes.*2))
         (Some (SourceDeliverable DeliverableForm.TypedArtifactSet (sha256_hex input)
                  TYPED_SOURCE_MEDIA_TYPE (str_len input) ver base head branch)))
    = Ok (sort_by file_leb (handed_on content <$> changes)).
Proof.
  intros Hdec Hbase Hver Hhead Hbranch Hlen Htrim Hctl Hpatch.
  eexists. split; [unfold export_document; simpl; by rewrite (archive_exported wt content mode) |].
  intros input Hparse Hin. unfold read_document in Hparse. simpl in Hparse.
  rewrite read_exported in Hparse. simpl in Hparse.
  assert (ac_path <$> (archived content mode <$> changes) = changes.*2) as Hp
    by (by rewrite <- list_fmap_compose).
  pose proof (proj2 (checked_paths_ok _ _) (conj (dec_paths _ _ _ _ Hdec) eq_refl)) as Hck.
  assert (vec_len (archived content mode <$> changes) ≤ MAX_TYPED_SOURCE_FILES)%Z as Hcount.
  { destruct (dec_paths _ _ _ _ Hdec) as [Hl _]. etransitivity; [| exact Hl].
    unfold vec_len. by rewrite !length_fmap. }
  unfold decode_typed_source, bounded_envelope, reject_if. rewrite Hparse.
  cbn [et_base_commit et_verification_sha256 et_declared_paths et_changed_paths et_source mbind option_bind].
  replace (MAX_TYPED_SOURCE_ENVELOPE_BYTES <? str_len input)%Z with false by lia.
  cbn [as_changes]. replace (MAX_TYPED_SOURCE_FILES <? _)%Z with false by lia.
  rewrite Hbase, Hver, (declared_valid wt content mode changes Hdec), Hck.
  cbn [negb orb bail_if mbind result_bind with_context].
  rewrite bool_decide_eq_true_2 by done. cbn [negb bail_if mbind result_bind].
  fold (typed_envelope base branch ver (wt_patch wt) head (archived content mode <$> changes)).
  rewrite check_envelope_exported by done. cbn [mbind result_bind].
  rewrite check_source_exported.
  cbn [typed_envelope mbind result_bind as_changes as_patch_base64 as_patch_sha256].
  rewrite Hp, Hck. cbn [mbind result_bind]. rewrite bool_decide_eq_true_2 by done.
  cbn [negb bail_if mbind result_bind]. rewrite (archived_checked wt) by done.
  cbn [mbind result_bind]. rewrite encoded_decodes by done. cbn [mbind result_bind].
  rewrite seqb_refl. cbn [negb bail_if mbind result_bind]. by rewrite (archived_decodes wt).
Qed.

(** ** A concrete codec and export

    The codec stands in for the libraries: its text is the bytes behind a digit
    that says how many bytes the last group lacks, filled up to the length of a
    base64 text. *)
Section sample_codec.
#[local] Open Scope nat_scope.

Fixpoint fill (n : nat) : string := match n with O => "" | S n => String "="%char (fill n) end.
Definition sample_encode (b : string) : string :=
  if is_empty b then ""
  else
    let n := String.length b in let k := (n + 2) / 3 in
    String (ascii_of_nat (48 + (3 * k - n))) (b +:+ fill (k + (3 * k - n) - 1)).
Definition sample_decode (s : string) : option string :=
  match s with
  | "" => Some ""
  | String c rest =>
      Some (String.substring 0 (3 * (String.length s / 4) - (nat_of_ascii c - 48)) rest)
  end.

Lemma fill_length n : String.length (fill n) = n.
Proof. induction n; simpl; congruence. Qed.

Lemma substring_app b r : String.substring 0 (String.length b) (b +:+ r) = b.
Proof. induction b as [|c b IH]; simpl; [by destruct r |]. by f_equal. Qed.

Lemma groups n : 0 < n → n ≤ 3 * ((n + 2) / 3) ≤ n + 2 ∧ 0 < (n + 2) / 3.
Proof.
  intros Hn. pose proof (Nat.div_mod (n + 2) 3 ltac:(lia)).
  pose proof (Nat.mod_upper_bound (n + 2) 3 ltac:(lia)). lia.
Qed.

Lemma sample_encode_len b :
  is_empty b = false →
  String.length (sample_encode b) = 4 * ((String.length b + 2) / 3).
Proof.
  intros Hb. unfold sample_encode. rewrite Hb. cbn [String.length].
  rewrite str_length_app, fill_length.
  assert (0 < String.length b) by (destruct b; simpl in *; [done | lia]).
  pose proof (groups (String.length b) ltac:(lia)). lia.
Qed.
End sample_codec.

Definition sample_digest : string := "0000000000000000000000000000000000000000000000000000000000000000".
#[local] Instance sample_digests : Digests :=
  {| sha256_hex := λ _, sample_digest; base64_encode := sample_encode |}.

Definition sample_content (path : string) : string := path +:+ " content".
Definition sample_changes : list change := [("A", "src/b.rs"); ("M", "handoffs/a.md")].
Definition sample_commit_id : string := "00000000000000000000000000000000000000aa".
Definition sample_envelope : artifact_set :=
  typed_envelope sample_commit_id "work" sample_digest "diff" None
    (archived sample_content (λ _, "100644") <$> sample_changes).
#[local] Instance sample_envelopes : Envelopes :=
  {| parse_envelope := λ _, Some sample_envelope; json_parses := λ _, true;
     base64_decode := sample_decode |}.

#[local] Instance sample_envelope_laws : EnvelopeLaws.
Proof.
  split.
  - intros b. vm_compute. reflexivity.
  - intros b. destruct (is_empty b) eqn:Hb; [by apply is_empty_spec in Hb as -> |].
    unfold str_len. cbn [base64_encode sample_digests]. rewrite sample_encode_len by done.
    unfold encoded_len. rewrite Nat2Z.inj_mul, Nat2Z.inj_div. lia.
  - intros b. cbn [base64_encode sample_digests base64_decode sample_envelopes].
    destruct (is_empty b) eqn:Hb; [by apply is_empty_spec in Hb as -> |].
    assert (0 < String.length b)%nat as Hpos by (destruct b; simpl in *; [done | lia]).
    pose proof (groups _ Hpos) as [[Hle Hge] Hk].
    pose proof (sample_encode_len b Hb) as Hlen. unfold sample_encode in *. rewrite Hb in *.
    unfold sample_decode. rewrite Hlen, nat_ascii_embedding by lia.
    rewrite (Nat.mul_comm 4), Nat.div_mul by lia. f_equal.
    match goal with |- String.substring 0 ?n _ = _ => replace n with (String.length b) by lia end.
    apply substring_app.
Qed.

Lemma sample_paths_portable : portable_set (sample_changes.*2).
Proof. eapply checked_paths_ok. vm_compute. reflexivity. Qed.

Lemma sample_decodable : decodable sample_worktree sample_content (λ _, "100644") sample_changes.
Proof.
  split; try done; [apply sample_paths_portable | ..].
  all: intros s p [[= -> ->]|[[= -> ->]|Hn%elem_of_nil]%elem_of_cons]%elem_of_cons; [| | done].
  all: try (eexists; vm_compute; reflexivity).
  all: vm_compute; congruence.
Qed.

Lemma decode_typed_source_sound_witness :
  ∃ files, decode_typed_source "{}"
    (ExpectedTypedSource sample_commit_id sample_digest (sample_changes.*2) None None) = Ok files ∧
  df_path <$> files = ["handoffs/a.md"; "src/b.rs"] ∧ (total_cost files ≤ 16 * 1024)%Z.
Proof.
  eexists. split; [vm_compute; reflexivity |]. split; [vm_compute; reflexivity |].
  eapply (decode_typed_source_sound "{}"
    (ExpectedTypedSource sample_commit_id sample_digest (sample_changes.*2) None None)).
  vm_compute. reflexivity.
Defined.

Lemma typed_export_round_trip_witness :
  ∃ doc, export_document sample_worktree DeliverableForm.TypedArtifactSet sample_changes
    sample_commit_id "work" sample_digest None None = Ok doc ∧
  decode_typed_source "{}"
      (ExpectedTypedSource sample_commit_id sample_digest (sample_changes.*2) (Some (sample_changes.*2))
         (Some (SourceDeliverable DeliverableForm.TypedArtifactSet sample_digest
                  TYPED_SOURCE_MEDIA_TYPE 2 sample_digest sample_commit_id None "work")))
    = Ok (sort_by file_leb (handed_on sample_content <$> sample_changes)).
Proof.
  destruct (typed_export_round_trip sample_worktree sample_content (λ _, "100644") sample_changes
    sample_commit_id "work" sample_digest None sample_decodable) as (doc & Hdoc & Hread);
    try (vm_compute; congruence).
  exists doc. split; [exact Hdoc |]. apply (Hread "{}"); [| vm_compute; congruence].
  assert (Ok doc = Ok _) as [= ->] by (rewrite <- Hdoc; vm_compute; reflexivity).
  vm_compute. reflexivity.
Defined.
