(* ===== verification/Strategies.v ===== *)
(** * Manager strategies (crates/crony-server/src/planning.rs)

    A strategy turns a mission request and the agents of a corp into a task
    graph: one worker ([single]), two specialists and a synthesis
    ([parallel-specialists]), three specialists and an integration with exact
    handoff files ([studio-swarm]), and four harness strategies that exercise the
    verifiers.  [StrategyRegistry::plan] looks a strategy up, applies the
    requested attempt limit and passes the plan through [validate_plan]. *)
From S2P Require Import Prelude Text Domain Planning Deliverable DependencySource.
From Stdlib Require Import Ascii.

Definition DEFAULT_SINGLE_TASK_BUDGET_TOKENS : Z := 1000000.

Definition uses_deterministic_harness (strategy : string) : bool :=
  mem strategy ["verification-matrix"; "verification-failure"; "human-approval"; "independent-review"].

Record planning_request := PlanningRequest {
  rq_mission_title : string;
  rq_preferred_adapter : option string;
  rq_preferred_model : option string;
  rq_reasoning_effort : option string;
  rq_secret_refs : list task_secret_reference;
  rq_budget_tokens : option Z;
  rq_budget_cost_microusd : option Z;
  rq_max_task_attempts : option Z;
  rq_deliverable : option deliverable_spec;
  rq_handoff_root : option string;
}.

(** [i64] arithmetic of an optimised build: it wraps. *)
Definition wrap_i64 (z : Z) : Z := ((z - i64_min) mod 2 ^ 64 + i64_min)%Z.

(** ** Candidates *)

(** Compare by a key, then by the rest. *)
Definition lex {A K} `{EqDecision K} (key : A → K) (leb : K → K → bool) (rest : A → A → bool)
    (a b : A) : bool :=
  if decide (key a = key b) then rest a b else leb (key a) (key b).

Definition candidate_leb : agent → agent → bool :=
  lex (λ a, negb (bool_decide (agent_status_of a = AgentStatus.Idle))) implb
  (lex (λ a, negb (seqb (agent_role a) "manager")) implb
  (lex (λ a, negb (seqb (agent_adapter a) "fake-process")) implb
  (lex agent_adapter str_leb
  (lex agent_name str_leb
  (lex agent_id N.leb (λ _ _, true)))))).

Definition is_candidate (a : agent) : bool :=
  negb (bool_decide (agent_status_of a = AgentStatus.Offline)) && negb (is_some (agent_retired_at a)).

Definition ordered_candidates (agents : list agent) : list agent :=
  sort_by candidate_leb (List.filter is_candidate agents).

Definition is_worker (a : agent) : bool := negb (seqb (agent_role a) "manager").

Definition provider_settings (request : planning_request) (adapter : string) :
    option string * option string :=
  if bool_decide (rq_preferred_adapter request = Some adapter)
  then (rq_preferred_model request, rq_reasoning_effort request)
  else (None, None).

(** ** Contracts *)
Definition artifact_policy : verification_policy := VerificationPolicy [CheckArtifact 1] None.

Definition contract (objective expected_output : string) (budget_tokens : Z) : task_contract :=
  TaskContract objective expected_output None None None None
    ["the declared artifact exists"; "the task reports concrete verification evidence"]
    ["filesystem"; "shell"]
    ["modify files outside the assigned worktree"; "use undeclared long-lived credentials"]
    [] ["**"] budget_tokens 1000000 None
    "ask the current human controller or mission owner" [] None None None.

(** The fields the strategies set on a contract. *)
Definition with_cost (cost : Z) (c : task_contract) : task_contract :=
  TaskContract (tc_objective c) (tc_expected_output c) (tc_source_repository c) (tc_source_base_ref c)
    (tc_source_base_commit c) (tc_workspace_connection_id c) (tc_acceptance_tests c) (tc_allowed_tools c)
    (tc_prohibited_actions c) (tc_references c) (tc_write_scope c) (tc_budget_tokens c) cost
    (tc_deadline_at c) (tc_escalation c) (tc_secret_refs c) (tc_model c) (tc_reasoning_effort c)
    (tc_deliverable c).
Definition with_secrets (secrets : list task_secret_reference) (c : task_contract) : task_contract :=
  TaskContract (tc_objective c) (tc_expected_output c) (tc_source_repository c) (tc_source_base_ref c)
    (tc_source_base_commit c) (tc_workspace_connection_id c) (tc_acceptance_tests c) (tc_allowed_tools c)
    (tc_prohibited_actions c) (tc_references c) (tc_write_scope c) (tc_budget_tokens c)
    (tc_budget_cost_microusd c) (tc_deadline_at c) (tc_escalation c) secrets (tc_model c)
    (tc_reasoning_effort c) (tc_deliverable c).
Definition with_settings (settings : option string * option string) (c : task_contract) : task_contract :=
  TaskContract (tc_objective c) (tc_expected_output c) (tc_source_repository c) (tc_source_base_ref c)
    (tc_source_base_commit c) (tc_workspace_connection_id c) (tc_acceptance_tests c) (tc_allowed_tools c)
    (tc_prohibited_actions c) (tc_references c) (tc_write_scope c) (tc_budget_tokens c)
    (tc_budget_cost_microusd c) (tc_deadline_at c) (tc_escalation c) (tc_secret_refs c) settings.1
    settings.2 (tc_deliverable c).
Definition with_deliverable (deliverable : option deliverable_spec) (c : task_contract) : task_contract :=
  TaskContract (tc_objective c) (tc_expected_output c) (tc_source_repository c) (tc_source_base_ref c)
    (tc_source_base_commit c) (tc_workspace_connection_id c) (tc_acceptance_tests c) (tc_allowed_tools c)
    (tc_prohibited_actions c) (tc_references c) (tc_write_scope c) (tc_budget_tokens c)
    (tc_budget_cost_microusd c) (tc_deadline_at c) (tc_escalation c) (tc_secret_refs c) (tc_model c)
    (tc_reasoning_effort c) deliverable.
Definition with_references (references : list string) (c : task_contract) : task_contract :=
  TaskContract (tc_objective c) (tc_expected_output c) (tc_source_repository c) (tc_source_base_ref c)
    (tc_source_base_commit c) (tc_workspace_connection_id c) (tc_acceptance_tests c) (tc_allowed_tools c)
    (tc_prohibited_actions c) references (tc_write_scope c) (tc_budget_tokens c)
    (tc_budget_cost_microusd c) (tc_deadline_at c) (tc_escalation c) (tc_secret_refs c) (tc_model c)
    (tc_reasoning_effort c) (tc_deliverable c).
Definition with_tests (tests : list string) (c : task_contract) : task_contract :=
  TaskContract (tc_objective c) (tc_expected_output c) (tc_source_repository c) (tc_source_base_ref c)
    (tc_source_base_commit c) (tc_workspace_connection_id c) (tc_acceptance_tests c ++ tests)
    (tc_allowed_tools c) (tc_prohibited_actions c) (tc_references c) (tc_write_scope c)
    (tc_budget_tokens c) (tc_budget_cost_microusd c) (tc_deadline_at c) (tc_escalation c)
    (tc_secret_refs c) (tc_model c) (tc_reasoning_effort c) (tc_deliverable c).
(** The tools and the write scope are replaced, the prohibitions extended. *)
Definition with_authority (tools prohibited scope : list string) (c : task_contract) : task_contract :=
  TaskContract (tc_objective c) (tc_expected_output c) (tc_source_repository c) (tc_source_base_ref c)
    (tc_source_base_commit c) (tc_workspace_connection_id c) (tc_acceptance_tests c) tools
    (tc_prohibited_actions c ++ prohibited) (tc_references c) scope (tc_budget_tokens c)
    (tc_budget_cost_microusd c) (tc_deadline_at c) (tc_escalation c) (tc_secret_refs c) (tc_model c)
    (tc_reasoning_effort c) (tc_deliverable c).

(** [if let Some(deliverable) = request.deliverable { .. }] *)
Definition requested_deliverable (request : planning_request) (c : task_contract) : task_contract :=
  match rq_deliverable request with
  | Some deliverable => with_deliverable (Some deliverable) c
  | None => c
  end.

(** ** single *)
Definition single_task_plan (request : planning_request) (agents : list agent) : result task_graph_plan :=
  agent ← with_context
    (find (λ a, is_worker a && match rq_preferred_adapter request with
                               | Some adapter => seqb (agent_adapter a) adapter
                               | None => true
                               end) (ordered_candidates agents))
    "no worker agent satisfies the requested adapter";
  let budget_tokens := default DEFAULT_SINGLE_TASK_BUDGET_TOKENS (rq_budget_tokens request) in
  let budget_cost_microusd := default 1000000%Z (rq_budget_cost_microusd request) in
  let task_contract :=
    requested_deliverable request
      (with_settings (rq_preferred_model request, rq_reasoning_effort request)
         (with_secrets (rq_secret_refs request)
            (with_cost budget_cost_microusd
               (contract ("Complete the mission outcome: " +:+ rq_mission_title request)
                  "A source-backed, verified mission artifact" budget_tokens)))) in
  Ok (TaskGraphPlan "single" 1 0 budget_tokens budget_cost_microusd []
        [PlannedTask "deliver" "Produce the mission outcome" task_contract (agent_id agent)
           (agent_adapter agent) [] 0 2 artifact_policy]).

(** ** parallel-specialists *)

(** [workers.swap(0, position)] *)
Definition swap_first (position : nat) (workers : list agent) : list agent :=
  match workers !! 0%nat, workers !! position with
  | Some first, Some other => <[0%nat := other]> (<[position := first]> workers)
  | _, _ => workers
  end.

Definition parallel_workers (request : planning_request) (agents : list agent) : result (list agent) :=
  let workers := List.filter is_worker (ordered_candidates agents) in
  match rq_preferred_adapter request with
  | Some preferred =>
      found ← with_context (list_find (λ a, agent_adapter a = preferred) workers)
        ("parallel-specialists has no worker for preferred adapter " +:+ preferred);
      Ok (swap_first found.1 workers)
  | None => Ok workers
  end.

(** The shares of a specialist and of the synthesis. *)
Definition parallel_split (total : Z) : Z * Z :=
  let specialist := Z.max (wrap_i64 (total * 2) ÷ 7) 1 in
  (specialist, Z.max (wrap_i64 (total - wrap_i64 (specialist * 2))) 1).

Definition specialist_task (request : planning_request) (key : string) (agent : agent)
    (objective expected_output : string) (budget cost : Z) : planned_task :=
  PlannedTask key (agent_name agent +:+ " specialist pass")
    (with_settings (provider_settings request (agent_adapter agent))
       (with_cost cost (contract (objective +:+ rq_mission_title request) expected_output budget)))
    (agent_id agent) (agent_adapter agent) [] 0 2 artifact_policy.

Definition parallel_specialists_plan (request : planning_request) (agents : list agent) :
    result task_graph_plan :=
  workers ← parallel_workers request agents;
  first ← with_context (workers !! 0%nat)
    "parallel-specialists requires at least two non-manager agents";
  second ← with_context (workers !! 1%nat)
    "parallel-specialists requires at least two non-manager agents";
  let synthesizer :=
    default first (find (λ a, seqb (agent_role a) "manager") (ordered_candidates agents)) in
  let total_budget := default 280000%Z (rq_budget_tokens request) in
  let total_cost_budget := default 3000000%Z (rq_budget_cost_microusd request) in
  let '(specialist_budget, synthesis_budget) := parallel_split total_budget in
  let '(specialist_cost_budget, synthesis_cost_budget) := parallel_split total_cost_budget in
  let synthesis_contract :=
    with_references ["task:specialist-a"; "task:specialist-b"]
      (requested_deliverable request
         (with_settings (provider_settings request (agent_adapter synthesizer))
            (with_cost synthesis_cost_budget
               (contract
                  ("Produce the final bounded outcome for this mission after both specialist tasks finish: "
                   +:+ rq_mission_title request)
                  "A final synthesis artifact that addresses the mission and acceptance tests"
                  synthesis_budget)))) in
  Ok (TaskGraphPlan "parallel-specialists" 3 1 total_budget total_cost_budget []
        [specialist_task request "specialist-a" first
           "Independently produce one concrete approach for this mission: "
           "A concrete specialist artifact with assumptions and verification"
           specialist_budget specialist_cost_budget;
         specialist_task request "specialist-b" second
           "Independently produce a distinct approach for this mission: "
           "A second specialist artifact with tradeoffs and verification"
           specialist_budget specialist_cost_budget;
         PlannedTask "synthesis" "Synthesize the specialist results" synthesis_contract
           (agent_id synthesizer) (agent_adapter synthesizer) ["specialist-a"; "specialist-b"] 1 2
           artifact_policy]).

(** ** studio-swarm *)
Definition studio_budget_split (total : Z) : result (Z * Z) :=
  bail_if (total <? 4)%Z "studio-swarm budget must fund all four tasks";;
  tripled ← with_context (checked_i64 (total * 3)) "studio-swarm budget overflow";
  let specialist := Z.max (tripled ÷ 20) 1 in
  Ok (specialist, (total - specialist * 3)%Z).

Definition device_suffix (suffix : string) : bool :=
  mem suffix ["1"; "2"; "3"; "4"; "5"; "6"; "7"; "8"; "9"; "¹"; "²"; "³"].

Definition root_component_is_unsafe (component : string) : bool :=
  let stem := to_ascii_uppercase (default "" (head (split_on "."%char component))) in
  eq_ignore_ascii_case component ".git"
  || ends_with " " component || ends_with "." component
  || any_char (one_of ("<>|" +:+ quote)) component
  || mem stem ["CON"; "PRN"; "AUX"; "NUL"; "CONIN$"; "CONOUT$"]
  || match (match strip_prefix "COM" stem with Some suffix => Some suffix | None => strip_prefix "LPT" stem end) with
     | Some suffix => device_suffix suffix
     | None => false
     end.

Definition studio_handoff_path (root role : string) : result string :=
  let path := root +:+ "/" +:+ role +:+ ".md" in
  match validate_typed_source_paths [path] with
  | Err _ => Err "studio-swarm handoff root cannot be decoded safely"
  | Ok _ =>
      bail_if (negb (repository_relative_path_is_valid root)
               || negb (write_scope_is_valid path)
               || existsb root_component_is_unsafe (split_on "/"%char root))
        "studio-swarm handoff root must be a safe literal repository-relative directory";;
      Ok path
  end.

Record studio_role := StudioRole {
  role_key : string; role_focus : string; role_expected_output : string; role_acceptance : string }.

Definition visual_direction : studio_role :=
  StudioRole "visual-direction" "visual and interaction direction"
    "Visual hierarchy, interaction states, accessibility, and responsive layout decisions"
    "Specify concrete visual tokens, interaction states, keyboard/focus behavior, and responsive layouts that integration can implement.".
Definition gameplay_systems : studio_role :=
  StudioRole "gameplay-systems" "gameplay and systems architecture"
    "Deterministic mechanics, state transitions, data contracts, and module boundaries"
    "Specify deterministic rules, state transitions, module interfaces, and edge cases with enough detail for implementation without further design work.".
Definition quality_verification : studio_role :=
  StudioRole "quality-verification" "quality and verification design"
    "Executable test cases, browser acceptance checks, accessibility, and performance criteria"
    "Specify reproducible test inputs and expected results, browser acceptance steps, accessibility checks, performance limits, and failure cases; distinguish proposed checks from observed evidence.".
Definition studio_roles : list studio_role := [visual_direction; gameplay_systems; quality_verification].

(** [.filter(|agent| identities.insert(agent.id))] *)
Fixpoint distinct_agents (identities : gset uuid) (agents : list agent) : list agent :=
  match agents with
  | [] => []
  | a :: rest =>
      if decide (agent_id a ∈ identities) then distinct_agents identities rest
      else a :: distinct_agents ({[agent_id a]} ∪ identities) rest
  end.

Definition studio_candidates (agents : list agent) : list agent :=
  distinct_agents ∅
    (List.filter (λ a, is_worker a && seqb (agent_adapter a) "github-copilot") (ordered_candidates agents)).

(** Explicit staffing roles first ... *)
Definition reserved_workers (candidates : list agent) : list (option agent) :=
  (λ role, find (λ a, seqb (agent_role a) (role_key role)) candidates) <$> studio_roles.

(** ... then an unassigned candidate for each role left open, in order. *)
Fixpoint fill_workers (candidates : list agent) (assigned : gset uuid) (workers : list (option agent)) :
    list (option agent) :=
  match workers with
  | [] => []
  | Some worker :: rest => Some worker :: fill_workers candidates assigned rest
  | None :: rest =>
      match find (λ a, negb (bool_decide (agent_id a ∈ assigned))) candidates with
      | Some worker => Some worker :: fill_workers candidates ({[agent_id worker]} ∪ assigned) rest
      | None => None :: fill_workers candidates assigned rest
      end
  end.

Definition studio_workers (agents : list agent) : list (option agent) :=
  let candidates := studio_candidates agents in
  let reserved := reserved_workers candidates in
  fill_workers candidates (list_to_set (agent_id <$> omap id reserved)) reserved.

Definition handoff_objective (role : studio_role) (path title : string) : string :=
  "Produce only the " +:+ role_focus role +:+ " technical handoff for this mission: " +:+ title +:+ newline
  +:+ "Write exactly one concise UTF-8 Markdown handoff at " +:+ path
  +:+ ", at most 12 KiB (12288 bytes). For a small mission, aim for 350-600 words of concrete decisions, interfaces, edge cases, and acceptance checks. "
  +:+ "The size ceiling is not a target: omit exhaustive background, duplicated requirements, and implementation listings. "
  +:+ "Read only what is needed to make those decisions, then write the handoff and finish. "
  +:+ "Do not repeatedly reread the whole handoff merely to estimate its byte count. "
  +:+ "If a known problem needs a correction, make a focused edit rather than restarting the design pass. "
  +:+ "The runner checks UTF-8, byte length, and the artifact using the persisted verifier after you finish; report those checks as delegated, not already passed. "
  +:+ "Use only Copilot native file tools to read relevant files and create or edit the handoff, including scoped directory creation if needed. "
  +:+ "No shell commands are needed or allowed. "
  +:+ "Do not inspect unrelated repository files, implement the final product, modify other files, or create commits. "
  +:+ "The integration task receives the verified handoff contents, not your conversational context or access to your worktree.".

Definition handoff_policy (path : string) : verification_policy :=
  VerificationPolicy
    [CheckFile path 1; CheckArtifact 1;
     CheckCommand "node"
       ["-e";
        "const b=require('node:fs').readFileSync(process.argv[1]);new TextDecoder('utf-8',{fatal:true}).decode(b);if(b.length>12288)process.exit(1)";
        path] 5000] None.

Definition handoff_task (request : planning_request) (root : string) (budget cost : Z)
    (role : studio_role) (agent : agent) : result planned_task :=
  path ← studio_handoff_path root (role_key role);
  let task_contract :=
    with_deliverable (Some (DeliverableSpec DeliverableForm.TypedArtifactSet false [path]))
      (with_tests
         [role_acceptance role;
          "The handoff is non-empty UTF-8 Markdown, at most 12 KiB (12288 bytes), with concrete decisions, constraints, and verification guidance rather than a transcript.";
          "Only the exact declared handoff file is changed and exported; no implementation files or commits are produced."]
         (with_authority ["filesystem"]
            ["execute shell commands"; "modify files outside the exact handoff write scope";
             "implement the final deliverable before integration";
             "create commits, publish, merge, or deploy"]
            [path]
            (with_settings (rq_preferred_model request, rq_reasoning_effort request)
               (with_cost cost
                  (contract (handoff_objective role path (rq_mission_title request))
                     (path +:+ ": " +:+ role_expected_output role
                      +:+ "; a self-contained technical Markdown handoff") budget))))) in
  Ok (PlannedTask (role_key role) (agent_name agent +:+ " " +:+ role_focus role +:+ " pass")
        task_contract (agent_id agent) (agent_adapter agent) [] 0 2 (handoff_policy path)).

Definition integration_task (request : planning_request) (budget cost : Z) (tasks : list planned_task)
    (gameplay : agent) : planned_task :=
  let task_contract :=
    with_deliverable (rq_deliverable request)
      (with_tests
         ["Consume all three verified handoffs and explain how their decisions and acceptance checks are reflected in the final deliverable.";
          "Produce the requested final deliverable and report concrete verification results, including any unresolved limitations."]
         (with_references ((λ t, "task:" +:+ pt_key t) <$> tasks)
            (with_settings (rq_preferred_model request, rq_reasoning_effort request)
               (with_cost cost
                  (contract
                     ("After all three studio specialist tasks complete, consume every verified handoff and integrate the final repository deliverable for this mission: "
                      +:+ rq_mission_title request +:+ newline
                      +:+ "Apply the visual-direction, gameplay-systems, and quality-verification decisions and acceptance checks. "
                      +:+ "If any verified handoff content is missing or unusable, escalate rather than guessing from task names or reading sibling worktrees.")
                     "The requested final repository deliverable, incorporating all three technical handoffs and concrete verification evidence"
                     budget))))) in
  PlannedTask "studio-integration" (agent_name gameplay +:+ " studio integration") task_contract
    (agent_id gameplay) (agent_adapter gameplay) (pt_key <$> tasks) 1 2 artifact_policy.

Definition studio_swarm_plan (request : planning_request) (agents : list agent) : result task_graph_plan :=
  bail_if match rq_preferred_adapter request with
          | Some adapter => negb (seqb adapter "github-copilot")
          | None => false
          end "studio-swarm requires github-copilot or an omitted requested adapter";;
  match studio_workers agents with
  | [Some visual; Some gameplay; Some quality] =>
      let root := default "handoffs" (rq_handoff_root request) in
      let total_budget := default 2000000%Z (rq_budget_tokens request) in
      let total_cost_budget := default 6000000%Z (rq_budget_cost_microusd request) in
      '(specialist_budget, integration_budget) ← studio_budget_split total_budget;
      '(specialist_cost_budget, integration_cost_budget) ← studio_budget_split total_cost_budget;
      tasks ← collect (λ '(role, agent),
                 handoff_task request root specialist_budget specialist_cost_budget role agent)
               (zip studio_roles [visual; gameplay; quality]);
      Ok (TaskGraphPlan "studio-swarm" 4 1 total_budget total_cost_budget []
            (tasks ++ [integration_task request integration_budget integration_cost_budget tasks gameplay]))
  | _ => Err "studio-swarm requires three distinct non-retired github-copilot workers"
  end.

(** ** The harness strategies *)
Definition verification_plan (strategy : string) (request : planning_request) (agents : list agent)
    (instruction : string) (policy : verification_policy) : result task_graph_plan :=
  agent ← with_context
    (find (λ a, is_worker a && seqb (agent_adapter a) "fake-process") (ordered_candidates agents))
    "verification strategy requires a fake-process worker";
  let budget_tokens := default 50000%Z (rq_budget_tokens request) in
  let budget_cost_microusd := default 500000%Z (rq_budget_cost_microusd request) in
  let task_contract :=
    with_deliverable (rq_deliverable request)
      (normalize_for_adapter
         (with_cost budget_cost_microusd
            (contract (instruction +:+ newline +:+ "Mission: " +:+ rq_mission_title request)
               "An artifact and every file required by the verifier policy" budget_tokens))
         (agent_adapter agent)) in
  Ok (TaskGraphPlan strategy 1 0 budget_tokens budget_cost_microusd []
        [PlannedTask "verify" "Produce verifier evidence" task_contract (agent_id agent)
           (agent_adapter agent) [] 0 1 policy]).

Definition verification_matrix_policy : verification_policy :=
  VerificationPolicy
    [CheckArtifact 1; CheckFile "verify.txt" 9;
     CheckCommand "node"
       ["-e"; "const fs=require('fs');process.exit(fs.existsSync('verify.txt')?0:1)"] 5000;
     CheckTest "node"
       ["-e"; "const fs=require('fs');process.exit(fs.readFileSync('verify.txt','utf8').trim()==='VERIFIED'?0:1)"]
       5000;
     CheckJsonSchema "schema.json" ["status"; "count"]; CheckScreenshot "screenshot.png" 16] None.
Definition verification_failure_policy : verification_policy :=
  VerificationPolicy [CheckArtifact 1; CheckFile "missing-required.txt" 1] None.
Definition human_approval_policy : verification_policy :=
  VerificationPolicy [CheckArtifact 1] (Some (HumanApproval ["owner"; "admin"; "manager"])).
Definition independent_review_policy : verification_policy :=
  VerificationPolicy [CheckArtifact 1] (Some (IndependentReview ["member"; "owner"; "admin"] true)).

(** ** The registry *)
Definition strategy : Type := planning_request → list agent → result task_graph_plan.

Definition strategies (strategy_id : string) : option strategy :=
  if seqb strategy_id "single" then Some single_task_plan
  else if seqb strategy_id "parallel-specialists" then Some parallel_specialists_plan
  else if seqb strategy_id "studio-swarm" then Some studio_swarm_plan
  else if seqb strategy_id "verification-matrix" then
    Some (λ request agents, verification_plan "verification-matrix" request agents
            "[verification-matrix] Produce every automated verification fixture."
            verification_matrix_policy)
  else if seqb strategy_id "verification-failure" then
    Some (λ request agents, verification_plan "verification-failure" request agents
            "Produce an artifact that intentionally lacks missing-required.txt."
            verification_failure_policy)
  else if seqb strategy_id "human-approval" then
    Some (λ request agents, verification_plan "human-approval" request agents
            "Produce an artifact and wait for an authorized human approval." human_approval_policy)
  else if seqb strategy_id "independent-review" then
    Some (λ request agents, verification_plan "independent-review" request agents
            "Produce an artifact and wait for an independent reviewer." independent_review_policy)
  else None.

Definition set_max_attempts (max_attempts : option Z) (plan : task_graph_plan) : task_graph_plan :=
  match max_attempts with
  | Some attempts =>
      TaskGraphPlan (plan_strategy plan) (plan_max_nodes plan) (plan_max_depth plan)
        (plan_budget_tokens plan) (plan_budget_cost_microusd plan) (plan_staffing plan)
        ((λ t, PlannedTask (pt_key t) (pt_title t) (pt_contract t) (pt_assigned_agent_id t)
                 (pt_required_adapter t) (pt_depends_on t) (pt_depth t) attempts
                 (pt_verification_policy t)) <$> plan_tasks plan)
  | None => plan
  end.

(** [StrategyRegistry::plan] *)
Definition plan (strategy_id : string) (request : planning_request) (agents : list agent) :
    option (result task_graph_plan) :=
  match strategies strategy_id with
  | None => Some (Err ("unknown manager strategy " +:+ strategy_id))
  | Some strategy =>
      match strategy request agents with
      | Err e => Some (Err e)
      | Ok plan =>
          let plan := set_max_attempts (rq_max_task_attempts request) plan in
          match validate_plan plan agents with
          | None => None
          | Some (Err e) => Some (Err e)
          | Some (Ok _) => Some (Ok plan)
          end
      end
  end.

(** ** Lemmas: building an accepted plan *)
Lemma checked_sum_intro total overflow values :
  Forall (λ v, 0 ≤ v)%Z values → (i64_min ≤ total)%Z → (total + foldr Z.add 0 values ≤ i64_max)%Z →
  checked_sum total overflow values = Ok (total + foldr Z.add 0 values)%Z.
Proof.
  revert total. induction values as [|v values IH]; intros total Hf Hmin Hmax; simpl in *.
  - by rewrite Z.add_0_r.
  - inversion Hf as [|? ? Hv Hvs]; subst.
    assert (0 ≤ foldr Z.add 0 values)%Z by (clear -Hvs; induction Hvs; simpl; lia).
    rewrite (proj2 (checked_i64_spec (total + v) (total + v))) by (split; [done | lia]).
    simpl. rewrite IH by (done || lia). f_equal. lia.
Qed.

Lemma validate_tasks_intro agents n keys tasks :
  NoDup (pt_key <$> tasks) →
  (∀ t, t ∈ tasks → task_key_is_invalid (pt_key t) = false ∧ keys !! pt_key t = None ∧
     validate_task agents t = Ok tt) →
  ∃ keys', validate_tasks agents n keys tasks = Ok keys'.
Proof.
  revert n keys. induction tasks as [|t tasks IH]; intros n keys Hn Ht; [by eexists |]. simpl.
  destruct (Ht t ltac:(set_solver)) as (-> & -> & ->). simpl.
  rewrite fmap_cons in Hn. apply NoDup_cons in Hn as [Hnot Hn]. apply IH; [done |].
  intros t' Hin. destruct (Ht t' ltac:(set_solver)) as (? & ? & ?). split_and!; [done | | done].
  rewrite lookup_insert_ne; [done |]. intros E. apply Hnot. rewrite E. by apply list_elem_of_fmap_2.
Qed.

Lemma validate_plan_intro plan agents :
  (1 ≤ vec_len (plan_tasks plan) ≤ plan_max_nodes plan)%Z → (plan_max_nodes plan ≤ 8)%Z →
  (0 ≤ plan_max_depth plan ≤ 4)%Z → (1 ≤ plan_budget_tokens plan ≤ 2000000)%Z →
  (1 ≤ plan_budget_cost_microusd plan ≤ 50000000)%Z →
  NoDup (pt_key <$> plan_tasks plan) →
  (∀ t, t ∈ plan_tasks plan → task_key_is_invalid (pt_key t) = false ∧
     validate_task (agents_by_id agents) t = Ok tt ∧
     depth_declared (plan_tasks plan) t ∧ (pt_depth t ≤ plan_max_depth plan)%Z) →
  (foldr Z.add 0 ((tc_budget_tokens ∘ pt_contract) <$> plan_tasks plan) ≤ plan_budget_tokens plan)%Z →
  (foldr Z.add 0 ((tc_budget_cost_microusd ∘ pt_contract) <$> plan_tasks plan)
     ≤ plan_budget_cost_microusd plan)%Z →
  validate_plan plan agents = Some (Ok tt).
Proof.
  intros Hnodes Hmax Hdepth Hbudget Hcost Hdup Htasks Hsum Hcsum.
  destruct (validate_tasks_intro (agents_by_id agents) 0 ∅ (plan_tasks plan) Hdup) as [keys Hkeys].
  { intros t Ht. destruct (Htasks t Ht) as (? & ? & _). by rewrite lookup_empty. }
  assert (Forall (λ v, 0 ≤ v)%Z ((tc_budget_tokens ∘ pt_contract) <$> plan_tasks plan) ∧
          Forall (λ v, 0 ≤ v)%Z ((tc_budget_cost_microusd ∘ pt_contract) <$> plan_tasks plan)) as [Hp1 Hp2].
  { split; apply Forall_fmap, Forall_forall; intros t Ht; simpl;
      destruct (Htasks t Ht) as (_ & (_ & ? & ? & _)%validate_task_ok & _); lia. }
  assert (validate_plan_tables plan agents = Ok keys) as Htab.
  { unfold validate_plan_tables, MAX_GRAPH_NODES, MAX_GRAPH_DEPTH, MAX_GRAPH_BUDGET_TOKENS, in_range.
    rewrite Hkeys. destruct (plan_tasks plan) as [|t0 ts] eqn:Et; [unfold vec_len in *; simpl in *; lia |].
    rewrite <- Et in *. replace (vec_is_empty (plan_tasks plan)) with false by (by rewrite Et).
    rewrite !checked_sum_intro by (done || unfold i64_min, i64_max; lia).
    repeat match goal with |- context [bail_if ?c _] =>
      lazymatch c with false => fail | _ => replace c with false by lia end end.
    do 2 (cbn [bail_if mbind result_bind];
      match goal with |- context [bail_if ?c _] => replace c with false by lia end).
    done. }
  apply validate_plan_ok_iff. exists keys. split; [done |].
  apply (tables_depths _ _ _ Htab). intros t Ht. by apply Htasks.
Qed.

(** What the gate asks of a plan, in one place. *)
Record plan_accepted (agents : list agent) (plan : task_graph_plan) : Prop := {
  acc_nodes : (1 ≤ vec_len (plan_tasks plan) ≤ plan_max_nodes plan)%Z;
  acc_max_nodes : (plan_max_nodes plan ≤ 8)%Z;
  acc_max_depth : (0 ≤ plan_max_depth plan ≤ 4)%Z;
  acc_budget : (1 ≤ plan_budget_tokens plan ≤ 2000000)%Z;
  acc_cost : (1 ≤ plan_budget_cost_microusd plan ≤ 50000000)%Z;
  acc_keys : NoDup (pt_key <$> plan_tasks plan);
  acc_tasks : ∀ t, t ∈ plan_tasks plan → task_key_is_invalid (pt_key t) = false ∧
    validate_task (agents_by_id agents) t = Ok tt ∧
    depth_declared (plan_tasks plan) t ∧ (pt_depth t ≤ plan_max_depth plan)%Z;
  acc_tokens_sum : (foldr Z.add 0 ((tc_budget_tokens ∘ pt_contract) <$> plan_tasks plan)
                    ≤ plan_budget_tokens plan)%Z;
  acc_cost_sum : (foldr Z.add 0 ((tc_budget_cost_microusd ∘ pt_contract) <$> plan_tasks plan)
                  ≤ plan_budget_cost_microusd plan)%Z;
}.

Lemma validate_plan_accepted plan agents :
  validate_plan plan agents = Some (Ok tt) ↔ plan_accepted agents plan.
Proof.
  split; [| intros []; by apply validate_plan_intro].
  intros (keys & Ht & Hd)%validate_plan_ok_iff.
  pose proof (proj1 (tables_depths _ _ _ Ht) Hd) as Hdepth. clear Hd.
  pose proof (validate_tables_keys_ok _ _ _ Ht) as Hkeys.
  unfold validate_plan_tables, MAX_GRAPH_NODES, MAX_GRAPH_DEPTH, MAX_GRAPH_BUDGET_TOKENS in Ht. res_inv.
  repeat match goal with
  | H : in_range _ _ _ = true |- _ => apply in_range_spec in H
  | H : checked_sum _ _ _ = Ok _ |- _ => apply checked_sum_ok in H
  | H : validate_tasks _ _ _ _ = Ok _ |- _ => apply validate_tasks_ok in H as (_ & Hall & _)
  end.
  constructor; try lia.
  - assert (1 ≤ vec_len (plan_tasks plan))%Z; [| lia].
    destruct (plan_tasks plan); [done | unfold vec_len; cbn [length]; lia].
  - apply NoDup_alt. intros i j k Hi Hj.
    apply list_lookup_fmap_Some in Hi as (t & -> & Ht), Hj as (t' & Hk & Ht').
    apply (keys_total _ _ Hkeys) in Ht, Ht'. rewrite Hk in Ht. by simplify_eq.
  - intros t Hin. destruct (Hdepth t Hin). apply list_elem_of_lookup in Hin as [i Hi].
    apply Hall in Hi as (_ & ? & ?). done.
Qed.

Definition set_attempts (attempts : Z) (t : planned_task) : planned_task :=
  PlannedTask (pt_key t) (pt_title t) (pt_contract t) (pt_assigned_agent_id t)
    (pt_required_adapter t) (pt_depends_on t) (pt_depth t) attempts (pt_verification_policy t).

Lemma set_attempts_valid agents n t :
  (1 ≤ n ≤ 3)%Z → validate_task agents t = Ok tt → validate_task agents (set_attempts n t) = Ok tt.
Proof.
  intros Hn Ht. unfold validate_task in *. apply bind_ok in Ht as (a & Ha & Ht).
  cbn [set_attempts pt_assigned_agent_id pt_key pt_required_adapter pt_contract pt_max_attempts
    pt_verification_policy]. rewrite Ha. cbn [mbind result_bind] in *.
  do 2 (apply bind_ok in Ht as ([] & Hc & Ht); rewrite Hc; cbn [mbind result_bind] in *; clear Hc).
  replace (in_range 1 MAX_TASK_ATTEMPTS n) with true
    by (symmetry; apply in_range_spec; unfold MAX_TASK_ATTEMPTS; lia).
  by apply bind_ok in Ht as ([] & _ & Ht).
Qed.

Lemma set_attempts_depth n tasks t :
  depth_declared tasks t → depth_declared (set_attempts n <$> tasks) (set_attempts n t).
Proof.
  assert (∀ t', t' ∈ tasks → set_attempts n t' ∈ set_attempts n <$> tasks) as Hin
    by (intros; by apply list_elem_of_fmap_2).
  intros (Hdeps & Hroot & Hpos). split_and!; simpl; [| | done].
  - intros k Hk. destruct (Hdeps k Hk) as (t' & ? & ? & ?). exists (set_attempts n t'). auto.
  - destruct Hroot as [?|(t' & ? & ? & ?)]; [by left | right]. exists (set_attempts n t'). auto.
Qed.

Lemma set_max_attempts_accepted agents attempts plan :
  match attempts with Some n => in_range 1 3 n | None => true end = true →
  plan_accepted agents plan → plan_accepted agents (set_max_attempts attempts plan).
Proof.
  destruct attempts as [n|]; [| done]. intros Hn%in_range_spec [].
  assert (∀ A (f : planned_task → A), (∀ t, f (set_attempts n t) = f t) →
    f <$> (set_attempts n <$> plan_tasks plan) = f <$> plan_tasks plan) as Hmap.
  { intros A f Hf. rewrite <- list_fmap_compose. apply list_fmap_ext. intros i t _. apply Hf. }
  constructor; simpl; fold (set_attempts n); rewrite ?Hmap by done; try done.
  - unfold vec_len in *. by rewrite length_fmap.
  - intros t' (t & -> & Ht)%list_elem_of_fmap_1. destruct (acc_tasks0 t Ht) as (? & ? & ? & ?).
    split_and!; [done | by apply set_attempts_valid | by apply set_attempts_depth | done].
Qed.

(** ** Lemmas: building an accepted task *)
Definition nonblank (s : string) : bool := negb (is_empty (trim s)).
Definition entry_ok (value : string) : bool := nonblank value && (str_len value <=? 500)%Z.
Definition settings_ok (settings : option string * option string) : bool :=
  match settings.1 with Some model => nonblank model && (str_len model <=? 128)%Z | None => true end
  && match settings.2 with Some effort => mem effort reasoning_efforts | None => true end.
Definition deliverable_ok (deliverable : option deliverable_spec) : bool :=
  match deliverable with
  | Some d => (vec_len (ds_paths d) <=? 128)%Z && forallb repository_relative_path_is_valid (ds_paths d)
  | None => true
  end.

Lemma of_chars_nonempty cs : cs ≠ [] → is_empty (of_chars cs) = false.
Proof. destruct cs as [|c cs]; [done |]. simpl. unfold encode_char. by repeat case_match. Qed.

(** A text that starts with an ASCII character other than a blank. *)
Lemma nonblank_head c s :
  (byte_val c <? 128)%Z && negb (is_whitespace (byte_val c)) = true → nonblank (String c s) = true.
Proof.
  intros [Hc Hw%negb_true_iff]%andb_true_iff. unfold nonblank, trim, trim_chars. simpl. rewrite Hc.
  rewrite drop_while_head, reverse_cons by done. rewrite of_chars_nonempty; [done |].
  destruct (drop_while_suffix is_whitespace (reverse (chars s) ++ [byte_val c])) as (pre & E & Hpre).
  destruct (drop_while _ _) as [|x xs]; [| rewrite reverse_cons; by destruct (reverse xs)].
  rewrite app_nil_r in E. rewrite <- E, forallb_app in Hpre. simpl in Hpre.
  by rewrite Hw, andb_false_r in Hpre.
Qed.

Record contract_ok (c : task_contract) : Prop := {
  cok_text : nonblank (tc_objective c) && nonblank (tc_expected_output c)
             && nonblank (tc_escalation c) = true;
  cok_lists : negb (vec_is_empty (tc_acceptance_tests c)) && negb (vec_is_empty (tc_allowed_tools c))
              && negb (vec_is_empty (tc_prohibited_actions c))
              && negb (vec_is_empty (tc_write_scope c)) = true;
  cok_tokens : (1 ≤ tc_budget_tokens c ≤ 2000000)%Z;
  cok_cost : (1 ≤ tc_budget_cost_microusd c ≤ 10000000)%Z;
  cok_source : tc_source_repository c = None ∧ tc_source_base_ref c = None ∧
               tc_source_base_commit c = None;
  cok_deliverable : deliverable_ok (tc_deliverable c) = true;
  cok_settings : settings_ok (tc_model c, tc_reasoning_effort c) = true;
  cok_entries : forallb entry_ok (tc_acceptance_tests c ++ tc_allowed_tools c
     ++ tc_prohibited_actions c ++ tc_references c ++ tc_write_scope c) = true;
  cok_scope : forallb write_scope_is_valid (tc_write_scope c) = true;
}.

Lemma deliverable_ok_valid key deliverable :
  deliverable_ok deliverable = true →
  match deliverable with Some d => validate_deliverable key d | None => Ok tt end = Ok tt.
Proof.
  destruct deliverable as [d|]; [| done]. simpl. intros [Hl Hp]%andb_true_iff.
  unfold validate_deliverable. replace (128 <? vec_len (ds_paths d))%Z with false by lia.
  cbn [bail_if mbind result_bind]. apply for_each_ok. intros path Hin. rewrite forallb_forall in Hp.
  rewrite Hp by (by apply list_elem_of_In). done.
Qed.

Lemma entries_valid (message : string) values :
  forallb entry_ok values = true →
  for_each (λ value, bail_if (is_empty (trim value) || (500 <? str_len value)%Z) message) values = Ok tt.
Proof.
  rewrite forallb_forall. intros He. apply for_each_ok. intros v Hv%list_elem_of_In.
  apply He in Hv. unfold entry_ok, nonblank in Hv. res_inv. apply bail_if_ok.
  apply orb_false_iff. split; [done | lia].
Qed.

Lemma scopes_valid scopes :
  forallb write_scope_is_valid scopes = true →
  find (λ scope, negb (write_scope_is_valid scope)) scopes = None.
Proof.
  induction scopes as [|scope scopes IH]; simpl; [done |].
  intros [-> ?]%andb_true_iff. by apply IH.
Qed.

Lemma contract_ok_valid key c :
  contract_ok c → validate_secret_refs key ∅ (tc_secret_refs c) = Ok tt →
  validate_contract key c = Ok tt.
Proof.
  intros [Ht Hl Htok Hcost (Hs1 & Hs2 & Hs3) Hd Hset He Hscope] Hsec.
  unfold nonblank in Ht. res_inv. unfold settings_ok in Hset. apply andb_true_iff in Hset as [Hm Hr].
  unfold validate_contract. rewrite Hs1, Hs2, Hs3.
  repeat match goal with H : is_empty _ = false |- _ => rewrite H; clear H
                       | H : vec_is_empty _ = false |- _ => rewrite H; clear H end.
  rewrite !(proj2 (in_range_spec _ _ _)) by (unfold MAX_TASK_BUDGET_TOKENS; lia).
  cbn [negb orb bail_if mbind result_bind validate_source_requirement is_some].
  rewrite (deliverable_ok_valid key _ Hd). cbn [mbind result_bind].
  replace (match tc_model c with Some model => _ | None => false end) with false.
  2:{ destruct (tc_model c) as [m|]; [| done]. unfold nonblank in Hm. simpl in Hm. res_inv.
      symmetry. apply orb_false_iff. split; [done | lia]. }
  replace (match tc_reasoning_effort c with Some effort => _ | None => false end) with false
    by (destruct (tc_reasoning_effort c); [cbn [snd] in Hr; by rewrite Hr | done]).
  cbn [bail_if mbind result_bind]. rewrite entries_valid by done. cbn [mbind result_bind].
  by rewrite scopes_valid.
Qed.

Lemma agents_by_id_lookup agents a :
  NoDup (agent_id <$> agents) → a ∈ agents → agents_by_id agents !! agent_id a = Some a.
Proof.
  unfold agents_by_id. induction agents as [|b agents IH] using rev_ind; [set_solver |].
  rewrite foldl_app, fmap_app. simpl. intros (Hn & Hdisj & _)%NoDup_app Hin.
  destruct (decide (agent_id b = agent_id a)) as [E|E].
  - apply elem_of_app in Hin as [Hin| ->%list_elem_of_singleton]; [| by rewrite lookup_insert_eq].
    exfalso. apply (Hdisj (agent_id a)); [by apply list_elem_of_fmap_2 | set_solver].
  - rewrite lookup_insert_ne by done. apply IH; [done |].
    apply elem_of_app in Hin as [?| ->%list_elem_of_singleton]; done.
Qed.

Lemma task_valid agents t a :
  NoDup (agent_id <$> agents) → a ∈ agents → pt_assigned_agent_id t = agent_id a →
  pt_required_adapter t = agent_adapter a →
  (agent_adapter a = "fake-process" → tc_model (pt_contract t) = None ∧
     tc_reasoning_effort (pt_contract t) = None) →
  (1 ≤ pt_max_attempts t ≤ 3)%Z → contract_ok (pt_contract t) →
  validate_secret_refs (pt_key t) ∅ (tc_secret_refs (pt_contract t)) = Ok tt →
  validate_verification_policy (pt_key t) (pt_verification_policy t) = Ok tt →
  validate_task (agents_by_id agents) t = Ok tt.
Proof.
  intros Hn Hin Hid Had Hfake Hatt Hc Hsec Hpol. unfold validate_task.
  rewrite Hid, (agents_by_id_lookup _ _ Hn Hin), Had. cbn [with_context mbind result_bind].
  rewrite seqb_refl. cbn [negb bail_if mbind result_bind].
  replace (seqb (agent_adapter a) "fake-process" && _) with false.
  2:{ destruct (seqb (agent_adapter a) "fake-process") eqn:E; [| done].
      apply seqb_eq in E. by destruct (Hfake E) as [-> ->]. }
  rewrite (proj2 (in_range_spec _ _ _)) by (unfold MAX_TASK_ATTEMPTS; lia).
  cbn [negb bail_if mbind result_bind]. rewrite contract_ok_valid by done. done.
Qed.

(** ** Lemmas: candidates *)
Lemma candidate_elem agents a :
  a ∈ ordered_candidates agents ↔ a ∈ agents ∧ is_candidate a = true.
Proof.
  unfold ordered_candidates. rewrite sort_by_perm, !list_elem_of_In, filter_In. done.
Qed.

Lemma candidate_found agents p a :
  find p (ordered_candidates agents) = Some a → a ∈ agents ∧ is_candidate a = true ∧ p a = true.
Proof.
  intros [Hin Hp]%find_some. apply list_elem_of_In, candidate_elem in Hin as [? ?]. done.
Qed.

(** Requests a strategy turns into an accepted plan. *)
Record request_ok (request : planning_request) : Prop := {
  rok_tokens : match rq_budget_tokens request with Some t => in_range 4 2000000 t | None => true end = true;
  rok_cost : match rq_budget_cost_microusd request with
             | Some c => in_range 4 10000000 c | None => true end = true;
  rok_attempts : match rq_max_task_attempts request with
                 | Some n => in_range 1 3 n | None => true end = true;
  rok_deliverable : deliverable_ok (rq_deliverable request) = true;
  rok_secrets : validate_secret_refs "deliver" ∅ (rq_secret_refs request) = Ok tt;
  rok_settings : settings_ok (rq_preferred_model request, rq_reasoning_effort request) = true;
  (** A model or effort is only asked for together with a provider adapter. *)
  rok_provider : rq_preferred_model request = None ∧ rq_reasoning_effort request = None ∨
    ∃ adapter, rq_preferred_adapter request = Some adapter ∧ adapter ≠ "fake-process";
}.

(** ** Lemmas: the studio *)
Lemma distinct_agents_elem identities agents a : a ∈ distinct_agents identities agents → a ∈ agents.
Proof.
  revert identities. induction agents as [|b agents IH]; intros identities; simpl; [done |].
  case_decide; [| rewrite elem_of_cons; intros [->|?]; [set_solver |]]; set_solver.
Qed.

Lemma distinct_agents_ids identities agents :
  NoDup (agent_id <$> distinct_agents identities agents) ∧
  ∀ a, a ∈ distinct_agents identities agents → agent_id a ∉ identities.
Proof.
  revert identities. induction agents as [|b agents IH]; intros identities; simpl.
  { split; [constructor | set_solver]. }
  case_decide as Hb; [apply IH |]. destruct (IH ({[agent_id b]} ∪ identities)) as [Hn Hnot].
  split.
  - rewrite fmap_cons. constructor; [| done]. intros (a & E & Ha)%list_elem_of_fmap_1.
    apply Hnot in Ha. set_solver.
  - intros a [->|Ha]%elem_of_cons; [done |]. apply Hnot in Ha. set_solver.
Qed.

Lemma studio_candidate_elem agents a :
  a ∈ studio_candidates agents →
  a ∈ agents ∧ is_candidate a = true ∧ is_worker a = true ∧ agent_adapter a = "github-copilot".
Proof.
  intros Ha%distinct_agents_elem. apply list_elem_of_In, filter_In in Ha as [Ha Hw].
  apply list_elem_of_In, candidate_elem in Ha as [? ?]. apply andb_true_iff in Hw as [? ?%seqb_eq]. done.
Qed.

Lemma fill_workers_elem candidates assigned workers w :
  Some w ∈ fill_workers candidates assigned workers → w ∈ candidates ∨ Some w ∈ workers.
Proof.
  revert assigned. induction workers as [|[v|] workers IH]; intros assigned; simpl; [set_solver | |].
  - rewrite !elem_of_cons. intros [?|Hw]; [naive_solver |]. apply IH in Hw. naive_solver.
  - destruct (find _ candidates) as [v|] eqn:E; rewrite !elem_of_cons.
    + intros [[= ->]|Hw%IH]; [| naive_solver]. apply find_some in E as [E _].
      left. by apply list_elem_of_In.
    + intros [?|Hw%IH]; naive_solver.
Qed.

Lemma reserved_elem candidates w :
  Some w ∈ reserved_workers candidates →
  w ∈ candidates ∧ ∃ role, role ∈ studio_roles ∧ agent_role w = role_key role.
Proof.
  unfold reserved_workers. intros (role & E & Hr)%list_elem_of_fmap_1. symmetry in E.
  apply find_some in E as [E ?%seqb_eq]. split; [by apply list_elem_of_In | eauto].
Qed.

Lemma studio_worker_elem agents w :
  Some w ∈ studio_workers agents → w ∈ studio_candidates agents.
Proof. by intros [?|[? _]%reserved_elem]%fill_workers_elem. Qed.

(** The assignments: the ones that were made are distinct, and stay so. *)
Definition ids (workers : list (option agent)) : list uuid := agent_id <$> omap id workers.

Lemma fill_workers_distinct candidates assigned workers :
  NoDup (ids workers) → (∀ i, i ∈ ids workers → i ∈ assigned) →
  NoDup (ids (fill_workers candidates assigned workers)) ∧
  ∀ i, i ∈ ids (fill_workers candidates assigned workers) → i ∈ ids workers ∨ i ∉ assigned.
Proof.
  unfold ids. revert assigned. induction workers as [|[v|] workers IH]; intros assigned Hn Hin.
  { simpl. split; [constructor | set_solver]. }
  - cbn [omap list_omap id fill_workers] in *. rewrite !fmap_cons in *. apply NoDup_cons in Hn as [Hv Hn].
    destruct (IH assigned Hn) as [Hn' Hin']; [intros; apply Hin; set_solver |].
    split; [constructor; [| done] | set_solver].
    intros [?|Hna]%Hin'; [done |]. apply Hna, Hin. set_solver.
  - cbn [omap list_omap id fill_workers] in *. destruct (find _ candidates) as [w|] eqn:E; [| by apply IH].
    apply find_some in E as [_ Hw%negb_true_iff%bool_decide_eq_false].
    cbn [omap list_omap id]. rewrite fmap_cons.
    destruct (IH ({[agent_id w]} ∪ assigned) Hn) as [Hn' Hin']; [set_solver |].
    split; [constructor; [| done] | set_solver].
    intros [Hold|Hna]%Hin'; [by apply Hw, Hin | set_solver].
Qed.

Lemma reserved_distinct candidates :
  NoDup (agent_id <$> candidates) → NoDup (ids (reserved_workers candidates)).
Proof.
  intros Hn. assert (∀ a b, a ∈ candidates → b ∈ candidates → agent_id a = agent_id b → a = b) as Hinj.
  { intros a b [i Hi]%list_elem_of_lookup [j Hj]%list_elem_of_lookup E.
    assert (i = j) as ->; [| congruence].
    eapply NoDup_lookup; [exact Hn | | rewrite list_lookup_fmap, Hj; done].
    rewrite list_lookup_fmap, Hi. simpl. by rewrite E. }
  unfold ids, reserved_workers.
  assert (∀ roles, NoDup (role_key <$> roles) →
    NoDup (agent_id <$> omap id ((λ role, find (λ a, seqb (agent_role a) (role_key role)) candidates) <$> roles)) ∧
    ∀ i, i ∈ agent_id <$> omap id ((λ role, find (λ a, seqb (agent_role a) (role_key role)) candidates) <$> roles) →
      ∃ a, a ∈ candidates ∧ agent_id a = i ∧ agent_role a ∈ role_key <$> roles) as Hgen.
  { induction roles as [|role roles IH]; intros Hk; [split; [constructor | set_solver] |].
    rewrite !fmap_cons in *. apply NoDup_cons in Hk as [Hkr Hk]. destruct (IH Hk) as [IHn IHi].
    cbn [omap list_omap id]. destruct (find _ candidates) as [a|] eqn:E.
    - apply find_some in E as [Ha%list_elem_of_In Hr%seqb_eq]. rewrite fmap_cons. split.
      + constructor; [| done]. intros (b & Hb & Eb & Hrb)%IHi. rewrite (Hinj b a Hb Ha Eb) in Hrb. congruence.
      + intros i [->|Hi]%elem_of_cons; [exists a; split_and!; [done | done | set_solver] |].
        destruct (IHi i Hi) as (b & ? & ? & ?). exists b. set_solver.
    - split; [done |]. intros i Hi. destruct (IHi i Hi) as (b & ? & ? & ?). exists b. set_solver. }
  apply Hgen. apply (bool_decide_unpack _). vm_compute. done.
Qed.

Lemma studio_workers_distinct agents : NoDup (ids (studio_workers agents)).
Proof.
  unfold studio_workers. apply fill_workers_distinct.
  - apply reserved_distinct, distinct_agents_ids.
  - intros i Hi. by apply elem_of_list_to_set.
Qed.

Lemma fill_workers_keeps candidates assigned workers i w :
  workers !! i = Some (Some w) → fill_workers candidates assigned workers !! i = Some (Some w).
Proof.
  revert i assigned. induction workers as [|[v|] workers IH]; intros [|i] assigned Hi; simpl in *; try done.
  - by apply IH.
  - destruct (find _ candidates); simpl; by apply IH.
Qed.

Lemma handoff_path_ok root role path :
  studio_handoff_path root role = Ok path →
  path = root +:+ "/" +:+ role +:+ ".md" ∧ safe_path path = true ∧ write_scope_is_valid path = true.
Proof.
  unfold studio_handoff_path. destruct (validate_typed_source_paths _) eqn:E; [| done].
  intros Hp. res_inv. split_and!; [done | | done].
  unfold validate_typed_source_paths in E. res_inv.
  match goal with H : checked_paths _ = Ok _ |- _ => apply checked_paths_ok in H as [(_ & Hs & _) _] end.
  apply Hs. set_solver.
Qed.

Lemma safe_path_entry path :
  safe_path path = true → repository_relative_path_is_valid path = true ∧ entry_ok path = true ∧
  ∀ rest, nonblank (path +:+ rest) = true.
Proof.
  intros Hs. pose proof (safe_path_components _ Hs) as [Hv _].
  assert (all_bytes (λ b, (b <? 128)%Z) path = true) as Hascii.
  { unfold safe_path in Hs. case_match eqn:E; [done |]. by res_inv. }
  assert (utf8 path = true) as Hu by (eapply utf8_ascii; [| exact Hascii]; by intros z).
  split; [done |]. unfold repository_relative_path_is_valid in Hv. res_inv.
  match goal with H : seqb path (trim path) = true |- _ => apply seqb_eq in H as Ht end.
  destruct path as [|c path]; [done |]. unfold entry_ok.
  assert (∀ rest, nonblank (String c rest) = true) as Hnb.
  { intros rest. apply nonblank_head. unfold all_bytes in Hascii. simpl in Hascii. res_inv.
    apply andb_true_iff. split; [done |]. apply negb_true_iff.
    pose proof (trim_chars_trimmed (chars (String c path))) as [Hhead _].
    rewrite <- chars_trim, <- Ht in Hhead by done. simpl in Hhead.
    match goal with H : (byte_val c <? 128)%Z = true |- _ => rewrite H in Hhead end. by eapply Hhead. }
  split; [| intros rest; apply Hnb]. rewrite Hnb. done.
Qed.

Lemma studio_shape request agents plan :
  studio_swarm_plan request agents = Ok plan →
  ∃ visual gameplay quality s y sc yc t1 t2 t3,
    let root := default "handoffs" (rq_handoff_root request) in
    let total := default 2000000%Z (rq_budget_tokens request) in
    let total_cost := default 6000000%Z (rq_budget_cost_microusd request) in
    studio_workers agents = [Some visual; Some gameplay; Some quality] ∧
    studio_budget_split total = Ok (s, y) ∧ studio_budget_split total_cost = Ok (sc, yc) ∧
    handoff_task request root s sc visual_direction visual = Ok t1 ∧
    handoff_task request root s sc gameplay_systems gameplay = Ok t2 ∧
    handoff_task request root s sc quality_verification quality = Ok t3 ∧
    plan = TaskGraphPlan "studio-swarm" 4 1 total total_cost []
             ([t1; t2; t3] ++ [integration_task request y yc [t1; t2; t3] gameplay]).
Proof.
  unfold studio_swarm_plan. intros (_ & _ & Hp)%bind_ok.
  destruct (studio_workers agents) as [|[visual|] [|[gameplay|] [|[quality|] [|]]]]; try done.
  apply bind_ok in Hp as ([s y] & Es & Hp). apply bind_ok in Hp as ([sc yc] & Ec & Hp).
  apply bind_ok in Hp as (tasks & Hc & [= <-]).
  cbn [zip zip_with studio_roles collect] in Hc. res_inv. eauto 20.
Qed.

Lemma handoff_shape request root tokens cost role a t :
  handoff_task request root tokens cost role a = Ok t →
  pt_key t = role_key role ∧ pt_assigned_agent_id t = agent_id a ∧
  tc_budget_tokens (pt_contract t) = tokens ∧ tc_budget_cost_microusd (pt_contract t) = cost ∧
  let path := root +:+ "/" +:+ role_key role +:+ ".md" in
  tc_write_scope (pt_contract t) = [path] ∧
  tc_deliverable (pt_contract t) = Some (DeliverableSpec DeliverableForm.TypedArtifactSet false [path]).
Proof.
  unfold handoff_task. intros (path & (-> & _)%handoff_path_ok & [= <-])%bind_ok. done.
Qed.

Lemma studio_split_positive t s y :
  studio_budget_split t = Ok (s, y) → (1 ≤ s)%Z ∧ (1 ≤ y)%Z ∧ (s + (s + (s + (y + 0))) = t)%Z.
Proof.
  unfold studio_budget_split. intros Hs. res_inv.
  match goal with H : checked_i64 _ = Some _ |- _ => apply checked_i64_spec in H as [-> _] end.
  rewrite Z.quot_div_nonneg by lia.
  pose proof (Z.div_mod (t * 3) 20 ltac:(lia)). pose proof (Z.mod_pos_bound (t * 3) 20 ltac:(lia)). lia.
Qed.

Lemma role_reserved agents i role w a :
  studio_roles !! i = Some role → studio_workers agents !! i = Some (Some w) →
  a ∈ studio_candidates agents → agent_role a = role_key role →
  ∃ w', w' ∈ studio_candidates agents ∧ agent_id w' = agent_id w ∧ agent_role w' = role_key role.
Proof.
  intros Hr Hw Ha Hrole. set (candidates := studio_candidates agents) in *.
  destruct (find (λ a, seqb (agent_role a) (role_key role)) candidates) as [w'|] eqn:Ef.
  - assert (reserved_workers candidates !! i = Some (Some w')) as Hres
      by (unfold reserved_workers; by rewrite list_lookup_fmap, Hr; simpl; rewrite Ef).
    unfold studio_workers in Hw. fold candidates in Hw.
    rewrite (fill_workers_keeps _ _ _ _ _ Hres) in Hw. injection Hw as <-.
    apply find_some in Ef as [Hin ?%seqb_eq]. exists w'. split; [by apply list_elem_of_In | done].
  - apply list_elem_of_In in Ha. eapply find_none in Ef; [| exact Ha].
    cbv beta in Ef. by rewrite Hrole, seqb_refl in Ef.
Qed.

(** The fields of a contract a strategy built. *)
Ltac contract_fields :=
  constructor; cbn [contract with_deliverable with_settings with_secrets with_cost with_references
    with_tests with_authority pt_contract tc_objective tc_expected_output tc_source_repository
    tc_source_base_ref tc_source_base_commit tc_escalation tc_acceptance_tests tc_allowed_tools
    tc_prohibited_actions tc_references tc_write_scope tc_budget_tokens tc_budget_cost_microusd
    tc_deliverable tc_model tc_reasoning_effort specialist_task integration_task fst snd app].

Section strategies_accepted.
Context (request : planning_request) (agents : list agent).
Context (Hreq : request_ok request) (Hids : NoDup (agent_id <$> agents)).

Lemma tokens_bounds d :
  (4 ≤ d ≤ 2000000)%Z → (4 ≤ default d (rq_budget_tokens request) ≤ 2000000)%Z.
Proof using Hreq.
  pose proof (rok_tokens _ Hreq) as H. destruct (rq_budget_tokens request); [| done].
  simpl. by apply in_range_spec in H.
Qed.
Lemma cost_bounds d :
  (4 ≤ d ≤ 10000000)%Z → (4 ≤ default d (rq_budget_cost_microusd request) ≤ 10000000)%Z.
Proof using Hreq.
  pose proof (rok_cost _ Hreq) as H. destruct (rq_budget_cost_microusd request); [| done].
  simpl. by apply in_range_spec in H.
Qed.

Lemma provider_settings_ok adapter : settings_ok (provider_settings request adapter) = true.
Proof using Hreq. unfold provider_settings. case_bool_decide; [apply (rok_settings _ Hreq) | done]. Qed.

Lemma provider_settings_fake :
  provider_settings request "fake-process" = (None, None).
Proof using Hreq.
  unfold provider_settings. case_bool_decide as E; [| done].
  destruct (rok_provider _ Hreq) as [[-> ->]|(adapter & E' & Hne)]; [done |]. congruence.
Qed.

Lemma requested_deliverable_eq c :
  tc_deliverable c = None → requested_deliverable request c = with_deliverable (rq_deliverable request) c.
Proof. intros Hc. unfold requested_deliverable. destruct (rq_deliverable request), c; simpl in *; by subst. Qed.

(** A plan of one root task that has the whole budget. *)
Lemma one_task_accepted strategy tokens cost t :
  pt_depends_on t = [] → pt_depth t = 0%Z → task_key_is_invalid (pt_key t) = false →
  tc_budget_tokens (pt_contract t) = tokens → tc_budget_cost_microusd (pt_contract t) = cost →
  (4 ≤ tokens ≤ 2000000)%Z → (4 ≤ cost ≤ 10000000)%Z →
  validate_task (agents_by_id agents) t = Ok tt →
  plan_accepted agents (TaskGraphPlan strategy 1 0 tokens cost [] [t]).
Proof.
  intros Hdeps Hdepth Hkey <- <- Ht Hc Hv. constructor; simpl; try lia.
  - unfold vec_len. simpl. lia.
  - apply NoDup_singleton.
  - intros t' ->%list_elem_of_singleton. split_and!; [done | done | | lia].
    unfold depth_declared. rewrite Hdeps, Hdepth. split_and!; [set_solver | by left | done].
Qed.

Lemma artifact_policy_valid key : validate_verification_policy key artifact_policy = Ok tt.
Proof. done. Qed.

Lemma single_accepted plan :
  single_task_plan request agents = Ok plan → plan_accepted agents plan.
Proof using Hreq Hids.
  unfold single_task_plan. intros (a & Ha%with_context_ok & Hp)%bind_ok.
  apply candidate_found in Ha as (Hin & _ & Hw). injection Hp as <-.
  pose proof (tokens_bounds DEFAULT_SINGLE_TASK_BUDGET_TOKENS ltac:(done)) as Ht.
  pose proof (cost_bounds 1000000 ltac:(done)) as Hc.
  rewrite requested_deliverable_eq by done.
  apply one_task_accepted; try done. eapply task_valid; try done.
  - intros Hfake. apply andb_true_iff in Hw as [_ Hw]. destruct (rok_provider _ Hreq) as [?|(ad & Had & Hne)]; [done |].
    rewrite Had in Hw. apply seqb_eq in Hw. congruence.
  - contract_fields; [by rewrite nonblank_head | done | lia | lia | done | | | done | done].
    + apply (rok_deliverable _ Hreq).
    + apply (rok_settings _ Hreq).
  - apply (rok_secrets _ Hreq).
Qed.

Lemma verification_accepted strategy instruction policy plan :
  (∀ rest, nonblank (instruction +:+ rest) = true) →
  validate_verification_policy "verify" policy = Ok tt →
  verification_plan strategy request agents instruction policy = Ok plan → plan_accepted agents plan.
Proof using Hreq Hids.
  unfold verification_plan. intros Hi Hpol (a & Ha%with_context_ok & Hp)%bind_ok.
  apply candidate_found in Ha as (Hin & _ & Hw). injection Hp as <-.
  apply andb_true_iff in Hw as [_ Hw%seqb_eq].
  pose proof (tokens_bounds 50000 ltac:(done)) as Ht. pose proof (cost_bounds 500000 ltac:(done)) as Hc.
  rewrite Hw. unfold normalize_for_adapter. rewrite seqb_refl.
  apply one_task_accepted; try done. eapply task_valid; try done.
  contract_fields; [by rewrite Hi | done | lia | lia | done | | done | done | done].
  apply (rok_deliverable _ Hreq).
Qed.

(** Root tasks and one final task that depends on all of them. *)
Lemma fan_in_accepted strategy nodes tokens cost roots final :
  roots ≠ [] → (∀ t, t ∈ roots → pt_depends_on t = [] ∧ pt_depth t = 0%Z) →
  pt_depends_on final = pt_key <$> roots → pt_depth final = 1%Z →
  NoDup (pt_key <$> roots ++ [final]) → (vec_len (roots ++ [final]) ≤ nodes ≤ 8)%Z →
  (∀ t, t ∈ roots ++ [final] → task_key_is_invalid (pt_key t) = false ∧
     validate_task (agents_by_id agents) t = Ok tt) →
  (1 ≤ tokens ≤ 2000000)%Z → (1 ≤ cost ≤ 50000000)%Z →
  (foldr Z.add 0 ((tc_budget_tokens ∘ pt_contract) <$> roots ++ [final]) ≤ tokens)%Z →
  (foldr Z.add 0 ((tc_budget_cost_microusd ∘ pt_contract) <$> roots ++ [final]) ≤ cost)%Z →
  plan_accepted agents (TaskGraphPlan strategy nodes 1 tokens cost [] (roots ++ [final])).
Proof.
  intros Hne Hroots Hdeps Hdepth Hdup Hnodes Hall Ht Hc Hst Hsc.
  constructor; cbn [plan_tasks plan_max_nodes plan_max_depth plan_budget_tokens
    plan_budget_cost_microusd]; try done; try lia.
  - split; [| lia]. unfold vec_len. rewrite length_app. simpl. lia.
  - intros t Hin. destruct (Hall t Hin) as [Hk Hv].
    apply elem_of_app in Hin as [Hin| ->%list_elem_of_singleton].
    + destruct (Hroots t Hin) as [Ed E0]. unfold depth_declared. rewrite Ed, E0.
      split_and!; [done | done | set_solver | by left | done | done].
    + unfold depth_declared. rewrite Hdeps, Hdepth. split_and!; [done | done | | | done | done].
      * intros k (t & -> & Hr)%list_elem_of_fmap_1. exists t. destruct (Hroots t Hr) as [_ ->].
        set_solver.
      * right. destruct roots as [|r roots]; [done |]. exists r.
        destruct (Hroots r ltac:(set_solver)) as [_ ->]. set_solver.
Qed.

Lemma parallel_split_exact t :
  (4 ≤ t ≤ 10000000)%Z →
  ∃ s y, parallel_split t = (s, y) ∧ (1 ≤ s)%Z ∧ (1 ≤ y)%Z ∧ (s + s + y = t)%Z.
Proof.
  intros Ht. unfold parallel_split, wrap_i64, i64_min.
  assert (∀ z, 0 ≤ z ≤ 20000000 → ((z - - 2 ^ 63) mod 2 ^ 64 + - 2 ^ 63 = z))%Z as Hw.
  { intros z Hz. rewrite Z.mod_small by lia. lia. }
  rewrite (Hw (t * 2)%Z) by lia. rewrite Z.quot_div_nonneg by lia.
  pose proof (Z.div_mod (t * 2) 7 ltac:(lia)) as Hd. pose proof (Z.mod_pos_bound (t * 2) 7 ltac:(lia)) as Hm.
  set (q := (t * 2 / 7)%Z) in *. assert (1 ≤ q)%Z by lia.
  replace (Z.max q 1) with q by lia. rewrite !Hw by (rewrite ?Hw by lia; lia).
  exists q, (Z.max (t - q * 2) 1). split_and!; [done | lia | lia | lia].
Qed.

Lemma swap_first_perm position workers : swap_first position workers ≡ₚ workers.
Proof.
  unfold swap_first. destruct workers as [|w ws]; [by destruct position |].
  destruct position as [|position]; [done |]. simpl.
  destruct (ws !! position) as [other|] eqn:E; [| done].
  rewrite <- (take_drop_middle ws position other E) at 2.
  rewrite insert_take_drop by (by eapply lookup_lt_Some).
  rewrite <- !Permutation_middle. apply perm_swap.
Qed.

Lemma parallel_workers_perm workers :
  parallel_workers request agents = Ok workers →
  workers ≡ₚ List.filter is_worker (ordered_candidates agents).
Proof.
  unfold parallel_workers. destruct (rq_preferred_adapter request); intros Hw; res_inv; [| done].
  apply swap_first_perm.
Qed.

Lemma parallel_worker_agent workers a :
  parallel_workers request agents = Ok workers → a ∈ workers → a ∈ agents.
Proof.
  intros Hw%parallel_workers_perm Ha. rewrite Hw in Ha.
  apply list_elem_of_In, filter_In in Ha as [Ha _]. by apply list_elem_of_In, candidate_elem in Ha as [? _].
Qed.

Lemma settings_for_fake a (settings := provider_settings request (agent_adapter a)) :
  agent_adapter a = "fake-process" → settings.1 = None ∧ settings.2 = None.
Proof using Hreq. intros E. unfold settings. by rewrite E, provider_settings_fake. Qed.

Lemma specialist_valid key a objective expected tokens cost :
  a ∈ agents → (∀ rest, nonblank (objective +:+ rest) = true) → nonblank expected = true →
  (1 ≤ tokens ≤ 2000000)%Z → (1 ≤ cost ≤ 10000000)%Z →
  validate_task (agents_by_id agents) (specialist_task request key a objective expected tokens cost) = Ok tt.
Proof using Hreq Hids.
  intros Hin Hobj Hexp Ht Hc. eapply (task_valid agents _ a); try done; [apply settings_for_fake |].
  contract_fields; [by rewrite Hobj, Hexp | done | done | done | done | done | | done | done].
  rewrite <- surjective_pairing. apply provider_settings_ok.
Qed.

Lemma parallel_accepted plan :
  parallel_specialists_plan request agents = Ok plan → plan_accepted agents plan.
Proof using Hreq Hids.
  unfold parallel_specialists_plan. intros (workers & Hw & Hp)%bind_ok.
  apply bind_ok in Hp as (first & H1%with_context_ok & Hp).
  apply bind_ok in Hp as (second & H2%with_context_ok & Hp).
  assert (first ∈ agents ∧ second ∈ agents) as [Hf Hs]
    by (split; eapply parallel_worker_agent; eauto using list_elem_of_lookup_2).
  pose proof (tokens_bounds 280000 ltac:(done)) as Ht. pose proof (cost_bounds 3000000 ltac:(done)) as Hc.
  set (synthesizer := default first _) in *.
  assert (synthesizer ∈ agents) as Hsyn.
  { unfold synthesizer. destruct (find _ _) as [m|] eqn:E; [| done].
    by apply candidate_found in E as [? _]. }
  destruct (parallel_split_exact (default 280000%Z (rq_budget_tokens request))) as (s & y & Es & ? & ? & ?); [lia |].
  destruct (parallel_split_exact (default 3000000%Z (rq_budget_cost_microusd request))) as (sc & yc & Ec & ? & ? & ?); [lia |].
  rewrite Es, Ec in Hp. injection Hp as <-. rewrite requested_deliverable_eq by done.
  apply (fan_in_accepted _ _ _ _ [_; _]); try done; try lia.
  - intros t [-> |[-> |[]%elem_of_nil]%elem_of_cons]%elem_of_cons; done.
  - apply (bool_decide_unpack _). vm_compute. done.
  - intros t Ht'. split.
    { repeat (apply elem_of_cons in Ht' as [->|Ht']; [done |]). by apply elem_of_nil in Ht'. }
    apply elem_of_cons in Ht' as [->|Ht'];
      [apply specialist_valid; [done | intros; by apply nonblank_head | done | lia | lia] |].
    apply elem_of_cons in Ht' as [->|Ht'];
      [apply specialist_valid; [done | intros; by apply nonblank_head | done | lia | lia] |].
    apply list_elem_of_singleton in Ht' as ->.
    eapply (task_valid agents _ synthesizer); try done; [apply settings_for_fake |].
    contract_fields; [by rewrite nonblank_head | done | lia | lia | done | | | done | done].
    + apply (rok_deliverable _ Hreq).
    + rewrite <- surjective_pairing. apply provider_settings_ok.
  - cbn [fmap list_fmap foldr app compose pt_contract specialist_task]. simpl. lia.
  - simpl. lia.
Qed.

Lemma studio_split_exact t :
  (4 ≤ t ≤ 10000000)%Z →
  ∃ s y, studio_budget_split t = Ok (s, y) ∧ (1 ≤ s ≤ y)%Z ∧ (s + s + s + y = t)%Z.
Proof.
  intros Ht. unfold studio_budget_split. replace (t <? 4)%Z with false by lia.
  rewrite (proj2 (checked_i64_spec (t * 3) (t * 3))) by (unfold i64_min, i64_max; lia).
  cbn [bail_if with_context mbind result_bind]. rewrite Z.quot_div_nonneg by lia.
  pose proof (Z.div_mod (t * 3) 20 ltac:(lia)). pose proof (Z.mod_pos_bound (t * 3) 20 ltac:(lia)).
  eexists _, _. split; [done |]. lia.
Qed.

Lemma handoff_policy_valid key path :
  repository_relative_path_is_valid path = true → (str_len path ≤ 500)%Z →
  validate_verification_policy key (handoff_policy path) = Ok tt.
Proof.
  intros Hv Hl. unfold validate_verification_policy, handoff_policy. cbn [vp_checks vp_manual_gate].
  cbn [for_each validate_check]. unfold validate_relative_path. rewrite Hv.
  cbn [negb bail_if mbind result_bind Z.eqb].
  replace (command_check_is_invalid "node" _ 5000) with false; [done |]. symmetry.
  unfold command_check_is_invalid. cbn [existsb]. replace (2000 <? str_len path)%Z with false by lia.
  done.
Qed.

Lemma handoff_valid root tokens cost role a t :
  role ∈ studio_roles → a ∈ studio_candidates agents →
  (1 ≤ tokens ≤ 2000000)%Z → (1 ≤ cost ≤ 10000000)%Z →
  handoff_task request root tokens cost role a = Ok t →
  validate_task (agents_by_id agents) t = Ok tt ∧ pt_key t = role_key role ∧
  pt_depends_on t = [] ∧ pt_depth t = 0%Z ∧ pt_assigned_agent_id t = agent_id a ∧
  tc_budget_tokens (pt_contract t) = tokens ∧ tc_budget_cost_microusd (pt_contract t) = cost ∧
  tc_write_scope (pt_contract t) = [root +:+ "/" +:+ role_key role +:+ ".md"].
Proof using Hreq Hids.
  intros Hrole (Hin & _ & _ & Had)%studio_candidate_elem Ht Hc (path & Hp & Hok)%bind_ok.
  apply handoff_path_ok in Hp as (-> & Hsafe & Hscope). injection Hok as <-.
  destruct (safe_path_entry _ Hsafe) as (Hv & Hentry & Hnb). set (path := root +:+ _) in *.
  split; [| done]. eapply (task_valid agents _ a); try done.
  - by rewrite Had.
  - contract_fields.
    + apply andb_true_iff; split; [apply andb_true_iff; split | done]; [by apply nonblank_head | apply Hnb].
    + done.
    + done.
    + done.
    + done.
    + unfold deliverable_ok. cbn [ds_paths forallb]. by rewrite Hv.
    + apply (rok_settings _ Hreq).
    + apply forallb_forall. intros x Hx.
      assert (entry_ok (role_acceptance role) = true) as Hacc.
      { clear -Hrole. repeat (apply elem_of_cons in Hrole as [->|Hrole]; [done |]). set_solver. }
      repeat (destruct Hx as [<-|Hx]; [first [exact Hentry | exact Hacc | done] |]). done.
    + cbn [forallb]. by rewrite Hscope.
  - apply handoff_policy_valid; [done |]. unfold entry_ok in Hentry. res_inv. lia.
Qed.

Lemma studio_accepted plan :
  studio_swarm_plan request agents = Ok plan → plan_accepted agents plan.
Proof using Hreq Hids.
  intros (visual & gameplay & quality & s & y & sc & yc & t1 & t2 & t3 & Ew & Es & Ec & H1 & H2 & H3 & ->)%studio_shape.
  assert (visual ∈ studio_candidates agents ∧ gameplay ∈ studio_candidates agents ∧
          quality ∈ studio_candidates agents) as (Hv & Hg & Hq)
    by (split_and!; apply studio_worker_elem; rewrite Ew; set_solver).
  pose proof (tokens_bounds 2000000 ltac:(done)) as Ht. pose proof (cost_bounds 6000000 ltac:(done)) as Hc.
  destruct (studio_split_exact (default 2000000%Z (rq_budget_tokens request))) as (? & ? & Es' & ? & ?); [lia |].
  destruct (studio_split_exact (default 6000000%Z (rq_budget_cost_microusd request))) as (? & ? & Ec' & ? & ?); [lia |].
  rewrite Es in Es'. rewrite Ec in Ec'. injection Es' as <- <-. injection Ec' as <- <-.
  apply handoff_valid in H1 as (Hv1 & Hk1 & Hd1 & Hz1 & _ & Hb1 & Hc1 & _); [| set_solver | done | lia | lia].
  apply handoff_valid in H2 as (Hv2 & Hk2 & Hd2 & Hz2 & _ & Hb2 & Hc2 & _); [| set_solver | done | lia | lia].
  apply handoff_valid in H3 as (Hv3 & Hk3 & Hd3 & Hz3 & _ & Hb3 & Hc3 & _); [| set_solver | done | lia | lia].
  apply fan_in_accepted; try done; try lia.
  - intros t Hin. repeat (apply elem_of_cons in Hin as [->|Hin]; [done |]). set_solver.
  - rewrite fmap_app, !fmap_cons, Hk1, Hk2, Hk3. apply (bool_decide_unpack _). vm_compute. done.
  - intros t Hin. repeat (apply elem_of_cons in Hin as [->|Hin]; [rewrite ?Hk1, ?Hk2, ?Hk3; done |]).
    apply list_elem_of_singleton in Hin as ->. split; [done |].
    destruct (studio_candidate_elem _ _ Hg) as (Hin & _ & _ & Had).
    eapply (task_valid agents _ gameplay); try done; [by rewrite Had |].
    contract_fields; [| done | lia | lia | done | | | | done].
    + apply andb_true_iff; split; [apply andb_true_iff; split | done]; [by apply nonblank_head | done].
    + apply (rok_deliverable _ Hreq).
    + apply (rok_settings _ Hreq).
    + rewrite !fmap_cons, Hk1, Hk2, Hk3. done.
  - simpl. lia.
  - simpl. lia.
Qed.
End strategies_accepted.

(** ** Lemmas: the registry *)
Lemma strategy_cases strategy_id strategy :
  strategies strategy_id = Some strategy →
  strategy = single_task_plan ∧ strategy_id = "single" ∨
  strategy = parallel_specialists_plan ∧ strategy_id = "parallel-specialists" ∨
  strategy = studio_swarm_plan ∧ strategy_id = "studio-swarm" ∨
  ∃ instruction policy,
    strategy = (λ request agents, verification_plan strategy_id request agents instruction policy) ∧
    (∀ rest, nonblank (instruction +:+ rest) = true) ∧
    validate_verification_policy "verify" policy = Ok tt.
Proof.
  unfold strategies.
  repeat (case_match eqn:E; [apply seqb_eq in E as ->; intros [= <-] | clear E]); [by auto | by auto | by auto | ..].
  5: done.
  all: do 3 right; do 2 eexists; split; [reflexivity | split; [intros rest; by apply nonblank_head | done]].
Qed.

Lemma strategy_accepted strategy_id strategy request agents p :
  request_ok request → NoDup (agent_id <$> agents) → strategies strategy_id = Some strategy →
  strategy request agents = Ok p → plan_accepted agents p.
Proof.
  intros Hreq Hids Hs Hp.
  destruct (strategy_cases _ _ Hs) as [[-> _]|[[-> _]|[[-> _]|(instruction & policy & -> & Hi & Hv)]]].
  - by eapply single_accepted.
  - by eapply parallel_accepted.
  - by eapply studio_accepted.
  - by eapply verification_accepted.
Qed.

(** Every task is assigned to a candidate that speaks its adapter. *)
Definition assigned_live (agents : list agent) (t : planned_task) : Prop :=
  ∃ a, a ∈ agents ∧ is_candidate a = true ∧ pt_assigned_agent_id t = agent_id a ∧
       pt_required_adapter t = agent_adapter a.

Lemma parallel_live request agents p :
  parallel_specialists_plan request agents = Ok p →
  plan_strategy p = "parallel-specialists" ∧ Forall (assigned_live agents) (plan_tasks p).
Proof.
  unfold parallel_specialists_plan. intros (workers & Hw & Hp)%bind_ok.
  apply bind_ok in Hp as (first & H1%with_context_ok & Hp).
  apply bind_ok in Hp as (second & H2%with_context_ok & Hp).
  assert (∀ a, a ∈ workers → a ∈ agents ∧ is_candidate a = true) as Hc.
  { intros a Ha. rewrite (parallel_workers_perm _ _ _ Hw) in Ha.
    apply list_elem_of_In, filter_In in Ha as [Ha _]. by apply list_elem_of_In, candidate_elem in Ha. }
  destruct (Hc first ltac:(by eapply list_elem_of_lookup_2)) as [Hf1 Hf2].
  destruct (Hc second ltac:(by eapply list_elem_of_lookup_2)) as [Hs1 Hs2].
  set (synthesizer := default first _) in *.
  assert (synthesizer ∈ agents ∧ is_candidate synthesizer = true) as [Hy1 Hy2].
  { unfold synthesizer. destruct (find _ _) as [m|] eqn:E; [| done].
    by apply candidate_found in E as (? & ? & _). }
  destruct (parallel_split _) as [s y], (parallel_split _) as [sc yc]. injection Hp as <-.
  split; [done |]. apply Forall_cons. split; [by exists first |].
  apply Forall_cons. split; [by exists second |]. apply Forall_singleton. by exists synthesizer.
Qed.

Lemma studio_live request agents p :
  studio_swarm_plan request agents = Ok p →
  plan_strategy p = "studio-swarm" ∧ Forall (assigned_live agents) (plan_tasks p).
Proof.
  intros (visual & gameplay & quality & s & y & sc & yc & t1 & t2 & t3 & Ew & _ & _ & H1 & H2 & H3 & ->)%studio_shape.
  assert (∀ a, Some a ∈ studio_workers agents → a ∈ agents ∧ is_candidate a = true) as Hc.
  { intros a Ha. by apply studio_worker_elem, studio_candidate_elem in Ha as (? & ? & _). }
  rewrite Ew in Hc. unfold handoff_task in *. res_inv. split; [done |].
  destruct (Hc visual ltac:(set_solver)), (Hc gameplay ltac:(set_solver)), (Hc quality ltac:(set_solver)).
  apply Forall_cons. split; [by exists visual |]. apply Forall_cons. split; [by exists gameplay |].
  apply Forall_cons. split; [by exists quality |]. apply Forall_singleton. by exists gameplay.
Qed.

Lemma strategy_live strategy_id strategy request agents p :
  strategies strategy_id = Some strategy → strategy request agents = Ok p →
  plan_strategy p = strategy_id ∧ Forall (assigned_live agents) (plan_tasks p).
Proof.
  intros Hs Hp.
  destruct (strategy_cases _ _ Hs) as [[-> ->]|[[-> ->]|[[-> ->]|(instruction & policy & -> & _)]]].
  - unfold single_task_plan in Hp. apply bind_ok in Hp as (a & Ha%with_context_ok & [= <-]).
    apply candidate_found in Ha as (? & ? & _). split; [done |].
    apply Forall_singleton. by exists a.
  - by apply parallel_live in Hp.
  - by apply studio_live in Hp.
  - unfold verification_plan in Hp. apply bind_ok in Hp as (a & Ha%with_context_ok & [= <-]).
    apply candidate_found in Ha as (? & ? & _). split; [done |].
    apply Forall_singleton. by exists a.
Qed.

Lemma set_max_attempts_live attempts agents p :
  Forall (assigned_live agents) (plan_tasks p) →
  Forall (assigned_live agents) (plan_tasks (set_max_attempts attempts p)).
Proof. destruct attempts; [| done]. intros Hf. by apply Forall_fmap. Qed.

(** Samples: a corp with a manager, a harness worker and three provider workers. *)
Definition sample_corp : list agent :=
  [Agent 1 "Mina" "manager" "github-copilot" AgentStatus.Idle None;
   Agent 2 "Ada" "engineer" "fake-process" AgentStatus.Idle None;
   Agent 3 "Bo" "engineer" "github-copilot" AgentStatus.Idle None;
   Agent 4 "Cy" "quality-verification" "github-copilot" AgentStatus.Idle None;
   Agent 5 "Di" "engineer" "github-copilot" AgentStatus.Working None].
Definition sample_request : planning_request :=
  PlanningRequest "Ship it" (Some "github-copilot") (Some "gpt-5") (Some "high") [] (Some 1000%Z)
    (Some 1001%Z) (Some 3%Z) None (Some "handoffs").

Lemma sample_request_ok : request_ok sample_request.
Proof. split; try done. right. by exists "github-copilot". Qed.

(** ** Properties *)

(** C37: the strategies and the gate agree: for agents with distinct ids and a
    request within the limits (a budget of at least four tokens and microdollars
    and at most two million tokens and ten dollars, valid attempts, deliverable,
    secrets, model and effort, and a model only together with a provider
    adapter), [validate_plan] never rejects what a strategy of the registry
    produces; the registry returns the strategy's own plan with the requested
    attempt limit, or the strategy's own error. *)
Theorem strategies_pass_validation strategy_id strategy request agents :
  request_ok request → NoDup (agent_id <$> agents) → strategies strategy_id = Some strategy →
  plan strategy_id request agents =
    Some (p ← strategy request agents; Ok (set_max_attempts (rq_max_task_attempts request) p)).
Proof.
  intros Hreq Hids Hs. unfold plan. rewrite Hs. destruct (strategy request agents) as [p|e] eqn:Hp; [| done].
  pose proof (strategy_accepted _ _ _ _ _ Hreq Hids Hs Hp) as Hacc.
  apply (set_max_attempts_accepted _ (rq_max_task_attempts request)) in Hacc; [| apply (rok_attempts _ Hreq)].
  apply validate_plan_accepted in Hacc. by rewrite Hacc.
Qed.

Lemma strategies_pass_validation_witness :
  plan "studio-swarm" sample_request sample_corp =
    Some (p ← studio_swarm_plan sample_request sample_corp; Ok (set_max_attempts (Some 3%Z) p)) ∧
  is_ok (studio_swarm_plan sample_request sample_corp) = true.
Proof.
  split; [| vm_compute; reflexivity].
  apply (strategies_pass_validation "studio-swarm" studio_swarm_plan sample_request sample_corp).
  - apply sample_request_ok.
  - apply (bool_decide_unpack _). vm_compute. exact I.
  - reflexivity.
Defined.

(** Whatever is asked for, a plan the registry returns is one of the named
    strategy, has passed the gate, and assigns every task to an agent of the corp
    that is neither offline nor retired and speaks the adapter the task requires. *)
Theorem registry_plans_are_live strategy_id request agents p :
  plan strategy_id request agents = Some (Ok p) →
  plan_strategy p = strategy_id ∧ validate_plan p agents = Some (Ok tt) ∧
  ∀ t, t ∈ plan_tasks p → ∃ a, a ∈ agents ∧ pt_assigned_agent_id t = agent_id a ∧
    pt_required_adapter t = agent_adapter a ∧
    agent_status_of a ≠ AgentStatus.Offline ∧ agent_retired_at a = None.
Proof.
  unfold plan. destruct (strategies strategy_id) as [strategy|] eqn:Hs; [| done].
  destruct (strategy request agents) as [q|] eqn:Hq; [| done].
  destruct (validate_plan (set_max_attempts _ q) agents) as [[[]|]|] eqn:Hv; try done.
  intros [= <-]. destruct (strategy_live _ _ _ _ _ Hs Hq) as [Hid Hlive].
  split_and!; [by destruct (rq_max_task_attempts request) | done |].
  apply (set_max_attempts_live (rq_max_task_attempts request)) in Hlive. rewrite Forall_forall in Hlive.
  intros t Ht. destruct (Hlive t Ht) as (a & Ha & Hc & ? & ?). exists a. unfold is_candidate in Hc.
  apply andb_true_iff in Hc as [Hc1%negb_true_iff%bool_decide_eq_false Hc2%negb_true_iff].
  split_and!; try done. by destruct (agent_retired_at a).
Qed.

Lemma registry_plans_are_live_witness :
  ∃ p, plan "single" sample_request sample_corp = Some (Ok p) ∧ plan_strategy p = "single".
Proof.
  eexists. split; [vm_compute; reflexivity |].
  eapply (registry_plans_are_live "single" sample_request sample_corp). vm_compute. reflexivity.
Defined.

(** A studio plan is three parallel handoffs and one integration: the three
    specialists are different agents, a role that some candidate was staffed for
    goes to an agent with that role, each handoff may write exactly one file,
    which is named after its role and is its declared deliverable, the
    integration depends on all three and runs on the gameplay agent, and the four
    budgets are positive and add up to the requested totals exactly. *)
Theorem studio_plan_shape request agents p :
  studio_swarm_plan request agents = Ok p →
  ∃ t1 t2 t3 t4, plan_tasks p = [t1; t2; t3; t4] ∧
    pt_key <$> [t1; t2; t3] = role_key <$> studio_roles ∧
    NoDup (pt_assigned_agent_id <$> [t1; t2; t3]) ∧
    pt_depends_on t4 = pt_key <$> [t1; t2; t3] ∧ pt_assigned_agent_id t4 = pt_assigned_agent_id t2 ∧
    (∀ t, t ∈ [t1; t2; t3] → ∃ path,
       path = default "handoffs" (rq_handoff_root request) +:+ "/" +:+ pt_key t +:+ ".md" ∧
       tc_write_scope (pt_contract t) = [path] ∧
       tc_deliverable (pt_contract t) = Some (DeliverableSpec DeliverableForm.TypedArtifactSet false [path])) ∧
    (∀ t a, t ∈ [t1; t2; t3] → a ∈ studio_candidates agents → agent_role a = pt_key t →
       ∃ w, w ∈ studio_candidates agents ∧ agent_id w = pt_assigned_agent_id t ∧ agent_role w = pt_key t) ∧
    Forall (λ t, 1 ≤ tc_budget_tokens (pt_contract t) ∧ 1 ≤ tc_budget_cost_microusd (pt_contract t))%Z
      (plan_tasks p) ∧
    foldr Z.add 0%Z ((tc_budget_tokens ∘ pt_contract) <$> plan_tasks p) = plan_budget_tokens p ∧
    foldr Z.add 0%Z ((tc_budget_cost_microusd ∘ pt_contract) <$> plan_tasks p) = plan_budget_cost_microusd p.
Proof.
  intros (visual & gameplay & quality & s & y & sc & yc & t1 & t2 & t3 & Ew & Es & Ec & H1 & H2 & H3 & ->)%studio_shape.
  exists t1, t2, t3, (integration_task request y yc [t1; t2; t3] gameplay).
  pose proof (studio_workers_distinct agents) as Hdis. rewrite Ew in Hdis.
  apply handoff_shape in H1 as (K1 & A1 & B1 & C1 & S1), H2 as (K2 & A2 & B2 & C2 & S2), H3 as (K3 & A3 & B3 & C3 & S3).
  apply studio_split_positive in Es as (? & ? & ?), Ec as (? & ? & ?). split_and!; try done.
  - by rewrite !fmap_cons, K1, K2, K3.
  - by rewrite !fmap_cons, A1, A2, A3.
  - intros t Ht. repeat (apply elem_of_cons in Ht as [->|Ht]; [rewrite ?K1, ?K2, ?K3; eauto |]). set_solver.
  - intros t a Ht Ha Hr.
    repeat (apply elem_of_cons in Ht as [->|Ht]; [rewrite ?K1, ?K2, ?K3, ?A1, ?A2, ?A3 in * |]); [| | | set_solver].
    + by apply (role_reserved agents 0 visual_direction visual a); try rewrite Ew.
    + by apply (role_reserved agents 1 gameplay_systems gameplay a); try rewrite Ew.
    + by apply (role_reserved agents 2 quality_verification quality a); try rewrite Ew.
  - cbn [plan_tasks app]. repeat (apply Forall_cons; split; [rewrite ?B1, ?B2, ?B3, ?C1, ?C2, ?C3; simpl; lia |]).
    by apply Forall_nil.
  - simpl. lia.
  - simpl. lia.
Qed.

Lemma studio_plan_shape_witness :
  ∃ p t1 t2 t3 t4, studio_swarm_plan sample_request sample_corp = Ok p ∧
    plan_tasks p = [t1; t2; t3; t4] ∧ pt_depends_on t4 = pt_key <$> [t1; t2; t3].
Proof.
  eexists. edestruct (studio_plan_shape sample_request sample_corp) as (t1 & t2 & t3 & t4 & Ht & _ & _ & Hd & _).
  - vm_compute. reflexivity.
  - exists t1, t2, t3, t4. split; [vm_compute; reflexivity | split; [exact Ht | exact Hd]].
Defined.
