(* ===== verification/FactoryPolicy.v ===== *)
(** * The Factory policy (crates/crony-store/src/lib.rs, with
    factory_attempt_policy.rs and crony-domain's factory_connection.rs and
    planned_attempts.rs)

    The immutable policy snapshot of a Factory work item, its normalisation,
    and the check that a task graph stays inside it.  UUID text, the length of
    a serialised JSON value and the decoding of a verification policy belong to
    libraries and generated code: they are the operations of the class
    [Serde]. *)
From S2P Require Import Prelude Text Json Domain Planning.
From Stdlib Require Import Ascii DecimalString DecimalN.

(** ** What the libraries provide *)
Class Serde := {
  uuid_parse_str : string → option uuid;
  uuid_to_string : uuid → string;
  json_byte_len : json → Z;
  decode_verification_policy : json → option verification_policy;
  timestamp_display : timestamp → string;
  timestamp_rfc3339 : timestamp → string;
}.

(** [Uuid::parse_str] reads back what [Uuid::to_string] prints. *)
Class SerdeLaws (S : Serde) := uuid_round_trip u : uuid_parse_str (uuid_to_string u) = Some u.

(** A concrete library, for the witnesses. *)
Definition sample_serde : Serde := {|
  uuid_parse_str s := N.of_uint <$> NilEmpty.uint_of_string s;
  uuid_to_string u := NilEmpty.string_of_uint (N.to_uint u);
  json_byte_len _ := 512%Z;
  decode_verification_policy _ := Some (VerificationPolicy [CheckArtifact 1] None);
  timestamp_display := show_int;
  timestamp_rfc3339 := show_int;
|}.

#[global] Instance sample_serde_laws : SerdeLaws sample_serde.
Proof.
  intros u. unfold uuid_parse_str, uuid_to_string. simpl.
  rewrite NilEmpty.usu. simpl. by rewrite Unsigned.of_to.
Qed.

(** ** Text *)
Definition normalize_factory_text (value field : string) (max_len : Z) : result string :=
  let value := trim value in
  bail_if (is_empty value) (field +:+ " cannot be empty");;
  bail_if (max_len <? str_len value)%Z
    (field +:+ " cannot exceed " +:+ show_int max_len +:+ " bytes");;
  bail_if (any_char is_control value) (field +:+ " cannot contain control characters");;
  Ok value.

Definition normalize_factory_identifier (value field : string) (max_len : Z) : result string :=
  value ← normalize_factory_text value field max_len;
  bail_if (any_char is_whitespace value) (field +:+ " cannot contain whitespace");;
  Ok value.

Definition normalize_github_component (value field : string) (max_len : Z) : result string :=
  value ← normalize_factory_text value field max_len;
  bail_if (negb (all_chars (λ c, is_ascii_alphanumeric c || one_of "-_." c) value))
    (field +:+ " may contain only ASCII letters, numbers, hyphen, underscore, or period");;
  Ok (to_ascii_lowercase value).

Definition normalize_factory_idempotency_key (value : string) : result string :=
  normalize_factory_identifier value "factory idempotency key" 240.

Definition validate_factory_lease_seconds (value : Z) : result Z :=
  bail_if (negb (in_range 30 3600 value)) "factory claim lease must be between 30 and 3600 seconds";;
  Ok value.

Definition normalize_mission_title (value : string) : result string :=
  normalize_factory_text value "mission title" 240.

Definition normalize_mission_description (value : string) : result string :=
  let value := replace carriage_return newline (replace (carriage_return +:+ newline) newline value) in
  let value := trim value in
  bail_if (100000 <? str_len value)%Z "mission description cannot exceed 100000 bytes";;
  bail_if (any_char (λ c, is_control c && negb ((c =? 10) || (c =? 9))%Z) value)
    "mission description cannot contain unsupported control characters";;
  Ok value.

(** ** Reading a policy *)
Definition factory_policy_string_list (policy : json_map) (key : string) (allow_empty : bool) :
    result (list string) :=
  values ← with_context (obj_get key policy ≫= as_array)
    ("factory policy " +:+ key +:+ " must be an array");
  bail_if ((negb allow_empty && vec_is_empty values) || (64 <? vec_len values)%Z)
    ("factory policy " +:+ key +:+ " must contain between 1 and 64 entries");;
  collect (λ value,
    with_context
      (s ← as_str value; if negb (is_empty (trim s)) && (str_len s <=? 500)%Z then Some s else None)
      ("factory policy " +:+ key +:+ " contains an invalid entry")) values.

Definition factory_policy_string_array (policy : json_map) (key : string) : result (list string) :=
  factory_policy_string_list policy key false.

Definition factory_policy_optional_string (policy : json_map) (key : string) : result (option string) :=
  match obj_get key policy with
  | Some JNull => Ok None
  | Some (JStr value) =>
      if negb (is_empty (trim value)) && (str_len value <=? 128)%Z then Ok (Some value)
      else Err ("factory policy " +:+ key +:+ " must be null or a non-empty string")
  | _ => Err ("factory policy " +:+ key +:+ " must be null or a non-empty string")
  end.

Definition factory_policy_required_string (policy : json_map) (key : string) (max_len : Z) :
    result string :=
  with_context
    (s ← obj_get key policy ≫= as_str;
     if negb (is_empty (trim s)) && (str_len s <=? max_len)%Z then Some s else None)
    ("factory policy " +:+ key +:+ " must be a non-empty string").

Definition factory_policy_positive_i64 (policy : json_map) (key : string) : result Z :=
  with_context
    (v ← obj_get key policy ≫= as_i64; if (0 <? v)%Z then Some v else None)
    ("factory policy " +:+ key +:+ " must be a positive integer").

Definition policy_object (policy : json) : result json_map :=
  with_context (as_object policy) "factory policy snapshot must be a JSON object".

Definition factory_max_task_attempts (policy : json) : result (option Z) :=
  policy ← policy_object policy;
  match obj_get "max_task_attempts" policy with
  | None | Some JNull => Ok None
  | Some value =>
      match as_i64 value with
      | Some v =>
          if in_range 1 MAX_TASK_ATTEMPTS v then Ok (Some v)
          else Err "factory max_task_attempts must be an integer between 1 and 3"
      | None => Err "factory max_task_attempts must be an integer between 1 and 3"
      end
  end.

Definition factory_workspace_connection_id `{Serde} (policy : json) : result (option uuid) :=
  policy ← policy_object policy;
  match obj_get "workspace_connection_id" policy with
  | None | Some JNull => Ok None
  | Some (JStr value) =>
      match uuid_parse_str value with
      | Some id =>
          if negb (is_nil id) then Ok (Some id)
          else Err "factory workspace_connection_id must be a non-nil UUID"
      | None => Err "factory workspace_connection_id must be a non-nil UUID"
      end
  | Some _ => Err "factory workspace_connection_id must be a UUID or null"
  end.

(** ** Git references *)
Definition validate_factory_base_ref (value : string) : result unit :=
  bail_if (starts_with "-" value || starts_with "/" value || ends_with "/" value
           || ends_with "." value || contains ".." value || contains "@{" value
           || any_char is_control value || any_char (one_of "\ ~^:?*[") value)
    "factory source_base_ref is not a safe Git ref".

Definition validate_factory_branch_ref (value : string) : result unit :=
  validate_factory_base_ref value;;
  bail_if (seqb value "HEAD" || contains "//" value
           || existsb (λ component, starts_with "." component || ends_with ".lock" component)
                (split_on "/"%char value))
    "publication branch is not a valid Git branch name".

Definition validate_factory_publication_base_ref (value : string) : result unit :=
  validate_factory_base_ref value;;
  if seqb value "HEAD" then Ok tt
  else
    match strip_prefix "refs/heads/" value with
    | Some branch =>
        bail_if (is_empty branch) "factory publication base ref must be HEAD or a branch ref";;
        validate_factory_branch_ref branch
    | None =>
        bail_if (starts_with "refs/" value)
          "factory publication base ref must be HEAD or a branch ref";;
        validate_factory_branch_ref value
    end.

Definition validate_factory_base_commit (value : string) : result unit :=
  bail_if (negb ((str_len value =? 40) || (str_len value =? 64))%Z
           || negb (all_bytes is_ascii_hexdigit value))
    "factory source_base_commit must be a full 40- or 64-character hexadecimal Git object id".

(** ** The source of a work item *)
Record factory_source := FactorySource {
  src_project_owner : string;
  src_project_number : Z;
  src_project_item_id : string;
  src_repository_owner : string;
  src_repository_name : string;
  src_issue_number : Z;
  src_issue_node_id : string;
  src_issue_url : string;
  src_title : string;
  src_revision : string;
}.
#[global] Instance factory_source_eq : EqDecision factory_source.
Proof. solve_decision. Defined.

Definition issue_url_of (repository_owner repository_name : string) (issue_number : Z) : string :=
  "https://github.com/" +:+ repository_owner +:+ "/" +:+ repository_name +:+ "/issues/"
  +:+ show_int issue_number.

Definition normalize_factory_source (input : factory_source) : result factory_source :=
  bail_if (src_project_number input <=? 0)%Z "factory source project number must be positive";;
  bail_if (src_issue_number input <=? 0)%Z "factory source issue number must be positive";;
  project_owner ← normalize_github_component (src_project_owner input) "source project owner" 100;
  project_item_id ← normalize_factory_identifier (src_project_item_id input) "source project item id" 160;
  repository_owner ← normalize_github_component (src_repository_owner input) "source repository owner" 100;
  repository_name ← normalize_github_component (src_repository_name input) "source repository name" 100;
  issue_node_id ← normalize_factory_identifier (src_issue_node_id input) "source issue node id" 160;
  title ← normalize_factory_text (src_title input) "source issue title" 240;
  revision ← normalize_factory_text (src_revision input) "source issue revision" 160;
  issue_url ← normalize_factory_text (src_issue_url input) "source issue URL" 500;
  let expected_url := issue_url_of repository_owner repository_name (src_issue_number input) in
  bail_if (negb (eq_ignore_ascii_case (trim_end_matches "/"%char issue_url) expected_url))
    "source issue URL must identify the declared GitHub repository and issue";;
  Ok (FactorySource project_owner (src_project_number input) project_item_id repository_owner
        repository_name (src_issue_number input) issue_node_id expected_url title revision).

(** ** Verification policies of a mission (contract_revision.rs) *)
Definition mission_check_is_valid (check : verifier_check) : result unit :=
  match check with
  | CheckArtifact min_bytes => bail_if (min_bytes =? 0)%Z "artifact verifier requires a byte floor"
  | CheckFile path min_bytes | CheckScreenshot path min_bytes =>
      bail_if (negb (repository_relative_path_is_valid path) || (min_bytes =? 0)%Z)
        "file verifier is invalid"
  | CheckJsonSchema path required_keys =>
      bail_if (negb (repository_relative_path_is_valid path) || required_keys_are_invalid required_keys)
        "JSON schema verifier is invalid"
  | CheckCommand program args timeout_ms | CheckTest program args timeout_ms =>
      bail_if (is_empty (trim program) || (256 <? str_len program)%Z || starts_with "-" program
               || (32 <? vec_len args)%Z || existsb (λ arg, (2000 <? str_len arg)%Z) args
               || negb (in_range 100 60000 timeout_ms))
        "command verifier is invalid"
  end.

Definition validate_mission_verification_policy (policy : verification_policy) : result unit :=
  bail_if (vec_is_empty (vp_checks policy) || (16 <? vec_len (vp_checks policy))%Z)
    "mission contract revision verifier must contain between 1 and 16 checks";;
  for_each mission_check_is_valid (vp_checks policy);;
  match vp_manual_gate policy with
  | Some gate => bail_if (roles_are_invalid (gate_roles gate)) "manual verification gate is invalid"
  | None => Ok tt
  end.

(** ** The policy snapshot *)
Definition is_true_bool (v : option json) : bool :=
  match v ≫= as_bool with Some b => b | None => false end.
Definition is_false_bool (v : option json) : bool :=
  match v ≫= as_bool with Some b => negb b | None => false end.

(** [result.context(message)?] *)
Definition context_err {A} (r : result A) (message : string) : result A :=
  match r with Ok a => Ok a | Err _ => Err message end.

(** [option.filter(|value| !value.is_null())] *)
Definition non_null (v : option json) : option json :=
  match v with Some JNull => None | _ => v end.

Definition check_publication_policy (policy : json_map) : result unit :=
  match obj_get "publication" policy with
  | None => Ok tt
  | Some publication =>
      publication ← with_context (as_object publication)
        "factory publication policy must be a JSON object";
      if is_true_bool (obj_get "allowed" publication) then
        base_ref ← factory_policy_required_string publication "base_ref" 240;
        validate_factory_publication_base_ref base_ref
      else Ok tt
  end.

Definition check_policy_verification `{Serde} (policy : json_map) : result unit :=
  match non_null (obj_get "verification_policy" policy) with
  | None => Ok tt
  | Some value =>
      verification_policy ← with_context (decode_verification_policy value)
        "factory verification policy is invalid";
      context_err (validate_mission_verification_policy verification_policy)
        "factory verification policy is invalid"
  end.

Definition check_policy_write_scope (policy : json_map) : result unit :=
  match obj_get "write_scope" policy with
  | None => Ok tt
  | Some _ =>
      scopes ← factory_policy_string_array policy "write_scope";
      match find (λ scope, negb (write_scope_is_valid scope)) scopes with
      | Some scope => Err ("factory policy contains invalid write scope " +:+ scope)
      | None => Ok tt
      end
  end.

Definition upgrade_required (policy : json_map) : result bool :=
  match obj_get "source_commit_upgrade_required" policy with
  | None => Ok false
  | Some (JBool value) => Ok value
  | Some _ => Err "factory source_commit_upgrade_required must be a boolean"
  end.

(** Pin the source commit, or accept that a legacy policy has none. *)
Definition pin_source_commit (policy : json_map) : result json_map :=
  upgrade_required ← upgrade_required policy;
  match obj_get "source_base_commit" policy with
  | Some (JStr source_base_commit) =>
      if is_empty (trim source_base_commit)
      then Err "factory policy source_base_commit must be a non-empty string"
      else
        bail_if upgrade_required
          "factory source policy cannot be pinned and require a legacy upgrade";;
        let source_base_commit := to_ascii_lowercase source_base_commit in
        validate_factory_base_commit source_base_commit;;
        Ok (obj_insert "source_commit_upgrade_required" (JBool false)
              (obj_insert "source_base_commit" (JStr source_base_commit) policy))
  | None =>
      if upgrade_required then Ok policy
      else Err "factory policy source_base_commit must be a non-empty string"
  | Some _ => Err "factory policy source_base_commit must be a non-empty string"
  end.

Definition normalize_factory_policy `{Serde} (policy : json) : result json :=
  policy ← match policy with
           | JNull => Ok (JObj [])
           | JObj _ => Ok policy
           | _ => Err "factory policy snapshot must be a JSON object"
           end;
  connection_id ← factory_workspace_connection_id policy;
  factory_max_task_attempts policy;;
  policy ← policy_object policy;
  let policy := match connection_id with
    | Some id => obj_insert "workspace_connection_id" (JStr (uuid_to_string id)) policy
    | None => policy
    end in
  source_base_ref ← factory_policy_required_string policy "source_base_ref" 240;
  validate_factory_base_ref source_base_ref;;
  check_publication_policy policy;;
  check_policy_verification policy;;
  check_policy_write_scope policy;;
  policy ← pin_source_commit policy;
  bail_if (65536 <? json_byte_len (JObj policy))%Z
    "factory policy snapshot cannot exceed 65536 bytes";;
  Ok (JObj policy).

Definition ensure_new_factory_policy_is_pinned (policy : json) : result unit :=
  policy ← policy_object policy;
  source_base_commit ← factory_policy_required_string policy "source_base_commit" 64;
  validate_factory_base_commit (to_ascii_lowercase source_base_commit);;
  bail_if (negb (is_false_bool (obj_get "source_commit_upgrade_required" policy)))
    "new factory claims cannot require a legacy source upgrade".

Definition normalize_factory_operation_request `{Serde} (request : json) : result json :=
  bail_if (negb (is_object request)) "factory operation request snapshot must be a JSON object";;
  factory_max_task_attempts request;;
  bail_if (65536 <? json_byte_len request)%Z
    "factory operation request snapshot cannot exceed 65536 bytes";;
  Ok request.

(** ** Attempt authority (factory_attempt_policy.rs) *)
Definition validate_request (policy request : json) : result unit :=
  allowed ← factory_max_task_attempts policy;
  requested ← factory_max_task_attempts request;
  bail_if (negb (bool_decide (allowed = requested)))
    "factory max_task_attempts must match the immutable claimed planning policy".

Definition attempts_outside (allowed : option Z) (attempts : Z) : bool :=
  negb (in_range 1 MAX_TASK_ATTEMPTS attempts)
  || (default 2 allowed <? attempts)%Z
  || match allowed with Some expected => negb (attempts =? expected)%Z | None => false end.

Definition validate_plan_attempts (policy : json) (plan : task_graph_plan) : result unit :=
  allowed ← factory_max_task_attempts policy;
  for_each (λ task,
    bail_if (attempts_outside allowed (pt_max_attempts task))
      ("factory task " +:+ pt_key task +:+ " must preserve the claimed task-attempt allowance"))
    (plan_tasks plan).

(** ** A plan under a policy *)

(** [plan.tasks.iter().find(..)] that ends in an error. *)
Definition no_task (p : planned_task → bool) (tasks : list planned_task)
    (message : planned_task → string) : result unit :=
  match find p tasks with Some task => Err (message task) | None => Ok tt end.

(** [plan.tasks.iter().find_map(|task| task.entries.iter().find(..))] that ends
    in an error. *)
Fixpoint no_entry {A} (entry : planned_task → option A) (tasks : list planned_task)
    (message : planned_task → A → string) : result unit :=
  match tasks with
  | [] => Ok tt
  | task :: rest =>
      match entry task with
      | Some a => Err (message task a)
      | None => no_entry entry rest message
      end
  end.

Definition opt_eqb (a b : option string) : bool := bool_decide (a = b).

Definition check_plan_connection `{Serde} (policy : json) (plan : task_graph_plan) : result unit :=
  validate_plan_attempts policy plan;;
  connection_id ← factory_workspace_connection_id policy;
  no_task (λ task, negb (bool_decide (tc_workspace_connection_id (pt_contract task) = connection_id)))
    (plan_tasks plan)
    (λ task, "factory task " +:+ pt_key task +:+ " must preserve the claimed workspace connection").

Definition check_policy_header (policy : json_map) : result unit :=
  bail_if (negb (bool_decide (obj_get "schema_version" policy ≫= as_i64 = Some 1%Z)))
    "factory policy schema_version must be 1";;
  bail_if (negb (opt_eqb (obj_get "source_of_truth" policy ≫= as_str) (Some "github_project")))
    "factory policy source_of_truth must be github_project";;
  bail_if (negb (is_false_bool (obj_get "auto_merge" policy)))
    "factory policy must explicitly disable auto_merge".

Definition check_plan_source (source_repository : string) (policy : json_map)
    (plan : task_graph_plan) : result unit :=
  repositories ← factory_policy_string_array policy "repository_allowlist";
  bail_if (negb (mem source_repository repositories))
    ("factory policy does not allow source repository " +:+ source_repository);;
  source_base_ref ← factory_policy_required_string policy "source_base_ref" 240;
  source_base_commit ← factory_policy_required_string policy "source_base_commit" 64;
  let source_base_commit := to_ascii_lowercase source_base_commit in
  validate_factory_base_commit source_base_commit;;
  no_task (λ task,
      negb (opt_eqb (tc_source_repository (pt_contract task)) (Some source_repository))
      || negb (opt_eqb (tc_source_base_ref (pt_contract task)) (Some source_base_ref))
      || negb (opt_eqb (tc_source_base_commit (pt_contract task)) (Some source_base_commit)))
    (plan_tasks plan)
    (λ task, "factory task " +:+ pt_key task
       +:+ " does not preserve the claimed repository, base ref, and immutable base commit").

Definition check_plan_routing (policy : json_map) (plan : task_graph_plan) : result unit :=
  adapters ← factory_policy_string_array policy "adapter_allowlist";
  no_task (λ task, negb (mem (pt_required_adapter task) adapters)) (plan_tasks plan)
    (λ task, "factory policy does not allow adapter " +:+ pt_required_adapter task
       +:+ " for task " +:+ pt_key task);;
  strategies ← factory_policy_string_array policy "strategy_allowlist";
  bail_if (negb (mem (plan_strategy plan) strategies))
    ("factory policy does not allow strategy " +:+ plan_strategy plan).

Definition check_plan_model (policy : json_map) (plan : task_graph_plan) : result unit :=
  allowed_model ← factory_policy_optional_string policy "model";
  match allowed_model with
  | Some allowed_model =>
      no_task (λ task, negb (opt_eqb (tc_model (pt_contract task)) (Some allowed_model)))
        (plan_tasks plan)
        (λ task, "factory task " +:+ pt_key task +:+ " must preserve policy model " +:+ allowed_model
           +:+ "; got " +:+ default "provider default" (tc_model (pt_contract task)))
  | None =>
      no_task (λ task, is_some (tc_model (pt_contract task))) (plan_tasks plan)
        (λ task, "factory policy does not allow a model override for task " +:+ pt_key task)
  end.

Definition check_plan_reasoning (policy : json_map) (plan : task_graph_plan) : result unit :=
  allowed_reasoning ← factory_policy_optional_string policy "reasoning_effort";
  match allowed_reasoning with
  | Some allowed_reasoning =>
      no_task (λ task, negb (opt_eqb (tc_reasoning_effort (pt_contract task)) (Some allowed_reasoning)))
        (plan_tasks plan)
        (λ task, "factory task " +:+ pt_key task +:+ " must preserve policy reasoning effort "
           +:+ allowed_reasoning +:+ "; got "
           +:+ default "provider default" (tc_reasoning_effort (pt_contract task)))
  | None =>
      no_task (λ task, is_some (tc_reasoning_effort (pt_contract task))) (plan_tasks plan)
        (λ task, "factory policy does not allow a reasoning override for task " +:+ pt_key task)
  end.

Definition check_plan_scopes (policy : json_map) (plan : task_graph_plan) : result unit :=
  write_scope ← factory_policy_string_array policy "write_scope";
  no_entry (λ task,
      find (λ scope, negb (existsb (write_scope_is_subset scope) write_scope))
        (tc_write_scope (pt_contract task)))
    (plan_tasks plan)
    (λ task scope, "factory policy does not allow write scope " +:+ scope +:+ " for task " +:+ pt_key task);;
  allowed_tools ← factory_policy_string_array policy "allowed_tools";
  no_entry (λ task, find (λ tool, negb (mem tool allowed_tools)) (tc_allowed_tools (pt_contract task)))
    (plan_tasks plan)
    (λ task tool, "factory policy does not allow tool " +:+ tool +:+ " for task " +:+ pt_key task).

Definition check_plan_authority `{Serde} (policy : json_map) (plan : task_graph_plan) : result unit :=
  required_prohibitions ← factory_policy_string_array policy "prohibited_actions";
  no_entry (λ task,
      find (λ prohibition, negb (mem prohibition (tc_prohibited_actions (pt_contract task))))
        required_prohibitions)
    (plan_tasks plan)
    (λ task prohibition, "factory task " +:+ pt_key task +:+ " omits policy prohibition " +:+ prohibition);;
  allowed_secret_ids ← factory_policy_string_list policy "secret_ids" true;
  no_entry (λ task,
      find (λ secret_id, negb (mem secret_id allowed_secret_ids))
        ((uuid_to_string ∘ sr_secret_id) <$> tc_secret_refs (pt_contract task)))
    (plan_tasks plan)
    (λ task secret_id, "factory policy does not allow secret " +:+ secret_id +:+ " for task " +:+ pt_key task).

Definition check_plan_verification `{Serde} (policy : json_map) (plan : task_graph_plan) : result unit :=
  match non_null (obj_get "verification_policy" policy) with
  | Some policy_value =>
      expected ← with_context (decode_verification_policy policy_value)
        "decode factory policy verification policy";
      no_task (λ task, bool_decide (pt_key task ∈ terminal_task_keys plan)
                       && negb (bool_decide (pt_verification_policy task = expected)))
        (plan_tasks plan)
        (λ task, "factory task " +:+ pt_key task
           +:+ " does not preserve the persisted delivery verification policy")
  | None => Ok tt
  end;;
  bail_if (negb (is_true_bool (obj_get "verification_required" policy))
           || existsb (λ task, vec_is_empty (vp_checks (pt_verification_policy task))) (plan_tasks plan))
    "factory policy requires a non-empty verification policy for every task";;
  no_task (λ task, bool_decide (pt_key task ∈ provider_backed_outcome_keys plan)
                   && negb (is_some (vp_manual_gate (pt_verification_policy task))))
    (plan_tasks plan)
    (λ task, "factory task " +:+ pt_key task
       +:+ " requires a manual verification gate for a provider-backed outcome").

Definition check_plan_budgets (policy : json_map) (plan : task_graph_plan) : result unit :=
  budget_tokens ← factory_policy_positive_i64 policy "budget_tokens";
  bail_if (budget_tokens <? plan_budget_tokens plan)%Z
    ("factory plan token budget " +:+ show_int (plan_budget_tokens plan) +:+ " exceeds policy "
     +:+ show_int budget_tokens);;
  budget_cost_microusd ← factory_policy_positive_i64 policy "budget_cost_microusd";
  bail_if (budget_cost_microusd <? plan_budget_cost_microusd plan)%Z
    ("factory plan cost budget " +:+ show_int (plan_budget_cost_microusd plan) +:+ " exceeds policy "
     +:+ show_int budget_cost_microusd).

Definition validate_factory_plan_against_policy_parts `{Serde}
    (source_repository_owner source_repository_name : string) (policy : json)
    (plan : task_graph_plan) : result unit :=
  check_plan_connection policy plan;;
  policy ← policy_object policy;
  check_policy_header policy;;
  check_plan_source (source_repository_owner +:+ "/" +:+ source_repository_name) policy plan;;
  check_plan_routing policy plan;;
  check_plan_model policy plan;;
  check_plan_reasoning policy plan;;
  check_plan_scopes policy plan;;
  check_plan_authority policy plan;;
  check_plan_verification policy plan;;
  check_plan_budgets policy plan.

(** The three source fields of every task, set from the policy. *)
Definition set_contract_source (repository base_ref base_commit : string) (c : task_contract) :
    task_contract :=
  TaskContract (tc_objective c) (tc_expected_output c) (Some repository) (Some base_ref)
    (Some base_commit) (tc_workspace_connection_id c) (tc_acceptance_tests c) (tc_allowed_tools c)
    (tc_prohibited_actions c) (tc_references c) (tc_write_scope c) (tc_budget_tokens c)
    (tc_budget_cost_microusd c) (tc_deadline_at c) (tc_escalation c) (tc_secret_refs c)
    (tc_model c) (tc_reasoning_effort c) (tc_deliverable c).

Definition set_task_contract (f : task_contract → task_contract) (t : planned_task) : planned_task :=
  PlannedTask (pt_key t) (pt_title t) (f (pt_contract t)) (pt_assigned_agent_id t)
    (pt_required_adapter t) (pt_depends_on t) (pt_depth t) (pt_max_attempts t)
    (pt_verification_policy t).

Definition set_plan_tasks (f : list planned_task → list planned_task) (p : task_graph_plan) :
    task_graph_plan :=
  TaskGraphPlan (plan_strategy p) (plan_max_nodes p) (plan_max_depth p) (plan_budget_tokens p)
    (plan_budget_cost_microusd p) (plan_staffing p) (f (plan_tasks p)).

Definition apply_factory_source_constraints_parts
    (source_repository_owner source_repository_name : string) (policy : json)
    (plan : task_graph_plan) : result task_graph_plan :=
  policy ← policy_object policy;
  let source_repository := source_repository_owner +:+ "/" +:+ source_repository_name in
  source_base_ref ← factory_policy_required_string policy "source_base_ref" 240;
  validate_factory_base_ref source_base_ref;;
  source_base_commit ← factory_policy_required_string policy "source_base_commit" 64;
  let source_base_commit := to_ascii_lowercase source_base_commit in
  validate_factory_base_commit source_base_commit;;
  Ok (set_plan_tasks
        (fmap (set_task_contract
                 (set_contract_source source_repository source_base_ref source_base_commit))) plan).

Definition preflight_factory_plan `{Serde} (source_repository_owner source_repository_name : string)
    (policy : json) (plan : task_graph_plan) : result task_graph_plan :=
  source_repository_owner ←
    normalize_github_component source_repository_owner "source repository owner" 100;
  source_repository_name ←
    normalize_github_component source_repository_name "source repository name" 100;
  policy ← normalize_factory_policy policy;
  constrained_plan ←
    apply_factory_source_constraints_parts source_repository_owner source_repository_name policy plan;
  validate_factory_plan_against_policy_parts source_repository_owner source_repository_name policy
    constrained_plan;;
  Ok constrained_plan.

(** ** Lemmas: searches that must find nothing *)
Lemma find_None_iff {A} (p : A → bool) l : find p l = None ↔ ∀ x, x ∈ l → p x = false.
Proof.
  split.
  - intros H x Hx. eapply find_none; [done |]. by apply list_elem_of_In.
  - intros H. destruct (find p l) as [x|] eqn:E; [| done].
    apply find_some in E as [Hx Hp]. apply list_elem_of_In in Hx. by rewrite H in Hp.
Qed.

Lemma no_task_ok p tasks message u :
  no_task p tasks message = Ok u ↔ ∀ t, t ∈ tasks → p t = false.
Proof.
  destruct u. unfold no_task. rewrite <- find_None_iff. destruct (find p tasks); naive_solver.
Qed.

Lemma no_entry_ok {A} (entry : planned_task → option A) tasks message u :
  no_entry entry tasks message = Ok u ↔ ∀ t, t ∈ tasks → entry t = None.
Proof.
  destruct u. induction tasks as [|t tasks IH]; simpl.
  - split; [set_solver | done].
  - destruct (entry t) eqn:E.
    + split; [done |]. intros H. rewrite H in E by apply list_elem_of_here. done.
    + rewrite IH. split; [intros H t' [->|?]%elem_of_cons; auto | intros H t' ?].
      by apply H, list_elem_of_further.
Qed.

Lemma opt_eqb_eq a b : opt_eqb a b = true ↔ a = b.
Proof. apply bool_decide_eq_true. Qed.

Ltac policy_step :=
  match goal with
  | H : no_task _ _ _ = Ok _ |- _ => rewrite no_task_ok in H
  | H : no_entry _ _ _ = Ok _ |- _ => rewrite no_entry_ok in H
  | H : for_each _ _ = Ok _ |- _ => rewrite for_each_ok in H
  | H : mem _ _ = true |- _ => apply mem_spec in H
  | H : opt_eqb _ _ = true |- _ => apply opt_eqb_eq in H
  | H : policy_object _ = Ok _ |- _ => apply with_context_ok, as_object_Some in H
  | H : in_range _ _ _ = true |- _ => apply in_range_spec in H
  | H : bool_decide _ = true |- _ => apply bool_decide_eq_true in H
  end.
Ltac policy_inv := repeat (res_step || policy_step).

(** ** What it means for a plan to stay inside a policy *)
Record confined `{Serde} (policy : json_map) (repository : string) (plan : task_graph_plan) : Prop := {
  confined_repository : ∃ l,
    factory_policy_string_array policy "repository_allowlist" = Ok l ∧ repository ∈ l;
  confined_source : ∃ base_ref base_commit,
    obj_get "source_base_ref" policy = Some (JStr base_ref) ∧
    obj_get "source_base_commit" policy = Some (JStr base_commit) ∧
    all_bytes is_ascii_hexdigit (to_ascii_lowercase base_commit) = true ∧
    ∀ t, t ∈ plan_tasks plan →
      tc_source_repository (pt_contract t) = Some repository ∧
      tc_source_base_ref (pt_contract t) = Some base_ref ∧
      tc_source_base_commit (pt_contract t) = Some (to_ascii_lowercase base_commit);
  confined_connection : ∃ connection,
    factory_workspace_connection_id (JObj policy) = Ok connection ∧
    ∀ t, t ∈ plan_tasks plan → tc_workspace_connection_id (pt_contract t) = connection;
  confined_writes : ∃ l, factory_policy_string_array policy "write_scope" = Ok l ∧
    ∀ t scope path, t ∈ plan_tasks plan → scope ∈ tc_write_scope (pt_contract t) →
      write_scope_allows_path scope path = true →
      ∃ allowed, allowed ∈ l ∧ write_scope_allows_path allowed path = true;
  confined_tools : ∃ l, factory_policy_string_array policy "allowed_tools" = Ok l ∧
    ∀ t tool, t ∈ plan_tasks plan → tool ∈ tc_allowed_tools (pt_contract t) → tool ∈ l;
  confined_prohibitions : ∃ l, factory_policy_string_array policy "prohibited_actions" = Ok l ∧
    ∀ t action, t ∈ plan_tasks plan → action ∈ l → action ∈ tc_prohibited_actions (pt_contract t);
  confined_secrets : ∃ l, factory_policy_string_list policy "secret_ids" true = Ok l ∧
    ∀ t secret, t ∈ plan_tasks plan → secret ∈ tc_secret_refs (pt_contract t) →
      uuid_to_string (sr_secret_id secret) ∈ l;
  confined_adapters : ∃ l, factory_policy_string_array policy "adapter_allowlist" = Ok l ∧
    ∀ t, t ∈ plan_tasks plan → pt_required_adapter t ∈ l;
  confined_model : ∃ model, factory_policy_optional_string policy "model" = Ok model ∧
    ∀ t, t ∈ plan_tasks plan → tc_model (pt_contract t) = model;
  confined_attempts : ∃ allowed, factory_max_task_attempts (JObj policy) = Ok allowed ∧
    ∀ t, t ∈ plan_tasks plan → (1 ≤ pt_max_attempts t)%Z ∧
      match allowed with
      | Some n => pt_max_attempts t = n
      | None => (pt_max_attempts t ≤ 2)%Z
      end;
  confined_review :
    ∀ t, t ∈ plan_tasks plan → pt_key t ∈ provider_backed_outcome_keys plan →
      is_Some (vp_manual_gate (pt_verification_policy t));
  confined_verified : ∀ t, t ∈ plan_tasks plan → vp_checks (pt_verification_policy t) ≠ [];
  confined_budgets : ∃ tokens cost,
    factory_policy_positive_i64 policy "budget_tokens" = Ok tokens ∧
    factory_policy_positive_i64 policy "budget_cost_microusd" = Ok cost ∧
    (plan_budget_tokens plan ≤ tokens)%Z ∧ (plan_budget_cost_microusd plan ≤ cost)%Z;
}.

Lemma required_string_get policy key n s :
  factory_policy_required_string policy key n = Ok s → obj_get key policy = Some (JStr s).
Proof.
  unfold factory_policy_required_string. intros H%with_context_ok.
  destruct (obj_get key policy) as [[]|]; simpl in H; try done. by case_match; simplify_eq.
Qed.

(** ** Lemmas: each group of checks *)
Section checks.
Context `{Serde}.
Implicit Types (policy : json_map) (plan : task_graph_plan).

Lemma check_plan_connection_ok policy plan :
  check_plan_connection (JObj policy) plan = Ok tt →
  (∃ connection, factory_workspace_connection_id (JObj policy) = Ok connection ∧
     ∀ t, t ∈ plan_tasks plan → tc_workspace_connection_id (pt_contract t) = connection) ∧
  ∃ allowed, factory_max_task_attempts (JObj policy) = Ok allowed ∧
    ∀ t, t ∈ plan_tasks plan → (1 ≤ pt_max_attempts t)%Z ∧
      match allowed with
      | Some n => pt_max_attempts t = n
      | None => (pt_max_attempts t ≤ 2)%Z
      end.
Proof.
  unfold check_plan_connection, validate_plan_attempts. intros H'. policy_inv.
  split; eexists; (split; [done |]); intros t Ht.
  - specialize (H' t Ht). by apply negb_false_iff, bool_decide_eq_true in H'.
  - match goal with H : ∀ x, _ → bail_if _ _ = _ |- _ => specialize (H t Ht) end.
    unfold attempts_outside in *. case_match; policy_inv; simpl in *; lia.
Qed.

Lemma check_plan_source_ok repository policy plan :
  check_plan_source repository policy plan = Ok tt →
  (∃ l, factory_policy_string_array policy "repository_allowlist" = Ok l ∧ repository ∈ l) ∧
  ∃ base_ref base_commit,
    obj_get "source_base_ref" policy = Some (JStr base_ref) ∧
    obj_get "source_base_commit" policy = Some (JStr base_commit) ∧
    all_bytes is_ascii_hexdigit (to_ascii_lowercase base_commit) = true ∧
    ∀ t, t ∈ plan_tasks plan →
      tc_source_repository (pt_contract t) = Some repository ∧
      tc_source_base_ref (pt_contract t) = Some base_ref ∧
      tc_source_base_commit (pt_contract t) = Some (to_ascii_lowercase base_commit).
Proof.
  unfold check_plan_source, validate_factory_base_commit. intros H'. policy_inv.
  split; [by eexists |].
  do 2 eexists. split_and!; try by eapply required_string_get.
  - done.
  - intros t Ht. specialize (H' t Ht). policy_inv. by policy_inv.
Qed.

Lemma check_plan_routing_ok policy plan :
  check_plan_routing policy plan = Ok tt →
  ∃ l, factory_policy_string_array policy "adapter_allowlist" = Ok l ∧
    ∀ t, t ∈ plan_tasks plan → pt_required_adapter t ∈ l.
Proof.
  unfold check_plan_routing. intros H'. policy_inv. eexists. split; [done |].
  intros t Ht. match goal with H : ∀ t, _ → negb _ = _ |- _ => specialize (H t Ht) end. by policy_inv.
Qed.

Lemma check_plan_model_ok policy plan :
  check_plan_model policy plan = Ok tt →
  ∃ model, factory_policy_optional_string policy "model" = Ok model ∧
    ∀ t, t ∈ plan_tasks plan → tc_model (pt_contract t) = model.
Proof.
  unfold check_plan_model. intros H'. policy_inv. eexists. split; [done |].
  intros t Ht. case_match; policy_inv; specialize (H' t Ht).
  - by policy_inv.
  - by destruct (tc_model _).
Qed.

Lemma check_plan_scopes_ok policy plan :
  check_plan_scopes policy plan = Ok tt →
  (∃ l, factory_policy_string_array policy "write_scope" = Ok l ∧
    ∀ t scope path, t ∈ plan_tasks plan → scope ∈ tc_write_scope (pt_contract t) →
      write_scope_allows_path scope path = true →
      ∃ allowed, allowed ∈ l ∧ write_scope_allows_path allowed path = true) ∧
  ∃ l, factory_policy_string_array policy "allowed_tools" = Ok l ∧
    ∀ t tool, t ∈ plan_tasks plan → tool ∈ tc_allowed_tools (pt_contract t) → tool ∈ l.
Proof.
  unfold check_plan_scopes. intros H'. policy_inv. split; eexists; (split; [done |]).
  - intros t scope path Ht Hs Hp.
    match goal with H : context [write_scope_is_subset] |- _ =>
      specialize (H t Ht); rewrite find_None_iff in H; specialize (H scope Hs) end.
    policy_inv.
    match goal with H : existsb _ _ = true |- _ =>
      apply existsb_exists in H as (allowed & Hin & Hsub) end.
    apply list_elem_of_In in Hin.
    exists allowed. split; [done |]. by apply write_scope_subset_spec in Hsub as (_ & _ & Hsub); apply Hsub.
  - intros t tool Ht Htool. specialize (H' t Ht). rewrite find_None_iff in H'.
    specialize (H' tool Htool). by policy_inv.
Qed.

Lemma check_plan_authority_ok policy plan :
  check_plan_authority policy plan = Ok tt →
  (∃ l, factory_policy_string_array policy "prohibited_actions" = Ok l ∧
    ∀ t action, t ∈ plan_tasks plan → action ∈ l → action ∈ tc_prohibited_actions (pt_contract t)) ∧
  ∃ l, factory_policy_string_list policy "secret_ids" true = Ok l ∧
    ∀ t secret, t ∈ plan_tasks plan → secret ∈ tc_secret_refs (pt_contract t) →
      uuid_to_string (sr_secret_id secret) ∈ l.
Proof.
  unfold check_plan_authority. intros H'. policy_inv. split; eexists; (split; [done |]).
  - intros t action Ht Ha.
    match goal with H : context [tc_prohibited_actions] |- _ =>
      specialize (H t Ht); rewrite find_None_iff in H; specialize (H action Ha) end.
    by policy_inv.
  - intros t secret Ht Hs. specialize (H' t Ht). rewrite find_None_iff in H'.
    specialize (H' _ (list_elem_of_fmap_2 (uuid_to_string ∘ sr_secret_id) _ _ Hs)). by policy_inv.
Qed.

Lemma check_plan_verification_ok policy plan :
  check_plan_verification policy plan = Ok tt →
  (∀ t, t ∈ plan_tasks plan → pt_key t ∈ provider_backed_outcome_keys plan →
    is_Some (vp_manual_gate (pt_verification_policy t))) ∧
  ∀ t, t ∈ plan_tasks plan → vp_checks (pt_verification_policy t) ≠ [].
Proof.
  unfold check_plan_verification. intros H'. policy_inv. split.
  - intros t Ht Hk. specialize (H' t Ht). rewrite bool_decide_eq_true_2 in H' by done.
    simpl in H'. policy_inv. by destruct (vp_manual_gate _).
  - intros t Ht Hn.
    match goal with H : existsb _ _ = false |- _ => apply not_true_iff_false in H; apply H end.
    apply existsb_exists. exists t. split; [by apply list_elem_of_In | by rewrite Hn].
Qed.

Lemma check_plan_budgets_ok policy plan :
  check_plan_budgets policy plan = Ok tt →
  ∃ tokens cost,
    factory_policy_positive_i64 policy "budget_tokens" = Ok tokens ∧
    factory_policy_positive_i64 policy "budget_cost_microusd" = Ok cost ∧
    (plan_budget_tokens plan ≤ tokens)%Z ∧ (plan_budget_cost_microusd plan ≤ cost)%Z.
Proof.
  unfold check_plan_budgets. intros H'. policy_inv. do 2 eexists. split_and!; done || lia.
Qed.

Lemma validate_against_policy_ok owner name (policy : json) plan :
  validate_factory_plan_against_policy_parts owner name policy plan = Ok tt →
  ∃ p, policy = JObj p ∧ confined p (owner +:+ "/" +:+ name) plan.
Proof.
  unfold validate_factory_plan_against_policy_parts. intros H'. policy_inv. subst.
  eexists. split; [done |].
  repeat match goal with
  | H : check_plan_connection _ _ = _ |- _ => apply check_plan_connection_ok in H as [? ?]
  | H : check_plan_source _ _ _ = _ |- _ => apply check_plan_source_ok in H as [? ?]
  | H : check_plan_scopes _ _ = _ |- _ => apply check_plan_scopes_ok in H as [? ?]
  | H : check_plan_authority _ _ = _ |- _ => apply check_plan_authority_ok in H as [? ?]
  | H : check_plan_verification _ _ = _ |- _ => apply check_plan_verification_ok in H as [? ?]
  end.
  split; try done.
  - by apply check_plan_routing_ok.
  - by apply check_plan_model_ok.
  - by apply check_plan_budgets_ok.
Qed.
End checks.

(** ** Lemmas: normalisation *)
Lemma hexdigit_ascii : ascii_only is_ascii_hexdigit.
Proof. intros z. unfold is_ascii_hexdigit, is_ascii_digit. lia. Qed.

Lemma base_commit_spec s :
  validate_factory_base_commit s = Ok tt ↔
  (str_len s = 40 ∨ str_len s = 64)%Z ∧ all_bytes is_ascii_hexdigit s = true.
Proof.
  unfold validate_factory_base_commit. rewrite bail_if_ok, orb_false_iff, !negb_false_iff.
  rewrite orb_true_iff, !Z.eqb_eq. done.
Qed.

Lemma base_commit_trim s : validate_factory_base_commit s = Ok tt → is_empty (trim s) = false.
Proof.
  intros [Hlen Hs]%base_commit_spec. rewrite (trim_ascii is_ascii_hexdigit).
  - by destruct s; [destruct Hlen|].
  - exact hexdigit_ascii.
  - intros z. unfold is_ascii_hexdigit, is_ascii_digit, is_whitespace. lia.
  - done.
Qed.

Lemma pin_source_commit_ok policy q :
  pin_source_commit policy = Ok q →
  (∃ commit, validate_factory_base_commit commit = Ok tt ∧ to_ascii_lowercase commit = commit ∧
     q = obj_insert "source_commit_upgrade_required" (JBool false)
           (obj_insert "source_base_commit" (JStr commit) policy)) ∨
  (q = policy ∧ obj_get "source_base_commit" policy = None ∧
   obj_get "source_commit_upgrade_required" policy = Some (JBool true)).
Proof.
  unfold pin_source_commit. intros H. res_inv.
  assert (obj_get "source_base_commit" policy = None → v = true →
    obj_get "source_commit_upgrade_required" policy = Some (JBool true)) as Hup.
  { unfold upgrade_required in Hv. intros _ ->. revert Hv.
    destruct (obj_get "source_commit_upgrade_required" policy) as [[]|]; congruence. }
  destruct (obj_get "source_base_commit" policy) as [[]|] eqn:E; try done.
  - destruct (is_empty (trim s)) eqn:Et; [done |]. left. res_inv.
    eexists. split_and!; [done | apply to_ascii_lowercase_idempotent | done].
  - destruct v; [| done]. injection H as <-. right. split_and!; auto.
Qed.

Lemma pin_source_commit_again policy q :
  pin_source_commit policy = Ok q → pin_source_commit q = Ok q.
Proof.
  intros H. pose proof H as [(c & Hc & Hl & ->)|(-> & _)]%pin_source_commit_ok; [| done].
  unfold pin_source_commit, upgrade_required.
  rewrite obj_get_insert. cbn [mbind result_bind]. rewrite obj_get_insert_ne, obj_get_insert by done.
  rewrite base_commit_trim by done. cbn. rewrite Hl, Hc. cbn. f_equal.
  rewrite (obj_insert_stable "source_base_commit") by (done || apply obj_insert_again).
  apply obj_insert_again.
Qed.

(** What the checks before the pin look at. *)
Definition same_at (keys : list string) (p q : json_map) : Prop :=
  ∀ k, k ∈ keys → obj_get k p = obj_get k q.

Lemma pin_source_commit_same policy q :
  pin_source_commit policy = Ok q →
  ∀ k, k ≠ "source_base_commit" → k ≠ "source_commit_upgrade_required" →
    obj_get k q = obj_get k policy.
Proof.
  intros [(c & _ & _ & ->)|(-> & _)]%pin_source_commit_ok k H1 H2; [| done].
  by rewrite !obj_get_insert_ne.
Qed.

Section normalisation.
Context `{SerdeLaws}.

(** The checks before the pin, on an object whose connection is canonical. *)
Definition policy_checks (policy : json_map) : result unit :=
  source_base_ref ← factory_policy_required_string policy "source_base_ref" 240;
  validate_factory_base_ref source_base_ref;;
  check_publication_policy policy;;
  check_policy_verification policy;;
  check_policy_write_scope policy.

Lemma policy_checks_same p q :
  (∀ k, k ≠ "source_base_commit" → k ≠ "source_commit_upgrade_required" →
     obj_get k q = obj_get k p) →
  policy_checks q = policy_checks p ∧
  factory_workspace_connection_id (JObj q) = factory_workspace_connection_id (JObj p) ∧
  factory_max_task_attempts (JObj q) = factory_max_task_attempts (JObj p).
Proof.
  intros Hk. unfold policy_checks, factory_policy_required_string, check_publication_policy,
    check_policy_verification, check_policy_write_scope, factory_policy_string_array,
    factory_policy_string_list, factory_workspace_connection_id, factory_max_task_attempts. simpl.
  by rewrite !Hk by done.
Qed.

Lemma normalize_factory_policy_ok policy q :
  normalize_factory_policy policy = Ok q ↔
  ∃ o p id q', (policy = JObj o ∨ policy = JNull ∧ o = []) ∧ q = JObj q' ∧
    factory_workspace_connection_id (JObj o) = Ok id ∧
    is_ok (factory_max_task_attempts (JObj o)) = true ∧
    p = match id with
        | Some id => obj_insert "workspace_connection_id" (JStr (uuid_to_string id)) o
        | None => o
        end ∧
    policy_checks p = Ok tt ∧ pin_source_commit p = Ok q' ∧ (json_byte_len q ≤ 65536)%Z.
Proof.
  unfold normalize_factory_policy, policy_checks. split.
  - intros H1. res_inv.
    assert (∃ o, v = JObj o ∧ (policy = JObj o ∨ policy = JNull ∧ o = [])) as (o & -> & Ho)
      by (destruct policy; naive_solver).
    simpl in Hv2. injection Hv2 as ->. do 4 eexists. split_and!; try done.
    + rewrite is_ok_true. by eexists.
    + rewrite Hv3. simpl. rewrite Hv4. simpl. by rewrite Hv5, Hv6; simpl; rewrite Hv7.
    + lia.
  - intros (o & p & id & q' & Ho & -> & Hid & [att Hatt]%is_ok_true & -> & Hc & Hp & Hlen).
    assert (match policy with
      | JNull => Ok (JObj []) | JObj _ => Ok policy
      | _ => Err "factory policy snapshot must be a JSON object" end = Ok (JObj o)) as ->
      by (destruct Ho as [->|[-> ->]]; done).
    simpl. rewrite Hid. simpl. rewrite Hatt. simpl.
    apply bind_ok in Hc as (r & -> & Hc). simpl.
    apply bind_ok in Hc as ([] & -> & Hc). simpl.
    apply bind_ok in Hc as ([] & -> & Hc). simpl.
    apply bind_ok in Hc as ([] & -> & ->). simpl.
    rewrite Hp. simpl. replace (65536 <? _)%Z with false by lia. done.
Qed.
End normalisation.

(** ** Lemmas: normalised text *)
Lemma normalize_factory_text_ok v f n w :
  normalize_factory_text v f n = Ok w ↔
  w = trim v ∧ is_empty w = false ∧ (str_len w ≤ n)%Z ∧ any_char is_control w = false.
Proof.
  unfold normalize_factory_text. split.
  - intros H. res_inv. split_and!; done || lia.
  - intros (-> & H1 & H2 & H3). rewrite H1, H3. by replace (n <? _)%Z with false by lia.
Qed.

Lemma normalize_factory_text_again v f n w :
  utf8 v = true → normalize_factory_text v f n = Ok w → normalize_factory_text w f n = Ok w.
Proof.
  intros Hv (-> & ?)%normalize_factory_text_ok. apply normalize_factory_text_ok.
  by rewrite trim_idempotent.
Qed.

Lemma normalize_factory_identifier_again v f n w :
  utf8 v = true → normalize_factory_identifier v f n = Ok w → normalize_factory_identifier w f n = Ok w.
Proof.
  unfold normalize_factory_identifier. intros Hv H. res_inv.
  rewrite (normalize_factory_text_again v) by done. simpl.
  by match goal with H : any_char _ _ = false |- _ => rewrite H end.
Qed.

(** A character of an owner or a repository name. *)
Definition component_char (c : Z) : bool := is_ascii_alphanumeric c || one_of "-_." c.

Lemma component_char_spec z : component_char z = true →
  (33 ≤ z ≤ 122)%Z ∧ is_control z = false ∧ is_whitespace z = false.
Proof.
  unfold component_char, is_ascii_alphanumeric, is_ascii_digit, is_ascii_uppercase,
    is_ascii_lowercase.
  change (one_of "-_." z) with ((z =? 45) || ((z =? 95) || ((z =? 46) || false)))%Z. intros H.
  assert (33 ≤ z ≤ 122)%Z by lia. unfold is_control, is_whitespace. split_and!; lia.
Qed.

Lemma component_char_ascii : ascii_only component_char.
Proof. intros z (? & _)%component_char_spec. lia. Qed.

Lemma component_char_lower z :
  component_char z = true → is_ascii_uppercase z = true → component_char (z + 32) = true.
Proof.
  unfold component_char, is_ascii_alphanumeric, is_ascii_digit, is_ascii_uppercase,
    is_ascii_lowercase. lia.
Qed.

(** The form of a normalised component. *)
Record component_form (n : Z) (w : string) : Prop := {
  component_chars : all_bytes component_char w = true;
  component_lower : to_ascii_lowercase w = w;
  component_nonempty : is_empty w = false;
  component_len : (str_len w ≤ n)%Z;
}.

Lemma component_form_ok n w f : component_form n w → normalize_github_component w f n = Ok w.
Proof.
  intros [Hc Hl He Hn]. unfold normalize_github_component.
  assert (trim w = w) as Ht.
  { eapply trim_ascii; [exact component_char_ascii | | done]. by intros z (_ & _ & ?)%component_char_spec. }
  rewrite (proj2 (normalize_factory_text_ok w f n w)).
  - simpl. fold component_char. rewrite (all_chars_of_bytes component_char) by (done || exact component_char_ascii).
    simpl. by rewrite Hl.
  - split_and!; [done | done | done |]. eapply any_char_ascii; [exact component_char_ascii | | done].
    by intros z (_ & ? & _)%component_char_spec.
Qed.

Lemma normalize_github_component_form v f n w :
  utf8 v = true → normalize_github_component v f n = Ok w → component_form n w.
Proof.
  unfold normalize_github_component. intros Hv H. res_inv.
  match goal with H : normalize_factory_text _ _ _ = _ |- _ =>
    apply normalize_factory_text_ok in H as (-> & He & Hn & Hcon) end.
  match goal with H : all_chars _ _ = true |- _ =>
    apply (all_chars_ascii component_char) in H; [| exact component_char_ascii | by apply utf8_trim] end.
  split.
  - apply all_bytes_lowercase; [exact component_char_lower | done].
  - apply to_ascii_lowercase_idempotent.
  - by destruct (trim v).
  - by rewrite str_len_lowercase.
Qed.

(** The characters of an issue URL. *)
Definition url_char (z : Z) : bool := in_range 33 122 z.

Lemma url_char_ascii : ascii_only url_char.
Proof. intros z H%in_range_spec. lia. Qed.

Lemma issue_url_chars owner name n :
  all_bytes component_char owner = true → all_bytes component_char name = true → (0 < n)%Z →
  all_bytes url_char (issue_url_of owner name n) = true.
Proof.
  intros Ho Hn Hz. unfold issue_url_of. rewrite !all_bytes_app.
  assert (∀ z, component_char z = true → url_char z = true) as Hcu
    by (intros z (? & _)%component_char_spec; by apply in_range_spec).
  rewrite (all_bytes_impl _ _ _ Hcu Ho), (all_bytes_impl _ _ _ Hcu Hn).
  rewrite (all_bytes_impl is_ascii_digit url_char (show_int n)); [done | | by apply show_int_digits].
  intros z. unfold is_ascii_digit, url_char, in_range. lia.
Qed.

Lemma issue_url_trim_end owner name n :
  (0 < n)%Z → trim_end_matches "/"%char (issue_url_of owner name n) = issue_url_of owner name n.
Proof.
  intros Hz. unfold issue_url_of. rewrite <- !(str_app_assoc _ _ (show_int n)), <- !str_app_assoc.
  apply trim_end_matches_app.
  - rewrite show_int_pos by done. intros H.
    assert (0 < Z.to_N n)%N as Hp by lia. rewrite pretty_N_go_step in H by done.
    assert (∀ x s, s ≠ "" → pretty_N_go x s ≠ "") as Hne.
    { intros x. induction (N.lt_wf_0 x) as [x _ IH]. intros s Hs.
      destruct (decide (x = 0%N)) as [->|]; [by rewrite pretty_N_go_0 |].
      rewrite pretty_N_go_step by lia. apply IH; [apply N.div_lt; lia | done]. }
    by apply Hne in H.
  - apply trim_end_matches_id. eapply all_bytes_impl; [| by apply show_int_digits].
    intros z. change (byte_val "/"%char) with 47%Z. unfold is_ascii_digit. lia.
Qed.

Lemma issue_url_text owner name n f :
  component_form 100 owner → component_form 100 name → (0 < n ≤ i64_max)%Z →
  normalize_factory_text (issue_url_of owner name n) f 500 = Ok (issue_url_of owner name n).
Proof.
  intros [Ho _ _ Hol] [Hn _ _ Hnl] Hz. apply normalize_factory_text_ok.
  pose proof (issue_url_chars owner name n Ho Hn ltac:(lia)) as Hc. split_and!.
  - symmetry. eapply trim_ascii; [exact url_char_ascii | | exact Hc].
    intros z ?%in_range_spec. unfold is_whitespace. lia.
  - done.
  - unfold issue_url_of. rewrite !str_len_app. pose proof (show_int_len n Hz).
    change (str_len "https://github.com/") with 19%Z. change (str_len "/") with 1%Z.
    change (str_len "/issues/") with 8%Z. lia.
  - eapply any_char_ascii; [exact url_char_ascii | | exact Hc].
    intros z ?%in_range_spec. unfold is_control. lia.
Qed.

#[local] Opaque issue_url_of.

(** The Rust type of a source: strings are UTF-8, numbers fit in 64 bits. *)
Record source_typed (s : factory_source) : Prop := {
  typed_strings : Forall (λ v, utf8 v = true)
    [src_project_owner s; src_project_item_id s; src_repository_owner s; src_repository_name s;
     src_issue_node_id s; src_issue_url s; src_title s; src_revision s];
  typed_issue : (src_issue_number s ≤ i64_max)%Z;
}.

(** ** Properties *)

(** Normalising the source of a work item is canonical: what it returns
    normalises to itself, so a replay that sends the stored source back matches
    it field by field (owners and names lower-cased, the URL rebuilt from them). *)
Theorem normalize_factory_source_idempotent s t :
  source_typed s → normalize_factory_source s = Ok t → normalize_factory_source t = Ok t.
Proof.
  intros [Hs Hi] H. unfold normalize_factory_source in H. res_inv.
  apply Forall_cons in Hs as [H1 Hs]. apply Forall_cons in Hs as [H2 Hs].
  apply Forall_cons in Hs as [H3 Hs]. apply Forall_cons in Hs as [H4 Hs].
  apply Forall_cons in Hs as [H5 Hs]. apply Forall_cons in Hs as [H6 Hs].
  apply Forall_cons in Hs as [H7 Hs]. apply Forall_cons in Hs as [H8 _].
  repeat match goal with
  | H : normalize_github_component ?v _ _ = Ok _, U : utf8 ?v = true |- _ =>
      apply (normalize_github_component_form _ _ _ _ U) in H
  | H : normalize_factory_identifier ?v _ _ = Ok _, U : utf8 ?v = true |- _ =>
      apply (normalize_factory_identifier_again _ _ _ _ U) in H; clear U
  | H : normalize_factory_text ?v _ _ = Ok _, U : utf8 ?v = true |- _ =>
      apply (normalize_factory_text_again _ _ _ _ U) in H; clear U
  end.
  unfold normalize_factory_source. simpl.
  replace (src_project_number s <=? 0)%Z with false by lia.
  replace (src_issue_number s <=? 0)%Z with false by lia. simpl.
  repeat (match goal with
    | H : component_form ?n ?w |- context [normalize_github_component ?w ?f ?n] =>
        rewrite (component_form_ok n w f H)
    | H : normalize_factory_identifier ?w ?f ?n = Ok _ |- context [normalize_factory_identifier ?w ?f ?n] =>
        rewrite H
    | H : normalize_factory_text ?w ?f ?n = Ok _ |- context [normalize_factory_text ?w ?f ?n] =>
        rewrite H
    end; simpl).
  rewrite issue_url_text by (done || lia). simpl.
  rewrite issue_url_trim_end by lia. unfold eq_ignore_ascii_case. by rewrite seqb_refl.
Qed.

Definition sample_source : factory_source :=
  FactorySource " Contoso " 7 "PVTI_1" "Contoso" "ECorp" 42 "I_9"
    "https://github.com/contoso/ecorp/issues/42/" "Fix the build " "rev-1".
Definition sample_source_normal : factory_source :=
  FactorySource "contoso" 7 "PVTI_1" "contoso" "ecorp" 42 "I_9"
    "https://github.com/contoso/ecorp/issues/42" "Fix the build" "rev-1".

Lemma normalize_factory_source_idempotent_witness :
  normalize_factory_source sample_source_normal = Ok sample_source_normal.
Proof.
  apply (normalize_factory_source_idempotent sample_source).
  - split; [repeat constructor | unfold i64_max; simpl; lia].
  - vm_compute. reflexivity.
Defined.

(** Normalising a policy snapshot is canonical: the snapshot it stores
    normalises to itself, byte for byte, so a claim replayed with the stored
    policy always finds the policy it is compared with. *)
Theorem normalize_factory_policy_idempotent `{SerdeLaws} policy q :
  normalize_factory_policy policy = Ok q → normalize_factory_policy q = Ok q.
Proof.
  intros (o & p & id & q' & _ & -> & Hid & Hatt & -> & Hc & Hp & Hlen)%normalize_factory_policy_ok.
  pose proof (pin_source_commit_same _ _ Hp) as Hsame.
  apply normalize_factory_policy_ok.
  exists q', q', id, q'.
  set (p := match id with Some _ => _ | None => _ end) in *.
  destruct (policy_checks_same _ _ Hsame) as (Hc' & Hid' & Hatt').
  assert (factory_workspace_connection_id (JObj p) = Ok id ∧
    factory_max_task_attempts (JObj p) = factory_max_task_attempts (JObj o)) as [Hpid Hpatt].
  { unfold p. destruct id as [id|]; [| done].
    unfold factory_workspace_connection_id, factory_max_task_attempts. simpl.
    rewrite obj_get_insert, obj_get_insert_ne, uuid_round_trip by done.
    enough (is_nil id = false) as -> by done.
    unfold factory_workspace_connection_id in Hid. simpl in Hid. repeat case_match; try done.
    injection Hid as ->. by apply negb_true_iff. }
  split_and!; [by left | done | by rewrite Hid' | by rewrite Hatt', Hpatt | | by rewrite Hc' | |].
  - destruct id as [id|]; [| done]. unfold p in Hp.
    destruct (pin_source_commit_ok _ _ Hp) as [(c & _ & _ & ->)|(-> & _)].
    + symmetry. do 2 (apply obj_insert_stable; [done |]). apply obj_insert_again.
    + symmetry. apply obj_insert_again.
  - by eapply pin_source_commit_again.
  - done.
Qed.

Definition strs (l : list string) : json := JArr (JStr <$> l).
Definition sample_commit : string := "ABCDEF0123456789abcdef0123456789abcdef01".
Definition sample_policy : json := json_object
  [("schema_version", JInt 1); ("source_of_truth", JStr "github_project");
   ("auto_merge", JBool false); ("repository_allowlist", strs ["contoso/ecorp"]);
   ("source_base_ref", JStr "main"); ("source_base_commit", JStr sample_commit);
   ("adapter_allowlist", strs ["fake-process"]); ("strategy_allowlist", strs ["parallel-specialists"]);
   ("model", JNull); ("reasoning_effort", JNull); ("write_scope", strs ["src/**"; "docs/**"]);
   ("allowed_tools", strs ["filesystem.write"]); ("prohibited_actions", strs ["Deploy"]);
   ("secret_ids", JArr []); ("verification_required", JBool true); ("budget_tokens", JInt 20000);
   ("budget_cost_microusd", JInt 500000); ("workspace_connection_id", JNull)].

Definition ok_or {A} (d : A) (r : result A) : A := match r with Ok a => a | Err _ => d end.
Definition sample_policy_normal : json :=
  ok_or JNull (normalize_factory_policy (H:=sample_serde) sample_policy).

Lemma normalize_factory_policy_idempotent_witness :
  normalize_factory_policy (H:=sample_serde) sample_policy_normal = Ok sample_policy_normal
  ∧ get "source_base_commit" sample_policy_normal = Some (JStr (to_ascii_lowercase sample_commit)).
Proof.
  split; [| vm_compute; reflexivity].
  apply (normalize_factory_policy_idempotent (H:=sample_serde_laws) sample_policy).
  vm_compute. reflexivity.
Defined.

(** A policy accepted for a new work item is pinned: it names a full
    lower-case hexadecimal commit id and does not ask for a legacy upgrade. *)
Theorem new_policy_is_pinned `{Serde} policy q :
  normalize_factory_policy policy = Ok q → ensure_new_factory_policy_is_pinned q = Ok tt →
  ∃ commit, get "source_base_commit" q = Some (JStr commit) ∧
    (str_len commit = 40 ∨ str_len commit = 64)%Z ∧
    all_bytes is_ascii_hexdigit commit = true ∧ to_ascii_lowercase commit = commit ∧
    get "source_commit_upgrade_required" q = Some (JBool false).
Proof.
  intros (o & p & id & q' & _ & -> & _ & _ & _ & _ & Hp & _)%normalize_factory_policy_ok.
  apply pin_source_commit_ok in Hp as [(c & Hc & Hl & ->)|(-> & Hn & _)].
  - intros _. exists c. simpl. rewrite obj_get_insert, obj_get_insert_ne, obj_get_insert by done.
    apply base_commit_spec in Hc as [? ?]. by split_and!.
  - unfold ensure_new_factory_policy_is_pinned, factory_policy_required_string. simpl.
    by rewrite Hn.
Qed.

Lemma new_policy_is_pinned_witness :
  ∃ commit, get "source_base_commit" sample_policy_normal = Some (JStr commit) ∧
    to_ascii_lowercase commit = commit.
Proof.
  edestruct (new_policy_is_pinned (H:=sample_serde) sample_policy sample_policy_normal)
    as (commit & ? & _ & _ & ? & _); [vm_compute; reflexivity .. |].
  by exists commit.
Defined.

(** A plan that passes the Factory preflight stays inside the policy: every
    task is pinned to the claimed repository, ref and commit, every path its
    write scopes admit is admitted by a scope of the policy, its tools, secrets,
    adapter, model, connection and attempts are the policy's, it carries all the
    policy's prohibitions, provider-backed outcomes have a human gate, and the
    budgets are within the policy's. *)
Theorem preflight_confines `{Serde} owner name policy plan plan' :
  preflight_factory_plan owner name policy plan = Ok plan' →
  ∃ owner' name' p,
    normalize_github_component owner "source repository owner" 100 = Ok owner' ∧
    normalize_github_component name "source repository name" 100 = Ok name' ∧
    normalize_factory_policy policy = Ok (JObj p) ∧
    confined p (owner' +:+ "/" +:+ name') plan'.
Proof.
  unfold preflight_factory_plan. intros H1. res_inv.
  match goal with H : validate_factory_plan_against_policy_parts _ _ _ _ = _ |- _ =>
    apply validate_against_policy_ok in H as (p & -> & Hc) end.
  do 3 eexists. by split_and!.
Qed.

Definition sample_constrained : task_graph_plan :=
  ok_or sample_plan (preflight_factory_plan (H:=sample_serde) "Contoso" "ECorp" sample_policy sample_plan).

Lemma preflight_confines_witness :
  ∃ p, confined (H:=sample_serde) p "contoso/ecorp" sample_constrained.
Proof.
  edestruct (preflight_confines (H:=sample_serde) "Contoso" "ECorp" sample_policy sample_plan sample_constrained)
    as (o & n & p & Ho & Hn & _ & Hc); [vm_compute; reflexivity |].
  vm_compute in Ho, Hn. simplify_eq.
  exists p. exact Hc.
Defined.

(** The preflight only pins the source: the tasks it returns have the keys,
    dependencies, authority and budgets that were submitted, in the same order,
    and running it again on its own result changes nothing. *)
Theorem preflight_pins_only `{Serde} owner name policy plan plan' :
  preflight_factory_plan owner name policy plan = Ok plan' →
  preflight_factory_plan owner name policy plan' = Ok plan' ∧
  Forall2 (λ t t', ∃ repository base_ref base_commit,
      t' = set_task_contract (set_contract_source repository base_ref base_commit) t)
    (plan_tasks plan) (plan_tasks plan') ∧
  plan_strategy plan' = plan_strategy plan ∧
  plan_budget_tokens plan' = plan_budget_tokens plan ∧
  plan_budget_cost_microusd plan' = plan_budget_cost_microusd plan.
Proof.
  unfold preflight_factory_plan. intros H1. res_inv.
  match goal with H : apply_factory_source_constraints_parts _ _ _ _ = _ |- _ =>
    rename H into Ha; pose proof Ha as Ha' end.
  unfold apply_factory_source_constraints_parts in Ha'. res_inv.
  set (f := set_task_contract _) in *.
  assert (∀ ts : list planned_task, f <$> (f <$> ts) = f <$> ts) as Hff.
  { intros ts. rewrite <- list_fmap_compose. apply list_fmap_ext. intros ? t _. by destruct t as [?? [] ??????]. }
  split_and!; try done.
  - rewrite Hv, Hv0. cbn [mbind result_bind]. rewrite Hv1. cbn [mbind result_bind].
    assert (apply_factory_source_constraints_parts v v0 v1 (set_plan_tasks (fmap f) plan)
            = Ok (set_plan_tasks (fmap f) plan)) as ->.
    { unfold apply_factory_source_constraints_parts in *.
      repeat match goal with H : ?x = Ok _ |- context [?x] => rewrite H; cbn [mbind result_bind] end.
      f_equal. unfold set_plan_tasks. simpl. fold f. by rewrite Hff. }
    cbn [mbind result_bind]. by rewrite Hv3.
  - simpl. apply Forall2_fmap_r, Forall2_same_length_lookup_2; [done |].
    intros i t t' Ht Ht'. simplify_eq. by repeat eexists.
Qed.

Lemma preflight_pins_only_witness :
  preflight_factory_plan (H:=sample_serde) "Contoso" "ECorp" sample_policy sample_constrained
  = Ok sample_constrained.
Proof.
  eapply (preflight_pins_only (H:=sample_serde) "Contoso" "ECorp" sample_policy sample_plan).
  vm_compute. reflexivity.
Defined.
