(* ===== verification/Store.v ===== *)
(** * What every store component shares (crates/crony-store/src/lib.rs)

    The directory of actors, rooms, missions, tasks, runners and workspace
    connections that the handlers consult but do not change here, the scope and
    membership checks over it, and the append-only event log with its
    idempotency keys.  The components reach both through two interfaces,
    [HasDirectory] and [HasLog]. *)
From S2P Require Import Prelude Text Json Domain Planning.

(** ** The directory *)
Record actor_row := ActorRow { actor_corp : uuid; actor_role : string; actor_kind : string }.
Record mission_row := MissionRow {
  mission_corp : uuid; mission_room : uuid; mission_status_of : mission_status }.
Record task_row := TaskRow {
  task_corp : uuid; task_mission : uuid; task_status_of : task_status;
  task_verification_status : string }.
Record connection_row := ConnectionRow {
  connection_corp : uuid; connection_room : uuid; connection_runner : uuid }.

Record directory := Directory {
  dir_actors : gmap uuid actor_row;
  dir_rooms : gmap uuid uuid;                    (* room -> corp *)
  dir_memberships : gset (uuid * uuid);          (* (room, actor) *)
  dir_missions : gmap uuid mission_row;
  dir_tasks : gmap uuid task_row;
  dir_runners : gmap uuid uuid;                  (* runner node -> corp *)
  dir_connections : gmap uuid connection_row;
}.

Class HasDirectory (S : Type) := get_directory : S → directory.

(** ** Events *)
Record new_event := NewEvent {
  ev_corp_id : uuid;
  ev_room_id : option uuid;
  ev_actor_id : option uuid;
  ev_type : string;
  ev_aggregate_type : string;
  ev_aggregate_id : uuid;
  ev_aggregate_version : Z;
  ev_correlation_id : option uuid;
  ev_causation_id : option uuid;
  ev_idempotency_key : string;
  ev_visibility : string;
  ev_payload : json;
}.

(** [NewEvent::new]: the defaults of an event. *)
Definition new_event_of (corp_id : uuid) (actor_id : option uuid)
    (event_type aggregate_type : string) (aggregate_id : uuid)
    (idempotency_key : string) (payload : json) : new_event :=
  NewEvent corp_id None actor_id event_type aggregate_type aggregate_id 1 None None
    idempotency_key "corp" payload.

Definition at_version (room_id : option uuid) (version : Z) (e : new_event) : new_event :=
  NewEvent (ev_corp_id e) room_id (ev_actor_id e) (ev_type e) (ev_aggregate_type e)
    (ev_aggregate_id e) version (ev_correlation_id e) (ev_causation_id e)
    (ev_idempotency_key e) (ev_visibility e) (ev_payload e).

Definition correlated (correlation_id : option uuid) (e : new_event) : new_event :=
  NewEvent (ev_corp_id e) (ev_room_id e) (ev_actor_id e) (ev_type e) (ev_aggregate_type e)
    (ev_aggregate_id e) (ev_aggregate_version e) correlation_id (ev_causation_id e)
    (ev_idempotency_key e) (ev_visibility e) (ev_payload e).

(** The log, oldest first; the sequence number of an event is its position. *)
Definition event_log : Type := list new_event.

Definition same_event_key (e e' : new_event) : bool :=
  (ev_corp_id e =? ev_corp_id e')%N && seqb (ev_idempotency_key e) (ev_idempotency_key e').

Class HasLog (S : Type) := {
  get_log : S → event_log;
  set_log : event_log → S → S;
}.

Class HasLogLaws (S : Type) `{HasLog S} := {
  get_set_log l s : get_log (set_log l s) = l;
  set_set_log l l' s : set_log l (set_log l' s) = set_log l s;
}.

(** [append_event_tx]: INSERT .. ON CONFLICT (corp_id, idempotency_key) DO
    NOTHING RETURNING ..: the row, or nothing when the key is taken. *)
Definition append_event_tx {St} `{HasLog St} (event : new_event) : txn St (option new_event) := λ s,
  if existsb (same_event_key event) (get_log s) then Ok (None, s)
  else Ok (Some event, set_log (get_log s ++ [event]) s).

(** [append_event_tx(..).await?.context(message)?] *)
Definition append_new_event {St} `{HasLog St} (event : new_event) (message : string) : txn St new_event :=
  row ← append_event_tx event;
  lift (with_context row message).

(** ** Scope and membership checks *)
Section checks.
Context {St : Type} `{HasDirectory St}.

Definition read_directory {A} (f : directory → result A) : txn St A := λ s,
  lift (f (get_directory s)) s.

Definition assert_actor_scope (corp_id actor_id : uuid) (dir : directory) : result unit :=
  bail_if match dir_actors dir !! actor_id with
          | Some actor => negb (actor_corp actor =? corp_id)%N
          | None => true
          end
    "actor does not belong to the requested Corp".
Definition assert_actor_scope_tx (corp_id actor_id : uuid) : txn St unit :=
  read_directory (assert_actor_scope corp_id actor_id).

(** The role of an actor of the corp. *)
Definition role_in (dir : directory) (corp_id actor_id : uuid) : option string :=
  match dir_actors dir !! actor_id with
  | Some actor => if (actor_corp actor =? corp_id)%N then Some (actor_role actor) else None
  | None => None
  end.

Definition operator_roles : list string := ["owner"; "admin"; "manager"; "member"].

Definition assert_mission_operator (corp_id actor_id : uuid) (dir : directory) : result unit :=
  bail_if match role_in dir corp_id actor_id with
          | Some role => negb (mem role operator_roles)
          | None => true
          end
    "forbidden: actor cannot dispatch missions in this Corp".
Definition assert_mission_operator_tx (corp_id actor_id : uuid) : txn St unit :=
  read_directory (assert_mission_operator corp_id actor_id).

Definition assert_room_membership (corp_id room_id actor_id : uuid) (dir : directory) : result unit :=
  bail_if (negb (bool_decide ((room_id, actor_id) ∈ dir_memberships dir)
                 && match dir_rooms dir !! room_id with
                    | Some corp => (corp =? corp_id)%N
                    | None => false
                    end))
    "forbidden: actor is not a member of this room".
Definition assert_room_membership_tx (corp_id room_id actor_id : uuid) : txn St unit :=
  read_directory (assert_room_membership corp_id room_id actor_id).

Definition actor_role_of_room (corp_id room_id actor_id : uuid) (dir : directory) : result string :=
  assert_room_membership corp_id room_id actor_id dir;;
  match dir_actors dir !! actor_id with
  | Some actor =>
      if (actor_corp actor =? corp_id)%N && seqb (actor_kind actor) "human"
         && mem (actor_role actor) operator_roles
      then Ok (actor_role actor)
      else Err "forbidden: connection setup requires a human room operator"
  | None => Err "forbidden: connection setup requires a human room operator"
  end.
Definition actor_role_tx (corp_id room_id actor_id : uuid) : txn St string :=
  read_directory (actor_role_of_room corp_id room_id actor_id).

(** The connection joined with its runner node. *)
Definition connection_row_of (corp_id id : uuid) (dir : directory) : result connection_row :=
  with_context
    (c ← dir_connections dir !! id;
     if (connection_corp c =? corp_id)%N
        && match dir_runners dir !! connection_runner c with
           | Some corp => (corp =? corp_id)%N
           | None => false
           end
     then Some c else None)
    "connection was not found in this Corp".

Definition assert_connection_operator_tx (corp_id actor_id connection_id : uuid) : txn St unit :=
  assert_mission_operator_tx corp_id actor_id;;
  row ← read_directory (connection_row_of corp_id connection_id);
  actor_role_tx corp_id (connection_room row) actor_id;;
  mret tt.
End checks.

(** ** Lemmas *)

(** Lemmas on transactions: a bind that succeeds. *)
Lemma txn_bind_ok {S A B} (m : txn S A) (f : A → txn S B) s b s' :
  (m ≫= f) s = Ok (b, s') ↔ ∃ a s1, m s = Ok (a, s1) ∧ f a s1 = Ok (b, s').
Proof.
  unfold mbind, txn_bind. destruct (m s) as [[a s1]|]; naive_solver.
Qed.

Lemma lift_ok {S A} (r : result A) (s : S) a s' : lift r s = Ok (a, s') ↔ r = Ok a ∧ s' = s.
Proof. unfold lift. destruct r; naive_solver. Qed.

Lemma gets_ok {S A} (f : S → A) s a s' : gets f s = Ok (a, s') ↔ a = f s ∧ s' = s.
Proof. unfold gets. naive_solver. Qed.

Lemma modify_ok {S} (f : S → S) s u s' : modify f s = Ok (u, s') ↔ s' = f s.
Proof. destruct u. unfold modify. naive_solver. Qed.

Lemma mret_ok {S A} (a : A) (s : S) a' s' : (mret a : txn S A) s = Ok (a', s') ↔ a' = a ∧ s' = s.
Proof. unfold mret, txn_ret. naive_solver. Qed.

Lemma read_directory_ok {St} `{HasDirectory St} {A} (f : directory → result A) s a s' :
  read_directory f s = Ok (a, s') ↔ f (get_directory s) = Ok a ∧ s' = s.
Proof. apply lift_ok. Qed.

Lemma append_new_event_ok {St} `{HasLog St} event message s e s' :
  append_new_event event message s = Ok (e, s') ↔
  e = event ∧ existsb (same_event_key event) (get_log s) = false ∧
  s' = set_log (get_log s ++ [event]) s.
Proof.
  unfold append_new_event. rewrite txn_bind_ok. unfold append_event_tx. split.
  - intros (row & s1 & H1 & H2). apply lift_ok in H2 as [H2%with_context_ok ->].
    destruct (existsb _ _); injection H1 as <- <-; by simplify_eq.
  - intros (-> & -> & ->). do 2 eexists. split; [done |]. done.
Qed.

(** Take a successful transaction apart, one layer at a time. *)
Ltac txn_step :=
  match goal with
  | H : (mbind _ _) _ = Ok _ |- _ =>
      let a := fresh "a" in let s := fresh "s" in let Ha := fresh "Ha" in
      apply txn_bind_ok in H as (a & s & Ha & H)
  | H : lift _ _ = Ok _ |- _ =>
      let H' := fresh in apply lift_ok in H as [H H']; (subst || simplify_eq H')
  | H : gets _ _ = Ok _ |- _ =>
      let H' := fresh in apply gets_ok in H as [H H']; subst
  | H : modify _ _ = Ok _ |- _ => apply modify_ok in H; subst
  | H : mret _ _ = Ok _ |- _ =>
      let H' := fresh in apply mret_ok in H as [H H']; subst
  | H : read_directory _ _ = Ok _ |- _ =>
      let H' := fresh in apply read_directory_ok in H as [H H']; subst
  | H : append_new_event _ _ _ = Ok _ |- _ =>
      let H1 := fresh in let H2 := fresh in
      apply append_new_event_ok in H as (H1 & H & H2); subst
  | H : Ok _ = Ok _ |- _ => injection H as H; subst
  | H : Err _ = Ok _ |- _ => discriminate H
  | u : unit |- _ => destruct u
  end.
Ltac txn_inv := repeat txn_step.

(** ** What a transaction does to a relation between databases *)
Definition txn_within {St} (R : St → St → Prop) {A} (t : txn St A) : Prop :=
  ∀ s a s', t s = Ok (a, s') → R s s'.

Section within.
Context {St : Type} (R : St → St → Prop) `{!PreOrder R}.
Lemma within_bind {A B} (m : txn St A) (f : A → txn St B) :
  txn_within R m → (∀ a, txn_within R (f a)) → txn_within R (m ≫= f).
Proof. intros Hm Hf s b s' (a & s1 & H1 & H2)%txn_bind_ok. etrans; [by eapply Hm | by eapply Hf]. Qed.
Lemma within_same {A} (t : txn St A) : (∀ s a s', t s = Ok (a, s') → s' = s) → txn_within R t.
Proof. intros Ht s a s' ->%Ht. reflexivity. Qed.
Lemma within_ret {A} (a : A) : txn_within R (mret a).
Proof. apply within_same. by intros s b s' [_ ->]%mret_ok. Qed.
Lemma within_lift {A} (r : result A) : txn_within R (lift r).
Proof. apply within_same. by intros s b s' [_ ->]%lift_ok. Qed.
Lemma within_gets {A} (f : St → A) : txn_within R (gets f).
Proof. apply within_same. by intros s b s' [_ ->]%gets_ok. Qed.
Lemma within_read_directory `{HasDirectory St} {A} (f : directory → result A) : txn_within R (read_directory f).
Proof. apply within_same. by intros s b s' [_ ->]%read_directory_ok. Qed.
Lemma within_modify f : (∀ s, R s (f s)) → txn_within R (modify f).
Proof. intros Hf s u s' ->%modify_ok. apply Hf. Qed.
Lemma within_append `{HasLog St} event :
  (∀ s, R s (set_log (get_log s ++ [event]) s)) → txn_within R (append_event_tx event).
Proof. intros Hf s a s'. unfold append_event_tx. case_match; intros [= <- <-]; [reflexivity | apply Hf]. Qed.
Lemma within_append_new `{HasLog St} event message :
  (∀ s, R s (set_log (get_log s ++ [event]) s)) → txn_within R (append_new_event event message).
Proof. intros Hf. apply within_bind; [by apply within_append | intros; apply within_lift]. Qed.
End within.

Create HintDb within discriminated.
#[export] Hint Constants Opaque : within.
#[export] Hint Extern 1 (PreOrder _) => apply _ : within.
#[export] Hint Resolve within_ret within_lift within_gets within_read_directory : within.
(** Take a transaction apart; what the hints do not know is left to the caller. *)
Ltac within :=
  repeat first
    [ progress intros
    | solve [eauto with within]
    | apply within_bind; try apply _
    | case_match ].

(** ** The event log *)

(** No two events of the log share a corp and an idempotency key. *)
Definition unique_keys (log : event_log) : Prop :=
  ∀ i j e e', log !! i = Some e → log !! j = Some e' → same_event_key e e' = true → i = j.

Lemma same_event_key_iff e e' :
  same_event_key e e' = true ↔
  ev_corp_id e = ev_corp_id e' ∧ ev_idempotency_key e = ev_idempotency_key e'.
Proof. unfold same_event_key. by rewrite andb_true_iff, N.eqb_eq, seqb_eq. Qed.

Lemma key_taken event log :
  existsb (same_event_key event) log = true ↔ ∃ i e, log !! i = Some e ∧ same_event_key event e = true.
Proof.
  rewrite existsb_exists. setoid_rewrite <- list_elem_of_In. setoid_rewrite list_elem_of_lookup.
  naive_solver.
Qed.

Lemma unique_keys_snoc log event :
  unique_keys log → existsb (same_event_key event) log = false → unique_keys (log ++ [event]).
Proof.
  intros Hu Hn%not_true_iff_false i j e e'. rewrite key_taken in Hn.
  intros [Hi|[Hi Ei]]%lookup_app_Some [Hj|[Hj Ej]]%lookup_app_Some Hk.
  - eauto.
  - apply list_lookup_singleton_Some in Ej as [? <-]. destruct Hn. exists i, e. split; [done |].
    rewrite same_event_key_iff in *. naive_solver.
  - apply list_lookup_singleton_Some in Ei as [? <-]. destruct Hn. by exists j, e'.
  - apply list_lookup_singleton_Some in Ei as [? _], Ej as [? _]. lia.
Qed.

(** The event log is append-only and an event is written once, in every store
    that keeps one: an append never fails, keeps the events already there as a
    prefix and the idempotency keys of a corp unique, leaves an event with the
    given key in the log (a new one exactly when it reports one), and repeating
    it changes nothing. *)
Theorem event_log_appends_once {St} `{HasLogLaws St} (s : St) event :
  unique_keys (get_log s) →
  ∃ row s', append_event_tx event s = Ok (row, s') ∧
    get_log s' = get_log s ++ (match row with Some e => [e] | None => [] end) ∧
    unique_keys (get_log s') ∧
    (row = Some event ∨
     row = None ∧ ∃ i e, get_log s !! i = Some e ∧ same_event_key event e = true) ∧
    append_event_tx event s' = Ok (None, s').
Proof.
  intros Hu. unfold append_event_tx.
  destruct (existsb (same_event_key event) (get_log s)) eqn:E.
  - exists None, s. rewrite app_nil_r, E. apply key_taken in E. naive_solver.
  - exists (Some event), (set_log (get_log s ++ [event]) s). rewrite get_set_log.
    split_and!; eauto using unique_keys_snoc.
    rewrite existsb_app. simpl. rewrite (proj2 (same_event_key_iff event event)) by done.
    by rewrite orb_true_r.
Qed.
