(* ===== verification/FactoryItems.v ===== *)
(** * Factory work items (crates/crony-store/src/lib.rs)

    A work item is a GitHub Project issue that one actor at a time holds under
    a lease: [claim_factory_work_item], [renew_factory_work_item] and
    [transition_factory_work_item], with the table of operations that makes
    each of them idempotent, the claim token that fences a lost lease, the
    version that orders the changes, and the state machine of an item.

    A handler is a transaction over [factory_db]; the advisory locks and row
    locks of the source serialise the transactions on one item, so a run of the
    system is a sequence of whole handlers. *)
From S2P Require Import Prelude Text Json Domain Planning FactoryPolicy Store.

(** ** Data *)
Record factory_work_item := FactoryWorkItem {
  fw_id : uuid;
  fw_corp_id : uuid;
  fw_source_kind : string;
  fw_source : factory_source;
  fw_state : factory_work_item_state;
  fw_version : Z;
  fw_claim_owner_id : uuid;
  fw_lease_expires_at : timestamp;
  fw_policy : json;
  fw_mission_id : option uuid;
  fw_failure_detail : option string;
}.

Record factory_operation := FactoryOperation {
  op_work_item_id : uuid;
  op_actor_id : uuid;
  op_operation : string;
  op_resulting_version : Z;
  op_claim_token : option uuid;
  op_request : json;
}.

Record factory_db := FactoryDb {
  db_directory : directory;
  db_items : gmap uuid (factory_work_item * uuid);          (* with the claim token *)
  db_operations : gmap (uuid * string) factory_operation;   (* (corp, idempotency key) *)
  db_log : event_log;
}.

#[global] Instance factory_db_directory : HasDirectory factory_db := db_directory.
#[global] Instance factory_db_log : HasLog factory_db := {|
  get_log := db_log;
  set_log l db := FactoryDb (db_directory db) (db_items db) (db_operations db) l;
|}.
#[global] Instance factory_db_log_laws : HasLogLaws factory_db.
Proof. by split. Qed.

Definition set_items (f : gmap uuid (factory_work_item * uuid) → gmap uuid (factory_work_item * uuid))
    (db : factory_db) : factory_db :=
  FactoryDb (db_directory db) (f (db_items db)) (db_operations db) (db_log db).
Definition set_operations
    (f : gmap (uuid * string) factory_operation → gmap (uuid * string) factory_operation)
    (db : factory_db) : factory_db :=
  FactoryDb (db_directory db) (db_items db) (f (db_operations db)) (db_log db).

Record work_item_outcome := FactoryWorkItemOutcome {
  out_work_item : factory_work_item;
  out_claim_token : option uuid;
  out_event : option new_event;
  out_replayed : bool;
}.

(** What a handler takes from the world: the clock and two random UUIDs. *)
Record environment := Environment { e_now : timestamp; e_claim_token : uuid; e_work_item_id : uuid }.

Record claim_input := ClaimFactoryWorkItemInput {
  ci_corp_id : uuid; ci_actor_id : uuid; ci_source : factory_source;
  ci_idempotency_key : string; ci_lease_seconds : Z; ci_policy : json }.
Record renew_input := RenewFactoryWorkItemInput {
  ri_corp_id : uuid; ri_work_item_id : uuid; ri_actor_id : uuid; ri_claim_token : uuid;
  ri_expected_version : Z; ri_idempotency_key : string; ri_lease_seconds : Z }.
Record transition_input := TransitionFactoryWorkItemInput {
  ti_corp_id : uuid; ti_work_item_id : uuid; ti_actor_id : uuid; ti_claim_token : uuid;
  ti_expected_version : Z; ti_idempotency_key : string; ti_state : factory_work_item_state;
  ti_failure_detail : option string }.

(** ** The state machine of an item *)
Import ItemState.

Definition factory_state_is_terminal (state : factory_work_item_state) : bool :=
  match state with Published | Failed | Cancelled => true | _ => false end.

Definition factory_transition_allowed (from to : factory_work_item_state) : bool :=
  match from with
  | Claimed => match to with Blocked | Failed | Cancelled => true | _ => false end
  | MissionCreated =>
      match to with
      | Running | Blocked | AwaitingApproval | VerificationFailed | Verified | Failed
      | Cancelled => true
      | _ => false
      end
  | Running =>
      match to with
      | Blocked | AwaitingApproval | VerificationFailed | Verified | Failed | Cancelled => true
      | _ => false
      end
  | Blocked =>
      match to with
      | Running | AwaitingApproval | VerificationFailed | Verified | Failed | Cancelled => true
      | _ => false
      end
  | AwaitingApproval =>
      match to with
      | Running | Blocked | VerificationFailed | Verified | Failed | Cancelled => true
      | _ => false
      end
  | VerificationFailed => match to with Blocked | Failed | Cancelled => true | _ => false end
  | Verified => match to with Publishing | Published | Failed | Cancelled => true | _ => false end
  | Publishing => match to with Verified | Published | Failed | Cancelled => true | _ => false end
  | Published | Failed | Cancelled => false
  end.

(** ** Guards *)
Section factory_items.
Context `{Serde}.

Definition ensure_active_factory_control (work_item : factory_work_item)
    (current_token actor_id presented_token : uuid) (expected_version : Z) (now : timestamp) :
    result unit :=
  bail_if (factory_state_is_terminal (fw_state work_item))
    ("conflict: factory work item " +:+ uuid_to_string (fw_id work_item)
     +:+ " is terminal in state " +:+ item_state_as_str (fw_state work_item));;
  bail_if (negb (fw_claim_owner_id work_item =? actor_id)%N
           || negb (current_token =? presented_token)%N)
    "conflict: stale or unauthorized factory claim token";;
  bail_if (negb (fw_version work_item =? expected_version)%Z)
    ("conflict: factory work item version is " +:+ show_int (fw_version work_item)
     +:+ ", not " +:+ show_int expected_version);;
  bail_if (fw_lease_expires_at work_item <=? now)%Z "conflict: factory claim lease has expired".

Definition ensure_materializable_factory_claim (work_item : factory_work_item)
    (current_token actor_id presented_token : uuid) (expected_version : Z) (now : timestamp) :
    result unit :=
  ensure_active_factory_control work_item current_token actor_id presented_token expected_version now;;
  bail_if (negb (bool_decide (fw_state work_item = Claimed)) || is_some (fw_mission_id work_item))
    ("conflict: factory work item " +:+ uuid_to_string (fw_id work_item)
     +:+ " cannot materialize from state " +:+ item_state_as_str (fw_state work_item)).

Definition ensure_factory_source_matches (work_item : factory_work_item) (source : factory_source) :
    result unit :=
  bail_if (negb (seqb (fw_source_kind work_item) "github_project_issue")
           || negb (bool_decide (fw_source work_item = source)))
    "factory idempotency key was reused for a different source revision".

Definition replayable_factory_claim_token (work_item : factory_work_item) (current_token : uuid)
    (operation : factory_operation) (now : timestamp) : option uuid :=
  match op_claim_token operation with
  | None => None
  | Some operation_token =>
      if negb (factory_state_is_terminal (fw_state work_item))
         && (fw_claim_owner_id work_item =? op_actor_id operation)%N
         && (op_resulting_version operation <=? fw_version work_item)%Z
         && (now <? fw_lease_expires_at work_item)%Z
         && (current_token =? operation_token)%N
      then Some operation_token else None
  end.

(** ** Operations and rows *)
Definition factory_operation_tx (corp_id : uuid) (idempotency_key : string) :
    txn factory_db (option factory_operation) :=
  gets (λ db, db_operations db !! (corp_id, idempotency_key)).

Definition ensure_factory_operation_matches (operation : factory_operation)
    (expected_operation : string) (actor_id : uuid) (work_item_id claim_token : option uuid)
    (request : json) : result unit :=
  bail_if (negb (seqb (op_operation operation) expected_operation)
           || negb (op_actor_id operation =? actor_id)%N
           || match work_item_id with
              | Some expected => negb (expected =? op_work_item_id operation)%N
              | None => false
              end
           || match claim_token with
              | Some expected => negb (bool_decide (Some expected = op_claim_token operation))
              | None => false
              end
           || negb (bool_decide (op_request operation = request)))
    "factory idempotency key was already used for a different operation".

(** INSERT INTO factory_operations; (corp_id, idempotency_key) is the key. *)
Definition record_factory_operation_tx (corp_id : uuid) (idempotency_key : string)
    (operation : factory_operation) : txn factory_db unit :=
  taken ← gets (λ db, is_some (db_operations db !! (corp_id, idempotency_key)));
  lift (bail_if taken "duplicate key value violates unique constraint");;
  modify (set_operations <[(corp_id, idempotency_key) := operation]>).

Definition factory_work_item_tx (corp_id work_item_id : uuid) :
    txn factory_db (option (factory_work_item * uuid)) :=
  gets (λ db, row ← db_items db !! work_item_id;
              if (fw_corp_id row.1 =? corp_id)%N then Some row else None).

(** The SELECT by source; at most one row has a given source. *)
Definition has_source (corp_id : uuid) (source : factory_source)
    (row : uuid * (factory_work_item * uuid)) : bool :=
  let item := row.2.1 in
  (fw_corp_id item =? corp_id)%N
  && seqb (fw_source_kind item) "github_project_issue"
  && seqb (src_project_owner (fw_source item)) (src_project_owner source)
  && (src_project_number (fw_source item) =? src_project_number source)%Z
  && seqb (src_project_item_id (fw_source item)) (src_project_item_id source).
Definition item_by_source_tx (corp_id : uuid) (source : factory_source) :
    txn factory_db (option (factory_work_item * uuid)) :=
  gets (λ db, snd <$> find (has_source corp_id source) (map_to_list (db_items db))).

(** Store a row: the claim token is UNIQUE over all items. *)
Definition token_taken (id token : uuid) (items : gmap uuid (factory_work_item * uuid)) : bool :=
  existsb (λ '(id', (_, token')), negb (id' =? id)%N && (token' =? token)%N) (map_to_list items).
Definition store_item_tx (item : factory_work_item) (token : uuid) :
    txn factory_db factory_work_item :=
  taken ← gets (λ db, token_taken (fw_id item) token (db_items db));
  lift (bail_if taken "duplicate key value violates unique constraint");;
  modify (set_items <[fw_id item := (item, token)]>);;
  mret item.

(** [version + 1] in a BIGINT column *)
Definition next_version (version : Z) : result Z :=
  with_context (checked_i64 (version + 1)) "bigint out of range".

Definition factory_event_room_id (corp_id : uuid) (mission_id : option uuid) (dir : directory) :
    result (option uuid) :=
  match mission_id with
  | None => Ok None
  | Some mission_id =>
      room ← with_context
        (m ← dir_missions dir !! mission_id;
         if (mission_corp m =? corp_id)%N then Some (mission_room m) else None)
        ("factory mission " +:+ uuid_to_string mission_id +:+ " has no scoped room");
      Ok (Some room)
  end.
Definition factory_event_room_id_tx (corp_id : uuid) (mission_id : option uuid) :
    txn factory_db (option uuid) :=
  read_directory (factory_event_room_id corp_id mission_id).

(** The EXISTS query of [ensure_factory_mission_verified_tx]. *)
Definition mission_tasks (corp_id mission_id : uuid) (dir : directory) : list task_row :=
  List.filter (λ t, (task_mission t =? mission_id)%N && (task_corp t =? corp_id)%N)
    ((map_to_list (dir_tasks dir)).*2).
Definition task_is_verified (t : task_row) : bool :=
  bool_decide (task_status_of t = TaskStatus.Completed)
  && seqb (task_verification_status t) "passed".
Definition factory_mission_verified (corp_id mission_id : uuid) (dir : directory) : bool :=
  match dir_missions dir !! mission_id with
  | Some m =>
      (mission_corp m =? corp_id)%N
      && bool_decide (mission_status_of m = MissionStatus.Completed)
      && negb (vec_is_empty (mission_tasks corp_id mission_id dir))
      && forallb task_is_verified (mission_tasks corp_id mission_id dir)
  | None => false
  end.
Definition ensure_factory_mission_verified_tx (corp_id mission_id : uuid) : txn factory_db unit :=
  read_directory (λ dir, bail_if (negb (factory_mission_verified corp_id mission_id dir))
    "conflict: factory work item cannot enter verified before its mission and task verification pass").
End factory_items.

(** ** The handlers *)
Section handlers.
Context `{Serde}.

(** *** Claim *)
Definition claim_request (source : factory_source) (lease_seconds : Z) (policy : json) : json :=
  json_object
    [("source_project_owner", JStr (src_project_owner source));
     ("source_project_number", JInt (src_project_number source));
     ("source_project_item_id", JStr (src_project_item_id source));
     ("source_repository_owner", JStr (src_repository_owner source));
     ("source_repository_name", JStr (src_repository_name source));
     ("source_issue_number", JInt (src_issue_number source));
     ("source_issue_node_id", JStr (src_issue_node_id source));
     ("source_issue_url", JStr (src_issue_url source));
     ("source_title", JStr (src_title source));
     ("source_revision", JStr (src_revision source));
     ("lease_seconds", JInt lease_seconds);
     ("policy", policy)].

(** The input after the normalisation at the head of the handler. *)
Record claim_request_of := ClaimRequest {
  cr_corp_id : uuid; cr_actor_id : uuid; cr_source : factory_source; cr_key : string;
  cr_lease_seconds : Z; cr_policy : json; cr_connection : option uuid }.

Definition cr_operation_request (r : claim_request_of) : json :=
  claim_request (cr_source r) (cr_lease_seconds r) (cr_policy r).

Definition prepare_claim (input : claim_input) : result claim_request_of :=
  source ← normalize_factory_source (ci_source input);
  idempotency_key ← normalize_factory_idempotency_key (ci_idempotency_key input);
  lease_seconds ← validate_factory_lease_seconds (ci_lease_seconds input);
  policy ← normalize_factory_policy (ci_policy input);
  workspace_connection_id ← factory_workspace_connection_id policy;
  Ok (ClaimRequest (ci_corp_id input) (ci_actor_id input) source idempotency_key lease_seconds
        policy workspace_connection_id).

Definition assert_claim_connection (r : claim_request_of) : txn factory_db unit :=
  match cr_connection r with
  | Some connection_id =>
      assert_connection_operator_tx (cr_corp_id r) (cr_actor_id r) connection_id
  | None => mret tt
  end.

Definition claim_operation (r : claim_request_of) (item : factory_work_item) (token : uuid) :
    factory_operation :=
  FactoryOperation (fw_id item) (cr_actor_id r) "claim" (fw_version item) (Some token)
    (cr_operation_request r).

(** The idempotency key is known: answer as before, without an effect. *)
Definition claim_replay (env : environment) (r : claim_request_of) (operation : factory_operation) :
    txn factory_db work_item_outcome :=
  lift (ensure_factory_operation_matches operation "claim" (cr_actor_id r) None None
          (cr_operation_request r));;
  row ← factory_work_item_tx (cr_corp_id r) (op_work_item_id operation);
  row ← lift (with_context row "idempotent factory claim references a missing work item");
  let '(work_item, current_token) := row in
  lift (ensure_factory_source_matches work_item (cr_source r));;
  lift (bail_if (negb (bool_decide (fw_policy work_item = cr_policy r)))
          "factory idempotency key was reused with a different policy snapshot");;
  assert_claim_connection r;;
  mret (FactoryWorkItemOutcome work_item
          (replayable_factory_claim_token work_item current_token operation (e_now env)) None true).

(** The actor already holds the item: record the key, hand the token out again. *)
Definition claim_held (r : claim_request_of) (current : factory_work_item) (current_token : uuid) :
    txn factory_db work_item_outcome :=
  lift (ensure_factory_source_matches current (cr_source r));;
  lift (bail_if (negb (bool_decide (fw_policy current = cr_policy r)))
          "factory recovery policy does not match the persisted policy snapshot");;
  assert_claim_connection r;;
  record_factory_operation_tx (cr_corp_id r) (cr_key r) (claim_operation r current current_token);;
  mret (FactoryWorkItemOutcome current (Some current_token) None true).

Definition lease_end (env : environment) (lease_seconds : Z) : timestamp :=
  (e_now env + seconds lease_seconds)%Z.

(** An expired lease is taken over; an item without a mission starts again. *)
Definition reclaim (env : environment) (r : claim_request_of) (current : factory_work_item)
    (current_token : uuid) : txn factory_db factory_work_item :=
  lift (bail_if (current_token =? e_claim_token env)%N "factory claim token collision");;
  lift (ensure_factory_source_matches current (cr_source r));;
  lift (bail_if (negb (bool_decide (fw_policy current = cr_policy r)))
          "factory recovery policy does not match the persisted policy snapshot");;
  version ← lift (next_version (fw_version current));
  let preserves_materialized_state := is_some (fw_mission_id current) in
  store_item_tx
    (FactoryWorkItem (fw_id current) (fw_corp_id current) (fw_source_kind current)
       (fw_source current)
       (if preserves_materialized_state then fw_state current else Claimed)
       version (cr_actor_id r) (lease_end env (cr_lease_seconds r)) (fw_policy current)
       (fw_mission_id current)
       (if preserves_materialized_state then fw_failure_detail current else None))
    (e_claim_token env).

Definition claim_new (env : environment) (r : claim_request_of) : txn factory_db factory_work_item :=
  lift (ensure_new_factory_policy_is_pinned (cr_policy r));;
  taken ← gets (λ db, is_some (db_items db !! e_work_item_id env));
  lift (bail_if taken "duplicate key value violates unique constraint");;
  store_item_tx
    (FactoryWorkItem (e_work_item_id env) (cr_corp_id r) "github_project_issue" (cr_source r)
       Claimed 1 (cr_actor_id r) (lease_end env (cr_lease_seconds r)) (cr_policy r) None None)
    (e_claim_token env).

Definition claim_event (corp_id : uuid) (event_type : string) (item : factory_work_item)
    (actor_id : uuid) : new_event :=
  new_event_of corp_id (Some actor_id) event_type "factory_work_item" (fw_id item)
    ("factory:" +:+ uuid_to_string (fw_id item) +:+ ":claim:" +:+ show_int (fw_version item))
    (json_object [("claim_owner_id", JStr (uuid_to_string (fw_claim_owner_id item)));
                  ("lease_expires_at", JStr (timestamp_rfc3339 (fw_lease_expires_at item)));
                  ("state", JStr (item_state_as_str (fw_state item)))]).

(** The common end of a first claim and a reclaim. *)
Definition claim_finish (env : environment) (r : claim_request_of) (work_item : factory_work_item)
    (event_type : string) : txn factory_db work_item_outcome :=
  assert_claim_connection r;;
  record_factory_operation_tx (cr_corp_id r) (cr_key r)
    (claim_operation r work_item (e_claim_token env));;
  event_room_id ← factory_event_room_id_tx (cr_corp_id r) (fw_mission_id work_item);
  event ← append_new_event
    (at_version event_room_id (fw_version work_item)
       (claim_event (cr_corp_id r) event_type work_item (cr_actor_id r)))
    "factory claim event unexpectedly existed";
  mret (FactoryWorkItemOutcome work_item (Some (e_claim_token env)) (Some event) false).

Definition claim_existing (env : environment) (r : claim_request_of) (current : factory_work_item)
    (current_token : uuid) : txn factory_db work_item_outcome :=
  lift (bail_if (factory_state_is_terminal (fw_state current))
          ("conflict: factory work item " +:+ uuid_to_string (fw_id current)
           +:+ " is terminal in state " +:+ item_state_as_str (fw_state current)));;
  if (e_now env <? fw_lease_expires_at current)%Z then
    if (fw_claim_owner_id current =? cr_actor_id r)%N then claim_held r current current_token
    else lift (Err ("conflict: factory work item " +:+ uuid_to_string (fw_id current)
                    +:+ " is claimed until " +:+ timestamp_display (fw_lease_expires_at current)))
  else
    work_item ← reclaim env r current current_token;
    claim_finish env r work_item "factory.work_item_reclaimed".

Definition claim_factory_work_item (env : environment) (input : claim_input) :
    txn factory_db work_item_outcome :=
  r ← lift (prepare_claim input);
  assert_actor_scope_tx (cr_corp_id r) (cr_actor_id r);;
  operation ← factory_operation_tx (cr_corp_id r) (cr_key r);
  match operation with
  | Some operation => claim_replay env r operation
  | None =>
      existing ← item_by_source_tx (cr_corp_id r) (cr_source r);
      match existing with
      | Some (current, current_token) => claim_existing env r current current_token
      | None =>
          work_item ← claim_new env r;
          claim_finish env r work_item "factory.work_item_claimed"
      end
  end.

(** *** Renew *)
Definition renew_request (input : renew_input) : json :=
  json_object
    [("work_item_id", JStr (uuid_to_string (ri_work_item_id input)));
     ("expected_version", JInt (ri_expected_version input));
     ("lease_seconds", JInt (ri_lease_seconds input))].

(** A known key of a fenced operation: the answer is the item as it is now. *)
Definition fenced_replay (env : environment) (operation : factory_operation)
    (expected_operation : string) (corp_id work_item_id actor_id claim_token : uuid) (request : json)
    (missing : string) : txn factory_db work_item_outcome :=
  lift (ensure_factory_operation_matches operation expected_operation actor_id
          (Some work_item_id) (Some claim_token) request);;
  row ← factory_work_item_tx corp_id work_item_id;
  row ← lift (with_context row missing);
  let '(work_item, current_token) := row in
  mret (FactoryWorkItemOutcome work_item
          (replayable_factory_claim_token work_item current_token operation (e_now env)) None true).

(** Read the item for an update by the holder of its claim. *)
Definition controlled_item (env : environment) (corp_id work_item_id actor_id claim_token : uuid)
    (expected_version : Z) : txn factory_db (factory_work_item * uuid) :=
  row ← factory_work_item_tx corp_id work_item_id;
  row ← lift (with_context row "factory work item not found");
  let '(current, current_token) := row in
  lift (ensure_active_factory_control current current_token actor_id claim_token expected_version
          (e_now env));;
  mret (current, current_token).

Definition renew_event (corp_id : uuid) (item : factory_work_item) (actor_id : uuid) : new_event :=
  new_event_of corp_id (Some actor_id) "factory.claim_renewed" "factory_work_item"
    (fw_id item)
    ("factory:" +:+ uuid_to_string (fw_id item) +:+ ":renew:" +:+ show_int (fw_version item))
    (json_object [("claim_owner_id", JStr (uuid_to_string (fw_claim_owner_id item)));
                  ("lease_expires_at", JStr (timestamp_rfc3339 (fw_lease_expires_at item)));
                  ("state", JStr (item_state_as_str (fw_state item)))]).

Definition renew_update (env : environment) (input : renew_input) (current : factory_work_item)
    (version : Z) : factory_work_item :=
  FactoryWorkItem (fw_id current) (fw_corp_id current) (fw_source_kind current) (fw_source current)
    (fw_state current) version (fw_claim_owner_id current)
    (lease_end env (ri_lease_seconds input)) (fw_policy current) (fw_mission_id current)
    (fw_failure_detail current).

Definition renew_factory_work_item (env : environment) (input : renew_input) :
    txn factory_db work_item_outcome :=
  lift (bail_if (ri_expected_version input <=? 0)%Z
          "expected factory work-item version must be positive");;
  idempotency_key ← lift (normalize_factory_idempotency_key (ri_idempotency_key input));
  lease_seconds ← lift (validate_factory_lease_seconds (ri_lease_seconds input));
  assert_actor_scope_tx (ri_corp_id input) (ri_actor_id input);;
  operation ← factory_operation_tx (ri_corp_id input) idempotency_key;
  match operation with
  | Some operation =>
      fenced_replay env operation "renew" (ri_corp_id input) (ri_work_item_id input)
        (ri_actor_id input) (ri_claim_token input) (renew_request input)
        "idempotent factory renewal references a missing work item"
  | None =>
      row ← controlled_item env (ri_corp_id input) (ri_work_item_id input) (ri_actor_id input)
              (ri_claim_token input) (ri_expected_version input);
      let '(current, current_token) := row in
      version ← lift (next_version (fw_version current));
      work_item ← store_item_tx (renew_update env input current version) current_token;
      record_factory_operation_tx (ri_corp_id input) idempotency_key
        (FactoryOperation (fw_id work_item) (ri_actor_id input) "renew" (fw_version work_item)
           (Some (ri_claim_token input)) (renew_request input));;
      event_room_id ← factory_event_room_id_tx (ri_corp_id input) (fw_mission_id work_item);
      event ← append_new_event
        (at_version event_room_id (fw_version work_item)
           (renew_event (ri_corp_id input) work_item (ri_actor_id input)))
        "factory renewal event unexpectedly existed";
      mret (FactoryWorkItemOutcome work_item (Some (ri_claim_token input)) (Some event) false)
  end.

(** *** Transition *)
Definition needs_dedicated_operation (state : factory_work_item_state) : bool :=
  match state with Claimed | MissionCreated | Publishing | Published => true | _ => false end.
Definition needs_failure_detail (state : factory_work_item_state) : bool :=
  match state with Blocked | VerificationFailed | Failed => true | _ => false end.
Definition allowed_without_mission (state : factory_work_item_state) : bool :=
  match state with Blocked | Failed | Cancelled => true | _ => false end.

Definition transition_request (input : transition_input) (failure_detail : option string) : json :=
  json_object
    [("work_item_id", JStr (uuid_to_string (ti_work_item_id input)));
     ("expected_version", JInt (ti_expected_version input));
     ("state", JStr (item_state_as_str (ti_state input)));
     ("failure_detail", json_opt_str failure_detail)].

(** The checks before the transaction; the normalised detail and key. *)
Definition prepare_transition (input : transition_input) : result (option string * string) :=
  bail_if (ti_expected_version input <=? 0)%Z "expected factory work-item version must be positive";;
  bail_if (needs_dedicated_operation (ti_state input))
    "claim, materialization, and publication states require their dedicated operations";;
  failure_detail ← transpose (λ detail, normalize_factory_text detail "factory failure detail" 2000)
                     (ti_failure_detail input);
  bail_if (needs_failure_detail (ti_state input) && negb (is_some failure_detail))
    "blocked and failed factory states require a failure detail";;
  idempotency_key ← normalize_factory_idempotency_key (ti_idempotency_key input);
  Ok (failure_detail, idempotency_key).

(** The guards on the current row. *)
Definition check_transition (input : transition_input) (current : factory_work_item) :
    txn factory_db unit :=
  lift (bail_if (negb (factory_transition_allowed (fw_state current) (ti_state input)))
          ("conflict: factory transition " +:+ item_state_as_str (fw_state current) +:+ " -> "
           +:+ item_state_as_str (ti_state input) +:+ " is not allowed"));;
  lift (bail_if (negb (is_some (fw_mission_id current)) && negb (allowed_without_mission (ti_state input)))
          ("conflict: factory work item must link a mission before entering "
           +:+ item_state_as_str (ti_state input)));;
  if bool_decide (ti_state input = Verified) then
    mission_id ← lift (with_context (fw_mission_id current)
                         "factory work item has no linked mission");
    ensure_factory_mission_verified_tx (ti_corp_id input) mission_id
  else mret tt.

Definition transition_update (env : environment) (input : transition_input)
    (failure_detail : option string) (current : factory_work_item) (version : Z) :
    factory_work_item :=
  FactoryWorkItem (fw_id current) (fw_corp_id current) (fw_source_kind current) (fw_source current)
    (ti_state input) version (fw_claim_owner_id current)
    (if negb (is_some (fw_mission_id current)) && bool_decide (ti_state input = Blocked)
     then (e_now env - seconds 1)%Z else fw_lease_expires_at current)
    (fw_policy current) (fw_mission_id current) failure_detail.

Definition transition_event (corp_id : uuid) (previous item : factory_work_item) (actor_id : uuid) :
    new_event :=
  correlated (fw_mission_id item)
    (new_event_of corp_id (Some actor_id) "factory.state_changed" "factory_work_item"
       (fw_id item)
       ("factory:" +:+ uuid_to_string (fw_id item) +:+ ":state:"
        +:+ item_state_as_str (fw_state item) +:+ ":" +:+ show_int (fw_version item))
       (json_object [("previous_state", JStr (item_state_as_str (fw_state previous)));
                     ("state", JStr (item_state_as_str (fw_state item)));
                     ("mission_id", json_opt_str (uuid_to_string <$> fw_mission_id item));
                     ("failure_detail", json_opt_str (fw_failure_detail item))])).

Definition transition_factory_work_item (env : environment) (input : transition_input) :
    txn factory_db work_item_outcome :=
  prepared ← lift (prepare_transition input);
  let '(failure_detail, idempotency_key) := prepared in
  assert_actor_scope_tx (ti_corp_id input) (ti_actor_id input);;
  operation ← factory_operation_tx (ti_corp_id input) idempotency_key;
  match operation with
  | Some operation =>
      fenced_replay env operation "transition" (ti_corp_id input) (ti_work_item_id input)
        (ti_actor_id input) (ti_claim_token input) (transition_request input failure_detail)
        "idempotent factory transition references a missing work item"
  | None =>
      row ← controlled_item env (ti_corp_id input) (ti_work_item_id input) (ti_actor_id input)
              (ti_claim_token input) (ti_expected_version input);
      let '(current, current_token) := row in
      check_transition input current;;
      version ← lift (next_version (fw_version current));
      work_item ← store_item_tx (transition_update env input failure_detail current version) current_token;
      record_factory_operation_tx (ti_corp_id input) idempotency_key
        (FactoryOperation (fw_id work_item) (ti_actor_id input) "transition" (fw_version work_item)
           (Some (ti_claim_token input)) (transition_request input failure_detail));;
      event_room_id ← factory_event_room_id_tx (ti_corp_id input) (fw_mission_id work_item);
      event ← append_new_event
        (at_version event_room_id (fw_version work_item)
           (transition_event (ti_corp_id input) current work_item (ti_actor_id input)))
        "factory state-change event unexpectedly existed";
      mret (FactoryWorkItemOutcome work_item (Some (ti_claim_token input)) (Some event) false)
  end.

(** ** The system: any of the three requests, run as a transaction *)
Inductive factory_request :=
| ClaimRequest_ (input : claim_input)
| RenewRequest (input : renew_input)
| TransitionRequest (input : transition_input).

Definition handle (env : environment) (request : factory_request) : txn factory_db work_item_outcome :=
  match request with
  | ClaimRequest_ input => claim_factory_work_item env input
  | RenewRequest input => renew_factory_work_item env input
  | TransitionRequest input => transition_factory_work_item env input
  end.

Definition request_actor (request : factory_request) : uuid :=
  match request with
  | ClaimRequest_ input => ci_actor_id input
  | RenewRequest input => ri_actor_id input
  | TransitionRequest input => ti_actor_id input
  end.

(** The events a claim, a renewal and a transition write carry the version of
    the item, so the key of an event is fresh as long as versions are. *)
Inductive factory_step : factory_db → factory_db → Prop :=
| factory_step_handle env request db : factory_step db (run_txn (handle env request) db).2
| factory_step_directory dir db :
    (* missions, tasks and actors change under the feet of the factory *)
    factory_step db (FactoryDb dir (db_items db) (db_operations db) (db_log db)).
End handlers.

(** ** Lemmas: what a handler does *)

(** The ways a row of the table changes. *)
Inductive item_change `{Serde} (env : environment) (db : factory_db) :
    factory_request → factory_work_item → uuid → Prop :=
| change_claimed input r :
    prepare_claim input = Ok r →
    db_items db !! e_work_item_id env = None →
    (∀ id row, db_items db !! id = Some row → has_source (cr_corp_id r) (cr_source r) (id, row) = false) →
    ensure_new_factory_policy_is_pinned (cr_policy r) = Ok tt →
    item_change env db (ClaimRequest_ input)
      (FactoryWorkItem (e_work_item_id env) (cr_corp_id r) "github_project_issue" (cr_source r)
         Claimed 1 (cr_actor_id r) (lease_end env (cr_lease_seconds r)) (cr_policy r) None None)
      (e_claim_token env)
| change_reclaimed input r id current token version :
    prepare_claim input = Ok r →
    db_items db !! id = Some (current, token) →
    factory_state_is_terminal (fw_state current) = false →
    (fw_lease_expires_at current ≤ e_now env)%Z →
    token ≠ e_claim_token env →
    fw_source current = cr_source r → fw_policy current = cr_policy r →
    next_version (fw_version current) = Ok version →
    item_change env db (ClaimRequest_ input)
      (FactoryWorkItem (fw_id current) (fw_corp_id current) (fw_source_kind current)
         (fw_source current) (if is_some (fw_mission_id current) then fw_state current else Claimed)
         version (cr_actor_id r) (lease_end env (cr_lease_seconds r)) (fw_policy current)
         (fw_mission_id current)
         (if is_some (fw_mission_id current) then fw_failure_detail current else None))
      (e_claim_token env)
| change_renewed input current token version :
    db_items db !! ri_work_item_id input = Some (current, token) →
    ensure_active_factory_control current token (ri_actor_id input) (ri_claim_token input)
      (ri_expected_version input) (e_now env) = Ok tt →
    next_version (fw_version current) = Ok version →
    item_change env db (RenewRequest input) (renew_update env input current version) token
| change_transitioned input failure_detail key current token version :
    prepare_transition input = Ok (failure_detail, key) →
    db_items db !! ti_work_item_id input = Some (current, token) →
    ensure_active_factory_control current token (ti_actor_id input) (ti_claim_token input)
      (ti_expected_version input) (e_now env) = Ok tt →
    check_transition input current db = Ok (tt, db) →
    next_version (fw_version current) = Ok version →
    item_change env db (TransitionRequest input)
      (transition_update env input failure_detail current version) token.

(** A handler that succeeds either leaves the database alone, or only records
    the key of a claim its holder repeats, or changes one row, and then records
    one operation and appends one event, both at the new version. *)
Inductive handled `{Serde} (env : environment) (request : factory_request) (db : factory_db) :
    work_item_outcome → factory_db → Prop :=
| handled_replay out : out_replayed out = true → out_event out = None →
    handled env request db out db
| handled_held input key op current token id : request = ClaimRequest_ input →
    db_operations db !! key = None →
    db_items db !! id = Some (current, token) → fw_corp_id current = key.1 →
    fw_claim_owner_id current = request_actor request →
    op_work_item_id op = fw_id current → op_resulting_version op = fw_version current →
    op_claim_token op = Some token →
    handled env request db (FactoryWorkItemOutcome current (Some token) None true)
      (set_operations <[key := op]> db)
| handled_change key op item token event db' : db_operations db !! key = None →
    item_change env db request item token →
    fw_claim_owner_id item = request_actor request →
    token_taken (fw_id item) token (db_items db) = false →
    fw_corp_id item = key.1 →
    op_work_item_id op = fw_id item → op_resulting_version op = fw_version item →
    op_claim_token op = Some token →
    ev_aggregate_id event = fw_id item → ev_aggregate_version event = fw_version item →
    db' = FactoryDb (db_directory db) (<[fw_id item := (item, token)]> (db_items db))
            (<[key := op]> (db_operations db)) (db_log db ++ [event]) →
    handled env request db (FactoryWorkItemOutcome item (Some token) (Some event) false) db'.

Section handler_lemmas.
Context `{Serde}.

Lemma active_control_ok item tok actor presented version now :
  ensure_active_factory_control item tok actor presented version now = Ok tt ↔
  factory_state_is_terminal (fw_state item) = false ∧ fw_claim_owner_id item = actor ∧
  tok = presented ∧ fw_version item = version ∧ (now < fw_lease_expires_at item)%Z.
Proof.
  unfold ensure_active_factory_control. split.
  - intros H1. res_inv. rewrite N.eqb_eq in *. split_and!; try done; lia.
  - intros (-> & -> & -> & -> & Hl). rewrite !N.eqb_refl, Z.eqb_refl. simpl.
    by replace (_ <=? _)%Z with false by lia.
Qed.

Lemma work_item_tx_ok corp id db row db' :
  factory_work_item_tx corp id db = Ok (Some row, db') ↔
  db' = db ∧ db_items db !! id = Some row ∧ fw_corp_id row.1 = corp.
Proof.
  unfold factory_work_item_tx, gets. split.
  - intros [= H1 <-]. apply bind_Some in H1 as (row' & Hr & H1). case_match eqn:E; simplify_eq.
    by apply N.eqb_eq in E.
  - intros (-> & Hr & Hc). rewrite Hr. simpl. by rewrite Hc, N.eqb_refl.
Qed.

Lemma record_operation_ok corp key op db u db' :
  record_factory_operation_tx corp key op db = Ok (u, db') →
  db_operations db !! (corp, key) = None ∧ db' = set_operations <[(corp, key) := op]> db.
Proof.
  unfold record_factory_operation_tx. intros H1. txn_inv.
  match goal with H : bail_if _ _ = Ok _ |- _ => apply bail_if_ok in H end.
  by destruct (db_operations _ !! _).
Qed.

Lemma store_item_ok item token db item' db' :
  store_item_tx item token db = Ok (item', db') →
  item' = item ∧ token_taken (fw_id item) token (db_items db) = false ∧
  db' = set_items <[fw_id item := (item, token)]> db.
Proof.
  unfold store_item_tx. intros H1. txn_inv.
  by match goal with H : bail_if _ _ = Ok _ |- _ => apply bail_if_ok in H end.
Qed.

Lemma connection_operator_ok `{HasDirectory St} corp actor id (s : St) u s' :
  assert_connection_operator_tx corp actor id s = Ok (u, s') → s' = s.
Proof. unfold assert_connection_operator_tx, assert_mission_operator_tx, actor_role_tx. intros H1. by txn_inv. Qed.

Lemma claim_connection_ok r db u db' : assert_claim_connection r db = Ok (u, db') → db' = db.
Proof.
  unfold assert_claim_connection. destruct (cr_connection r).
  - apply connection_operator_ok.
  - intros H1. by txn_inv.
Qed.

Lemma item_by_source_ok corp source db r db' :
  item_by_source_tx corp source db = Ok (r, db') →
  db' = db ∧
  match r with
  | Some row => ∃ id, db_items db !! id = Some row ∧ has_source corp source (id, row) = true
  | None => ∀ id row, db_items db !! id = Some row → has_source corp source (id, row) = false
  end.
Proof.
  unfold item_by_source_tx, gets. intros [= <- <-]. split; [done |].
  destruct (find _ _) as [[id row]|] eqn:E; simpl.
  - apply find_some in E as [Hin Hs]. apply list_elem_of_In, elem_of_map_to_list in Hin. eauto.
  - intros id row Hr. eapply find_none in E; [done |].
    by apply list_elem_of_In, elem_of_map_to_list.
Qed.

Lemma source_matches_ok item source :
  ensure_factory_source_matches item source = Ok tt →
  fw_source_kind item = "github_project_issue" ∧ fw_source item = source.
Proof.
  unfold ensure_factory_source_matches. rewrite bail_if_ok, orb_false_iff, !negb_false_iff.
  by rewrite seqb_eq, bool_decide_eq_true.
Qed.

Lemma finish_ok env r item event_type db out db' :
  claim_finish env r item event_type db = Ok (out, db') →
  ∃ event, out = FactoryWorkItemOutcome item (Some (e_claim_token env)) (Some event) false ∧
    ev_aggregate_id event = fw_id item ∧ ev_aggregate_version event = fw_version item ∧
    db_operations db !! (cr_corp_id r, cr_key r) = None ∧
    db' = FactoryDb (db_directory db) (db_items db)
            (<[(cr_corp_id r, cr_key r) := claim_operation r item (e_claim_token env)]> (db_operations db))
            (db_log db ++ [event]).
Proof.
  unfold claim_finish, factory_event_room_id_tx. intros H1. txn_inv.
  apply claim_connection_ok in Ha as ->. apply record_operation_ok in Ha0 as [? ->].
  eexists. by split_and!.
Qed.
End handler_lemmas.

(** Rows are stored under their id. *)
Definition keyed (db : factory_db) : Prop :=
  ∀ id item token, db_items db !! id = Some (item, token) → fw_id item = id.

Section handled.
Context `{Serde}.

Lemma prepare_claim_ids input r : prepare_claim input = Ok r →
  cr_corp_id r = ci_corp_id input ∧ cr_actor_id r = ci_actor_id input.
Proof. unfold prepare_claim. intros H1. by res_inv. Qed.

Lemma has_source_corp corp source id item token :
  has_source corp source (id, (item, token)) = true → fw_corp_id item = corp.
Proof. unfold has_source. simpl. intros H1. res_inv. by apply N.eqb_eq. Qed.

Lemma claim_existing_handled env input r id current tok db out db' :
  prepare_claim input = Ok r → db_operations db !! (cr_corp_id r, cr_key r) = None →
  db_items db !! id = Some (current, tok) → fw_corp_id current = cr_corp_id r →
  claim_existing env r current tok db = Ok (out, db') →
  handled env (ClaimRequest_ input) db out db'.
Proof.
  intros Hp Hop Hrow Hc H1. destruct (prepare_claim_ids _ _ Hp) as [Hcorp Hactor].
  unfold claim_existing in H1. txn_inv.
  match goal with H : bail_if _ _ = Ok _ |- _ => apply bail_if_ok in H; rename H into Hterm end.
  destruct (Z.ltb_spec (e_now env) (fw_lease_expires_at current)) as [Hl|Hl].
  - destruct (N.eqb_spec (fw_claim_owner_id current) (cr_actor_id r)) as [Ho|]; [| by txn_inv].
    unfold claim_held in H1. txn_inv.
    match goal with H : assert_claim_connection _ _ = _ |- _ => apply claim_connection_ok in H as -> end.
    match goal with H : record_factory_operation_tx _ _ _ _ = _ |- _ => apply record_operation_ok in H as [? ->] end.
    eapply handled_held; try done; simpl; congruence.
  - unfold reclaim in H1. txn_inv.
    match goal with H : ensure_factory_source_matches _ _ = _ |- _ => apply source_matches_ok in H as [_ Hs'] end.
    repeat match goal with H : bail_if _ _ = Ok _ |- _ => apply bail_if_ok in H end.
    match goal with H : negb (bool_decide _) = false |- _ =>
      apply negb_false_iff, bool_decide_eq_true in H end.
    match goal with H : (_ =? _)%N = false |- _ => apply N.eqb_neq in H end.
    match goal with H : store_item_tx _ _ _ = _ |- _ => apply store_item_ok in H as (-> & Ht & ->) end.
    apply finish_ok in H1 as (event & -> & ? & ? & ? & ->).
    eapply (handled_change _ _ _ (cr_corp_id r, cr_key r) (claim_operation r _ (e_claim_token env)));
      try done.
    by eapply change_reclaimed.
Qed.

Lemma claim_handled env input db out db' :
  keyed db → claim_factory_work_item env input db = Ok (out, db') →
  handled env (ClaimRequest_ input) db out db'.
Proof.
  unfold claim_factory_work_item, assert_actor_scope_tx, factory_operation_tx. intros Hk H1. txn_inv.
  rename a into r. destruct (prepare_claim_ids _ _ Ha) as [Hcorp Hactor].
  destruct (db_operations _ !! _) as [operation|] eqn:Hop.
  { unfold claim_replay in H1. txn_inv. match type of H1 with (match ?x with _ => _ end) _ = _ => destruct x as [item tok] end. txn_inv.
    match goal with H : factory_work_item_tx _ _ _ = _ |- _ => rename H into Hr end.
    res_inv. subst. apply work_item_tx_ok in Hr as (-> & _ & _).
    match goal with H : assert_claim_connection _ _ = _ |- _ => apply claim_connection_ok in H as -> end.
    by apply handled_replay. }
  txn_inv. match goal with H : item_by_source_tx _ _ _ = _ |- _ => apply item_by_source_ok in H as [-> Hex] end.
  match type of H1 with (match ?x with _ => _ end _) = _ => destruct x as [[current tok]|] end; cycle 1.
  - unfold claim_new in H1. txn_inv.
    repeat match goal with H : bail_if _ _ = Ok _ |- _ => apply bail_if_ok in H end.
    match goal with H : store_item_tx _ _ _ = _ |- _ => apply store_item_ok in H as (-> & Ht & ->) end.
    apply finish_ok in H1 as (event & -> & ? & ? & ? & ->).
    eapply (handled_change _ _ _ (cr_corp_id r, cr_key r) (claim_operation r _ (e_claim_token env)));
      try done.
    eapply change_claimed; try done. by destruct (db_items _ !! _).
  - destruct Hex as (id & Hrow & Hsrc%has_source_corp). by eapply claim_existing_handled.
Qed.

Lemma fenced_replay_handled env request operation op corp id actor token req missing db out db' :
  fenced_replay env operation op corp id actor token req missing db = Ok (out, db') →
  handled env request db out db'.
Proof.
  unfold fenced_replay. intros H1. txn_inv. match type of H1 with (match ?x with _ => _ end) _ = _ => destruct x as [item tok] end. txn_inv.
  match goal with H : with_context _ _ = _ |- _ => apply with_context_ok in H as -> end.
  match goal with H : factory_work_item_tx _ _ _ = _ |- _ => apply work_item_tx_ok in H as (-> & _ & _) end.
  by apply handled_replay.
Qed.

Lemma controlled_ok env corp id actor token version db row db' :
  controlled_item env corp id actor token version db = Ok (row, db') →
  db' = db ∧ db_items db !! id = Some row ∧ fw_corp_id row.1 = corp ∧
  ensure_active_factory_control row.1 row.2 actor token version (e_now env) = Ok tt.
Proof.
  unfold controlled_item. intros H1. txn_inv. match type of H1 with (match ?x with _ => _ end) _ = _ => destruct x as [item tok] end. txn_inv.
  match goal with H : with_context _ _ = _ |- _ => apply with_context_ok in H as -> end.
  by match goal with H : factory_work_item_tx _ _ _ = _ |- _ => apply work_item_tx_ok in H as (-> & ? & ?) end.
Qed.

Lemma renew_handled env input db out db' :
  keyed db → renew_factory_work_item env input db = Ok (out, db') →
  handled env (RenewRequest input) db out db'.
Proof.
  unfold renew_factory_work_item, assert_actor_scope_tx, factory_operation_tx, factory_event_room_id_tx.
  intros Hk H1. txn_inv.
  destruct (db_operations _ !! _) as [operation|] eqn:Hop; [by eapply fenced_replay_handled |].
  txn_inv. match goal with H : controlled_item _ _ _ _ _ _ _ = _ |- _ => apply controlled_ok in H as (-> & Hrow & Hc & Hctl) end.
  match type of Hrow with _ = Some ?x => destruct x as [current tok] end. simpl in *. txn_inv.
  match goal with H : store_item_tx _ _ _ = _ |- _ => apply store_item_ok in H as (-> & Ht & ->) end.
  match goal with H : record_factory_operation_tx _ _ _ _ = _ |- _ => apply record_operation_ok in H as [? ->] end.
  pose proof Hctl as (_ & Ho & Htok & _ & _)%active_control_ok. subst.
  eapply (handled_change _ _ _ (ri_corp_id input, _)); try done; simpl; try congruence.
  by eapply change_renewed.
Qed.

Lemma check_transition_same input current db u db' :
  check_transition input current db = Ok (u, db') → db' = db.
Proof.
  unfold check_transition, ensure_factory_mission_verified_tx. intros H1. txn_inv.
  case_bool_decide; by txn_inv.
Qed.

Lemma transition_handled env input db out db' :
  keyed db → transition_factory_work_item env input db = Ok (out, db') →
  handled env (TransitionRequest input) db out db'.
Proof.
  unfold transition_factory_work_item, assert_actor_scope_tx, factory_operation_tx, factory_event_room_id_tx.
  intros Hk H1. txn_inv.
  match goal with H : prepare_transition _ = Ok ?x |- _ => destruct x as [detail key] end. txn_inv.
  destruct (db_operations _ !! _) as [operation|] eqn:Hop; [by eapply fenced_replay_handled |].
  txn_inv. match goal with H : controlled_item _ _ _ _ _ _ _ = _ |- _ => apply controlled_ok in H as (-> & Hrow & Hc & Hctl) end.
  match type of Hrow with _ = Some ?x => destruct x as [current tok] end. simpl in *. txn_inv.
  match goal with H : check_transition _ _ _ = _ |- _ => pose proof (check_transition_same _ _ _ _ _ H) as ->; rename H into Hct end.
  match goal with H : store_item_tx _ _ _ = _ |- _ => apply store_item_ok in H as (-> & Ht & ->) end.
  match goal with H : record_factory_operation_tx _ _ _ _ = _ |- _ => apply record_operation_ok in H as [? ->] end.
  pose proof Hctl as (_ & Ho & Htok & _ & _)%active_control_ok. subst.
  eapply (handled_change _ _ _ (ti_corp_id input, _)); try done; simpl; try congruence.
  by eapply change_transitioned.
Qed.

Lemma handle_handled env request db out db' :
  keyed db → handle env request db = Ok (out, db') → handled env request db out db'.
Proof.
  destruct request; simpl; [apply claim_handled | apply renew_handled | apply transition_handled].
Qed.
End handled.

(** ** The invariant of the tables *)
Record factory_inv (db : factory_db) : Prop := {
  inv_keyed : keyed db;
  inv_version : ∀ id item token, db_items db !! id = Some (item, token) → (1 ≤ fw_version item)%Z;
  inv_tokens : ∀ id id' item item' token,
    db_items db !! id = Some (item, token) → db_items db !! id' = Some (item', token) → id = id';
  inv_sources : ∀ id id' row row',
    db_items db !! id = Some row → db_items db !! id' = Some row' →
    has_source (fw_corp_id row.1) (fw_source row.1) (id', row') = true → id = id';
  inv_kind : ∀ id item token, db_items db !! id = Some (item, token) →
    fw_source_kind item = "github_project_issue";
  inv_operations : ∀ key op, db_operations db !! key = Some op →
    ∃ item token, db_items db !! op_work_item_id op = Some (item, token) ∧
      fw_corp_id item = key.1 ∧ (1 ≤ op_resulting_version op ≤ fw_version item)%Z;
}.

Section invariant.
Context `{Serde}.

Lemma next_version_ok v v' : next_version v = Ok v' → v' = (v + 1)%Z.
Proof. unfold next_version. intros H1. res_inv. by apply checked_i64_spec in H1 as [? _]. Qed.

Lemma token_free id token items id' item :
  token_taken id token items = false → items !! id' = Some (item, token) → id' = id.
Proof.
  unfold token_taken. intros Ht Hi. destruct (decide (id' = id)) as [|Hne]; [done |].
  exfalso. apply not_true_iff_false in Ht. apply Ht, existsb_exists.
  exists (id', (item, token)). split; [by apply list_elem_of_In, elem_of_map_to_list |].
  apply andb_true_iff. rewrite negb_true_iff, N.eqb_neq, N.eqb_eq. done.
Qed.

Lemma token_taken_free id token items :
  (∀ id' item, items !! id' = Some (item, token) → id' = id) → token_taken id token items = false.
Proof.
  intros Hf. apply not_true_iff_false. unfold token_taken.
  intros ([id' [item tok]] & Hin & Hb)%existsb_exists.
  apply list_elem_of_In, elem_of_map_to_list in Hin.
  apply andb_true_iff in Hb as [Hne Ht]. apply N.eqb_eq in Ht as ->.
  by rewrite (Hf _ _ Hin), N.eqb_refl in Hne.
Qed.

(** What a change keeps of the row it replaces, if it replaces one. *)
Lemma item_change_previous env db request item token :
  factory_inv db → item_change env db request item token →
  fw_source_kind item = "github_project_issue" ∧
  match db_items db !! fw_id item with
  | None =>
      fw_version item = 1%Z ∧
      ∀ id row, db_items db !! id = Some row →
        has_source (fw_corp_id item) (fw_source item) (id, row) = false
  | Some (current, _) =>
      fw_version item = (fw_version current + 1)%Z ∧ fw_corp_id item = fw_corp_id current ∧
      fw_source item = fw_source current ∧ fw_policy item = fw_policy current ∧
      fw_mission_id item = fw_mission_id current ∧
      factory_state_is_terminal (fw_state current) = false
  end.
Proof.
  intros Hinv.
  destruct 1 as [input r Hp Hnone Hsrc Hpin | input r id current tok v Hp Hrow Hterm Hl Htok Hs Hpol Hv
    | input current tok v Hrow Hctl Hv | input detail key current tok v Hp Hrow Hctl Hct Hv]; simpl.
  - by rewrite Hnone.
  - rewrite (inv_keyed _ Hinv _ _ _ Hrow), Hrow. apply next_version_ok in Hv.
    split; [by eapply inv_kind | by split_and!].
  - rewrite (inv_keyed _ Hinv _ _ _ Hrow), Hrow. apply next_version_ok in Hv.
    apply active_control_ok in Hctl as (? & _). split; [by eapply inv_kind | by split_and!].
  - rewrite (inv_keyed _ Hinv _ _ _ Hrow), Hrow. apply next_version_ok in Hv.
    apply active_control_ok in Hctl as (? & _). split; [by eapply inv_kind | by split_and!].
Qed.

(** The source test is symmetric between two stored rows. *)
Lemma has_source_sym id id' (row row' : factory_work_item * uuid) :
  fw_source_kind row.1 = "github_project_issue" →
  has_source (fw_corp_id row.1) (fw_source row.1) (id', row') = true →
  has_source (fw_corp_id row'.1) (fw_source row'.1) (id, row) = true.
Proof.
  unfold has_source. simpl. intros Hk H1. res_inv.
  repeat match goal with
  | H : (_ =? _)%N = true |- _ => apply N.eqb_eq in H; rewrite H
  | H : (_ =? _)%Z = true |- _ => apply Z.eqb_eq in H; rewrite H
  | H : seqb _ _ = true |- _ => apply seqb_eq in H; try rewrite H
  end.
  rewrite Hk, !seqb_refl, N.eqb_refl, Z.eqb_refl. done.
Qed.

Lemma has_source_refl id (row : factory_work_item * uuid) :
  fw_source_kind row.1 = "github_project_issue" →
  has_source (fw_corp_id row.1) (fw_source row.1) (id, row) = true.
Proof. unfold has_source. simpl. intros ->. by rewrite !seqb_refl, N.eqb_refl, Z.eqb_refl. Qed.

(** Two rows with the same identity answer the test alike. *)
Lemma has_source_same corp source id id' (row row' : factory_work_item * uuid) :
  fw_corp_id row.1 = fw_corp_id row'.1 → fw_source row.1 = fw_source row'.1 →
  fw_source_kind row.1 = fw_source_kind row'.1 →
  has_source corp source (id, row) = has_source corp source (id', row').
Proof. unfold has_source. simpl. by intros -> -> ->. Qed.
End invariant.

Section preservation.
Context `{Serde}.

Lemma held_inv db key op id current token :
  factory_inv db → db_items db !! id = Some (current, token) →
  op_work_item_id op = fw_id current → op_resulting_version op = fw_version current →
  fw_corp_id current = key.1 →
  factory_inv (set_operations <[key := op]> db).
Proof.
  intros Hinv Hrow Hid Hv Hc. destruct Hinv as [Hk Hver Htok Hsrc Hkind Hops].
  split; try done. intros key' op' Hop'. simpl in *.
  rewrite lookup_insert in Hop'. case_decide; [| by apply Hops]. simplify_eq.
  exists current, token. rewrite Hid, (Hk _ _ _ Hrow), Hv. split_and!; try done.
  by eapply Hver.
Qed.

Lemma change_inv env request db key op item token log :
  factory_inv db → item_change env db request item token →
  token_taken (fw_id item) token (db_items db) = false →
  op_work_item_id op = fw_id item → op_resulting_version op = fw_version item →
  fw_corp_id item = key.1 →
  factory_inv (FactoryDb (db_directory db) (<[fw_id item := (item, token)]> (db_items db))
                 (<[key := op]> (db_operations db)) log).
Proof.
  intros Hinv Hc Ht Hid Hv Hcorp.
  destruct (item_change_previous _ _ _ _ _ Hinv Hc) as [Hkind Hprev].
  destruct Hinv as [Hk Hver Htok Hsrc Hkind' Hops].
  assert (1 ≤ fw_version item)%Z as Hpos.
  { destruct (db_items db !! fw_id item) as [[current tok]|] eqn:E; [| lia].
    destruct Hprev as (-> & _). specialize (Hver _ _ _ E). lia. }
  split; unfold keyed; simpl.
  - intros id i t Hi. rewrite lookup_insert in Hi. case_decide; [by simplify_eq | by eapply Hk].
  - intros id i t Hi. rewrite lookup_insert in Hi. case_decide; [by simplify_eq | by eapply Hver].
  - intros id id' i i' t Hi Hi'. rewrite lookup_insert in Hi, Hi'. repeat case_decide; simplify_eq; try done.
    all: first [by eapply token_free | symmetry; by eapply token_free | by eapply Htok].
  - intros id id' row row' Hi Hi' Hs. rewrite lookup_insert in Hi, Hi'. repeat case_decide; simplify_eq; try done.
    + (* an old row against the new one *)
      assert (fw_source_kind row.1 = "github_project_issue") as Hkr by (destruct row; by eapply Hkind').
      apply (has_source_sym id) in Hs; [| done]. simpl in Hs.
      destruct (db_items db !! fw_id item) as [[current tok]|] eqn:E.
      * destruct Hprev as (_ & Ecorp & Esrc & _). symmetry.
        apply (Hsrc (fw_id item) id (current, tok) row); [done | done |].
        simpl. by rewrite <- Ecorp, <- Esrc.
      * destruct Hprev as (_ & Hno). by rewrite (Hno _ _ Hi) in Hs.
    + (* the new row against an old one *)
      destruct (db_items db !! fw_id item) as [[current tok]|] eqn:E.
      * destruct Hprev as (_ & Ecorp & Esrc & _).
        apply (Hsrc (fw_id item) id' (current, tok) row'); [done | done |].
        simpl in *. by rewrite <- Ecorp, <- Esrc.
      * destruct Hprev as (_ & Hno). simpl in Hs. by rewrite (Hno _ _ Hi') in Hs.
    + by eapply Hsrc.
  - intros id i t Hi. rewrite lookup_insert in Hi. case_decide; [by simplify_eq | by eapply Hkind'].
  - intros key' op' Hop'. rewrite lookup_insert in Hop'. case_decide.
    + simplify_eq. exists item, token. rewrite Hid, lookup_insert_eq. split_and!; try done; lia.
    + destruct (Hops _ _ Hop') as (i & t & Hi & Hci & Hvi).
      rewrite lookup_insert. case_decide as Heq; [| by exists i, t].
      rewrite <- Heq in Hi. rewrite Hi in Hprev. destruct Hprev as (Hvn & Ecorp & _).
      exists item, token. split_and!; [done | congruence | lia | lia].
Qed.

Lemma handled_inv env request db out db' :
  factory_inv db → handled env request db out db' → factory_inv db'.
Proof.
  intros Hinv. destruct 1; subst; try done.
  - by eapply held_inv.
  - by eapply change_inv.
Qed.

Lemma run_handled env request db :
  factory_inv db →
  (∃ out, (run_txn (handle env request) db).1 = Ok out ∧
          handled env request db out (run_txn (handle env request) db).2) ∨
  (run_txn (handle env request) db).2 = db.
Proof.
  intros Hinv. unfold run_txn. destruct (handle env request db) as [[out db']|] eqn:E; [left | by right].
  exists out. split; [done |]. apply handle_handled; [apply Hinv | done].
Qed.

Lemma factory_step_inv db db' : factory_inv db → factory_step db db' → factory_inv db'.
Proof.
  intros Hinv. destruct 1 as [env request db | dir db].
  - destruct (run_handled env request db Hinv) as [(out & _ & Hh)| ->]; [| done].
    by eapply handled_inv.
  - destruct Hinv. by split.
Qed.

Lemma factory_steps_inv db db' : factory_inv db → rtc factory_step db db' → factory_inv db'.
Proof. intros Hinv. induction 1; [done |]. by eauto using factory_step_inv. Qed.

(** The rows after a request. *)
Lemma handled_rows env request db out db' id :
  factory_inv db → handled env request db out db' →
  db_items db' !! id = db_items db !! id ∨
  ∃ item token, id = fw_id item ∧ db_items db' !! id = Some (item, token) ∧
    item_change env db request item token ∧ fw_claim_owner_id item = request_actor request ∧
    token_taken id token (db_items db) = false ∧ out_work_item out = item.
Proof.
  intros Hinv. destruct 1; simpl; subst; try by left.
  simpl. rewrite lookup_insert. case_decide; [right | by left]. subst.
  do 2 eexists. by split_and!.
Qed.
End preservation.

Definition empty_factory (dir : directory) : factory_db := FactoryDb dir ∅ ∅ [].

Lemma empty_factory_inv dir : factory_inv (empty_factory dir).
Proof. split; intros ??; by rewrite ?lookup_empty. Qed.

(** The claim a fenced request presents: the item and the token. *)
Definition presented (request : factory_request) : option (uuid * uuid) :=
  match request with
  | ClaimRequest_ _ => None
  | RenewRequest input => Some (ri_work_item_id input, ri_claim_token input)
  | TransitionRequest input => Some (ti_work_item_id input, ti_claim_token input)
  end.

(** A step in which no random UUID comes out as [token]. *)
Inductive step_avoiding `{Serde} (token : uuid) : factory_db → factory_db → Prop :=
| step_avoiding_handle env request db :
    e_claim_token env ≠ token → step_avoiding token db (run_txn (handle env request) db).2
| step_avoiding_directory dir db :
    step_avoiding token db (FactoryDb dir (db_items db) (db_operations db) (db_log db)).

Section more_lemmas.
Context `{Serde}.

(** A change under a live lease is made by its holder. *)
Lemma item_change_holder env db request item token current tok :
  factory_inv db → item_change env db request item token →
  db_items db !! fw_id item = Some (current, tok) →
  (∃ input, request = ClaimRequest_ input ∧ (fw_lease_expires_at current ≤ e_now env)%Z ∧
     token = e_claim_token env ∧
     fw_state item = (if is_some (fw_mission_id current) then fw_state current else Claimed)) ∨
  (presented request = Some (fw_id item, tok) ∧ token = tok ∧
   fw_claim_owner_id current = request_actor request ∧
   (e_now env < fw_lease_expires_at current)%Z ∧
   (fw_state item = fw_state current ∨
    ∃ input, request = TransitionRequest input ∧ fw_state item = ti_state input ∧
             check_transition input current db = Ok (tt, db))).
Proof.
  intros Hinv.
  destruct 1 as [input r Hp Hnone Hsrc Hpin | input r id cur t v Hp Hrow Hterm Hl Htok Hs Hpol Hv
    | input cur t v Hrow Hctl Hv | input detail key cur t v Hp Hrow Hctl Hct Hv];
    simpl; intros Hcur.
  - by rewrite Hnone in Hcur.
  - rewrite (inv_keyed _ Hinv _ _ _ Hrow), Hrow in Hcur. simplify_eq. left. by exists input.
  - rewrite (inv_keyed _ Hinv _ _ _ Hrow), Hrow in Hcur. simplify_eq. right.
    apply active_control_ok in Hctl as (_ & ? & ? & _ & ?). subst.
    rewrite (inv_keyed _ Hinv _ _ _ Hrow). split_and!; auto.
  - rewrite (inv_keyed _ Hinv _ _ _ Hrow), Hrow in Hcur. simplify_eq. right.
    apply active_control_ok in Hctl as (_ & ? & ? & _ & ?). subst.
    rewrite (inv_keyed _ Hinv _ _ _ Hrow). split_and!; auto. right. by exists input.
Qed.

(** A row of the database after a request: the old one, or a change of it. *)
Lemma run_rows env request db id :
  factory_inv db →
  db_items (run_txn (handle env request) db).2 !! id = db_items db !! id ∨
  ∃ item token, id = fw_id item ∧
    db_items (run_txn (handle env request) db).2 !! id = Some (item, token) ∧
    item_change env db request item token ∧ fw_claim_owner_id item = request_actor request.
Proof.
  intros Hinv. destruct (run_handled env request db Hinv) as [(out & _ & Hh)| ->]; [| by left].
  destruct (handled_rows _ _ _ _ _ id Hinv Hh) as [|(i & t & ? & ? & ? & ? & _)]; [by left | right].
  by exists i, t.
Qed.

Lemma step_avoiding_step token db db' : step_avoiding token db db' → factory_step db db'.
Proof. destruct 1; constructor. Qed.

(** A token that is not the current one of an item stays so. *)
Lemma step_avoiding_token token db db' id item tok :
  factory_inv db → step_avoiding token db db' →
  db_items db !! id = Some (item, tok) → tok ≠ token →
  ∃ item' tok', db_items db' !! id = Some (item', tok') ∧ tok' ≠ token.
Proof.
  intros Hinv Hstep Hrow Hne. destruct Hstep as [env request db Hfresh | dir db]; [| by eauto].
  destruct (run_rows env request db id Hinv) as [-> | (i & t & -> & -> & Hc & _)]; [by eauto |].
  exists i, t. split; [done |].
  destruct (item_change_holder _ _ _ _ _ _ _ Hinv Hc Hrow) as [(? & _ & _ & -> & _)|(_ & -> & _)]; done.
Qed.

Lemma steps_avoiding_token token db db' id item tok :
  factory_inv db → rtc (step_avoiding token) db db' →
  db_items db !! id = Some (item, tok) → tok ≠ token →
  factory_inv db' ∧ ∃ item' tok', db_items db' !! id = Some (item', tok') ∧ tok' ≠ token.
Proof.
  intros Hinv Hs. revert Hinv item tok. induction Hs as [db|db db1 db2 Hstep _ IH]; intros Hinv item tok Hrow Hne.
  - split; [done |]. by exists item, tok.
  - destruct (step_avoiding_token _ _ _ _ _ _ Hinv Hstep Hrow Hne) as (i & t & Hi & Ht).
    eapply IH; [| done | done]. by eapply factory_step_inv, step_avoiding_step.
Qed.

(** A request that presents another token than the current one does nothing. *)
Lemma stale_request env request db id token item tok :
  factory_inv db → presented request = Some (id, token) →
  db_items db !! id = Some (item, tok) → tok ≠ token →
  (run_txn (handle env request) db).2 = db.
Proof.
  intros Hinv Hp Hrow Hne. destruct (run_handled env request db Hinv) as [(out & _ & Hh)| ->]; [| done].
  destruct Hh as [| input ????? ->|key op i t event db' ? Hc]; [done | done |].
  exfalso. destruct (db_items db !! fw_id i) as [[current ct]|] eqn:E.
  - destruct (item_change_holder _ _ _ _ _ _ _ Hinv Hc E) as [(? & -> & _)|(Hp' & _)]; [done |].
    rewrite Hp in Hp'. simplify_eq.
  - destruct Hc as [input r Hq Hnone Hsrc Hpin | input r id' cur t v Hq Hrow' | input cur t v Hrow'
      | input detail key' cur t v Hq Hrow'];
      simpl in *; try done; rewrite (inv_keyed _ Hinv _ _ _ Hrow') in E; congruence.
Qed.

Lemma terminal_step db db' id item tok :
  factory_inv db → factory_step db db' → db_items db !! id = Some (item, tok) →
  factory_state_is_terminal (fw_state item) = true → db_items db' !! id = Some (item, tok).
Proof.
  intros Hinv Hs Hrow Ht. destruct Hs as [env request db | dir db]; [| done].
  destruct (run_rows env request db id Hinv) as [-> | (i & t & -> & _ & Hc & _)]; [done |].
  apply (item_change_previous _ _ _ _ _ Hinv) in Hc as [_ Hc]. rewrite Hrow in Hc.
  destruct Hc as (_ & _ & _ & _ & _ & Hc). congruence.
Qed.

Lemma mission_verified_spec corp mission dir :
  factory_mission_verified corp mission dir = true →
  ∃ m, dir_missions dir !! mission = Some m ∧ mission_corp m = corp ∧
    mission_status_of m = MissionStatus.Completed ∧
    (∃ id t, dir_tasks dir !! id = Some t ∧ task_mission t = mission ∧ task_corp t = corp) ∧
    ∀ id t, dir_tasks dir !! id = Some t → task_mission t = mission → task_corp t = corp →
      task_status_of t = TaskStatus.Completed ∧ task_verification_status t = "passed".
Proof.
  unfold factory_mission_verified. destruct (dir_missions dir !! mission) as [m|]; [| done].
  intros H1. res_inv. rewrite N.eqb_eq, bool_decide_eq_true in *.
  assert (∀ t, In t (mission_tasks corp mission dir) ↔
    ∃ id, dir_tasks dir !! id = Some t ∧ task_mission t = mission ∧ task_corp t = corp) as Hin.
  { intros t. unfold mission_tasks. rewrite filter_In, andb_true_iff, !N.eqb_eq.
    rewrite <- list_elem_of_In, list_elem_of_fmap. split.
    - intros (([id t'] & -> & Hin) & ? & ?). exists id. by apply elem_of_map_to_list in Hin.
    - intros (id & Hid & ? & ?). split; [| done]. exists (id, t). by rewrite elem_of_map_to_list. }
  exists m. split_and!; try done.
  - destruct (mission_tasks corp mission dir) as [|t ts] eqn:E; [done |].
    destruct (proj1 (Hin t)) as (id & ? & ? & ?); [by left |]. by exists id, t.
  - intros id t Ht Hm Hc. match goal with H : forallb _ _ = true |- _ =>
      rewrite forallb_forall in H; specialize (H t) end.
    assert (task_is_verified t = true) as Hv by (apply H1, Hin; by exists id).
    unfold task_is_verified in Hv. apply andb_true_iff in Hv as [Hv1 Hv2].
    apply bool_decide_eq_true in Hv1. by apply seqb_eq in Hv2.
Qed.
End more_lemmas.

(** ** Lemmas: replays *)
Section replays.
Context `{Serde}.

Lemma connection_again r db db' u s :
  db_directory db' = db_directory db →
  assert_claim_connection r db = Ok (u, s) → assert_claim_connection r db' = Ok (tt, db').
Proof.
  unfold assert_claim_connection. destruct (cr_connection r) as [id|]; [| done].
  unfold assert_connection_operator_tx, assert_mission_operator_tx, actor_role_tx.
  intros Hdir H1. txn_inv.
  repeat (apply txn_bind_ok; do 2 eexists; split; [apply read_directory_ok; split; [| reflexivity];
    unfold get_directory, factory_db_directory in *; rewrite Hdir; eassumption |]).
  done.
Qed.

(** What a claim leaves behind for its repetition. *)
Record claim_ready (r : claim_request_of) (db : factory_db) (item : factory_work_item) (tok : uuid) :
    Prop := {
  ready_scope : assert_actor_scope (cr_corp_id r) (cr_actor_id r) (db_directory db) = Ok tt;
  ready_operation : ∃ op, db_operations db !! (cr_corp_id r, cr_key r) = Some op ∧
    ensure_factory_operation_matches op "claim" (cr_actor_id r) None None (cr_operation_request r) = Ok tt ∧
    db_items db !! op_work_item_id op = Some (item, tok);
  ready_corp : fw_corp_id item = cr_corp_id r;
  ready_source : ensure_factory_source_matches item (cr_source r) = Ok tt;
  ready_policy : fw_policy item = cr_policy r;
  ready_connection : assert_claim_connection r db = Ok (tt, db);
}.

Lemma claim_ready_replay env input r db item tok :
  prepare_claim input = Ok r → claim_ready r db item tok →
  ∃ out, claim_factory_work_item env input db = Ok (out, db) ∧ out_work_item out = item ∧
    out_replayed out = true ∧ out_event out = None.
Proof.
  intros Hp [Hscope (op & Hop & Hm & Hrow) Hcorp Hsrc Hpol Hcon].
  eexists (FactoryWorkItemOutcome item _ None true). split; [| by split_and!].
  unfold claim_factory_work_item. apply txn_bind_ok. exists r, db. split; [by apply lift_ok |].
  apply txn_bind_ok. exists tt, db. split; [by apply read_directory_ok |].
  apply txn_bind_ok. do 2 eexists. split; [apply gets_ok; split; reflexivity |]. rewrite Hop.
  unfold claim_replay. apply txn_bind_ok. do 2 eexists. split; [by apply lift_ok |].
  apply txn_bind_ok. do 2 eexists. split; [by apply work_item_tx_ok |].
  apply txn_bind_ok. exists (item, tok), db. split; [by apply lift_ok |].
  apply txn_bind_ok. do 2 eexists. split; [by apply lift_ok |].
  apply txn_bind_ok. exists tt, db. split; [apply lift_ok; by rewrite bool_decide_eq_true_2 |].
  apply txn_bind_ok. do 2 eexists. split; [done |]. reflexivity.
Qed.

Lemma claim_operation_matches r item tok :
  ensure_factory_operation_matches (claim_operation r item tok) "claim" (cr_actor_id r) None None
    (cr_operation_request r) = Ok tt.
Proof.
  unfold ensure_factory_operation_matches. cbn [op_operation op_actor_id op_request claim_operation].
  by rewrite seqb_refl, N.eqb_refl, bool_decide_eq_true_2.
Qed.

Lemma claim_replay_leaves_ready env r operation db out db' :
  assert_actor_scope (cr_corp_id r) (cr_actor_id r) (db_directory db) = Ok tt →
  db_operations db !! (cr_corp_id r, cr_key r) = Some operation →
  claim_replay env r operation db = Ok (out, db') →
  ∃ item tok, claim_ready r db' item tok.
Proof.
  unfold claim_replay. intros Hscope Hop H1. txn_inv.
  match type of H1 with (match ?x with _ => _ end) _ = _ => destruct x as [item tok] end. txn_inv.
  match goal with H : assert_claim_connection _ _ = _ |- _ =>
    pose proof (claim_connection_ok _ _ _ _ H) as ->; rename H into Hcon end.
  match goal with H : with_context _ _ = _ |- _ => apply with_context_ok in H as -> end.
  match goal with H : factory_work_item_tx _ _ _ = _ |- _ => apply work_item_tx_ok in H as (-> & Hrow & Hc) end.
  match goal with H : bail_if _ _ = Ok _ |- _ => apply bail_if_ok, negb_false_iff, bool_decide_eq_true in H end.
  exists item, tok. split; try done. by exists operation.
Qed.

Lemma claim_finish_leaves_ready env r item tok event_type db out db' :
  assert_actor_scope (cr_corp_id r) (cr_actor_id r) (db_directory db) = Ok tt →
  db_items db !! fw_id item = Some (item, tok) → fw_corp_id item = cr_corp_id r →
  ensure_factory_source_matches item (cr_source r) = Ok tt → fw_policy item = cr_policy r →
  claim_finish env r item event_type db = Ok (out, db') →
  claim_ready r db' item tok.
Proof.
  unfold claim_finish, factory_event_room_id_tx. intros Hscope Hrow Hc Hs Hpol H1. txn_inv.
  match goal with H : assert_claim_connection _ _ = _ |- _ =>
    pose proof (claim_connection_ok _ _ _ _ H) as ->; rename H into Hcon end.
  match goal with H : record_factory_operation_tx _ _ _ _ = _ |- _ => apply record_operation_ok in H as [? ->] end.
  split; try done.
  - eexists. simpl. rewrite lookup_insert_eq. split; [done |].
    split; [apply claim_operation_matches | done].
  - by eapply connection_again; [| exact Hcon].
Qed.

Lemma claim_existing_leaves_ready env r current tok id db out db' :
  factory_inv db → assert_actor_scope (cr_corp_id r) (cr_actor_id r) (db_directory db) = Ok tt →
  db_items db !! id = Some (current, tok) → fw_corp_id current = cr_corp_id r →
  claim_existing env r current tok db = Ok (out, db') →
  ∃ item tok, claim_ready r db' item tok.
Proof.
  unfold claim_existing. intros Hinv Hscope Hrow Hc H1. txn_inv.
  destruct (e_now env <? fw_lease_expires_at current)%Z.
  - destruct (N.eqb_spec (fw_claim_owner_id current) (cr_actor_id r)) as [Ho|]; [| by txn_inv].
    unfold claim_held in H1. txn_inv.
    match goal with H : assert_claim_connection _ _ = _ |- _ =>
      pose proof (claim_connection_ok _ _ _ _ H) as ->; rename H into Hcon end.
    match goal with H : record_factory_operation_tx _ _ _ _ = _ |- _ => apply record_operation_ok in H as [? ->] end.
    match goal with H : bail_if (negb (bool_decide _)) _ = Ok _ |- _ =>
      apply bail_if_ok, negb_false_iff, bool_decide_eq_true in H end.
    exists current, tok. split; try done; [| by eapply connection_again; [| exact Hcon]].
    eexists. simpl. rewrite lookup_insert_eq. split; [done |].
    split; [apply claim_operation_matches | simpl]. by rewrite (inv_keyed _ Hinv _ _ _ Hrow).
  - unfold reclaim in H1. txn_inv.
    match goal with H : store_item_tx _ _ _ = _ |- _ => apply store_item_ok in H as (-> & Ht & ->) end.
    match goal with H : bail_if (negb (bool_decide _)) _ = Ok _ |- _ =>
      apply bail_if_ok, negb_false_iff, bool_decide_eq_true in H end.
    match goal with H : ensure_factory_source_matches _ _ = _ |- _ =>
      apply source_matches_ok in H as [Hk' Hs'] end.
    do 2 eexists. eapply claim_finish_leaves_ready; [| | | | | done]; try done.
    + apply lookup_insert_eq.
    + unfold ensure_factory_source_matches. cbn [fw_source_kind fw_source].
      by rewrite Hk', seqb_refl, bool_decide_eq_true_2.
Qed.

Lemma claim_leaves_ready env input r db out db' :
  factory_inv db → prepare_claim input = Ok r →
  claim_factory_work_item env input db = Ok (out, db') →
  ∃ item tok, claim_ready r db' item tok.
Proof.
  intros Hinv Hp H1. unfold claim_factory_work_item, assert_actor_scope_tx, factory_operation_tx in H1.
  txn_inv. assert (a = r) as -> by congruence.
  destruct (db_operations _ !! _) as [operation|] eqn:Hop; [by eapply claim_replay_leaves_ready |].
  txn_inv. match goal with H : item_by_source_tx _ _ _ = _ |- _ => apply item_by_source_ok in H as [-> Hex] end.
  match type of H1 with (match ?x with _ => _ end _) = _ => destruct x as [[current tok]|] end.
  - destruct Hex as (id & Hrow & Hsrc%has_source_corp). by eapply claim_existing_leaves_ready.
  - unfold claim_new in H1. txn_inv.
    match goal with H : store_item_tx _ _ _ = _ |- _ => apply store_item_ok in H as (-> & Ht & ->) end.
    do 2 eexists. eapply claim_finish_leaves_ready; [| | | | | done]; try done.
    + apply lookup_insert_eq.
    + unfold ensure_factory_source_matches. by rewrite bool_decide_eq_true_2.
Qed.

(** *** Renewals and transitions *)

(** What a fenced request leaves behind for its repetition. *)
Definition fenced_ready (db : factory_db) (operation : string) (corp id actor token : uuid)
    (key : string) (request : json) (item : factory_work_item) (tok : uuid) : Prop :=
  assert_actor_scope corp actor (db_directory db) = Ok tt ∧
  (∃ op, db_operations db !! (corp, key) = Some op ∧
     ensure_factory_operation_matches op operation actor (Some id) (Some token) request = Ok tt) ∧
  db_items db !! id = Some (item, tok) ∧ fw_corp_id item = corp.

Lemma fenced_operation_matches operation id actor token request version :
  ensure_factory_operation_matches (FactoryOperation id actor operation version (Some token) request)
    operation actor (Some id) (Some token) request = Ok tt.
Proof.
  unfold ensure_factory_operation_matches.
  cbn [op_operation op_actor_id op_request op_work_item_id op_claim_token].
  by rewrite seqb_refl, !N.eqb_refl, !bool_decide_eq_true_2.
Qed.

Lemma fenced_replay_ok env op operation corp id actor token request missing db item tok :
  ensure_factory_operation_matches op operation actor (Some id) (Some token) request = Ok tt →
  db_items db !! id = Some (item, tok) → fw_corp_id item = corp →
  fenced_replay env op operation corp id actor token request missing db =
    Ok (FactoryWorkItemOutcome item
          (replayable_factory_claim_token item tok op (e_now env)) None true, db).
Proof.
  intros Hm Hrow Hc. unfold fenced_replay.
  apply txn_bind_ok. do 2 eexists. split; [by apply lift_ok |].
  apply txn_bind_ok. do 2 eexists. split; [by apply work_item_tx_ok |].
  apply txn_bind_ok. exists (item, tok), db. split; [by apply lift_ok | done].
Qed.

Lemma fenced_replay_leaves_ready env op operation corp id actor token key request missing db out db' :
  assert_actor_scope corp actor (db_directory db) = Ok tt →
  db_operations db !! (corp, key) = Some op →
  fenced_replay env op operation corp id actor token request missing db = Ok (out, db') →
  ∃ item tok, fenced_ready db' operation corp id actor token key request item tok.
Proof.
  unfold fenced_replay. intros Hscope Hop H1. txn_inv.
  match type of H1 with (match ?x with _ => _ end) _ = _ => destruct x as [item tok] end. txn_inv.
  match goal with H : with_context _ _ = _ |- _ => apply with_context_ok in H as -> end.
  match goal with H : factory_work_item_tx _ _ _ = _ |- _ => apply work_item_tx_ok in H as (-> & ? & ?) end.
  exists item, tok. split_and!; try done. by exists op.
Qed.

Lemma renew_leaves_ready env input db out db' :
  factory_inv db → renew_factory_work_item env input db = Ok (out, db') →
  ∃ key item tok, normalize_factory_idempotency_key (ri_idempotency_key input) = Ok key ∧
    fenced_ready db' "renew" (ri_corp_id input) (ri_work_item_id input) (ri_actor_id input)
      (ri_claim_token input) key (renew_request input) item tok.
Proof.
  unfold renew_factory_work_item, assert_actor_scope_tx, factory_operation_tx, factory_event_room_id_tx.
  intros Hinv H1. txn_inv. rename a0 into key. exists key.
  destruct (db_operations _ !! _) as [operation|] eqn:Hop.
  { edestruct fenced_replay_leaves_ready as (item & tok & ?); [| done | done |]; [done |]. by exists item, tok. }
  txn_inv. match goal with H : controlled_item _ _ _ _ _ _ _ = _ |- _ => apply controlled_ok in H as (-> & Hrow & Hc & Hctl) end.
  match type of Hrow with _ = Some ?x => destruct x as [current tok] end. simpl in *. txn_inv.
  match goal with H : store_item_tx _ _ _ = _ |- _ => apply store_item_ok in H as (-> & Ht & ->) end.
  match goal with H : record_factory_operation_tx _ _ _ _ = _ |- _ => apply record_operation_ok in H as [? ->] end.
  pose proof (inv_keyed _ Hinv _ _ _ Hrow) as Hid.
  eexists (renew_update env input current _), tok. split; [done |]. split_and!; simpl; try done.
  - eexists. rewrite lookup_insert_eq. split; [done |]. rewrite Hid. apply fenced_operation_matches.
  - simpl; by rewrite Hid, lookup_insert_eq.
Qed.

Lemma transition_leaves_ready env input db out db' :
  factory_inv db → transition_factory_work_item env input db = Ok (out, db') →
  ∃ detail key item tok, prepare_transition input = Ok (detail, key) ∧
    fenced_ready db' "transition" (ti_corp_id input) (ti_work_item_id input) (ti_actor_id input)
      (ti_claim_token input) key (transition_request input detail) item tok.
Proof.
  unfold transition_factory_work_item, assert_actor_scope_tx, factory_operation_tx, factory_event_room_id_tx.
  intros Hinv H1. txn_inv.
  match goal with H : prepare_transition _ = Ok ?x |- _ => destruct x as [detail key] end. txn_inv.
  exists detail, key.
  destruct (db_operations _ !! _) as [operation|] eqn:Hop.
  { edestruct fenced_replay_leaves_ready as (item & tok & ?); [| done | done |]; [done |]. by exists item, tok. }
  txn_inv. match goal with H : controlled_item _ _ _ _ _ _ _ = _ |- _ => apply controlled_ok in H as (-> & Hrow & Hc & Hctl) end.
  match type of Hrow with _ = Some ?x => destruct x as [current tok] end. simpl in *. txn_inv.
  match goal with H : check_transition _ _ _ = _ |- _ => pose proof (check_transition_same _ _ _ _ _ H) as -> end.
  match goal with H : store_item_tx _ _ _ = _ |- _ => apply store_item_ok in H as (-> & Ht & ->) end.
  match goal with H : record_factory_operation_tx _ _ _ _ = _ |- _ => apply record_operation_ok in H as [? ->] end.
  pose proof (inv_keyed _ Hinv _ _ _ Hrow) as Hid.
  eexists (transition_update env input detail current _), tok. split; [done |]. split_and!; simpl; try done.
  - eexists. rewrite lookup_insert_eq. split; [done |]. rewrite Hid. apply fenced_operation_matches.
  - by rewrite Hid, lookup_insert_eq.
Qed.
End replays.

(** A small world for the witnesses. *)
Section sample.
#[local] Existing Instance sample_serde.

Definition sample_directory : directory :=
  Directory {[10%N := ActorRow 1 "member" "human"; 20%N := ActorRow 1 "member" "human"]}
    {[5%N := 1%N]} {[(5%N, 10%N)]}
    {[30%N := MissionRow 1 5 MissionStatus.Completed]}
    {[40%N := TaskRow 1 30 TaskStatus.Completed "passed"]} ∅ ∅.
Definition sample_env (now : Z) (token : uuid) : environment := Environment (seconds now) token 100%N.
Definition sample_claim (actor : uuid) (key : string) : claim_input :=
  ClaimFactoryWorkItemInput 1 actor sample_source key 60 sample_policy.
Definition sample_db : factory_db :=
  (run_txn (handle (sample_env 1000 77) (ClaimRequest_ (sample_claim 10 "claim-1")))
     (empty_factory sample_directory)).2.
(** The same database with the item linked to its mission, in state running. *)
Definition running_item : factory_work_item :=
  FactoryWorkItem 100 1 "github_project_issue" sample_source_normal Running 3 10 (seconds 2000)
    sample_policy_normal (Some 30%N) None.
Definition running_db : factory_db :=
  FactoryDb sample_directory {[100%N := (running_item, 77%N)]} ∅ [].
Definition sample_transition (state : factory_work_item_state) : transition_input :=
  TransitionFactoryWorkItemInput 1 100 10 77 3 "move-1" state (Some "done").

Lemma sample_db_inv : factory_inv sample_db.
Proof.
  apply (factory_steps_inv (empty_factory sample_directory));
    [apply empty_factory_inv | apply rtc_once, factory_step_handle].
Qed.

Lemma running_db_inv : factory_inv running_db.
Proof.
  assert (∀ id row, db_items running_db !! id = Some row → id = 100%N ∧ row = (running_item, 77%N)) as Hr.
  { intros id row Hid. unfold running_db in Hid. cbn [db_items] in Hid.
    apply lookup_singleton_Some in Hid as [? ?]. by subst. }
  split.
  - intros id item tok [-> [= -> ->]]%Hr. done.
  - intros id item tok [-> [= -> ->]]%Hr. done.
  - intros id id' item item' tok [-> _]%Hr [-> _]%Hr. done.
  - intros id id' row row' [-> _]%Hr [-> _]%Hr _. done.
  - intros id item tok [-> [= -> ->]]%Hr. done.
  - intros key op Hop. simpl in Hop. by rewrite lookup_empty in Hop.
Qed.
End sample.

(** ** Properties *)

(** The tables stay consistent under any sequence of claims, renewals and
    transitions, with the directory changing in between: rows sit under their
    ids with positive versions, no two items share a claim token or a source,
    and every recorded operation refers to an item of its corp that has reached
    at least the recorded version. *)
Theorem factory_tables_consistent `{Serde} dir db :
  rtc factory_step (empty_factory dir) db → factory_inv db.
Proof. apply factory_steps_inv, empty_factory_inv. Qed.

Lemma factory_tables_consistent_witness :
  factory_inv sample_db ∧ is_Some (db_items sample_db !! 100%N).
Proof.
  split; [| vm_compute; eauto].
  apply (factory_tables_consistent (H:=sample_serde) sample_directory).
  apply rtc_once, factory_step_handle.
Defined.

(** C32: a live lease excludes everyone else: whatever an actor who does not hold
    the claim asks for (claim, renewal, transition, with any token, version or
    idempotency key), the row of an item whose lease has not expired stays as it
    is. *)
Theorem live_lease_excludes_others `{Serde} env request db id item token :
  factory_inv db → db_items db !! id = Some (item, token) →
  (e_now env < fw_lease_expires_at item)%Z → request_actor request ≠ fw_claim_owner_id item →
  db_items (run_txn (handle env request) db).2 !! id = Some (item, token).
Proof.
  intros Hinv Hrow Hl Hactor.
  destruct (run_rows env request db id Hinv) as [-> | (i & t & -> & _ & Hc & _)]; [done |].
  destruct (item_change_holder _ _ _ _ _ _ _ Hinv Hc Hrow) as [(? & _ & ? & _)|(_ & _ & ? & _)];
    [lia | congruence].
Qed.

Lemma live_lease_excludes_others_witness :
  ∃ item, db_items sample_db !! 100%N = Some (item, 77%N) ∧
  db_items (run_txn (handle (H:=sample_serde) (sample_env 1059 88)
    (ClaimRequest_ (sample_claim 20 "claim-2"))) sample_db).2 !! 100%N = Some (item, 77%N).
Proof.
  eexists. split; [vm_compute; reflexivity |].
  apply (live_lease_excludes_others (H:=sample_serde)).
  - exact sample_db_inv.
  - vm_compute. reflexivity.
  - vm_compute. reflexivity.
  - vm_compute. discriminate.
Defined.

(** A lost claim is fenced for good: once the token of an item is another
    one, a renewal or transition that still presents the old token changes
    nothing at all, now or after any number of further requests, as long as the
    random source does not draw that token again. *)
Theorem lost_claim_is_fenced `{Serde} db db' id item token old env request :
  factory_inv db → db_items db !! id = Some (item, token) → token ≠ old →
  rtc (step_avoiding old) db db' → presented request = Some (id, old) →
  (run_txn (handle env request) db').2 = db'.
Proof.
  intros Hinv Hrow Hne Hs Hp.
  destruct (steps_avoiding_token _ _ _ _ _ _ Hinv Hs Hrow Hne) as (Hinv' & i & t & Hrow' & Hne').
  by eapply stale_request.
Qed.

Lemma lost_claim_is_fenced_witness :
  (run_txn (handle (H:=sample_serde) (sample_env 1010 99)
     (RenewRequest (RenewFactoryWorkItemInput 1 100 10 55 1 "renew-1" 60))) sample_db).2 = sample_db.
Proof.
  eapply (lost_claim_is_fenced (H:=sample_serde) sample_db sample_db 100 _ 77 55).
  - exact sample_db_inv.
  - vm_compute. reflexivity.
  - discriminate.
  - apply rtc_refl.
  - reflexivity.
Defined.

(** Terminal states absorb: a published, failed or cancelled item keeps its
    row through every further step of the system. *)
Theorem terminal_items_stay `{Serde} db db' id item token :
  factory_inv db → rtc factory_step db db' → db_items db !! id = Some (item, token) →
  factory_state_is_terminal (fw_state item) = true →
  db_items db' !! id = Some (item, token).
Proof.
  intros Hinv Hs Hrow Ht. induction Hs as [db|db db1 db2 Hstep _ IH]; [done |].
  apply IH; [by eapply factory_step_inv | by eapply terminal_step].
Qed.

Lemma terminal_items_stay_witness :
  let db := (run_txn (handle (H:=sample_serde) (sample_env 1010 1)
               (TransitionRequest (sample_transition Cancelled))) running_db).2 in
  ∃ item, fw_state item = Cancelled ∧
  db_items (run_txn (handle (H:=sample_serde) (sample_env 9999 2)
    (ClaimRequest_ (sample_claim 20 "again"))) db).2 !! 100%N = Some (item, 77%N).
Proof.
  intros db. eexists. split; [| eapply (terminal_items_stay (H:=sample_serde) db)].
  - shelve.
  - apply (factory_step_inv (H:=sample_serde) running_db); [exact running_db_inv | apply factory_step_handle].
  - apply rtc_once, factory_step_handle.
  - vm_compute. reflexivity.
  - vm_compute. reflexivity.
  Unshelve. reflexivity.
Defined.



(** Every change of an item is accounted for: a request either leaves items
    and log alone, or replaces exactly one row, one version above the row it
    replaces (version one for a new item), records an operation with that
    version and the row's token, and appends exactly one event that carries the
    item and that version. *)
Theorem changes_are_logged `{Serde} env request db :
  factory_inv db →
  let db' := (run_txn (handle env request) db).2 in
  (db_items db' = db_items db ∧ db_log db' = db_log db) ∨
  ∃ item token event key op,
    db_items db' = <[fw_id item := (item, token)]> (db_items db) ∧
    fw_version item = (default 0 ((fw_version ∘ fst) <$> db_items db !! fw_id item) + 1)%Z ∧
    db_log db' = db_log db ++ [event] ∧
    ev_aggregate_id event = fw_id item ∧ ev_aggregate_version event = fw_version item ∧
    db_operations db !! key = None ∧ db_operations db' = <[key := op]> (db_operations db) ∧
    op_work_item_id op = fw_id item ∧ op_resulting_version op = fw_version item ∧
    op_claim_token op = Some token.
Proof.
  intros Hinv db'. unfold db'.
  destruct (run_handled env request db Hinv) as [(out & _ & Hh)| ->]; [| by left].
  destruct Hh as [| |key op item token event db1 ? Hc]; subst; [by left | by left | right].
  exists item, token, event, key, op. split_and!; try done.
  destruct (item_change_previous _ _ _ _ _ Hinv Hc) as [_ Hp].
  destruct (db_items db !! fw_id item) as [[current tok]|]; simpl; [by destruct Hp | destruct Hp as [-> _]; done].
Qed.

Lemma changes_are_logged_witness :
  db_log (run_txn (handle (H:=sample_serde) (sample_env 1010 1)
    (TransitionRequest (sample_transition Verified))) running_db).2 ≠ [].
Proof.
  destruct (changes_are_logged (H:=sample_serde) (sample_env 1010 1)
    (TransitionRequest (sample_transition Verified)) running_db running_db_inv)
    as [[Hitems _]|(item & token & event & key & op & _ & _ & -> & _)].
  - exfalso. revert Hitems. vm_compute. discriminate.
  - discriminate.
Defined.



(** The log of the factory tables meets the contract of an event log. *)
Lemma event_log_appends_once_witness :
  let event := new_event_of 1 None "factory.work_item_claimed" "factory_work_item" 100 "claim-1" JNull in
  ∃ row s', append_event_tx event (empty_factory sample_directory) = Ok (row, s') ∧
    unique_keys (get_log s') ∧ append_event_tx event s' = Ok (None, s').
Proof.
  intros event.
  destruct (event_log_appends_once (empty_factory sample_directory) event)
    as (row & s' & Ha & _ & Hu & _ & Hr).
  - intros i j e e' Hi. destruct i; discriminate Hi.
  - exists row, s'. split; [exact Ha | split; [exact Hu | exact Hr]].
Defined.
