(* ===== verification/ControlLease.v ===== *)
(** * Control leases (crates/crony-store/src/lib.rs)

    One actor at a time may steer an agent: [acquire_lease], [release_lease] and
    [transfer_lease] move the lease of an agent, [queue_message] accepts a
    control message (delivered at once only under the lease), and
    [control_command_lease_token] is the fence a durable control command passes
    before it is sent to a runner: the lease must still have the version the
    command was queued under. *)
From S2P Require Import Prelude Text Json Domain Planning FactoryPolicy Store.

(** ** Data *)
Record agent_row := AgentRow {
  ag_corp_id : uuid; ag_mission_id : option uuid; ag_retired_at : option timestamp;
  ag_adapter : string }.

Record control_lease := ControlLease {
  cl_agent_id : uuid; cl_corp_id : uuid; cl_actor_id : uuid; cl_token : uuid;
  cl_lease_version : Z; cl_expires_at : timestamp }.

Record queued_message := QueuedMessage {
  qm_id : uuid; qm_corp_id : uuid; qm_agent_id : uuid; qm_actor_id : uuid; qm_text : string;
  qm_status : string; qm_run_id : option uuid; qm_idempotency_key : uuid;
  qm_command_id : option uuid; qm_delivered_at : option timestamp }.

Record runner_command := RunnerCommand {
  rc_id : uuid; rc_corp_id : uuid; rc_runner_id : string; rc_run_id : uuid;
  rc_command_kind : string; rc_payload : json; rc_idempotency_key : string; rc_status : string;
  rc_created_at : timestamp; rc_failure_detail : option string }.

Record run_row := RunRow {
  run_corp_id : uuid; run_agent_id : uuid; run_runner_id : string; run_status_of : run_status;
  run_created_at : timestamp; run_task_id : uuid }.

Record control_db := ControlDb {
  c_directory : directory;
  c_agents : gmap uuid agent_row;
  c_leases : gmap uuid control_lease;           (* by agent *)
  c_messages : gmap uuid queued_message;
  c_commands : gmap uuid runner_command;
  c_runs : gmap uuid run_row;
  c_log : event_log;
}.

#[global] Instance control_db_directory : HasDirectory control_db := c_directory.
#[global] Instance control_db_log : HasLog control_db := {|
  get_log := c_log;
  set_log l db := ControlDb (c_directory db) (c_agents db) (c_leases db) (c_messages db)
                    (c_commands db) (c_runs db) l;
|}.
#[global] Instance control_db_log_laws : HasLogLaws control_db.
Proof. by split. Qed.

Definition set_leases (f : gmap uuid control_lease → gmap uuid control_lease) (db : control_db) :
    control_db :=
  ControlDb (c_directory db) (c_agents db) (f (c_leases db)) (c_messages db) (c_commands db)
    (c_runs db) (c_log db).
Definition set_messages (f : gmap uuid queued_message → gmap uuid queued_message) (db : control_db) :
    control_db :=
  ControlDb (c_directory db) (c_agents db) (c_leases db) (f (c_messages db)) (c_commands db)
    (c_runs db) (c_log db).
Definition set_commands (f : gmap uuid runner_command → gmap uuid runner_command) (db : control_db) :
    control_db :=
  ControlDb (c_directory db) (c_agents db) (c_leases db) (c_messages db) (f (c_commands db))
    (c_runs db) (c_log db).

(** The clock of the server, the [now()] of the database, and random UUIDs. *)
Record lease_env := LeaseEnv {
  le_clock : timestamp; le_db_now : timestamp; le_token : uuid; le_event : uuid;
  le_message : uuid; le_command : uuid }.

Record lease_outcome := LeaseOutcome {
  lo_acquired : bool; lo_lease : control_lease; lo_event : option new_event }.
Record lease_mutation_outcome := LeaseMutationOutcome {
  lm_lease : option control_lease; lm_event : new_event }.
Record message_outcome := MessageOutcome {
  mo_message : queued_message; mo_delivery : string; mo_run_id : option uuid;
  mo_runner_id : option string; mo_event : option new_event; mo_replayed : bool;
  mo_command_queued : bool }.

(** The primary key of an INSERT must be new. *)
Definition insert_fresh (taken : control_db → bool) : txn control_db unit :=
  t ← gets taken; lift (bail_if t "duplicate key value violates unique constraint").

(** ** Scope *)
Definition agent_in_corp (corp_id agent_id : uuid) (db : control_db) : option agent_row :=
  a ← c_agents db !! agent_id; if (ag_corp_id a =? corp_id)%N then Some a else None.

Definition assert_actor_agent_scope_tx (corp_id actor_id agent_id : uuid) : txn control_db unit :=
  assert_actor_scope_tx corp_id actor_id;;
  agent ← fetch (agent_in_corp corp_id agent_id) "agent does not belong to the requested Corp";
  lift (bail_if (is_some (ag_retired_at agent))
          "conflict: agent is retired; historical work remains available");;
  match ag_mission_id agent with
  | Some mission_id =>
      room_id ← fetch (λ db, m ← dir_missions (c_directory db) !! mission_id;
                             if (mission_corp m =? corp_id)%N then Some (mission_room m) else None)
                  "no rows returned by a query that expected to return at least one row";
      assert_room_membership_tx corp_id room_id actor_id
  | None => mret tt
  end.

Definition lock_agent_for_grant_tx (corp_id agent_id : uuid) : txn control_db unit :=
  fetch (λ db, a ← agent_in_corp corp_id agent_id db;
               match ag_retired_at a with None => Some tt | Some _ => None end)
    "conflict: agent was retired before the authority grant".

(** Store the lease of an agent; [token] is UNIQUE over the table. *)
Definition lease_token_taken (agent_id token : uuid) (leases : gmap uuid control_lease) : bool :=
  existsb (λ '(agent_id', lease), negb (agent_id' =? agent_id)%N && (cl_token lease =? token)%N)
    (map_to_list leases).
Definition store_lease_tx (lease : control_lease) : txn control_db control_lease :=
  taken ← gets (λ db, lease_token_taken (cl_agent_id lease) (cl_token lease) (c_leases db));
  lift (bail_if taken "duplicate key value violates unique constraint");;
  modify (set_leases <[cl_agent_id lease := lease]>);;
  mret lease.

Section control.
Context `{Serde}.

Definition lease_event (corp_id actor_id agent_id : uuid) (event_type key : string) (fresh : uuid)
    (payload : json) : new_event :=
  new_event_of corp_id (Some actor_id) event_type "agent" agent_id
    (key +:+ ":" +:+ uuid_to_string agent_id +:+ ":" +:+ uuid_to_string fresh) payload.

(** ** Acquire: INSERT .. ON CONFLICT (agent_id) DO UPDATE .. WHERE *)
Definition acquire_row (env : lease_env) (corp_id agent_id actor_id : uuid)
    (current : option control_lease) : option (result control_lease) :=
  let expires_at := (le_clock env + minutes 5)%Z in
  match current with
  | None => Some (Ok (ControlLease agent_id corp_id actor_id (le_token env) 1 expires_at))
  | Some lease =>
      if (cl_expires_at lease <=? le_db_now env)%Z || (cl_actor_id lease =? actor_id)%N
      then Some (version ← with_context (checked_i64 (cl_lease_version lease + 1)) "bigint out of range";
                 Ok (ControlLease agent_id corp_id actor_id (le_token env) version expires_at))
      else None
  end.

Definition acquire_lease (env : lease_env) (corp_id agent_id actor_id : uuid) :
    txn control_db lease_outcome :=
  assert_actor_agent_scope_tx corp_id actor_id agent_id;;
  lock_agent_for_grant_tx corp_id agent_id;;
  current ← gets (λ db, c_leases db !! agent_id);
  match acquire_row env corp_id agent_id actor_id current with
  | Some row =>
      row ← lift row;
      lease ← store_lease_tx row;
      event ← append_event_tx
        (lease_event corp_id actor_id agent_id "control.lease_acquired" "lease-acquire" (le_event env)
           (json_object [("actor_id", JStr (uuid_to_string actor_id));
                         ("expires_at", JStr (timestamp_rfc3339 (le_clock env + minutes 5)))]));
      mret (LeaseOutcome true lease event)
  | None =>
      lease ← fetch (λ db, c_leases db !! agent_id)
                "no rows returned by a query that expected to return at least one row";
      mret (LeaseOutcome false lease None)
  end.

(** ** Release: DELETE .. WHERE .. RETURNING *)
Definition release_lease (env : lease_env) (corp_id agent_id actor_id token : uuid) :
    txn control_db lease_mutation_outcome :=
  assert_actor_agent_scope_tx corp_id actor_id agent_id;;
  fetch (λ db, lease ← c_leases db !! agent_id;
               if (cl_corp_id lease =? corp_id)%N && (cl_actor_id lease =? actor_id)%N
                  && (cl_token lease =? token)%N && (le_db_now env <? cl_expires_at lease)%Z
               then Some lease else None)
    "stale or unauthorized control lease";;
  modify (set_leases (delete agent_id));;
  event ← append_new_event
    (lease_event corp_id actor_id agent_id "control.lease_released" "lease-release" (le_event env)
       (json_object [("actor_id", JStr (uuid_to_string actor_id))]))
    "lease release event unexpectedly existed";
  mret (LeaseMutationOutcome None event).

(** ** Transfer *)
Definition lease_in_corp (corp_id agent_id : uuid) (db : control_db) : option control_lease :=
  lease ← c_leases db !! agent_id; if (cl_corp_id lease =? corp_id)%N then Some lease else None.

Definition transfer_lease (env : lease_env) (corp_id agent_id actor_id token to_actor_id : uuid) :
    txn control_db lease_mutation_outcome :=
  assert_actor_agent_scope_tx corp_id actor_id agent_id;;
  assert_actor_scope_tx corp_id to_actor_id;;
  assert_actor_agent_scope_tx corp_id to_actor_id agent_id;;
  lock_agent_for_grant_tx corp_id agent_id;;
  lift (bail_if (actor_id =? to_actor_id)%N "lease transfer target must be another actor");;
  existing ← fetch (lease_in_corp corp_id agent_id) "agent has no active control lease";
  lift (bail_if (negb (cl_actor_id existing =? actor_id)%N || negb (cl_token existing =? token)%N
                 || (cl_expires_at existing <=? le_clock env)%Z)
          "stale or unauthorized control lease");;
  version ← lift (with_context (checked_i64 (cl_lease_version existing + 1)) "bigint out of range");
  lease ← store_lease_tx (ControlLease agent_id corp_id to_actor_id (le_token env) version
                            (le_clock env + minutes 5)%Z);
  event ← append_new_event
    (lease_event corp_id actor_id agent_id "control.lease_transferred" "lease-transfer" (le_event env)
       (json_object [("from_actor_id", JStr (uuid_to_string actor_id));
                     ("to_actor_id", JStr (uuid_to_string to_actor_id));
                     ("expires_at", JStr (timestamp_rfc3339 (le_clock env + minutes 5)))]))
    "lease transfer event unexpectedly existed";
  mret (LeaseMutationOutcome (Some lease) event).

(** ** Control messages *)
Definition run_is_steerable (status : run_status) : bool :=
  match status with
  | RunStatus.Starting | RunStatus.Running | RunStatus.WaitingForInput
  | RunStatus.WaitingForApproval | RunStatus.Verifying => true
  | _ => false
  end.

(** The newest steerable run of the agent, with the agent's adapter. *)
Definition newer_run (best : option (uuid * run_row)) (candidate : uuid * run_row) :
    option (uuid * run_row) :=
  match best with
  | Some (_, run) => if (run_created_at run <? run_created_at candidate.2)%Z then Some candidate else best
  | None => Some candidate
  end.
Definition active_run (corp_id agent_id : uuid) (db : control_db) : option (uuid * run_row * string) :=
  let candidates := List.filter (λ '(_, run), (run_agent_id run =? agent_id)%N
      && (run_corp_id run =? corp_id)%N && run_is_steerable (run_status_of run))
    (map_to_list (c_runs db)) in
  run ← foldl newer_run None candidates;
  agent ← c_agents db !! agent_id;
  Some (run, ag_adapter agent).

Definition adapter_supports_steer (adapter : string) : bool :=
  mem adapter ["codex"; "github-copilot"; "fake-process"].

(** Does the sender hold the lease; the other combinations are errors. *)
Definition holds_lease (lease : option control_lease) (actor_id : uuid) (lease_token : option uuid) :
    result bool :=
  match lease, lease_token with
  | Some lease, Some supplied =>
      if (cl_actor_id lease =? actor_id)%N && (cl_token lease =? supplied)%N then Ok true
      else Err "stale or unauthorized control lease token"
  | Some lease, None =>
      if negb (cl_actor_id lease =? actor_id)%N then Ok false
      else Err "stale or unauthorized control lease token"
  | None, None => Ok false
  | None, Some _ => Err "stale or unauthorized control lease token"
  end.

Definition message_by_key (corp_id idempotency_key : uuid) (db : control_db) : option queued_message :=
  snd <$> find (λ '(_, message), (qm_corp_id message =? corp_id)%N
                                 && (qm_idempotency_key message =? idempotency_key)%N)
            (map_to_list (c_messages db)).

Definition message_replay (message : queued_message) (agent_id actor_id : uuid) (text : string) :
    txn control_db message_outcome :=
  lift (bail_if (negb (qm_agent_id message =? agent_id)%N || negb (qm_actor_id message =? actor_id)%N
                 || negb (seqb (qm_text message) text))
          "control message idempotency key was reused with another request");;
  command_status ← gets (λ db, c ← qm_command_id message; rc_status <$> c_commands db !! c);
  runner_id ← gets (λ db, r ← qm_run_id message; run_runner_id <$> c_runs db !! r);
  mret (MessageOutcome message (qm_status message) (qm_run_id message) runner_id None true
          (opt_eqb command_status (Some "pending"))).

Definition control_payload (message_id agent_id actor_id : uuid) (lease_version : Z) (text : string) :
    json :=
  json_object [("message_id", JStr (uuid_to_string message_id));
               ("agent_id", JStr (uuid_to_string agent_id));
               ("actor_id", JStr (uuid_to_string actor_id));
               ("lease_version", JInt lease_version);
               ("text", JStr text)].

(** INSERT INTO runner_commands, for a message that goes to a run at once. *)
Definition queue_command (env : lease_env) (corp_id agent_id actor_id : uuid) (text : string)
    (lease_version : option Z) (target : option (uuid * string)) : txn control_db (option uuid) :=
  match target with
  | Some (run_id, runner_id) =>
      version ← lift (with_context lease_version "immediate control message omitted its lease fence");
      insert_fresh (λ db, is_some (c_commands db !! le_command env));;
      modify (set_commands <[le_command env :=
        RunnerCommand (le_command env) corp_id runner_id run_id "control_message"
          (control_payload (le_message env) agent_id actor_id version text)
          ("control-message:" +:+ uuid_to_string (le_message env)) "pending"
          (le_db_now env) None]>);;
      mret (Some (le_command env))
  | None => mret None
  end.

Definition queue_message (env : lease_env) (corp_id agent_id actor_id : uuid)
    (lease_token : option uuid) (text : string) (idempotency_key : uuid) :
    txn control_db message_outcome :=
  let text := trim text in
  lift (bail_if (is_empty text) "message cannot be empty");;
  lift (bail_if (4000 <? str_len text)%Z "message cannot exceed 4,000 characters");;
  assert_actor_agent_scope_tx corp_id actor_id agent_id;;
  lock_agent_for_grant_tx corp_id agent_id;;
  existing ← gets (message_by_key corp_id idempotency_key);
  match existing with
  | Some message => message_replay message agent_id actor_id text
  | None =>
      active_lease ← gets (λ db, lease ← lease_in_corp corp_id agent_id db;
        if (le_clock env <? cl_expires_at lease)%Z then Some lease else None);
      holds ← lift (holds_lease active_lease actor_id lease_token);
      let lease_version := (lease ← active_lease;
        if (cl_actor_id lease =? actor_id)%N then Some (cl_lease_version lease) else None) in
      run ← gets (active_run corp_id agent_id);
      let supports := match run with Some (_, adapter) => adapter_supports_steer adapter | None => false end in
      let immediate := holds && is_some run && supports in
      let delivery := if immediate then "immediate" else "queued" in
      let target := if immediate then (λ '(id, row, _), (id, run_runner_id row)) <$> run else None in
      let run_id := fst <$> target in
      let runner_id := snd <$> target in
      command_id ← queue_command env corp_id agent_id actor_id text lease_version target;
      let message := QueuedMessage (le_message env) corp_id agent_id actor_id text delivery run_id
                       idempotency_key command_id None in
      insert_fresh (λ db, is_some (c_messages db !! le_message env));;
      modify (set_messages <[le_message env := message]>);;
      event ← append_new_event
        (new_event_of corp_id (Some actor_id)
           (if immediate then "control.message_accepted" else "control.message_queued")
           "agent" agent_id ("control-message:" +:+ uuid_to_string (le_message env))
           (json_object [("message_id", JStr (uuid_to_string (le_message env)));
                         ("delivery", JStr delivery); ("text", JStr text)]))
        "control message event unexpectedly existed";
      mret (MessageOutcome message delivery run_id runner_id (Some event) false (is_some command_id))
  end.

(** ** The fence of a durable command *)
Definition payload_uuid (payload : json) (key omitted invalid : string) : result uuid :=
  value ← with_context (get key payload ≫= as_str) omitted;
  with_context (uuid_parse_str value) invalid.

(** The join behind [control_command_lease_token]. *)
Definition fence_row (now : timestamp) (command : runner_command) (message_id agent_id actor_id : uuid)
    (lease_version : Z) (db : control_db) : option uuid :=
  row ← c_commands db !! rc_id command;
  message ← c_messages db !! message_id;
  lease ← c_leases db !! agent_id;
  run ← c_runs db !! rc_run_id row;
  if seqb (rc_runner_id row) (rc_runner_id command) && (rc_corp_id row =? rc_corp_id command)%N
     && (rc_run_id row =? rc_run_id command)%N && seqb (rc_status row) "pending"
     && bool_decide (qm_command_id message = Some (rc_id row)) && (qm_agent_id message =? agent_id)%N
     && (qm_actor_id message =? actor_id)%N
     && (cl_corp_id lease =? rc_corp_id row)%N && (cl_actor_id lease =? actor_id)%N
     && (cl_lease_version lease =? lease_version)%Z && (now <? cl_expires_at lease)%Z
     && (run_agent_id run =? agent_id)%N && seqb (run_runner_id run) (rc_runner_id row)
     && run_is_steerable (run_status_of run)
  then Some (cl_token lease) else None.

Definition control_command_lease_token (now : timestamp) (command : runner_command) (db : control_db) :
    result (option uuid) :=
  if negb (seqb (rc_command_kind command) "control_message") then Ok None
  else
    message_id ← payload_uuid (rc_payload command) "message_id"
      "control message command omitted message_id" "control message id is invalid";
    agent_id ← payload_uuid (rc_payload command) "agent_id"
      "control message command omitted agent_id" "control agent id is invalid";
    actor_id ← payload_uuid (rc_payload command) "actor_id"
      "control message command omitted actor_id" "control actor id is invalid";
    lease_version ← with_context (get "lease_version" (rc_payload command) ≫= as_i64)
      "control message command omitted lease_version";
    Ok (fence_row now command message_id agent_id actor_id lease_version db).

(** ** The system *)
Inductive lease_request :=
| Acquire (corp_id agent_id actor_id : uuid)
| Release (corp_id agent_id actor_id token : uuid)
| Transfer (corp_id agent_id actor_id token to_actor_id : uuid)
| Message (corp_id agent_id actor_id : uuid) (token : option uuid) (text : string) (key : uuid).

Definition lease_handle (env : lease_env) (request : lease_request) : txn control_db unit :=
  match request with
  | Acquire corp agent actor => acquire_lease env corp agent actor;; mret tt
  | Release corp agent actor token => release_lease env corp agent actor token;; mret tt
  | Transfer corp agent actor token to => transfer_lease env corp agent actor token to;; mret tt
  | Message corp agent actor token text key =>
      queue_message env corp agent actor token text key;; mret tt
  end.

Definition lease_actor (request : lease_request) : uuid :=
  match request with
  | Acquire _ _ a | Release _ _ a _ | Transfer _ _ a _ _ | Message _ _ a _ _ _ => a
  end.
Definition lease_agent (request : lease_request) : uuid :=
  match request with
  | Acquire _ g _ | Release _ g _ _ | Transfer _ g _ _ _ | Message _ g _ _ _ _ => g
  end.
End control.

(** ** Lemmas: what a request does to the leases *)
Lemma fetch_ok {A} (o : control_db → option A) message db a db' :
  fetch o message db = Ok (a, db') ↔ o db = Some a ∧ db' = db.
Proof.
  unfold fetch. rewrite txn_bind_ok. split.
  - intros (r & s & H1 & H2). txn_inv. by apply with_context_ok in H2.
  - intros [Ho ->]. exists (o db), db. split; [done |]. rewrite Ho. done.
Qed.

Lemma insert_fresh_ok taken db u db' :
  insert_fresh taken db = Ok (u, db') ↔ taken db = false ∧ db' = db.
Proof.
  destruct u. unfold insert_fresh. rewrite txn_bind_ok. split.
  - intros (t & s & H1 & H2). txn_inv. by apply bail_if_ok in H2.
  - intros [Ht ->]. exists false, db. split; [by apply gets_ok | done].
Qed.

Ltac lease_step :=
  match goal with
  | H : fetch _ _ _ = Ok _ |- _ =>
      let H' := fresh in apply fetch_ok in H as [H H']; subst
  | H : insert_fresh _ _ = Ok _ |- _ =>
      let H' := fresh in apply insert_fresh_ok in H as [H H']; subst
  | H : bail_if _ _ = Ok _ |- _ => apply bail_if_ok in H
  | H : with_context _ _ = Ok _ |- _ => apply with_context_ok in H
  | _ => txn_step
  end.
Ltac lease_inv := repeat lease_step.

Lemma agent_scope_ok corp actor agent db u db' :
  assert_actor_agent_scope_tx corp actor agent db = Ok (u, db') → db' = db.
Proof.
  unfold assert_actor_agent_scope_tx, assert_actor_scope_tx, assert_room_membership_tx.
  intros H. lease_inv. destruct (ag_mission_id _); by lease_inv.
Qed.

Lemma grant_lock_ok corp agent db u db' :
  lock_agent_for_grant_tx corp agent db = Ok (u, db') → db' = db.
Proof. unfold lock_agent_for_grant_tx. intros H. by lease_inv. Qed.

Lemma store_lease_ok lease db l db' :
  store_lease_tx lease db = Ok (l, db') →
  l = lease ∧ db' = set_leases <[cl_agent_id lease := lease]> db.
Proof. unfold store_lease_tx. intros H. by lease_inv. Qed.

Ltac scope_inv :=
  repeat match goal with
  | H : assert_actor_agent_scope_tx _ _ _ _ = Ok _ |- _ => apply agent_scope_ok in H; subst
  | H : lock_agent_for_grant_tx _ _ _ = Ok _ |- _ => apply grant_lock_ok in H; subst
  | H : store_lease_tx _ _ = Ok _ |- _ => apply store_lease_ok in H as [-> ->]
  | _ => lease_step
  end.

(** How the lease of an agent can change. *)
Inductive lease_change (env : lease_env) : lease_request → option control_lease → option control_lease → Prop :=
| change_acquire corp agent actor current lease :
    acquire_row env corp agent actor current = Some (Ok lease) →
    lease_change env (Acquire corp agent actor) current (Some lease)
| change_release corp agent actor token lease :
    cl_actor_id lease = actor → cl_token lease = token → (le_db_now env < cl_expires_at lease)%Z →
    lease_change env (Release corp agent actor token) (Some lease) None
| change_transfer corp agent actor token to lease version :
    cl_actor_id lease = actor → cl_token lease = token → (le_clock env < cl_expires_at lease)%Z →
    actor ≠ to → version = (cl_lease_version lease + 1)%Z →
    lease_change env (Transfer corp agent actor token to) (Some lease)
      (Some (ControlLease agent corp to (le_token env) version (le_clock env + minutes 5)%Z)).

Section lease_lemmas.
Context `{Serde}.

Lemma queue_command_ok env corp agent actor text version target db c db' :
  queue_command env corp agent actor text version target db = Ok (c, db') →
  match target with
  | Some (run_id, runner_id) => ∃ v, version = Some v ∧ c = Some (le_command env) ∧
      db' = set_commands <[le_command env :=
        RunnerCommand (le_command env) corp runner_id run_id "control_message"
          (control_payload (le_message env) agent actor v text)
          ("control-message:" +:+ uuid_to_string (le_message env)) "pending"
          (le_db_now env) None]> db
  | None => c = None ∧ db' = db
  end.
Proof.
  unfold queue_command. destruct target as [[run_id runner_id]|]; intros H1; scope_inv; [| done].
  by eexists.
Qed.

Lemma message_leases env corp agent actor token text key db out db' :
  queue_message env corp agent actor token text key db = Ok (out, db') →
  c_leases db' = c_leases db.
Proof.
  unfold queue_message. intros H1. scope_inv.
  destruct (message_by_key _ _ _) as [message|]; [unfold message_replay in H1; by scope_inv |].
  scope_inv. match goal with H : queue_command _ _ _ _ _ _ _ _ = _ |- _ => apply queue_command_ok in H end.
  simpl. repeat case_match; naive_solver.
Qed.

Lemma acquire_row_agent env corp agent actor current lease :
  acquire_row env corp agent actor current = Some (Ok lease) → cl_agent_id lease = agent.
Proof.
  unfold acquire_row. intros Er. repeat case_match; simplify_eq; try done.
  match goal with H : mbind _ _ = Ok _ |- _ => apply bind_ok in H as (v & _ & Hr) end.
  by injection Hr as <-.
Qed.

Lemma lease_handled env request db u db' :
  lease_handle env request db = Ok (u, db') →
  (∀ g, g ≠ lease_agent request → c_leases db' !! g = c_leases db !! g) ∧
  (c_leases db' !! lease_agent request = c_leases db !! lease_agent request ∨
   lease_change env request (c_leases db !! lease_agent request)
     (c_leases db' !! lease_agent request)).
Proof.
  destruct request as [corp agent actor|corp agent actor token|corp agent actor token to
    |corp agent actor token text key]; simpl; intros H1; txn_inv.
  - unfold acquire_lease in Ha. scope_inv.
    destruct (acquire_row _ _ _ _ _) as [row|] eqn:Er; scope_inv; [| by split; [| left]].
    match goal with H : append_event_tx _ _ = _ |- _ => unfold append_event_tx in H; rename H into Hev end.
    pose proof (acquire_row_agent _ _ _ _ _ _ Er) as Hag.
    match type of Hev with _ = Ok (_, ?d) => match type of Er with _ = Some (Ok ?l) =>
      assert (c_leases d = <[agent := l]> (c_leases db)) as ->
        by (case_match; injection Hev as _ <-; simpl; by rewrite Hag) end end.
    split; [intros g Hg; by rewrite lookup_insert_ne |].
    right. rewrite lookup_insert_eq. by constructor.
  - unfold release_lease in Ha. scope_inv. simpl.
    match goal with H : _ ≫= _ = Some _ |- _ => apply bind_Some in H as (lease & Hl & Hc) end.
    split; [intros g Hg; by rewrite lookup_delete_ne |]. right. rewrite lookup_delete_eq, Hl.
    case_match eqn:E; [| done]. res_inv. rewrite !N.eqb_eq in *. constructor; [done | done | lia].
  - unfold transfer_lease, assert_actor_scope_tx in Ha. scope_inv. simpl.
    match goal with H : lease_in_corp _ _ _ = Some _ |- _ => unfold lease_in_corp in H;
      apply bind_Some in H as (lease & Hl & Hc) end.
    case_match eqn:E; [| done]. simplify_eq. res_inv.
    repeat match goal with H : (_ =? _)%N = true |- _ => apply N.eqb_eq in H end.
    match goal with H : (_ =? _)%N = false |- _ => apply N.eqb_neq in H end.
    match goal with H : checked_i64 _ = Some _ |- _ => apply checked_i64_spec in H as [-> _] end.
    split; [intros g Hg; by rewrite lookup_insert_ne |]. right. rewrite lookup_insert_eq, Hl.
    constructor; done || lia.
  - apply message_leases in Ha as ->. by split; [| left].
Qed.
End lease_lemmas.

(** ** Runs of the system *)
Inductive lease_step_of `{Serde} (allowed : lease_request → Prop) : control_db → control_db → Prop :=
| lease_step_handle env request db : allowed request →
    lease_step_of allowed db (run_txn (lease_handle env request) db).2.

(** Every request but a release of agent [g]. *)
Definition keeps_lease (g : uuid) (request : lease_request) : Prop :=
  match request with Release _ agent _ _ => agent ≠ g | _ => True end.

Section fence.
Context `{SerdeLaws}.

Lemma run_leases env request db g :
  c_leases (run_txn (lease_handle env request) db).2 !! g = c_leases db !! g ∨
  g = lease_agent request ∧
  lease_change env request (c_leases db !! g) (c_leases (run_txn (lease_handle env request) db).2 !! g).
Proof.
  unfold run_txn. destruct (lease_handle env request db) as [[u db']|] eqn:E; [| by left].
  apply lease_handled in E as [Hother Hown]. simpl.
  destruct (decide (g = lease_agent request)) as [->|Hne]; [| left; by apply Hother].
  destruct Hown; auto.
Qed.

Lemma lease_change_version env request current next :
  lease_change env request (Some current) (Some next) →
  cl_lease_version next = (cl_lease_version current + 1)%Z.
Proof.
  inversion 1 as [corp agent actor ? lease Hr|?|]; simplify_eq; [| done].
  unfold acquire_row in Hr. repeat case_match; simplify_eq.
  match goal with H : mbind _ _ = Ok _ |- _ => apply bind_ok in H as (v & Hv & Hr) end.
  injection Hr as <-. apply with_context_ok, checked_i64_spec in Hv as [-> _]. done.
Qed.

Lemma steps_version g v db db' :
  rtc (lease_step_of (keeps_lease g)) db db' →
  (∃ lease, c_leases db !! g = Some lease ∧ (v < cl_lease_version lease)%Z) →
  ∃ lease, c_leases db' !! g = Some lease ∧ (v < cl_lease_version lease)%Z.
Proof.
  induction 1 as [db|db db1 db2 Hstep _ IH]; [done |]. intros (lease & Hl & Hv). apply IH.
  destruct Hstep as [env request db Hk].
  destruct (run_leases env request db g) as [->|[-> Hc]]; [by exists lease |].
  destruct (c_leases (run_txn (lease_handle env request) db).2 !! lease_agent request) as [next|] eqn:En.
  - exists next. split; [done |]. rewrite Hl in Hc. apply lease_change_version in Hc. lia.
  - inversion Hc; subst. by simpl in Hk.
Qed.

Lemma payload_get message_id agent_id actor_id version text :
  let payload := control_payload message_id agent_id actor_id version text in
  payload_uuid payload "message_id" "control message command omitted message_id"
    "control message id is invalid" = Ok message_id ∧
  payload_uuid payload "agent_id" "control message command omitted agent_id"
    "control agent id is invalid" = Ok agent_id ∧
  payload_uuid payload "actor_id" "control message command omitted actor_id"
    "control actor id is invalid" = Ok actor_id ∧
  (get "lease_version" payload ≫= as_i64) = if in_i64 version then Some version else None.
Proof.
  unfold payload_uuid. simpl.
  rewrite !uuid_round_trip. done.
Qed.

Lemma fence_control_payload now id corp runner run message_id agent_id actor_id version text key status created failure db :
  control_command_lease_token now
    (RunnerCommand id corp runner run "control_message"
       (control_payload message_id agent_id actor_id version text) key status created failure) db =
  if in_i64 version
  then Ok (fence_row now (RunnerCommand id corp runner run "control_message"
             (control_payload message_id agent_id actor_id version text) key status created failure)
             message_id agent_id actor_id version db)
  else Err "control message command omitted lease_version".
Proof.
  unfold control_command_lease_token. cbn [rc_command_kind rc_payload]. rewrite seqb_refl.
  cbn [negb]. destruct (payload_get message_id agent_id actor_id version text) as (-> & -> & -> & Hv).
  cbn [mbind result_bind]. rewrite Hv. by destruct (in_i64 version).
Qed.

Lemma fence_row_lease now command message_id agent_id actor_id version db token :
  fence_row now command message_id agent_id actor_id version db = Some token →
  ∃ lease, c_leases db !! agent_id = Some lease ∧ cl_actor_id lease = actor_id ∧
    cl_lease_version lease = version ∧ (now < cl_expires_at lease)%Z ∧ cl_token lease = token.
Proof.
  unfold fence_row. intros Hf.
  apply bind_Some in Hf as (row & _ & Hf). apply bind_Some in Hf as (message & _ & Hf).
  apply bind_Some in Hf as (lease & Hl & Hf). apply bind_Some in Hf as (run & _ & Hf).
  case_match eqn:E; [| done]. injection Hf as <-. res_inv. exists lease.
  rewrite ?N.eqb_eq, ?Z.eqb_eq in *. split_and!; done || lia.
Qed.

Lemma newer_run_elem best l r :
  foldl newer_run best l = Some r → best = Some r ∨ r ∈ l.
Proof.
  revert best. induction l as [|x l IH]; intros best; simpl; [by left |].
  intros [Hn|Hn]%IH; [| right; by apply list_elem_of_further].
  unfold newer_run in Hn. repeat case_match; simplify_eq; auto using list_elem_of_here.
Qed.

Lemma active_run_ok corp agent db id run adapter :
  active_run corp agent db = Some (id, run, adapter) →
  c_runs db !! id = Some run ∧ run_agent_id run = agent ∧
  run_is_steerable (run_status_of run) = true.
Proof.
  unfold active_run. intros Hr. apply bind_Some in Hr as ([id' run'] & Hf & Hr).
  apply bind_Some in Hr as (a & _ & Hr). simplify_eq.
  apply newer_run_elem in Hf as [|Hf]; [done |].
  apply list_elem_of_In, filter_In in Hf as [Hin Hp]. apply list_elem_of_In, elem_of_map_to_list in Hin.
  res_inv. by rewrite ?N.eqb_eq in *.
Qed.
End fence.

(** ** Properties *)
Section sample_control.
Definition control_directory : directory :=
  Directory {[10%N := ActorRow 1 "member" "human"; 20%N := ActorRow 1 "member" "human"]}
    {[5%N := 1%N]} ∅ ∅ ∅ ∅ ∅.
Definition control_start : control_db :=
  ControlDb control_directory {[50%N := AgentRow 1 None None "codex"]} ∅ ∅ ∅
    {[60%N := RunRow 1 50 "runner-1" RunStatus.Running 0 70]} [].
Definition control_env (now : Z) (fresh : uuid) : lease_env :=
  LeaseEnv (seconds now) (seconds now) fresh (fresh + 1) (fresh + 2) (fresh + 3).
Definition control_run (steps : list (lease_env * lease_request)) (db : control_db) : control_db :=
  foldl (λ db '(env, request), (run_txn (lease_handle (H:=sample_serde) env request) db).2) db steps.
Definition control_held : control_db :=
  control_run [(control_env 0 100, Acquire 1 50 10)] control_start.
End sample_control.

(** C39: while a control lease is live, no other actor can take it, release it,
    transfer it or change it in any way: every request by someone else leaves
    the lease of the agent as it is. *)
Theorem live_control_excludes_others `{Serde} env request db agent lease :
  c_leases db !! agent = Some lease → (le_db_now env < cl_expires_at lease)%Z →
  lease_actor request ≠ cl_actor_id lease →
  c_leases (run_txn (lease_handle env request) db).2 !! agent = Some lease.
Proof.
  intros Hl Hlive Hne. destruct (run_leases env request db agent) as [->|[-> Hc]]; [done |].
  rewrite Hl in Hc. exfalso. inversion Hc as [corp g actor ? l Hr| |]; simplify_eq; try done.
  unfold acquire_row in Hr. simpl in Hne.
  case_match eqn:E; [| done]. apply orb_true_iff in E as [E|E]; [lia |].
  apply N.eqb_eq in E. congruence.
Qed.

Lemma live_control_excludes_others_witness :
  ∃ lease, c_leases control_held !! 50%N = Some lease ∧
  c_leases (run_txn (lease_handle (H:=sample_serde) (control_env 299 200) (Acquire 1 50 20)) control_held).2
    !! 50%N = Some lease.
Proof.
  eexists. split; [vm_compute; reflexivity |].
  apply (live_control_excludes_others (H:=sample_serde)).
  - vm_compute. reflexivity.
  - vm_compute. reflexivity.
  - vm_compute. discriminate.
Defined.

(** The command fence only tightens while the lease is not released: once the
    lease of an agent has passed the version a control command was queued under
    (a renewal, takeover or transfer), no sequence of acquisitions, transfers and
    messages makes the command deliverable again. *)
Theorem stale_command_stays_fenced `{SerdeLaws} db db' agent lease now id corp runner run message actor
    version text key status created failure token :
  c_leases db !! agent = Some lease → (version < cl_lease_version lease)%Z →
  rtc (lease_step_of (keeps_lease agent)) db db' →
  control_command_lease_token now
    (RunnerCommand id corp runner run "control_message"
       (control_payload message agent actor version text) key status created failure) db' ≠ Ok (Some token).
Proof.
  intros Hl Hv Hs. rewrite fence_control_payload. case_match; [| done].
  intros [= (l & Hl' & _ & Hver & _)%fence_row_lease].
  destruct (steps_version agent version db db' Hs) as (l' & Hl'' & Hlt); [by exists lease |].
  simplify_eq. lia.
Qed.

Definition control_queued : control_db :=
  control_run [(control_env 1 200, Message 1 50 10 (Some 100%N) "stop" 900)] control_held.
Definition control_transferred : control_db :=
  control_run [(control_env 2 300, Transfer 1 50 10 100 20)] control_queued.
Definition sample_command : runner_command :=
  RunnerCommand 203 1 "runner-1" 60 "control_message"
    (control_payload (H:=sample_serde) 202 50 10 1 "stop") "control-message:202" "pending" (seconds 1) None.

Lemma stale_command_stays_fenced_witness :
  c_commands control_queued !! 203%N = Some sample_command ∧
  control_command_lease_token (H:=sample_serde) (seconds 3) sample_command control_queued = Ok (Some 100%N) ∧
  control_command_lease_token (H:=sample_serde) (seconds 3) sample_command control_transferred ≠ Ok (Some 300%N).
Proof.
  split; [vm_compute; reflexivity |]. split; [vm_compute; reflexivity |].
  eapply (stale_command_stays_fenced (H:=sample_serde_laws) control_transferred control_transferred 50).
  - vm_compute. reflexivity.
  - vm_compute. reflexivity.
  - apply rtc_refl.
Defined.

(** A released lease loses its version: the row is deleted, and the next
    acquisition starts again at version one, so a command queued under the
    released lease is refused after the release but passes the fence again once
    the same actor acquires a new lease. *)
Theorem release_reopens_fence :
  let released := control_run [(control_env 2 300, Release 1 50 10 100)] control_queued in
  let reacquired := control_run [(control_env 3 400, Acquire 1 50 10)] released in
  control_command_lease_token (H:=sample_serde) (seconds 4) sample_command released = Ok None ∧
  control_command_lease_token (H:=sample_serde) (seconds 4) sample_command reacquired = Ok (Some 400%N).
Proof. split; vm_compute; reflexivity. Qed.

Lemma message_immediate_inv `{Serde} env corp agent actor token text key db out db' :
  queue_message env corp agent actor token text key db = Ok (out, db') →
  mo_replayed out = false → mo_delivery out = "immediate" →
  ∃ lease run_id run,
    c_leases db !! agent = Some lease ∧ cl_corp_id lease = corp ∧ cl_actor_id lease = actor ∧
    token = Some (cl_token lease) ∧ (le_clock env < cl_expires_at lease)%Z ∧
    c_runs db !! run_id = Some run ∧ run_agent_id run = agent ∧
    run_is_steerable (run_status_of run) = true ∧
    c_commands db' !! le_command env =
      Some (RunnerCommand (le_command env) corp (run_runner_id run) run_id "control_message"
              (control_payload (le_message env) agent actor (cl_lease_version lease) (trim text))
              ("control-message:" +:+ uuid_to_string (le_message env)) "pending"
              (le_db_now env) None) ∧
    c_messages db' !! le_message env =
      Some (QueuedMessage (le_message env) corp agent actor (trim text) "immediate" (Some run_id) key
              (Some (le_command env)) None) ∧
    c_leases db' = c_leases db ∧ c_runs db' = c_runs db.
Proof.
  unfold queue_message. intros H1 Hrep Hdel. scope_inv.
  destruct (message_by_key _ _ _) as [message|]; [unfold message_replay in H1; scope_inv; done |].
  scope_inv.
  match goal with H : queue_command _ _ _ _ _ _ _ _ = _ |- _ =>
    apply queue_command_ok in H; rename H into Hq end.
  simpl in *.
  match goal with H : holds_lease ?al actor token = Ok ?h |- _ =>
    rename H into Hh; destruct al as [lease|] eqn:El; destruct h end;
    try (by destruct token; simpl in Hh; repeat case_match);
    try (simpl in Hdel; done).
  apply bind_Some in El as (lease0 & Hlc & El).
  destruct (le_clock env <? cl_expires_at lease0)%Z eqn:Elive; [| done]. injection El as ->.
  unfold lease_in_corp in Hlc. apply bind_Some in Hlc as (lease1 & Hl & Hlc).
  destruct (cl_corp_id lease1 =? corp)%N eqn:Ecorp; [| done]. injection Hlc as ->.
  apply N.eqb_eq in Ecorp.
  destruct token as [supplied|]; simpl in Hh; [| by destruct (cl_actor_id lease =? actor)%N].
  destruct (_ && _) eqn:Eh in Hh; [| done].
  apply andb_true_iff in Eh as [Ea%N.eqb_eq Es%N.eqb_eq]. subst.
  destruct (active_run (cl_corp_id lease) agent db) as [[[run_id run] adapter]|] eqn:Erun; [| done].
  simpl in *. destruct (adapter_supports_steer adapter); [| done]. simpl in *.
  destruct Hq as (v & Hv & -> & ->).
  rewrite N.eqb_refl in Hv. injection Hv as <-.
  apply active_run_ok in Erun as (? & ? & ?).
  exists lease, run_id, run. simpl. rewrite !lookup_insert_eq. split_and!; done || lia.
Qed.

(** A message accepted for immediate delivery was sent by the live holder of
    the lease to a run that can be steered, and the durable command it leaves
    passes the fence for as long as that lease lives: the runner receives the
    token of the sender's lease. *)
Theorem immediate_message_is_deliverable `{SerdeLaws} env corp agent actor token text key db out db' :
  queue_message env corp agent actor token text key db = Ok (out, db') →
  mo_replayed out = false → mo_delivery out = "immediate" →
  ∃ lease command, c_leases db !! agent = Some lease ∧ cl_actor_id lease = actor ∧
    token = Some (cl_token lease) ∧ (le_clock env < cl_expires_at lease)%Z ∧
    c_commands db' !! le_command env = Some command ∧
    ∀ now, (now < cl_expires_at lease)%Z → in_i64 (cl_lease_version lease) = true →
      control_command_lease_token now command db' = Ok (Some (cl_token lease)).
Proof.
  intros H1 Hrep Hdel.
  destruct (message_immediate_inv _ _ _ _ _ _ _ _ _ _ H1 Hrep Hdel)
    as (lease & run_id & run & Hl & Hcorp & Hactor & Htok & Hlive & Hrun & Hag & Hst & Hcmd & Hmsg & Hls & Hrs).
  do 2 eexists. split_and!; [exact Hl | done | done | done | exact Hcmd |].
  intros now Hnow Hver. rewrite fence_control_payload, Hver. f_equal. unfold fence_row.
  cbn [rc_id]. rewrite Hcmd. cbn [mbind option_bind]. rewrite Hmsg. cbn [mbind option_bind].
  rewrite Hls, Hl. cbn [mbind option_bind rc_run_id]. rewrite Hrs, Hrun. cbn [mbind option_bind].
  simpl. rewrite !seqb_refl, !N.eqb_refl, Z.eqb_refl, Hst, bool_decide_eq_true_2 by done.
  rewrite Hcorp, Hactor, Hag, !N.eqb_refl. by replace (now <? cl_expires_at lease)%Z with true by lia.
Qed.

Lemma immediate_message_is_deliverable_witness :
  ∃ out, queue_message (H:=sample_serde) (control_env 1 200) 1 50 10 (Some 100%N) "stop" 900 control_held
    = Ok (out, control_queued) ∧
  ∃ command, c_commands control_queued !! 203%N = Some command ∧
    control_command_lease_token (H:=sample_serde) (seconds 299) command control_queued = Ok (Some 100%N).
Proof.
  eexists. split; [vm_compute; reflexivity |].
  edestruct (immediate_message_is_deliverable (H:=sample_serde_laws) (control_env 1 200) 1 50 10 (Some 100%N)
    "stop" 900 control_held) as (lease & command & Hl & _ & Ht & _ & Hc & Hd).
  - vm_compute. reflexivity.
  - reflexivity.
  - vm_compute. reflexivity.
  - exists command. split; [exact Hc |]. vm_compute in Hl. injection Hl as <-.
    simpl in Ht. apply Hd; vm_compute; reflexivity.
Defined.
