(* ===== verification/RunnerCommands.v ===== *)
(** * Durable runner commands and stops (crates/crony-store/src/lib.rs)

    A command for a runner is a row that is sent again until it is settled:
    [pending_runner_commands] and [runner_command_dispatch_state] say what may be
    sent, [acknowledge_runner_command] and [fail_runner_command] settle it once,
    with the message a control command carries; [requeue_control_message] puts a
    message back, [request_interrupt] and [request_emergency_stop] ask a run to
    stop.  The tables are those of [ControlLease]. *)
From S2P Require Import Prelude Text Json Domain Planning FactoryPolicy Store ControlLease.

(** ** Which commands may be sent *)
Definition earlier_command (x y : runner_command) : bool :=
  (rc_created_at x <? rc_created_at y)%Z
  || ((rc_created_at x =? rc_created_at y)%Z && (rc_id x <=? rc_id y)%N).
Definition pending_runner_commands (runner : string) (db : control_db) : list runner_command :=
  take 100 (sort_by earlier_command
    (List.filter (λ c, seqb (rc_runner_id c) runner && seqb (rc_status c) "pending")
       (map_to_list (c_commands db)).*2)).

Inductive command_dispatch_state := DispatchPending | DispatchSettled | DispatchObsolete.
#[global] Instance command_dispatch_state_eq : EqDecision command_dispatch_state.
Proof. solve_decision. Defined.

Definition run_takes_commands (status : run_status) : bool :=
  match status with
  | RunStatus.Provisioning | RunStatus.Starting | RunStatus.Running | RunStatus.WaitingForInput
  | RunStatus.WaitingForApproval | RunStatus.Verifying => true
  | _ => false
  end.
Definition dispatch_state (command_status : string) (run_status : option run_status) :
    command_dispatch_state :=
  if negb (seqb command_status "pending") then DispatchSettled
  else match run_status with
       | Some status => if run_takes_commands status then DispatchPending else DispatchObsolete
       | None => DispatchObsolete
       end.

(** The row of the command with its run, a LEFT JOIN. *)
Definition command_row (command : runner_command) (db : control_db) : option runner_command :=
  row ← c_commands db !! rc_id command;
  if (rc_corp_id row =? rc_corp_id command)%N && (rc_run_id row =? rc_run_id command)%N
     && seqb (rc_runner_id row) (rc_runner_id command)
  then Some row else None.
Definition command_run (row : runner_command) (db : control_db) : option run_row :=
  run ← c_runs db !! rc_run_id row;
  if (run_corp_id run =? rc_corp_id row)%N && seqb (run_runner_id run) (rc_runner_id row)
  then Some run else None.
Definition runner_command_dispatch_state (command : runner_command) (db : control_db) :
    command_dispatch_state :=
  match command_row command db with
  | Some row => dispatch_state (rc_status row) (run_status_of <$> command_run row db)
  | None => DispatchSettled
  end.

Section commands.
Context `{Serde}.

(** ** Settling a command *)
Definition settle (status : string) (failure : option string) (c : runner_command) : runner_command :=
  RunnerCommand (rc_id c) (rc_corp_id c) (rc_runner_id c) (rc_run_id c) (rc_command_kind c)
    (rc_payload c) (rc_idempotency_key c) status (rc_created_at c)
    (if is_some failure then failure else rc_failure_detail c).

(** UPDATE runner_commands .. WHERE id = .. AND runner_id = .. AND status = 'pending' RETURNING .. *)
Definition pending_command (command_id : uuid) (runner : string) (db : control_db) : option runner_command :=
  c ← c_commands db !! command_id;
  if seqb (rc_runner_id c) runner && seqb (rc_status c) "pending" then Some c else None.
Definition settle_tx (command_id : uuid) (runner status : string) (failure : option string) :
    txn control_db (option runner_command) :=
  found ← gets (pending_command command_id runner);
  match found with
  | None => mret None
  | Some c => modify (set_commands <[command_id := settle status failure c]>);; mret (Some c)
  end.

(** The message of a control command, UPDATE queued_messages .. WHERE command_id = .. AND corp_id .. AND id .. *)
Definition set_delivery (status : string) (delivered_at : option timestamp) (m : queued_message) :
    queued_message :=
  QueuedMessage (qm_id m) (qm_corp_id m) (qm_agent_id m) (qm_actor_id m) (qm_text m) status
    (qm_run_id m) (qm_idempotency_key m) (qm_command_id m) delivered_at.
Definition update_message (f : queued_message → queued_message) (command : runner_command)
    (message_id : uuid) : gmap uuid queued_message → gmap uuid queued_message :=
  alter (λ m, if bool_decide (qm_command_id m = Some (rc_id command))
                 && (qm_corp_id m =? rc_corp_id command)%N then f m else m) message_id.
Definition settle_message_tx (f : queued_message → queued_message) (command : runner_command) :
    txn control_db (option uuid) :=
  if seqb (rc_command_kind command) "control_message" then
    message_id ← lift (payload_uuid (rc_payload command) "message_id"
      "control message command omitted message_id" "control message id is invalid");
    modify (set_messages (update_message f command message_id));;
    mret (Some message_id)
  else mret None.

(** The mission and the room of a run. *)
Definition run_context (corp_id run_id : uuid) (db : control_db) : option (uuid * uuid) :=
  run ← c_runs db !! run_id;
  task ← dir_tasks (c_directory db) !! run_task_id run;
  mission ← dir_missions (c_directory db) !! task_mission task;
  if (run_corp_id run =? corp_id)%N then Some (task_mission task, mission_room mission) else None.
Definition missing_row : string :=
  "no rows returned by a query that expected to return at least one row".

Definition run_event (corp_id : uuid) (actor : option uuid) (event_type key : string) (run_id : uuid)
    (context : uuid * uuid) (payload : json) : new_event :=
  correlated (Some context.1)
    (at_version (Some context.2) 1 (new_event_of corp_id actor event_type "run" run_id key payload)).

Definition command_fields (command : runner_command) (message_id : option uuid) : list (string * json) :=
  [("command_id", JStr (uuid_to_string (rc_id command))); ("runner_id", JStr (rc_runner_id command));
   ("command_kind", JStr (rc_command_kind command));
   ("message_id", json_opt_str (uuid_to_string <$> message_id))].

(** [while detail.len() > 1_000 { detail.pop(); }], on the characters in reverse. *)
Fixpoint pop_to (limit : Z) (reversed : list Z) : list Z :=
  match reversed with
  | [] => []
  | _ :: rest => if (limit <? str_len (of_chars (reverse reversed)))%Z then pop_to limit rest else reversed
  end.
Definition truncate_chars (limit : Z) (s : string) : string :=
  of_chars (reverse (pop_to limit (reverse (chars s)))).
Definition failure_text (detail : string) : string :=
  let detail := truncate_chars 1000 (join " " (split_whitespace detail)) in
  if is_empty detail then "runner rejected the durable command" else detail.

Definition fail_runner_command (command_id : uuid) (runner detail : string) :
    txn control_db (option new_event) :=
  let detail := failure_text detail in
  settled ← settle_tx command_id runner "failed" (Some detail);
  match settled with
  | None => mret None
  | Some command =>
      message_id ← settle_message_tx (λ m, set_delivery "cancelled" (qm_delivered_at m) m) command;
      context ← fetch (run_context (rc_corp_id command) (rc_run_id command)) missing_row;
      event ← append_new_event
        (run_event (rc_corp_id command) None "runner.command_failed"
           ("runner-command-failed:" +:+ uuid_to_string command_id) (rc_run_id command) context
           (json_object (command_fields command message_id ++ [("detail", JStr detail)])))
        "runner command failure event unexpectedly existed";
      mret (Some event)
  end.

Definition acknowledge_runner_command (now : timestamp) (command_id : uuid) (runner : string) :
    txn control_db (option new_event) :=
  settled ← settle_tx command_id runner "dispatched" None;
  match settled with
  | None => mret None
  | Some command =>
      message_id ← settle_message_tx (λ m, set_delivery (qm_status m) (Some now) m) command;
      context ← fetch (run_context (rc_corp_id command) (rc_run_id command)) missing_row;
      event ← append_new_event
        (run_event (rc_corp_id command) None "runner.command_acknowledged"
           ("runner-command-ack:" +:+ uuid_to_string command_id) (rc_run_id command) context
           (json_object (command_fields command message_id)))
        "runner command acknowledgment event unexpectedly existed";
      mret (Some event)
  end.

(** ** Putting a message back *)
Definition requeued (m : queued_message) : queued_message :=
  QueuedMessage (qm_id m) (qm_corp_id m) (qm_agent_id m) (qm_actor_id m) (qm_text m) "queued"
    None (qm_idempotency_key m) (qm_command_id m) None.
Definition requeue_control_message (corp_id message_id : uuid) (reason : string) : txn control_db new_event :=
  message ← fetch (λ db, m ← c_messages db !! message_id;
                         if (qm_corp_id m =? corp_id)%N then Some m else None)
              "control message not found for requeue";
  modify (set_messages <[message_id := requeued message]>);;
  append_new_event
    (new_event_of corp_id (Some (qm_actor_id message)) "control.message_requeued" "agent"
       (qm_agent_id message) ("control-message-requeued:" +:+ uuid_to_string message_id)
       (json_object [("message_id", JStr (uuid_to_string message_id)); ("reason", JStr reason)]))
    "control message requeue event unexpectedly existed".

(** ** Asking a run to stop *)
Record stop_request_outcome := StopRequestOutcome {
  so_run_id : uuid; so_runner_id : string; so_event : new_event }.

Definition stop_reason (reason empty_message long_message : string) : result string :=
  let reason := trim reason in
  bail_if (is_empty reason) empty_message;;
  bail_if (500 <? str_len reason)%Z long_message;;
  Ok reason.

(** The newest run of the agent that has not ended: ORDER BY created_at DESC LIMIT 1. *)
Definition stoppable_run (corp_id agent_id : uuid) (db : control_db) : option (uuid * run_row) :=
  foldl newer_run None
    (List.filter (λ '(id, run), (run_agent_id run =? agent_id)%N && (run_corp_id run =? corp_id)%N
        && run_takes_commands (run_status_of run)
        && is_some (task ← dir_tasks (c_directory db) !! run_task_id run;
                    dir_missions (c_directory db) !! task_mission task))
      (map_to_list (c_runs db))).

Definition request_stop (env : lease_env) (corp_id agent_id actor_id : uuid)
    (event_type key reason missing existed : string) : txn control_db stop_request_outcome :=
  row ← fetch (stoppable_run corp_id agent_id) missing;
  let '(run_id, run) := row in
  context ← fetch (run_context corp_id run_id) missing_row;
  event ← append_new_event
    (run_event corp_id (Some actor_id) event_type
       (key +:+ ":" +:+ uuid_to_string run_id +:+ ":" +:+ uuid_to_string (le_event env)) run_id context
       (json_object [("agent_id", JStr (uuid_to_string agent_id)); ("reason", JStr reason)]))
    existed;
  mret (StopRequestOutcome run_id (run_runner_id run) event).

Definition request_interrupt (env : lease_env) (corp_id agent_id actor_id lease_token : uuid)
    (reason : string) : txn control_db stop_request_outcome :=
  reason ← lift (stop_reason reason "interrupt reason cannot be empty"
                   "interrupt reason cannot exceed 500 characters");
  assert_actor_agent_scope_tx corp_id actor_id agent_id;;
  lease ← fetch (lease_in_corp corp_id agent_id) "agent has no active control lease";
  lift (bail_if (negb (cl_actor_id lease =? actor_id)%N || negb (cl_token lease =? lease_token)%N
                 || (cl_expires_at lease <=? le_clock env)%Z)
          "stale or unauthorized control lease token");;
  request_stop env corp_id agent_id actor_id "run.interrupt_requested" "run-interrupt" reason
    "agent has no active run to interrupt" "run interrupt event unexpectedly existed".

Definition stop_roles : list string := ["owner"; "admin"; "manager"].
Definition request_emergency_stop (env : lease_env) (corp_id agent_id actor_id : uuid)
    (reason : string) : txn control_db stop_request_outcome :=
  reason ← lift (stop_reason reason "emergency stop reason cannot be empty"
                   "emergency stop reason cannot exceed 500 characters");
  assert_actor_agent_scope_tx corp_id actor_id agent_id;;
  role ← fetch (λ db, role_in (c_directory db) corp_id actor_id) missing_row;
  lift (bail_if (negb (mem role stop_roles))
          ("forbidden: actor role " +:+ role +:+ " cannot emergency-stop runs"));;
  request_stop env corp_id agent_id actor_id "run.stop_requested" "run-stop" reason
    "agent has no active run to stop" "run stop event unexpectedly existed".

(** ** The requests on commands and messages *)
Inductive command_request :=
| LeaseCall (request : lease_request)
| FailCommand (command_id : uuid) (runner detail : string)
| AcknowledgeCommand (command_id : uuid) (runner : string)
| RequeueMessage (corp_id message_id : uuid) (reason : string)
| Interrupt (corp_id agent_id actor_id lease_token : uuid) (reason : string)
| EmergencyStop (corp_id agent_id actor_id : uuid) (reason : string).

Definition command_handle (env : lease_env) (request : command_request) : txn control_db unit :=
  match request with
  | LeaseCall request => lease_handle env request
  | FailCommand id runner detail => fail_runner_command id runner detail;; mret tt
  | AcknowledgeCommand id runner => acknowledge_runner_command (le_db_now env) id runner;; mret tt
  | RequeueMessage corp id reason => requeue_control_message corp id reason;; mret tt
  | Interrupt corp agent actor token reason => request_interrupt env corp agent actor token reason;; mret tt
  | EmergencyStop corp agent actor reason => request_emergency_stop env corp agent actor reason;; mret tt
  end.
End commands.

(** ** Lemmas: what a request does to the commands *)

(** The columns of a command that are set when it is queued. *)
Definition same_command (c c' : runner_command) : Prop :=
  rc_id c' = rc_id c ∧ rc_corp_id c' = rc_corp_id c ∧ rc_runner_id c' = rc_runner_id c ∧
  rc_run_id c' = rc_run_id c ∧ rc_command_kind c' = rc_command_kind c ∧ rc_payload c' = rc_payload c ∧
  rc_idempotency_key c' = rc_idempotency_key c ∧ rc_created_at c' = rc_created_at c.
Definition command_moves (c c' : runner_command) : Prop :=
  c' = c ∨
  same_command c c' ∧ rc_status c = "pending" ∧ rc_status c' ∈ ["dispatched"; "failed"].
(** Commands are never lost; each moves at most once. *)
Definition commands_move (db db' : control_db) : Prop :=
  ∀ id c, c_commands db !! id = Some c → ∃ c', c_commands db' !! id = Some c' ∧ command_moves c c'.

#[global] Instance commands_move_preorder : PreOrder commands_move.
Proof.
  split; [intros db id c Hc; exists c; split; [done | by left] |].
  intros d1 d2 d3 H12 H23 id c Hc. destruct (H12 id c Hc) as (c2 & Hc2 & M12).
  destruct (H23 id c2 Hc2) as (c3 & Hc3 & M23). exists c3. split; [done |].
  destruct M12 as [-> | (S12 & P1 & P2)]; [done |]. destruct M23 as [-> | (S23 & P3 & P4)]; [by right |].
  rewrite P3, !elem_of_cons, elem_of_nil in P2. by destruct P2 as [|[|]].
Qed.

(** A transaction that keeps to [commands_move]; the frame rule for it. *)
Definition settles {A} (t : txn control_db A) : Prop := txn_within commands_move t.
Section settles.
Context {A B : Type}.
Lemma settles_bind (m : txn control_db A) (f : A → txn control_db B) :
  settles m → (∀ a, settles (f a)) → settles (m ≫= f).
Proof. apply within_bind, _. Qed.
Lemma settles_same (t : txn control_db A) :
  (∀ db a db', t db = Ok (a, db') → c_commands db' = c_commands db) → settles t.
Proof. intros Ht db a db' Hx id c Hc. exists c. rewrite (Ht _ _ _ Hx). split; [done | by left]. Qed.
End settles.

Lemma settles_ret {A} (a : A) : settles (mret a).
Proof. apply within_ret, _. Qed.
Lemma settles_lift {A} (r : result A) : settles (lift r).
Proof. apply within_lift, _. Qed.
Lemma settles_gets {A} (f : control_db → A) : settles (gets f).
Proof. apply within_gets, _. Qed.
Lemma settles_directory {A} (f : directory → result A) : settles (read_directory f).
Proof. apply within_read_directory, _. Qed.
Lemma settles_fetch {A} (f : control_db → option A) message : settles (fetch f message).
Proof. apply settles_same. intros db b db' Hr. by apply fetch_ok in Hr as [_ ->]. Qed.
Lemma settles_fresh taken : settles (insert_fresh taken).
Proof. apply settles_same. intros db b db' Hr. by apply insert_fresh_ok in Hr as [_ ->]. Qed.
Lemma settles_messages f : settles (modify (set_messages f)).
Proof. apply settles_same. intros db b db' Hr. by apply modify_ok in Hr as ->. Qed.
Lemma settles_leases f : settles (modify (set_leases f)).
Proof. apply settles_same. intros db b db' Hr. by apply modify_ok in Hr as ->. Qed.
Lemma settles_append (event : new_event) : settles (append_event_tx event).
Proof. apply settles_same. intros db b db'. unfold append_event_tx. case_match; intros [= _ <-]; done. Qed.
Lemma settles_append_new (event : new_event) message : settles (append_new_event event message).
Proof. apply settles_bind; [apply settles_append |]. intros o. apply settles_lift. Qed.
Lemma settles_agent_scope corp actor agent : settles (assert_actor_agent_scope_tx corp actor agent).
Proof. apply settles_same. intros db b db' Hr. by apply agent_scope_ok in Hr as ->. Qed.
Lemma settles_grant corp agent : settles (lock_agent_for_grant_tx corp agent).
Proof. apply settles_same. intros db b db' Hr. by apply grant_lock_ok in Hr as ->. Qed.
Lemma settles_store_lease lease : settles (store_lease_tx lease).
Proof. apply settles_same. intros db b db' Hr. by apply store_lease_ok in Hr as [_ ->]. Qed.

Create HintDb settling discriminated.
#[export] Hint Constants Opaque : settling.
#[export] Hint Resolve settles_ret settles_lift settles_gets settles_directory settles_fetch settles_fresh
  settles_messages settles_leases settles_append settles_append_new settles_agent_scope settles_grant
  settles_store_lease : settling.
Ltac settling :=
  repeat first [ progress intros | solve [eauto with settling] | apply settles_bind | case_match ].

Section requests.
Context `{Serde}.

Lemma settles_settle command_id runner status failure : status ∈ ["dispatched"; "failed"] →
  settles (settle_tx command_id runner status failure).
Proof.
  intros Hs db a db' Hx. unfold settle_tx in Hx. txn_inv.
  destruct (pending_command command_id runner db) as [c|] eqn:Hc; txn_inv; [| reflexivity].
  unfold pending_command in Hc. apply bind_Some in Hc as (c0 & Hrow & Hc).
  case_match eqn:E; [| done]. injection Hc as <-. apply andb_true_iff in E as [_ Hp%seqb_eq].
  intros id c Hl. simpl. destruct (decide (id = command_id)) as [-> | Hne].
  - rewrite lookup_insert_eq. eexists. split; [done |]. rewrite Hrow in Hl. injection Hl as <-. right. done.
  - rewrite lookup_insert_ne by done. exists c. split; [done | by left].
Qed.

Lemma settles_settle_message f command : settles (settle_message_tx f command).
Proof. unfold settle_message_tx. settling. Qed.
#[local] Hint Resolve settles_settle_message : settling.

Lemma settles_queue_command env corp agent actor text version target :
  settles (queue_command env corp agent actor text version target).
Proof.
  intros db a db' Hx. unfold queue_command in Hx. destruct target as [[run runner]|]; lease_inv; [| reflexivity].
  match goal with Hn : is_some _ = false |- _ => rename Hn into Hnew end.
  intros id c Hc. simpl. rewrite lookup_insert_ne; [exists c; split; [done | by left] |].
  intros <-. by rewrite Hc in Hnew.
Qed.
#[local] Hint Resolve settles_queue_command : settling.

Lemma settles_handle env request : settles (command_handle env request).
Proof.
  destruct request as [[] | | | | |]; simpl.
  - unfold acquire_lease. settling.
  - unfold release_lease. settling.
  - unfold transfer_lease, assert_actor_scope_tx. settling.
  - unfold queue_message, message_replay. settling.
  - unfold fail_runner_command. apply settles_bind; [| settling]. apply settles_bind.
    + apply settles_settle. set_solver.
    + settling.
  - unfold acknowledge_runner_command. apply settles_bind; [| settling]. apply settles_bind.
    + apply settles_settle. set_solver.
    + settling.
  - unfold requeue_control_message. settling.
  - unfold request_interrupt, request_stop. settling.
  - unfold request_emergency_stop, request_stop. settling.
Qed.
End requests.

(** ** The system *)
Definition recovery_kind : string := "factory_verification_recovery".
(** The other components queue commands and move runs, leases and messages; they
    rewrite recovery commands only. *)
Definition others_command (db db' : control_db) : Prop :=
  ∀ id c, c_commands db !! id = Some c → ∃ c', c_commands db' !! id = Some c' ∧
    rc_command_kind c' = rc_command_kind c ∧ (rc_command_kind c ≠ recovery_kind → c' = c).
Inductive command_step `{Serde} : control_db → control_db → Prop :=
| command_step_request env request db : command_step db (run_txn (command_handle env request) db).2
| command_step_others db db' : others_command db db' → command_step db db'.

Section theorems.
Context `{Serde}.

Lemma run_settles env request db : commands_move db (run_txn (command_handle env request) db).2.
Proof.
  unfold run_txn. destruct (command_handle env request db) as [[u db']|] eqn:E; simpl; [| reflexivity].
  by eapply settles_handle.
Qed.

Lemma moves_kind c c' : command_moves c c' → rc_command_kind c' = rc_command_kind c.
Proof. intros [-> | [Hs _]]; [done |]. by destruct Hs as (_ & _ & _ & _ & ? & _). Qed.

Lemma moves_trans c1 c2 c3 : command_moves c1 c2 → command_moves c2 c3 → command_moves c1 c3.
Proof.
  intros [-> | (S12 & P1 & P2)]; [done |]. intros [-> | (S23 & P3 & P4)]; [by right |].
  rewrite P3, !elem_of_cons, elem_of_nil in P2. by destruct P2 as [|[|]].
Qed.

Lemma steps_move db db' : rtc command_step db db' → ∀ id c, c_commands db !! id = Some c →
  rc_command_kind c ≠ recovery_kind → ∃ c', c_commands db' !! id = Some c' ∧ command_moves c c'.
Proof.
  induction 1 as [db | db db1 db2 Hs _ IH]; intros id c Hc Hk; [exists c; split; [done | by left] |].
  assert (∃ c1, c_commands db1 !! id = Some c1 ∧ command_moves c c1) as (c1 & Hc1 & Hm).
  { destruct Hs as [env request db | db db1 Ho]; [by apply (run_settles env request db) |].
    destruct (Ho id c Hc) as (c1 & Hc1 & _ & Hsame). exists c1. split; [done |]. left. auto. }
  destruct (IH id c1 Hc1) as (c2 & Hc2 & Hm2); [by rewrite (moves_kind _ _ Hm) |].
  exists c2. split; [done | by eapply moves_trans].
Qed.

Lemma unsettled id runner status failure db : pending_command id runner db = None →
  settle_tx id runner status failure db = Ok (None, db).
Proof. intros Hp. unfold settle_tx, mbind, txn_bind, gets. by rewrite Hp. Qed.

(** A command is settled once: through any requests and whatever the other
    components do, a command that is not a recovery is never lost and never
    rewritten, except that it moves once from pending to dispatched or failed;
    from then on acknowledging or failing it again, by whichever runner, finds
    nothing to do. *)
Theorem commands_settle_once db db' id c : rtc command_step db db' → c_commands db !! id = Some c →
  rc_command_kind c ≠ recovery_kind →
  ∃ c', c_commands db' !! id = Some c' ∧
    (c' = c ∨ same_command c c' ∧ rc_status c = "pending" ∧ rc_status c' ∈ ["dispatched"; "failed"]) ∧
    (rc_status c' ≠ "pending" → ∀ now runner detail,
       fail_runner_command id runner detail db' = Ok (None, db') ∧
       acknowledge_runner_command now id runner db' = Ok (None, db')).
Proof.
  intros Hs Hc Hk. destruct (steps_move _ _ Hs id c Hc Hk) as (c' & Hc' & Hm).
  exists c'. split; [done |]. split; [exact Hm |]. intros Hne now runner detail.
  assert (pending_command id runner db' = None) as Hp.
  { unfold pending_command. rewrite Hc'. simpl. apply seqb_neq in Hne. by rewrite Hne, andb_false_r. }
  unfold fail_runner_command, acknowledge_runner_command, mbind, txn_bind. by rewrite !unsettled.
Qed.

(** *** The text of a failure *)
Lemma pop_to_short limit cs : (0 ≤ limit)%Z →
  (str_len (of_chars (reverse (pop_to limit cs))) ≤ limit)%Z.
Proof.
  intros Hl. induction cs as [|c cs IH]; [done |]. simpl. case_match eqn:E; [done |]. lia.
Qed.
Lemma failure_text_bounded detail : (1 ≤ str_len (failure_text detail) ≤ 1000)%Z.
Proof.
  unfold failure_text. destruct (is_empty _) eqn:E; [vm_compute; split; discriminate |].
  pose proof (pop_to_short 1000 (reverse (chars (join " " (split_whitespace detail))))) as Hp.
  unfold truncate_chars in *. set (t := of_chars _) in *. split; [| by apply Hp].
  unfold str_len. destruct t; [done |]. simpl. lia.
Qed.

(** ** What settling does *)
Lemma settle_ok id runner status failure db c db' : settle_tx id runner status failure db = Ok (Some c, db') →
  c_commands db !! id = Some c ∧ rc_runner_id c = runner ∧ rc_status c = "pending" ∧
  db' = set_commands <[id := settle status failure c]> db.
Proof.
  unfold settle_tx. intros Hx. txn_inv. destruct (pending_command id runner db) as [c0|] eqn:Hc; [| by txn_inv].
  txn_inv. match goal with He : Some _ = Some _ |- _ => injection He as -> end.
  unfold pending_command in Hc. apply bind_Some in Hc as (c1 & Hrow & Hc). case_match eqn:E; [| done].
  injection Hc as ->. by apply andb_true_iff in E as [->%seqb_eq ->%seqb_eq].
Qed.

Lemma settle_message_ok f command db m db' : settle_message_tx f command db = Ok (m, db') →
  c_commands db' = c_commands db ∧ c_leases db' = c_leases db ∧ c_runs db' = c_runs db ∧
  c_directory db' = c_directory db ∧ c_log db' = c_log db ∧
  ∀ id, c_messages db' !! id =
    if bool_decide (m = Some id)
    then (λ q, if bool_decide (qm_command_id q = Some (rc_id command))
                  && (qm_corp_id q =? rc_corp_id command)%N then f q else q) <$> c_messages db !! id
    else c_messages db !! id.
Proof.
  unfold settle_message_tx. intros Hx. destruct (seqb _ _).
  - txn_inv. split_and!; try done. intros id. simpl. unfold update_message. case_bool_decide as Hid.
    + injection Hid as ->. apply lookup_alter_eq.
    + apply lookup_alter_ne. congruence.
  - txn_inv. split_and!; try done.
Qed.

(** A command fails for its runner while it is pending, with a bounded reason;
    the message of a control command is cancelled, one event is written, and no
    other message, command, lease or run changes. *)
Theorem failing_cancels_the_message id runner detail db e db' :
  fail_runner_command id runner detail db = Ok (Some e, db') →
  ∃ c failed m, c_commands db !! id = Some c ∧ rc_runner_id c = runner ∧ rc_status c = "pending" ∧
    c_commands db' = <[id := failed]> (c_commands db) ∧ same_command c failed ∧ rc_status failed = "failed" ∧
    (∃ text, rc_failure_detail failed = Some text ∧ (1 ≤ str_len text ≤ 1000)%Z) ∧
    c_leases db' = c_leases db ∧ c_runs db' = c_runs db ∧ c_log db' = c_log db ++ [e] ∧
    ev_type e = "runner.command_failed" ∧
    (rc_command_kind c = "control_message" → is_Some m) ∧
    (∀ mid q, c_messages db !! mid = Some q →
       ∃ q', c_messages db' !! mid = Some q' ∧
         if bool_decide (m = Some mid ∧ qm_command_id q = Some (rc_id c) ∧ qm_corp_id q = rc_corp_id c)
         then qm_status q' = "cancelled" else q' = q).
Proof.
  unfold fail_runner_command. intros Hx. txn_inv.
  match goal with Hs : settle_tx _ _ _ _ _ = Ok (?o, _) |- _ => destruct o as [c|]; rename Hs into Hset end;
    [| by txn_inv].
  apply settle_ok in Hset as (Hc & Hr & Hp & ->). txn_inv.
  match goal with Hs : settle_message_tx _ _ _ = Ok (?o, _) |- _ => rename o into m; rename Hs into Hmsg end.
  assert (rc_command_kind c = "control_message" → is_Some m) as Hsome.
  { intros Hk. unfold settle_message_tx in Hmsg. rewrite Hk, seqb_refl in Hmsg. txn_inv. eauto. }
  apply settle_message_ok in Hmsg as (Ec & El & Er & Ed & Eg & Em). lease_inv.
  match goal with He : Some e = _ |- _ => injection He as -> end.
  exists c, (settle "failed" (Some (failure_text detail)) c), m. simpl.
  rewrite Ec, El, Er, Eg. split_and!; try done.
  - exists (failure_text detail). split; [done | apply failure_text_bounded].
  - intros mid q Hq. rewrite Em. simpl. rewrite Hq. simpl. case_bool_decide as Hm; [| rewrite bool_decide_false; naive_solver].
    eexists. split; [done |]. destruct (decide (qm_command_id q = Some (rc_id c) ∧ qm_corp_id q = rc_corp_id c)) as [[H1 H2] | Hn].
    + rewrite !bool_decide_true, H2, N.eqb_refl by done. done.
    + rewrite (bool_decide_false (_ ∧ _)) by naive_solver. case_bool_decide; [| done]. simpl.
      rewrite (proj2 (N.eqb_neq _ _)); [done | naive_solver].
Qed.
End theorems.

(** ** Who may stop a run *)
Definition stop_target (request : command_request) : option (uuid * uuid) :=
  match request with
  | Interrupt corp agent _ _ _ | EmergencyStop corp agent _ _ => Some (corp, agent)
  | _ => None
  end.
Definition may_stop (env : lease_env) (db : control_db) (request : command_request) : Prop :=
  match request with
  | Interrupt corp agent actor token _ =>
      ∃ lease, c_leases db !! agent = Some lease ∧ cl_corp_id lease = corp ∧ cl_actor_id lease = actor ∧
        cl_token lease = token ∧ (le_clock env < cl_expires_at lease)%Z
  | EmergencyStop corp _ actor _ =>
      ∃ role, role_in (c_directory db) corp actor = Some role ∧ role ∈ stop_roles
  | _ => False
  end.
(** The runs of an agent that have not ended and belong to a mission. *)
Definition stoppable (db : control_db) (corp agent id : uuid) (run : run_row) : Prop :=
  c_runs db !! id = Some run ∧ run_agent_id run = agent ∧ run_corp_id run = corp ∧
  run_takes_commands (run_status_of run) = true ∧ is_Some (run_context corp id db).

Lemma newest_run l : ∀ best id run, foldl newer_run best l = Some (id, run) →
  ((best = Some (id, run)) ∨ (id, run) ∈ l) ∧
  (∀ id' run', best = Some (id', run') ∨ (id', run') ∈ l → (run_created_at run' ≤ run_created_at run)%Z).
Proof.
  induction l as [|[x r] l IH]; intros best id run; simpl.
  { intros ->. split; [by left |]. intros id' run' [[= -> ->] | Hin%elem_of_nil]; [done | done]. }
  intros Hf. apply IH in Hf as [Hin Hmax]. split.
  - destruct Hin as [Hb | Hin]; [| right; by right]. unfold newer_run in Hb.
    destruct best as [[b rb]|]; [| injection Hb as -> ->; right; by left].
    case_match; [injection Hb as -> ->; right; by left | by left].
  - intros id' run' [Hb | [[= -> ->] | Hin']%elem_of_cons].
    + subst best. simpl in Hmax. case_match eqn:E.
      * specialize (Hmax x r (or_introl eq_refl)). simpl in E. lia.
      * by apply (Hmax id' run'); left.
    + destruct best as [[b rb]|]; simpl in Hmax; [| by apply (Hmax x r); left].
      case_match eqn:E; [by apply (Hmax x r); left |].
      specialize (Hmax b rb (or_introl eq_refl)). simpl in E. lia.
    + by apply (Hmax id' run'); right.
Qed.

Lemma stoppable_run_ok corp agent db id run : stoppable_run corp agent db = Some (id, run) →
  stoppable db corp agent id run ∧
  ∀ id' run', stoppable db corp agent id' run' → (run_created_at run' ≤ run_created_at run)%Z.
Proof.
  unfold stoppable_run. intros Hf. apply newest_run in Hf as [[|Hin] Hmax]; [done |].
  assert (∀ id run, (id, run) ∈ List.filter (λ '(id, run), (run_agent_id run =? agent)%N
    && (run_corp_id run =? corp)%N && run_takes_commands (run_status_of run)
    && is_some (task ← dir_tasks (c_directory db) !! run_task_id run;
                dir_missions (c_directory db) !! task_mission task)) (map_to_list (c_runs db))
    ↔ stoppable db corp agent id run) as Hiff.
  { intros i r. rewrite list_elem_of_In, filter_In, <-list_elem_of_In, elem_of_map_to_list.
    unfold stoppable, run_context. rewrite !andb_true_iff, !N.eqb_eq. split.
    - intros (Hr & ((Ha & Hc) & Hs) & Hm). split_and!; try done. rewrite Hr. simpl.
      destruct (dir_tasks _ !! _) as [t|]; [| done]. simpl in *.
      destruct (dir_missions _ !! _) as [m|]; [| done]. simpl. rewrite Hc, N.eqb_refl. eauto.
    - intros (Hr & Ha & Hc & Hs & [x Hm]). split_and!; try done. rewrite Hr in Hm. simpl in Hm.
      destruct (dir_tasks _ !! _) as [t|]; [| done]. simpl in *. by destruct (dir_missions _ !! _). }
  apply Hiff in Hin. split; [done |]. intros id' run' Hs. apply (Hmax id' run'). right. by apply Hiff.
Qed.

Section stops.
Context `{Serde}.

Lemma request_stop_ok env corp agent actor event_type key reason missing existed db out db' :
  request_stop env corp agent actor event_type key reason missing existed db = Ok (out, db') →
  ∃ run, stoppable db corp agent (so_run_id out) run ∧ so_runner_id out = run_runner_id run ∧
    (∀ id' run', stoppable db corp agent id' run' → (run_created_at run' ≤ run_created_at run)%Z) ∧
    ev_type (so_event out) = event_type ∧ ev_aggregate_id (so_event out) = so_run_id out ∧
    ev_actor_id (so_event out) = Some actor ∧ db' = set_log (get_log db ++ [so_event out]) db.
Proof.
  unfold request_stop. intros Hx. txn_inv.
  match goal with Hf : fetch _ _ _ = Ok (?x, _) |- _ => destruct x as [id run] end. lease_inv.
  match goal with Hs : stoppable_run _ _ _ = _ |- _ => apply stoppable_run_ok in Hs as [Hs Hmax] end.
  exists run. by split_and!.
Qed.

(** A run is stopped only on authority: an interrupt is accepted from the
    actor that holds the live lease of the agent with its token, an emergency stop
    from an owner, admin or manager of the corp; the request names the newest run
    of the agent that has not ended, is written as one event in the name of the
    actor, and changes nothing else. *)
Theorem stops_need_authority env request corp agent db db' : stop_target request = Some (corp, agent) →
  command_handle env request db = Ok (tt, db') →
  may_stop env db request ∧
  ∃ id run e, stoppable db corp agent id run ∧
    (∀ id' run', stoppable db corp agent id' run' → (run_created_at run' ≤ run_created_at run)%Z) ∧
    ev_aggregate_id e = id ∧ ev_type e ∈ ["run.interrupt_requested"; "run.stop_requested"] ∧
    db' = set_log (get_log db ++ [e]) db.
Proof.
  assert (∀ corp actor agent d u d', assert_actor_agent_scope_tx corp actor agent d = Ok (u, d') → d' = d) as Hscope
    by (intros *; apply agent_scope_ok).
  destruct request as [ | | | | c g actor token reason | c g actor reason]; try done; intros [= -> ->] Hx; simpl in Hx; txn_inv.
  - match goal with Hi : request_interrupt _ _ _ _ _ _ _ = _ |- _ => unfold request_interrupt in Hi; rename Hi into Hreq end.
    lease_inv. match goal with Ha : assert_actor_agent_scope_tx _ _ _ _ = _ |- _ => apply Hscope in Ha as -> end.
    match goal with Hs : request_stop _ _ _ _ _ _ _ _ _ _ = _ |- _ =>
      apply request_stop_ok in Hs as (run & Hs & _ & Hmax & Ht & Hid & _ & ->) end.
    match goal with Hl : lease_in_corp _ _ _ = Some ?l |- _ => rename l into lease; unfold lease_in_corp in Hl;
      apply bind_Some in Hl as (lease' & Hrow & Hl) end.
    case_match eqn:E; [| done]. simplify_eq. apply N.eqb_eq in E. split.
    + simpl. exists lease. res_inv. repeat match goal with Hb : negb _ = false |- _ => apply negb_false_iff in Hb end.
      rewrite N.eqb_eq in *. split_and!; done || lia.
    + exists (so_run_id a), run, (so_event a). rewrite Ht. split_and!; try done. set_solver.
  - match goal with Hi : request_emergency_stop _ _ _ _ _ _ = _ |- _ => unfold request_emergency_stop in Hi; rename Hi into Hreq end.
    lease_inv. match goal with Ha : assert_actor_agent_scope_tx _ _ _ _ = _ |- _ => apply Hscope in Ha as -> end.
    match goal with Hs : request_stop _ _ _ _ _ _ _ _ _ _ = _ |- _ =>
      apply request_stop_ok in Hs as (run & Hs & _ & Hmax & Ht & Hid & _ & ->) end.
    split.
    + simpl. eexists. split; [eassumption |].
      match goal with Hb : negb (mem _ stop_roles) = false |- _ => apply negb_false_iff, mem_spec in Hb end. done.
    + exists (so_run_id a), run, (so_event a). rewrite Ht. split_and!; try done. set_solver.
Qed.
End stops.

(** ** Witnesses *)
Section witnesses.
#[local] Existing Instance sample_serde.

(** A run in a mission, its agent held by actor 10, and a control message on the way. *)
Definition command_directory : directory :=
  Directory {[10%N := ActorRow 1 "member" "human"; 20%N := ActorRow 1 "manager" "human"]}
    {[5%N := 1%N]} ∅ {[30%N := MissionRow 1 5 MissionStatus.Running]}
    {[70%N := TaskRow 1 30 TaskStatus.Running "pending"]} ∅ ∅.
Definition command_start : control_db :=
  ControlDb command_directory {[50%N := AgentRow 1 None None "codex"]} ∅ ∅ ∅
    {[60%N := RunRow 1 50 "runner-1" RunStatus.Running 0 70]} [].
Definition command_queued : control_db :=
  control_run [(control_env 0 100, Acquire 1 50 10); (control_env 1 200, Message 1 50 10 (Some 100%N) "stop" 900)]
    command_start.
Definition answered_commands (steps : list (lease_env * command_request)) (db : control_db) : control_db :=
  foldl (λ db '(env, request), (run_txn (command_handle env request) db).2) db steps.
Definition command_acknowledged : control_db :=
  answered_commands [(control_env 2 300, AcknowledgeCommand 203 "runner-1")] command_queued.

Lemma commands_settle_once_witness : ∃ c, c_commands command_queued !! 203%N = Some c ∧
  rc_status c = "pending" ∧ (rc_status <$> c_commands command_acknowledged !! 203%N) = Some "dispatched" ∧
  fail_runner_command 203 "runner-1" "too late" command_acknowledged = Ok (None, command_acknowledged).
Proof.
  eexists. split; [vm_compute; reflexivity |]. split; [reflexivity |]. split; [vm_compute; reflexivity |].
  edestruct (commands_settle_once command_queued command_acknowledged 203) as (c' & Hc' & _ & Hagain).
  - apply rtc_once, (command_step_request (control_env 2 300) (AcknowledgeCommand 203 "runner-1")).
  - vm_compute. reflexivity.
  - discriminate.
  - apply (Hagain) with (now := 0%Z). intros Hp.
    assert (rc_status <$> c_commands command_acknowledged !! 203%N = Some "dispatched") as Hs by (vm_compute; reflexivity).
    rewrite Hc' in Hs. simpl in Hs. congruence.
Defined.

Lemma stops_need_authority_witness :
  let db := (run_txn (command_handle (control_env 3 400) (EmergencyStop 1 50 20 " overspent ")) command_queued).2 in
  may_stop (control_env 3 400) command_queued (EmergencyStop 1 50 20 " overspent ") ∧
  ∃ id e, id = 60%N ∧ db = set_log (get_log command_queued ++ [e]) command_queued.
Proof.
  intros db. destruct (command_handle (control_env 3 400) (EmergencyStop 1 50 20 " overspent ") command_queued)
    as [[[] d]|] eqn:E; [| vm_compute in E; discriminate].
  assert (db = d) as -> by (unfold db, run_txn; by rewrite E).
  destruct (stops_need_authority (control_env 3 400) (EmergencyStop 1 50 20 " overspent ") 1 50 command_queued d
    eq_refl E) as (Hmay & id & run & e & (Hrun & _) & _ & _ & _ & Hd).
  split; [exact Hmay |]. exists id, e. split; [| exact Hd].
  change (c_runs command_queued) with ({[60%N := RunRow 1 50 "runner-1" RunStatus.Running 0 70]} : gmap uuid run_row) in Hrun.
  by apply lookup_singleton_Some in Hrun as [-> _].
Defined.
End witnesses.
