(* ===== verification/RoomMessages.v ===== *)
(** * Messages in a room (crates/crony-store/src/lib.rs)

    The members of a room post messages, reply to messages of the room, mention
    members and link entities of the room's missions: [create_room_message] with
    [validate_room_link_tx].  A request is posted once per idempotency key, and
    threads have one level. *)
From S2P Require Import Prelude Text Json Domain Planning FactoryPolicy Store.

(** ** Data *)
Record entity_link := EntityLink { link_kind : string; link_id : uuid }.
#[global] Instance entity_link_eq : EqDecision entity_link.
Proof. solve_decision. Defined.

Record room_message := RoomMessage {
  rm_id : uuid; rm_corp_id : uuid; rm_room_id : uuid; rm_actor_id : uuid;
  rm_thread_root_id : option uuid; rm_reply_to_id : option uuid; rm_body : string;
  rm_mentions : list uuid; rm_link : option entity_link; rm_idempotency_key : uuid; }.

Record room_input := NewRoomMessageInput {
  nm_corp_id : uuid; nm_room_id : uuid; nm_actor_id : uuid; nm_body : string;
  nm_reply_to_id : option uuid; nm_mentions : list uuid; nm_link : option entity_link;
  nm_idempotency_key : uuid; }.
Record room_outcome := RoomMessageOutcome {
  ro_message : room_message; ro_event : option new_event; ro_replayed : bool }.

(** Runs carry their corp and task, artifacts their corp, task and status. *)
Record room_db := RoomDb {
  r_directory : directory;
  r_runs : gmap uuid (uuid * uuid);
  r_artifacts : gmap uuid (uuid * uuid * string);
  r_messages : gmap uuid room_message;
  r_log : event_log;
}.
#[global] Instance room_db_directory : HasDirectory room_db := r_directory.
#[global] Instance room_db_log : HasLog room_db := {|
  get_log := r_log;
  set_log l db := RoomDb (r_directory db) (r_runs db) (r_artifacts db) (r_messages db) l;
|}.
#[global] Instance room_db_log_laws : HasLogLaws room_db.
Proof. by split. Qed.
Definition set_room_messages (f : gmap uuid room_message → gmap uuid room_message) (db : room_db) : room_db :=
  RoomDb (r_directory db) (r_runs db) (r_artifacts db) (f (r_messages db)) (r_log db).

Section room_messages.
Context `{Serde}.

(** ** Links *)

(** The room of the mission of a task. *)
Definition room_of_task (task_id : uuid) (dir : directory) : option uuid :=
  t ← dir_tasks dir !! task_id; m ← dir_missions dir !! task_mission t; Some (mission_room m).
Definition link_is_visible (corp_id room_id : uuid) (link : entity_link) (db : room_db) : result bool :=
  let dir := r_directory db in
  let id := link_id link in
  let in_room (room : option uuid) := bool_decide (room = Some room_id) in
  if seqb (link_kind link) "mission" then
    Ok match dir_missions dir !! id with
       | Some m => (mission_corp m =? corp_id)%N && (mission_room m =? room_id)%N
       | None => false
       end
  else if seqb (link_kind link) "task" then
    Ok match dir_tasks dir !! id with
       | Some t => (task_corp t =? corp_id)%N && in_room (room_of_task id dir)
       | None => false
       end
  else if seqb (link_kind link) "run" then
    Ok match r_runs db !! id with
       | Some (corp, task) => (corp =? corp_id)%N && in_room (room_of_task task dir)
       | None => false
       end
  else if seqb (link_kind link) "artifact" then
    Ok match r_artifacts db !! id with
       | Some (corp, task, status) =>
           (corp =? corp_id)%N && seqb status "ready" && in_room (room_of_task task dir)
       | None => false
       end
  else Err ("unsupported room message link kind " +:+ link_kind link).
Definition validate_room_link (corp_id room_id : uuid) (link : entity_link) (db : room_db) : result unit :=
  valid ← link_is_visible corp_id room_id link db;
  bail_if (negb valid) "linked entity is not visible in this room".
Definition validate_room_link_tx (corp_id room_id : uuid) (link : entity_link) : txn room_db unit := λ db,
  lift (validate_room_link corp_id room_id link db) db.

(** ** Posting *)

(** Each actor once, in the order of the first mention. *)
Fixpoint first_mentions (seen : gset uuid) (mentions : list uuid) : list uuid :=
  match mentions with
  | [] => []
  | m :: rest => if bool_decide (m ∈ seen) then first_mentions seen rest
                 else m :: first_mentions ({[m]} ∪ seen) rest
  end.

Definition room_message_by_key (corp_id key : uuid) (db : room_db) : option room_message :=
  snd <$> find (λ '(_, m), (rm_corp_id m =? corp_id)%N && (rm_idempotency_key m =? key)%N)
            (map_to_list (r_messages db)).

Definition room_replay (input : room_input) (body : string) (mentions : list uuid) (m : room_message) :
    txn room_db room_outcome :=
  lift (bail_if (negb (rm_room_id m =? nm_room_id input)%N || negb (rm_actor_id m =? nm_actor_id input)%N
                 || negb (seqb (rm_body m) body)
                 || negb (bool_decide (rm_reply_to_id m = nm_reply_to_id input))
                 || negb (bool_decide (rm_mentions m = mentions))
                 || negb (bool_decide (link_kind <$> rm_link m = link_kind <$> nm_link input))
                 || negb (bool_decide (link_id <$> rm_link m = link_id <$> nm_link input)))
          "conflict: room message idempotency key was reused with another request");;
  mret (RoomMessageOutcome m None true).

Fixpoint assert_members (corp_id room_id : uuid) (mentions : list uuid) : txn room_db unit :=
  match mentions with
  | [] => mret tt
  | m :: rest => assert_room_membership_tx corp_id room_id m;; assert_members corp_id room_id rest
  end.

(** The root of the thread a reply belongs to. *)
Definition reply_target (corp_id room_id : uuid) (reply_to : option uuid) :
    txn room_db (option uuid * option uuid) :=
  match reply_to with
  | None => mret (None, None)
  | Some id =>
      target ← gets (λ db, m ← r_messages db !! id;
        if (rm_corp_id m =? corp_id)%N && (rm_room_id m =? room_id)%N then Some m else None);
      target ← lift (with_context target "reply target is not visible in this room");
      mret (Some (default (rm_id target) (rm_thread_root_id target)), Some id)
  end.

Definition json_ids (ids : list uuid) : json := JArr ((λ i, JStr (uuid_to_string i)) <$> ids).
Definition link_json (link : option entity_link) : json :=
  match link with
  | None => JNull
  | Some l => json_object [("kind", JStr (link_kind l)); ("id", JStr (uuid_to_string (link_id l)))]
  end.

(** [message_id] is the fresh identifier. *)
Definition create_room_message (message_id : uuid) (input : room_input) : txn room_db room_outcome :=
  let corp := nm_corp_id input in
  let room := nm_room_id input in
  let body := trim (nm_body input) in
  lift (bail_if (is_empty body) "room message cannot be empty");;
  lift (bail_if (4000 <? str_len body)%Z "room message cannot exceed 4,000 characters");;
  assert_room_membership_tx corp room (nm_actor_id input);;
  let mentions := first_mentions ∅ (nm_mentions input) in
  lift (bail_if (20 <? Z.of_nat (length mentions))%Z "room message cannot mention more than 20 actors");;
  existing ← gets (room_message_by_key corp (nm_idempotency_key input));
  match existing with
  | Some m => room_replay input body mentions m
  | None =>
      assert_members corp room mentions;;
      thread ← reply_target corp room (nm_reply_to_id input);
      let '(thread_root_id, reply_to_id) := thread in
      (match nm_link input with
       | Some link => validate_room_link_tx corp room link
       | None => mret tt
       end);;
      taken ← gets (λ db, is_some (r_messages db !! message_id));
      lift (bail_if taken "duplicate key value violates unique constraint");;
      let m := RoomMessage message_id corp room (nm_actor_id input) thread_root_id reply_to_id body mentions
                 (nm_link input) (nm_idempotency_key input) in
      modify (set_room_messages <[message_id := m]>);;
      event ← append_new_event
        (at_version (Some room) 1
           (new_event_of corp (Some (nm_actor_id input)) "room.message_posted" "room_message" message_id
              ("room-message:" +:+ uuid_to_string message_id)
              (json_object
                 [("message_id", JStr (uuid_to_string message_id));
                  ("thread_root_id", json_opt_str (uuid_to_string <$> thread_root_id));
                  ("reply_to_id", json_opt_str (uuid_to_string <$> reply_to_id));
                  ("mentions", json_ids mentions); ("link", link_json (nm_link input));
                  ("body", JStr body)])))
        "room message event unexpectedly existed";
      mret (RoomMessageOutcome m (Some event) false)
  end.
End room_messages.

(** ** Lemmas *)
Lemma assert_members_ok corp room ms db u db' :
  assert_members corp room ms db = Ok (u, db') →
  db' = db ∧ ∀ m, m ∈ ms → assert_room_membership corp room m (r_directory db) = Ok tt.
Proof.
  revert db u db'. induction ms as [|m ms IH]; intros db u db' Hx; simpl in Hx.
  { txn_inv. split; [done | set_solver]. }
  unfold assert_room_membership_tx in Hx. txn_inv. apply IH in Hx as [-> Hms]. split; [done |].
  intros m' [-> | Hm']%elem_of_cons; [done | by apply Hms].
Qed.

Lemma first_mentions_spec ms : ∀ seen, NoDup (first_mentions seen ms) ∧
  ∀ m, m ∈ first_mentions seen ms ↔ m ∈ ms ∧ m ∉ seen.
Proof.
  induction ms as [|x ms IH]; intros seen; simpl; [split; [constructor | set_solver] |].
  case_bool_decide as Hx.
  - destruct (IH seen) as [Hd Hm]. split; [done |]. intros m. rewrite Hm. set_solver.
  - destruct (IH ({[x]} ∪ seen)) as [Hd Hm]. split.
    + constructor; [rewrite Hm; set_solver | done].
    + intros m. rewrite elem_of_cons, Hm. destruct (decide (m = x)) as [-> |]; set_solver.
Qed.

(** Messages are stored under their ids. *)
Record rooms_inv (db : room_db) : Prop := {
  ri_keyed id m : r_messages db !! id = Some m → rm_id m = id;
  ri_keys id id' m m' : r_messages db !! id = Some m → r_messages db !! id' = Some m' →
    rm_corp_id m = rm_corp_id m' → rm_idempotency_key m = rm_idempotency_key m' → id = id';
  ri_body id m : r_messages db !! id = Some m → is_empty (rm_body m) = false ∧ (str_len (rm_body m) ≤ 4000)%Z;
  ri_mentions id m : r_messages db !! id = Some m → NoDup (rm_mentions m) ∧ length (rm_mentions m) ≤ 20;
  ri_reply id m : r_messages db !! id = Some m → (is_Some (rm_reply_to_id m) ↔ is_Some (rm_thread_root_id m));
  ri_thread id m root : r_messages db !! id = Some m → rm_thread_root_id m = Some root →
    ∃ r, r_messages db !! root = Some r ∧ rm_thread_root_id r = None ∧
      rm_corp_id r = rm_corp_id m ∧ rm_room_id r = rm_room_id m;
  ri_target id m target : r_messages db !! id = Some m → rm_reply_to_id m = Some target →
    ∃ t, r_messages db !! target = Some t ∧ rm_corp_id t = rm_corp_id m ∧ rm_room_id t = rm_room_id m ∧
      rm_thread_root_id m = Some (default target (rm_thread_root_id t));
}.

Section posting.
Context `{Serde}.

Lemma room_message_by_key_None corp key db : room_message_by_key corp key db = None →
  ∀ id m, r_messages db !! id = Some m → rm_corp_id m = corp → rm_idempotency_key m ≠ key.
Proof.
  unfold room_message_by_key. intros Hf id m Hm Hc Hk. destruct (find _ _) eqn:E; [done |].
  apply elem_of_map_to_list, list_elem_of_In in Hm. pose proof (find_none _ _ E _ Hm) as Hn.
  simpl in Hn. by rewrite Hc, Hk, !N.eqb_refl in Hn.
Qed.

Lemma room_message_by_key_Some corp key db m : room_message_by_key corp key db = Some m →
  (∃ id, r_messages db !! id = Some m) ∧ rm_corp_id m = corp ∧ rm_idempotency_key m = key.
Proof.
  unfold room_message_by_key. intros Hf. apply fmap_Some in Hf as ([id m'] & Hf & ->).
  apply find_some in Hf as [Hin Hp]. apply andb_true_iff in Hp as [Hc%N.eqb_eq Hk%N.eqb_eq].
  split; [exists id; by apply list_elem_of_In, elem_of_map_to_list in Hin | done].
Qed.

(** The message of a request, as a repetition compares it. *)
Definition answers (input : room_input) (m : room_message) : Prop :=
  rm_room_id m = nm_room_id input ∧ rm_actor_id m = nm_actor_id input ∧
  rm_body m = trim (nm_body input) ∧ rm_reply_to_id m = nm_reply_to_id input ∧
  rm_mentions m = first_mentions ∅ (nm_mentions input) ∧
  link_kind <$> rm_link m = link_kind <$> nm_link input ∧
  link_id <$> rm_link m = link_id <$> nm_link input.

(** What a request that succeeds did. *)
Inductive posted (message_id : uuid) (input : room_input) (db : room_db) : room_outcome → room_db → Prop :=
| posted_again m id : r_messages db !! id = Some m → rm_corp_id m = nm_corp_id input →
    rm_idempotency_key m = nm_idempotency_key input → answers input m →
    posted message_id input db (RoomMessageOutcome m None true) db
| posted_new m event :
    m = RoomMessage message_id (nm_corp_id input) (nm_room_id input) (nm_actor_id input)
          (rm_thread_root_id m) (nm_reply_to_id input) (trim (nm_body input))
          (first_mentions ∅ (nm_mentions input)) (nm_link input) (nm_idempotency_key input) →
    is_empty (rm_body m) = false ∧ (str_len (rm_body m) ≤ 4000)%Z → length (rm_mentions m) ≤ 20 →
    room_message_by_key (nm_corp_id input) (nm_idempotency_key input) db = None →
    r_messages db !! message_id = None →
    (∀ actor, actor ∈ nm_actor_id input :: nm_mentions input →
       assert_room_membership (nm_corp_id input) (nm_room_id input) actor (r_directory db) = Ok tt) →
    match nm_link input with
    | Some link => link_is_visible (nm_corp_id input) (nm_room_id input) link db = Ok true
    | None => True
    end →
    match nm_reply_to_id input with
    | Some target => ∃ t, r_messages db !! target = Some t ∧ rm_corp_id t = nm_corp_id input ∧
        rm_room_id t = nm_room_id input ∧
        rm_thread_root_id m = Some (default (rm_id t) (rm_thread_root_id t))
    | None => rm_thread_root_id m = None
    end →
    posted message_id input db (RoomMessageOutcome m (Some event) false)
      (RoomDb (r_directory db) (r_runs db) (r_artifacts db) (<[message_id := m]> (r_messages db))
         (r_log db ++ [event])).

Lemma create_room_message_posted message_id input db out db' :
  create_room_message message_id input db = Ok (out, db') → posted message_id input db out db'.
Proof.
  unfold create_room_message, assert_room_membership_tx. intros Hx. txn_inv.
  repeat match goal with Hb : bail_if _ _ = Ok _ |- _ => apply bail_if_ok in Hb end.
  destruct (room_message_by_key _ _ _) as [m|] eqn:Hkey.
  - apply room_message_by_key_Some in Hkey as ([id Hm] & Hc & Hk). unfold room_replay in Hx. txn_inv.
    match goal with Hb : bail_if _ _ = Ok _ |- _ => apply bail_if_ok in Hb; rename Hb into Hsame end.
    rewrite !orb_false_iff, !negb_false_iff, !bool_decide_eq_true, seqb_eq, !N.eqb_eq in Hsame.
    eapply posted_again; [done.. |]. unfold answers. tauto.
  - txn_inv.
    match goal with Ha : assert_members _ _ _ _ = _ |- _ => apply assert_members_ok in Ha as [-> Hmembers] end.
    match goal with Hr : reply_target _ _ _ _ = Ok (?x, _) |- _ => destruct x as [root reply]; rename Hr into Hreply end.
    txn_inv. repeat match goal with Hb : bail_if _ _ = Ok _ |- _ => apply bail_if_ok in Hb end.
    match goal with Hl : (match nm_link input with _ => _ end) _ = Ok (_, ?s) |- _ =>
      rename Hl into Hlink; rename s into sl end.
    match goal with Hl : reply_target _ _ _ _ = Ok (_, ?s) |- _ => rename s into sr end.
    assert (sr = db ∧ reply = nm_reply_to_id input ∧ match nm_reply_to_id input with
      | Some target => ∃ t, r_messages db !! target = Some t ∧ rm_corp_id t = nm_corp_id input ∧
          rm_room_id t = nm_room_id input ∧ root = Some (default (rm_id t) (rm_thread_root_id t))
      | None => root = None end) as (-> & -> & Htarget).
    { unfold reply_target in Hreply. destruct (nm_reply_to_id input) as [target|]; txn_inv.
      - match goal with Hc : with_context _ _ = Ok ?x |- _ => apply with_context_ok in Hc; rename Hc into Hrow; rename x into t end.
        apply bind_Some in Hrow as (t' & Hrow & Hc). simpl in Hc.
        destruct (_ && _) eqn:E in Hc; [| done]. injection Hc as ->.
        apply andb_true_iff in E as [E1%N.eqb_eq E2%N.eqb_eq].
        injection Hreply as -> ->. split_and!; try done. by exists t.
      - by injection Hreply as -> ->. }
    assert (sl = db ∧ match nm_link input with
      | Some link => link_is_visible (nm_corp_id input) (nm_room_id input) link db = Ok true
      | None => True end) as [-> Hvisible].
    { destruct (nm_link input) as [link|]; [| by txn_inv]. unfold validate_room_link_tx in Hlink. txn_inv.
      split; [done |].
      match goal with Hv : validate_room_link _ _ _ _ = Ok _ |- _ => unfold validate_room_link in Hv; rename Hv into Hvalid end.
      res_inv. match goal with Hv : link_is_visible _ _ _ _ = Ok ?b |- _ => by destruct b end. }
    match goal with Ht : is_some _ = false |- _ => rename Ht into Hfree end.
    destruct (first_mentions_spec (nm_mentions input) ∅) as [_ Hfirst].
    eapply posted_new; simpl; try done.
    + split; [done | lia].
    + lia.
    + by destruct (r_messages db !! message_id).
    + intros actor [-> | Hin]%elem_of_cons; [done |]. apply Hmembers, Hfirst. set_solver.
Qed.

(** Posting keeps the shape of the table. *)
Lemma posting_keeps message_id input db out db' : rooms_inv db →
  create_room_message message_id input db = Ok (out, db') → rooms_inv db'.
Proof.
  intros Hinv Hx. apply create_room_message_posted in Hx.
  destruct Hx as [| m event Hm Hbody Hments Hkey Hfree _ _ Hreply]; [done |].
  destruct Hinv as [Ik Iu Ib Im Ir It Ig].
  assert (∀ id x, r_messages db !! id = Some x → <[message_id := m]> (r_messages db) !! id = Some x) as Hkeep.
  { intros id x Hx. rewrite lookup_insert_ne; [done |]. congruence. }
  assert (rm_id m = message_id ∧ rm_corp_id m = nm_corp_id input ∧ rm_room_id m = nm_room_id input ∧
    rm_reply_to_id m = nm_reply_to_id input ∧ rm_mentions m = first_mentions ∅ (nm_mentions input) ∧
    rm_idempotency_key m = nm_idempotency_key input) as (E1 & E2 & E3 & E4 & E5 & E6) by (by rewrite Hm).
  split; simpl.
  - intros id x. rewrite lookup_insert_Some. intros [[<- <-] | [_ Hx]]; [done | by apply Ik].
  - intros id id' x x'. rewrite !lookup_insert_Some. intros [[<- <-] | [N1 Hx]] [[<- <-] | [N2 Hx']] Hc Hk.
    + done.
    + exfalso. eapply room_message_by_key_None; [exact Hkey | exact Hx' | congruence | congruence].
    + exfalso. eapply room_message_by_key_None; [exact Hkey | exact Hx | congruence | congruence].
    + by eapply Iu.
  - intros id x. rewrite lookup_insert_Some. intros [[<- <-] | [_ Hx]]; [done | by eapply Ib].
  - intros id x. rewrite lookup_insert_Some. intros [[<- <-] | [_ Hx]]; [| by eapply Im].
    split; [| done]. rewrite E5. apply first_mentions_spec.
  - intros id x. rewrite lookup_insert_Some. intros [[<- <-] | [_ Hx]]; [| by eapply Ir].
    rewrite E4. destruct (nm_reply_to_id input) as [target|].
    + destruct Hreply as (t & _ & _ & _ & ->). split; eauto.
    + rewrite Hreply. split; intros [? [=]].
  - intros id x root. rewrite lookup_insert_Some. intros [[<- <-] | [_ Hx]] Hroot.
    + rewrite Hroot in Hreply. destruct (nm_reply_to_id input) as [target|]; [| done].
      destruct Hreply as (t & Ht & Tc & Tr & Te). destruct (rm_thread_root_id t) as [r|] eqn:Er.
      * simpl in Te. injection Te as ->. destruct (It _ _ _ Ht Er) as (x & Hx & Hnone & Xc & Xr).
        exists x. split_and!; [by apply Hkeep | done | congruence | congruence].
      * simpl in Te. injection Te as ->. exists t. rewrite (Ik _ _ Ht).
        split_and!; [by apply Hkeep | done | congruence | congruence].
    + destruct (It _ _ _ Hx Hroot) as (r & Hr & ?). exists r. split; [by apply Hkeep | done].
  - intros id x target. rewrite lookup_insert_Some. intros [[<- <-] | [_ Hx]] Ht.
    + rewrite E4 in Ht. rewrite Ht in Hreply. destruct Hreply as (t & Hrow & Tc & Tr & Te).
      exists t. rewrite (Ik _ _ Hrow) in Te. split_and!; [by apply Hkeep | congruence | congruence | done].
    + destruct (Ig _ _ _ Hx Ht) as (t & Hrow & ?). exists t. split; [by apply Hkeep | done].
Qed.

(** A posted message answers its request when it is repeated. *)
Lemma replays message_id input db m :
  rooms_inv db → r_messages db !! rm_id m = Some m → rm_corp_id m = nm_corp_id input →
  rm_idempotency_key m = nm_idempotency_key input → answers input m →
  is_empty (trim (nm_body input)) = false → (str_len (trim (nm_body input)) ≤ 4000)%Z →
  length (first_mentions ∅ (nm_mentions input)) ≤ 20 →
  assert_room_membership (nm_corp_id input) (nm_room_id input) (nm_actor_id input) (r_directory db) = Ok tt →
  create_room_message message_id input db = Ok (RoomMessageOutcome m None true, db).
Proof.
  intros Hinv Hm Hc Hk (A1 & A2 & A3 & A4 & A5 & A6 & A7) Hne Hlen Hments Hmember.
  assert (room_message_by_key (nm_corp_id input) (nm_idempotency_key input) db = Some m) as Hfind.
  { destruct (room_message_by_key _ _ db) as [x|] eqn:E.
    - apply room_message_by_key_Some in E as ([id Hx] & Xc & Xk).
      assert (rm_id m = id) as <- by (eapply (ri_keys db Hinv); [exact Hm | exact Hx | congruence | congruence]).
      congruence.
    - by pose proof (room_message_by_key_None _ _ _ E _ _ Hm Hc). }
  unfold create_room_message, assert_room_membership_tx, room_replay.
  unfold read_directory, mbind, txn_bind, lift, gets, get_directory, room_db_directory.
  rewrite Hne, (proj2 (Z.ltb_ge _ _) Hlen). cbn [bail_if]. rewrite Hmember, (proj2 (Z.ltb_ge 20 _)) by lia.
  cbn [bail_if]. rewrite Hfind, A1, A2, A3, A4, A5, A6, A7, !N.eqb_refl, seqb_refl, !bool_decide_true by done. done.
Qed.
End posting.

(** ** The life of a room *)

(** A request is answered, or another part of the program changes what the rooms refer to. *)
Inductive room_step `{Serde} : room_db → room_db → Prop :=
| room_post message_id input db out db' :
    create_room_message message_id input db = Ok (out, db') → room_step db db'
| room_other db db' : r_messages db' = r_messages db → room_step db db'.

Section rooms.
Context `{Serde}.

Lemma step_keeps db db' : rooms_inv db → room_step db db' → rooms_inv db'.
Proof.
  intros Hinv Hs. destruct Hs as [id input db out db' Hx | db db' Heq]; [by eapply posting_keeps |].
  destruct Hinv. split; rewrite Heq; done.
Qed.
Lemma empty_rooms_inv db : r_messages db = ∅ → rooms_inv db.
Proof. intros He. split; rewrite He; intros *; rewrite lookup_empty; discriminate. Qed.
Lemma steps_keep db db' : rooms_inv db → rtc room_step db db' → rooms_inv db'.
Proof. intros Hinv Hs. induction Hs; [done | eauto using step_keeps]. Qed.

Lemma steps_keep_messages db db' id m : rtc room_step db db' →
  r_messages db !! id = Some m → r_messages db' !! id = Some m.
Proof.
  intros Hs. induction Hs as [|db db1 db2 Hstep _ IH]; [done |]. intros Hm. apply IH.
  destruct Hstep as [mid input db out db' Hx | db db' Heq]; [| by rewrite Heq].
  apply create_room_message_posted in Hx as [| ? ? _ _ _ _ Hfree]; [done |].
  simpl. rewrite lookup_insert_ne; [done | congruence].
Qed.

(** The message a request was answered with. *)
Lemma posted_answers message_id input db out db' : rooms_inv db →
  create_room_message message_id input db = Ok (out, db') →
  let m := ro_message out in
  r_messages db' !! rm_id m = Some m ∧ rm_corp_id m = nm_corp_id input ∧
  rm_idempotency_key m = nm_idempotency_key input ∧ answers input m ∧
  is_empty (trim (nm_body input)) = false ∧ (str_len (trim (nm_body input)) ≤ 4000)%Z ∧
  length (first_mentions ∅ (nm_mentions input)) ≤ 20.
Proof.
  intros Hinv Hx. apply create_room_message_posted in Hx.
  destruct Hx as [m id Hm Hc Hk Ha | m event Hm [Hne Hlen] Hments _ _ _ _ Hreply]; simpl.
  - rewrite (ri_keyed db Hinv _ _ Hm). pose proof (ri_body db Hinv _ _ Hm) as [? ?].
    pose proof (ri_mentions db Hinv _ _ Hm) as [_ ?].
    pose proof Ha as (_ & _ & <- & _ & <- & _). done.
  - assert (answers input m) as Ha by (rewrite Hm; done).
    pose proof Ha as (_ & _ & <- & _ & <- & _).
    assert (rm_id m = message_id) as -> by (by rewrite Hm). rewrite lookup_insert_eq.
    split_and!; try done; by rewrite Hm.
Qed.

(** From an empty table on, whatever is posted and whatever else changes, threads have one
    level: a reply lies in the corp and the room of the message it replies to, belongs to
    the thread of that message, and the root of a thread is itself no reply; bodies are
    not empty and have at most 4,000 bytes, at most twenty actors are mentioned, each once,
    and a corp has one message per idempotency key. *)
Theorem threads_have_one_level db db' :
  r_messages db = ∅ → rtc room_step db db' → rooms_inv db'.
Proof.
  intros He Hs. refine (steps_keep _ _ _ Hs). by apply empty_rooms_inv.
Qed.

(** A request that was answered with a message is answered with the same message when it is
    repeated, after whatever else was posted or changed in between, as long as its actor is a
    member of the room; the repetition appends no event and changes nothing. *)
Theorem retried_posts_answer_alike message_id input db out db1 db2 message_id' :
  rooms_inv db → create_room_message message_id input db = Ok (out, db1) → rtc room_step db1 db2 →
  assert_room_membership (nm_corp_id input) (nm_room_id input) (nm_actor_id input) (r_directory db2) = Ok tt →
  create_room_message message_id' input db2 = Ok (RoomMessageOutcome (ro_message out) None true, db2).
Proof.
  intros Hinv Hx Hs Hmember. pose proof (posting_keeps _ _ _ _ _ Hinv Hx) as Hinv1.
  apply posted_answers in Hx as (Hm & Hc & Hk & Ha & Hne & Hlen & Hments); [| done].
  eapply replays; [by eapply steps_keep | by eapply steps_keep_messages | done..].
Qed.
End rooms.

(** ** Witnesses *)
Section witnesses.
#[local] Existing Instance sample_serde.

(** Two members of a room; the first asks about its mission, the second answers twice. *)
Definition room_start : room_db :=
  RoomDb (Directory {[10%N := ActorRow 1 "member" "human"; 11%N := ActorRow 1 "member" "human"]}
            {[5%N := 1%N]} {[(5%N, 10%N); (5%N, 11%N)]} {[30%N := MissionRow 1 5 MissionStatus.Running]} ∅ ∅ ∅)
    ∅ ∅ ∅ [].
Definition room_question : room_input :=
  NewRoomMessageInput 1 5 10 " Is the plan done? " None [11%N; 10%N; 11%N] (Some (EntityLink "mission" 30)) 90.
Definition room_answer (target key : uuid) : room_input :=
  NewRoomMessageInput 1 5 11 "Yes" (Some target) [] None key.
Definition room_posts (posts : list (uuid * room_input)) (db : room_db) : room_db :=
  foldl (λ db '(id, input), match create_room_message id input db with Ok (_, db') => db' | Err _ => db end) db posts.
Definition room_talk : list (uuid * room_input) :=
  [(100%N, room_question); (101%N, room_answer 100 91); (102%N, room_answer 101 92)].

Lemma room_posts_steps posts : ∀ db, rtc room_step db (room_posts posts db).
Proof.
  induction posts as [|[id input] posts IH]; intros db; [done |]. simpl.
  destruct (create_room_message id input db) as [[out db']|] eqn:E; [| apply IH].
  eapply rtc_l; [by eapply room_post | apply IH].
Qed.

Lemma threads_have_one_level_witness :
  rooms_inv (room_posts room_talk room_start) ∧
  (rm_thread_root_id <$> r_messages (room_posts room_talk room_start) !! 102%N) = Some (Some 100%N).
Proof.
  split; [| vm_compute; reflexivity].
  apply (threads_have_one_level room_start); [reflexivity | apply room_posts_steps].
Defined.

Lemma retried_posts_answer_alike_witness :
  let db := room_posts room_talk room_start in
  ∃ m, create_room_message 200 room_question db = Ok (RoomMessageOutcome m None true, db) ∧
    rm_id m = 100%N ∧ rm_mentions m = [11%N; 10%N].
Proof.
  intros db.
  destruct (create_room_message 100 room_question room_start) as [[out d]|] eqn:E; [| vm_compute in E; discriminate].
  exists (ro_message out). split; [| split; vm_compute in E; by injection E as <- _].
  apply (retried_posts_answer_alike 100 room_question room_start out d).
  - by apply empty_rooms_inv.
  - exact E.
  - assert (d = room_posts [(100%N, room_question)] room_start) as -> by (cbn [room_posts foldl]; by rewrite E).
    apply (room_posts_steps [(101%N, room_answer 100 91); (102%N, room_answer 101 92)]).
  - vm_compute. reflexivity.
Defined.
End witnesses.
