(* ===== verification/Breaker.v ===== *)
(** * Budgets and the circuit breaker (crates/crony-store/src/lib.rs)

    The breaker of a run compares ten usage metrics with their limits, takes
    the strongest of the stages steer, constrain, suspend and stop, and only
    ever moves a run to a stronger stage, with one incident, one runner command
    and one event per move ([evaluate_circuit_breaker]).  [hard_breaker_reached]
    is the same test written in SQL, used before a human lets a run continue;
    [set_budget_policy] sets the rolling limits of a corp. *)
From S2P Require Import Prelude Text Json Domain Planning FactoryPolicy Store.

(** ** Stages *)
Definition breaker_rank (stage : string) : Z :=
  if seqb stage "steer" then 1
  else if seqb stage "constrain" then 2
  else if seqb stage "suspend" then 3
  else if seqb stage "stop" then 4
  else 0.

Definition breaker_is_hard (stage : string) : bool := seqb stage "suspend" || seqb stage "stop".

Definition mission_allows_dispatch (status : string) (explicit_dispatch : bool) : bool :=
  seqb status "running" || (explicit_dispatch && seqb status "ready").

Definition should_retry_runner_failure (stage : string) (attempt_count max_attempts : Z) : bool :=
  (attempt_count <? max_attempts)%Z && negb (breaker_is_hard stage).

Definition ensure_breaker_allows_human_progress (stage action : string) : result unit :=
  bail_if (breaker_is_hard stage) (action +:+ " is blocked by circuit breaker stage " +:+ stage).

Definition runner_event_advances_run (event_type : string) : bool :=
  mem event_type
    ["run.started"; "run.status"; "run.approval_requested"; "run.artifact_upload";
     "run.deliverable_upload"; "run.verification_started"; "run.verification_evidence";
     "run.verification_passed"; "run.verification_waiting"; "run.completed"].

Definition breaker_blocks_runner_progress (stage event_type : string) : bool :=
  breaker_is_hard stage && runner_event_advances_run event_type.

(** [used.saturating_mul(10_000) / limit], truncated towards zero. *)
Definition basis_points (used limit : Z) : Z := (saturate_i64 (used * 10000) ÷ limit)%Z.

(** The stage one metric calls for. *)
Definition metric_stage (used limit : Z) : option string :=
  let points := basis_points used limit in
  if (11000 <=? points)%Z then Some "stop"
  else if (10000 <=? points)%Z then Some "suspend"
  else if (9000 <=? points)%Z then Some "constrain"
  else if (7500 <=? points)%Z then Some "steer"
  else None.

Definition metric : Type := string * Z * Z.
Definition selection : Type := string * string * Z * Z.     (* stage, metric, used, limit *)

Definition select_stage (selected : option selection) (input : metric) : option selection :=
  let '(name, used, limit) := input in
  if (limit <=? 0)%Z then selected
  else
    match metric_stage used limit with
    | None => selected
    | Some stage =>
        match selected with
        | Some (current, _, _, _) =>
            if (breaker_rank current <? breaker_rank stage)%Z then Some (stage, name, used, limit)
            else selected
        | None => Some (stage, name, used, limit)
        end
    end.

Definition strongest_breaker_stage (inputs : list metric) : option selection :=
  foldl select_stage None inputs.

(** ** Tables *)
Record b_run := BRun {
  br_corp_id : uuid; br_task_id : uuid; br_runner_id : string; br_status : run_status;
  br_breaker_stage : string; br_input_tokens : Z; br_output_tokens : Z; br_cost_microusd : Z;
  br_budget_tokens_limit : Z; br_budget_cost_microusd_limit : Z; br_no_progress_events : Z;
  br_repeated_tool_count : Z; br_created_at : timestamp }.
Record b_task := BTask { bt_mission_id : uuid; bt_status : task_status }.
Record b_mission := BMission {
  bm_corp_id : uuid; bm_room_id : uuid; bm_requested_by : uuid; bm_budget_tokens : Z;
  bm_budget_cost_microusd : Z }.
Record budget_policy := BudgetPolicy {
  bp_actor_tokens : Z; bp_actor_cost : Z; bp_corp_tokens : Z; bp_corp_cost : Z;
  bp_no_progress_event_limit : Z; bp_repeated_tool_limit : Z }.
Record b_incident := BIncident {
  bi_id : uuid; bi_corp_id : uuid; bi_run_id : uuid; bi_mission_id : uuid; bi_task_id : uuid;
  bi_stage : string; bi_reason : string; bi_input : json }.
Record b_command := BCommand {
  bc_id : uuid; bc_corp_id : uuid; bc_runner_id : string; bc_run_id : uuid; bc_kind : string;
  bc_payload : json; bc_idempotency_key : string }.

Record breaker_db := BreakerDb {
  b_corps : gset uuid;
  b_directory : directory;
  b_runs : gmap uuid b_run;
  b_tasks : gmap uuid b_task;
  b_missions : gmap uuid b_mission;
  b_policies : gmap uuid budget_policy;
  b_incidents : list b_incident;
  b_commands : list b_command;
  b_log : event_log;
}.
#[global] Instance breaker_db_directory : HasDirectory breaker_db := b_directory.
#[global] Instance breaker_db_log : HasLog breaker_db := {|
  get_log := b_log;
  set_log l db := BreakerDb (b_corps db) (b_directory db) (b_runs db) (b_tasks db) (b_missions db)
                    (b_policies db) (b_incidents db) (b_commands db) l;
|}.
#[global] Instance breaker_db_log_laws : HasLogLaws breaker_db.
Proof. by split. Qed.

Definition set_runs (f : gmap uuid b_run → gmap uuid b_run) (db : breaker_db) : breaker_db :=
  BreakerDb (b_corps db) (b_directory db) (f (b_runs db)) (b_tasks db) (b_missions db) (b_policies db)
    (b_incidents db) (b_commands db) (b_log db).
Definition set_tasks (f : gmap uuid b_task → gmap uuid b_task) (db : breaker_db) : breaker_db :=
  BreakerDb (b_corps db) (b_directory db) (b_runs db) (f (b_tasks db)) (b_missions db) (b_policies db)
    (b_incidents db) (b_commands db) (b_log db).
Definition set_policies (f : gmap uuid budget_policy → gmap uuid budget_policy) (db : breaker_db) :
    breaker_db :=
  BreakerDb (b_corps db) (b_directory db) (b_runs db) (b_tasks db) (b_missions db) (f (b_policies db))
    (b_incidents db) (b_commands db) (b_log db).
Definition add_incident (i : b_incident) (db : breaker_db) : breaker_db :=
  BreakerDb (b_corps db) (b_directory db) (b_runs db) (b_tasks db) (b_missions db) (b_policies db)
    (b_incidents db ++ [i]) (b_commands db) (b_log db).
Definition add_command (c : b_command) (db : breaker_db) : breaker_db :=
  BreakerDb (b_corps db) (b_directory db) (b_runs db) (b_tasks db) (b_missions db) (b_policies db)
    (b_incidents db) (b_commands db ++ [c]) (b_log db).

(** ** Usage, as the queries compute it *)
Definition bigint (z : Z) : result Z := with_context (checked_i64 z) "bigint out of range".

Definition run_tokens (r : b_run) : result Z := bigint (br_input_tokens r + br_output_tokens r).
Definition run_cost (r : b_run) : result Z := Ok (br_cost_microusd r).

(** [COALESCE(SUM(..), 0)::BIGINT] *)
Definition sum_bigint (f : b_run → result Z) (rows : list b_run) : result Z :=
  values ← collect f rows; bigint (foldr Z.add 0 values)%Z.

Definition all_runs (db : breaker_db) : list b_run := (map_to_list (b_runs db)).*2.

(** The mission of a run, through its task. *)
Definition run_mission (db : breaker_db) (r : b_run) : option (uuid * b_mission) :=
  t ← b_tasks db !! br_task_id r; m ← b_missions db !! bt_mission_id t; Some (bt_mission_id t, m).

Definition mission_runs (db : breaker_db) (mission_id : uuid) : list b_run :=
  List.filter (λ r, match b_tasks db !! br_task_id r with
                    | Some t => (bt_mission_id t =? mission_id)%N
                    | None => false
                    end) (all_runs db).
Definition recent (now : timestamp) (r : b_run) : bool :=
  (now - seconds (24 * 3600) <=? br_created_at r)%Z.
Definition actor_runs (db : breaker_db) (now : timestamp) (corp_id requester : uuid) : list b_run :=
  List.filter (λ r, match run_mission db r with
                    | Some (_, m) => (bm_corp_id m =? corp_id)%N && (bm_requested_by m =? requester)%N
                    | None => false
                    end && recent now r) (all_runs db).
Definition corp_runs (db : breaker_db) (now : timestamp) (corp_id : uuid) : list b_run :=
  List.filter (λ r, (br_corp_id r =? corp_id)%N && recent now r) (all_runs db).

(** [LEFT JOIN corp_budget_policies], with the COALESCE defaults. *)
Definition default_policy : budget_policy := BudgetPolicy 4000000 10000000 20000000 100000000 8 5.
Definition policy_of (db : breaker_db) (corp_id : uuid) : budget_policy :=
  default default_policy (b_policies db !! corp_id).

(** The array [inputs] of [evaluate_circuit_breaker]. *)
Definition breaker_inputs (db : breaker_db) (now : timestamp) (corp_id : uuid) (run : b_run)
    (mission_id : uuid) (mission : b_mission) : result (list metric) :=
  let policy := policy_of db corp_id in
  let mission_rows := mission_runs db mission_id in
  let actor_rows := actor_runs db now corp_id (bm_requested_by mission) in
  let corp_rows := corp_runs db now corp_id in
  tokens ← run_tokens run;
  mission_tokens ← sum_bigint run_tokens mission_rows;
  mission_cost ← sum_bigint run_cost mission_rows;
  actor_tokens ← sum_bigint run_tokens actor_rows;
  actor_cost ← sum_bigint run_cost actor_rows;
  corp_tokens ← sum_bigint run_tokens corp_rows;
  corp_cost ← sum_bigint run_cost corp_rows;
  Ok [("run_tokens", tokens, br_budget_tokens_limit run);
      ("run_cost", br_cost_microusd run, br_budget_cost_microusd_limit run);
      ("mission_tokens", mission_tokens, bm_budget_tokens mission);
      ("mission_cost", mission_cost, bm_budget_cost_microusd mission);
      ("actor_tokens_24h", actor_tokens, bp_actor_tokens policy);
      ("actor_cost_24h", actor_cost, bp_actor_cost policy);
      ("corp_tokens_24h", corp_tokens, bp_corp_tokens policy);
      ("corp_cost_24h", corp_cost, bp_corp_cost policy);
      ("no_progress", br_no_progress_events run, bp_no_progress_event_limit policy);
      ("repeated_tool", br_repeated_tool_count run, bp_repeated_tool_limit policy)].

Definition run_is_active (status : run_status) : bool :=
  match status with
  | RunStatus.Starting | RunStatus.Running | RunStatus.WaitingForInput
  | RunStatus.WaitingForApproval | RunStatus.Verifying => true
  | _ => false
  end.

(** ** Evaluation *)
Record breaker_outcome := CircuitBreakerOutcome {
  bo_command : option b_command; bo_event : option new_event }.
Definition no_transition : breaker_outcome := CircuitBreakerOutcome None None.

Record breaker_env := BreakerEnv { be_now : timestamp; be_incident : uuid; be_command : uuid }.

Definition set_run_stage (stage : string) (r : b_run) : b_run :=
  BRun (br_corp_id r) (br_task_id r) (br_runner_id r) (br_status r) stage (br_input_tokens r)
    (br_output_tokens r) (br_cost_microusd r) (br_budget_tokens_limit r)
    (br_budget_cost_microusd_limit r) (br_no_progress_events r) (br_repeated_tool_count r)
    (br_created_at r).
Definition set_run_status (status : run_status) (r : b_run) : b_run :=
  BRun (br_corp_id r) (br_task_id r) (br_runner_id r) status (br_breaker_stage r) (br_input_tokens r)
    (br_output_tokens r) (br_cost_microusd r) (br_budget_tokens_limit r)
    (br_budget_cost_microusd_limit r) (br_no_progress_events r) (br_repeated_tool_count r)
    (br_created_at r).

(** UPDATE runs .., and for a suspension the run and its task wait. *)
Definition apply_stage (stage : string) (run_id task_id : uuid) (db : breaker_db) : breaker_db :=
  let db := set_runs (alter (set_run_stage stage) run_id) db in
  if seqb stage "suspend" then
    let db := set_runs (alter (λ r, if bool_decide (br_status r = RunStatus.Running)
                                    then set_run_status RunStatus.WaitingForInput r else r) run_id) db in
    set_tasks (alter (λ t, if bool_decide (bt_status t = TaskStatus.Running)
                           then BTask (bt_mission_id t) TaskStatus.Blocked else t) task_id) db
  else db.

Section breaker.
Context `{Serde}.

Definition breaker_reason (reason : string) (used limit : Z) : string :=
  reason +:+ " reached " +:+ show_int used +:+ " of " +:+ show_int limit.

(** INSERT INTO circuit_breaker_incidents; UNIQUE (run_id, stage). *)
Definition insert_incident_tx (incident : b_incident) : txn breaker_db unit :=
  taken ← gets (λ db, existsb (λ i, (bi_run_id i =? bi_run_id incident)%N
                                    && seqb (bi_stage i) (bi_stage incident)) (b_incidents db));
  lift (bail_if taken "duplicate key value violates unique constraint");;
  modify (add_incident incident).

(** INSERT INTO runner_commands; UNIQUE (corp_id, idempotency_key). *)
Definition insert_command_tx (command : b_command) : txn breaker_db unit :=
  taken ← gets (λ db, existsb (λ c, (bc_corp_id c =? bc_corp_id command)%N
                                    && seqb (bc_idempotency_key c) (bc_idempotency_key command))
                        (b_commands db));
  lift (bail_if taken "duplicate key value violates unique constraint");;
  modify (add_command command).

(** The effects of a move to [stage]. *)
Definition transition_stage (env : breaker_env) (corp_id run_id mission_id : uuid) (run : b_run)
    (mission : b_mission) (selected : selection) : txn breaker_db breaker_outcome :=
  let '(stage, reason, used, limit) := selected in
  modify (apply_stage stage run_id (br_task_id run));;
  let input := json_object [("metric", JStr reason); ("used", JInt used); ("limit", JInt limit)] in
  insert_incident_tx (BIncident (be_incident env) corp_id run_id mission_id (br_task_id run) stage
                        (breaker_reason reason used limit) input);;
  let command := BCommand (be_command env) corp_id (br_runner_id run) run_id "circuit_breaker"
    (json_object [("stage", JStr stage); ("reason", JStr (breaker_reason reason used limit))])
    ("breaker:" +:+ uuid_to_string run_id +:+ ":" +:+ stage) in
  insert_command_tx command;;
  event ← append_event_tx
    (correlated (Some mission_id)
       (at_version (Some (bm_room_id mission)) 1
          (new_event_of corp_id None "run.breaker_transition" "run" run_id
             ("breaker-event:" +:+ uuid_to_string run_id +:+ ":" +:+ stage)
             (json_object [("stage", JStr stage);
                           ("reason", JStr (breaker_reason reason used limit)); ("input", input);
                           ("command_id", JStr (uuid_to_string (be_command env)))]))));
  mret (CircuitBreakerOutcome (Some command) event).

(** The joined row: the active run of the corp with its task and mission. *)
Definition active_breaker_row (corp_id run_id : uuid) (db : breaker_db) :
    option (b_run * uuid * b_mission) :=
  run ← b_runs db !! run_id;
  m ← run_mission db run;
  if (br_corp_id run =? corp_id)%N && run_is_active (br_status run) then Some (run, m.1, m.2) else None.

Definition evaluate_circuit_breaker (env : breaker_env) (corp_id run_id : uuid) :
    txn breaker_db breaker_outcome :=
  row ← gets (active_breaker_row corp_id run_id);
  match row with
  | None => mret no_transition
  | Some (run, mission_id, mission) =>
      inputs ← (λ db, lift (breaker_inputs db (be_now env) corp_id run mission_id mission) db);
      match strongest_breaker_stage inputs with
      | None => mret no_transition
      | Some selected =>
          let '(stage, _, _, _) := selected in
          if (breaker_rank stage <=? breaker_rank (br_breaker_stage run))%Z then mret no_transition
          else transition_stage env corp_id run_id mission_id run mission selected
      end
  end.

(** ** The same test in SQL; [zero_provider] is the answer of the budget
    checkpoint for a run that was allocated no provider work.  Every usage sum
    is evaluated, also where the database may skip one because its limit is
    not positive: only an overflow of a skipped sum could tell the difference. *)
Definition limit_reached (used limit : Z) : bool := ((0 <? limit) && (limit <=? used))%Z.

Definition hard_breaker_reached (db : breaker_db) (now : timestamp) (corp_id run_id : uuid)
    (zero_provider : bool) : result bool :=
  run ← with_context (r ← b_runs db !! run_id; if (br_corp_id r =? corp_id)%N then Some r else None)
          "no rows returned by a query that expected to return at least one row";
  m ← with_context (run_mission db run)
        "no rows returned by a query that expected to return at least one row";
  let '(mission_id, mission) := m in
  let policy := policy_of db corp_id in
  let mission_rows := mission_runs db mission_id in
  let actor_rows := actor_runs db now corp_id (bm_requested_by mission) in
  let corp_rows := corp_runs db now corp_id in
  tokens ← run_tokens run;
  mission_tokens ← sum_bigint run_tokens mission_rows;
  mission_cost ← sum_bigint run_cost mission_rows;
  actor_tokens ← sum_bigint run_tokens actor_rows;
  actor_cost ← sum_bigint run_cost actor_rows;
  corp_tokens ← sum_bigint run_tokens corp_rows;
  corp_cost ← sum_bigint run_cost corp_rows;
  Ok ((negb zero_provider
       && (limit_reached tokens (br_budget_tokens_limit run)
           || limit_reached (br_cost_microusd run) (br_budget_cost_microusd_limit run)
           || limit_reached mission_tokens (bm_budget_tokens mission)
           || limit_reached mission_cost (bm_budget_cost_microusd mission)
           || limit_reached actor_tokens (bp_actor_tokens policy)
           || limit_reached actor_cost (bp_actor_cost policy)
           || limit_reached corp_tokens (bp_corp_tokens policy)
           || limit_reached corp_cost (bp_corp_cost policy)))
      || limit_reached (br_no_progress_events run) (bp_no_progress_event_limit policy)
      || limit_reached (br_repeated_tool_count run) (bp_repeated_tool_limit policy)).

Definition ensure_run_not_hard_blocked (db : breaker_db) (now : timestamp) (corp_id run_id : uuid)
    (zero_provider : bool) (stage action : string) : result unit :=
  ensure_breaker_allows_human_progress stage action;;
  reached ← hard_breaker_reached db now corp_id run_id zero_provider;
  bail_if reached
    (action +:+ " is blocked because current budget or loop metrics require a hard breaker").

(** ** Rolling budgets *)
Record rolling_budget_remaining := RollingBudgetRemaining {
  rb_actor_tokens : Z; rb_actor_cost_microusd : Z; rb_corp_tokens : Z; rb_corp_cost_microusd : Z }.

Definition saturating_sub (a b : Z) : Z := saturate_i64 (a - b).

Definition rolling_budget_remaining_of (db : breaker_db) (now : timestamp) (corp_id requester : uuid) :
    result rolling_budget_remaining :=
  bail_if (negb (bool_decide (corp_id ∈ b_corps db)))
    "Corp not found while evaluating rolling resume budget";;
  let policy := policy_of db corp_id in
  let actor_rows := actor_runs db now corp_id requester in
  let corp_rows := corp_runs db now corp_id in
  actor_tokens ← sum_bigint run_tokens actor_rows;
  actor_cost ← sum_bigint run_cost actor_rows;
  corp_tokens ← sum_bigint run_tokens corp_rows;
  corp_cost ← sum_bigint run_cost corp_rows;
  Ok (RollingBudgetRemaining
        (saturating_sub (bp_actor_tokens policy) actor_tokens)
        (saturating_sub (bp_actor_cost policy) actor_cost)
        (saturating_sub (bp_corp_tokens policy) corp_tokens)
        (saturating_sub (bp_corp_cost policy) corp_cost)).

Definition set_budget_policy (fresh : uuid) (corp_id actor_id : uuid) (policy : budget_policy) :
    txn breaker_db new_event :=
  role ← gets (λ db, a ← dir_actors (b_directory db) !! actor_id;
                     if (actor_corp a =? corp_id)%N && seqb (actor_kind a) "human"
                     then Some (actor_role a) else None);
  lift (bail_if match role with Some role => negb (mem role ["owner"; "admin"]) | None => true end
          "forbidden: only a Corp owner or admin can change budget policy");;
  lift (bail_if ((bp_actor_tokens policy <=? 0)%Z || (bp_actor_cost policy <=? 0)%Z
                 || (bp_corp_tokens policy <=? 0)%Z || (bp_corp_cost policy <=? 0)%Z
                 || negb (in_range 2 100 (bp_no_progress_event_limit policy))
                 || negb (in_range 2 100 (bp_repeated_tool_limit policy)))
          "budget policy values are out of range");;
  modify (set_policies <[corp_id := policy]>);;
  append_new_event
    (new_event_of corp_id (Some actor_id) "budget.policy_updated" "corp" corp_id
       ("budget-policy-updated:" +:+ uuid_to_string fresh)
       (json_object [("actor_tokens_per_24h", JInt (bp_actor_tokens policy));
                     ("actor_cost_microusd_per_24h", JInt (bp_actor_cost policy));
                     ("corp_tokens_per_24h", JInt (bp_corp_tokens policy));
                     ("corp_cost_microusd_per_24h", JInt (bp_corp_cost policy));
                     ("no_progress_event_limit", JInt (bp_no_progress_event_limit policy));
                     ("repeated_tool_limit", JInt (bp_repeated_tool_limit policy))]))
    "budget policy event unexpectedly existed".
End breaker.

(** ** Lemmas: stages *)
Definition metric_rank (input : metric) : Z :=
  let '(_, used, limit) := input in
  if (limit <=? 0)%Z then 0 else default 0%Z (breaker_rank <$> metric_stage used limit).

Definition selected_rank (selected : option selection) : Z :=
  match selected with Some (stage, _, _, _) => breaker_rank stage | None => 0 end.

Lemma metric_stage_cases used limit stage :
  metric_stage used limit = Some stage → stage ∈ ["stop"; "suspend"; "constrain"; "steer"].
Proof. unfold metric_stage. repeat case_match; intros [= <-]; set_solver. Qed.

Lemma stage_rank_pos stage :
  stage ∈ ["stop"; "suspend"; "constrain"; "steer"] → (1 ≤ breaker_rank stage ≤ 4)%Z.
Proof. intros H. repeat (apply elem_of_cons in H as [->|H]; [done |]). set_solver. Qed.

Lemma metric_stage_rank used limit stage :
  metric_stage used limit = Some stage → (1 ≤ breaker_rank stage ≤ 4)%Z.
Proof. intros H. by eapply stage_rank_pos, metric_stage_cases. Qed.

Lemma select_stage_rank selected input :
  selected_rank (select_stage selected input) = Z.max (selected_rank selected) (metric_rank input).
Proof.
  destruct input as [[name used] limit]. unfold select_stage, metric_rank.
  assert (0 ≤ selected_rank selected)%Z as H0.
  { destruct selected as [[[[stage ?] ?] ?]|]; simpl; [| lia]. unfold breaker_rank. repeat case_match; lia. }
  destruct (limit <=? 0)%Z; [lia |].
  destruct (metric_stage used limit) as [stage|] eqn:E; simpl; [| lia].
  apply metric_stage_rank in E.
  destruct selected as [[[[current ?] ?] ?]|]; simpl in *; [| lia].
  destruct (breaker_rank current <? breaker_rank stage)%Z eqn:El; simpl; lia.
Qed.

(** The selection comes from the inputs. *)
Definition selected_from (inputs : list metric) (selected : option selection) : Prop :=
  match selected with
  | Some (stage, name, used, limit) =>
      (name, used, limit) ∈ inputs ∧ (0 < limit)%Z ∧ metric_stage used limit = Some stage
  | None => True
  end.

Lemma select_stage_from selected input inputs :
  selected_from inputs selected → input ∈ inputs → selected_from inputs (select_stage selected input).
Proof.
  destruct input as [[name used] limit]. intros Hs Hin. unfold select_stage.
  destruct (Z.leb_spec limit 0); [done |].
  destruct (metric_stage used limit) as [stage|] eqn:E; [| done].
  destruct selected as [[[[current ?] ?] ?]|]; [| by split_and!].
  destruct (_ <? _)%Z; [by split_and! | done].
Qed.

Lemma strongest_stage_from inputs : selected_from inputs (strongest_breaker_stage inputs).
Proof.
  unfold strongest_breaker_stage.
  assert (∀ l selected, (∀ x, x ∈ l → x ∈ inputs) → selected_from inputs selected →
    selected_from inputs (foldl select_stage selected l)) as H.
  { induction l as [|x l IH]; intros selected Hl Hs; simpl; [done |]. apply IH.
    - intros y Hy. by apply Hl, list_elem_of_further.
    - apply select_stage_from; [done |]. by apply Hl, list_elem_of_here. }
  by apply H.
Qed.

Lemma strongest_stage_rank inputs input :
  input ∈ inputs → (metric_rank input ≤ selected_rank (strongest_breaker_stage inputs))%Z.
Proof.
  unfold strongest_breaker_stage.
  assert (∀ l selected, (selected_rank selected ≤ selected_rank (foldl select_stage selected l))%Z ∧
    ∀ x, x ∈ l → (metric_rank x ≤ selected_rank (foldl select_stage selected l))%Z) as H.
  { induction l as [|x l IH]; intros selected; simpl; [split; [lia | set_solver] |].
    destruct (IH (select_stage selected x)) as [H1 H2]. rewrite select_stage_rank in H1.
    split; [lia |]. intros y [->|Hy]%elem_of_cons; [lia | by apply H2]. }
  apply H.
Qed.

(** Without saturation the truncated quotient compares like the exact ratio. *)
Lemma basis_points_ge used limit k :
  (0 ≤ used)%Z → (0 < limit)%Z → (used * 10000 ≤ i64_max)%Z →
  (k <=? basis_points used limit)%Z = (k * limit <=? used * 10000)%Z.
Proof.
  intros Hu Hl Hs. unfold basis_points. rewrite saturate_i64_id by (unfold i64_min; lia).
  rewrite Z.quot_div_nonneg by lia. apply Bool.eq_iff_eq_true. rewrite !Z.leb_le. split.
  - intros H. assert (used * 10000 / limit * limit ≤ used * 10000)%Z; [| nia].
    rewrite Z.mul_comm. by apply Z.mul_div_le.
  - intros H. apply Z.div_le_lower_bound; lia.
Qed.

Lemma metric_hard_exact used limit :
  (0 ≤ used)%Z → (0 < limit)%Z → (used * 10000 ≤ i64_max)%Z →
  (3 <=? metric_rank ("", used, limit))%Z = (limit <=? used)%Z.
Proof.
  intros Hu Hl Hs. unfold metric_rank, metric_stage. cbv zeta. rewrite !basis_points_ge by done.
  replace (limit <=? 0)%Z with false by lia.
  destruct (Z.leb_spec (11000 * limit) (used * 10000));
    [change (default 0%Z (breaker_rank <$> Some "stop")) with 4%Z; lia |].
  destruct (Z.leb_spec (10000 * limit) (used * 10000));
    [change (default 0%Z (breaker_rank <$> Some "suspend")) with 3%Z; lia |].
  destruct (9000 * limit <=? used * 10000)%Z;
    [change (default 0%Z (breaker_rank <$> Some "constrain")) with 2%Z; lia |].
  destruct (7500 * limit <=? used * 10000)%Z;
    [change (default 0%Z (breaker_rank <$> Some "steer")) with 1%Z; lia | simpl; lia].
Qed.

Lemma hard_rank stage : breaker_is_hard stage = (3 <=? breaker_rank stage)%Z.
Proof.
  unfold breaker_is_hard, breaker_rank.
  destruct (seqb stage "steer") eqn:E1; [by apply seqb_eq in E1 as -> |].
  destruct (seqb stage "constrain") eqn:E2; [by apply seqb_eq in E2 as -> |].
  by destruct (seqb stage "suspend"), (seqb stage "stop").
Qed.

(** ** Lemmas: evaluation *)
Definition stage_of (db : breaker_db) (run_id : uuid) : option string :=
  br_breaker_stage <$> b_runs db !! run_id.

Lemma apply_stage_stage stage run_id task_id db id :
  stage_of (apply_stage stage run_id task_id db) id =
  if decide (id = run_id) then (λ _, stage) <$> stage_of db id else stage_of db id.
Proof.
  unfold apply_stage, stage_of. destruct (seqb stage "suspend"); simpl; case_decide as E; subst;
    rewrite ?lookup_alter_eq, ?lookup_alter_ne by done; try done.
  all: destruct (b_runs db !! run_id) as [r|]; [| done]; simpl.
  - by case_bool_decide.
  - done.
Qed.

Lemma apply_stage_tables stage run_id task_id db :
  b_incidents (apply_stage stage run_id task_id db) = b_incidents db ∧
  b_commands (apply_stage stage run_id task_id db) = b_commands db ∧
  b_log (apply_stage stage run_id task_id db) = b_log db.
Proof. unfold apply_stage. by destruct (seqb stage "suspend"). Qed.

Definition breaker_key `{Serde} (run_id : uuid) (stage : string) : string :=
  "breaker:" +:+ uuid_to_string run_id +:+ ":" +:+ stage.

(** What the incidents and breaker commands say about the stage of a run. *)
Record breaker_inv `{Serde} (db : breaker_db) : Prop := {
  binv_incidents : ∀ i, i ∈ b_incidents db → ∃ stage, stage_of db (bi_run_id i) = Some stage ∧
    (breaker_rank (bi_stage i) ≤ breaker_rank stage)%Z;
  binv_commands : ∀ c, c ∈ b_commands db → starts_with "breaker:" (bc_idempotency_key c) = true →
    ∃ run_id stage current,
    bc_idempotency_key c = breaker_key run_id stage ∧
    stage ∈ ["stop"; "suspend"; "constrain"; "steer"] ∧
    stage_of db run_id = Some current ∧ (breaker_rank stage ≤ breaker_rank current)%Z;
}.

(** A successful evaluation: nothing, or a move to a stronger stage with an
    incident, a command and at most one event. *)
Inductive evaluated `{Serde} (env : breaker_env) (corp_id run_id : uuid) (db : breaker_db) :
    breaker_outcome → breaker_db → Prop :=
| evaluated_none : evaluated env corp_id run_id db no_transition db
| evaluated_move run mission_id mission inputs stage reason used limit incident command event db' :
    active_breaker_row corp_id run_id db = Some (run, mission_id, mission) →
    breaker_inputs db (be_now env) corp_id run mission_id mission = Ok inputs →
    strongest_breaker_stage inputs = Some (stage, reason, used, limit) →
    (breaker_rank (br_breaker_stage run) < breaker_rank stage)%Z →
    bi_run_id incident = run_id → bi_stage incident = stage →
    bc_idempotency_key command = breaker_key run_id stage → bc_run_id command = run_id →
    (∀ id, stage_of db' id = if decide (id = run_id) then Some stage else stage_of db id) →
    b_incidents db' = b_incidents db ++ [incident] → b_commands db' = b_commands db ++ [command] →
    b_log db' = b_log db ++ (match event with Some e => [e] | None => [] end) →
    evaluated env corp_id run_id db (CircuitBreakerOutcome (Some command) event) db'.

Section evaluation.
Context `{Serde}.

Lemma active_row_ok corp_id run_id db run mission_id mission :
  active_breaker_row corp_id run_id db = Some (run, mission_id, mission) →
  b_runs db !! run_id = Some run ∧ run_mission db run = Some (mission_id, mission) ∧
  br_corp_id run = corp_id.
Proof.
  unfold active_breaker_row. intros Hr. apply bind_Some in Hr as (run0 & Hrun & Hr).
  apply bind_Some in Hr as ([id m] & Hm & Hr). case_match eqn:E; [| done]. simplify_eq/=.
  res_inv. by rewrite N.eqb_eq in *.
Qed.

Lemma insert_incident_ok incident db u db' :
  insert_incident_tx incident db = Ok (u, db') → db' = add_incident incident db.
Proof. unfold insert_incident_tx. intros H1. by txn_inv. Qed.

Lemma insert_command_ok command db u db' :
  insert_command_tx command db = Ok (u, db') → db' = add_command command db.
Proof. unfold insert_command_tx. intros H1. by txn_inv. Qed.

Lemma evaluate_evaluated env corp_id run_id db out db' :
  evaluate_circuit_breaker env corp_id run_id db = Ok (out, db') →
  evaluated env corp_id run_id db out db'.
Proof.
  unfold evaluate_circuit_breaker. intros H1. txn_inv.
  destruct (active_breaker_row _ _ _) as [[[run mission_id] mission]|] eqn:Hrow; [| txn_inv; constructor].
  txn_inv. match type of H1 with context [strongest_breaker_stage ?i] =>
    destruct (strongest_breaker_stage i) as [[[[stage reason] used] limit]|] eqn:Hs end;
    [| txn_inv; constructor].
  destruct (Z.leb_spec (breaker_rank stage) (breaker_rank (br_breaker_stage run))) as [|Hlt];
    [txn_inv; constructor |].
  unfold transition_stage in H1. txn_inv.
  match goal with H : insert_incident_tx _ _ = _ |- _ => apply insert_incident_ok in H as -> end.
  match goal with H : insert_command_tx _ _ = _ |- _ => apply insert_command_ok in H as -> end.
  match goal with H : append_event_tx _ _ = _ |- _ => unfold append_event_tx in H; rename H into Hev end.
  destruct (apply_stage_tables stage run_id (br_task_id run) db) as (Hi & Hc & Hl).
  destruct (active_row_ok _ _ _ _ _ _ Hrow) as (Hrun & _ & _).
  assert (∀ id, stage_of (apply_stage stage run_id (br_task_id run) db) id =
    if decide (id = run_id) then Some stage else stage_of db id) as Hst.
  { intros id. rewrite apply_stage_stage. case_decide; [| done]. subst. unfold stage_of. by rewrite Hrun. }
  destruct (existsb _ _); injection Hev as <- <-.
  all: eapply (evaluated_move _ _ _ _ _ _ _ _ _ _ _ _ (BIncident (be_incident env) corp_id run_id mission_id
    (br_task_id run) stage (breaker_reason reason used limit) _)); try done; simpl.
  all: by rewrite ?Hi, ?Hc, ?Hl, ?app_nil_r.
Qed.
End evaluation.

(** ** Runs of the system *)

(** Evaluations and policy changes, and the rest of the store between them: runs
    report usage and change status, new runs start, other commands are queued. *)
Inductive breaker_step `{Serde} : breaker_db → breaker_db → Prop :=
| step_evaluate env corp_id run_id db :
    breaker_step db (run_txn (evaluate_circuit_breaker env corp_id run_id) db).2
| step_policy fresh corp_id actor_id policy db :
    breaker_step db (run_txn (set_budget_policy fresh corp_id actor_id policy) db).2
| step_usage db db' extra :
    (∀ id stage, stage_of db id = Some stage → stage_of db' id = Some stage) →
    b_incidents db' = b_incidents db → b_commands db' = b_commands db ++ extra →
    (∀ c, c ∈ extra → starts_with "breaker:" (bc_idempotency_key c) = false) →
    breaker_step db db'.

Section steps.
Context `{Serde}.

(** A stage only rises. *)
Definition stages_rise (db db' : breaker_db) : Prop :=
  ∀ id stage, stage_of db id = Some stage → ∃ stage', stage_of db' id = Some stage' ∧
    (breaker_rank stage ≤ breaker_rank stage')%Z.

Lemma run_evaluated env corp_id run_id db :
  (run_txn (evaluate_circuit_breaker env corp_id run_id) db).2 = db ∨
  ∃ out, evaluated env corp_id run_id db out (run_txn (evaluate_circuit_breaker env corp_id run_id) db).2.
Proof.
  unfold run_txn. destruct (evaluate_circuit_breaker env corp_id run_id db) as [[out db']|] eqn:E; [| by left].
  right. exists out. by apply evaluate_evaluated.
Qed.

Lemma policy_tables fresh corp_id actor_id policy db :
  let db' := (run_txn (set_budget_policy fresh corp_id actor_id policy) db).2 in
  b_runs db' = b_runs db ∧ b_incidents db' = b_incidents db ∧ b_commands db' = b_commands db.
Proof.
  unfold run_txn. destruct (set_budget_policy _ _ _ _ db) as [[e db']|] eqn:E; [| done].
  unfold set_budget_policy in E. txn_inv. done.
Qed.

Lemma step_stages db db' : breaker_step db db' → stages_rise db db'.
Proof.
  destruct 1 as [env corp_id run_id db|fresh corp_id actor_id policy db|db db' extra Hst _ _ _];
    intros id stage Hs.
  - destruct (run_evaluated env corp_id run_id db) as [->|(out & Hev)]; [by exists stage |].
    remember (run_txn (evaluate_circuit_breaker env corp_id run_id) db).2 as db' eqn:E. destruct Hev as [|run mission_id mission inputs stage' reason used limit i c event db' Hrow Hin Hsel Hlt
      Hid His Hck Hcr Hst Hi Hc Hlog].
    { by exists stage. }
    rewrite Hst. case_decide; [| by exists stage]. subst id. eexists. split; [done |].
    apply active_row_ok in Hrow as (Hrun & _). unfold stage_of in Hs. rewrite Hrun in Hs. simplify_eq/=. lia.
  - destruct (policy_tables fresh corp_id actor_id policy db) as (Hr & _ & _).
    exists stage. unfold stage_of in *. by rewrite Hr.
  - exists stage. by rewrite (Hst _ _ Hs).
Qed.

Lemma breaker_inv_rise db db' :
  breaker_inv db → stages_rise db db' →
  b_incidents db' = b_incidents db → 
  (∀ c, c ∈ b_commands db' → starts_with "breaker:" (bc_idempotency_key c) = true → c ∈ b_commands db) →
  breaker_inv db'.
Proof.
  intros [Hi Hc] Hr Ei Ec. split.
  - rewrite Ei. intros i (stage & Hs & Hle)%Hi. destruct (Hr _ _ Hs) as (stage' & ? & ?).
    exists stage'. split; [done | lia].
  - intros c Hin Hk. destruct (Hc c (Ec c Hin Hk) Hk) as (id & stage & current & ? & ? & Hs & ?).
    destruct (Hr _ _ Hs) as (current' & ? & ?). exists id, stage, current'. split_and!; done || lia.
Qed.

Lemma breaker_step_inv db db' : breaker_inv db → breaker_step db db' → breaker_inv db'.
Proof.
  intros Hinv Hstep. pose proof (step_stages _ _ Hstep) as Hr.
  destruct Hstep as [env corp_id run_id db|fresh corp_id actor_id policy db|db db' extra Hst Ei Ec Hx].
  - destruct (run_evaluated env corp_id run_id db) as [->|(out & Hev)]; [done |].
    remember (run_txn (evaluate_circuit_breaker env corp_id run_id) db).2 as db' eqn:E. clear E.
    destruct Hev as [|run mission_id mission inputs stage reason used limit i c event db' Hrow Hin Hs Hlt
      Hid His Hck Hcr Hst Hi Hc Hlog]; [done |].
    pose proof (strongest_stage_from inputs) as Hfrom. rewrite Hs in Hfrom. destruct Hfrom as (_ & _ & Hms).
    apply metric_stage_cases in Hms.
    assert (stage_of db' run_id = Some stage) as Hnew by (rewrite Hst, decide_True; done).
    split.
    + rewrite Hi. intros j [Hj| ->%list_elem_of_singleton]%elem_of_app.
      * destruct (binv_incidents _ Hinv j Hj) as (s & Hsj & ?). destruct (Hr _ _ Hsj) as (s' & ? & ?).
        exists s'. split; [done | lia].
      * exists stage. rewrite Hid, His. split; [done | lia].
    + rewrite Hc. intros d [Hd| ->%list_elem_of_singleton]%elem_of_app Hk.
      * destruct (binv_commands _ Hinv d Hd Hk) as (id & s & cur & ? & ? & Hcur & ?).
        destruct (Hr _ _ Hcur) as (cur' & ? & ?). exists id, s, cur'. split_and!; done || lia.
      * exists run_id, stage, stage. split_and!; done || lia.
  - destruct (policy_tables fresh corp_id actor_id policy db) as (_ & Ei & Ec).
    eapply breaker_inv_rise; [done | done | done |]. intros c Hc _. by rewrite <- Ec.
  - eapply breaker_inv_rise; [done | done | done |]. rewrite Ec.
    intros c [Hc|Hc]%elem_of_app Hk; [done |]. by rewrite (Hx c Hc) in Hk.
Qed.

Lemma breaker_steps_inv db db' : breaker_inv db → rtc breaker_step db db' → breaker_inv db'.
Proof. intros Hinv. induction 1; [done |]. eauto using breaker_step_inv. Qed.

(** Keys determine the run and the stage. *)
Lemma breaker_key_inj `{!SerdeLaws H} run_id run_id' stage stage' :
  stage ∈ ["stop"; "suspend"; "constrain"; "steer"] → stage' ∈ ["stop"; "suspend"; "constrain"; "steer"] →
  breaker_key run_id stage = breaker_key run_id' stage' → run_id = run_id' ∧ stage = stage'.
Proof.
  intros Hs Hs' Hk. unfold breaker_key in Hk. apply str_app_inv_head in Hk.
  assert (last_char stage = last_char stage') as Hlast.
  { apply (f_equal last_char) in Hk.
    assert (stage ≠ "" ∧ stage' ≠ "") as [? ?] by (split; intros ->; set_solver).
    rewrite <- !str_app_assoc in Hk. by rewrite !last_char_app in Hk. }
  assert (stage = stage') as ->.
  { repeat (apply elem_of_cons in Hs as [->|Hs]; [repeat (apply elem_of_cons in Hs' as [->|Hs']; [done |]); set_solver |]).
    set_solver. }
  split; [| done]. apply str_app_inv_tail in Hk.
  apply (f_equal uuid_parse_str) in Hk. rewrite !uuid_round_trip in Hk. congruence.
Qed.
End steps.

(** ** Lemmas: agreement of the two tests *)
Lemma limit_reached_rank used limit :
  (0 ≤ used)%Z → (used * 10000 ≤ i64_max)%Z →
  limit_reached used limit = (3 <=? metric_rank ("", used, limit))%Z.
Proof.
  intros Hu Hs. unfold limit_reached. destruct (Z.ltb_spec 0 limit).
  - by rewrite metric_hard_exact.
  - unfold metric_rank. by replace (limit <=? 0)%Z with true by lia.
Qed.

Lemma metric_rank_name name used limit : metric_rank (name, used, limit) = metric_rank ("", used, limit).
Proof. done. Qed.

(** Metrics small enough not to saturate. *)
Definition representable (input : metric) : bool :=
  let '(_, used, _) := input in ((0 <=? used) && (used * 10000 <=? i64_max))%Z.

Lemma strongest_hard inputs :
  match strongest_breaker_stage inputs with
  | Some (stage, _, _, _) => breaker_is_hard stage
  | None => false
  end = existsb (λ input, 3 <=? metric_rank input)%Z inputs.
Proof.
  transitivity (3 <=? selected_rank (strongest_breaker_stage inputs))%Z.
  { destruct (strongest_breaker_stage inputs) as [[[[stage ?] ?] ?]|]; [apply hard_rank | done]. }
  apply Bool.eq_iff_eq_true. rewrite existsb_exists, Z.leb_le. split.
  - pose proof (strongest_stage_from inputs) as Hf.
    destruct (strongest_breaker_stage inputs) as [[[[stage name] used] limit]|]; simpl in *; [| lia].
    destruct Hf as (Hin & Hpos & Hm). intros Hr. exists (name, used, limit).
    split; [by apply list_elem_of_In |]. unfold metric_rank. rewrite Hm.
    replace (limit <=? 0)%Z with false by lia. simpl. lia.
  - intros (input & Hin & Hr). apply list_elem_of_In in Hin.
    pose proof (strongest_stage_rank inputs input Hin). lia.
Qed.

Lemma inputs_reached inputs :
  forallb representable inputs = true →
  existsb (λ input, 3 <=? metric_rank input)%Z inputs =
  existsb (λ '(_, used, limit), limit_reached used limit) inputs.
Proof.
  induction inputs as [|[[name used] limit] inputs IH]; simpl; [done |].
  intros [Hr Hrs]%andb_true_iff. rewrite IH by done. f_equal.
  unfold representable in Hr. rewrite limit_reached_rank by lia. done.
Qed.

(** A sample store for the witnesses. *)
Section sample_breaker.
Definition sample_run (tokens : Z) (stage : string) : b_run :=
  BRun 1 40 "runner-1" RunStatus.Running stage tokens 0 5 1000 500 0 0 0.
Definition sample_breaker (tokens : Z) : breaker_db :=
  BreakerDb {[1%N]}
    (Directory {[10%N := ActorRow 1 "owner" "human"; 20%N := ActorRow 1 "member" "human"]} ∅ ∅ ∅ ∅ ∅ ∅)
    {[60%N := sample_run tokens "healthy"]} {[40%N := BTask 30 TaskStatus.Running]}
    {[30%N := BMission 1 5 10 5000 2000]} ∅ [] [] [].
Definition sample_breaker_env (n : N) : breaker_env := BreakerEnv 0 n (n + 1).
End sample_breaker.

(** ** Properties *)

(** The breaker reacts to the worst metric: the stage it selects is called
    for by one of the inputs with a positive limit, and no input calls for a
    stronger one; it selects nothing precisely when no input calls for any
    stage. *)
Theorem strongest_stage_is_maximum inputs :
  match strongest_breaker_stage inputs with
  | Some (stage, name, used, limit) =>
      (name, used, limit) ∈ inputs ∧ (0 < limit)%Z ∧ metric_stage used limit = Some stage ∧
      ∀ input, input ∈ inputs → (metric_rank input ≤ breaker_rank stage)%Z
  | None => ∀ input, input ∈ inputs → (metric_rank input ≤ 0)%Z
  end.
Proof.
  pose proof (strongest_stage_from inputs) as Hf.
  pose proof (strongest_stage_rank inputs) as Hr.
  destruct (strongest_breaker_stage inputs) as [[[[stage name] used] limit]|]; simpl in *; [| done].
  destruct Hf as (? & ? & ?). by split_and!.
Qed.

(** The thresholds are exact ratios: as long as ten thousand times the usage
    fits in 64 bits, a metric calls for a stop at 110% of its limit, for a hard
    stage (suspend or stop) at 100%, for a constraint at 90% and for steering at
    75%, without any rounding. *)
Theorem metric_stage_exact used limit :
  (0 ≤ used)%Z → (0 < limit)%Z → (used * 10000 ≤ i64_max)%Z →
  metric_stage used limit =
    if (11 * limit <=? 10 * used)%Z then Some "stop"
    else if (limit <=? used)%Z then Some "suspend"
    else if (9 * limit <=? 10 * used)%Z then Some "constrain"
    else if (3 * limit <=? 4 * used)%Z then Some "steer"
    else None.
Proof.
  intros Hu Hl Hs. unfold metric_stage. cbv zeta. rewrite !basis_points_ge by done.
  replace (11000 * limit <=? used * 10000)%Z with (11 * limit <=? 10 * used)%Z by lia.
  replace (10000 * limit <=? used * 10000)%Z with (limit <=? used)%Z by lia.
  replace (9000 * limit <=? used * 10000)%Z with (9 * limit <=? 10 * used)%Z by lia.
  by replace (7500 * limit <=? used * 10000)%Z with (3 * limit <=? 4 * used)%Z by lia.
Qed.

Lemma metric_stage_exact_witness :
  metric_stage 1099 1000 = Some "suspend" ∧ metric_stage 1100 1000 = Some "stop".
Proof.
  rewrite (metric_stage_exact 1099 1000), (metric_stage_exact 1100 1000);
    [vm_compute; split; reflexivity | vm_compute; congruence ..].
Defined.

(** The breaker only escalates: through any sequence of evaluations, policy
    changes, usage reports and other activity, the stage of a run never becomes
    weaker, so a stopped run stays stopped. *)
Theorem breaker_only_escalates `{Serde} db db' run_id stage :
  rtc breaker_step db db' → stage_of db run_id = Some stage →
  ∃ stage', stage_of db' run_id = Some stage' ∧ (breaker_rank stage ≤ breaker_rank stage')%Z.
Proof.
  intros Hs. revert stage. induction Hs as [db|db db1 db2 Hstep _ IH]; intros stage Hst.
  - by exists stage.
  - destruct (step_stages _ _ Hstep _ _ Hst) as (s1 & H1 & ?).
    destruct (IH _ H1) as (s2 & ? & ?). exists s2. split; [done | lia].
Qed.

Lemma breaker_only_escalates_witness :
  ∃ stage', stage_of (run_txn (evaluate_circuit_breaker (H:=sample_serde) (sample_breaker_env 70) 1 60)
    (sample_breaker 950)).2 60 = Some stage' ∧ (breaker_rank "healthy" ≤ breaker_rank stage')%Z.
Proof.
  apply (breaker_only_escalates (H:=sample_serde) (sample_breaker 950)).
  - apply rtc_once, step_evaluate.
  - vm_compute. reflexivity.
Defined.

(** An evaluation is never refused by the uniqueness constraints of the
    store: after any activity, whenever the usage sums fit their columns, it
    succeeds, because an incident or command of the stage it moves to cannot
    exist yet. *)
Theorem breaker_evaluation_succeeds `{SerdeLaws} db0 db env corp_id run_id :
  breaker_inv db0 → rtc breaker_step db0 db →
  (∀ run mission_id mission, active_breaker_row corp_id run_id db = Some (run, mission_id, mission) →
     is_ok (breaker_inputs db (be_now env) corp_id run mission_id mission) = true) →
  is_ok (evaluate_circuit_breaker env corp_id run_id db) = true.
Proof.
  intros Hinv0 Hsteps Hin. pose proof (breaker_steps_inv _ _ Hinv0 Hsteps) as Hinv.
  apply is_ok_true. unfold evaluate_circuit_breaker.
  unfold mbind, txn_bind, gets. destruct (active_breaker_row _ _ _) as [[[run mission_id] mission]|] eqn:Hrow; [| eauto].
  destruct (proj1 (is_ok_true _) (Hin _ _ _ eq_refl)) as [inputs Hi]. rewrite Hi. simpl.
  destruct (strongest_breaker_stage inputs) as [[[[stage reason] used] limit]|] eqn:Hs; [| eexists; done].
  destruct (Z.leb_spec (breaker_rank stage) (breaker_rank (br_breaker_stage run))); [eexists; done |].
  pose proof (strongest_stage_from inputs) as Hf. rewrite Hs in Hf. destruct Hf as (_ & _ & Hms%metric_stage_cases).
  destruct (active_row_ok _ _ _ _ _ _ Hrow) as (Hrun & _ & _).
  assert (stage_of db run_id = Some (br_breaker_stage run)) as Hcur by (unfold stage_of; by rewrite Hrun).
  destruct (apply_stage_tables stage run_id (br_task_id run) db) as (Ei & Ec & _).
  unfold transition_stage, insert_incident_tx, insert_command_tx, append_event_tx.
  unfold mbind, txn_bind, gets, modify, lift, bail_if, mret, txn_ret. simpl. rewrite Ei.
  destruct (existsb _ (b_incidents db)) eqn:Ex.
  { apply existsb_exists in Ex as (i & Hi' & Hk). apply list_elem_of_In in Hi'. res_inv.
    rewrite N.eqb_eq, seqb_eq in *. destruct (binv_incidents _ Hinv i Hi') as (s & Hst & ?). subst.
    rewrite Hcur in Hst. simplify_eq. lia. }
  simpl. rewrite Ec. destruct (existsb _ (b_commands db)) eqn:Ex'.
  { apply existsb_exists in Ex' as (c & Hc' & Hk). apply list_elem_of_In in Hc'. res_inv.
    rewrite seqb_eq in *. fold (breaker_key run_id stage) in *.
    match goal with H : bc_idempotency_key c = _ |- _ => rename H into Hkey end.
    destruct (binv_commands _ Hinv c Hc') as (id & s & cur & Hk' & Hss & Hst & ?).
    { rewrite Hkey. apply starts_with_spec. eexists. reflexivity. }
    rewrite Hkey in Hk'. apply breaker_key_inj in Hk' as [<- <-]; [| done | done].
    rewrite Hcur in Hst. simplify_eq. lia. }
  match goal with |- context [existsb (same_event_key ?e) ?l] => destruct (existsb (same_event_key e) l) end; eauto.
Qed.

Lemma breaker_evaluation_succeeds_witness :
  is_ok (evaluate_circuit_breaker (H:=sample_serde) (sample_breaker_env 80) 1 60
    (run_txn (evaluate_circuit_breaker (H:=sample_serde) (sample_breaker_env 70) 1 60) (sample_breaker 1000)).2)
  = true.
Proof.
  apply (breaker_evaluation_succeeds (H:=sample_serde_laws) (sample_breaker 1000)).
  - split; intros ? Hx; by apply elem_of_nil in Hx.
  - apply rtc_once, step_evaluate.
  - intros run mission_id mission Hrow. vm_compute in Hrow. injection Hrow as <- <- <-.
    vm_compute. reflexivity.
Defined.

(** The gate a human passes agrees with the breaker: for an active run whose
    metrics do not saturate, the SQL test [hard_breaker_reached] answers yes
    exactly when the Rust evaluation of the same metrics selects a hard stage. *)
Theorem hard_tests_agree db now corp_id run_id run mission_id mission inputs :
  active_breaker_row corp_id run_id db = Some (run, mission_id, mission) →
  breaker_inputs db now corp_id run mission_id mission = Ok inputs →
  forallb representable inputs = true →
  hard_breaker_reached db now corp_id run_id false =
    Ok match strongest_breaker_stage inputs with
       | Some (stage, _, _, _) => breaker_is_hard stage
       | None => false
       end.
Proof.
  intros Hrow Hin Hrep. rewrite strongest_hard, inputs_reached by done.
  destruct (active_row_ok _ _ _ _ _ _ Hrow) as (Hrun & Hm & Hcorp).
  unfold hard_breaker_reached. rewrite Hrun. cbn [mbind option_bind].
  rewrite Hcorp, N.eqb_refl. cbn [with_context mbind result_bind].
  rewrite Hm. cbn [with_context mbind result_bind].
  unfold breaker_inputs in Hin. res_inv.
  repeat match goal with H : _ = Ok _ |- _ => rewrite H; cbn [mbind result_bind] end.
  simpl. f_equal. by rewrite !orb_assoc, orb_false_r.
Qed.

Lemma hard_tests_agree_witness :
  hard_breaker_reached (sample_breaker 1000) 0 1 60 false = Ok true.
Proof.
  pose (inputs := match breaker_inputs (sample_breaker 1000) 0 1 (sample_run 1000 "healthy") 30
                          (BMission 1 5 10 5000 2000) with Ok inputs => inputs | _ => [] end).
  rewrite (hard_tests_agree (sample_breaker 1000) 0 1 60 (sample_run 1000 "healthy") 30
    (BMission 1 5 10 5000 2000) inputs); vm_compute; reflexivity.
Defined.

(** Only a human owner or admin of the corp changes its budget policy, and
    only to positive budgets and loop limits between 2 and 100: any other call
    leaves the store as it was, and an accepted one stores the policy it was
    given, appends one event and changes nothing else. *)
Theorem budget_policy_is_guarded `{Serde} fresh corp_id actor_id policy db :
  let db' := (run_txn (set_budget_policy fresh corp_id actor_id policy) db).2 in
  db' = db ∨
  (∃ a, dir_actors (b_directory db) !! actor_id = Some a ∧ actor_corp a = corp_id ∧
     actor_kind a = "human" ∧ (actor_role a = "owner" ∨ actor_role a = "admin")) ∧
  (0 < bp_actor_tokens policy ∧ 0 < bp_actor_cost policy ∧ 0 < bp_corp_tokens policy ∧
   0 < bp_corp_cost policy ∧ 2 ≤ bp_no_progress_event_limit policy ≤ 100 ∧
   2 ≤ bp_repeated_tool_limit policy ≤ 100)%Z ∧
  ∃ event, db' = set_log (b_log db ++ [event]) (set_policies <[corp_id := policy]> db).
Proof.
  intros db'. unfold db', run_txn.
  destruct (set_budget_policy fresh corp_id actor_id policy db) as [[e db1]|] eqn:E; [right | by left].
  unfold set_budget_policy in E. txn_inv.
  repeat match goal with H : bail_if _ _ = Ok _ |- _ => apply bail_if_ok in H end. res_inv.
  unfold in_range in *. split_and!; try lia; [| by eexists].
  destruct (dir_actors (b_directory db) !! actor_id) as [a|]; simpl in *; [| done].
  exists a. destruct ((actor_corp a =? corp_id)%N && seqb (actor_kind a) "human") eqn:Ea; [| done].
  res_inv. rewrite ?N.eqb_eq, ?seqb_eq in *. split_and!; try done.
  match goal with H : seqb _ _ || _ = true |- _ => rewrite orb_false_r, orb_true_iff, !seqb_eq in H end.
  naive_solver.
Qed.
