(* ===== verification/ExecTables.v ===== *)
(** * The tables of mission execution (crates/crony-store/src/lib.rs, db/migrations)

    Missions own task graphs, tasks are executed by runs on agents, runs gather
    verifier evidence and may wait for humans.  [exec_db] holds those tables,
    split by what the theorems need: [exec_core] has the rows that decide when
    work is accepted (missions, tasks, dependencies, runs, evidence,
    verification requests), [exec_side] the rows that execution reads and writes
    on the way (agents, action approvals, queued messages, runner commands,
    artifacts, deliverables, recoveries, Factory items), [exec_base] what it
    only reads (actors, rooms, runners, budget policies, connections).  The
    directory, the Factory tables and the breaker tables that the other
    components work on are views of this database. *)
From S2P Require Import Prelude Text Json Domain Planning FactoryPolicy Store FactoryItems Breaker.

(** ** Rows *)
Record x_mission := XMission {
  mi_corp : uuid; mi_room : uuid; mi_requested_by : uuid; mi_title : string;
  mi_description : string; mi_strategy : string; mi_max_nodes : Z; mi_max_depth : Z;
  mi_budget_tokens : Z; mi_budget_cost_microusd : Z; mi_status : mission_status; }.
Definition set_mi_status (v : mission_status) (m : x_mission) : x_mission :=
  XMission (mi_corp m) (mi_room m) (mi_requested_by m) (mi_title m) (mi_description m)
    (mi_strategy m) (mi_max_nodes m) (mi_max_depth m) (mi_budget_tokens m)
    (mi_budget_cost_microusd m) v.

Record x_task := XTask {
  ta_mission : uuid; ta_corp : uuid; ta_title : string; ta_plan_key : string;
  ta_contract : task_contract; ta_depth : Z; ta_max_attempts : Z; ta_attempt_count : Z;
  ta_required_adapter : option string; ta_status : task_status; ta_assigned_agent : option uuid;
  ta_policy : verification_policy; ta_verification_status : string; ta_created_at : timestamp; }.
Definition set_ta_status (v : task_status) (t : x_task) : x_task :=
  XTask (ta_mission t) (ta_corp t) (ta_title t) (ta_plan_key t) (ta_contract t) (ta_depth t)
    (ta_max_attempts t) (ta_attempt_count t) (ta_required_adapter t) v (ta_assigned_agent t)
    (ta_policy t) (ta_verification_status t) (ta_created_at t).
Definition set_ta_verification_status (v : string) (t : x_task) : x_task :=
  XTask (ta_mission t) (ta_corp t) (ta_title t) (ta_plan_key t) (ta_contract t) (ta_depth t)
    (ta_max_attempts t) (ta_attempt_count t) (ta_required_adapter t) (ta_status t)
    (ta_assigned_agent t) (ta_policy t) v (ta_created_at t).
Definition set_ta_attempt_count (v : Z) (t : x_task) : x_task :=
  XTask (ta_mission t) (ta_corp t) (ta_title t) (ta_plan_key t) (ta_contract t) (ta_depth t)
    (ta_max_attempts t) v (ta_required_adapter t) (ta_status t) (ta_assigned_agent t) (ta_policy
    t) (ta_verification_status t) (ta_created_at t).

(** The columns of a run that are set when it is created. *)
Record run_binding := RunBinding {
  rb_corp : uuid; rb_task : uuid; rb_agent : uuid; rb_runner : string; rb_assignment_token : uuid;
  rb_execution_mode : string; rb_resumed_from : option uuid; rb_workspace_run : uuid;
  rb_source_repository : option string; rb_source_base_ref : option string;
  rb_source_base_commit : option string; rb_model : option string;
  rb_reasoning_effort : option string; rb_budget_tokens_limit : Z;
  rb_budget_cost_microusd_limit : Z; rb_created_at : timestamp; }.

Record run_usage := RunUsage {
  ru_input_tokens : Z; ru_output_tokens : Z; ru_cost_microusd : Z; ru_no_progress_events : Z;
  ru_repeated_tool_count : Z; ru_last_tool_signature : option string; }.

Record run_workspace := RunWorkspace {
  rw_path : option string; rw_branch : option string; rw_base_ref : option string;
  rw_base_commit : option string; rw_disposition : option string; rw_detail : option string;
  rw_fingerprint : option string; }.
Definition set_rw_disposition (v : option string) (w : run_workspace) : run_workspace :=
  RunWorkspace (rw_path w) (rw_branch w) (rw_base_ref w) (rw_base_commit w) v (rw_detail w)
    (rw_fingerprint w).
Definition set_rw_detail (v : option string) (w : run_workspace) : run_workspace :=
  RunWorkspace (rw_path w) (rw_branch w) (rw_base_ref w) (rw_base_commit w) (rw_disposition w) v
    (rw_fingerprint w).
Definition set_rw_fingerprint (v : option string) (w : run_workspace) : run_workspace :=
  RunWorkspace (rw_path w) (rw_branch w) (rw_base_ref w) (rw_base_commit w) (rw_disposition w)
    (rw_detail w) v.

Record x_run := XRun {
  rn_binding : run_binding; rn_status : run_status; rn_verification_status : string;
  rn_verification_summary : option string; rn_summary : option string;
  rn_verification_sha256 : option string; rn_deliverable_sha256 : option string;
  rn_breaker_stage : string; rn_session : option string; rn_connection : option uuid;
  rn_artifact : option uuid; rn_usage : run_usage; rn_workspace : run_workspace; }.
Definition set_rn_status (v : run_status) (r : x_run) : x_run :=
  XRun (rn_binding r) v (rn_verification_status r) (rn_verification_summary r) (rn_summary r)
    (rn_verification_sha256 r) (rn_deliverable_sha256 r) (rn_breaker_stage r) (rn_session r)
    (rn_connection r) (rn_artifact r) (rn_usage r) (rn_workspace r).
Definition set_rn_verification_status (v : string) (r : x_run) : x_run :=
  XRun (rn_binding r) (rn_status r) v (rn_verification_summary r) (rn_summary r)
    (rn_verification_sha256 r) (rn_deliverable_sha256 r) (rn_breaker_stage r) (rn_session r)
    (rn_connection r) (rn_artifact r) (rn_usage r) (rn_workspace r).
Definition set_rn_verification_summary (v : option string) (r : x_run) : x_run :=
  XRun (rn_binding r) (rn_status r) (rn_verification_status r) v (rn_summary r)
    (rn_verification_sha256 r) (rn_deliverable_sha256 r) (rn_breaker_stage r) (rn_session r)
    (rn_connection r) (rn_artifact r) (rn_usage r) (rn_workspace r).
Definition set_rn_summary (v : option string) (r : x_run) : x_run :=
  XRun (rn_binding r) (rn_status r) (rn_verification_status r) (rn_verification_summary r) v
    (rn_verification_sha256 r) (rn_deliverable_sha256 r) (rn_breaker_stage r) (rn_session r)
    (rn_connection r) (rn_artifact r) (rn_usage r) (rn_workspace r).
Definition set_rn_verification_sha256 (v : option string) (r : x_run) : x_run :=
  XRun (rn_binding r) (rn_status r) (rn_verification_status r) (rn_verification_summary r)
    (rn_summary r) v (rn_deliverable_sha256 r) (rn_breaker_stage r) (rn_session r) (rn_connection
    r) (rn_artifact r) (rn_usage r) (rn_workspace r).
Definition set_rn_deliverable_sha256 (v : option string) (r : x_run) : x_run :=
  XRun (rn_binding r) (rn_status r) (rn_verification_status r) (rn_verification_summary r)
    (rn_summary r) (rn_verification_sha256 r) v (rn_breaker_stage r) (rn_session r) (rn_connection
    r) (rn_artifact r) (rn_usage r) (rn_workspace r).
Definition set_rn_session (v : option string) (r : x_run) : x_run :=
  XRun (rn_binding r) (rn_status r) (rn_verification_status r) (rn_verification_summary r)
    (rn_summary r) (rn_verification_sha256 r) (rn_deliverable_sha256 r) (rn_breaker_stage r) v
    (rn_connection r) (rn_artifact r) (rn_usage r) (rn_workspace r).
Definition set_rn_connection (v : option uuid) (r : x_run) : x_run :=
  XRun (rn_binding r) (rn_status r) (rn_verification_status r) (rn_verification_summary r)
    (rn_summary r) (rn_verification_sha256 r) (rn_deliverable_sha256 r) (rn_breaker_stage r)
    (rn_session r) v (rn_artifact r) (rn_usage r) (rn_workspace r).
Definition set_rn_usage (v : run_usage) (r : x_run) : x_run :=
  XRun (rn_binding r) (rn_status r) (rn_verification_status r) (rn_verification_summary r)
    (rn_summary r) (rn_verification_sha256 r) (rn_deliverable_sha256 r) (rn_breaker_stage r)
    (rn_session r) (rn_connection r) (rn_artifact r) v (rn_workspace r).
Definition set_rn_workspace (v : run_workspace) (r : x_run) : x_run :=
  XRun (rn_binding r) (rn_status r) (rn_verification_status r) (rn_verification_summary r)
    (rn_summary r) (rn_verification_sha256 r) (rn_deliverable_sha256 r) (rn_breaker_stage r)
    (rn_session r) (rn_connection r) (rn_artifact r) (rn_usage r) v.

Record x_evidence := XEvidence {
  ve_id : uuid; ve_corp : uuid; ve_task : uuid; ve_run : uuid; ve_check_index : Z;
  ve_kind : string; ve_status : string; ve_summary : string; ve_payload : json;
  ve_created_at : timestamp; }.

(** A verification request; its run is the key of the table. *)
Record x_request := XRequest {
  rq_corp : uuid; rq_task : uuid; rq_gate_type : string; rq_gate : manual_verification_gate;
  rq_status : string; rq_decided_by : option uuid; rq_decision_note : option string;
  rq_decision_key : option uuid; }.

Record x_agent := XAgent {
  xa_corp : uuid; xa_actor : uuid; xa_name : string; xa_role : string; xa_adapter : string;
  xa_status : agent_status; xa_station : option string; xa_current_run : option uuid;
  xa_mission : option uuid; xa_retired_at : option timestamp; xa_pinned : bool; }.
Definition set_agent_desk (status : agent_status) (station : option string) (a : x_agent) : x_agent :=
  XAgent (xa_corp a) (xa_actor a) (xa_name a) (xa_role a) (xa_adapter a) status station
    (xa_current_run a) (xa_mission a) (xa_retired_at a) (xa_pinned a).
Definition set_agent_run (run : option uuid) (a : x_agent) : x_agent :=
  XAgent (xa_corp a) (xa_actor a) (xa_name a) (xa_role a) (xa_adapter a) (xa_status a) (xa_station a)
    run (xa_mission a) (xa_retired_at a) (xa_pinned a).
Definition set_agent_retired (at_ : option timestamp) (a : x_agent) : x_agent :=
  XAgent (xa_corp a) (xa_actor a) (xa_name a) (xa_role a) (xa_adapter a) (xa_status a) (xa_station a)
    (xa_current_run a) (xa_mission a) at_ (xa_pinned a).

Record x_approval := XApproval {
  ap_corp : uuid; ap_room : uuid; ap_mission : uuid; ap_task : uuid; ap_run : uuid;
  ap_agent : uuid; ap_action_key : string; ap_action : string; ap_risk : string;
  ap_rationale : string; ap_required_roles : list string; ap_status : string;
  ap_expires_at : timestamp; ap_decided_by : option uuid; ap_decision_note : option string;
  ap_decision_key : option uuid; }.
Definition decide_approval_row (status : string) (actor : option uuid) (note : string)
    (key : option uuid) (a : x_approval) : x_approval :=
  XApproval (ap_corp a) (ap_room a) (ap_mission a) (ap_task a) (ap_run a) (ap_agent a)
    (ap_action_key a) (ap_action a) (ap_risk a) (ap_rationale a) (ap_required_roles a) status
    (ap_expires_at a) actor (Some note) key.

Record x_message := XMessage {
  xq_id : uuid; xq_corp : uuid; xq_agent : uuid; xq_actor : uuid; xq_text : string;
  xq_status : string; xq_run : option uuid; xq_created_at : timestamp; }.
Definition set_message_delivery (status : string) (run : option uuid) (q : x_message) : x_message :=
  XMessage (xq_id q) (xq_corp q) (xq_agent q) (xq_actor q) (xq_text q) status run (xq_created_at q).

Record x_command := XCommand {
  xc_id : uuid; xc_corp : uuid; xc_runner : string; xc_run : uuid; xc_kind : string;
  xc_payload : json; xc_key : string; xc_status : string; }.
Definition set_xc_status (v : string) (c : x_command) : x_command :=
  XCommand (xc_id c) (xc_corp c) (xc_runner c) (xc_run c) (xc_kind c) (xc_payload c) (xc_key c) v.

Record x_artifact := XArtifact {
  af_corp : uuid; af_task : uuid; af_run : uuid; af_producer_agent : uuid;
  af_producer_runner : string; af_verifier : string; af_uri : string; af_sha256 : string;
  af_media_type : string; af_bytes : Z; af_role : string; af_status : string; af_metadata : json;
  af_provenance_signature : string; af_retention_until : timestamp; af_created_at : timestamp; }.

Record x_deliverable := XDeliverable {
  sd_id : uuid; sd_run : uuid; sd_task : uuid; sd_corp : uuid; sd_artifact : uuid;
  sd_form : string; sd_branch : string; sd_base_commit : string; sd_head_commit : option string;
  sd_verification_sha256 : string; sd_integration_state : string; sd_created_at : timestamp; }.
Definition set_sd_integration_state (v : string) (d : x_deliverable) : x_deliverable :=
  XDeliverable (sd_id d) (sd_run d) (sd_task d) (sd_corp d) (sd_artifact d) (sd_form d)
    (sd_branch d) (sd_base_commit d) (sd_head_commit d) (sd_verification_sha256 d) v
    (sd_created_at d).

Record x_recovery := XRecovery {
  rv_corp : uuid; rv_item : uuid; rv_mission : uuid; rv_task : uuid; rv_source_run : uuid;
  rv_replacement_run : option uuid; rv_mode : string; rv_status : string; rv_request : json;
  rv_checkpoint_authority : option json; rv_contract_revision : option uuid;
  rv_previous_policy : verification_policy; rv_replacement_policy : verification_policy;
  rv_observed_source_revision : string; rv_created_at : timestamp; }.
Definition set_rv_status (v : string) (v0 : x_recovery) : x_recovery :=
  XRecovery (rv_corp v0) (rv_item v0) (rv_mission v0) (rv_task v0) (rv_source_run v0)
    (rv_replacement_run v0) (rv_mode v0) v (rv_request v0) (rv_checkpoint_authority v0)
    (rv_contract_revision v0) (rv_previous_policy v0) (rv_replacement_policy v0)
    (rv_observed_source_revision v0) (rv_created_at v0).

(** A workspace connection joined with its runner; the source is repository, ref and commit. *)
Record x_connection := XConnection {
  cn_corp : uuid; cn_room : uuid; cn_runner : string; cn_runner_node : uuid;
  cn_runner_connected : bool; cn_agent : string; cn_status : string;
  cn_source : option (string * string * string); }.

(** ** The database *)
(** A dependency is (task, the task it depends on). *)
Record exec_core := ExecCore {
  co_missions : gmap uuid x_mission; co_tasks : gmap uuid x_task;
  co_dependencies : list (uuid * uuid); co_runs : gmap uuid x_run; co_evidence : list x_evidence;
  co_requests : gmap uuid x_request; }.
Record exec_side := ExecSide {
  si_agents : gmap uuid x_agent; si_approvals : gmap uuid x_approval;
  si_messages : list x_message; si_commands : list x_command; si_artifacts : gmap uuid x_artifact;
  si_deliverables : list x_deliverable; si_recoveries : gmap uuid x_recovery;
  si_items : gmap uuid (factory_work_item * uuid);
  si_operations : gmap (uuid * string) factory_operation; }.
(** Rooms carry their corp and creation time. *)
Record exec_base := ExecBase {
  ba_corps : gset uuid; ba_actors : gmap uuid actor_row; ba_rooms : gmap uuid (uuid * timestamp);
  ba_memberships : gset (uuid * uuid); ba_runners : gmap uuid uuid;
  ba_connections : gmap uuid x_connection; ba_policies : gmap uuid budget_policy; }.
Record exec_db := ExecDb { x_base : exec_base; x_core : exec_core; x_side : exec_side; x_log : event_log }.

Definition in_core (f : exec_core → exec_core) (db : exec_db) : exec_db :=
  ExecDb (x_base db) (f (x_core db)) (x_side db) (x_log db).
Definition in_side (f : exec_side → exec_side) (db : exec_db) : exec_db :=
  ExecDb (x_base db) (x_core db) (f (x_side db)) (x_log db).
Definition in_base (f : exec_base → exec_base) (db : exec_db) : exec_db :=
  ExecDb (f (x_base db)) (x_core db) (x_side db) (x_log db).

Definition on_missions (f : gmap uuid x_mission → gmap uuid x_mission) : exec_db → exec_db :=
  in_core (λ c, ExecCore (f (co_missions c)) (co_tasks c) (co_dependencies c) (co_runs c)
    (co_evidence c) (co_requests c)).
Definition on_tasks (f : gmap uuid x_task → gmap uuid x_task) : exec_db → exec_db :=
  in_core (λ c, ExecCore (co_missions c) (f (co_tasks c)) (co_dependencies c) (co_runs c)
    (co_evidence c) (co_requests c)).
Definition on_dependencies (f : list (uuid * uuid) → list (uuid * uuid)) : exec_db → exec_db :=
  in_core (λ c, ExecCore (co_missions c) (co_tasks c) (f (co_dependencies c)) (co_runs c)
    (co_evidence c) (co_requests c)).
Definition on_runs (f : gmap uuid x_run → gmap uuid x_run) : exec_db → exec_db :=
  in_core (λ c, ExecCore (co_missions c) (co_tasks c) (co_dependencies c) (f (co_runs c))
    (co_evidence c) (co_requests c)).
Definition on_evidence (f : list x_evidence → list x_evidence) : exec_db → exec_db :=
  in_core (λ c, ExecCore (co_missions c) (co_tasks c) (co_dependencies c) (co_runs c) (f
    (co_evidence c)) (co_requests c)).
Definition on_requests (f : gmap uuid x_request → gmap uuid x_request) : exec_db → exec_db :=
  in_core (λ c, ExecCore (co_missions c) (co_tasks c) (co_dependencies c) (co_runs c) (co_evidence
    c) (f (co_requests c))).
Definition on_agents (f : gmap uuid x_agent → gmap uuid x_agent) : exec_db → exec_db :=
  in_side (λ d, ExecSide (f (si_agents d)) (si_approvals d) (si_messages d) (si_commands d)
    (si_artifacts d) (si_deliverables d) (si_recoveries d) (si_items d) (si_operations d)).
Definition on_approvals (f : gmap uuid x_approval → gmap uuid x_approval) : exec_db → exec_db :=
  in_side (λ d, ExecSide (si_agents d) (f (si_approvals d)) (si_messages d) (si_commands d)
    (si_artifacts d) (si_deliverables d) (si_recoveries d) (si_items d) (si_operations d)).
Definition on_messages (f : list x_message → list x_message) : exec_db → exec_db :=
  in_side (λ d, ExecSide (si_agents d) (si_approvals d) (f (si_messages d)) (si_commands d)
    (si_artifacts d) (si_deliverables d) (si_recoveries d) (si_items d) (si_operations d)).
Definition on_commands (f : list x_command → list x_command) : exec_db → exec_db :=
  in_side (λ d, ExecSide (si_agents d) (si_approvals d) (si_messages d) (f (si_commands d))
    (si_artifacts d) (si_deliverables d) (si_recoveries d) (si_items d) (si_operations d)).
Definition on_deliverables (f : list x_deliverable → list x_deliverable) : exec_db → exec_db :=
  in_side (λ d, ExecSide (si_agents d) (si_approvals d) (si_messages d) (si_commands d)
    (si_artifacts d) (f (si_deliverables d)) (si_recoveries d) (si_items d) (si_operations d)).
Definition on_recoveries (f : gmap uuid x_recovery → gmap uuid x_recovery) : exec_db → exec_db :=
  in_side (λ d, ExecSide (si_agents d) (si_approvals d) (si_messages d) (si_commands d)
    (si_artifacts d) (si_deliverables d) (f (si_recoveries d)) (si_items d) (si_operations d)).
Definition on_items (f : gmap uuid (factory_work_item * uuid) → gmap uuid (factory_work_item * uuid)) : exec_db → exec_db :=
  in_side (λ d, ExecSide (si_agents d) (si_approvals d) (si_messages d) (si_commands d)
    (si_artifacts d) (si_deliverables d) (si_recoveries d) (f (si_items d)) (si_operations d)).
Definition on_actors (f : gmap uuid actor_row → gmap uuid actor_row) : exec_db → exec_db :=
  in_base (λ b, ExecBase (ba_corps b) (f (ba_actors b)) (ba_rooms b) (ba_memberships b)
    (ba_runners b) (ba_connections b) (ba_policies b)).
Definition on_memberships (f : gset (uuid * uuid) → gset (uuid * uuid)) : exec_db → exec_db :=
  in_base (λ b, ExecBase (ba_corps b) (ba_actors b) (ba_rooms b) (f (ba_memberships b))
    (ba_runners b) (ba_connections b) (ba_policies b)).

(** ** The views of the other components *)
Definition mission_view (m : x_mission) : mission_row := MissionRow (mi_corp m) (mi_room m) (mi_status m).
Definition task_view (t : x_task) : task_row :=
  TaskRow (ta_corp t) (ta_mission t) (ta_status t) (ta_verification_status t).
Definition connection_view (c : x_connection) : connection_row :=
  ConnectionRow (cn_corp c) (cn_room c) (cn_runner_node c).
#[global] Instance exec_db_directory : HasDirectory exec_db := λ db,
  Directory (ba_actors (x_base db)) (fst <$> ba_rooms (x_base db)) (ba_memberships (x_base db))
    (mission_view <$> co_missions (x_core db)) (task_view <$> co_tasks (x_core db))
    (ba_runners (x_base db)) (connection_view <$> ba_connections (x_base db)).
#[global] Instance exec_db_log : HasLog exec_db := {|
  get_log := x_log;
  set_log l db := ExecDb (x_base db) (x_core db) (x_side db) l;
|}.
#[global] Instance exec_db_log_laws : HasLogLaws exec_db.
Proof. by split. Qed.

(** The tables of the Factory items. *)
Definition factory_view (db : exec_db) : factory_db :=
  FactoryDb (get_directory db) (si_items (x_side db)) (si_operations (x_side db)) (x_log db).

(** The tables of the circuit breaker. *)
Definition breaker_run (r : x_run) : b_run :=
  let b := rn_binding r in let u := rn_usage r in
  BRun (rb_corp b) (rb_task b) (rb_runner b) (rn_status r) (rn_breaker_stage r) (ru_input_tokens u)
    (ru_output_tokens u) (ru_cost_microusd u) (rb_budget_tokens_limit b)
    (rb_budget_cost_microusd_limit b) (ru_no_progress_events u) (ru_repeated_tool_count u)
    (rb_created_at b).
Definition breaker_mission (m : x_mission) : b_mission :=
  BMission (mi_corp m) (mi_room m) (mi_requested_by m) (mi_budget_tokens m) (mi_budget_cost_microusd m).
Definition breaker_view (db : exec_db) : breaker_db :=
  BreakerDb (ba_corps (x_base db)) (get_directory db) (breaker_run <$> co_runs (x_core db))
    ((λ t, BTask (ta_mission t) (ta_status t)) <$> co_tasks (x_core db))
    (breaker_mission <$> co_missions (x_core db)) (ba_policies (x_base db)) [] [] (x_log db).

(** ** What the handlers take from the world *)
Record exec_env := ExecEnv {
  xe_now : timestamp; xe_run : uuid; xe_token : uuid; xe_command : uuid; xe_mission : uuid;
  xe_mission_event : uuid; xe_tasks : list uuid; xe_actors : list uuid }.

(** Code outside the repository: the derived decoder of a manual gate, the text
    of a JSONB value that is not a string, and SHA-256. *)
Class ExecSerde := {
  decode_manual_gate : json → option manual_verification_gate;
  jsonb_text : json → string;
  json_sha256 : json → string;
  text_sha256 : string → string;
}.

(** [value->>key] on JSONB *)
Definition json_text `{ExecSerde} (key : string) (v : json) : option string :=
  match get key v with
  | None | Some JNull => None
  | Some (JStr s) => Some s
  | Some v => Some (jsonb_text v)
  end.

(** A concrete library, for the witnesses. *)
Definition sample_exec_serde : ExecSerde := {|
  decode_manual_gate v :=
    match get "type" v with
    | Some (JStr "human_approval") => Some (HumanApproval ["owner"])
    | _ => None
    end;
  jsonb_text _ := "";
  json_sha256 _ := "";
  text_sha256 s := s;
|}.

(** ** Small operations the handlers share *)
Definition no_rows : string := "no rows returned by a query that expected to return at least one row".
Definition duplicate_key : string := "duplicate key value violates unique constraint".

Definition fetch_one {A} (q : exec_db → option A) (message : string) : txn exec_db A :=
  r ← gets q; lift (with_context r message).
(** A query that can fail. *)
Definition read_db {A} (f : exec_db → result A) : txn exec_db A := λ db, lift (f db) db.
Definition require_new (taken : exec_db → bool) : txn exec_db unit :=
  t ← gets taken; lift (bail_if t duplicate_key).

(** INTEGER and BIGINT columns *)
Definition int4 (z : Z) : result Z := with_context (checked_i32 z) "integer out of range".
Definition int8 (z : Z) : result Z := with_context (checked_i64 z) "bigint out of range".

(** The statuses of the queries' IN lists. *)
Definition run_active (s : run_status) : bool :=
  match s with
  | RunStatus.Provisioning | RunStatus.Starting | RunStatus.Running | RunStatus.WaitingForInput
  | RunStatus.WaitingForApproval | RunStatus.Verifying => true
  | _ => false
  end.
Definition run_terminal (s : run_status) : bool := negb (run_active s).
Definition mission_open (s : mission_status) : bool :=
  bool_decide (s = MissionStatus.Ready) || bool_decide (s = MissionStatus.Running).

Definition run_of (db : exec_db) (id : uuid) : option x_run := co_runs (x_core db) !! id.
Definition task_of (db : exec_db) (id : uuid) : option x_task := co_tasks (x_core db) !! id.
Definition mission_of (db : exec_db) (id : uuid) : option x_mission := co_missions (x_core db) !! id.
Definition agent_of (db : exec_db) (id : uuid) : option x_agent := si_agents (x_side db) !! id.

(** Runs joined with task and mission, all of the corp. *)
Definition run_joined (db : exec_db) (corp run_id : uuid) : option (x_run * x_task * x_mission) :=
  r ← run_of db run_id;
  t ← task_of db (rb_task (rn_binding r));
  m ← mission_of db (ta_mission t);
  if (rb_corp (rn_binding r) =? corp)%N && (ta_corp t =? corp)%N && (mi_corp m =? corp)%N
  then Some (r, t, m) else None.

(** UPDATE .. WHERE id = .. *)
Definition update_run (id : uuid) (f : x_run → x_run) : exec_db → exec_db := on_runs (alter f id).
Definition update_task (id : uuid) (f : x_task → x_task) : exec_db → exec_db := on_tasks (alter f id).
Definition update_agent (id : uuid) (f : x_agent → x_agent) : exec_db → exec_db := on_agents (alter f id).
Definition update_mission (id : uuid) (f : x_mission → x_mission) : exec_db → exec_db :=
  on_missions (alter f id).

(** UPDATE missions SET status = .. WHERE id = .. AND status IN ('ready', 'running') *)
Definition set_open_mission (id : uuid) (status : mission_status) : exec_db → exec_db :=
  update_mission id (λ m, if mission_open (mi_status m) then set_mi_status status m else m).

(** UPDATE agents SET status = 'idle', station = NULL, current_run_id = NULL WHERE id = .. *)
Definition release_agent (id : uuid) : exec_db → exec_db :=
  update_agent id (λ a, set_agent_run None (set_agent_desk AgentStatus.Idle None a)).
(** .. AND current_run_id = .. *)
Definition release_agent_of (id run_id : uuid) : exec_db → exec_db :=
  update_agent id (λ a, if bool_decide (xa_current_run a = Some run_id)
                        then set_agent_run None (set_agent_desk AgentStatus.Idle None a) else a).

Definition set_task_statuses (status : task_status) (verification : string) (t : x_task) : x_task :=
  set_ta_status status (set_ta_verification_status verification t).
Definition set_run_statuses (status : run_status) (verification : string) (r : x_run) : x_run :=
  set_rn_status status (set_rn_verification_status verification r).

(** The latest run of a task: ORDER BY created_at DESC, id DESC LIMIT 1. *)
Definition later_run (x y : uuid * x_run) : bool :=
  let cx := rb_created_at (rn_binding x.2) in let cy := rb_created_at (rn_binding y.2) in
  (cy <? cx)%Z || ((cx =? cy)%Z && (y.1 <=? x.1)%N).
Definition runs_where (p : uuid → x_run → bool) (db : exec_db) : list (uuid * x_run) :=
  sort_by later_run (List.filter (λ x, p x.1 x.2) (map_to_list (co_runs (x_core db)))).
Definition latest_run_of_task (corp task_id : uuid) (db : exec_db) : option uuid :=
  fst <$> head (runs_where (λ _ r, (rb_task (rn_binding r) =? task_id)%N
                                   && (rb_corp (rn_binding r) =? corp)%N) db).

(** A task's dependencies are all completed (a dependency on a missing task does not join). *)
Definition dependencies_done (db : exec_db) (task_id : uuid) : bool :=
  forallb (λ '(t, parent), negb (t =? task_id)%N
             || match task_of db parent with
                | Some p => bool_decide (ta_status p = TaskStatus.Completed)
                | None => true
                end) (co_dependencies (x_core db)).

(** UPDATE tasks child SET status = 'ready' WHERE .. every parent is completed. *)
Definition release_children (mission_id : uuid) (db : exec_db) : exec_db :=
  on_tasks (map_imap (λ id t,
    Some (if (ta_mission t =? mission_id)%N && bool_decide (ta_status t = TaskStatus.Pending)
             && dependencies_done db id
          then set_ta_status TaskStatus.Ready t else t))) db.

Definition mission_complete (mission_id : uuid) (db : exec_db) : bool :=
  forallb (λ '(_, t), negb (ta_mission t =? mission_id)%N
                      || bool_decide (ta_status t = TaskStatus.Completed))
    (map_to_list (co_tasks (x_core db))).

(** The item of a mission. *)
Definition item_of_mission (corp mission_id : uuid) (db : exec_db) :
    option (factory_work_item * uuid) :=
  snd <$> find (λ '(_, (item, _)), (fw_corp_id item =? corp)%N
                                   && bool_decide (fw_mission_id item = Some mission_id))
            (map_to_list (si_items (x_side db))).
