(* ===== verification/Checkpoint.v ===== *)
(** * Workspace checkpoints (crates/crony-store: lib.rs, checkpoint_retention.rs, budget_checkpoint.rs)

    The read-only queries by which execution decides what a terminal run left
    behind: the checkpoint of a source workspace and the recovery that governs
    it, the head commit of an export whose artifact is still retained, the
    zero-provider allocation that exempts a verifier from the provider budgets,
    the lineage of a workspace, and the hard breaker over all of them. *)
From S2P Require Import Prelude Text Json Domain Planning Deliverable FactoryPolicy Store FactoryItems Breaker ExecTables.

(** ** Comparisons of nullable columns: [=] is false on NULL, IS NOT DISTINCT FROM is equality *)
Definition sql_eq {A} `{EqDecision A} (a b : option A) : bool :=
  match a, b with Some x, Some y => bool_decide (x = y) | _, _ => false end.
Definition not_distinct {A} `{EqDecision A} (a b : option A) : bool := bool_decide (a = b).

Definition valid_sha256 (value : string) : bool :=
  (str_len value =? 64)%Z && all_bytes is_ascii_hexdigit value
  && all_bytes (λ c, negb (is_ascii_uppercase c)) value.

(** [contract#>>'{deliverable,form}'] and [contract#>>'{deliverable,commit_after_verification}'] *)
Definition contract_form (c : task_contract) : option string := form_as_str ∘ ds_form <$> tc_deliverable c.
Definition contract_commits_after (c : task_contract) : bool :=
  match tc_deliverable c with Some d => ds_commit_after_verification d | None => false end.
Definition expects_verification_commit (c : task_contract) : bool :=
  sql_eq (contract_form c) (Some "commit_branch") || contract_commits_after c.

(** Two runs of one assignment: corp, task, agent, runner and workspace. *)
Definition same_assignment (a b : run_binding) : bool :=
  (rb_corp a =? rb_corp b)%N && (rb_task a =? rb_task b)%N && (rb_agent a =? rb_agent b)%N
  && seqb (rb_runner a) (rb_runner b) && (rb_workspace_run a =? rb_workspace_run b)%N.
Definition same_source_identity (a b : run_binding) : bool :=
  not_distinct (rb_source_repository a) (rb_source_repository b)
  && not_distinct (rb_source_base_ref a) (rb_source_base_ref b)
  && not_distinct (rb_source_base_commit a) (rb_source_base_commit b).

Section checkpoint.
Context `{ExecSerde}.

(** The item of a recovery belongs to the corp and the mission of the run. *)
Definition recovery_item_bound (db : exec_db) (corp mission : uuid) (v : x_recovery) : bool :=
  match si_items (x_side db) !! rv_item v with
  | Some (item, _) => (fw_corp_id item =? corp)%N && not_distinct (fw_mission_id item) (Some mission)
  | None => false
  end.
Definition recovery_mode_fits (execution_mode : string) (v : x_recovery) : bool :=
  (mem (rv_mode v) ["verifier_only"; "checkpoint_verification"] && seqb execution_mode "verification_only")
  || (seqb (rv_mode v) "source_correction" && seqb execution_mode "provider").

(** The recovery whose replacement is the run; the column is UNIQUE. *)
Definition replaces (run_id corp task mission : uuid) (v : x_recovery) : bool :=
  not_distinct (rv_replacement_run v) (Some run_id) && (rv_corp v =? corp)%N && (rv_task v =? task)%N
  && (rv_mission v =? mission)%N.
Definition recovery_where (p : x_recovery → bool) (db : exec_db) : option (uuid * x_recovery) :=
  find (λ v, p v.2) (map_to_list (si_recoveries (x_side db))).
Definition governing_recovery (db : exec_db) (run_id : uuid) (r : x_run) (t : x_task) :
    option (uuid * x_recovery) :=
  let b := rn_binding r in
  recovery_where (λ v, replaces run_id (rb_corp b) (rb_task b) (ta_mission t) v
                       && recovery_mode_fits (rb_execution_mode b) v
                       && recovery_item_bound db (rb_corp b) (ta_mission t) v) db.

Definition deliverable_of (db : exec_db) (run_id : uuid) (b : run_binding) : option x_deliverable :=
  find (λ d, (sd_run d =? run_id)%N && (sd_task d =? rb_task b)%N && (sd_corp d =? rb_corp b)%N)
    (si_deliverables (x_side db)).

Definition expected_fingerprint (v : x_recovery) : option string :=
  json_text "expected_workspace_fingerprint" (rv_request v).

(** The run a recovery continues, still bound to the same assignment and bytes. *)
Definition previous_run (db : exec_db) (r : x_run) (v : x_recovery) : option (uuid * x_run) :=
  previous ← run_of db (rv_source_run v);
  if not_distinct (rb_resumed_from (rn_binding r)) (Some (rv_source_run v))
     && same_assignment (rn_binding previous) (rn_binding r)
     && same_source_identity (rn_binding previous) (rn_binding r)
     && sql_eq (rw_fingerprint (rn_workspace previous)) (expected_fingerprint v)
  then Some (rv_source_run v, previous) else None.

(** *** [exported_head_tx] *)
Definition retained_export (now : timestamp) (db : exec_db) (run_id : uuid) (r : x_run) (t : x_task)
    (v : x_recovery) (source : x_run) (d : x_deliverable) : option string :=
  let b := rn_binding r in let w := rn_workspace r in let s := rn_binding source in
  let sw := rn_workspace source in let c := ta_contract t in
  artifact ← si_artifacts (x_side db) !! sd_artifact d;
  authority ← rv_checkpoint_authority v;
  checkpoint ← get "checkpoint" authority;
  if same_assignment s b
     && sql_eq (rw_branch sw) (rw_branch w) && sql_eq (rw_base_commit sw) (rw_base_commit w)
     && sql_eq (rb_source_repository s) (rb_source_repository b)
     && sql_eq (rb_source_base_ref s) (rb_source_base_ref b)
     && sql_eq (rb_source_base_commit s) (rb_source_base_commit b)
     && sql_eq (rw_disposition sw) (Some "preserved")
     && sql_eq (rw_fingerprint sw) (expected_fingerprint v)
     && (sd_run d =? run_id)%N && (sd_task d =? rb_task b)%N && (sd_corp d =? rb_corp b)%N
     && (af_corp artifact =? rb_corp b)%N && (af_run artifact =? run_id)%N
     && (af_task artifact =? rb_task b)%N && (af_producer_agent artifact =? rb_agent b)%N
     && seqb (af_producer_runner artifact) (rb_runner b) && seqb (af_role artifact) "source_deliverable"
     && seqb (af_status artifact) "ready" && seqb (rb_execution_mode b) "verification_only"
     && negb (is_some (rn_session r)) && negb (is_some (rb_model b)) && negb (is_some (rb_reasoning_effort b))
     && negb (not_distinct (rw_disposition w) (Some "quarantined"))
     && negb (is_some (rv_contract_revision v))
     && bool_decide (rv_previous_policy v = rv_replacement_policy v)
     && bool_decide (rv_replacement_policy v = ta_policy t)
     && sql_eq (expected_fingerprint v) (json_text "workspace_fingerprint" checkpoint)
     && sql_eq (Some (af_sha256 artifact)) (rn_deliverable_sha256 r)
     && sql_eq (Some (sd_verification_sha256 d)) (rn_verification_sha256 r)
     && sql_eq (json_text "verification_sha256" (af_metadata artifact)) (Some (sd_verification_sha256 d))
     && sql_eq (json_text "head_commit" (af_metadata artifact)) (sd_head_commit d)
     && sql_eq (json_text "base_commit" (af_metadata artifact)) (Some (sd_base_commit d))
     && sql_eq (json_text "branch" (af_metadata artifact)) (Some (sd_branch d))
     && sql_eq (json_text "form" (af_metadata artifact)) (Some (sd_form d))
     && sql_eq (Some (sd_base_commit d)) (rb_source_base_commit b) && sql_eq (Some (sd_base_commit d)) (rw_base_commit w)
     && sql_eq (Some (sd_branch d)) (rw_branch w) && sql_eq (Some (sd_form d)) (contract_form c)
     && (seqb (sd_form d) "commit_branch" || contract_commits_after c)
     && sql_eq (tc_source_repository c) (rb_source_repository b)
     && sql_eq (tc_source_base_ref c) (rb_source_base_ref b)
     && sql_eq (tc_source_base_commit c) (rb_source_base_commit b)
     && (now <? af_retention_until artifact)%Z
  then sd_head_commit d else None.

Definition exported_heads (now : timestamp) (corp run_id : uuid) (db : exec_db) : list string :=
  default [] (
    r ← run_of db run_id;
    t ← task_of db (rb_task (rn_binding r));
    v ← recovery_where (λ v, replaces run_id (rb_corp (rn_binding r)) (rb_task (rn_binding r)) (ta_mission t) v
                             && seqb (rv_mode v) "checkpoint_verification"
                             && recovery_item_bound db (rb_corp (rn_binding r)) (ta_mission t) v) db;
    source ← run_of db (rv_source_run v.2);
    if (rb_corp (rn_binding r) =? corp)%N && (ta_corp t =? corp)%N
       && not_distinct (rb_resumed_from (rn_binding r)) (Some (rv_source_run v.2))
    then Some (omap (retained_export now db run_id r t v.2 source) (si_deliverables (x_side db)))
    else None).

Definition exported_head (now : timestamp) (corp run_id : uuid) (db : exec_db) : result (option string) :=
  match exported_heads now corp run_id db with
  | [] => Ok None
  | [head] => validate_factory_base_commit head;; Ok (Some head)
  | _ => Err "checkpoint export has ambiguous artifact provenance"
  end.

(** *** [source_workspace_checkpoint_tx] *)
Record source_workspace_checkpoint := SourceWorkspaceCheckpoint {
  sw_status : run_status; sw_execution_mode : string; sw_source_correction_recovery : bool;
  sw_verification_status : string; sw_workspace_path : option string; sw_disposition : option string;
  sw_fingerprint : option string; sw_expected_verifier_fingerprint : option string;
  sw_expected_head_commit : option string }.

Definition checkpoint_head_commit (deliverable_head authorized_head : option string) :
    result (option string) :=
  match deliverable_head, authorized_head with
  | Some deliverable, Some authorized =>
      bail_if (negb (seqb deliverable authorized))
        "verifier source head conflicts with its authorized checkpoint";;
      Ok (Some authorized)
  | Some deliverable, None => Ok (Some deliverable)
  | None, _ => Ok authorized_head
  end.

Definition verifier_checkpoint (now : timestamp) (corp run_id : uuid) (db : exec_db) (r : x_run)
    (t : x_task) (recovery : option (uuid * x_recovery)) (previous : option (uuid * x_run))
    (head : option string) : result (string * option string) :=
  let status_failed v := seqb (rv_status v) "failed" in
  bail_if (negb (is_some recovery) || negb (is_some previous)
           || (bool_decide (rn_status r = RunStatus.Lost)
               && negb match recovery with Some v => status_failed v.2 | None => false end))
    "verifier source checkpoint has no matching recovery lineage";;
  fingerprint ← with_context
    (v ← recovery; f ← expected_fingerprint v.2; if valid_sha256 f then Some f else None)
    "verifier source checkpoint omitted its authorized fingerprint";
  exported ← exported_head now corp run_id db;
  bail_if (match recovery with Some v => seqb (rv_mode v.2) "checkpoint_verification" | None => false end
           && expects_verification_commit (ta_contract t) && is_some (rn_deliverable_sha256 r)
           && negb (is_some exported))
    "checkpoint export head has no exact ready artifact binding";;
  head ← match exported with
         | Some exported' =>
             if not_distinct head (Some exported') then Ok (Some exported')
             else checkpoint_head_commit head (v ← recovery; json_text "expected_head_commit" (rv_request v.2))
         | None =>
             checkpoint_head_commit head (v ← recovery; json_text "expected_head_commit" (rv_request v.2))
         end;
  Ok (fingerprint, head).

Definition source_workspace_checkpoint_of (now : timestamp) (corp run_id : uuid) (db : exec_db) :
    result source_workspace_checkpoint :=
  row ← with_context
    (r ← run_of db run_id; t ← task_of db (rb_task (rn_binding r));
     if (rb_corp (rn_binding r) =? corp)%N && (ta_corp t =? corp)%N then Some (r, t) else None)
    "source workspace checkpoint was not found";
  let '(r, t) := row in
  let recovery := governing_recovery db run_id r t in
  let previous := v ← recovery; previous_run db r v.2 in
  let mode := rb_execution_mode (rn_binding r) in
  let correction := seqb mode "provider"
    && match recovery with
       | Some v => seqb (rv_mode v.2) "source_correction" && seqb (rv_status v.2) "failed"
       | None => false
       end && is_some previous in
  let head := d ← deliverable_of db run_id (rn_binding r); sd_head_commit d in
  verified ← (if seqb mode "verification_only" then
                v ← verifier_checkpoint now corp run_id db r t recovery previous head;
                Ok (Some v.1, v.2)
              else Ok (None, head));
  let '(expected, head) := verified in
  match head with Some head => validate_factory_base_commit head | None => Ok tt end;;
  let w := rn_workspace r in
  Ok (SourceWorkspaceCheckpoint (rn_status r) mode correction (rn_verification_status r) (rw_path w)
        (rw_disposition w) (rw_fingerprint w) expected head).

Definition factory_recovery_source_is_terminal (status : run_status) (execution_mode : string) : bool :=
  bool_decide (status = RunStatus.Failed) || bool_decide (status = RunStatus.Cancelled)
  || (bool_decide (status = RunStatus.Lost) && seqb execution_mode "verification_only").

Definition validate_report (c : source_workspace_checkpoint) (fingerprint : string)
    (reported_head : option string) : result unit :=
  bail_if match sw_expected_verifier_fingerprint c with
          | Some expected => negb (seqb expected fingerprint)
          | None => false
          end "verifier workspace fingerprint does not match its authorization";;
  match reported_head with
  | Some head =>
      validate_factory_base_commit head;;
      bail_if match sw_expected_head_commit c with
              | Some expected => negb (seqb expected head)
              | None => false
              end "verifier workspace head does not match its authorization"
  | None => Ok tt
  end.

Definition ensure_factory_terminal (c : source_workspace_checkpoint) : result unit :=
  let terminal := factory_recovery_source_is_terminal (sw_status c) (sw_execution_mode c)
    || (bool_decide (sw_status c = RunStatus.Lost) && sw_source_correction_recovery c) in
  bail_if (negb terminal || negb (seqb (sw_verification_status c) "failed"))
    "factory recovery requires failed verification on a terminal source or an exactly bound lost recovery".

Definition ensure_preserved (c : source_workspace_checkpoint) : result unit :=
  bail_if (negb (not_distinct (sw_disposition c) (Some "preserved"))
           || match sw_workspace_path c with Some path => is_empty path | None => true end)
    "source run has no confirmed preserved workspace checkpoint";;
  (if is_some (sw_expected_verifier_fingerprint c) then
     fingerprint ← with_context (sw_fingerprint c)
       "verifier-only source has no confirmed workspace fingerprint";
     validate_report c fingerprint None
   else Ok tt);;
  bail_if (bool_decide (sw_status c = RunStatus.Lost) && sw_source_correction_recovery c
           && negb (is_some (sw_fingerprint c)))
    "lost source-correction recovery requires a runner-confirmed workspace fingerprint".

(** *** [zero_provider_allocation_tx] *)
Record allocation := Allocation {
  al_source_run : uuid; al_origin_run : uuid; al_requested_head : option string;
  al_origin_head : option string }.

Context `{Serde}.

(** A human asked to stop a run of the workspace. *)
Definition stop_requested (db : exec_db) (corp workspace_run : uuid) : bool :=
  existsb (λ '(id, r), (rb_corp (rn_binding r) =? corp)%N
     && (rb_workspace_run (rn_binding r) =? workspace_run)%N
     && existsb (λ e, (ev_corp_id e =? corp)%N && (ev_aggregate_id e =? id)%N
                      && seqb (ev_aggregate_type e) "run" && seqb (ev_type e) "run.stop_requested")
          (x_log db))
    (map_to_list (co_runs (x_core db))).

Definition allocation_of (db : exec_db) (corp run_id : uuid) (r : x_run) (t : x_task) (v : x_recovery)
    (source : x_run) (origin_id : uuid) (origin : x_run) (checkpoint : json) : option allocation :=
  let b := rn_binding r in let u := rn_usage r in
  if not_distinct (rb_resumed_from b) (Some (rv_source_run v))
     && same_assignment (rn_binding source) b && same_source_identity (rn_binding source) b
     && same_assignment (rn_binding origin) b
     && seqb (rb_execution_mode b) "verification_only" && negb (is_some (rn_session r))
     && negb (is_some (rb_model b)) && negb (is_some (rb_reasoning_effort b))
     && (rb_budget_tokens_limit b =? 0)%Z && (rb_budget_cost_microusd_limit b =? 0)%Z
     && (ru_input_tokens u =? 0)%Z && (ru_output_tokens u =? 0)%Z && (ru_cost_microusd u =? 0)%Z
     && mem (rv_status v) ["authorized"; "running"; "completed"]
     && negb (is_some (rv_contract_revision v))
     && bool_decide (rv_previous_policy v = rv_replacement_policy v)
     && bool_decide (rv_replacement_policy v = ta_policy t)
     && sql_eq (expected_fingerprint v) (rw_fingerprint (rn_workspace source))
     && sql_eq (expected_fingerprint v) (json_text "workspace_fingerprint" checkpoint)
     && sql_eq (rw_disposition (rn_workspace source)) (Some "preserved")
     && sql_eq (rw_disposition (rn_workspace origin)) (Some "preserved")
     && seqb (rb_execution_mode (rn_binding origin)) "provider"
     && mem (rn_breaker_stage origin) ["suspend"; "stop"]
     && negb (not_distinct (rw_disposition (rn_workspace r)) (Some "quarantined"))
     && negb (stop_requested db corp (rb_workspace_run b))
  then Some (Allocation (rv_source_run v) origin_id (json_text "expected_head_commit" (rv_request v))
               (json_text "head_commit" checkpoint))
  else None.

Definition zero_provider_row (corp run_id : uuid) (db : exec_db) : option allocation :=
  r ← run_of db run_id;
  t ← task_of db (rb_task (rn_binding r));
  v ← recovery_where (λ v, replaces run_id corp (rb_task (rn_binding r)) (ta_mission t) v
                           && seqb (rv_mode v) "checkpoint_verification"
                           && recovery_item_bound db corp (ta_mission t) v) db;
  source ← run_of db (rv_source_run v.2);
  authority ← rv_checkpoint_authority v.2;
  checkpoint ← get "checkpoint" authority;
  origin ← find (λ '(id, _), sql_eq (Some (uuid_to_string id)) (json_text "run_id" checkpoint))
             (map_to_list (co_runs (x_core db)));
  if (rb_corp (rn_binding r) =? corp)%N && (ta_corp t =? corp)%N
  then allocation_of db corp run_id r t v.2 source origin.1 origin.2 checkpoint else None.

Definition zero_provider_allocation (now : timestamp) (corp run_id : uuid) (db : exec_db) : result bool :=
  match zero_provider_row corp run_id db with
  | None => Ok false
  | Some row =>
      checkpoint ← source_workspace_checkpoint_of now corp (al_source_run row) db;
      let answer head := is_some head && not_distinct head (al_requested_head row) in
      Ok (if seqb (sw_execution_mode checkpoint) "provider" && (al_source_run row =? al_origin_run row)%N
          then answer (al_origin_head row)
          else if seqb (sw_execution_mode checkpoint) "verification_only"
          then answer (sw_expected_head_commit checkpoint)
          else false)
  end.

(** *** [ensure_run_not_hard_blocked_tx] over the whole database *)
Definition ensure_not_hard_blocked (now : timestamp) (corp run_id : uuid) (stage action : string)
    (db : exec_db) : result unit :=
  ensure_breaker_allows_human_progress stage action;;
  zero_provider ← zero_provider_allocation now corp run_id db;
  ensure_run_not_hard_blocked (breaker_view db) now corp run_id zero_provider stage action.

(** *** [review_ready_tx]: waiting for a human is not a running provider *)
Definition review_waiting (corp run_id : uuid) (db : exec_db) : bool :=
  match run_joined db corp run_id with
  | None => false
  | Some (r, t, m) =>
      bool_decide (rn_status r = RunStatus.WaitingForApproval)
      && seqb (rn_verification_status r) "waiting_for_approval"
      && bool_decide (ta_status t = TaskStatus.AwaitingApproval)
      && seqb (ta_verification_status t) "waiting_for_approval"
      && bool_decide (mi_status m = MissionStatus.Running)
      && match co_requests (x_core db) !! run_id with
         | Some q => (rq_corp q =? corp)%N && seqb (rq_status q) "pending"
         | None => false
         end
      && existsb (λ '(_, v), replaces run_id corp (rb_task (rn_binding r)) (ta_mission t) v
                    && seqb (rv_mode v) "checkpoint_verification" && seqb (rv_status v) "running"
                    && match si_items (x_side db) !! rv_item v with
                       | Some (item, _) =>
                           (fw_corp_id item =? corp)%N
                           && not_distinct (fw_mission_id item) (Some (ta_mission t))
                           && bool_decide (fw_state item = ItemState.AwaitingApproval)
                       | None => false
                       end) (map_to_list (si_recoveries (x_side db)))
  end.
Definition review_ready (now : timestamp) (corp run_id : uuid) (db : exec_db) : result bool :=
  if review_waiting corp run_id db then
    exported ← exported_head now corp run_id db;
    if is_some exported then zero_provider_allocation now corp run_id db else Ok false
  else Ok false.
End checkpoint.

(** ** The lineage of a workspace, newest run first *)
Definition workspace_lineage (corp workspace_run : uuid) (db : exec_db) : list (uuid * x_run) :=
  runs_where (λ _ r, (rb_corp (rn_binding r) =? corp)%N
                     && (rb_workspace_run (rn_binding r) =? workspace_run)%N) db.
Definition lineage_run_is_pre_dispatch_failure (r : x_run) : bool :=
  let w := rn_workspace r in
  bool_decide (rn_status r = RunStatus.Failed) && negb (is_some (rw_path w))
  && negb (is_some (rw_disposition w)) && not_distinct (rw_detail w) (Some "dispatch_not_started").
Definition latest_workspace_source_id (lineage : list (uuid * x_run)) : result uuid :=
  with_context (fst <$> find (λ x, negb (lineage_run_is_pre_dispatch_failure x.2)) lineage)
    "workspace lineage has no resumable source".
