(* ===== verification/RunFailure.v ===== *)
(** * The Factory projection of execution (crates/crony-store: lib.rs, factory_run_failure.rs)

    What a run tells the Factory item of its mission: an ordinary failure blocks
    it ([reconcile_tx]) and a native resume of exactly that failure reopens it
    ([resume_tx], whose authority is read back from the event log by
    [failure_origin]); a verifier rejection fails its verification, a complete
    verified mission verifies it, a manual gate waits.  Recovery runs are
    terminalised and settled here, and the agent of a failed run is released. *)
From S2P Require Import Prelude Text Json Domain Planning FactoryPolicy Store FactoryItems ExecTables Checkpoint.
Import ItemState (item_state_as_str).

(** ** Failure texts *)

(** [str::is_char_boundary] and the loop down to it *)
Definition is_char_boundary (s : string) (i : nat) : bool :=
  match String.get i s with
  | Some a => negb ((128 <=? byte_val a) && (byte_val a <? 192))%Z
  | None => (i =? String.length s)%nat
  end.
Fixpoint floor_boundary (s : string) (i : nat) : nat :=
  match i with
  | O => O
  | S i' => if is_char_boundary s i then i else floor_boundary s i'
  end.

Definition normalize_bounded_failure_reason (reason fallback : string) : string :=
  let normalized := of_chars ((λ c, if is_control c then 32 else c)%Z <$> chars reason) in
  let normalized := join " " (split_whitespace normalized) in
  let normalized := if is_empty normalized then fallback else normalized in
  if (2000 <? str_len normalized)%Z
  then String.substring 0 (floor_boundary normalized 2000) normalized else normalized.

(** [LEFT(text, n)] counts characters. *)
Definition left_chars (n : nat) (s : string) : string := of_chars (take n (chars s)).

(** ** Items *)
Definition move_item (state : factory_work_item_state) (version : Z) (failure : option string)
    (item : factory_work_item) : factory_work_item :=
  FactoryWorkItem (fw_id item) (fw_corp_id item) (fw_source_kind item) (fw_source item) state version
    (fw_claim_owner_id item) (fw_lease_expires_at item) (fw_policy item) (fw_mission_id item) failure.

(** UPDATE factory_work_items SET state, version = version + 1, failure_detail
    WHERE id = .. AND .. RETURNING .. *)
Definition move_item_tx (id : uuid) (where_ : factory_work_item → bool)
    (state : factory_work_item_state) (failure : option string) : txn exec_db factory_work_item :=
  row ← fetch_one (λ db, row ← si_items (x_side db) !! id; if where_ row.1 then Some row else None) no_rows;
  version ← lift (next_version (fw_version row.1));
  let item := move_item state version failure row.1 in
  modify (on_items <[id := (item, row.2)]>);;
  mret item.

Definition item_event (corp : uuid) (actor : option uuid) (type_ key : string) (item_id : uuid)
    (room : uuid) (version : Z) (mission run : uuid) (payload : json) : new_event :=
  NewEvent corp (Some room) actor type_ "factory_work_item" item_id version (Some mission) (Some run)
    key "corp" payload.

Section factory_projection.
Context `{Serde} `{ExecSerde}.

Definition json_uuid (u : uuid) : json := JStr (uuid_to_string u).
Definition json_opt_uuid (u : option uuid) : json := from_option json_uuid JNull u.

(** ** [RunScope] *)
Record run_scope := RunScope { sc_mission : uuid; sc_item : option uuid }.

Definition read_scope (corp run_id : uuid) : txn exec_db run_scope :=
  row ← fetch_one (λ db, run_joined db corp run_id) "run not found for Factory reconciliation";
  let '(_, t, _) := row in
  item ← gets (item_of_mission corp (ta_mission t));
  mret (RunScope (ta_mission t) (fw_id ∘ fst <$> item)).

Definition validate_scope (scope : run_scope) (corp mission : uuid) : txn exec_db unit :=
  item ← gets (item_of_mission corp mission);
  lift (bail_if (negb (sc_mission scope =? mission)%N
                 || negb (bool_decide (sc_item scope = (fw_id ∘ fst <$> item))))
          "run Factory scope changed during authorization").

Definition event_reconciles_factory (event_type : string) : bool :=
  mem event_type ["run.failed"; "run.cancelled"; "run.completed"; "run.verification_failed";
                  "run.verification_waiting"].

(** ** An ordinary failure blocks the item *)
Definition failure_authority_sha256 (item : factory_work_item) : string :=
  let src := fw_source item in
  json_sha256 (json_object
    [("corp_id", json_uuid (fw_corp_id item)); ("work_item_id", json_uuid (fw_id item));
     ("mission_id", json_opt_uuid (fw_mission_id item)); ("source_kind", JStr (fw_source_kind item));
     ("source_project_owner", JStr (src_project_owner src));
     ("source_project_number", JInt (src_project_number src));
     ("source_project_item_id", JStr (src_project_item_id src));
     ("source_repository_owner", JStr (src_repository_owner src));
     ("source_repository_name", JStr (src_repository_name src));
     ("source_issue_number", JInt (src_issue_number src));
     ("source_issue_node_id", JStr (src_issue_node_id src));
     ("source_issue_url", JStr (src_issue_url src)); ("source_title", JStr (src_title src));
     ("source_revision", JStr (src_revision src)); ("policy", fw_policy item)]).

Definition blockable (state : factory_work_item_state) : bool :=
  match state with
  | ItemState.Claimed | ItemState.MissionCreated | ItemState.Running | ItemState.AwaitingApproval => true
  | _ => false
  end.

Definition run_failed_payload (item : factory_work_item) (mission task_id run_id : uuid) (detail : string) :
    json :=
  json_object
    [("previous_state", JStr (item_state_as_str (fw_state item))); ("state", JStr "blocked");
     ("mission_id", json_uuid mission); ("task_id", json_uuid task_id); ("run_id", json_uuid run_id);
     ("cause", JStr "ordinary_run_failure"); ("mission_status", JStr "failed");
     ("failure_detail", JStr detail);
     ("failure_authority_sha256", JStr (failure_authority_sha256 item))].

Definition reconcile_tx (scope : run_scope) (corp room task_id run_id : uuid) (reason : string) :
    txn exec_db (option new_event) :=
  match sc_item scope with
  | None => mret None
  | Some item_id =>
      m ← fetch_one (λ db, m ← mission_of db (sc_mission scope);
                           if (mi_corp m =? corp)%N then Some m else None) no_rows;
      if negb (bool_decide (mi_status m = MissionStatus.Failed)) then mret None
      else
        row ← fetch_one (λ db, row ← si_items (x_side db) !! item_id;
                               if (fw_corp_id row.1 =? corp)%N then Some row else None)
                "run Factory item disappeared";
        let item := row.1 in
        if negb (blockable (fw_state item)) then mret None
        else
          let detail := normalize_bounded_failure_reason reason "Runner reported failure" in
          moved ← move_item_tx item_id
            (λ i, (fw_corp_id i =? corp)%N && bool_decide (fw_mission_id i = Some (sc_mission scope)))
            ItemState.Blocked (Some detail);
          event ← append_new_event
            (item_event corp None "factory.blocked"
               ("factory:" +:+ uuid_to_string item_id +:+ ":run-failed:" +:+ uuid_to_string run_id)
               item_id room (fw_version moved) (sc_mission scope) run_id
               (run_failed_payload item (sc_mission scope) task_id run_id detail))
            "Factory run-failure event unexpectedly existed";
          mret (Some event)
  end.

(** ** The origin of a block, proved from the log *)
Record failure_origin_row := FailureOrigin { fo_run : uuid; fo_version : Z }.

Definition item_events (corp item_id : uuid) (db : exec_db) : list (nat * new_event) :=
  List.filter (λ '(_, e), (ev_corp_id e =? corp)%N && seqb (ev_aggregate_type e) "factory_work_item"
                          && (ev_aggregate_id e =? item_id)%N)
    (imap pair (x_log db)).

(** ORDER BY aggregate_version DESC, seq DESC LIMIT 1 *)
Definition newest_event (best : option (nat * new_event)) (x : nat * new_event) : option (nat * new_event) :=
  match best with
  | Some b => if (ev_aggregate_version b.2 <=? ev_aggregate_version x.2)%Z then Some x else best
  | None => Some x
  end.

(** The operation that renewed the lease at one version. *)
Definition renewal_recorded (db : exec_db) (item : factory_work_item) (token : uuid) (e : new_event) : bool :=
  existsb (λ '((corp, _), op),
      (corp =? ev_corp_id e)%N && (op_work_item_id op =? ev_aggregate_id e)%N
      && seqb (op_operation op) "renew" && (op_resulting_version op =? ev_aggregate_version e)%Z
      && bool_decide (ev_actor_id e = Some (op_actor_id op))
      && bool_decide (op_claim_token op = Some token)
      && bool_decide (get "work_item_id" (op_request op) = Some (json_uuid (ev_aggregate_id e)))
      && bool_decide (get "expected_version" (op_request op) = Some (JInt (ev_aggregate_version e - 1))))
    (map_to_list (si_operations (x_side db))).

Definition only_renewal (db : exec_db) (item : factory_work_item) (token : uuid) (version : Z)
    (e : new_event) : bool :=
  (version <? ev_aggregate_version e)%Z && seqb (ev_type e) "factory.claim_renewed"
  && bool_decide (ev_actor_id e = Some (fw_claim_owner_id item))
  && bool_decide (get "claim_owner_id" (ev_payload e) = Some (json_uuid (fw_claim_owner_id item)))
  && bool_decide (json_text "state" (ev_payload e) = Some "blocked")
  && renewal_recorded db item token e.

Definition failure_origin (item : factory_work_item) (token : uuid) (db : exec_db) :
    option failure_origin_row :=
  let events := item_events (fw_corp_id item) (fw_id item) db in
  event ← foldl newest_event None
    (List.filter (λ '(_, e), (ev_aggregate_version e <=? fw_version item)%Z
                             && negb (seqb (ev_type e) "factory.claim_renewed")) events);
  let '(seq, e) := event in
  let payload := ev_payload e in
  if negb (seqb (ev_type e) "factory.blocked")
     || negb (bool_decide ((v ← get "cause" payload; as_str v) = Some "ordinary_run_failure"))
     || negb (bool_decide (get "mission_id" payload = Some (json_opt_uuid (fw_mission_id item))))
     || negb (bool_decide (get "failure_detail" payload = Some (json_opt_str (fw_failure_detail item))))
     || negb (bool_decide (get "failure_authority_sha256" payload
                           = Some (JStr (failure_authority_sha256 item))))
  then None
  else
    run_id ← (v ← get "run_id" payload; s ← as_str v; uuid_parse_str s);
    let version := ev_aggregate_version e in
    let chain := List.filter (λ '(seq', e'), in_range version (fw_version item) (ev_aggregate_version e')
                                             && negb (seq' =? seq)%nat) events in
    let versions := ev_aggregate_version ∘ snd <$> chain in
    let revisions := (fw_version item - version)%Z in
    if negb (vec_len chain =? revisions)%Z || negb (vec_len (remove_dups versions) =? revisions)%Z
       || negb (forallb (λ '(_, e'), only_renewal db item token version e') chain)
    then None
    else Some (FailureOrigin run_id version).

(** ** A native resume reopens exactly its own failure *)
Definition resume_is_final (state : factory_work_item_state) : bool :=
  match state with
  | ItemState.Verified | ItemState.Publishing | ItemState.Published | ItemState.Failed
  | ItemState.Cancelled => true
  | _ => false
  end.

Definition resume_tx (scope : run_scope) (corp room source_run_id : uuid) (source_status : run_status)
    (run_id actor_id : uuid) : txn exec_db unit :=
  match sc_item scope with
  | None => mret tt
  | Some item_id =>
      row ← fetch_one (λ db, row ← si_items (x_side db) !! item_id;
                             if (fw_corp_id row.1 =? corp)%N then Some row else None)
              "resume Factory item disappeared";
      let '(item, token) := row in
      lift (bail_if (resume_is_final (fw_state item))
              ("native resume cannot reopen Factory outcome " +:+ item_state_as_str (fw_state item)));;
      if negb (bool_decide (fw_state item = ItemState.Blocked))
         || negb (bool_decide (source_status = RunStatus.Failed))
      then mret tt
      else
        origin ← gets (failure_origin item token);
        match origin with
        | None => mret tt
        | Some origin =>
            if negb (fo_run origin =? source_run_id)%N then mret tt
            else
              moved ← move_item_tx item_id
                (λ i, (fw_corp_id i =? corp)%N && bool_decide (fw_mission_id i = Some (sc_mission scope)))
                ItemState.Running None;
              append_new_event
                (item_event corp (Some actor_id) "factory.running"
                   ("factory:" +:+ uuid_to_string item_id +:+ ":resume:" +:+ uuid_to_string run_id)
                   item_id room (fw_version moved) (sc_mission scope) run_id
                   (json_object
                      [("previous_state", JStr "blocked"); ("state", JStr "running");
                       ("mission_id", json_uuid (sc_mission scope)); ("run_id", json_uuid run_id);
                       ("source_run_id", json_uuid source_run_id);
                       ("failure_origin_version", JInt (fo_version origin));
                       ("resumed_factory_version", JInt (fw_version item));
                       ("cause", JStr "native_resume")]))
                "Factory native-resume event unexpectedly existed";;
              mret tt
        end
  end.

(** ** Recoveries along a lineage of resumed runs

    The recursive queries follow [resumed_from_run_id]; a walk of as many steps
    as there are runs visits every run a chain can reach. *)
Fixpoint ancestors (fuel : nat) (db : exec_db) (follow : x_run → x_run → bool) (id : uuid) : list uuid :=
  match fuel with
  | O => []
  | S fuel =>
      match run_of db id with
      | None => []
      | Some r =>
          id :: match rb_resumed_from (rn_binding r) with
                | None => []
                | Some parent =>
                    match run_of db parent with
                    | Some p => if follow r p then ancestors fuel db follow parent else []
                    | None => []
                    end
                end
      end
  end.
Definition lineage_fuel (db : exec_db) : nat := size (co_runs (x_core db)).

(** UPDATE factory_verification_recoveries .. WHERE status IN ('authorized', 'running') AND .. *)
Definition end_recoveries (status : string) (p : x_recovery → bool) : exec_db → exec_db :=
  on_recoveries (fmap (λ v, if mem (rv_status v) ["authorized"; "running"] && p v
                            then set_rv_status status v else v)).
Definition replacement_in (lineage : list uuid) (v : x_recovery) : bool :=
  match rv_replacement_run v with Some id => existsb (N.eqb id) lineage | None => false end.

Definition corp_lineage (corp run_id : uuid) (db : exec_db) : list uuid :=
  match run_of db run_id with
  | Some r =>
      if (rb_corp (rn_binding r) =? corp)%N
      then ancestors (lineage_fuel db) db (λ _ p, (rb_corp (rn_binding p) =? corp)%N) run_id else []
  | None => []
  end.

(** ** A verifier rejection fails the verification of the item *)
Definition verification_failure_reconciles (state : factory_work_item_state) : bool :=
  match state with
  | ItemState.MissionCreated | ItemState.Running | ItemState.Blocked | ItemState.AwaitingApproval => true
  | _ => false
  end.

Definition reconcile_factory_verification_failure_tx (corp mission room run_id : uuid)
    (actor : option uuid) (failure_detail cause : string) : txn exec_db (option new_event) :=
  failure_detail ← lift (normalize_factory_text failure_detail "factory verification failure detail" 2000);
  row ← gets (item_of_mission corp mission);
  match row with
  | None => mret None
  | Some (current, _) =>
      if bool_decide (fw_state current = ItemState.VerificationFailed) then mret None
      else if bool_decide (fw_state current = ItemState.Blocked) && negb (seqb cause "recovery_admission")
      then mret None
      else
        lift (bail_if (negb (verification_failure_reconciles (fw_state current)))
                ("factory verification failure cannot reconcile state "
                 +:+ item_state_as_str (fw_state current)));;
        moved ← move_item_tx (fw_id current) (λ i, (fw_corp_id i =? corp)%N)
                  ItemState.VerificationFailed (Some failure_detail);
        modify (λ db, end_recoveries "failed"
                        (λ v, (rv_corp v =? corp)%N && replacement_in (corp_lineage corp run_id db) v) db);;
        event ← append_new_event
          (item_event corp actor "factory.verification_failed"
             ("factory:" +:+ uuid_to_string (fw_id moved) +:+ ":verification-failed:"
              +:+ uuid_to_string run_id +:+ ":" +:+ cause)
             (fw_id moved) room (fw_version moved) mission run_id
             (json_object
                [("previous_state", JStr (item_state_as_str (fw_state current)));
                 ("state", JStr (item_state_as_str (fw_state moved)));
                 ("mission_id", json_uuid mission); ("run_id", json_uuid run_id); ("cause", JStr cause);
                 ("failure_detail", JStr failure_detail)]))
          "factory verification-failure event unexpectedly existed";
        mret (Some event)
  end.

(** ** A verified mission verifies the item *)
Definition verified_reconciles (state : factory_work_item_state) : bool :=
  match state with
  | ItemState.MissionCreated | ItemState.Running | ItemState.AwaitingApproval => true
  | _ => false
  end.

Definition ensure_mission_verified (corp mission : uuid) : txn exec_db unit :=
  read_directory (λ dir, bail_if (negb (factory_mission_verified corp mission dir))
    "conflict: factory work item cannot enter verified before its mission and task verification pass").

Definition reconcile_factory_verified_tx (corp mission room run_id : uuid) (actor : option uuid) :
    txn exec_db (option new_event) :=
  row ← gets (item_of_mission corp mission);
  match row with
  | None => mret None
  | Some (current, _) =>
      if bool_decide (fw_state current = ItemState.Verified)
         || bool_decide (fw_state current = ItemState.Blocked)
      then mret None
      else
        lift (bail_if (negb (verified_reconciles (fw_state current)))
                ("factory verification approval cannot reconcile state "
                 +:+ item_state_as_str (fw_state current)));;
        ensure_mission_verified corp mission;;
        moved ← move_item_tx (fw_id current) (λ i, (fw_corp_id i =? corp)%N) ItemState.Verified None;
        event ← append_new_event
          (item_event corp actor "factory.verified"
             ("factory:" +:+ uuid_to_string (fw_id moved) +:+ ":verified:" +:+ uuid_to_string run_id)
             (fw_id moved) room (fw_version moved) mission run_id
             (json_object
                [("previous_state", JStr (item_state_as_str (fw_state current)));
                 ("state", JStr (item_state_as_str (fw_state moved)));
                 ("mission_id", json_uuid mission); ("run_id", json_uuid run_id)]))
          "factory verified event unexpectedly existed";
        mret (Some event)
  end.

(** ** A manual gate waits *)
Definition reconcile_factory_awaiting_approval_tx (corp mission room run_id : uuid) :
    txn exec_db (option new_event) :=
  row ← gets (item_of_mission corp mission);
  match row with
  | None => mret None
  | Some (current, _) =>
      if bool_decide (fw_state current = ItemState.AwaitingApproval) then mret None
      else
        m ← fetch_one (λ db, m ← mission_of db mission; if (mi_corp m =? corp)%N then Some m else None)
              no_rows;
        if negb (bool_decide (mi_status m = MissionStatus.Running))
           || bool_decide (fw_state current = ItemState.Blocked)
        then mret None
        else
          lift (bail_if (negb (bool_decide (fw_state current = ItemState.MissionCreated)
                               || bool_decide (fw_state current = ItemState.Running)))
                  ("factory verification waiting cannot reconcile state "
                   +:+ item_state_as_str (fw_state current)));;
          moved ← move_item_tx (fw_id current) (λ i, (fw_corp_id i =? corp)%N)
                    ItemState.AwaitingApproval None;
          event ← append_new_event
            (item_event corp None "factory.awaiting_approval"
               ("factory:" +:+ uuid_to_string (fw_id moved) +:+ ":awaiting-approval:"
                +:+ uuid_to_string run_id)
               (fw_id moved) room (fw_version moved) mission run_id
               (json_object
                  [("previous_state", JStr (item_state_as_str (fw_state current)));
                   ("state", JStr (item_state_as_str (fw_state moved)));
                   ("mission_id", json_uuid mission); ("run_id", json_uuid run_id)]))
            "factory awaiting-approval event unexpectedly existed";
          mret (Some event)
  end.

(** ** A successful run settles the recoveries of its task *)
Definition settled_lineage (corp run_id : uuid) (db : exec_db) : list uuid :=
  match run_of db run_id with
  | None => []
  | Some r =>
      match task_of db (rb_task (rn_binding r)) with
      | None => []
      | Some t =>
          if (rb_corp (rn_binding r) =? corp)%N && (ta_corp t =? corp)%N
             && bool_decide (rn_status r = RunStatus.Completed) && seqb (rn_verification_status r) "passed"
             && bool_decide (ta_status t = TaskStatus.Completed) && seqb (ta_verification_status t) "passed"
          then ancestors (lineage_fuel db) db
                 (λ child p, let b := rn_binding p in let c := rn_binding child in
                    (rb_corp b =? corp)%N && (rb_task b =? rb_task c)%N && (rb_agent b =? rb_agent c)%N
                    && (rb_workspace_run b =? rb_workspace_run c)%N) run_id
          else []
      end
  end.
Definition lineage_tasks (lineage : list uuid) (db : exec_db) : list uuid :=
  omap (λ id, rb_task ∘ rn_binding <$> run_of db id) lineage.
Definition settle_successful_factory_recoveries (corp run_id : uuid) (db : exec_db) : exec_db :=
  let lineage := settled_lineage corp run_id db in
  end_recoveries "completed"
    (λ v, (rv_corp v =? corp)%N && replacement_in lineage v
          && existsb (N.eqb (rv_task v)) (lineage_tasks lineage db)) db.

(** ** A recovery run ends without success *)
Definition reject_request (note : string) (q : x_request) : x_request :=
  if seqb (rq_status q) "pending"
  then XRequest (rq_corp q) (rq_task q) (rq_gate_type q) (rq_gate q) "rejected" (rq_decided_by q)
         (Some note) (rq_decision_key q)
  else q.

Definition end_recovery_run (status : run_status) (summary : string) (r : x_run) : x_run :=
  let w := rn_workspace r in
  set_rn_workspace
    (if negb (is_some (rw_path w)) && negb (bool_decide (status = RunStatus.Lost))
     then set_rw_detail (Some "dispatch_not_started") w else w)
    (set_rn_summary (Some summary) (set_rn_verification_summary (Some summary)
       (set_run_statuses status "failed" r))).

Definition recovery_end_status (status : run_status) : bool :=
  match status with RunStatus.Failed | RunStatus.Cancelled | RunStatus.Lost => true | _ => false end.

Definition terminalize_factory_recovery_run_tx (corp recovery_id run_id task_id mission room : uuid)
    (summary : string) (status : run_status) (cause : string) : txn exec_db (option new_event) :=
  lift (bail_if (negb (recovery_end_status status))
          ("factory recovery terminal run status " +:+ RunStatus.run_status_as_str status
           +:+ " is unsupported"));;
  modify (update_run run_id (end_recovery_run status summary));;
  modify (update_task task_id (set_task_statuses TaskStatus.VerificationFailed "failed"));;
  modify (update_mission mission (set_mi_status MissionStatus.Failed));;
  modify (on_requests (alter (λ q, if (rq_corp q =? corp)%N
            then reject_request (left_chars 1000
                   ("Recovery run terminated before approval: " +:+ summary)) q else q) run_id));;
  modify (on_recoveries (alter (λ v, if (rv_corp v =? corp)%N then set_rv_status "failed" v else v)
            recovery_id));;
  modify (on_commands (fmap (λ c, if (xc_corp c =? corp)%N && (xc_run c =? run_id)%N
                                     && seqb (xc_kind c) "factory_verification_recovery"
                                  then set_xc_status "dispatched" c else c)));;
  reconcile_factory_verification_failure_tx corp mission room run_id None summary cause.
End factory_projection.

(** ** The agent of a failed run *)
Definition owns_detached_review (corp agent_id run_id : uuid) (db : exec_db) : bool :=
  match run_of db run_id with
  | None => false
  | Some failed =>
      let b := rn_binding failed in
      (rb_corp b =? corp)%N && (rb_agent b =? agent_id)%N
      && bool_decide (rn_status failed = RunStatus.Failed)
      && forallb (λ '(id, other), let o := rn_binding other in
           negb ((rb_corp o =? rb_corp b)%N && (rb_agent o =? rb_agent b)%N && negb (id =? run_id)%N
                 && ((rb_created_at b <=? rb_created_at o)%Z || run_active (rn_status other))))
           (map_to_list (co_runs (x_core db)))
  end.

Definition release_failed_run_agent (corp agent_id run_id : uuid) (db : exec_db) : exec_db :=
  match agent_of db agent_id with
  | None => db
  | Some a =>
      if negb (xa_corp a =? corp)%N then db
      else if bool_decide (xa_current_run a = Some run_id)
              || (negb (is_some (xa_current_run a)) && bool_decide (xa_status a = AgentStatus.Reviewing)
                  && owns_detached_review corp agent_id run_id db)
      then release_agent agent_id db else db
  end.
