(* ===== verification/RunEvents.v ===== *)
(** * Runner events (crates/crony-store/src/lib.rs, [apply_runner_event])

    A runner reports what happens to a run as events.  Each is admitted once,
    for exactly the assignment it names, and moves the run, its task, its
    mission, its agent and the Factory item together: progress, approvals,
    usage, verifier evidence, the verdicts, completion, failure with its bounded
    retries, cancellation, and the workspace facts that may still arrive after
    the end.  One definition per event type, then [apply_runner_event]. *)
From S2P Require Import Prelude Text Json Domain Planning FactoryPolicy Store FactoryItems Breaker ExecTables Checkpoint RunFailure.

(** [VerifierCheck::kind], [ManualVerificationGate::kind] *)
Definition check_kind (c : verifier_check) : string :=
  match c with
  | CheckArtifact _ => "artifact" | CheckFile _ _ => "file" | CheckCommand _ _ _ => "command"
  | CheckTest _ _ _ => "test" | CheckJsonSchema _ _ => "json_schema" | CheckScreenshot _ _ => "screenshot"
  end.
Definition gate_kind (g : manual_verification_gate) : string :=
  match g with HumanApproval _ => "human_approval" | IndependentReview _ _ => "independent_review" end.

Record runner_event_input := RunnerEventInput {
  re_event_id : uuid; re_runner_id : string; re_corp_id : uuid; re_run_id : uuid; re_agent_id : uuid;
  re_assignment_token : uuid; re_event_type : string; re_payload : json }.

Record runner_event_outcome := RunnerEventOutcome {
  ro_event : option new_event; ro_related_events : list new_event }.

(** The row the event was admitted for. *)
Record event_row := EventRow {
  er_corp : uuid; er_run_id : uuid; er_agent_id : uuid; er_run : x_run; er_task : x_task;
  er_mission : x_mission }.
Definition er_task_id (row : event_row) : uuid := rb_task (rn_binding (er_run row)).
Definition er_mission_id (row : event_row) : uuid := ta_mission (er_task row).
Definition er_room (row : event_row) : uuid := mi_room (er_mission row).
Definition er_policy (row : event_row) : verification_policy := ta_policy (er_task row).

(** ** Payloads *)
Definition payload_str (key : string) (payload : json) : option string := v ← get key payload; as_str v.
Definition require_str (key : string) (payload : json) (message : string) : result string :=
  with_context (payload_str key payload) message.
Definition payload_bool (key : string) (payload : json) : bool :=
  default false (v ← get key payload; as_bool v).
Definition usage_of (key : string) (payload : json) : Z :=
  Z.max 0 (default 0%Z (v ← get key payload; as_i64 v)).

(** ** Admission *)
Definition event_matches (input : runner_event_input) (r : x_run) : bool :=
  let b := rn_binding r in
  (rb_corp b =? re_corp_id input)%N && (rb_agent b =? re_agent_id input)%N
  && seqb (rb_runner b) (re_runner_id input)
  && (rb_assignment_token b =? re_assignment_token input)%N.

Definition terminal_event (event_type : string) : bool :=
  mem event_type ["run.workspace_preserved"; "run.workspace_removed"; "run.session_terminated"].

Definition admit_row (input : runner_event_input) : txn exec_db event_row :=
  row ← fetch_one (λ db, row ← run_joined db (re_corp_id input) (re_run_id input);
                         let '(r, t, m) := row in
                         if event_matches input r
                            && (run_active (rn_status r)
                                || (terminal_event (re_event_type input)
                                    && mem (RunStatus.run_status_as_str (rn_status r))
                                         ["completed"; "failed"; "cancelled"; "lost"]))
                         then Some (r, t, m) else None)
          "runner event does not match an active run";
  let '(r, t, m) := row in
  mret (EventRow (re_corp_id input) (re_run_id input) (re_agent_id input) r t m).

(** The query before a usage event takes the budget locks of the requester. *)
Definition usage_requester (input : runner_event_input) (db : exec_db) : option uuid :=
  r ← run_of db (re_run_id input);
  t ← task_of db (rb_task (rn_binding r));
  m ← mission_of db (ta_mission t);
  if event_matches input r && run_active (rn_status r) then Some (mi_requested_by m) else None.

(** A failure may only hit the latest run of work that is not accepted. *)
Definition failure_is_stale (row : event_row) (db : exec_db) : bool :=
  negb (bool_decide (latest_run_of_task (er_corp row) (er_task_id row) db = Some (er_run_id row)))
  || bool_decide (ta_status (er_task row) = TaskStatus.Completed)
  || bool_decide (mi_status (er_mission row) = MissionStatus.Completed)
  || bool_decide (mi_status (er_mission row) = MissionStatus.Cancelled).

(** *** Termination evidence (terminal_accounting.rs) *)
Definition validate_termination (payload : json) (adapter execution_mode : string) : result unit :=
  let message_ok :=
    match get "message" payload with
    | None => true
    | Some message =>
        match as_str message with
        | Some message => negb (is_empty (trim message)) && (str_len message <=? 1024)%Z
                          && negb (any_char is_control message)
        | None => false
        end
    end in
  bail_if (negb (seqb execution_mode "provider"
      && match as_object payload with
         | Some entries => forallb (λ '(key, _),
             mem key ["adapter"; "outcome"; "provider_process_alive"; "message"]) entries
         | None => false
         end
      && negb (is_empty adapter)
      && bool_decide (payload_str "adapter" payload = Some adapter)
      && bool_decide (get "provider_process_alive" payload = Some (JBool false))
      && match payload_str "outcome" payload with
         | Some outcome => mem outcome ["completed"; "cancelled"; "failed"; "runtime_error"]
         | None => false
         end
      && message_ok))
    "invalid native provider-termination evidence".

Section events.
Context `{Serde} `{ExecSerde}.

(** SELECT DISTINCT payload->>'adapter' of the run's start events. *)
Definition started_adapters (corp run_id : uuid) (db : exec_db) : list (option string) :=
  remove_dups (json_text "adapter" ∘ ev_payload <$>
    List.filter (λ e, (ev_corp_id e =? corp)%N && (ev_aggregate_id e =? run_id)%N
                      && seqb (ev_aggregate_type e) "run" && seqb (ev_type e) "run.started") (x_log db)).

Definition validate_termination_tx (row : event_row) (payload : json) : txn exec_db unit :=
  started ← gets (started_adapters (er_corp row) (er_run_id row));
  adapter ← lift match ta_required_adapter (er_task row), started with
    | Some adapter, [] => Ok adapter
    | Some adapter, [Some started] =>
        if seqb adapter started then Ok adapter
        else Err "provider-termination assignment adapter is unproven"
    | None, [Some started] => Ok started
    | _, _ => Err "provider-termination assignment adapter is unproven"
    end;
  lift (validate_termination payload adapter (rb_execution_mode (rn_binding (er_run row)))).

(** *** Evidence of an artifact refers to what the store holds *)
Definition durable_artifact (run_id : uuid) (db : exec_db) : option (uuid * x_artifact) :=
  r ← run_of db run_id;
  let b := rn_binding r in
  id ← rn_artifact r;
  a ← si_artifacts (x_side db) !! id;
  if (af_corp a =? rb_corp b)%N && (af_task a =? rb_task b)%N && seqb (af_status a) "ready"
     && seqb (af_role a) "provider_evidence"
     && ((af_run a =? run_id)%N
         || (seqb (rb_execution_mode b) "verification_only"
             && existsb (λ '(_, v),
                  not_distinct (rv_replacement_run v) (Some run_id) && (rv_corp v =? rb_corp b)%N
                  && (rv_task v =? rb_task b)%N && mem (rv_status v) ["authorized"; "running"]
                  && match run_of db (rv_source_run v) with
                     | Some s => (rb_corp (rn_binding s) =? rb_corp b)%N
                                 && (rb_task (rn_binding s) =? rb_task b)%N
                                 && (rb_workspace_run (rn_binding s) =? rb_workspace_run b)%N
                                 && bool_decide (rn_artifact s = Some id)
                     | None => false
                     end) (map_to_list (si_recoveries (x_side db)))))
  then Some (id, a) else None.

Definition check_artifact_evidence (a : x_artifact) (payload : json) : result unit :=
  evidence ← with_context (v ← get "payload" payload; as_object v)
    "artifact verification evidence omitted payload";
  sha ← require_str "sha256" (JObj evidence) "artifact verification evidence omitted sha256";
  bytes ← with_context (v ← get "bytes" (JObj evidence); as_u64 v)
    "artifact verification evidence omitted bytes";
  media ← require_str "media_type" (JObj evidence) "artifact verification evidence omitted media_type";
  bail_if (negb (seqb sha (af_sha256 a)) || negb (bool_decide (checked_i64 bytes = Some (af_bytes a)))
           || negb (seqb media (af_media_type a)))
    "artifact verification evidence does not match durable storage".

Definition stored_evidence (id : uuid) (a : x_artifact) : json :=
  json_object
    [("artifact_id", json_uuid id); ("uri", JStr (af_uri a)); ("sha256", JStr (af_sha256 a));
     ("bytes", JInt (af_bytes a)); ("media_type", JStr (af_media_type a));
     ("producer_agent_id", json_uuid (af_producer_agent a));
     ("producer_runner_id", JStr (af_producer_runner a)); ("verifier", JStr (af_verifier a));
     ("retention_until", JStr (timestamp_rfc3339 (af_retention_until a)));
     ("provenance_signature", JStr (af_provenance_signature a))].

Definition sanitize_verification_evidence (run_id : uuid) (payload : json) (db : exec_db) : result json :=
  if negb (bool_decide (payload_str "kind" payload = Some "artifact")) then Ok payload
  else
    status ← require_str "status" payload "artifact verification evidence omitted status";
    match durable_artifact run_id db with
    | Some (id, a) =>
        (if seqb status "passed" then check_artifact_evidence a payload else Ok tt);;
        o ← with_context (as_object payload) "verification evidence payload is not an object";
        Ok (JObj (obj_insert "payload" (stored_evidence id a)
          (obj_insert "summary" (JStr ("durable artifact " +:+ uuid_to_string id +:+ " has "
             +:+ show_int (af_bytes a) +:+ " verified bytes")) o)))
    | None =>
        bail_if (seqb status "passed")
          "artifact verification evidence passed without durable storage";;
        o ← with_context (as_object payload) "verification evidence payload is not an object";
        Ok (JObj (obj_insert "payload" (json_object [("stored", JBool false)])
                    (obj_insert "summary" (JStr "durable artifact verification failed") o)))
    end.

(** ** The event types *)

Definition on_session (row : event_row) (payload : json) : txn exec_db (list new_event) :=
  session ← lift (require_str "session_id" payload "run.session event omitted session_id");
  modify (update_run (er_run_id row) (set_rn_session (Some session)));;
  mret [].

(** UPDATE queued_messages SET .. WHERE run_id = .. AND status = 'reserved' *)
Definition on_reserved (run_id : uuid) (f : x_message → x_message) : exec_db → exec_db :=
  on_messages (fmap (λ q, if bool_decide (xq_run q = Some run_id) && seqb (xq_status q) "reserved"
                          then f q else q)).

Definition on_started (row : event_row) (payload : json) : txn exec_db (list new_event) :=
  modify (update_run (er_run_id row) (λ r,
    set_rn_workspace
      (RunWorkspace (payload_str "workspace" payload) (payload_str "workspace_branch" payload)
         (payload_str "workspace_base_ref" payload) (payload_str "workspace_base_commit" payload)
         (Some "active") None (rw_fingerprint (rn_workspace r)))
      (set_rn_status RunStatus.Running r)));;
  modify (update_task (er_task_id row) (set_ta_status TaskStatus.Running));;
  modify (update_agent (er_agent_id row) (set_agent_desk AgentStatus.Working (Some "terminal")));;
  modify (on_reserved (er_run_id row) (λ q, set_message_delivery "delivered" (xq_run q) q));;
  mret [].

Definition agent_status_of_report (status : string) : agent_status :=
  if seqb status "blocked" then AgentStatus.Blocked
  else if seqb status "reviewing" then AgentStatus.Reviewing
  else if seqb status "idle" then AgentStatus.Idle
  else AgentStatus.Working.

Definition approval_pending (p : x_approval → bool) (db : exec_db) : bool :=
  existsb (λ '(_, a), p a && seqb (ap_status a) "pending") (map_to_list (si_approvals (x_side db))).

Definition on_status (row : event_row) (payload : json) : txn exec_db (list new_event) :=
  let status := default "working" (payload_str "status" payload) in
  modify (update_agent (er_agent_id row)
            (set_agent_desk (agent_status_of_report status)
               (Some (default "terminal" (payload_str "station" payload)))));;
  if seqb status "working" then
    modify (λ db, update_run (er_run_id row) (λ r,
      if (bool_decide (rn_status r = RunStatus.WaitingForInput)
          || bool_decide (rn_status r = RunStatus.WaitingForApproval))
         && negb (approval_pending (λ a, (ap_run a =? er_run_id row)%N) db)
      then set_rn_status RunStatus.Running r else r) db);;
    modify (λ db, update_task (er_task_id row) (λ t,
      if bool_decide (ta_status t = TaskStatus.AwaitingApproval)
         && negb (approval_pending (λ a, (ap_task a =? er_task_id row)%N) db)
      then set_ta_status TaskStatus.Running t else t) db);;
    mret []
  else mret [].

Definition approval_roles (payload : json) : result (list string) :=
  values ← with_context (v ← get "required_roles" payload; as_array v)
    "approval request omitted required_roles";
  collect (λ v, with_context (as_str v) "approval role is not a string") values.

Definition approval_request_is_invalid (key action risk rationale : string) (roles : list string) : bool :=
  is_empty key || (128 <? str_len key)%Z || is_empty action || (2000 <? str_len action)%Z
  || is_empty rationale || (4000 <? str_len rationale)%Z
  || negb (mem risk ["low"; "medium"; "high"; "critical"]) || vec_is_empty roles
  || existsb (λ role, negb (mem role ["owner"; "admin"; "manager"; "member"; "guest"; "spectator"])) roles.

Definition on_approval_requested (env : exec_env) (row : event_row) (payload : json) :
    txn exec_db (list new_event) :=
  id ← lift (require_str "approval_id" payload "approval request omitted approval_id");
  id ← lift (with_context (uuid_parse_str id) "approval id is invalid");
  key ← lift (require_str "action_key" payload "approval request omitted action_key");
  action ← lift (require_str "action" payload "approval request omitted action");
  risk ← lift (require_str "risk" payload "approval request omitted risk");
  rationale ← lift (require_str "rationale" payload "approval request omitted rationale");
  roles ← lift (approval_roles payload);
  lift (bail_if (approval_request_is_invalid key action risk rationale roles) "approval request is invalid");;
  let expires_in := Z.max 1 (Z.min 3600 (default 300%Z (v ← get "expires_in_seconds" payload; as_i64 v))) in
  require_new (λ db, is_some (si_approvals (x_side db) !! id)
    || existsb (λ '(_, a), (ap_run a =? er_run_id row)%N && seqb (ap_action_key a) key)
         (map_to_list (si_approvals (x_side db))));;
  modify (on_approvals <[id :=
    XApproval (er_corp row) (er_room row) (er_mission_id row) (er_task_id row) (er_run_id row)
      (er_agent_id row) key action risk rationale roles "pending" (xe_now env + seconds expires_in)
      None None None]>);;
  modify (update_run (er_run_id row) (set_rn_status RunStatus.WaitingForApproval));;
  modify (update_task (er_task_id row) (set_ta_status TaskStatus.AwaitingApproval));;
  modify (update_agent (er_agent_id row) (set_agent_desk AgentStatus.Blocked (Some "approval")));;
  mret [].

(** Loop counters: INTEGER columns, so an increment can be out of range. *)
Definition tool_activity (payload : json) (u : run_usage) : result run_usage :=
  let signature := default "unknown" (payload_str "signature" payload) in
  if payload_bool "progressed" payload then
    Ok (RunUsage (ru_input_tokens u) (ru_output_tokens u) (ru_cost_microusd u) 0 0 (Some signature))
  else
    idle ← int4 (ru_no_progress_events u + 1);
    repeated ← (if bool_decide (ru_last_tool_signature u = Some signature)
                then int4 (ru_repeated_tool_count u + 1) else Ok 1%Z);
    Ok (RunUsage (ru_input_tokens u) (ru_output_tokens u) (ru_cost_microusd u) idle repeated
          (Some signature)).

Definition add_usage (payload : json) (u : run_usage) : result run_usage :=
  input ← int8 (ru_input_tokens u + usage_of "input_tokens" payload);
  output ← int8 (ru_output_tokens u + usage_of "output_tokens" payload);
  cost ← int8 (ru_cost_microusd u + usage_of "cost_microusd" payload);
  Ok (RunUsage input output cost (ru_no_progress_events u) (ru_repeated_tool_count u)
        (ru_last_tool_signature u)).

Definition update_usage (row : event_row) (f : run_usage → result run_usage) :
    txn exec_db (list new_event) :=
  r ← fetch_one (λ db, run_of db (er_run_id row)) no_rows;
  usage ← lift (f (rn_usage r));
  modify (update_run (er_run_id row) (set_rn_usage usage));;
  mret [].

Definition on_tool_activity (row : event_row) (payload : json) : txn exec_db (list new_event) :=
  if payload_bool "human_conversation" payload then mret []
  else update_usage row (tool_activity payload).

Definition on_usage (row : event_row) (payload : json) : txn exec_db (list new_event) :=
  update_usage row (add_usage payload).

(** *** Verification *)
Definition on_verification_started (row : event_row) : txn exec_db (list new_event) :=
  modify (update_run (er_run_id row) (λ r,
    set_rn_verification_summary None (set_run_statuses RunStatus.Verifying "running" r)));;
  modify (update_task (er_task_id row) (set_task_statuses TaskStatus.Review "running"));;
  modify (update_agent (er_agent_id row) (set_agent_desk AgentStatus.Reviewing (Some "review")));;
  mret [].

Definition on_verification_evidence (env : exec_env) (row : event_row) (payload : json) : txn exec_db (list new_event) :=
  id ← lift (require_str "evidence_id" payload "verification evidence omitted evidence_id");
  id ← lift (with_context (uuid_parse_str id) "verification evidence id is invalid");
  index ← lift (with_context (v ← get "check_index" payload; as_i64 v)
                  "verification evidence omitted check_index");
  index ← lift (with_context (checked_i32 index) "verification check index is out of range");
  expected ← lift (with_context
    (if (index <? 0)%Z then None else vp_checks (er_policy row) !! Z.to_nat index)
    "verification evidence references an unknown check");
  kind ← lift (require_str "kind" payload "verification evidence omitted kind");
  lift (bail_if (negb (seqb kind (check_kind expected)))
          ("verification evidence kind " +:+ kind +:+ " does not match policy " +:+ check_kind expected));;
  status ← lift (require_str "status" payload "verification evidence omitted status");
  lift (bail_if (negb (mem status ["passed"; "failed"])) "verification evidence status is invalid");;
  summary ← lift (require_str "summary" payload "verification evidence omitted summary");
  lift (bail_if (4000 <? str_len summary)%Z "verification evidence summary is too long");;
  require_new (λ db, existsb (λ e, (ve_id e =? id)%N
      || ((ve_run e =? er_run_id row)%N && (ve_check_index e =? index)%Z)) (co_evidence (x_core db)));;
  modify (on_evidence (λ l, l ++ [XEvidence id (er_corp row) (er_task_id row) (er_run_id row) index kind
                                    status summary (default (JObj []) (get "payload" payload)) (xe_now env)]));;
  mret [].

(** The evidence of a run, ORDER BY check_index. *)
Definition run_evidence (run_id : uuid) (rows : list x_evidence) : list x_evidence :=
  sort_by (λ a b, (ve_check_index a <=? ve_check_index b)%Z)
    (List.filter (λ e, (ve_run e =? run_id)%N) rows).
Definition evidence_of (run_id : uuid) (db : exec_db) : list x_evidence :=
  run_evidence run_id (co_evidence (x_core db)).

(** Every check of the policy, in order, passed with its own kind. *)
Fixpoint evidence_satisfies (index : Z) (checks : list verifier_check) (rows : list x_evidence) : bool :=
  match checks, rows with
  | [], [] => true
  | check :: checks, row :: rows =>
      (ve_check_index row =? index)%Z && seqb (ve_kind row) (check_kind check)
      && seqb (ve_status row) "passed" && evidence_satisfies (index + 1) checks rows
  | _, _ => false
  end.

(** An exact link of verification and stored deliverable. *)
Definition deliverable_linked (run_id : uuid) (verification deliverable : string) (db : exec_db) : bool :=
  existsb (λ d, (sd_run d =? run_id)%N && seqb (sd_verification_sha256 d) verification
      && match si_artifacts (x_side db) !! sd_artifact d with
         | Some a => seqb (af_sha256 a) deliverable && seqb (af_status a) "ready"
                     && seqb (af_role a) "source_deliverable"
         | None => false
         end) (si_deliverables (x_side db)).

Definition passed_digests (row : event_row) (payload : json) : txn exec_db (option string * option string) :=
  match tc_deliverable (ta_contract (er_task row)) with
  | None => mret (None, None)
  | Some _ =>
      verification ← lift (require_str "verification_sha256" payload
        "verification passed event omitted verification digest");
      deliverable ← lift (require_str "deliverable_sha256" payload
        "verification passed event omitted deliverable digest");
      linked ← gets (deliverable_linked (er_run_id row) verification deliverable);
      lift (bail_if (negb linked) "verification passed without an exact ready deliverable linkage");;
      mret (Some verification, Some deliverable)
  end.

Definition is_artifact_check (c : verifier_check) : bool :=
  match c with CheckArtifact _ => true | _ => false end.

Definition on_verification_passed (row : event_row) (payload : json) : txn exec_db (list new_event) :=
  digests ← passed_digests row payload;
  let checks := vp_checks (er_policy row) in
  (if existsb is_artifact_check checks then
     r ← fetch_one (λ db, run_of db (er_run_id row)) no_rows;
     lift (bail_if (negb (is_some (rn_artifact r)))
             "artifact verification passed before durable artifact storage")
   else mret tt);;
  rows ← gets (evidence_of (er_run_id row));
  lift (bail_if (negb (length rows =? length checks)%nat)
          ("verification passed without complete evidence: expected " +:+ show_int (vec_len checks)
           +:+ ", found " +:+ show_int (vec_len rows)));;
  lift (bail_if (negb (evidence_satisfies 0 checks rows)) "verification evidence does not satisfy policy");;
  let summary := default "all verifier checks passed" (payload_str "summary" payload) in
  modify (update_run (er_run_id row) (λ r,
    set_rn_deliverable_sha256 digests.2 (set_rn_verification_sha256 digests.1
      (set_rn_verification_summary (Some summary) (set_rn_verification_status "passed" r)))));;
  modify (update_task (er_task_id row) (set_ta_verification_status "passed"));;
  mret [].

Definition on_verification_waiting (row : event_row) (payload : json) : txn exec_db (list new_event) :=
  lift (bail_if (negb (seqb (rn_verification_status (er_run row)) "passed"))
          "manual verification gate requested before automated checks passed");;
  gate ← lift (with_context (get "gate" payload) "verification waiting event omitted gate");
  gate ← lift (with_context (decode_manual_gate gate) "decode manual verification gate");
  lift (bail_if (negb (bool_decide (vp_manual_gate (er_policy row) = Some gate)))
          "manual verification gate does not match task policy");;
  gate_type ← lift (require_str "gate_type" payload "verification waiting event omitted gate_type");
  lift (bail_if (negb (seqb (gate_kind gate) gate_type)) "manual verification gate type mismatch");;
  let verification := default "automated verification passed" (payload_str "verification_summary" payload) in
  let completion := default "Agent completed pending approval" (payload_str "completion_summary" payload) in
  require_new (λ db, is_some (co_requests (x_core db) !! er_run_id row));;
  modify (on_requests <[er_run_id row :=
    XRequest (er_corp row) (er_task_id row) gate_type gate "pending" None None None]>);;
  modify (update_run (er_run_id row) (λ r,
    set_rn_summary (Some completion) (set_rn_verification_summary (Some verification)
      (set_run_statuses RunStatus.WaitingForApproval "waiting_for_approval" r))));;
  modify (update_task (er_task_id row)
            (set_task_statuses TaskStatus.AwaitingApproval "waiting_for_approval"));;
  modify (update_agent (er_agent_id row) (set_agent_desk AgentStatus.Reviewing (Some "review")));;
  event ← reconcile_factory_awaiting_approval_tx (er_corp row) (er_mission_id row) (er_room row)
            (er_run_id row);
  mret (option_list event).

Definition on_verification_failed (row : event_row) (payload : json) : txn exec_db (list new_event) :=
  rows ← gets (evidence_of (er_run_id row));
  lift (bail_if (negb (length rows =? length (vp_checks (er_policy row)))%nat
                 || negb (existsb (λ e, seqb (ve_status e) "failed") rows))
          "verification failure does not have complete failing evidence");;
  let summary := default "verification policy failed" (payload_str "error" payload) in
  modify (update_run (er_run_id row) (λ r,
    set_rn_summary (Some summary) (set_rn_verification_summary (Some summary)
      (set_run_statuses RunStatus.Failed "failed" r))));;
  modify (update_task (er_task_id row) (set_task_statuses TaskStatus.VerificationFailed "failed"));;
  modify (set_open_mission (er_mission_id row) MissionStatus.Failed);;
  modify (release_agent (er_agent_id row));;
  event ← reconcile_factory_verification_failure_tx (er_corp row) (er_mission_id row) (er_room row)
            (er_run_id row) None summary "automated_verification";
  mret (option_list event).

(** *** Workspaces *)
Definition on_teardown_uncertain (row : event_row) (payload : json) : txn exec_db (list new_event) :=
  lift (bail_if (negb (bool_decide (payload_str "provider_process_state" payload = Some "unverified")))
          "teardown uncertainty must report an unverified provider process state");;
  detail ← lift (require_str "detail" payload "teardown uncertainty omitted detail");
  modify (update_run (er_run_id row) (λ r,
    let w := rn_workspace r in
    set_rn_workspace (set_rw_detail (Some detail)
      (set_rw_disposition (Some (if bool_decide (rw_disposition w = Some "quarantined")
                                 then "quarantined" else "preserved")) w)) r));;
  mret [].

Definition retained_workspace_disposition (existing : option string) (event_type : string)
    (payload : json) : result string :=
  quarantined ← transpose (λ v, with_context (as_bool v) "workspace quarantine flag must be a boolean")
                  (get "workspace_quarantined" payload);
  Ok (if bool_decide (existing = Some "quarantined") || default false quarantined then "quarantined"
      else if seqb event_type "run.workspace_removed" then "removed" else "preserved").

Definition reported_head (payload : json) : result (option string) :=
  match get "head_commit" payload with
  | None | Some JNull => Ok None
  | Some v => head ← with_context (as_str v) "workspace checkpoint head must be a string"; Ok (Some head)
  end.

(** A lost source correction recovers its missing workspace metadata from the
    exact run it continues. *)
Definition coalesce {A} (a b : option A) : option A := match a with Some _ => a | None => b end.
Definition recover_workspace (previous w : run_workspace) : run_workspace :=
  RunWorkspace (coalesce (rw_path w) (rw_path previous)) (coalesce (rw_branch w) (rw_branch previous))
    (coalesce (rw_base_ref w) (rw_base_ref previous)) (coalesce (rw_base_commit w) (rw_base_commit previous))
    (rw_disposition w) (rw_detail w) (rw_fingerprint w).
Definition corrected_previous (corp run_id : uuid) (db : exec_db) (current : x_run) : option x_run :=
  v ← recovery_where (λ v, not_distinct (rv_replacement_run v) (Some run_id)
        && (rv_corp v =? corp)%N && seqb (rv_mode v) "source_correction" && seqb (rv_status v) "failed") db;
  previous ← run_of db (rv_source_run v.2);
  let b := rn_binding current in let w := rn_workspace previous in
  if (rb_corp b =? corp)%N && bool_decide (rn_status current = RunStatus.Lost)
     && seqb (rb_execution_mode b) "provider" && (rb_corp (rn_binding previous) =? corp)%N
     && not_distinct (rb_resumed_from b) (Some (rv_source_run v.2))
     && (rb_task (rn_binding previous) =? rb_task b)%N && (rb_agent (rn_binding previous) =? rb_agent b)%N
     && seqb (rb_runner (rn_binding previous)) (rb_runner b)
     && (rb_workspace_run (rn_binding previous) =? rb_workspace_run b)%N
     && same_source_identity (rn_binding previous) b
     && sql_eq (rw_fingerprint w) (expected_fingerprint v.2)
     && sql_eq (rw_disposition w) (Some "preserved")
     && match rw_path w with Some path => negb (is_empty path) | None => false end
  then Some previous else None.
Definition recover_lost_workspace (corp run_id : uuid) (db : exec_db) : exec_db :=
  update_run run_id (λ current,
    match corrected_previous corp run_id db current with
    | Some previous => set_rn_workspace (recover_workspace (rn_workspace previous) (rn_workspace current)) current
    | None => current
    end) db.

Definition on_workspace (env : exec_env) (row : event_row) (event_type : string) (payload : json) :
    txn exec_db (list new_event) :=
  let w := rn_workspace (er_run row) in
  let mode := rb_execution_mode (rn_binding (er_run row)) in
  disposition ← lift (retained_workspace_disposition (rw_disposition w) event_type payload);
  let detail := default "runner did not provide cleanup detail" (payload_str "detail" payload) in
  let fingerprint := if seqb disposition "quarantined" then None
                     else payload_str "workspace_fingerprint" payload in
  lift (bail_if match fingerprint with Some f => negb (valid_sha256 f) | None => false end
          "workspace fingerprint is invalid");;
  match fingerprint with
  | Some f =>
      if seqb mode "verification_only" && seqb disposition "preserved" then
        checkpoint ← read_db (source_workspace_checkpoint_of (xe_now env) (er_corp row) (er_run_id row));
        head ← lift (reported_head payload);
        lift (validate_report checkpoint f head)
      else mret tt
  | None => mret tt
  end;;
  lift (bail_if match rw_fingerprint w, fingerprint with
                | Some existing, Some incoming => negb (seqb existing incoming)
                | _, _ => false
                end "workspace fingerprint cannot change after it is recorded");;
  modify (update_run (er_run_id row) (λ r,
    let w := rn_workspace r in
    set_rn_workspace (set_rw_fingerprint (coalesce fingerprint (rw_fingerprint w))
      (set_rw_detail (Some detail) (set_rw_disposition (Some disposition) w))) r));;
  if bool_decide (rn_status (er_run row) = RunStatus.Lost) && seqb mode "provider"
     && seqb disposition "preserved" && is_some fingerprint
  then
    checkpoint ← read_db (source_workspace_checkpoint_of (xe_now env) (er_corp row) (er_run_id row));
    (if sw_source_correction_recovery checkpoint
     then modify (recover_lost_workspace (er_corp row) (er_run_id row)) else mret tt);;
    mret []
  else mret [].

(** *** Completion *)

(** The common end of a completion and an approval: children become ready, and
    the mission is complete exactly when all of its tasks are. *)
Definition finish_mission_step (corp mission room run_id : uuid) (actor : option uuid) :
    txn exec_db (list new_event) :=
  modify (settle_successful_factory_recoveries corp run_id);;
  modify (release_children mission);;
  complete ← gets (mission_complete mission);
  modify (set_open_mission mission (if complete then MissionStatus.Completed else MissionStatus.Running));;
  match complete with
  | true =>
      event ← reconcile_factory_verified_tx corp mission room run_id actor;
      mret (option_list event)
  | false => mret []
  end.

Definition on_completed (row : event_row) (payload : json) : txn exec_db (list new_event) :=
  lift (bail_if (negb (seqb (rn_verification_status (er_run row)) "passed"))
          "run cannot complete before verification passes");;
  lift (bail_if (is_some (vp_manual_gate (er_policy row)))
          "run cannot complete before its manual verification gate");;
  let summary := default "Mission artifact completed" (payload_str "summary" payload) in
  modify (update_run (er_run_id row) (λ r, set_rn_summary (Some summary) (set_rn_status RunStatus.Completed r)));;
  modify (update_task (er_task_id row) (set_task_statuses TaskStatus.Completed "passed"));;
  events ← finish_mission_step (er_corp row) (er_mission_id row) (er_room row) (er_run_id row) None;
  modify (release_agent (er_agent_id row));;
  mret events.

(** *** Failure and cancellation *)
Definition recovery_of_run (corp run_id : uuid) (db : exec_db) : option uuid :=
  fst <$> recovery_where (λ v, (rv_corp v =? corp)%N && not_distinct (rv_replacement_run v) (Some run_id)) db.

Definition on_failed (row : event_row) (scope : option run_scope) (payload : json) :
    txn exec_db (list new_event) :=
  let summary := default "Runner reported failure" (payload_str "error" payload) in
  recovery ← gets (recovery_of_run (er_corp row) (er_run_id row));
  events ← match recovery with
    | Some recovery_id =>
        event ← terminalize_factory_recovery_run_tx (er_corp row) recovery_id (er_run_id row)
                  (er_task_id row) (er_mission_id row) (er_room row) summary RunStatus.Failed
                  "recovery_run_failure";
        mret (option_list event)
    | None =>
        modify (update_run (er_run_id row) (λ r, set_rn_summary (Some summary) (set_rn_status RunStatus.Failed r)));;
        let retry := should_retry_runner_failure (rn_breaker_stage (er_run row))
                       (ta_attempt_count (er_task row)) (ta_max_attempts (er_task row)) in
        modify (update_task (er_task_id row)
                  (set_ta_status (if retry then TaskStatus.Ready else TaskStatus.Failed)));;
        modify (set_open_mission (er_mission_id row)
                  (if retry then MissionStatus.Running else MissionStatus.Failed));;
        match scope with
        | Some scope =>
            if retry then mret []
            else
              event ← reconcile_tx scope (er_corp row) (er_room row) (er_task_id row) (er_run_id row) summary;
              mret (option_list event)
        | None => mret []
        end
    end;
  modify (release_failed_run_agent (er_corp row) (er_agent_id row) (er_run_id row));;
  mret events.

Definition on_cancelled (row : event_row) (payload : json) : txn exec_db (list new_event) :=
  let summary := default "Run cancelled by an authorized operator" (payload_str "reason" payload) in
  recovery ← gets (recovery_of_run (er_corp row) (er_run_id row));
  events ← match recovery with
    | Some recovery_id =>
        event ← terminalize_factory_recovery_run_tx (er_corp row) recovery_id (er_run_id row)
                  (er_task_id row) (er_mission_id row) (er_room row) summary RunStatus.Cancelled
                  "recovery_run_cancelled";
        mret (option_list event)
    | None =>
        modify (update_run (er_run_id row) (λ r, set_rn_summary (Some summary) (set_rn_status RunStatus.Cancelled r)));;
        modify (update_task (er_task_id row) (set_ta_status TaskStatus.Cancelled));;
        modify (update_mission (er_mission_id row) (set_mi_status MissionStatus.Cancelled));;
        mret []
    end;
  modify (release_agent (er_agent_id row));;
  mret events.

(** ** [apply_runner_event] *)
Definition dispatch_event (env : exec_env) (row : event_row) (scope : option run_scope)
    (event_type : string) (payload : json) : txn exec_db (list new_event) :=
  if seqb event_type "run.session" then on_session row payload
  else if seqb event_type "run.started" then on_started row payload
  else if seqb event_type "run.status" then on_status row payload
  else if seqb event_type "run.approval_requested" then on_approval_requested env row payload
  else if seqb event_type "run.tool_activity" then on_tool_activity row payload
  else if mem event_type ["run.artifact"; "run.artifact_upload"; "run.deliverable"; "run.deliverable_upload"]
  then lift (Err "artifact events must pass through server-side object storage verification")
  else if seqb event_type "run.usage" then on_usage row payload
  else if seqb event_type "run.verification_started" then on_verification_started row
  else if seqb event_type "run.verification_evidence" then on_verification_evidence env row payload
  else if seqb event_type "run.verification_passed" then on_verification_passed row payload
  else if seqb event_type "run.verification_waiting" then on_verification_waiting row payload
  else if seqb event_type "run.verification_failed" then on_verification_failed row payload
  else if seqb event_type "run.teardown_uncertain" then on_teardown_uncertain row payload
  else if mem event_type ["run.workspace_preserved"; "run.workspace_removed"]
  then on_workspace env row event_type payload
  else if seqb event_type "run.completed" then on_completed row payload
  else if seqb event_type "run.failed" then on_failed row scope payload
  else if seqb event_type "run.cancelled" then on_cancelled row payload
  else mret [].

(** The guards between the row and the event. *)
Definition check_event (env : exec_env) (input : runner_event_input) (row : event_row)
    (scope : option run_scope) : txn exec_db json :=
  let event_type := re_event_type input in
  let r := er_run row in
  (match scope with
   | Some scope => validate_scope scope (er_corp row) (er_mission_id row)
   | None => mret tt
   end : txn exec_db unit);;
  stale ← gets (failure_is_stale row);
  lift (bail_if (seqb event_type "run.failed" && stale)
          "runner failure targets superseded or accepted work");;
  lift (bail_if (seqb event_type "run.usage"
                 && seqb (rb_execution_mode (rn_binding r)) "verification_only")
          "provider-free verification cannot report model usage");;
  (if seqb event_type "run.session_terminated" then validate_termination_tx row (re_payload input)
   else mret tt);;
  lift (bail_if (breaker_blocks_runner_progress (rn_breaker_stage r) event_type)
          ("run event " +:+ event_type +:+ " is blocked by breaker stage " +:+ rn_breaker_stage r));;
  (if runner_event_advances_run event_type then
     lift (bail_if (bool_decide (rw_disposition (rn_workspace r) = Some "quarantined"))
             "quarantined workspace cannot accept run progress");;
     read_db (ensure_not_hard_blocked (xe_now env) (er_corp row) (er_run_id row) (rn_breaker_stage r)
                ("run event " +:+ event_type))
   else mret tt);;
  if seqb event_type "run.verification_evidence"
  then read_db (sanitize_verification_evidence (er_run_id row) (re_payload input))
  else mret (re_payload input).

Definition runner_event (input : runner_event_input) (row : event_row) (payload : json) : new_event :=
  correlated (Some (er_mission_id row))
    (at_version (Some (er_room row)) 1
       (new_event_of (re_corp_id input) None (re_event_type input) "run" (re_run_id input)
          ("runner:" +:+ re_runner_id input +:+ ":event:" +:+ uuid_to_string (re_event_id input)) payload)).

Definition apply_runner_event (env : exec_env) (input : runner_event_input) :
    txn exec_db runner_event_outcome :=
  let event_type := re_event_type input in
  scope ← (if event_reconciles_factory event_type
           then s ← read_scope (re_corp_id input) (re_run_id input); mret (Some s) else mret None);
  (if seqb event_type "run.usage" then
     fetch_one (usage_requester input) "runner usage event does not match an active run";; mret tt
   else mret tt);;
  row ← admit_row input;
  payload ← check_event env input row scope;
  event ← append_event_tx (runner_event input row payload);
  match event with
  | None => mret (RunnerEventOutcome None [])
  | Some event =>
      related ← dispatch_event env row scope event_type payload;
      mret (RunnerEventOutcome (Some event) related)
  end.
End events.
