(* ===== verification/Dispatch.v ===== *)
(** * Missions, attempts and their dispatch (crates/crony-store: lib.rs, staffing.rs, workspace_connections.rs)

    A plan becomes a mission with its tasks, dependencies and staffed agents
    ([create_mission_tx]); a ready task becomes a run ([create_task_run]); a
    preserved session is resumed ([create_resume_run]); a run that never reached
    its runner is failed ([fail_run_before_dispatch]); the runs of a lost runner
    are ended ([mark_runner_runs_lost_tx]). *)
From S2P Require Import Prelude Text Json Domain Planning Deliverable FactoryPolicy Store FactoryItems Breaker ExecTables Checkpoint RunFailure RunEvents.
Import ItemState (item_state_as_str).

Section dispatch.
Context `{Serde} `{ExecSerde}.

(** ** Creating a mission *)

(** *** Staffing *)
Definition staffing_text_is_invalid (value : string) (limit : Z) : bool :=
  is_empty value || negb (seqb value (trim value)) || (limit <? str_len value)%Z
  || any_char is_control value.

Fixpoint validate_staffed (tasks : list planned_task) (ids : gset uuid) (agents : list planned_agent) :
    result unit :=
  match agents with
  | [] => Ok tt
  | agent :: rest =>
      bail_if (is_nil (pa_id agent) || bool_decide (pa_id agent ∈ ids))
        "mission staffing contains an invalid or duplicate identity";;
      bail_if (staffing_text_is_invalid (pa_name agent) 80 || staffing_text_is_invalid (pa_role agent) 64
               || staffing_text_is_invalid (pa_adapter agent) 64
               || staffing_text_is_invalid (pa_accent agent) 32)
        "mission staffing metadata is invalid";;
      let assigned := List.filter (λ t, (pt_assigned_agent_id t =? pa_id agent)%N) tasks in
      bail_if (vec_is_empty assigned
               || existsb (λ t, negb (seqb (pt_required_adapter t) (pa_adapter agent))) assigned)
        "provisional worker is unused or mismatches its assigned runtime";;
      validate_staffed tasks ({[pa_id agent]} ∪ ids) rest
  end.
Definition validate_staffing (plan : task_graph_plan) : result unit :=
  bail_if ((8 <? vec_len (plan_staffing plan))%Z
           || (vec_len (plan_tasks plan) <? vec_len (plan_staffing plan))%Z)
    "mission staffing exceeds the bounded task graph";;
  validate_staffed (plan_tasks plan) ∅ (plan_staffing plan).

Definition staff_one (corp mission room requester : uuid) (actor_id : uuid) (agent : planned_agent) :
    txn exec_db (list new_event) :=
  require_new (λ db, is_some (ba_actors (x_base db) !! actor_id));;
  modify (on_actors <[actor_id := ActorRow corp (pa_role agent) "agent"]>);;
  require_new (λ db, bool_decide ((room, actor_id) ∈ ba_memberships (x_base db)));;
  modify (on_memberships (λ s, {[(room, actor_id)]} ∪ s));;
  require_new (λ db, is_some (agent_of db (pa_id agent)));;
  modify (on_agents <[pa_id agent :=
    XAgent corp actor_id (pa_name agent) (pa_role agent) (pa_adapter agent) AgentStatus.Idle None None
      (Some mission) None false]>);;
  event ← append_event_tx
    (correlated (Some mission)
       (at_version (Some room) 1
          (new_event_of corp (Some requester) "agent.staffed" "agent" (pa_id agent)
             ("agent:" +:+ uuid_to_string (pa_id agent) +:+ ":staffed")
             (json_object [("mission_id", json_uuid mission); ("actor_id", json_uuid actor_id);
                           ("name", JStr (pa_name agent)); ("role", JStr (pa_role agent));
                           ("adapter", JStr (pa_adapter agent)); ("pinned", JBool false)]))));
  mret (option_list event).

Fixpoint staff_all (corp mission room requester : uuid) (actors : list uuid) (agents : list planned_agent) :
    txn exec_db (list new_event) :=
  match agents, actors with
  | [], _ => mret []
  | agent :: agents, actor_id :: actors =>
      events ← staff_one corp mission room requester actor_id agent;
      rest ← staff_all corp mission room requester actors agents;
      mret (events ++ rest)
  | _ :: _, [] => lift (Err "out of identifiers")
  end.
Definition persist_staffing_tx (env : exec_env) (corp mission room requester : uuid)
    (plan : task_graph_plan) : txn exec_db (list new_event) :=
  lift (validate_staffing plan);;
  staff_all corp mission room requester (xe_actors env) (plan_staffing plan).

(** *** The room of a plan, from its project connections *)
Definition connection_of (db : exec_db) (corp id : uuid) : result x_connection :=
  with_context
    (c ← ba_connections (x_base db) !! id;
     if (cn_corp c =? corp)%N
        && match ba_runners (x_base db) !! cn_runner_node c with
           | Some runner_corp => (runner_corp =? corp)%N
           | None => false
           end
     then Some c else None)
    "connection was not found in this Corp".

Fixpoint plan_room_loop (corp actor : uuid) (room : option uuid) (tasks : list planned_task) :
    txn exec_db (option uuid) :=
  match tasks with
  | [] => mret room
  | task :: rest =>
      match tc_workspace_connection_id (pt_contract task) with
      | None =>
          lift (bail_if (is_some room)
                  "a connected project plan cannot mix unbound execution environments");;
          plan_room_loop corp actor room rest
      | Some id =>
          connection ← read_db (λ db, connection_of db corp id);
          actor_role_tx corp (cn_room connection) actor;;
          lift (bail_if match room with Some r => negb (r =? cn_room connection)%N | None => false end
                  "a mission cannot span unrelated project rooms");;
          lift (bail_if (negb (seqb (cn_status connection) "ready") || negb (cn_runner_connected connection))
                  "the selected project connection is not ready; test or reconnect its machine");;
          source ← lift (with_context (cn_source connection) "connection has no checked repository");
          let '(repository, base_ref, base_commit) := source in
          let c := pt_contract task in
          lift (bail_if (negb (seqb (pt_required_adapter task) (cn_agent connection))
                         || negb (bool_decide (tc_source_repository c = Some repository))
                         || negb (bool_decide (tc_source_base_ref c = Some base_ref))
                         || negb (bool_decide (tc_source_base_commit c = Some base_commit)))
                  "mission adapter or source does not match the saved connection");;
          plan_room_loop corp actor (Some (cn_room connection)) rest
      end
  end.
Definition plan_room_tx (corp actor : uuid) (plan : task_graph_plan) : txn exec_db (option uuid) :=
  room ← plan_room_loop corp actor None (plan_tasks plan);
  lift (bail_if (is_some room
                 && existsb (λ t, negb (is_some (tc_workspace_connection_id (pt_contract t))))
                      (plan_tasks plan))
          "every task must retain its project execution connection");;
  mret room.

(** ORDER BY room.created_at, room.id LIMIT 1 *)
Definition earlier_room (x y : uuid * timestamp) : bool :=
  (x.2 <? y.2)%Z || ((x.2 =? y.2)%Z && (x.1 <=? y.1)%N).
Definition room_of_actor (corp actor : uuid) (db : exec_db) : option uuid :=
  fst <$> head (sort_by earlier_room
    (omap (λ '(id, (room_corp, at_)),
       if (room_corp =? corp)%N && bool_decide ((id, actor) ∈ ba_memberships (x_base db))
       then Some (id, at_) else None) (map_to_list (ba_rooms (x_base db))))).

Definition mission_creation_admission_tx (corp requester : uuid) (title description : string)
    (plan : task_graph_plan) : txn exec_db (string * string * uuid) :=
  title ← lift (normalize_mission_title title);
  description ← lift (normalize_mission_description description);
  assert_mission_operator_tx corp requester;;
  lift (validate_staffing plan);;
  planned ← plan_room_tx corp requester plan;
  room ← match planned with
    | Some room => mret room
    | None => fetch_one (room_of_actor corp requester)
                "forbidden: actor is not a member of any room in this Corp"
    end;
  mret (title, description, room).

(** *** The graph *)
Definition task_ids_of (plan : task_graph_plan) (ids : list uuid) : gmap string uuid :=
  foldl (λ m '(t, id), <[pt_key t := id]> m) ∅ (zip (plan_tasks plan) ids).

(** The adapter of an agent a mission of this room may use. *)
Definition plannable_agent (corp mission requester room agent_id : uuid) (db : exec_db) : option string :=
  a ← agent_of db agent_id;
  let own := match xa_mission a with None => true | Some m => (m =? mission)%N end in
  let shared := match xa_mission a with
    | None => false
    | Some m =>
        match mission_of db m with
        | Some row => (mi_corp row =? corp)%N && (mi_room row =? room)%N
                      && bool_decide ((mi_room row, requester) ∈ ba_memberships (x_base db))
        | None => false
        end
    end in
  if (xa_corp a =? corp)%N && negb (is_some (xa_retired_at a)) && (own || xa_pinned a)
     && (own || shared)
  then Some (xa_adapter a) else None.

Definition create_task (env : exec_env) (corp mission room requester : uuid) (ids : gmap string uuid)
    (task : planned_task) : txn exec_db new_event :=
  task_id ← lift (with_context (ids !! pt_key task) "planned task id unexpectedly missing");
  adapter ← fetch_one (plannable_agent corp mission requester room (pt_assigned_agent_id task))
    ("planned task " +:+ pt_key task +:+ " references an agent outside the Corp");
  lift (bail_if (negb (seqb adapter (pt_required_adapter task)))
          ("planned task " +:+ pt_key task +:+ " requires adapter " +:+ pt_required_adapter task
           +:+ " but assigned agent uses " +:+ adapter));;
  let status := if vec_is_empty (pt_depends_on task) then TaskStatus.Ready else TaskStatus.Pending in
  require_new (λ db, is_some (task_of db task_id)
    || existsb (λ '(_, t), (ta_mission t =? mission)%N && seqb (ta_plan_key t) (pt_key task))
         (map_to_list (co_tasks (x_core db))));;
  lift (bail_if (negb (in_range 0 8 (pt_depth task)) || negb (in_range 1 5 (pt_max_attempts task)))
          "violates check constraint");;
  modify (on_tasks <[task_id :=
    XTask mission corp (pt_title task) (pt_key task)
      (normalize_for_adapter (pt_contract task) (pt_required_adapter task)) (pt_depth task)
      (pt_max_attempts task) 0 (Some (pt_required_adapter task)) status
      (Some (pt_assigned_agent_id task)) (pt_verification_policy task) "pending" (xe_now env)]>);;
  append_new_event
    (NewEvent corp (Some room) (Some requester) "task.created" "task" task_id 1 (Some mission)
       (Some (xe_mission_event env)) ("task:" +:+ uuid_to_string task_id +:+ ":created") "corp"
       (json_object
          [("plan_key", JStr (pt_key task)); ("title", JStr (pt_title task));
           ("assigned_agent_id", json_uuid (pt_assigned_agent_id task));
           ("required_adapter", JStr (pt_required_adapter task));
           ("depends_on", JArr (JStr <$> pt_depends_on task)); ("depth", JInt (pt_depth task));
           ("max_attempts", JInt (pt_max_attempts task));
           ("budget_tokens", JInt (tc_budget_tokens (pt_contract task)));
           ("status", JStr (TaskStatus.task_status_as_str status))]))
    "task created event unexpectedly existed".

(** [for x in xs { f(x).await?; }] *)
Fixpoint each {A B} (f : A → txn exec_db B) (xs : list A) : txn exec_db (list B) :=
  match xs with
  | [] => mret []
  | x :: rest => y ← f x; ys ← each f rest; mret (y :: ys)
  end.

(** PRIMARY KEY (task_id, depends_on_task_id), CHECK (task_id <> depends_on_task_id) *)
Definition create_dependency (ids : gmap string uuid) (task_id : uuid) (dependency : string) :
    txn exec_db unit :=
  parent ← lift (with_context (ids !! dependency) ("unknown planned dependency " +:+ dependency));
  require_new (λ db, bool_decide ((task_id, parent) ∈ co_dependencies (x_core db)));;
  lift (bail_if (task_id =? parent)%N "violates check constraint");;
  modify (on_dependencies (λ l, l ++ [(task_id, parent)])).
Definition create_dependencies (ids : gmap string uuid) (task : planned_task) : txn exec_db unit :=
  task_id ← lift (with_context (ids !! pt_key task) "planned task id unexpectedly missing");
  each (create_dependency ids task_id) (pt_depends_on task);;
  mret tt.

(** CHECK missions_graph_limits_check and missions_original_budget_check *)
Definition mission_row_is_invalid (plan : task_graph_plan) : bool :=
  negb (in_range 1 32 (plan_max_nodes plan)) || negb (in_range 0 8 (plan_max_depth plan))
  || negb (in_range 1 20000000 (plan_budget_tokens plan))
  || (plan_budget_cost_microusd plan <=? 0)%Z.

Record mission_plan_ids := MissionPlanIds { mp_mission_id : uuid; mp_task_ids : list uuid }.

Definition create_mission_tx (env : exec_env) (corp requester : uuid) (title description : string)
    (plan : task_graph_plan) : txn exec_db (mission_plan_ids * list new_event) :=
  admitted ← mission_creation_admission_tx corp requester title description plan;
  let '(title, description, room) := admitted in
  let mission := xe_mission env in
  require_new (λ db, is_some (mission_of db mission));;
  lift (bail_if (mission_row_is_invalid plan) "violates check constraint");;
  modify (on_missions <[mission :=
    XMission corp room requester title description (plan_strategy plan) (plan_max_nodes plan)
      (plan_max_depth plan) (plan_budget_tokens plan) (plan_budget_cost_microusd plan)
      MissionStatus.Ready]>);;
  created ← append_new_event
    (correlated (Some mission) (at_version (Some room) 1
       (new_event_of corp (Some requester) "mission.created" "mission" mission
          ("mission:" +:+ uuid_to_string mission +:+ ":created")
          (json_object
             [("title", JStr title); ("description_bytes", JInt (str_len description));
              ("description_sha256", JStr (text_sha256 description)); ("specification_version", JInt 1);
              ("strategy", JStr (plan_strategy plan)); ("max_nodes", JInt (plan_max_nodes plan));
              ("max_depth", JInt (plan_max_depth plan)); ("budget_tokens", JInt (plan_budget_tokens plan));
              ("budget_cost_microusd", JInt (plan_budget_cost_microusd plan)); ("status", JStr "ready")]))))
    "mission created event unexpectedly existed";
  let ids := task_ids_of plan (xe_tasks env) in
  staffed ← persist_staffing_tx env corp mission room requester plan;
  tasks ← each (create_task env corp mission room requester ids) (plan_tasks plan);
  each (create_dependencies ids) (plan_tasks plan);;
  let task_ids := omap (λ t, ids !! pt_key t) (plan_tasks plan) in
  planned ← append_new_event
    (NewEvent corp (Some room) (Some requester) "mission.planned" "mission" mission 1 (Some mission)
       (Some (xe_mission_event env)) ("mission:" +:+ uuid_to_string mission +:+ ":planned") "corp"
       (json_object [("strategy", JStr (plan_strategy plan));
                     ("task_count", JInt (vec_len (plan_tasks plan)));
                     ("task_ids", JArr (json_uuid <$> task_ids))]))
    "mission planned event unexpectedly existed";
  mret (MissionPlanIds mission task_ids, [created] ++ staffed ++ tasks ++ [planned]).

(** ** Prompts *)
Definition lines_of (values : list string) : string := join newline ((λ v, "- " +:+ v) <$> values).
Definition secret_lines (c : task_contract) : string :=
  match tc_secret_refs c with
  | [] => "- none"
  | refs => join newline ((λ s, "- " +:+ sr_env_name s +:+ " via " +:+ sr_tool s +:+ " for "
              +:+ sr_resource s +:+ " (secret " +:+ uuid_to_string (sr_secret_id s) +:+ ")") <$> refs)
  end.
Definition format_task_prompt (mission_title task_title : string) (c : task_contract) (attempt : Z) :
    string :=
  "MISSION: " +:+ mission_title +:+ newline +:+ "TASK: " +:+ task_title +:+ newline
  +:+ "ATTEMPT: " +:+ show_int attempt +:+ newline
  +:+ "SOURCE REPOSITORY: " +:+ default "runner default" (tc_source_repository c) +:+ newline
  +:+ "SOURCE BASE REF: " +:+ default "runner default" (tc_source_base_ref c) +:+ newline
  +:+ "SOURCE BASE COMMIT: " +:+ default "runner default" (tc_source_base_commit c) +:+ newline
  +:+ "OBJECTIVE: " +:+ tc_objective c +:+ newline
  +:+ "EXPECTED OUTPUT: " +:+ tc_expected_output c +:+ newline
  +:+ "ACCEPTANCE TESTS:" +:+ newline +:+ lines_of (tc_acceptance_tests c) +:+ newline
  +:+ "ALLOWED TOOLS:" +:+ newline +:+ lines_of (tc_allowed_tools c) +:+ newline
  +:+ "PROHIBITED ACTIONS:" +:+ newline +:+ lines_of (tc_prohibited_actions c) +:+ newline
  +:+ "REFERENCES:" +:+ newline
  +:+ (match tc_references c with [] => "- none" | refs => lines_of refs end) +:+ newline
  +:+ "WRITE SCOPE:" +:+ newline +:+ lines_of (tc_write_scope c) +:+ newline
  +:+ "TOKEN BUDGET: " +:+ show_int (tc_budget_tokens c) +:+ newline
  +:+ "COST BUDGET (MICROUSD): " +:+ show_int (tc_budget_cost_microusd c) +:+ newline
  +:+ "MODEL: " +:+ default "provider default" (tc_model c) +:+ newline
  +:+ "REASONING EFFORT: " +:+ default "provider default" (tc_reasoning_effort c) +:+ newline
  +:+ "DELIVERABLE FORM: " +:+ default "none" (contract_form c) +:+ newline
  +:+ "COMMIT AFTER VERIFICATION: " +:+ (if contract_commits_after c then "true" else "false") +:+ newline
  +:+ "SECRET CAPABILITIES:" +:+ newline +:+ secret_lines c +:+ newline
  +:+ "DEADLINE: " +:+ from_option timestamp_rfc3339 "none" (tc_deadline_at c) +:+ newline
  +:+ "ESCALATION: " +:+ tc_escalation c.

Definition append_queued_messages (prompt : string) (messages : list x_message) : string :=
  match messages with
  | [] => prompt
  | _ =>
      prompt +:+ newline +:+ newline +:+ "QUEUED OPERATOR NOTES:" +:+ newline
      +:+ "These durable notes were queued while the agent was off shift. Address each note in this turn."
      +:+ newline
      +:+ join "" ((λ q, "- message " +:+ uuid_to_string (xq_id q) +:+ " from actor "
            +:+ uuid_to_string (xq_actor q) +:+ ": " +:+ xq_text q +:+ newline) <$> messages)
  end.

(** The first twenty queued messages of the agent, ORDER BY created_at. *)
Definition queued_for (corp agent_id : uuid) (db : exec_db) : list x_message :=
  take 20 (sort_by (λ a b, (xq_created_at a <=? xq_created_at b)%Z)
    (List.filter (λ q, (xq_corp q =? corp)%N && (xq_agent q =? agent_id)%N && seqb (xq_status q) "queued")
       (si_messages (x_side db)))).
Definition reserve_queued_messages_tx (corp agent_id run_id : uuid) : txn exec_db (list x_message) :=
  queued ← gets (queued_for corp agent_id);
  modify (on_messages (fmap (λ q, if existsb (λ p, (xq_id p =? xq_id q)%N) queued
                                  then set_message_delivery "reserved" (Some run_id) q else q)));;
  mret queued.

(** ** The connection of a run *)
Definition inherited_connection (corp : uuid) (r : x_run) (c : task_contract) (db : exec_db) :
    result (option uuid) :=
  match rb_resumed_from (rn_binding r) with
  | None => Ok (tc_workspace_connection_id c)
  | Some source_id =>
      source ← with_context (s ← run_of db source_id;
                             if (rb_corp (rn_binding s) =? corp)%N
                                && same_assignment (rn_binding s) (rn_binding r) then Some s else None)
        "resumed connection lost its exact source assignment";
      bail_if (negb (bool_decide (rn_connection source = tc_workspace_connection_id c)))
        "resume cannot switch the saved execution connection";;
      Ok (rn_connection source)
  end.

Definition check_run_connection (r : x_run) (t : x_task) (m : x_mission) (connection : x_connection) :
    result unit :=
  let b := rn_binding r in
  bail_if (negb (cn_room connection =? mi_room m)%N || negb (seqb (cn_runner connection) (rb_runner b))
           || negb (bool_decide (Some (cn_agent connection) = ta_required_adapter t)))
    "run does not belong to the selected connection's room, machine and agent";;
  bail_if (negb (cn_runner_connected connection)) "the saved connection's runner is not connected";;
  bail_if (seqb (rb_execution_mode b) "provider" && negb (seqb (cn_status connection) "ready"))
    "the coding-agent connection needs attention before provider execution";;
  source ← with_context (cn_source connection) "execution connection has no accepted repository";
  let '(repository, base_ref, base_commit) := source in
  bail_if (negb (bool_decide (rb_source_repository b = Some repository))
           || negb (bool_decide (rb_source_base_ref b = Some base_ref)))
    "execution connection belongs to another source repository";;
  bail_if (negb (is_some (rb_resumed_from b)) && negb (bool_decide (rb_source_base_commit b = Some base_commit)))
    "the saved source revision changed before dispatch".

Definition validate_run_connection (corp run_id : uuid) (db : exec_db) : result (option uuid) :=
  row ← with_context (run_joined db corp run_id) no_rows;
  let '(r, t, m) := row in
  id ← inherited_connection corp r (ta_contract t) db;
  match id with
  | None => Ok None
  | Some id =>
      connection ← connection_of db corp id;
      check_run_connection r t m connection;;
      Ok (Some id)
  end.
Definition bind_new_run_tx (corp run_id : uuid) : txn exec_db (option uuid) :=
  id ← read_db (validate_run_connection corp run_id);
  modify (update_run run_id (set_rn_connection id));;
  mret id.

(** ** Scheduling and starting an attempt *)
Definition active_on (p : run_binding → bool) (db : exec_db) : bool :=
  existsb (λ '(_, r), p (rn_binding r) && run_active (rn_status r)) (map_to_list (co_runs (x_core db))).
Definition task_busy (task_id : uuid) : exec_db → bool := active_on (λ b, (rb_task b =? task_id)%N).
Definition agent_busy (agent_id : uuid) : exec_db → bool := active_on (λ b, (rb_agent b =? agent_id)%N).

Definition task_waits (s : task_status) : bool :=
  bool_decide (s = TaskStatus.Pending) || bool_decide (s = TaskStatus.Ready).

(** The WHERE clause of [schedulable_tasks], and its ORDER BY. *)
Definition schedulable (corp mission : uuid) (explicit_dispatch : bool) (db : exec_db) (id : uuid)
    (t : x_task) : bool :=
  match mission_of db (ta_mission t), a ← ta_assigned_agent t; agent_of db a with
  | Some m, Some a =>
      (ta_corp t =? corp)%N && (ta_mission t =? mission)%N
      && (bool_decide (mi_status m = MissionStatus.Running)
          || (explicit_dispatch && bool_decide (mi_status m = MissionStatus.Ready)))
      && task_waits (ta_status t) && bool_decide (xa_status a = AgentStatus.Idle)
      && negb (is_some (xa_retired_at a)) && (ta_attempt_count t <? ta_max_attempts t)%Z
      && dependencies_done db id && negb (task_busy id db)
      && match ta_assigned_agent t with Some agent_id => negb (agent_busy agent_id db) | None => true end
  | _, _ => false
  end.
Definition schedule_order (x y : uuid * x_task) : bool :=
  let a := x.2 in let b := y.2 in
  (ta_depth a <? ta_depth b)%Z
  || ((ta_depth a =? ta_depth b)%Z
      && ((ta_created_at a <? ta_created_at b)%Z
          || ((ta_created_at a =? ta_created_at b)%Z && (x.1 <=? y.1)%N))).
Definition schedulable_tasks (corp mission : uuid) (explicit_dispatch : bool) (db : exec_db) : list uuid :=
  (sort_by schedule_order
     (List.filter (λ x, schedulable corp mission explicit_dispatch db x.1 x.2)
        (map_to_list (co_tasks (x_core db))))).*1.

Record launch_record := LaunchRecord {
  lr_room_id : uuid; lr_task_id : uuid; lr_run_id : uuid; lr_agent_id : uuid;
  lr_assignment_token : uuid; lr_attempt : Z; lr_adapter : string; lr_prompt : string;
  lr_contract : task_contract; lr_connection : option uuid; lr_policy : verification_policy;
  lr_queued_messages : list x_message }.

Definition new_run (env : exec_env) (corp task_id agent_id : uuid) (runner : string)
    (session : option string) (resumed_from : option uuid) (workspace_run : uuid)
    (tokens cost : Z) (c : task_contract) : x_run :=
  XRun (RunBinding corp task_id agent_id runner (xe_token env) "provider" resumed_from workspace_run
          (tc_source_repository c) (tc_source_base_ref c) (tc_source_base_commit c) (tc_model c)
          (tc_reasoning_effort c) tokens cost (xe_now env))
    RunStatus.Starting "pending" None None None None "healthy" session None None
    (RunUsage 0 0 0 0 0 None) (RunWorkspace None None None None None None None).

Definition insert_run_tx (id : uuid) (r : x_run) : txn exec_db unit :=
  require_new (λ db, is_some (run_of db id));;
  modify (on_runs <[id := r]>).

(** UPDATE agents SET status = 'starting', station = 'dispatch', current_run_id = .., retired_at = NULL *)
Definition dispatch_agent (run_id : uuid) (a : x_agent) : x_agent :=
  set_agent_retired None (set_agent_run (Some run_id)
    (set_agent_desk AgentStatus.Starting (Some "dispatch") a)).

Definition launch_row (corp mission task_id : uuid) (db : exec_db) :
    option (x_mission * x_task * uuid * x_agent) :=
  m ← mission_of db mission;
  t ← task_of db task_id;
  agent_id ← ta_assigned_agent t;
  a ← agent_of db agent_id;
  if (mi_corp m =? corp)%N && (ta_mission t =? mission)%N then Some (m, t, agent_id, a) else None.

(** Everything that refuses an attempt. *)
Definition check_launch (explicit : bool) (task_id : uuid) (m : x_mission) (t : x_task) (agent_id : uuid)
    (a : x_agent) : txn exec_db unit :=
  let mission_status := MissionStatus.mission_status_as_str (mi_status m) in
  lift (bail_if (negb (mission_allows_dispatch mission_status explicit))
          (if seqb mission_status "ready"
           then "mission is held at briefing until an operator explicitly dispatches it"
           else "mission is already " +:+ mission_status));;
  lift (bail_if (is_some (xa_retired_at a)) "assigned mission worker is retired");;
  lift (bail_if (negb (task_waits (ta_status t)))
          ("task is not schedulable from status " +:+ TaskStatus.task_status_as_str (ta_status t)));;
  let required := default (xa_adapter a) (ta_required_adapter t) in
  lift (bail_if (negb (seqb (xa_adapter a) required))
          ("assigned agent adapter " +:+ xa_adapter a +:+ " does not satisfy " +:+ required));;
  ready ← gets (λ db, dependencies_done db task_id);
  lift (bail_if (negb ready) "task dependencies are not complete");;
  busy ← gets (task_busy task_id);
  lift (bail_if busy "task already has active run");;
  busy ← gets (agent_busy agent_id);
  lift (bail_if busy "assigned agent already has active run");;
  lift (bail_if (ta_max_attempts t <=? ta_attempt_count t)%Z "task exhausted its retry limit").

Definition run_requested_event (env : exec_env) (corp mission task_id agent_id : uuid)
    (requested_by : option uuid) (runner : string) (m : x_mission) (t : x_task) (attempt : Z) : new_event :=
  correlated (Some mission) (at_version (Some (mi_room m)) 1
    (new_event_of corp requested_by "run.requested" "run" (xe_run env)
       ("run:" +:+ uuid_to_string (xe_run env) +:+ ":requested")
       (json_object
          [("mission_launch", JBool (bool_decide (mi_status m = MissionStatus.Ready)));
           ("task_id", json_uuid task_id); ("agent_id", json_uuid agent_id); ("runner_id", JStr runner);
           ("attempt", JInt attempt); ("max_attempts", JInt (ta_max_attempts t));
           ("model", json_opt_str (tc_model (ta_contract t)));
           ("reasoning_effort", json_opt_str (tc_reasoning_effort (ta_contract t)));
           ("status", JStr "starting")]))).

Definition create_task_run (env : exec_env) (corp mission task_id : uuid) (requested_by : option uuid)
    (runner : string) : txn exec_db (launch_record * new_event) :=
  (match requested_by with
   | Some actor => assert_mission_operator_tx corp actor
   | None => mret tt
   end : txn exec_db unit);;
  row ← fetch_one (launch_row corp mission task_id) "mission or task not found";
  let '(m, t, agent_id, a) := row in
  (match requested_by with
   | Some actor => assert_room_membership_tx corp (mi_room m) actor
   | None => mret tt
   end : txn exec_db unit);;
  check_launch (is_some requested_by) task_id m t agent_id a;;
  attempt ← lift (int4 (ta_attempt_count t + 1));
  let c := ta_contract t in
  let prompt := format_task_prompt (mi_title m) (ta_title t) c attempt in
  insert_run_tx (xe_run env)
    (new_run env corp task_id agent_id runner None None (xe_run env) (tc_budget_tokens c)
       (tc_budget_cost_microusd c) c);;
  connection ← bind_new_run_tx corp (xe_run env);
  queued ← reserve_queued_messages_tx corp agent_id (xe_run env);
  modify (set_open_mission mission MissionStatus.Running);;
  modify (update_task task_id (λ t, set_ta_attempt_count attempt
            (set_task_statuses TaskStatus.Claimed "pending" t)));;
  modify (update_agent agent_id (dispatch_agent (xe_run env)));;
  event ← append_new_event
    (run_requested_event env corp mission task_id agent_id requested_by runner m t attempt)
    "run requested event unexpectedly existed";
  mret (LaunchRecord (mi_room m) task_id (xe_run env) agent_id (xe_token env) attempt (xa_adapter a)
          (append_queued_messages prompt queued) c connection (ta_policy t) queued, event).

(** ** Resuming a preserved session *)
Definition ensure_generic_resume_is_not_factory_recovery (factory_linked : bool) (task_status : task_status)
    (source_verification_status : string) : result unit :=
  bail_if (factory_linked && (bool_decide (task_status = TaskStatus.VerificationFailed)
                              || seqb source_verification_status "failed"))
    "factory verification-failed lineage requires governed verification recovery".

Definition mission_usage (corp mission : uuid) (db : exec_db) : result (Z * Z) :=
  let rows := List.filter (λ r, (br_corp_id r =? corp)%N)
                (mission_runs (breaker_view db) mission) in
  tokens ← sum_bigint run_tokens rows;
  cost ← sum_bigint run_cost rows;
  Ok (tokens, cost).

Record resume_budget := ResumeBudget {
  rs_tokens_used : Z; rs_cost_used : Z; rs_rolling : rolling_budget_remaining; rs_tokens : Z; rs_cost : Z }.

Definition resume_budget_of (env : exec_env) (corp mission : uuid) (m : x_mission) (c : task_contract)
    (db : exec_db) : result resume_budget :=
  used ← mission_usage corp mission db;
  let tokens := (mi_budget_tokens m - used.1)%Z in
  let cost := (mi_budget_cost_microusd m - used.2)%Z in
  bail_if ((tokens <=? 0)%Z || (cost <=? 0)%Z)
    "mission has no remaining authorized budget; an owner or admin must approve a budget revision before resume";;
  rolling ← rolling_budget_remaining_of (breaker_view db) (xe_now env) corp (mi_requested_by m);
  bail_if ((rb_actor_tokens rolling <=? 0)%Z || (rb_actor_cost_microusd rolling <=? 0)%Z
           || (rb_corp_tokens rolling <=? 0)%Z || (rb_corp_cost_microusd rolling <=? 0)%Z)
    "requester or Corp rolling budget has no remaining authority; wait for the window to clear or revise Corp policy before resume";;
  Ok (ResumeBudget used.1 used.2 rolling
        (Z.min (Z.min (Z.min (tc_budget_tokens c) tokens) (rb_actor_tokens rolling)) (rb_corp_tokens rolling))
        (Z.min (Z.min (Z.min (tc_budget_cost_microusd c) cost) (rb_actor_cost_microusd rolling))
           (rb_corp_cost_microusd rolling))).

Definition check_resume (scope : run_scope) (corp source_id requester : uuid) (source : x_run) (t : x_task)
    (m : x_mission) (agent_id : uuid) : txn exec_db (string * string) :=
  assert_room_membership_tx corp (mi_room m) requester;;
  linked ← gets (λ db, is_some (item_of_mission (rb_corp (rn_binding source)) (ta_mission t) db));
  lift (ensure_generic_resume_is_not_factory_recovery linked (ta_status t) (rn_verification_status source));;
  session ← lift (with_context (rn_session source) "source run has no resumable provider session");
  base ← lift (with_context (rw_base_commit (rn_workspace source))
                 "source run has no persisted workspace base commit");
  lift (bail_if (negb (bool_decide (rw_disposition (rn_workspace source) = Some "preserved")))
          "source run workspace is not preserved and cannot be resumed safely");;
  lift (bail_if (seqb (rn_breaker_stage source) "stop")
          "source run reached a stop-stage breaker and cannot be resumed");;
  validate_scope scope corp (ta_mission t);;
  busy ← gets (active_on (λ b, (rb_task b =? rb_task (rn_binding source))%N || (rb_agent b =? agent_id)%N));
  lift (bail_if busy "task or assigned agent already has an active run");;
  lineage ← gets (workspace_lineage corp (rb_workspace_run (rn_binding source)));
  lift (bail_if (existsb (λ x, seqb (rn_breaker_stage x.2) "stop") lineage)
          "provider workspace lineage reached a stop-stage breaker and cannot be resumed");;
  latest ← lift (latest_workspace_source_id lineage);
  lift (bail_if (negb (latest =? source_id)%N)
          "source run is not the latest run in its provider workspace lineage");;
  mret (session, base).

Definition resume_event (env : exec_env) (corp requester source_id task_id agent_id : uuid)
    (source : x_run) (m : x_mission) (mission : uuid) (a : x_agent) (c : task_contract)
    (budget : resume_budget) : new_event :=
  let rolling := rs_rolling budget in
  correlated (Some mission) (at_version (Some (mi_room m)) 1
    (new_event_of corp (Some requester) "run.resume_requested" "run" (xe_run env)
       ("run:" +:+ uuid_to_string (xe_run env) +:+ ":resume-requested")
       (json_object
          [("source_run_id", json_uuid source_id);
           ("mission_worker_reactivated", JBool (is_some (xa_retired_at a)));
           ("workspace_run_id", json_uuid (rb_workspace_run (rn_binding source)));
           ("task_id", json_uuid task_id); ("agent_id", json_uuid agent_id);
           ("runner_id", JStr (rb_runner (rn_binding source))); ("model", json_opt_str (tc_model c));
           ("reasoning_effort", json_opt_str (tc_reasoning_effort c));
           ("mission_tokens_used", JInt (rs_tokens_used budget));
           ("mission_cost_microusd_used", JInt (rs_cost_used budget));
           ("remaining_mission_tokens", JInt (mi_budget_tokens m - rs_tokens_used budget));
           ("remaining_mission_cost_microusd", JInt (mi_budget_cost_microusd m - rs_cost_used budget));
           ("remaining_actor_tokens_24h", JInt (rb_actor_tokens rolling));
           ("remaining_actor_cost_microusd_24h", JInt (rb_actor_cost_microusd rolling));
           ("remaining_corp_tokens_24h", JInt (rb_corp_tokens rolling));
           ("remaining_corp_cost_microusd_24h", JInt (rb_corp_cost_microusd rolling));
           ("resume_budget_tokens", JInt (rs_tokens budget));
           ("resume_budget_cost_microusd", JInt (rs_cost budget))]))).

Record resume_launch_record := ResumeLaunchRecord {
  rl_task_id : uuid; rl_run_id : uuid; rl_source_run_id : uuid; rl_workspace_run_id : uuid;
  rl_runner_id : string; rl_assignment_token : uuid; rl_session : string; rl_prompt : string;
  rl_connection : option uuid; rl_base_commit : string; rl_policy : verification_policy;
  rl_contract : task_contract; rl_queued_messages : list x_message }.

(** Runs joined with task, mission and agent, without the scope of their corps. *)
Definition resume_row (corp source_id : uuid) (db : exec_db) : option (x_run * x_task * x_mission * x_agent) :=
  r ← run_of db source_id;
  t ← task_of db (rb_task (rn_binding r));
  m ← mission_of db (ta_mission t);
  a ← agent_of db (rb_agent (rn_binding r));
  if (rb_corp (rn_binding r) =? corp)%N then Some (r, t, m, a) else None.

Definition create_resume_run (env : exec_env) (corp source_id requester : uuid) :
    txn exec_db (resume_launch_record * new_event) :=
  scope ← read_scope corp source_id;
  row ← fetch_one (resume_row corp source_id) "source run not found";
  let '(source, t, m, a) := row in
  let b := rn_binding source in
  let task_id := rb_task b in let mission := ta_mission t in let c := ta_contract t in
  checked ← check_resume scope corp source_id requester source t m (rb_agent b);
  let '(session, base) := checked in
  let prompt := format_task_prompt (mi_title m) (ta_title t) c (Z.max (ta_attempt_count t) 1) in
  budget ← read_db (resume_budget_of env corp mission m c);
  insert_run_tx (xe_run env)
    (new_run env corp task_id (rb_agent b) (rb_runner b) (Some session) (Some source_id)
       (rb_workspace_run b) (rs_tokens budget) (rs_cost budget) c);;
  connection ← bind_new_run_tx corp (xe_run env);
  queued ← reserve_queued_messages_tx corp (rb_agent b) (xe_run env);
  modify (update_mission mission (set_mi_status MissionStatus.Running));;
  modify (update_task task_id (set_task_statuses TaskStatus.Claimed "pending"));;
  modify (update_agent (rb_agent b) (dispatch_agent (xe_run env)));;
  resume_tx scope corp (mi_room m) source_id (rn_status source) (xe_run env) requester;;
  event ← append_new_event
    (resume_event env corp requester source_id task_id (rb_agent b) source m mission a c budget)
    "run resume event unexpectedly existed";
  mret (ResumeLaunchRecord task_id (xe_run env) source_id (rb_workspace_run b) (rb_runner b)
          (xe_token env) session prompt connection base (ta_policy t) c queued, event).

(** ** A run that never reached its runner *)
Definition dispatch_failure_reconciles (state : factory_work_item_state) : bool :=
  match state with
  | ItemState.Claimed | ItemState.MissionCreated | ItemState.Running | ItemState.Blocked
  | ItemState.AwaitingApproval | ItemState.VerificationFailed => true
  | _ => false
  end.

Definition run_started (corp run_id : uuid) (db : exec_db) : bool :=
  existsb (λ e, (ev_corp_id e =? corp)%N && seqb (ev_aggregate_type e) "run"
                && (ev_aggregate_id e =? run_id)%N && mem (ev_type e) ["run.started"; "run.session"])
    (x_log db).

(** UPDATE queued_messages SET status = 'queued', run_id = NULL WHERE run_id = .. AND status = 'reserved' *)
Definition requeue (run_id : uuid) : exec_db → exec_db := on_reserved run_id (set_message_delivery "queued" None).

Definition fail_dispatched_run (corp run_id : uuid) (r : x_run) (t : x_task) (m : x_mission) (reason : string) :
    txn exec_db (list new_event) :=
  let b := rn_binding r in
  modify (update_run run_id (λ r, set_rn_workspace
    (set_rw_detail (Some "dispatch_not_started") (rn_workspace r))
    (set_rn_summary (Some reason) (set_rn_status RunStatus.Failed r))));;
  modify (on_messages (fmap (λ q,
    if bool_decide (xq_run q = Some run_id) && (xq_corp q =? corp)%N && seqb (xq_status q) "reserved"
    then set_message_delivery "queued" None q else q)));;
  modify (update_task (rb_task b) (set_ta_status TaskStatus.Failed));;
  modify (update_mission (ta_mission t) (set_mi_status MissionStatus.Failed));;
  modify (update_agent (rb_agent b) (λ a,
    if bool_decide (xa_current_run a = Some run_id) && (xa_corp a =? corp)%N
    then set_agent_run None (set_agent_desk AgentStatus.Idle None a) else a));;
  event ← append_event_tx
    (correlated (Some (ta_mission t)) (at_version (Some (mi_room m)) 1
       (new_event_of corp None "run.failed" "run" run_id
          ("run:" +:+ uuid_to_string run_id +:+ ":dispatch-failed")
          (json_object [("error", JStr reason); ("dispatch_not_started", JBool true)]))));
  mret (option_list event).

Definition block_dispatched_item (corp run_id mission room : uuid) (item : factory_work_item)
    (reason : string) : txn exec_db (list new_event) :=
  let key := "factory:" +:+ uuid_to_string (fw_id item) +:+ ":dispatch-failed:" +:+ uuid_to_string run_id in
  recorded ← gets (λ db, existsb (λ e, (ev_corp_id e =? corp)%N && seqb (ev_idempotency_key e) key) (x_log db));
  match recorded with
  | true => mret []
  | false =>
      moved ← move_item_tx (fw_id item) (λ i, (fw_corp_id i =? corp)%N) ItemState.Blocked (Some reason);
      event ← append_event_tx
        (NewEvent corp (Some room) None "factory.blocked" "factory_work_item" (fw_id item)
           (fw_version moved) (Some mission) None key "corp"
           (json_object [("previous_state", JStr (item_state_as_str (fw_state item)));
                         ("state", JStr "blocked"); ("mission_id", json_uuid mission);
                         ("run_id", json_uuid run_id); ("failure_detail", JStr reason);
                         ("dispatch_not_started", JBool true)]));
      mret (option_list event)
  end.

(** The failure was already recorded by an earlier call. *)
Definition dispatch_failure_replay (r : x_run) (t : x_task) (m : x_mission) : bool :=
  bool_decide (rn_status r = RunStatus.Failed)
  && bool_decide (rw_detail (rn_workspace r) = Some "dispatch_not_started")
  && bool_decide (ta_status t = TaskStatus.Failed) && bool_decide (mi_status m = MissionStatus.Failed).

Definition fail_run_before_dispatch (corp run_id : uuid) (reason : string) : txn exec_db (list new_event) :=
  row ← fetch_one (λ db, run_joined db corp run_id) "run not found for dispatch failure";
  let '(r, t, m) := row in
  let mission := ta_mission t in
  let replay := dispatch_failure_replay r t m in
  latest ← gets (latest_run_of_task corp (rb_task (rn_binding r)));
  started ← gets (run_started corp run_id);
  if negb (bool_decide (latest = Some run_id)) || started
     || bool_decide (ta_status t = TaskStatus.Completed)
     || bool_decide (mi_status m = MissionStatus.Completed)
     || bool_decide (mi_status m = MissionStatus.Cancelled)
     || (negb replay && negb (bool_decide (rn_status r = RunStatus.Provisioning))
         && negb (bool_decide (rn_status r = RunStatus.Starting)))
  then mret []
  else
    item ← gets (item_of_mission corp mission);
    let item := i ← item; if dispatch_failure_reconciles (fw_state i.1) then Some i.1 else None in
    let reason := normalize_bounded_failure_reason
      (if replay then default reason (rn_summary r) else reason)
      "run dispatch failed before provider start" in
    failed ← (if replay then mret [] else fail_dispatched_run corp run_id r t m reason);
    blocked ← match item with
      | Some item => block_dispatched_item corp run_id mission (mi_room m) item reason
      | None => mret []
      end;
    mret (failed ++ blocked).

(** ** The runs of a lost runner *)
Record lost_row := LostRow {
  lo_run_id : uuid; lo_run : x_run; lo_task : x_task; lo_mission_row : x_mission;
  lo_recovery : option (uuid * x_recovery) }.

Definition lost_candidate (runner : string) (excluded : list uuid) (created_before : option timestamp)
    (id : uuid) (r : x_run) : bool :=
  seqb (rb_runner (rn_binding r)) runner && run_active (rn_status r)
  && (vec_is_empty excluded || negb (existsb (N.eqb id) excluded))
  && match created_before with Some at_ => (rb_created_at (rn_binding r) <=? at_)%Z | None => true end.

(** A recovery command that was never sent protects its run. *)
Definition awaits_recovery_command (db : exec_db) (id : uuid) (r : x_run) : bool :=
  negb (is_some (rw_path (rn_workspace r)))
  && existsb (λ c, (xc_run c =? id)%N && (xc_corp c =? rb_corp (rn_binding r))%N
                   && seqb (xc_runner c) (rb_runner (rn_binding r))
                   && seqb (xc_kind c) "factory_verification_recovery" && seqb (xc_status c) "pending")
       (si_commands (x_side db)).

Definition lost_recovery (db : exec_db) (id : uuid) (r : x_run) (t : x_task) : option (uuid * x_recovery) :=
  let b := rn_binding r in
  recovery_where (λ v, replaces id (rb_corp b) (rb_task b) (ta_mission t) v
     && recovery_mode_fits (rb_execution_mode b) v && mem (rv_status v) ["authorized"; "running"]
     && bool_decide (rb_resumed_from b = Some (rv_source_run v))
     && recovery_item_bound db (rb_corp b) (ta_mission t) v) db.

Definition earlier_run (x y : uuid * x_run) : bool :=
  let cx := rb_created_at (rn_binding x.2) in let cy := rb_created_at (rn_binding y.2) in
  (cx <? cy)%Z || ((cx =? cy)%Z && (x.1 <=? y.1)%N).

Definition lost_rows (runner : string) (excluded : list uuid) (created_before : option timestamp)
    (db : exec_db) : list lost_row :=
  omap (λ '(id, r),
      row ← run_joined db (rb_corp (rn_binding r)) id;
      let '(r, t, m) := row in
      if awaits_recovery_command db id r then None else Some (LostRow id r t m (lost_recovery db id r t)))
    (sort_by earlier_run
       (List.filter (λ '(id, r), lost_candidate runner excluded created_before id r)
          (map_to_list (co_runs (x_core db))))).

Definition lose_run (env : exec_env) (runner reason : string) (row : lost_row) : txn exec_db (list new_event) :=
  let b := rn_binding (lo_run row) in
  let corp := rb_corp b in let id := lo_run_id row in
  let mission := ta_mission (lo_task row) in let room := mi_room (lo_mission_row row) in
  ready ← read_db (review_ready (xe_now env) corp id);
  match ready with
  | true => mret []
  | false =>
      ended ← match lo_recovery row with
        | Some (recovery_id, v) =>
            event ← terminalize_factory_recovery_run_tx corp recovery_id id (rb_task b) mission room reason
              RunStatus.Lost (if seqb (rv_mode v) "source_correction" then "source_correction_runner_lost"
                              else "verifier_runner_lost");
            mret (option_list event)
        | None =>
            modify (update_run id (λ r, set_rn_summary (Some reason) (set_rn_status RunStatus.Lost r)));;
            modify (update_task (rb_task b) (set_ta_status TaskStatus.Blocked));;
            modify (set_open_mission mission MissionStatus.Failed);;
            mret []
        end;
      modify (requeue id);;
      modify (release_agent (rb_agent b));;
      event ← append_event_tx
        (correlated (Some mission) (at_version (Some room) 1
           (new_event_of corp None "run.lost" "run" id ("run-lost:" +:+ uuid_to_string id)
              (json_object [("runner_id", JStr runner); ("reason", JStr reason)]))));
      mret (ended ++ option_list event)
  end.

Definition mark_runner_runs_lost_tx (env : exec_env) (runner : string) (excluded : list uuid)
    (created_before : option timestamp) (reason : string) : txn exec_db (list new_event) :=
  rows ← gets (lost_rows runner excluded created_before);
  events ← each (lose_run env runner reason) rows;
  mret (concat events).
End dispatch.
