(* ===== verification/Decisions.v ===== *)
(** * What humans decide about runs (crates/crony-store/src/lib.rs)

    A manual verification gate is decided by a human with one of the gate's
    roles, who is neither the producer nor (for an independent review that says
    so) the requester ([decide_verification]); an action approval is decided by a
    member of its room with a required role ([decide_action_approval]) or runs
    out ([expire_action_approval]). *)
From S2P Require Import Prelude Text Json Domain Planning FactoryPolicy Store FactoryItems Breaker ExecTables Checkpoint RunFailure RunEvents Dispatch.

Section decisions.
Context `{Serde} `{ExecSerde}.

(** A human of the corp. *)
Definition actor_of (corp actor : uuid) (db : exec_db) : option actor_row :=
  a ← ba_actors (x_base db) !! actor; if (actor_corp a =? corp)%N then Some a else None.

(** ** Manual verification *)
Record verification_outcome := VerificationDecisionOutcome {
  vo_run_id : uuid; vo_mission_id : uuid; vo_status : string; vo_events : list new_event;
  vo_replayed : bool }.

Record request_row := RequestRow {
  qr_request : x_request; qr_run : x_run; qr_task : x_task; qr_mission_id : uuid; qr_mission : x_mission;
  qr_producer : x_agent }.

Definition request_row_of (corp run_id : uuid) (db : exec_db) : option request_row :=
  q ← co_requests (x_core db) !! run_id;
  r ← run_of db run_id;
  t ← task_of db (rq_task q);
  m ← mission_of db (ta_mission t);
  a ← agent_of db (rb_agent (rn_binding r));
  if (rq_corp q =? corp)%N then Some (RequestRow q r t (ta_mission t) m a) else None.

(** Who may decide a gate. *)
Definition ensure_may_decide (gate : manual_verification_gate) (actor : actor_row)
    (actor_id requester producer : uuid) : result unit :=
  bail_if (negb (seqb (actor_kind actor) "human"))
    "forbidden: manual verification decisions require a human actor";;
  bail_if (negb (mem (actor_role actor) (gate_roles gate)))
    ("forbidden: actor role " +:+ actor_role actor +:+ " cannot decide this verification");;
  match gate with
  | IndependentReview _ exclude_requester =>
      bail_if ((exclude_requester && (actor_id =? requester)%N) || (actor_id =? producer)%N)
        "forbidden: independent review requires a different actor"
  | HumanApproval _ => Ok tt
  end.

Definition optional_note (note : string) : option string := if is_empty note then None else Some note.

Definition decision_replayed (q : x_request) (approved : bool) (actor : uuid) (note : string)
    (decision_key : option uuid) : bool :=
  is_some decision_key && bool_decide (rq_decision_key q = decision_key)
  && seqb (rq_status q) (if approved then "approved" else "rejected")
  && bool_decide (rq_decided_by q = Some actor) && bool_decide (rq_decision_note q = optional_note note).

Definition decide_request (status : string) (actor : uuid) (note : string) (key : option uuid)
    (q : x_request) : x_request :=
  XRequest (rq_corp q) (rq_task q) (rq_gate_type q) (rq_gate q) status (Some actor) (optional_note note) key.

(** The decision keys of the table are unique. *)
Definition decision_key_taken (run_id : uuid) (key : option uuid) (db : exec_db) : bool :=
  match key with
  | None => false
  | Some _ => existsb (λ '(id, q), negb (id =? run_id)%N && bool_decide (rq_decision_key q = key))
                (map_to_list (co_requests (x_core db)))
  end.

Definition approve_run (corp run_id actor : uuid) (row : request_row) : txn exec_db (list new_event) :=
  modify (update_run run_id (set_run_statuses RunStatus.Completed "passed"));;
  modify (update_task (rq_task (qr_request row)) (set_task_statuses TaskStatus.Completed "passed"));;
  finish_mission_step corp (qr_mission_id row) (mi_room (qr_mission row)) run_id (Some actor).

Definition reject_run (corp run_id actor : uuid) (row : request_row) (note : string) :
    txn exec_db (list new_event) :=
  let rejection := if is_empty note then "verification rejected by an authorized reviewer" else note in
  modify (update_run run_id (λ r,
    set_rn_summary (Some rejection) (set_rn_verification_summary (Some rejection)
      (set_run_statuses RunStatus.Failed "failed" r))));;
  modify (update_task (rq_task (qr_request row)) (set_task_statuses TaskStatus.VerificationFailed "failed"));;
  modify (set_open_mission (qr_mission_id row) MissionStatus.Failed);;
  event ← reconcile_factory_verification_failure_tx corp (qr_mission_id row) (mi_room (qr_mission row))
            run_id (Some actor) rejection "manual_verification";
  mret (option_list event).

(** The order of the appends is the order of the sequence numbers: the Factory
    event was written before the decision, and [ordered_events] sorts by them. *)
Definition verification_decided (corp run_id actor : uuid) (row : request_row) (approved : bool)
    (note : string) : new_event :=
  let status := if approved then "approved" else "rejected" in
  correlated (Some (qr_mission_id row)) (at_version (Some (mi_room (qr_mission row))) 1
    (new_event_of corp (Some actor)
       (if approved then "verification.approved" else "verification.rejected") "run" run_id
       ("verification-decision:" +:+ uuid_to_string run_id +:+ ":" +:+ status)
       (json_object [("task_id", json_uuid (rq_task (qr_request row)));
                     ("gate_type", JStr (rq_gate_type (qr_request row))); ("status", JStr status);
                     ("note", JStr note)]))).

Definition check_decidable (env : exec_env) (corp run_id : uuid) (row : request_row) : txn exec_db unit :=
  lift (bail_if (negb (seqb (rq_status (qr_request row)) "pending")
                 || negb (bool_decide (rn_status (qr_run row) = RunStatus.WaitingForApproval))
                 || negb (bool_decide (ta_status (qr_task row) = TaskStatus.AwaitingApproval)))
          "verification request is no longer pending");;
  read_db (ensure_not_hard_blocked (xe_now env) corp run_id (rn_breaker_stage (qr_run row))
             "verification decision");;
  lift (bail_if match mi_status (qr_mission row) with
                | MissionStatus.Completed | MissionStatus.Failed | MissionStatus.Cancelled => true
                | _ => false
                end
          ("mission is already " +:+ MissionStatus.mission_status_as_str (mi_status (qr_mission row)))).

Definition decide_verification (env : exec_env) (corp run_id actor_id : uuid) (approved : bool)
    (note : string) (decision_key : option uuid) : txn exec_db verification_outcome :=
  let note := trim note in
  lift (bail_if (1000 <? str_len note)%Z "verification decision note cannot exceed 1,000 characters");;
  scope ← read_scope corp run_id;
  row ← fetch_one (request_row_of corp run_id) "pending verification request not found";
  let q := qr_request row in let mission := qr_mission_id row in
  validate_scope scope corp mission;;
  assert_room_membership_tx corp (mi_room (qr_mission row)) actor_id;;
  actor ← fetch_one (actor_of corp actor_id) "verification actor not found";
  lift (ensure_may_decide (rq_gate q) actor actor_id (mi_requested_by (qr_mission row))
          (xa_actor (qr_producer row)));;
  let status := if approved then "approved" else "rejected" in
  if negb (seqb (rq_status q) "pending") && decision_replayed q approved actor_id note decision_key
  then mret (VerificationDecisionOutcome run_id mission (rq_status q) [] true)
  else
    check_decidable env corp run_id row;;
    require_new (decision_key_taken run_id decision_key);;
    modify (on_requests (alter (decide_request status actor_id note decision_key) run_id));;
    related ← (if approved then approve_run corp run_id actor_id row
               else reject_run corp run_id actor_id row note);
    modify (release_agent (rb_agent (rn_binding (qr_run row))));;
    event ← append_new_event (verification_decided corp run_id actor_id row approved note)
              "verification decision event unexpectedly existed";
    mret (VerificationDecisionOutcome run_id mission status (related ++ [event]) false).

(** ** Action approvals *)
Record approval_outcome := ActionApprovalDecisionOutcome {
  ao_approval_id : uuid; ao_run_id : uuid; ao_runner_id : string; ao_status : string;
  ao_effect_queued : bool; ao_event : option new_event }.

Definition approval_row (p : x_approval → bool) (approval_id : uuid) (db : exec_db) :
    option (x_approval * x_run) :=
  a ← si_approvals (x_side db) !! approval_id;
  r ← run_of db (ap_run a);
  if p a then Some (a, r) else None.

(** INSERT INTO runner_commands; UNIQUE (corp_id, idempotency_key) *)
Definition command_key_taken (corp : uuid) (key : string) (db : exec_db) : bool :=
  existsb (λ c, (xc_corp c =? corp)%N && seqb (xc_key c) key) (si_commands (x_side db)).
Definition insert_command (c : x_command) : txn exec_db unit :=
  require_new (λ db, existsb (λ c', (xc_id c' =? xc_id c)%N) (si_commands (x_side db)));;
  modify (on_commands (λ l, l ++ [c])).
Definition approval_payload (approval_id : uuid) (approved : bool) (note : string) : json :=
  json_object [("approval_id", json_uuid approval_id); ("approved", JBool approved); ("note", JStr note)].

(** The decision keys of the table are unique. *)
Definition approval_key_taken (approval_id key : uuid) (db : exec_db) : bool :=
  existsb (λ '(id, a), negb (id =? approval_id)%N && bool_decide (ap_decision_key a = Some key))
    (map_to_list (si_approvals (x_side db))).

Definition expiry_reason : string := "Action approval expired before an authorized decision.".

(** [expire_action_approval]: nothing happens unless the approval is pending and out of time. *)
Definition expire_row (env : exec_env) (approval_id : uuid) (a : x_approval) (r : x_run) :
    txn exec_db approval_outcome :=
  let runner := rb_runner (rn_binding r) in
  modify (on_approvals (alter (decide_approval_row "expired" (ap_decided_by a) expiry_reason
                                 (ap_decision_key a)) approval_id));;
  modify (update_run (ap_run a) (λ r,
    if bool_decide (rn_status r = RunStatus.WaitingForApproval)
    then set_rn_summary (Some expiry_reason) (set_rn_status RunStatus.Cancelled r) else r));;
  modify (update_task (ap_task a) (λ t,
    if bool_decide (ta_status t = TaskStatus.AwaitingApproval)
    then set_ta_status TaskStatus.Cancelled t else t));;
  modify (update_mission (ap_mission a) (λ m,
    if bool_decide (mi_status m = MissionStatus.Running)
    then set_mi_status MissionStatus.Cancelled m else m));;
  modify (release_agent_of (ap_agent a) (ap_run a));;
  let key := "approval-expired:" +:+ uuid_to_string approval_id in
  taken ← gets (command_key_taken (ap_corp a) key);
  (match taken with
   | true => mret tt
   | false => insert_command
       (XCommand (xe_command env) (ap_corp a) runner (ap_run a) "approval_decision"
          (approval_payload approval_id false expiry_reason) key "pending")
   end : txn exec_db unit);;
  event ← append_new_event
    (correlated (Some (ap_mission a)) (at_version (Some (ap_room a)) 1
       (new_event_of (ap_corp a) None "run.approval_expired" "run" (ap_run a)
          ("approval-expired-event:" +:+ uuid_to_string approval_id)
          (json_object [("approval_id", json_uuid approval_id); ("reason", JStr expiry_reason);
                        ("command_id", json_uuid (xe_command env))]))))
    "approval expiry event unexpectedly existed";
  mret (ActionApprovalDecisionOutcome approval_id (ap_run a) runner "expired" true (Some event)).

Definition expire_action_approval (env : exec_env) (approval_id : uuid) :
    txn exec_db (option approval_outcome) :=
  row ← gets (approval_row (λ _, true) approval_id);
  match row with
  | None => mret None
  | Some (a, r) =>
      if negb (seqb (ap_status a) "pending") || (xe_now env <? ap_expires_at a)%Z then mret None
      else outcome ← expire_row env approval_id a r; mret (Some outcome)
  end.

Definition record_approval (env : exec_env) (corp approval_id actor_id : uuid) (approved : bool)
    (note : string) (decision_key : uuid) (a : x_approval) (r : x_run) : txn exec_db approval_outcome :=
  let runner := rb_runner (rn_binding r) in
  let status := if approved then "approved" else "rejected" in
  let key := uuid_to_string approval_id +:+ ":" +:+ uuid_to_string decision_key in
  require_new (approval_key_taken approval_id decision_key);;
  modify (on_approvals (alter (decide_approval_row status (Some actor_id) note (Some decision_key)) approval_id));;
  require_new (command_key_taken corp ("approval-decision:" +:+ key));;
  insert_command (XCommand (xe_command env) corp runner (ap_run a) "approval_decision"
    (approval_payload approval_id approved note) ("approval-decision:" +:+ key) "pending");;
  event ← append_event_tx
    (new_event_of corp (Some actor_id) "approval.decided" "approval" approval_id
       ("approval-decision-event:" +:+ key)
       (json_object [("run_id", json_uuid (ap_run a)); ("status", JStr status);
                     ("decision_note", JStr note); ("command_id", json_uuid (xe_command env))]));
  mret (ActionApprovalDecisionOutcome approval_id (ap_run a) runner status true event).

(** The answer to a decision: an expired approval commits the expiry and still
    answers with an error, so the outcome carries its own result. *)
Definition decide_action_approval (env : exec_env) (corp approval_id actor_id : uuid) (approved : bool)
    (note : string) (decision_key : uuid) : txn exec_db (result approval_outcome) :=
  let note := trim note in
  lift (bail_if (1000 <? str_len note)%Z "approval decision note cannot exceed 1,000 characters");;
  row ← fetch_one (approval_row (λ a, (ap_corp a =? corp)%N) approval_id) "action approval not found";
  let '(a, r) := row in
  let status := if approved then "approved" else "rejected" in
  if negb (seqb (ap_status a) "pending") then
    lift (bail_if (negb (bool_decide (ap_decision_key a = Some decision_key)
                         && seqb (ap_status a) status))
            ("approval was already decided as " +:+ ap_status a));;
    mret (Ok (ActionApprovalDecisionOutcome approval_id (ap_run a) (rb_runner (rn_binding r))
                (ap_status a) false None))
  else
    read_db (ensure_not_hard_blocked (xe_now env) corp (ap_run a) (rn_breaker_stage r) "action approval");;
    if (ap_expires_at a <=? xe_now env)%Z then
      expire_action_approval env approval_id;;
      mret (Err "approval request expired")
    else
      assert_room_membership_tx corp (ap_room a) actor_id;;
      actor ← fetch_one (actor_of corp actor_id) no_rows;
      lift (bail_if (negb (seqb (actor_kind actor) "human") || negb (mem (actor_role actor) (ap_required_roles a)))
              ("forbidden: actor role " +:+ actor_role actor +:+ " cannot decide this approval"));;
      outcome ← record_approval env corp approval_id actor_id approved note decision_key a r;
      mret (Ok outcome).
End decisions.
