(* ===== verification/ExecSpec.v ===== *)
(** * What execution promises, abstractly

    [core_step] is the abstract transition of the core tables: which rows may
    move, and which evidence every acceptance needs.  It says nothing of
    payloads, events, agents or the Factory.  [core_inv] is the invariant it
    keeps: one active run per task and per agent, a completed task has a
    completed run with complete passing evidence and a decided gate, a completed
    mission has completed tasks only, attempts stay within their limit.
    [Execution] proves that the handlers refine it. *)
From S2P Require Import Prelude Text Json Domain Planning ExecTables RunEvents.

(** ** Acceptance *)

(** Complete evidence: one passing row per check of the policy, in order. *)
Definition evidence_complete (c : exec_core) (id : uuid) (policy : verification_policy) : Prop :=
  evidence_satisfies 0 (vp_checks policy) (run_evidence id (co_evidence c)) = true.

(** The manual gate of the policy, if it has one, was approved for this run. *)
Definition gate_decided (c : exec_core) (id : uuid) (policy : verification_policy) : Prop :=
  ∀ gate, vp_manual_gate policy = Some gate →
  ∃ q, co_requests c !! id = Some q ∧ rq_status q = "approved" ∧ rq_gate q = gate.

Definition run_task (r : x_run) : uuid := rb_task (rn_binding r).
Definition is_active (r : x_run) : Prop := run_active (rn_status r) = true.

(** The run carries an accepted result of the task. *)
Definition accepted (c : exec_core) (task_id : uuid) (t : x_task) : Prop :=
  ∃ id r, co_runs c !! id = Some r ∧ run_task r = task_id ∧ rn_status r = RunStatus.Completed ∧
    rn_verification_status r = "passed" ∧ evidence_complete c id (ta_policy t) ∧
    gate_decided c id (ta_policy t).

(** The columns of a task that no operation of execution changes. *)
Definition task_fixed (t : x_task) :=
  (ta_mission t, ta_corp t, ta_policy t, ta_max_attempts t, ta_assigned_agent t, ta_contract t).

(** ** The invariant *)
Record core_inv (c : exec_core) : Prop := {
  ci_task : ∀ id r, co_runs c !! id = Some r → is_Some (co_tasks c !! run_task r);
  ci_one_per_task : ∀ id1 id2 r1 r2, co_runs c !! id1 = Some r1 → co_runs c !! id2 = Some r2 →
    is_active r1 → is_active r2 → run_task r1 = run_task r2 → id1 = id2;
  ci_one_per_agent : ∀ id1 id2 r1 r2, co_runs c !! id1 = Some r1 → co_runs c !! id2 = Some r2 →
    is_active r1 → is_active r2 → rb_agent (rn_binding r1) = rb_agent (rn_binding r2) → id1 = id2;
  ci_completed : ∀ id t, co_tasks c !! id = Some t → ta_status t = TaskStatus.Completed →
    ta_verification_status t = "passed" ∧ accepted c id t ∧
    ∀ rid r, co_runs c !! rid = Some r → run_task r = id → ¬ is_active r;
  ci_mission : ∀ id m tid t, co_missions c !! id = Some m → mi_status m = MissionStatus.Completed →
    co_tasks c !! tid = Some t → ta_mission t = id → ta_status t = TaskStatus.Completed;
  ci_passed : ∀ id r t, co_runs c !! id = Some r → rn_verification_status r = "passed" →
    co_tasks c !! run_task r = Some t → evidence_complete c id (ta_policy t);
  ci_requests : ∀ id q, co_requests c !! id = Some q → ∃ r t, co_runs c !! id = Some r ∧
    co_tasks c !! run_task r = Some t ∧ rq_task q = run_task r ∧
    vp_manual_gate (ta_policy t) = Some (rq_gate q) ∧ evidence_complete c id (ta_policy t);
  ci_attempts : ∀ id t, co_tasks c !! id = Some t → (0 ≤ ta_attempt_count t ≤ ta_max_attempts t)%Z;
}.

(** ** The abstract transition *)

(** A terminal run is frozen; an active one completes only when it is accepted. *)
Record run_moves (c c' : exec_core) (id : uuid) (r r' : x_run) : Prop := {
  rm_binding : rn_binding r' = rn_binding r;
  rm_terminal : ¬ is_active r →
    rn_status r' = rn_status r ∧ rn_verification_status r' = rn_verification_status r;
  rm_completed : rn_status r' = RunStatus.Completed → rn_status r = RunStatus.Completed ∨
    rn_verification_status r' = "passed" ∧
    ∀ t, co_tasks c !! run_task r = Some t → gate_decided c' id (ta_policy t);
  rm_passed : rn_verification_status r' = "passed" →
    rn_verification_status r = "passed" ∨
    ∀ t, co_tasks c !! run_task r = Some t → evidence_complete c' id (ta_policy t);
}.

(** A new run: nothing else was active on its task or its agent. *)
Record run_starts (c c' : exec_core) (id : uuid) (r : x_run) : Prop := {
  rs_active : is_active r;
  rs_pending : rn_verification_status r = "pending";
  rs_task_free : ∀ id' r', co_runs c !! id' = Some r' → run_task r' = run_task r → ¬ is_active r';
  rs_agent_free : ∀ id' r', co_runs c !! id' = Some r' →
    rb_agent (rn_binding r') = rb_agent (rn_binding r) → ¬ is_active r';
  rs_task : ∃ t m, co_tasks c' !! run_task r = Some t ∧ ta_status t = TaskStatus.Claimed ∧
    co_missions c' !! ta_mission t = Some m ∧ mi_status m ≠ MissionStatus.Completed;
  rs_alone : ∀ id' r', co_runs c !! id' = None → co_runs c' !! id' = Some r' → id' = id;
}.

(** Who may move a task: an active run of it, or a run that starts on it. *)
Definition task_is_held (c c' : exec_core) (task_id : uuid) : Prop :=
  (∃ id r, co_runs c !! id = Some r ∧ run_task r = task_id ∧ is_active r) ∨
  (∃ id r, co_runs c !! id = None ∧ co_runs c' !! id = Some r ∧ run_task r = task_id).

Record task_moves (c c' : exec_core) (id : uuid) (t t' : x_task) : Prop := {
  tm_fixed : task_fixed t' = task_fixed t;
  tm_attempts : ta_attempt_count t' = ta_attempt_count t ∨
    ta_attempt_count t' = (ta_attempt_count t + 1)%Z ∧ (ta_attempt_count t < ta_max_attempts t)%Z;
  tm_held : ta_status t = TaskStatus.Completed →
    ta_status t' = ta_status t ∧ ta_verification_status t' = ta_verification_status t ∨
    task_is_held c c' id;
  tm_completed : ta_status t' = TaskStatus.Completed → ta_status t = TaskStatus.Completed ∨
    ta_verification_status t' = "passed" ∧
    ∃ rid r r', co_runs c !! rid = Some r ∧ co_runs c' !! rid = Some r' ∧ run_task r = id ∧
      is_active r ∧ rn_status r' = RunStatus.Completed;
}.

Record core_step (c c' : exec_core) : Prop := {
  cs_runs : ∀ id r, co_runs c !! id = Some r →
    ∃ r', co_runs c' !! id = Some r' ∧ run_moves c c' id r r';
  cs_new_runs : ∀ id r, co_runs c !! id = None → co_runs c' !! id = Some r → run_starts c c' id r;
  cs_tasks : ∀ id t, co_tasks c !! id = Some t →
    ∃ t', co_tasks c' !! id = Some t' ∧ task_moves c c' id t t';
  cs_new_tasks : ∀ id t, co_tasks c !! id = None → co_tasks c' !! id = Some t →
    ta_status t ≠ TaskStatus.Completed ∧ (0 ≤ ta_attempt_count t ≤ ta_max_attempts t)%Z ∧
    (∀ m, co_missions c' !! ta_mission t = Some m → mi_status m ≠ MissionStatus.Completed) ∧
    co_runs c' = co_runs c;
  cs_missions : ∀ id m', co_missions c' !! id = Some m' → mi_status m' = MissionStatus.Completed →
    (∃ m, co_missions c !! id = Some m ∧ mi_status m = MissionStatus.Completed) ∨
    ∀ tid t, co_tasks c' !! tid = Some t → ta_mission t = id → ta_status t = TaskStatus.Completed;
  cs_evidence : ∀ id t r, co_runs c !! id = Some r → co_tasks c !! run_task r = Some t →
    evidence_complete c id (ta_policy t) → evidence_complete c' id (ta_policy t);
  cs_requests : ∀ id q', co_requests c' !! id = Some q' →
    (∃ q, co_requests c !! id = Some q ∧ rq_gate q' = rq_gate q ∧ rq_task q' = rq_task q) ∨
    ∃ r t, co_runs c !! id = Some r ∧ co_tasks c !! run_task r = Some t ∧ rq_task q' = run_task r ∧
      vp_manual_gate (ta_policy t) = Some (rq_gate q') ∧ evidence_complete c' id (ta_policy t);
  cs_decided : ∀ id q, co_requests c !! id = Some q → rq_status q ≠ "pending" →
    co_requests c' !! id = Some q;
}.

(** ** The transition keeps the invariant *)
Section preservation.
Context (c c' : exec_core) (Hinv : core_inv c) (Hstep : core_step c c').

Lemma run_before id r' : co_runs c' !! id = Some r' →
  (∃ r, co_runs c !! id = Some r ∧ run_moves c c' id r r') ∨
  (co_runs c !! id = None ∧ run_starts c c' id r').
Proof using Hstep.
  intros Hr'. destruct (co_runs c !! id) as [r|] eqn:Hr.
  - left. destruct (cs_runs _ _ Hstep id r Hr) as (r'' & ? & ?). simplify_eq. eauto.
  - right. split; [done |]. by apply (cs_new_runs _ _ Hstep).
Qed.

Lemma task_before id t' : co_tasks c' !! id = Some t' → co_tasks c !! id ≠ None →
  ∃ t, co_tasks c !! id = Some t ∧ task_moves c c' id t t'.
Proof using Hstep.
  intros Ht' Hn. destruct (co_tasks c !! id) as [t|] eqn:Ht; [| done].
  destruct (cs_tasks _ _ Hstep id t Ht) as (t'' & ? & ?). simplify_eq. eauto.
Qed.

Lemma fixed_policy t t' : task_fixed t' = task_fixed t → ta_policy t' = ta_policy t.
Proof. unfold task_fixed. congruence. Qed.

Lemma moves_task id r r' : run_moves c c' id r r' → run_task r' = run_task r.
Proof. unfold run_task. intros H. by rewrite (rm_binding _ _ _ _ _ H). Qed.

Lemma moves_active id r r' : run_moves c c' id r r' → is_active r' → is_active r.
Proof.
  unfold is_active. intros Hm Ha. destruct (run_active (rn_status r)) eqn:E; [done |].
  destruct (rm_terminal _ _ _ _ _ Hm) as [Hs _]; [unfold is_active; congruence |]. congruence.
Qed.

Lemma task_kept id t : co_tasks c !! id = Some t →
  ∃ t', co_tasks c' !! id = Some t' ∧ ta_policy t' = ta_policy t.
Proof using Hstep.
  intros Ht. destruct (cs_tasks _ _ Hstep id t Ht) as (t' & Ht' & Hm).
  exists t'. split; [done |]. apply fixed_policy, (tm_fixed _ _ _ _ _ Hm).
Qed.

Lemma run_moves_evidence id r r' t :
  co_runs c !! id = Some r → run_moves c c' id r r' → co_tasks c !! run_task r = Some t →
  rn_verification_status r' = "passed" → evidence_complete c' id (ta_policy t).
Proof using Hinv Hstep.
  intros Hr Hm Ht Hp. destruct (rm_passed _ _ _ _ _ Hm Hp) as [Hp' | Hall]; [| by apply Hall].
  eapply (cs_evidence _ _ Hstep); eauto. by eapply (ci_passed _ Hinv).
Qed.

Lemma gate_kept id policy : gate_decided c id policy → gate_decided c' id policy.
Proof using Hstep.
  intros Hg gate Hgate. destruct (Hg gate Hgate) as (q & Hq & Hs & ?). exists q. split; [| done].
  apply (cs_decided _ _ Hstep); [done |]. by rewrite Hs.
Qed.

Lemma accepted_kept id t t' : accepted c id t → co_tasks c !! id = Some t → ta_policy t' = ta_policy t →
  accepted c' id t'.
Proof using Hinv Hstep.
  intros (rid & r & Hr & Htask & Hs & Hv & He & Hg) Ht Hp.
  destruct (cs_runs _ _ Hstep rid r Hr) as (r' & Hr' & Hm).
  destruct (rm_terminal _ _ _ _ _ Hm) as [Hs' Hv'].
  { unfold is_active. by rewrite Hs. }
  exists rid, r'. rewrite (moves_task _ _ _ Hm), Hs', Hv', Hp. repeat (split; [done |]).
  split; [| by apply gate_kept]. eapply (cs_evidence _ _ Hstep); [done | | done]. by rewrite Htask.
Qed.

(** A run that completed in this step is an accepted result of its task. *)
Lemma completion_accepted id t t' rid r r' :
  co_tasks c !! id = Some t → ta_policy t' = ta_policy t →
  co_runs c !! rid = Some r → co_runs c' !! rid = Some r' → run_task r = id → is_active r →
  rn_status r' = RunStatus.Completed → accepted c' id t'.
Proof using Hinv Hstep.
  intros Ht Hp Hr Hr' Htask Ha Hs.
  destruct (run_before rid r' Hr') as [(r0 & Hr0 & Hm) | [Hn _]]; [| congruence].
  simplify_eq. destruct (rm_completed _ _ _ _ _ Hm Hs) as [Hc | [Hv Hg]].
  { unfold is_active in Ha. rewrite Hc in Ha. done. }
  exists rid, r'. rewrite (moves_task _ _ _ Hm), Hp. repeat (split; [done |]).
  split; [by eapply run_moves_evidence | by apply Hg].
Qed.

Lemma step_task id r : co_runs c' !! id = Some r → is_Some (co_tasks c' !! run_task r).
Proof using Hinv Hstep.
  intros [(r0 & Hr0 & Hm) | [_ Hs]]%run_before.
  - rewrite (moves_task _ _ _ Hm). destruct (ci_task _ Hinv id r0 Hr0) as [t Ht].
    destruct (task_kept _ _ Ht) as (t' & -> & _). eauto.
  - destruct (rs_task _ _ _ _ Hs) as (t & m & -> & _). eauto.
Qed.

(** Two active runs that share a key are the same run. *)
Lemma step_unique (key : x_run → uuid) id1 id2 r1 r2 :
  (∀ r r', rn_binding r' = rn_binding r → key r' = key r) →
  (∀ id1 id2 r1 r2, co_runs c !! id1 = Some r1 → co_runs c !! id2 = Some r2 →
     is_active r1 → is_active r2 → key r1 = key r2 → id1 = id2) →
  (∀ id r, run_starts c c' id r → ∀ id' r', co_runs c !! id' = Some r' → key r' = key r → ¬ is_active r') →
  co_runs c' !! id1 = Some r1 → co_runs c' !! id2 = Some r2 → is_active r1 → is_active r2 →
  key r1 = key r2 → id1 = id2.
Proof using Hstep.
  intros Hkey Hold Hfree H1 H2 A1 A2 Hk.
  destruct (run_before id1 r1 H1) as [(s1 & S1 & M1) | [N1 F1]];
    destruct (run_before id2 r2 H2) as [(s2 & S2 & M2) | [N2 F2]].
  - eapply Hold; eauto using moves_active.
    by rewrite <-(Hkey _ _ (rm_binding _ _ _ _ _ M1)), <-(Hkey _ _ (rm_binding _ _ _ _ _ M2)).
  - exfalso. eapply (Hfree _ _ F2); [exact S1 | | by eapply moves_active].
    by rewrite <-(Hkey _ _ (rm_binding _ _ _ _ _ M1)).
  - exfalso. eapply (Hfree _ _ F1); [exact S2 | | by eapply moves_active].
    by rewrite <-(Hkey _ _ (rm_binding _ _ _ _ _ M2)).
  - by eapply (rs_alone _ _ _ _ F2).
Qed.

Lemma step_completed id t' : co_tasks c' !! id = Some t' → ta_status t' = TaskStatus.Completed →
  ta_verification_status t' = "passed" ∧ accepted c' id t' ∧
  ∀ rid r, co_runs c' !! rid = Some r → run_task r = id → ¬ is_active r.
Proof using Hinv Hstep.
  intros Ht' Hs'. destruct (co_tasks c !! id) as [t|] eqn:Ht.
  2: { by destruct (cs_new_tasks _ _ Hstep id t' Ht Ht') as (Hn & _). }
  destruct (cs_tasks _ _ Hstep id t Ht) as (t0 & Ht0 & Hm). rewrite Ht' in Ht0. injection Ht0 as <-.
  pose proof (fixed_policy _ _ (tm_fixed _ _ _ _ _ Hm)) as Hp.
  assert (∀ rid r, co_runs c' !! rid = Some r → run_task r = id → is_active r →
            ∃ r0, co_runs c !! rid = Some r0 ∧ run_task r0 = id ∧ is_active r0) as Hback.
  { intros rid r [(r0 & Hr0 & Hrm) | [_ Hst]]%run_before Htask Ha.
    - exists r0. rewrite <-(moves_task _ _ _ Hrm). eauto using moves_active.
    - destruct (rs_task _ _ _ _ Hst) as (t1 & m & Ht1 & Hs1 & _). congruence. }
  destruct (tm_completed _ _ _ _ _ Hm Hs') as [Hs | (Hv & rid & r & r' & Hr & Hr' & Htask & Ha & Hrs)].
  - destruct (ci_completed _ Hinv id t Ht Hs) as (Hv & Hacc & Hfree).
    destruct (tm_held _ _ _ _ _ Hm Hs) as
      [[_ Hv'] | [(rid & r & Hr & Htask & Ha) | (rid & r & Hn & Hr & Htask)]].
    + split; [congruence |]. split; [by eapply accepted_kept |].
      intros rid r Hr Htask Ha. destruct (Hback rid r Hr Htask Ha) as (r0 & ? & ? & ?). by eapply Hfree.
    + exfalso. by eapply Hfree.
    + exfalso. destruct (rs_task _ _ _ _ (cs_new_runs _ _ Hstep _ _ Hn Hr)) as (t1 & m & Ht1 & Hs1 & _).
      congruence.
  - split; [done |]. split; [by eapply completion_accepted |].
    intros rid2 r2 Hr2 Htask2 Ha2. destruct (Hback _ _ Hr2 Htask2 Ha2) as (s2 & Hs2 & Htask2' & Ha2').
    assert (rid2 = rid) as -> by (eapply (ci_one_per_task _ Hinv); eauto; congruence).
    simplify_eq. unfold is_active in Ha2. by rewrite Hrs in Ha2.
Qed.

Lemma step_mission id m tid t : co_missions c' !! id = Some m → mi_status m = MissionStatus.Completed →
  co_tasks c' !! tid = Some t → ta_mission t = id → ta_status t = TaskStatus.Completed.
Proof using Hinv Hstep.
  intros Hm' Hs' Ht' Htm. destruct (cs_missions _ _ Hstep id m Hm' Hs') as [(m0 & Hm & Hs) | Hall];
    [| by eapply Hall].
  destruct (co_tasks c !! tid) as [t0|] eqn:Ht.
  2: { destruct (cs_new_tasks _ _ Hstep tid t Ht Ht') as (_ & _ & Hn & _). subst id.
       by destruct (Hn m Hm'). }
  destruct (cs_tasks _ _ Hstep tid t0 Ht) as (t1 & Ht1 & Hmv). rewrite Ht' in Ht1. injection Ht1 as <-.
  assert (ta_mission t = ta_mission t0) as Hmm.
  { pose proof (tm_fixed _ _ _ _ _ Hmv) as Hf. unfold task_fixed in Hf. congruence. }
  assert (ta_status t0 = TaskStatus.Completed) as Hs0.
  { eapply (ci_mission _ Hinv); [exact Hm | done | exact Ht | by rewrite <-Hmm]. }
  destruct (tm_held _ _ _ _ _ Hmv Hs0) as
    [[Hsame _] | [(rid & r & Hr & Htask & Ha) | (rid & r & Hn & Hr & Htask)]].
  - congruence.
  - exfalso. destruct (ci_completed _ Hinv tid t0 Ht Hs0) as (_ & _ & Hfree). by eapply Hfree.
  - exfalso. destruct (rs_task _ _ _ _ (cs_new_runs _ _ Hstep _ _ Hn Hr)) as (t2 & m2 & Ht2 & _ & Hm2 & Hne2).
    rewrite Htask, Ht' in Ht2. simplify_eq.
Qed.

Lemma step_passed id r t : co_runs c' !! id = Some r → rn_verification_status r = "passed" →
  co_tasks c' !! run_task r = Some t → evidence_complete c' id (ta_policy t).
Proof using Hinv Hstep.
  intros [(r0 & Hr0 & Hm) | [_ Hst]]%run_before Hv Ht.
  - rewrite (moves_task _ _ _ Hm) in Ht. destruct (ci_task _ Hinv id r0 Hr0) as [t0 Ht0].
    destruct (task_kept _ _ Ht0) as (t1 & Ht1 & Hp). simplify_eq. rewrite Hp.
    by eapply run_moves_evidence.
  - by rewrite (rs_pending _ _ _ _ Hst) in Hv.
Qed.

Lemma step_request id q : co_requests c' !! id = Some q → ∃ r t, co_runs c' !! id = Some r ∧
  co_tasks c' !! run_task r = Some t ∧ rq_task q = run_task r ∧
  vp_manual_gate (ta_policy t) = Some (rq_gate q) ∧ evidence_complete c' id (ta_policy t).
Proof using Hinv Hstep.
  intros Hq. assert (∃ r t, co_runs c !! id = Some r ∧ co_tasks c !! run_task r = Some t ∧
    rq_task q = run_task r ∧ vp_manual_gate (ta_policy t) = Some (rq_gate q) ∧
    evidence_complete c' id (ta_policy t)) as (r & t & Hr & Ht & Htask & Hg & He).
  { destruct (cs_requests _ _ Hstep id q Hq) as [(q0 & Hq0 & -> & ->) | Hnew]; [| done].
    destruct (ci_requests _ Hinv id q0 Hq0) as (r & t & Hr & Ht & ? & ? & ?). exists r, t.
    repeat (split; [done |]). by eapply (cs_evidence _ _ Hstep). }
  destruct (cs_runs _ _ Hstep id r Hr) as (r' & Hr' & Hm). destruct (task_kept _ _ Ht) as (t' & Ht' & Hp).
  exists r', t'. rewrite (moves_task _ _ _ Hm), Hp. done.
Qed.

Lemma step_attempts id t : co_tasks c' !! id = Some t → (0 ≤ ta_attempt_count t ≤ ta_max_attempts t)%Z.
Proof using Hinv Hstep.
  intros Ht'. destruct (co_tasks c !! id) as [t0|] eqn:Ht.
  2: { by destruct (cs_new_tasks _ _ Hstep id t Ht Ht') as (_ & ? & _). }
  destruct (cs_tasks _ _ Hstep id t0 Ht) as (t1 & Ht1 & Hm). rewrite Ht' in Ht1. injection Ht1 as <-.
  pose proof (ci_attempts _ Hinv id t0 Ht). pose proof (tm_fixed _ _ _ _ _ Hm) as Hf.
  unfold task_fixed in Hf. assert (ta_max_attempts t = ta_max_attempts t0) as -> by congruence.
  destruct (tm_attempts _ _ _ _ _ Hm); lia.
Qed.

Lemma core_step_inv : core_inv c'.
Proof using Hinv Hstep.
  split.
  - apply step_task.
  - intros. eapply (step_unique run_task); eauto.
    + unfold run_task. congruence.
    + apply (ci_one_per_task _ Hinv).
    + intros ? ? Hs. apply (rs_task_free _ _ _ _ Hs).
  - intros. eapply (step_unique (λ r, rb_agent (rn_binding r))); eauto.
    + simpl. congruence.
    + apply (ci_one_per_agent _ Hinv).
    + intros ? ? Hs. apply (rs_agent_free _ _ _ _ Hs).
  - apply step_completed.
  - apply step_mission.
  - apply step_passed.
  - apply step_request.
  - apply step_attempts.
Qed.
End preservation.

(** The transition is reflexive: nothing moves. *)
Lemma core_step_refl c : core_step c c.
Proof.
  split; try (intros; simplify_eq; congruence); auto.
  - intros id r Hr. exists r. split; [done |]. split; auto.
  - intros id t Ht. exists t. split; [done |]. split; auto.
  - intros id m Hm Hs. left. eauto.
  - intros id q Hq. left. eauto.
Qed.

(** A terminal run keeps its status and its verdict through any steps. *)
Lemma core_steps_frozen c c' id r : rtc core_step c c' → co_runs c !! id = Some r → ¬ is_active r →
  ∃ r', co_runs c' !! id = Some r' ∧ rn_binding r' = rn_binding r ∧ rn_status r' = rn_status r ∧
    rn_verification_status r' = rn_verification_status r.
Proof.
  intros Hs. revert r. induction Hs as [c | c1 c2 c3 H12 _ IH]; intros r Hr Ht; [eauto |].
  destruct (cs_runs _ _ H12 id r Hr) as (r2 & Hr2 & Hm). destruct (rm_terminal _ _ _ _ _ Hm Ht) as [Hs2 Hv2].
  destruct (IH r2 Hr2) as (r3 & ? & ? & ? & ?); [unfold is_active in *; congruence |].
  exists r3. split_and!; try congruence. by rewrite <-(rm_binding _ _ _ _ _ Hm).
Qed.
