(* ===== verification/EventSteps.v ===== *)
(** * The events of a runner refine the specification

    Every runner event that is accepted moves the core tables by one [core_step]
    ([runner_event_step]).  What a handler does besides (Factory items, agents,
    messages, commands, the log) leaves the core alone: [keeps_core] is a frame
    rule for transactions, and the tactic [core_rows] reduces a transaction to
    what it does to the core.  [local_step], [event_step] and [accept_step] are
    the shapes of a step that every handler of execution takes. *)
From S2P Require Import Prelude Text Json Domain Planning Deliverable FactoryPolicy Store FactoryItems Breaker ExecTables Checkpoint RunFailure RunEvents Dispatch Decisions ExecSpec.

(** ** Transactions that leave the core tables alone *)
Definition keeps_core {A} (t : txn exec_db A) : Prop :=
  ∀ s a s', t s = Ok (a, s') → x_core s' = x_core s.

Section frame.
Context {A B : Type}.

Lemma keeps_bind (m : txn exec_db A) (f : A → txn exec_db B) :
  keeps_core m → (∀ a, keeps_core (f a)) → keeps_core (m ≫= f).
Proof.
  intros Hm Hf s b s' (a & s1 & H1 & H2)%txn_bind_ok.
  rewrite (Hf _ _ _ _ H2). by apply Hm in H1.
Qed.
Lemma keeps_ret (a : A) : keeps_core (mret a).
Proof. intros s b s' Hr. by apply mret_ok in Hr as [_ ->]. Qed.
Lemma keeps_lift (r : result A) : keeps_core (lift r).
Proof. intros s b s' Hr. by apply lift_ok in Hr as [_ ->]. Qed.
Lemma keeps_gets (f : exec_db → A) : keeps_core (gets f).
Proof. intros s b s' Hr. by apply gets_ok in Hr as [_ ->]. Qed.
Lemma keeps_read_db (f : exec_db → result A) : keeps_core (read_db f).
Proof. intros s b s' Hr. by apply lift_ok in Hr as [_ ->]. Qed.
Lemma keeps_read_directory (f : directory → result A) : keeps_core (read_directory f).
Proof. intros s b s' Hr. by apply read_directory_ok in Hr as [_ ->]. Qed.
End frame.

Lemma keeps_fetch {A} (f : exec_db → option A) message : keeps_core (fetch_one f message).
Proof. apply keeps_bind; [apply keeps_gets |]. intros o. apply keeps_lift. Qed.

Lemma keeps_modify (f : exec_db → exec_db) : (∀ s, x_core (f s) = x_core s) → keeps_core (modify f).
Proof. intros Hf s a s' Hr. apply modify_ok in Hr as ->. apply Hf. Qed.
Lemma keeps_require p : keeps_core (require_new p).
Proof. apply keeps_bind; [apply keeps_gets |]. intros o. apply keeps_lift. Qed.
Lemma keeps_append event : keeps_core (append_event_tx event).
Proof. intros s a s'. unfold append_event_tx. case_match; intros [= <- <-]; done. Qed.
Lemma keeps_append_new event message : keeps_core (append_new_event event message).
Proof. apply keeps_bind; [apply keeps_append |]. intros o. apply keeps_lift. Qed.

Create HintDb core_frame.
#[export] Hint Resolve keeps_ret keeps_lift keeps_gets keeps_read_db keeps_read_directory keeps_fetch
  keeps_require keeps_append keeps_append_new : core_frame.

(** Walk through a transaction whose every part is known to leave the core alone. *)
Ltac keeps :=
  repeat first
    [ progress intros
    | solve [eauto with core_frame]
    | apply keeps_bind
    | apply keeps_modify; intros; reflexivity
    | case_match ].

Section side.
Context `{Serde} `{ExecSerde}.

Lemma keeps_move_item id p state failure : keeps_core (move_item_tx id p state failure).
Proof. unfold move_item_tx. keeps. Qed.
#[local] Hint Resolve keeps_move_item : core_frame.

Lemma keeps_read_scope corp id : keeps_core (read_scope corp id).
Proof. unfold read_scope. keeps. Qed.
Lemma keeps_validate_scope scope corp m : keeps_core (validate_scope scope corp m).
Proof. unfold validate_scope. keeps. Qed.
Lemma keeps_reconcile scope corp room task run reason :
  keeps_core (reconcile_tx scope corp room task run reason).
Proof. unfold reconcile_tx. keeps. Qed.
Lemma keeps_resume scope corp room src status run actor :
  keeps_core (resume_tx scope corp room src status run actor).
Proof. unfold resume_tx. keeps. Qed.
Lemma keeps_verification_failure corp m room run actor detail cause :
  keeps_core (reconcile_factory_verification_failure_tx corp m room run actor detail cause).
Proof. unfold reconcile_factory_verification_failure_tx. keeps. Qed.
Lemma keeps_verified corp m room run actor :
  keeps_core (reconcile_factory_verified_tx corp m room run actor).
Proof. unfold reconcile_factory_verified_tx, ensure_mission_verified. keeps. Qed.
Lemma keeps_awaiting corp m room run : keeps_core (reconcile_factory_awaiting_approval_tx corp m room run).
Proof. unfold reconcile_factory_awaiting_approval_tx. keeps. Qed.

Lemma release_failed_core corp agent run s : x_core (release_failed_run_agent corp agent run s) = x_core s.
Proof. unfold release_failed_run_agent. repeat case_match; done. Qed.
Lemma settle_core corp run s : x_core (settle_successful_factory_recoveries corp run s) = x_core s.
Proof. done. Qed.

Lemma keeps_reserve corp agent run : keeps_core (reserve_queued_messages_tx corp agent run).
Proof. unfold reserve_queued_messages_tx. keeps. Qed.
Lemma keeps_assert_membership corp room actor :
  keeps_core (assert_room_membership_tx corp room actor : txn exec_db unit).
Proof. unfold assert_room_membership_tx. keeps. Qed.
Lemma keeps_assert_operator corp actor :
  keeps_core (assert_mission_operator_tx corp actor : txn exec_db unit).
Proof. unfold assert_mission_operator_tx. keeps. Qed.
Lemma keeps_actor_role corp room actor : keeps_core (actor_role_tx corp room actor : txn exec_db string).
Proof. unfold actor_role_tx. keeps. Qed.
Lemma keeps_passed_digests row payload : keeps_core (passed_digests row payload).
Proof. unfold passed_digests. keeps. Qed.
Lemma keeps_insert_command c : keeps_core (insert_command c).
Proof. unfold insert_command. keeps. Qed.
End side.
#[export] Hint Resolve keeps_move_item keeps_read_scope keeps_validate_scope keeps_reconcile keeps_resume
  keeps_verification_failure keeps_verified keeps_awaiting keeps_reserve keeps_assert_membership
  keeps_assert_operator keeps_actor_role keeps_passed_digests keeps_insert_command : core_frame.

(** Replace the result of a frame call by the core it started from. *)
Ltac frame_all :=
  repeat match goal with
  | H : ?t ?s = Ok (_, ?s') |- _ =>
      let F := fresh "F" in let K := fresh "K" in
      assert (keeps_core t) as F by (solve [keeps]);
      pose proof (F _ _ _ H) as K; clear H F
  end.

Lemma existsb_false {A} (p : A → bool) l : existsb p l = false ↔ ∀ x, x ∈ l → p x = false.
Proof.
  rewrite <-not_true_iff_false, existsb_exists. setoid_rewrite <-list_elem_of_In. split.
  - intros Hn x Hx. apply not_true_iff_false. naive_solver.
  - intros Hall (x & Hx & Hp). by rewrite (Hall x Hx) in Hp.
Qed.

(** What guards and lookups that succeeded say. *)
Ltac ok_facts :=
  repeat match goal with
  | H : bail_if _ _ = Ok _ |- _ => apply bail_if_ok in H
  | H : with_context _ _ = Ok _ |- _ => apply with_context_ok in H
  | H : negb _ = false |- _ => apply negb_false_iff in H
  | H : _ || _ = false |- _ => apply orb_false_iff in H as [? H]
  | H : bool_decide _ = true |- _ => apply bool_decide_eq_true in H
  | H : bool_decide _ = false |- _ => apply bool_decide_eq_false in H
  | H : seqb _ _ = true |- _ => apply seqb_eq in H
  end.

(** ** Updates of single rows *)
Lemma run_of_core s s' id : x_core s' = x_core s → run_of s' id = run_of s id.
Proof. unfold run_of. by intros ->. Qed.

(** What an event, a decision or a failure changes of a run, its task and its mission. *)
Section local.
Context (c c' : exec_core) (rid tid mid : uuid) (fr : x_run → x_run) (ft : x_task → x_task)
  (fm : x_mission → x_mission).

(** A run moves to an unaccepted state, or keeps what decides acceptance. *)
Lemma open_run_moves id r r' : is_active r → rn_binding r' = rn_binding r →
  rn_status r' ≠ RunStatus.Completed →
  (rn_verification_status r' = "passed" → rn_verification_status r = "passed") → run_moves c c' id r r'.
Proof. intros Ha Hb Hs Hv. split; [done | done | done | auto]. Qed.

Lemma quiet_run_moves id r r' : rn_binding r' = rn_binding r → rn_status r' = rn_status r →
  rn_verification_status r' = rn_verification_status r → run_moves c c' id r r'.
Proof. intros Hb Hs Hv. split; [done | done | |]; rewrite ?Hs, ?Hv; auto. Qed.

Lemma open_task_moves id t t' : task_fixed t' = task_fixed t → ta_attempt_count t' = ta_attempt_count t →
  ta_status t' ≠ TaskStatus.Completed →
  (ta_status t = TaskStatus.Completed → task_is_held c c' id) → task_moves c c' id t t'.
Proof. intros Hf Ha Hs Hh. split; auto. by intros ?. Qed.

Lemma same_task_moves id t : task_moves c c' id t t.
Proof. split; auto. Qed.

(** Requests keep their gate and task, a decided one does not change, and a new
    one waits for a run of complete evidence. *)
Definition requests_move : Prop :=
  (∀ id q', co_requests c' !! id = Some q' →
     (∃ q, co_requests c !! id = Some q ∧ rq_gate q' = rq_gate q ∧ rq_task q' = rq_task q) ∨
     ∃ r t, co_runs c !! id = Some r ∧ co_tasks c !! run_task r = Some t ∧ rq_task q' = run_task r ∧
       vp_manual_gate (ta_policy t) = Some (rq_gate q') ∧ evidence_complete c' id (ta_policy t)) ∧
  (∀ id q, co_requests c !! id = Some q → rq_status q ≠ "pending" → co_requests c' !! id = Some q).

Lemma requests_same : co_requests c' = co_requests c → requests_move.
Proof. intros Hq. split; intros id q; rewrite Hq; eauto. Qed.

Lemma requests_alter (fq : x_request → x_request) :
  co_requests c' = alter fq rid (co_requests c) →
  (∀ q, rq_gate (fq q) = rq_gate q ∧ rq_task (fq q) = rq_task q ∧ (rq_status q ≠ "pending" → fq q = q)) →
  requests_move.
Proof.
  intros Hq Hfq. split; rewrite Hq; intros id q; destruct (decide (id = rid)) as [-> | Hn];
    rewrite ?lookup_alter_eq, ?lookup_alter_ne by done; eauto.
  - destruct (co_requests c !! rid) as [q0|]; simpl; [| done]. intros [= <-]. left.
    destruct (Hfq q0) as (? & ? & _). eauto.
  - intros -> Hp. simpl. destruct (Hfq q) as (_ & _ & ->); done.
Qed.

(** One run is updated; tasks, missions and requests move as the step allows. *)
Lemma run_step :
  co_runs c' = alter fr rid (co_runs c) →
  (∀ r, co_runs c !! rid = Some r → run_moves c c' rid r (fr r)) →
  (∀ id t, co_tasks c !! id = Some t → ∃ t', co_tasks c' !! id = Some t' ∧ task_moves c c' id t t') →
  (∀ id, co_tasks c !! id = None → co_tasks c' !! id = None) →
  (∀ id m', co_missions c' !! id = Some m' → mi_status m' = MissionStatus.Completed →
     (∃ m, co_missions c !! id = Some m ∧ mi_status m = MissionStatus.Completed) ∨
     ∀ tid t, co_tasks c' !! tid = Some t → ta_mission t = id → ta_status t = TaskStatus.Completed) →
  co_evidence c' = co_evidence c →
  requests_move →
  core_step c c'.
Proof.
  intros Hr Hrm Ht Htn Hm He [Hq Hd]. split; auto.
  - intros id r Hl. rewrite Hr. destruct (decide (id = rid)) as [-> | Hn].
    + rewrite lookup_alter_eq, Hl. simpl. eauto.
    + rewrite lookup_alter_ne by done. exists r. split; [done |]. by apply quiet_run_moves.
  - intros id r Hn Hl. rewrite Hr in Hl. destruct (decide (id = rid)) as [-> | Hne].
    + by rewrite lookup_alter_eq, Hn in Hl.
    + rewrite lookup_alter_ne in Hl by done. congruence.
  - intros id t Hn%Htn Hl. congruence.
  - unfold evidence_complete. by rewrite He.
Qed.

Lemma alter_task_moves :
  co_tasks c' = alter ft tid (co_tasks c) →
  (∀ t, co_tasks c !! tid = Some t → task_moves c c' tid t (ft t)) →
  (∀ id t, co_tasks c !! id = Some t → ∃ t', co_tasks c' !! id = Some t' ∧ task_moves c c' id t t') ∧
  (∀ id, co_tasks c !! id = None → co_tasks c' !! id = None).
Proof.
  intros -> Hm. split; intros id; destruct (decide (id = tid)) as [-> | Hn];
    rewrite ?lookup_alter_eq, ?lookup_alter_ne by done.
  - intros t Ht. rewrite Ht. simpl. eauto.
  - intros t Ht. exists t. split; [done |]. apply same_task_moves.
  - by intros ->.
  - done.
Qed.

Lemma alter_mission_moves :
  co_missions c' = alter fm mid (co_missions c) →
  (∀ m, mi_status (fm m) = MissionStatus.Completed → mi_status m = MissionStatus.Completed) →
  ∀ id m', co_missions c' !! id = Some m' → mi_status m' = MissionStatus.Completed →
    ∃ m, co_missions c !! id = Some m ∧ mi_status m = MissionStatus.Completed.
Proof.
  intros -> Hm id m'. destruct (decide (id = mid)) as [-> | Hn];
    rewrite ?lookup_alter_eq, ?lookup_alter_ne by done; [| eauto].
  destruct (co_missions c !! mid) as [m|]; simpl; [| done]. intros [= <-]. eauto.
Qed.

(** One run, one task and one mission are updated. *)
Lemma local_step :
  co_runs c' = alter fr rid (co_runs c) →
  (∀ r, co_runs c !! rid = Some r → run_moves c c' rid r (fr r)) →
  co_tasks c' = alter ft tid (co_tasks c) →
  (∀ t, co_tasks c !! tid = Some t → task_moves c c' tid t (ft t)) →
  co_missions c' = alter fm mid (co_missions c) →
  (∀ m, mi_status (fm m) = MissionStatus.Completed → mi_status m = MissionStatus.Completed) →
  co_evidence c' = co_evidence c →
  requests_move →
  core_step c c'.
Proof.
  intros Hr Hrm Ht Htm Hm Hmm He Hq.
  destruct (alter_task_moves Ht Htm) as [H1 H2]. pose proof (alter_mission_moves Hm Hmm) as H3.
  apply run_step; eauto.
Qed.
End local.

Lemma alter_same {K A} `{Countable K} (m : gmap K A) i : m = alter (λ x, x) i m.
Proof.
  apply map_eq. intros j. destruct (decide (i = j)) as [<- | Hn];
    rewrite ?lookup_alter_eq, ?lookup_alter_ne by done; [| done]. by destruct (m !! i).
Qed.

Lemma alter_twice {K A} `{Countable K} (f g : A → A) (m : gmap K A) i :
  alter (λ x, f (g x)) i m = alter f i (alter g i m).
Proof.
  apply map_eq. intros j. destruct (decide (i = j)) as [<- | Hn];
    rewrite ?lookup_alter_eq, ?lookup_alter_ne by done; [| done]. by destruct (m !! i).
Qed.

Lemma quiet_step c c' rid f :
  co_runs c' = alter f rid (co_runs c) →
  (∀ r, rn_binding (f r) = rn_binding r ∧ rn_status (f r) = rn_status r ∧
        rn_verification_status (f r) = rn_verification_status r) →
  co_tasks c' = co_tasks c → co_missions c' = co_missions c → co_evidence c' = co_evidence c →
  co_requests c' = co_requests c → core_step c c'.
Proof.
  intros Hr Hf Ht Hm He Hq.
  eapply (local_step c c' rid rid rid f (λ t, t) (λ m, m)); eauto.
  - intros r _. destruct (Hf r) as (? & ? & ?). by apply quiet_run_moves.
  - rewrite Ht. apply alter_same.
  - intros t _. apply same_task_moves.
  - rewrite Hm. apply alter_same.
  - by apply requests_same.
Qed.

(** ** The arms of the runner events *)

(** The row an event was admitted for is the current state of the database. *)
Record row_now (c : exec_core) (row : event_row) : Prop := {
  no_run : co_runs c !! er_run_id row = Some (er_run row);
  no_task : co_tasks c !! er_task_id row = Some (er_task row);
  no_mission : co_missions c !! er_mission_id row = Some (er_mission row);
}.

Lemma row_held c c' row : row_now c row → is_active (er_run row) → task_is_held c c' (er_task_id row).
Proof. intros [Hr _ _] Ha. left. eauto. Qed.

(** The common case: a run of the row and its task move, without an acceptance. *)
Lemma event_step c c' row fr ft fm :
  row_now c row → is_active (er_run row) →
  co_runs c' = alter fr (er_run_id row) (co_runs c) →
  run_moves c c' (er_run_id row) (er_run row) (fr (er_run row)) →
  co_tasks c' = alter ft (er_task_id row) (co_tasks c) →
  (∀ t, co_tasks c !! er_task_id row = Some t → task_moves c c' (er_task_id row) t (ft t)) →
  co_missions c' = alter fm (er_mission_id row) (co_missions c) →
  (∀ m, mi_status (fm m) = MissionStatus.Completed → mi_status m = MissionStatus.Completed) →
  co_evidence c' = co_evidence c →
  requests_move c c' →
  core_step c c'.
Proof.
  intros Hrow Ha Hr Hrm Ht Htm Hm Hmm He Hq. eapply local_step; eauto.
  intros r Hl. rewrite (no_run _ _ Hrow) in Hl. by simplify_eq.
Qed.

Lemma set_open_mission_status m status : status ≠ MissionStatus.Completed →
  mi_status (if mission_open (mi_status m) then set_mi_status status m else m) = MissionStatus.Completed →
  mi_status m = MissionStatus.Completed.
Proof. intros Hn. by case_match. Qed.

(** An update that touches neither missions nor requests is the identity on them. *)
Ltac same_rows :=
  match goal with
  | |- _ = _ => first [reflexivity | apply (alter_same (A := x_mission)) | apply (alter_same (A := x_request))
                      | apply (alter_same (A := x_task))]
  end.

(** After the transaction has been taken apart: the frames give one core. *)
Ltac core_eval t :=
  eval cbn [update_run update_task update_mission update_agent on_runs on_tasks on_missions on_agents
    on_requests on_evidence on_recoveries on_commands in_core in_side x_core co_runs co_tasks
    co_missions co_requests co_evidence co_dependencies set_open_mission on_reserved on_messages
    release_agent release_agent_of on_approvals requeue] in t.
Ltac core_of := match goal with |- ?G => let G := core_eval G in change G end.
Ltac core_of_frame K := let T := type of K in let T := core_eval T in change T in K.
Ltac core_rows :=
  frame_all; core_of;
  repeat match goal with K : x_core _ = _ |- _ => progress core_of_frame K end;
  repeat match goal with
  | K : x_core ?s' = _ |- _ =>
      repeat match goal with H : context [x_core s'] |- _ =>
        tryif constr_eq H K then fail else rewrite K in H end;
      rewrite ?K; revert K; core_of
  end; intros.

(** The obligations of [event_step]. *)
Ltac moves :=
  cbv beta;
  match goal with
  | |- run_moves _ _ _ _ _ =>
      try (solve [repeat case_match; first [by apply quiet_run_moves | by apply open_run_moves]])
  | |- ∀ t, _ → task_moves _ _ _ _ _ =>
      try (solve [intros ? _; repeat case_match;
        first [apply same_task_moves
              | apply open_task_moves; [done | done | done |]; intros _; by apply row_held]])
  | |- ∀ m, mi_status _ = _ → mi_status _ = _ =>
      first [done | intros ?; apply set_open_mission_status; by repeat case_match]
  | |- requests_move _ _ => try (apply requests_same; reflexivity)
  end.
Ltac by_event :=
  eapply event_step;
    [eassumption | eassumption | reflexivity | | same_rows | | same_rows | | reflexivity | ]; moves.

(** Evidence of another index cannot complete or spoil what is complete. *)
Lemma satisfied_indices checks : ∀ index rows, evidence_satisfies index checks rows = true →
  ∀ i, (index ≤ i < index + Z.of_nat (length checks))%Z → ∃ e, e ∈ rows ∧ ve_check_index e = i.
Proof.
  induction checks as [|check checks IH]; intros index rows Hs i Hi; simpl in *; [lia |].
  destruct rows as [|e rows]; [done |]. rewrite !andb_true_iff, Z.eqb_eq in Hs.
  destruct Hs as [[[He _] _] Hs]. destruct (decide (i = index)) as [-> | Hn].
  - exists e. split; [left | done].
  - destruct (IH (index + 1)%Z rows Hs i) as (e' & ? & ?); [lia |]. exists e'. split; [by right | done].
Qed.

Lemma run_evidence_elem id l e : e ∈ run_evidence id l ↔ e ∈ l ∧ ve_run e = id.
Proof.
  unfold run_evidence. rewrite sort_by_perm, !list_elem_of_In, List.filter_In, N.eqb_eq. done.
Qed.

Lemma evidence_append c c' e t :
  co_evidence c' = co_evidence c ++ [e] →
  (0 ≤ ve_check_index e < Z.of_nat (length (vp_checks (ta_policy t))))%Z →
  (∀ e', e' ∈ co_evidence c → ve_run e' = ve_run e → ve_check_index e' ≠ ve_check_index e) →
  ∀ id u, (id = ve_run e → ta_policy u = ta_policy t) →
  evidence_complete c id (ta_policy u) → evidence_complete c' id (ta_policy u).
Proof.
  intros He Hi Hf id u Hid Hc. unfold evidence_complete in *. rewrite He.
  destruct (decide (id = ve_run e)) as [-> | Hn].
  - rewrite (Hid eq_refl) in Hc. exfalso.
    destruct (satisfied_indices _ _ _ Hc (ve_check_index e)) as (e' & Hin & Hx); [lia |].
    apply run_evidence_elem in Hin as [Hin Hr]. by apply (Hf e').
  - unfold run_evidence. rewrite List.filter_app. simpl. rewrite (proj2 (N.eqb_neq _ _)) by done.
    by rewrite app_nil_r.
Qed.

(** The core of a recovery run that ends. *)
Definition terminalized (corp run_id task_id mission : uuid) (summary : string) (status : run_status)
    (c : exec_core) : exec_core :=
  ExecCore (alter (set_mi_status MissionStatus.Failed) mission (co_missions c))
    (alter (set_task_statuses TaskStatus.VerificationFailed "failed") task_id (co_tasks c))
    (co_dependencies c) (alter (end_recovery_run status summary) run_id (co_runs c)) (co_evidence c)
    (alter (λ q, if (rq_corp q =? corp)%N
        then reject_request (left_chars 1000 ("Recovery run terminated before approval: " +:+ summary)) q
        else q) run_id (co_requests c)).

Lemma terminalize_core `{Serde} `{ExecSerde} corp recovery run_id task_id mission room summary status
    cause s e s' :
  terminalize_factory_recovery_run_tx corp recovery run_id task_id mission room summary status cause s
    = Ok (e, s') →
  x_core s' = terminalized corp run_id task_id mission summary status (x_core s) ∧
  recovery_end_status status = true.
Proof.
  unfold terminalize_factory_recovery_run_tx. intros Ht. txn_inv. ok_facts. core_rows. split; [| done].
  symmetry. done.
Qed.

Lemma reject_request_keeps (corp : uuid) note q :
  let q' := if (rq_corp q =? corp)%N then reject_request note q else q in
  rq_gate q' = rq_gate q ∧ rq_task q' = rq_task q ∧ (rq_status q ≠ "pending" → q' = q).
Proof.
  simpl. unfold reject_request. case_match; [| done]. destruct (seqb (rq_status q) "pending") eqn:E; [| done].
  apply seqb_eq in E. done.
Qed.

(** A run whose recovery ends, and its task and mission with it. *)
Lemma terminalized_step c corp run_id mission summary status r :
  co_runs c !! run_id = Some r → is_active r → recovery_end_status status = true →
  core_step c (terminalized corp run_id (run_task r) mission summary status c).
Proof.
  intros Hr Ha Hs.
  eapply (local_step _ _ run_id (run_task r) mission); try reflexivity; simpl.
  - intros r' Hr'. simplify_eq. apply open_run_moves; [done | done | by destruct status | done].
  - intros t _. apply open_task_moves; [done | done | done |]. intros _. left. eauto.
  - by intros m.
  - eapply requests_alter; [reflexivity |]. intros q. apply reject_request_keeps.
Qed.

(** The end of a completion or an approval. *)
Lemma release_children_lookup mission s id :
  co_tasks (x_core (release_children mission s)) !! id =
  (λ t, if (ta_mission t =? mission)%N && bool_decide (ta_status t = TaskStatus.Pending)
           && dependencies_done s id
        then set_ta_status TaskStatus.Ready t else t) <$> co_tasks (x_core s) !! id.
Proof. unfold release_children. simpl. rewrite map_lookup_imap. by destruct (co_tasks _ !! id). Qed.

Lemma released_task mission s id t : co_tasks (x_core s) !! id = Some t →
  ∃ t', co_tasks (x_core (release_children mission s)) !! id = Some t' ∧
    (t' = t ∨ ta_status t = TaskStatus.Pending ∧ t' = set_ta_status TaskStatus.Ready t).
Proof.
  intros Ht. rewrite release_children_lookup, Ht. simpl. eexists. split; [done |].
  case_match eqn:E; [| by left]. right. split; [| done].
  apply andb_true_iff in E as [[_ E]%andb_true_iff _]. by apply bool_decide_eq_true in E.
Qed.

Lemma mission_complete_spec mission s : mission_complete mission s = true ↔
  ∀ id t, co_tasks (x_core s) !! id = Some t → ta_mission t = mission → ta_status t = TaskStatus.Completed.
Proof.
  unfold mission_complete. rewrite forallb_forall. setoid_rewrite <-list_elem_of_In. split.
  - intros Hall id t Ht Hm. specialize (Hall (id, t)). rewrite elem_of_map_to_list in Hall.
    specialize (Hall Ht). simpl in Hall. rewrite Hm, N.eqb_refl in Hall. by apply bool_decide_eq_true in Hall.
  - intros Hall [id t] Ht%elem_of_map_to_list. destruct (N.eqb_spec (ta_mission t) mission); [| done].
    simpl. apply bool_decide_eq_true. eauto.
Qed.

Lemma finish_core `{Serde} `{ExecSerde} corp mission room run actor s es s' :
  finish_mission_step corp mission room run actor s = Ok (es, s') →
  ∃ b : bool,
  x_core s' = ExecCore
    (alter (λ m, if mission_open (mi_status m)
                 then set_mi_status (if b then MissionStatus.Completed else MissionStatus.Running) m
                 else m) mission (co_missions (x_core s)))
    (co_tasks (x_core (release_children mission s))) (co_dependencies (x_core s))
    (co_runs (x_core s)) (co_evidence (x_core s)) (co_requests (x_core s)) ∧
  (b = true → ∀ id t, co_tasks (x_core (release_children mission s)) !! id = Some t →
     ta_mission t = mission → ta_status t = TaskStatus.Completed).
Proof.
  unfold finish_mission_step. intros Ht. txn_inv.
  match goal with H : (if ?b then _ else _) _ = _ |- _ => rename H into Hend; exists b end.
  split; [| intros Hc; exact (proj1 (mission_complete_spec _ _) Hc)].
  destruct (mission_complete _ _); txn_inv; frame_all; [| done].
  match goal with K : x_core ?s' = _ |- x_core ?s' = _ => rewrite K end. done.
Qed.

(** A run completes its task: the run and the task are accepted together. *)
Lemma accept_step `{Serde} `{ExecSerde} s s1 s2 corp mission room actor es rid r t fr :
  co_runs (x_core s) !! rid = Some r → is_active r → co_tasks (x_core s) !! run_task r = Some t →
  co_missions (x_core s1) = co_missions (x_core s) → co_evidence (x_core s1) = co_evidence (x_core s) →
  co_runs (x_core s1) = alter fr rid (co_runs (x_core s)) →
  co_tasks (x_core s1) = alter (set_task_statuses TaskStatus.Completed "passed") (run_task r)
                           (co_tasks (x_core s)) →
  requests_move (x_core s) (x_core s1) →
  rn_binding (fr r) = rn_binding r → rn_status (fr r) = RunStatus.Completed →
  rn_verification_status (fr r) = "passed" →
  evidence_complete (x_core s) rid (ta_policy t) → gate_decided (x_core s1) rid (ta_policy t) →
  finish_mission_step corp mission room rid actor s1 = Ok (es, s2) →
  core_step (x_core s) (x_core s2).
Proof.
  intros Hr Ha Ht Hm1 He1 Hr1 Ht1 [Hq1 Hq2] Hb Hs Hv Hev Hg Hf.
  destruct (finish_core _ _ _ _ _ _ _ _ Hf) as (complete & Hc & Hall).
  apply (run_step _ _ rid fr); rewrite ?Hc;
    cbn [co_missions co_tasks co_runs co_evidence co_requests]; [done | | | | | done |].
  - intros r' Hr'. simplify_eq. split; [done | done | |].
    + intros _. right. split; [done |]. intros t' Ht'. simplify_eq. exact Hg.
    + intros _. right. intros t' Ht'. simplify_eq. unfold evidence_complete in *. simpl. by rewrite He1.
  - intros id u Hu. destruct (decide (id = run_task r)) as [-> | Hn].
    + destruct (released_task mission s1 (run_task r) (set_task_statuses TaskStatus.Completed "passed" u))
        as (u' & Hu' & [-> | [? _]]); [by rewrite Ht1, lookup_alter_eq, Hu | | done].
      exists (set_task_statuses TaskStatus.Completed "passed" u). split; [done |].
      split; [done | by left | |].
      * intros _. right. left. eauto.
      * intros _. right. split; [done |]. exists rid, r, (fr r). simpl. rewrite Hr1, lookup_alter_eq, Hr. done.
    + destruct (released_task mission s1 id u) as (u' & Hu' & [-> | [Hp ->]]);
        [by rewrite Ht1, lookup_alter_ne | |]; eexists; (split; [done |]).
      * apply same_task_moves.
      * apply open_task_moves; [done | done | done | congruence].
  - intros id Hn. rewrite release_children_lookup, Ht1, fmap_None.
    destruct (decide (id = run_task r)) as [-> | Hne]; rewrite ?lookup_alter_eq, ?lookup_alter_ne by done;
      by rewrite Hn.
  - rewrite Hm1. intros id m'. destruct (decide (id = mission)) as [-> | Hn].
    + destruct complete; [eauto |]. rewrite lookup_alter_eq.
      destruct (co_missions (x_core s) !! mission) as [m|]; simpl; [| done]. intros [= <-].
      intros Hcm%set_open_mission_status; eauto.
    + rewrite lookup_alter_ne by done. eauto.
  - split; eauto.
Qed.

Section arms.
Context `{Serde} `{ExecSerde} (row : event_row) (payload : json).

Lemma on_session_step s es s' : on_session row payload s = Ok (es, s') →
  core_step (x_core s) (x_core s').
Proof.
  unfold on_session. intros Ht. txn_inv. core_rows. by eapply quiet_step.
Qed.

Lemma on_started_step s es s' : row_now (x_core s) row → is_active (er_run row) →
  on_started row payload s = Ok (es, s') → core_step (x_core s) (x_core s').
Proof.
  unfold on_started. intros Hrow Ha Ht. txn_inv. core_rows.
  by_event.
Qed.

Lemma on_status_step s es s' : row_now (x_core s) row → is_active (er_run row) →
  on_status row payload s = Ok (es, s') → core_step (x_core s) (x_core s').
Proof.
  unfold on_status. intros Hrow Ha Ht. txn_inv. case_match; txn_inv; core_rows.
  2: by apply core_step_refl.
  by_event.
Qed.

Lemma on_approval_requested_step env s es s' : row_now (x_core s) row → is_active (er_run row) →
  on_approval_requested env row payload s = Ok (es, s') → core_step (x_core s) (x_core s').
Proof.
  unfold on_approval_requested. intros Hrow Ha Ht. txn_inv. core_rows.
  by_event.
Qed.

Lemma update_usage_step f s es s' : update_usage row f s = Ok (es, s') →
  core_step (x_core s) (x_core s').
Proof.
  unfold update_usage. intros Ht. txn_inv. core_rows. by eapply quiet_step.
Qed.

Lemma on_tool_activity_step s es s' : on_tool_activity row payload s = Ok (es, s') →
  core_step (x_core s) (x_core s').
Proof.
  unfold on_tool_activity. case_match; intros Ht; txn_inv;
    [apply core_step_refl | by eapply update_usage_step].
Qed.

Lemma on_verification_started_step s es s' : row_now (x_core s) row → is_active (er_run row) →
  on_verification_started row s = Ok (es, s') → core_step (x_core s) (x_core s').
Proof.
  unfold on_verification_started. intros Hrow Ha Ht. txn_inv. core_rows.
  by_event.
Qed.

Lemma on_teardown_step s es s' : on_teardown_uncertain row payload s = Ok (es, s') →
  core_step (x_core s) (x_core s').
Proof.
  unfold on_teardown_uncertain. intros Ht. txn_inv. core_rows. by eapply quiet_step.
Qed.

Lemma on_verification_failed_step s es s' : row_now (x_core s) row → is_active (er_run row) →
  on_verification_failed row payload s = Ok (es, s') → core_step (x_core s) (x_core s').
Proof.
  unfold on_verification_failed. intros Hrow Ha Ht. txn_inv. core_rows.
  by_event.
Qed.

(** *** Verification *)
Lemma on_evidence_step env s es s' : row_now (x_core s) row →
  on_verification_evidence env row payload s = Ok (es, s') → core_step (x_core s) (x_core s').
Proof.
  unfold on_verification_evidence, require_new. intros Hrow Ht. txn_inv. core_of.
  ok_facts. match goal with H : existsb _ _ = false |- _ => rename H into Hnew end.
  match goal with H : (if _ then None else vp_checks _ !! _) = Some _ |- _ => rename H into Hcheck end.
  rewrite existsb_false in Hnew. split; simpl; eauto; try congruence.
  - intros id r Hl. exists r. split; [done |]. by apply quiet_run_moves.
  - intros id t Hl. exists t. split; [done |]. apply same_task_moves.
  - intros id t r Hr Ht Hc. eapply evidence_append with (t := er_task row); [reflexivity | .. | done]; simpl.
    + case_match; [done |]. apply lookup_lt_Some in Hcheck. unfold er_policy in Hcheck. lia.
    + intros e He Hrun Hx. specialize (Hnew e He). rewrite Hrun, Hx, N.eqb_refl, Z.eqb_refl in Hnew.
      simpl in Hnew. by rewrite orb_true_r in Hnew.
    + intros ->. rewrite (no_run _ _ Hrow) in Hr. injection Hr as <-.
      pose proof (no_task _ _ Hrow). unfold er_task_id, run_task in *. congruence.
Qed.

(** The verdict of the verifier: the status stays, the evidence is complete. *)
Lemma verdict_task_moves c c' id t v :
  (ta_status t = TaskStatus.Completed → task_is_held c c' id) →
  task_moves c c' id t (set_ta_verification_status v t).
Proof. intros Hh. split; auto. Qed.

Lemma on_verification_passed_step s es s' : row_now (x_core s) row → is_active (er_run row) →
  on_verification_passed row payload s = Ok (es, s') → core_step (x_core s) (x_core s').
Proof.
  unfold on_verification_passed, evidence_of. intros Hrow Ha Ht. txn_inv. ok_facts. core_rows.
  match goal with H : evidence_satisfies _ _ _ = true |- _ => rename H into Hev end.
  by_event.
  - split; [done | done | by left |]. intros _. right. intros t Ht.
    assert (ta_policy t = er_policy row) as Hp.
    { pose proof (no_task _ _ Hrow). unfold er_policy, er_task_id, run_task in *. congruence. }
    unfold evidence_complete. rewrite Hp. exact Hev.
  - intros t _. apply verdict_task_moves. intros _. by apply row_held.
Qed.

(** The request of a gate: its automated checks have passed. *)
Lemma on_verification_waiting_step s es s' : core_inv (x_core s) → row_now (x_core s) row →
  is_active (er_run row) → on_verification_waiting row payload s = Ok (es, s') →
  core_step (x_core s) (x_core s').
Proof.
  unfold on_verification_waiting, require_new. intros Hinv Hrow Ha Ht. txn_inv. ok_facts. core_rows.
  match goal with H : vp_manual_gate _ = Some _ |- _ => rename H into Hgate end.
  by_event. split; simpl.
  - intros id q'. destruct (decide (id = er_run_id row)) as [-> | Hn];
      rewrite ?lookup_insert_eq, ?lookup_insert_ne by done; [| eauto].
    intros [= <-]. right. exists (er_run row), (er_task row). simpl.
    split; [apply Hrow |]. split; [apply Hrow |]. split; [done |]. split; [done |].
    eapply (ci_passed _ Hinv); [apply Hrow | done | apply Hrow].
  - intros id q Hq _. rewrite lookup_insert_ne; [done |]. intros <-.
    match goal with H : is_some _ = false |- _ => by rewrite Hq in H end.
Qed.

(** *** Workspaces *)
Lemma recover_lost_quiet corp run_id s : ∃ f,
  x_core (recover_lost_workspace corp run_id s) =
  ExecCore (co_missions (x_core s)) (co_tasks (x_core s)) (co_dependencies (x_core s))
    (alter f run_id (co_runs (x_core s))) (co_evidence (x_core s)) (co_requests (x_core s)) ∧
  (∀ r, rn_binding (f r) = rn_binding r ∧ rn_status (f r) = rn_status r ∧
        rn_verification_status (f r) = rn_verification_status r).
Proof. eexists. split; [reflexivity |]. intros r. simpl. by case_match. Qed.

Lemma on_workspace_step env event_type s es s' : on_workspace env row event_type payload s = Ok (es, s') →
  core_step (x_core s) (x_core s').
Proof.
  unfold on_workspace. intros Ht. txn_inv.
  match goal with H : (if ?b then _ else _) _ = Ok (es, _) |- _ => destruct b end; txn_inv.
  2: core_rows; by eapply quiet_step.
  destruct (sw_source_correction_recovery _); txn_inv.
  2: core_rows; by eapply quiet_step.
  match goal with |- core_step _ (x_core (recover_lost_workspace ?corp ?id ?db)) =>
    destruct (recover_lost_quiet corp id db) as (f & Hf & Hq) end.
  rewrite Hf. core_rows. rewrite <-alter_twice. eapply quiet_step; [reflexivity | | done..].
  intros r. simpl. match goal with |- context [f ?x] => destruct (Hq x) as (-> & -> & ->) end. done.
Qed.

(** *** Completion and failure *)
Lemma on_completed_step s es s' : core_inv (x_core s) → row_now (x_core s) row →
  is_active (er_run row) → on_completed row payload s = Ok (es, s') → core_step (x_core s) (x_core s').
Proof.
  unfold on_completed. intros Hinv Hrow Ha Ht. txn_inv. ok_facts. core_of.
  match goal with H : finish_mission_step _ _ _ _ _ _ = Ok (_, ?s2) |- _ =>
    rename H into Hf; change (core_step (x_core s) (x_core s2)) end.
  match goal with H : rn_verification_status _ = "passed" |- _ => rename H into Hv end.
  match goal with H : is_some _ = false |- _ => rename H into Hg end.
  eapply (accept_step s); [apply Hrow | done | apply Hrow | .. | exact Hf]; try done.
  - by apply requests_same.
  - eapply (ci_passed _ Hinv); [apply Hrow | done | apply Hrow].
  - intros gate Hgate. unfold er_policy in Hg. by rewrite Hgate in Hg.
Qed.

Lemma on_failed_step scope s es s' : row_now (x_core s) row → is_active (er_run row) →
  on_failed row scope payload s = Ok (es, s') → core_step (x_core s) (x_core s').
Proof.
  unfold on_failed. intros Hrow Ha Ht. txn_inv. rewrite release_failed_core.
  destruct (recovery_of_run _ _ _) as [v|]; txn_inv.
  - match goal with H : terminalize_factory_recovery_run_tx _ _ _ _ _ _ _ _ _ _ = _ |- _ =>
      apply terminalize_core in H as [-> Hend] end.
    apply terminalized_step; [apply Hrow | done | done].
  - core_rows. by_event.
Qed.

Lemma on_cancelled_step s es s' : row_now (x_core s) row → is_active (er_run row) →
  on_cancelled row payload s = Ok (es, s') → core_step (x_core s) (x_core s').
Proof.
  unfold on_cancelled. intros Hrow Ha Ht. txn_inv.
  destruct (recovery_of_run _ _ _) as [v|]; txn_inv.
  - match goal with H : terminalize_factory_recovery_run_tx _ _ _ _ _ _ _ _ _ _ = Ok (_, ?s1) |- _ =>
      change (core_step (x_core s) (x_core s1)); apply terminalize_core in H as [-> Hend] end.
    apply terminalized_step; [apply Hrow | done | done].
  - core_rows. by_event.
Qed.
End arms.

(** ** The whole event *)
Lemma on_usage_step `{Serde} `{ExecSerde} row payload s es s' : on_usage row payload s = Ok (es, s') →
  core_step (x_core s) (x_core s').
Proof. apply update_usage_step. Qed.

Ltac arm lemma :=
  match goal with Ht : (if ?b then _ else _) _ = _ |- _ => destruct b eqn:?; [eapply lemma; eassumption |] end.
Ltac active_arm lemma :=
  match goal with Ht : (if ?b then _ else _) _ = _, Ha : _ ∨ terminal_event _ = true |- _ =>
    let E := fresh "E" in
    destruct b eqn:E;
      [destruct Ha as [Ha | Ha]; [eapply lemma; eassumption | apply seqb_eq in E; subst; done]
      | clear E] end.

Lemma dispatch_event_step `{Serde} `{ExecSerde} env row scope event_type payload s es s' :
  core_inv (x_core s) → row_now (x_core s) row →
  (is_active (er_run row) ∨ terminal_event event_type = true) →
  dispatch_event env row scope event_type payload s = Ok (es, s') → core_step (x_core s) (x_core s').
Proof.
  unfold dispatch_event. intros Hinv Hrow Ha Ht.
  arm on_session_step. active_arm on_started_step. active_arm on_status_step.
  active_arm on_approval_requested_step. arm on_tool_activity_step.
  match type of Ht with (if ?b then _ else _) _ = _ => destruct b end; [txn_inv |].
  arm on_usage_step. active_arm on_verification_started_step. arm on_evidence_step.
  active_arm on_verification_passed_step. active_arm on_verification_waiting_step.
  active_arm on_verification_failed_step. arm on_teardown_step. arm on_workspace_step.
  active_arm on_completed_step. active_arm on_failed_step. active_arm on_cancelled_step.
  txn_inv. apply core_step_refl.
Qed.

(** The row of an admitted event is the current state, and the run is active
    unless the event may follow the end. *)
Lemma run_joined_spec db corp id r t m : run_joined db corp id = Some (r, t, m) ↔
  run_of db id = Some r ∧ task_of db (run_task r) = Some t ∧ mission_of db (ta_mission t) = Some m ∧
  rb_corp (rn_binding r) = corp ∧ ta_corp t = corp ∧ mi_corp m = corp.
Proof.
  unfold run_joined, run_task. split.
  - intros (r0 & Hr & (t0 & Ht & (m0 & Hm & Hc)%bind_Some)%bind_Some)%bind_Some.
    case_match eqn:E; [| done]. rewrite !andb_true_iff, !N.eqb_eq in E. naive_solver.
  - intros (-> & Ht & Hm & <- & Hc & Hc'). simpl. rewrite Ht. simpl. rewrite Hm. simpl.
    by rewrite Hc, Hc', N.eqb_refl.
Qed.

Lemma admit_row_ok input s row s' : admit_row input s = Ok (row, s') →
  s' = s ∧ row_now (x_core s) row ∧ er_run_id row = re_run_id input ∧ er_corp row = re_corp_id input ∧
  er_agent_id row = re_agent_id input ∧ event_matches input (er_run row) = true ∧
  (is_active (er_run row) ∨ terminal_event (re_event_type input) = true).
Proof.
  unfold admit_row, fetch_one. intros Ht. txn_inv. ok_facts.
  match goal with H : _ = Some a |- _ => apply bind_Some in H as ([[r t] m] & Hj & Hc) end.
  match type of Hc with (if ?b then _ else _) = _ => destruct b eqn:E end; [| done].
  injection Hc as <-. txn_inv. apply run_joined_spec in Hj as (? & ? & ? & ? & ? & ?).
  apply andb_true_iff in E as [E1 E2]. split; [done |]. split; [by split |]. repeat (split; [done |]).
  apply orb_true_iff in E2 as [? | [? _]%andb_true_iff]; [left | right]; done.
Qed.

Lemma keeps_check_event `{Serde} `{ExecSerde} env input row scope :
  keeps_core (check_event env input row scope).
Proof. unfold check_event, validate_termination_tx. keeps. Qed.

Lemma check_event_same `{Serde} `{ExecSerde} env input row scope s p s' :
  check_event env input row scope s = Ok (p, s') → x_core s' = x_core s.
Proof. apply keeps_check_event. Qed.

(** Every event that is accepted is one abstract step, or none. *)
Lemma runner_event_step `{Serde} `{ExecSerde} env input s out s' : core_inv (x_core s) →
  apply_runner_event env input s = Ok (out, s') → core_step (x_core s) (x_core s').
Proof.
  intros Hinv. unfold apply_runner_event. intros Ht. txn_inv.
  match goal with H : admit_row _ _ = Ok (_, _) |- _ =>
    apply admit_row_ok in H as (-> & Hrow & _ & _ & _ & _ & Hact) end.
  match goal with H : append_event_tx _ _ = Ok (?e, _) |- _ => destruct e as [e|] end; txn_inv.
  - match goal with H : dispatch_event _ _ _ _ _ _ = _ |- _ => rename H into Hd end.
    frame_all.
    repeat match goal with K : x_core _ = x_core ?s |- context [x_core ?s] => rewrite <-K in *; clear K end.
    eapply dispatch_event_step; eassumption.
  - frame_all.
    repeat match goal with K : x_core ?s1 = _ |- context [x_core ?s1] => rewrite K; clear K end.
    apply core_step_refl.
Qed.
