(* ===== verification/AttemptSteps.v ===== *)
(** * Missions, attempts and decisions refine the specification

    Creating a mission, starting and resuming an attempt, failing a dispatch,
    losing a runner, deciding a manual gate, deciding or expiring an action
    approval: each moves the core tables by steps of [core_step]. *)
From S2P Require Import Prelude Text Json Domain Planning Deliverable FactoryPolicy Store FactoryItems Breaker ExecTables Checkpoint RunFailure RunEvents Dispatch Decisions ExecSpec EventSteps.

Section attempts.
Context `{Serde} `{ExecSerde}.

(** ** A new run *)
Lemma start_step c c' id r t t' m :
  co_runs c !! id = None → co_runs c' = <[id := r]> (co_runs c) →
  is_active r → rn_verification_status r = "pending" →
  (∀ id' r', co_runs c !! id' = Some r' → run_task r' = run_task r → ¬ is_active r') →
  (∀ id' r', co_runs c !! id' = Some r' → rb_agent (rn_binding r') = rb_agent (rn_binding r) →
     ¬ is_active r') →
  co_tasks c !! run_task r = Some t → co_tasks c' = <[run_task r := t']> (co_tasks c) →
  task_fixed t' = task_fixed t → ta_status t' = TaskStatus.Claimed →
  (ta_attempt_count t' = ta_attempt_count t ∨
   ta_attempt_count t' = (ta_attempt_count t + 1)%Z ∧ (ta_attempt_count t < ta_max_attempts t)%Z) →
  co_missions c' !! ta_mission t = Some m → mi_status m ≠ MissionStatus.Completed →
  (∀ id m', co_missions c' !! id = Some m' → mi_status m' = MissionStatus.Completed →
     ∃ m, co_missions c !! id = Some m ∧ mi_status m = MissionStatus.Completed) →
  co_evidence c' = co_evidence c → co_requests c' = co_requests c →
  core_step c c'.
Proof.
  intros Hn Hr Ha Hp Htf Haf Ht Ht' Hfix Hs Hat Hm Hmn Hms He Hq. split.
  - intros id' r' Hl. exists r'. rewrite Hr, lookup_insert_ne by congruence. split; [done |].
    by apply quiet_run_moves.
  - intros id' r' Hl Hl'. rewrite Hr in Hl'. destruct (decide (id' = id)) as [-> | Hne].
    2: { rewrite lookup_insert_ne in Hl' by done. congruence. }
    rewrite lookup_insert_eq in Hl'. injection Hl' as <-. split; [done | done | done | done | |].
    + exists t', m. rewrite Ht', lookup_insert_eq. split; [done |]. split; [done |].
      assert (ta_mission t' = ta_mission t) as -> by (unfold task_fixed in Hfix; congruence). done.
    + intros id2 r2 Hl2 Hl2'. rewrite Hr in Hl2'. destruct (decide (id2 = id)) as [| Hne]; [done |].
      rewrite lookup_insert_ne in Hl2' by done. congruence.
  - intros id' u Hu. rewrite Ht'. destruct (decide (id' = run_task r)) as [-> | Hne].
    2: { rewrite lookup_insert_ne by done. exists u. split; [done |]. apply same_task_moves. }
    rewrite lookup_insert_eq. rewrite Ht in Hu. injection Hu as <-. exists t'. split; [done |]. split; [done | done | |].
    + intros _. right. right. exists id, r. rewrite Hr, lookup_insert_eq. done.
    + by rewrite Hs.
  - intros id' u Hu Hu'. rewrite Ht' in Hu'. destruct (decide (id' = run_task r)) as [-> | Hne]; [congruence |].
    rewrite lookup_insert_ne in Hu' by done. congruence.
  - eauto.
  - unfold evidence_complete. by rewrite He.
  - rewrite Hq. eauto.
  - rewrite Hq. eauto.
Qed.
(** No active run: what the busy queries say. *)
Lemma active_on_false p s : active_on p s = false →
  ∀ id r, run_of s id = Some r → p (rn_binding r) = true → ¬ is_active r.
Proof.
  unfold active_on. intros Hf id r Hr Hp Ha. rewrite existsb_false in Hf.
  specialize (Hf (id, r)). rewrite elem_of_map_to_list in Hf. specialize (Hf Hr). simpl in Hf.
  by rewrite Hp, Ha in Hf.
Qed.

(** What starting and resuming an attempt share. *)
Lemma new_run_step c env corp task_id agent_id runner session resumed workspace tokens cost contract
    connection t m fm ft :
  co_tasks c !! task_id = Some t → co_missions c !! ta_mission t = Some m →
  is_some (co_runs c !! xe_run env) = false →
  (∀ id r, co_runs c !! id = Some r → (rb_task (rn_binding r) =? task_id)%N = true → ¬ is_active r) →
  (∀ id r, co_runs c !! id = Some r → (rb_agent (rn_binding r) =? agent_id)%N = true → ¬ is_active r) →
  (∀ m, mi_status (fm m) = MissionStatus.Completed → mi_status m = MissionStatus.Completed) →
  mi_status (fm m) ≠ MissionStatus.Completed →
  task_fixed (ft t) = task_fixed t → ta_status (ft t) = TaskStatus.Claimed →
  (ta_attempt_count (ft t) = ta_attempt_count t ∨
   ta_attempt_count (ft t) = (ta_attempt_count t + 1)%Z ∧ (ta_attempt_count t < ta_max_attempts t)%Z) →
  core_step c (ExecCore (alter fm (ta_mission t) (co_missions c)) (alter ft task_id (co_tasks c))
    (co_dependencies c)
    (alter (set_rn_connection connection) (xe_run env)
       (<[xe_run env := new_run env corp task_id agent_id runner session resumed workspace tokens cost
                          contract]> (co_runs c)))
    (co_evidence c) (co_requests c)).
Proof.
  intros Ht Hm Hnew Htf Haf Hfm Hopen Hfix Hs Hat.
  eapply (start_step _ _ (xe_run env) (set_rn_connection connection
    (new_run env corp task_id agent_id runner session resumed workspace tokens cost contract)) t (ft t) (fm m));
    cbn [co_runs co_tasks co_missions co_evidence co_requests]; try done.
  - by destruct (co_runs c !! xe_run env).
  - apply map_eq. intros i. destruct (decide (i = xe_run env)) as [-> | Hn].
    + by rewrite lookup_alter_eq, !lookup_insert_eq.
    + by rewrite lookup_alter_ne, !lookup_insert_ne by done.
  - intros id r Hr Htask. apply (Htf id r Hr), N.eqb_eq. exact Htask.
  - intros id r Hr Hagent. apply (Haf id r Hr), N.eqb_eq. exact Hagent.
  - apply map_eq. intros i. change (run_task _) with task_id. destruct (decide (i = task_id)) as [-> | Hn].
    + by rewrite lookup_alter_eq, lookup_insert_eq, Ht.
    + by rewrite lookup_alter_ne, lookup_insert_ne by done.
  - by rewrite lookup_alter_eq, Hm.
  - intros id m'. destruct (decide (id = ta_mission t)) as [-> | Hn].
    + rewrite lookup_alter_eq, Hm. simpl. intros [= <-]. done.
    + rewrite lookup_alter_ne by done. eauto.
Qed.

Lemma core_set_log l s : x_core (set_log l s) = x_core s.
Proof. done. Qed.

Lemma dispatch_open m explicit :
  mission_allows_dispatch (MissionStatus.mission_status_as_str (mi_status m)) explicit = true →
  mission_open (mi_status m) = true.
Proof. destruct (mi_status m); by destruct explicit. Qed.

Lemma launch_row_spec corp mission task_id s m t agent_id a :
  launch_row corp mission task_id s = Some (m, t, agent_id, a) →
  mission_of s mission = Some m ∧ task_of s task_id = Some t ∧ ta_assigned_agent t = Some agent_id ∧
  agent_of s agent_id = Some a ∧ mi_corp m = corp ∧ ta_mission t = mission.
Proof.
  unfold launch_row.
  intros (m0 & Hm & (t0 & Ht & (a0 & Ha & (x & Hx & Hc)%bind_Some)%bind_Some)%bind_Some)%bind_Some.
  case_match eqn:E; [| done]. rewrite andb_true_iff, !N.eqb_eq in E. naive_solver.
Qed.

Lemma create_task_run_step env corp mission task_id requested_by runner s out s' :
  core_inv (x_core s) →
  create_task_run env corp mission task_id requested_by runner s = Ok (out, s') →
  core_step (x_core s) (x_core s').
Proof.
  intros Hinv. unfold create_task_run, check_launch, insert_run_tx, bind_new_run_tx, require_new, fetch_one.
  intros Ht. txn_inv.
  match goal with H : with_context (launch_row _ _ _ _) _ = Ok ?row |- _ =>
    apply with_context_ok in H; destruct row as [[[m t] agent_id] a]; rename H into Hrow end.
  txn_inv. ok_facts. rewrite core_set_log.
  unfold task_busy, agent_busy in *.
  repeat match goal with H : active_on _ _ = false |- _ => pose proof (active_on_false _ _ H); clear H end.
  apply launch_row_spec in Hrow as (Hm & Ht & Hagent & _ & _ & Hmission). unfold run_of, task_of, mission_of in *.
  core_rows. rewrite <-Hmission in *. eapply new_run_step; try eassumption; try done.
  - intros m'. by apply set_open_mission_status.
  - by erewrite dispatch_open.
  - right. unfold int4, checked_i32 in *. ok_facts. case_match; [| done]. simplify_eq. simpl. lia.
Qed.

Lemma start_attempts_left env corp mission task_id requested_by runner s out s' :
  create_task_run env corp mission task_id requested_by runner s = Ok (out, s') →
  ∃ t, task_of s task_id = Some t ∧ (ta_attempt_count t < ta_max_attempts t)%Z.
Proof.
  unfold create_task_run, check_launch, fetch_one. intros Hx. txn_inv.
  match goal with H : with_context (launch_row _ _ _ _) _ = Ok ?row |- _ =>
    apply with_context_ok in H; destruct row as [[[m t] agent_id] a]; rename H into Hrow end.
  txn_inv. ok_facts. apply launch_row_spec in Hrow as (_ & Ht & _). unfold task_of in *.
  exists t. frame_all. split; [congruence | lia].
Qed.

(** A resumed attempt: the task of a preserved run, whatever its status. *)
Lemma resume_row_spec corp source_id s r t m a : resume_row corp source_id s = Some (r, t, m, a) →
  run_of s source_id = Some r ∧ task_of s (run_task r) = Some t ∧ mission_of s (ta_mission t) = Some m ∧
  agent_of s (rb_agent (rn_binding r)) = Some a ∧ rb_corp (rn_binding r) = corp.
Proof.
  unfold resume_row, run_task.
  intros (r0 & Hr & (t0 & Ht & (m0 & Hm & (a0 & Ha & Hc)%bind_Some)%bind_Some)%bind_Some)%bind_Some.
  case_match eqn:E; [| done]. rewrite N.eqb_eq in E. naive_solver.
Qed.

Lemma create_resume_run_step env corp source_id requester s out s' :
  core_inv (x_core s) → create_resume_run env corp source_id requester s = Ok (out, s') →
  core_step (x_core s) (x_core s').
Proof.
  intros Hinv. unfold create_resume_run, check_resume, insert_run_tx, bind_new_run_tx, require_new, fetch_one.
  intros Hx. txn_inv.
  match goal with H : with_context (resume_row _ _ _) _ = Ok ?row |- _ =>
    apply with_context_ok in H; destruct row as [[[r t] m] ag]; rename H into Hrow end.
  txn_inv. ok_facts. rewrite core_set_log.
  repeat match goal with H : active_on _ _ = false |- _ => pose proof (active_on_false _ _ H); clear H end.
  apply resume_row_spec in Hrow as (Hr & Ht & Hm & _ & _). unfold run_of, task_of, mission_of in *.
  match goal with H : ∀ id r, _ → _ || _ = true → _ |- _ => rename H into Hfree end.
  core_rows. eapply new_run_step; try eassumption; try done; try (by left).
  - intros id r' Hr' Htask. apply (Hfree id r' Hr'). by rewrite Htask.
  - intros id r' Hr' Hagent. apply (Hfree id r' Hr'). by rewrite Hagent, orb_true_r.
Qed.

(** ** A run that ends without its runner *)
Lemma keeps_block_item corp run_id mission room item reason :
  keeps_core (block_dispatched_item corp run_id mission room item reason).
Proof. unfold block_dispatched_item. keeps. Qed.

Lemma ended_step c run_id mission fr ft fm r :
  co_runs c !! run_id = Some r → is_active r → run_moves c
    (ExecCore (alter fm mission (co_missions c)) (alter ft (run_task r) (co_tasks c)) (co_dependencies c)
      (alter fr run_id (co_runs c)) (co_evidence c) (co_requests c)) run_id r (fr r) →
  (∀ t, task_fixed (ft t) = task_fixed t ∧ ta_attempt_count (ft t) = ta_attempt_count t ∧
        ta_status (ft t) ≠ TaskStatus.Completed) →
  (∀ m, mi_status (fm m) = MissionStatus.Completed → mi_status m = MissionStatus.Completed) →
  core_step c (ExecCore (alter fm mission (co_missions c)) (alter ft (run_task r) (co_tasks c))
    (co_dependencies c) (alter fr run_id (co_runs c)) (co_evidence c) (co_requests c)).
Proof.
  intros Hr Ha Hm Ht Hfm. eapply (local_step _ _ run_id (run_task r) mission); try reflexivity.
  - intros r' Hr'. by simplify_eq.
  - intros t _. destruct (Ht t) as (? & ? & ?). apply open_task_moves; [done | done | done |].
    intros _. left. eauto.
  - exact Hfm.
  - by apply requests_same.
Qed.

#[local] Hint Resolve keeps_block_item : core_frame.
Lemma fail_run_before_dispatch_step corp run_id reason s es s' :
  core_inv (x_core s) → fail_run_before_dispatch corp run_id reason s = Ok (es, s') →
  core_step (x_core s) (x_core s').
Proof.
  intros Hinv. unfold fail_run_before_dispatch, fetch_one, fail_dispatched_run. intros Hx. txn_inv. ok_facts.
  match goal with H : run_joined _ _ _ = Some ?row |- _ =>
    destruct row as [[r t] m]; apply run_joined_spec in H as (Hr & Ht & Hm & _) end.
  txn_inv.
  match type of Hx with (if ?b then _ else _) _ = _ => destruct b eqn:Hguard end; txn_inv; [apply core_step_refl |].
  ok_facts. destruct (dispatch_failure_replay r t m); txn_inv; core_rows; [apply core_step_refl |].
  assert (is_active r) as Ha.
  { unfold is_active. destruct (rn_status r); simpl in *; done. }
  apply ended_step; [exact Hr | exact Ha | by apply open_run_moves | done | by intros m'].
Qed.

(** *** The runs of a lost runner *)
Lemma lose_run_step env runner reason row s es s' r :
  run_of s (lo_run_id row) = Some r → is_active r → rn_binding r = rn_binding (lo_run row) →
  lose_run env runner reason row s = Ok (es, s') →
  core_step (x_core s) (x_core s') ∧
  ∀ id, id ≠ lo_run_id row → run_of s' id = run_of s id.
Proof.
  intros Hr Ha Hb. unfold lose_run. intros Hx. txn_inv.
  match type of Hx with (if ?b then _ else _) _ = _ => destruct b end; txn_inv.
  { unfold run_of. core_rows. split; [apply core_step_refl | done]. }
  rewrite <-Hb in *. fold (run_task r) in *. unfold run_of in *.
  destruct (lo_recovery row) as [[v rv]|]; txn_inv.
  - match goal with H : terminalize_factory_recovery_run_tx _ _ _ _ _ _ _ _ _ _ = _ |- _ =>
      apply terminalize_core in H as [Hc _] end.
    core_rows. split.
    + by apply terminalized_step.
    + intros id Hn. simpl. by rewrite lookup_alter_ne.
  - core_rows. split.
    + apply ended_step; [exact Hr | exact Ha | by apply open_run_moves | done |].
      intros m. by apply set_open_mission_status.
    + intros id Hn. simpl. by rewrite lookup_alter_ne.
Qed.

(** The rows are distinct active runs. *)
Lemma filter_keys_NoDup {A B} (p : A * B → bool) l : NoDup l.*1 → NoDup (List.filter p l).*1.
Proof.
  induction l as [|x l IH]; simpl; [done |]. intros [Hx Hl]%NoDup_cons. destruct (p x); simpl; [| eauto].
  apply NoDup_cons. split; [| eauto]. intros (y & Hy & Hin)%list_elem_of_fmap. apply Hx.
  apply list_elem_of_In, List.filter_In in Hin as [Hin _]. rewrite Hy. apply list_elem_of_fmap.
  exists y. split; [done |]. by apply list_elem_of_In.
Qed.

Lemma omap_keys_NoDup {A B K} (f : A → option B) (h : A → K) (g : B → K) l :
  (∀ x y, f x = Some y → g y = h x) → NoDup (h <$> l) → NoDup (g <$> omap f l).
Proof.
  intros Hf. induction l as [|x l IH]; csimpl; [done |]. intros [Hx Hl]%NoDup_cons.
  destruct (f x) as [y|] eqn:E; csimpl; [| eauto]. apply NoDup_cons. split; [| eauto].
  rewrite (Hf _ _ E). intros (z & Hz & (w & Hw & Hfw)%list_elem_of_omap)%list_elem_of_fmap. apply Hx.
  rewrite Hz, (Hf _ _ Hfw). by apply list_elem_of_fmap_2.
Qed.

Lemma lost_rows_spec runner excluded created_before s :
  NoDup (lo_run_id <$> lost_rows runner excluded created_before s) ∧
  ∀ row, row ∈ lost_rows runner excluded created_before s →
    run_of s (lo_run_id row) = Some (lo_run row) ∧ is_active (lo_run row).
Proof.
  unfold lost_rows. set (l := List.filter _ (map_to_list _)).
  assert (∀ x row, (let '(id, r) := x in
      row ← run_joined s (rb_corp (rn_binding r)) id;
      let '(r, t, m) := row in
      if awaits_recovery_command s id r then None else Some (LostRow id r t m (lost_recovery s id r t)))
      = Some row → lo_run_id row = x.1 ∧ run_of s x.1 = Some (lo_run row)) as Hf.
  { intros [id r] row (y & Hj & Hy)%bind_Some. destruct y as [[r' t] m].
    apply run_joined_spec in Hj as (Hr & _). case_match; [done |]. by simplify_eq. }
  split.
  - eapply omap_keys_NoDup; [intros x row Hx; by apply (Hf x row) |].
    rewrite sort_by_perm. apply filter_keys_NoDup, NoDup_fst_map_to_list.
  - intros row (x & Hx & Hrow)%list_elem_of_omap. apply Hf in Hrow as [-> Hr]. split; [done |].
    rewrite sort_by_perm in Hx. apply list_elem_of_In, List.filter_In in Hx as [Hin Hc].
    apply list_elem_of_In in Hin. destruct x as [id r]. apply elem_of_map_to_list in Hin.
    unfold run_of in Hr. simpl in Hr. simplify_eq. unfold lost_candidate in Hc.
    unfold is_active. rewrite !andb_true_iff in Hc. tauto.
Qed.

Lemma each_lose_steps env runner reason rows : ∀ s es s',
  core_inv (x_core s) → NoDup (lo_run_id <$> rows) →
  (∀ row, row ∈ rows → run_of s (lo_run_id row) = Some (lo_run row) ∧ is_active (lo_run row)) →
  each (lose_run env runner reason) rows s = Ok (es, s') → rtc core_step (x_core s) (x_core s').
Proof.
  induction rows as [|row rows IH]; intros s es s' Hinv Hnd Hrows Hx; simpl in Hx; txn_inv; [done |].
  apply NoDup_cons in Hnd as [Hn Hnd]. destruct (Hrows row) as [Hr Hact]; [left |].
  match goal with H : lose_run _ _ _ _ _ = _ |- _ =>
    destruct (lose_run_step _ _ _ _ _ _ _ _ Hr Hact eq_refl H) as [Hs Hkeep] end.
  eapply rtc_l; [exact Hs |]. eapply IH; [by eapply core_step_inv | done | | eassumption].
  intros row' Hin. rewrite Hkeep; [apply Hrows; by right |].
  intros Heq. apply Hn. rewrite <-Heq. by apply list_elem_of_fmap_2.
Qed.

Lemma mark_lost_steps env runner excluded created_before reason s es s' : core_inv (x_core s) →
  mark_runner_runs_lost_tx env runner excluded created_before reason s = Ok (es, s') →
  rtc core_step (x_core s) (x_core s').
Proof.
  unfold mark_runner_runs_lost_tx. intros Hinv Hx. txn_inv.
  destruct (lost_rows_spec runner excluded created_before s) as [Hnd Hrows].
  by eapply each_lose_steps.
Qed.

(** ** Decisions *)
Lemma request_row_spec corp run_id s row : request_row_of corp run_id s = Some row →
  co_requests (x_core s) !! run_id = Some (qr_request row) ∧
  co_runs (x_core s) !! run_id = Some (qr_run row) ∧
  co_tasks (x_core s) !! rq_task (qr_request row) = Some (qr_task row) ∧
  co_missions (x_core s) !! qr_mission_id row = Some (qr_mission row) ∧
  qr_mission_id row = ta_mission (qr_task row) ∧ rq_corp (qr_request row) = corp ∧
  agent_of s (rb_agent (rn_binding (qr_run row))) = Some (qr_producer row).
Proof.
  unfold request_row_of.
  intros (q & Hq & (r & Hr & (t & Ht & (m & Hm & (a & Ha & Hc)%bind_Some)%bind_Some)%bind_Some)
    %bind_Some)%bind_Some.
  case_match eqn:E; [| done]. rewrite N.eqb_eq in E. injection Hc as <-. done.
Qed.

Lemma decide_request_moves c c' run_id status actor note key q :
  co_requests c !! run_id = Some q → rq_status q = "pending" →
  co_requests c' = alter (decide_request status actor note key) run_id (co_requests c) →
  requests_move c c'.
Proof.
  intros Hq Hs Hc. split; rewrite Hc; intros id q'; destruct (decide (id = run_id)) as [-> | Hn];
    rewrite ?lookup_alter_eq, ?lookup_alter_ne by done; eauto.
  - rewrite Hq. simpl. intros [= <-]. left. by exists q.
  - rewrite Hq. by intros [= <-] Hne.
Qed.

Lemma decide_verification_step env corp run_id actor approved note key s out s' : core_inv (x_core s) →
  decide_verification env corp run_id actor approved note key s = Ok (out, s') →
  core_step (x_core s) (x_core s').
Proof.
  intros Hinv. unfold decide_verification, fetch_one, require_new. intros Hx. txn_inv. ok_facts.
  match goal with H : request_row_of _ _ _ = Some ?x |- _ => rename x into row; rename H into Hrow end.
  apply request_row_spec in Hrow as (Hq & Hr & Ht & _).
  match type of Hx with (if ?b then _ else _) _ = _ => destruct b end; txn_inv; [core_rows; apply core_step_refl |].
  unfold check_decidable in *. txn_inv. ok_facts. rewrite core_set_log.
  match goal with H : rq_status _ = "pending" |- _ => rename H into Hpending end.
  match goal with H : rn_status _ = RunStatus.WaitingForApproval |- _ => rename H into Hwaiting end.
  destruct approved; unfold approve_run, reject_run in *; txn_inv.
  - match goal with H : finish_mission_step _ _ _ _ _ _ = Ok (_, ?s2) |- _ =>
      rename H into Hf; change (core_step (x_core s) (x_core s2)) end.
    frame_all.
    repeat match goal with K : x_core _ = x_core ?s |- context [x_core ?s] => rewrite <-K in *; clear K end.
    destruct (ci_requests _ Hinv run_id (qr_request row) Hq) as (r & t & Hr' & Ht' & Htask & Hgate & Hev).
    rewrite Hr in Hr'. injection Hr' as <-.
    rewrite Htask in Hf. eapply (accept_step _ _ _ _ _ _ _ _ _ _ _ (set_run_statuses RunStatus.Completed "passed"));
      [exact Hr | | exact Ht' | | | | | | | | | exact Hev | | exact Hf]; try done.
    + unfold is_active. by rewrite Hwaiting.
    + by eapply decide_request_moves.
    + intros gate Hg. core_of. rewrite lookup_alter_eq, Hq. eexists. split; [done |]. simpl.
      split; [done | congruence].
  - core_rows. destruct (ci_requests _ Hinv run_id (qr_request row) Hq) as (r & t & Hr' & _ & Htask & _).
    rewrite Hr in Hr'. injection Hr' as <-. assert (is_active (qr_run row)) as Hact.
    { unfold is_active. by rewrite Hwaiting. }
    eapply (local_step _ _ run_id (run_task (qr_run row)));
      [reflexivity | | by rewrite <-Htask | | reflexivity | | reflexivity | by eapply decide_request_moves].
    + intros r' Hr'. rewrite Hr in Hr'. injection Hr' as <-. by apply open_run_moves.
    + intros t' _. apply open_task_moves; [done | done | done |]. intros _. left. eauto.
    + intros m. by apply set_open_mission_status.
Qed.

(** ** Action approvals *)
Lemma expire_row_step env approval_id a r s out s' : expire_row env approval_id a r s = Ok (out, s') →
  core_step (x_core s) (x_core s').
Proof.
  unfold expire_row. intros Hx. txn_inv. rewrite core_set_log. core_rows.
  eapply (local_step _ _ (ap_run a) (ap_task a)); try reflexivity.
  - intros r' _. simpl. case_bool_decide as E; [| by apply quiet_run_moves].
    apply open_run_moves; [| done | done | done]. unfold is_active. by rewrite E.
  - intros t _. simpl. case_bool_decide as E; [| apply same_task_moves].
    apply open_task_moves; [done | done | done |]. by rewrite E.
  - intros m. simpl. by case_bool_decide.
  - by apply requests_same.
Qed.

Lemma expire_step env approval_id s out s' : expire_action_approval env approval_id s = Ok (out, s') →
  core_step (x_core s) (x_core s').
Proof.
  unfold expire_action_approval. intros Hx. txn_inv.
  destruct (approval_row _ _ _) as [[a r]|]; txn_inv; [| apply core_step_refl].
  match type of Hx with (if ?b then _ else _) _ = _ => destruct b end; txn_inv; [apply core_step_refl |].
  by eapply expire_row_step.
Qed.

Lemma keeps_record_approval env corp approval_id actor approved note key a r :
  keeps_core (record_approval env corp approval_id actor approved note key a r).
Proof. unfold record_approval. keeps. Qed.
#[local] Hint Resolve keeps_record_approval : core_frame.

Lemma decide_approval_step env corp approval_id actor approved note key s out s' :
  decide_action_approval env corp approval_id actor approved note key s = Ok (out, s') →
  core_step (x_core s) (x_core s').
Proof.
  unfold decide_action_approval, fetch_one. intros Hx. txn_inv.
  match goal with H : with_context (approval_row _ _ _) _ = Ok ?row |- _ => destruct row as [ap r] end.
  match type of Hx with (if ?b then _ else _) _ = _ => destruct b end; txn_inv; [apply core_step_refl |].
  match type of Hx with (if ?b then _ else _) _ = _ => destruct b end; txn_inv.
  - match goal with H : expire_action_approval _ _ _ = _ |- _ => apply expire_step in H as Hs end.
    frame_all. match goal with K : x_core ?s0 = _, Hs : core_step (x_core ?s0) _ |- _ => by rewrite K in Hs end.
  - core_rows. apply core_step_refl.
Qed.

(** ** A new mission *)

(** Rows that only appear: the mission, its tasks and their dependencies. *)
Lemma grow_step c c' :
  co_runs c' = co_runs c → co_evidence c' = co_evidence c → co_requests c' = co_requests c →
  (∀ id t, co_tasks c !! id = Some t → co_tasks c' !! id = Some t) →
  (∀ id t, co_tasks c !! id = None → co_tasks c' !! id = Some t →
     ta_status t ≠ TaskStatus.Completed ∧ (0 ≤ ta_attempt_count t ≤ ta_max_attempts t)%Z ∧
     ∀ m, co_missions c' !! ta_mission t = Some m → mi_status m ≠ MissionStatus.Completed) →
  (∀ id m', co_missions c' !! id = Some m' → mi_status m' = MissionStatus.Completed →
     ∃ m, co_missions c !! id = Some m ∧ mi_status m = MissionStatus.Completed) →
  core_step c c'.
Proof.
  intros Hr He Hq Ht Hnt Hm. split; rewrite ?Hr, ?Hq; try congruence.
  - intros id r Hl. exists r. split; [done |]. by apply quiet_run_moves.
  - intros id t Hl. exists t. split; [eauto |]. apply same_task_moves.
  - intros id t Hl Hl'. destruct (Hnt id t Hl Hl') as (? & ? & ?). done.
  - intros id m' Hl Hc. left. by eapply Hm.
  - eauto.
Qed.

Lemma keeps_each {A B} (f : A → txn exec_db B) xs : (∀ x, keeps_core (f x)) → keeps_core (each f xs).
Proof.
  intros Hf. induction xs as [|x xs IH]; simpl; [keeps |].
  apply keeps_bind; [apply Hf | intros y]. apply keeps_bind; [apply IH | keeps].
Qed.

Lemma keeps_plan_room corp actor tasks : ∀ room, keeps_core (plan_room_loop corp actor room tasks).
Proof. induction tasks as [|task tasks IH]; intros room; simpl; keeps; apply IH. Qed.
#[local] Hint Resolve keeps_plan_room : core_frame.

Lemma keeps_admission corp requester title description plan :
  keeps_core (mission_creation_admission_tx corp requester title description plan).
Proof. unfold mission_creation_admission_tx, plan_room_tx. keeps. Qed.

Lemma keeps_staff_one corp mission room requester actor_id agent :
  keeps_core (staff_one corp mission room requester actor_id agent).
Proof. unfold staff_one. keeps. Qed.
#[local] Hint Resolve keeps_admission keeps_staff_one : core_frame.

Lemma keeps_staff_all corp mission room requester agents : ∀ actors,
  keeps_core (staff_all corp mission room requester actors agents).
Proof.
  induction agents as [|agent agents IH]; intros [|actor actors]; simpl; keeps; apply IH.
Qed.
#[local] Hint Resolve keeps_staff_all : core_frame.
Lemma keeps_staffing env corp mission room requester plan :
  keeps_core (persist_staffing_tx env corp mission room requester plan).
Proof. unfold persist_staffing_tx. keeps. Qed.
#[local] Hint Resolve keeps_staffing : core_frame.

(** Dependencies are no concern of the step. *)
Lemma dependency_step ids task_id dependency s u s' : create_dependency ids task_id dependency s = Ok (u, s') →
  core_step (x_core s) (x_core s').
Proof.
  unfold create_dependency, require_new. intros Hx. txn_inv. core_of.
  by apply grow_step; simpl; try done; eauto; congruence.
Qed.

Lemma each_steps {A B} (f : A → txn exec_db B) xs :
  (∀ x s y s', f x s = Ok (y, s') → rtc core_step (x_core s) (x_core s')) →
  ∀ s ys s', each f xs s = Ok (ys, s') → rtc core_step (x_core s) (x_core s').
Proof.
  intros Hf. induction xs as [|x xs IH]; intros s ys s' Hx; simpl in Hx; txn_inv; [done |].
  etrans; [by eapply Hf | by eapply IH].
Qed.

(** A task appears in a mission that is not completed, and the missions stay. *)
Lemma create_task_step env corp mission room requester ids task s e s' m :
  mission_of s mission = Some m → mi_status m ≠ MissionStatus.Completed →
  create_task env corp mission room requester ids task s = Ok (e, s') →
  core_step (x_core s) (x_core s') ∧ co_missions (x_core s') = co_missions (x_core s).
Proof.
  intros Hm Hopen. unfold create_task, fetch_one, require_new. intros Hx. txn_inv. ok_facts.
  rewrite !core_set_log. core_of. split; [| done].
  match goal with H : is_some (task_of _ _) = false |- _ => rename H into Hnew end.
  match goal with H : in_range 1 5 _ = true |- _ => apply in_range_spec in H as Hrange end.
  unfold task_of, mission_of in *.
  apply grow_step; simpl; try done.
  - intros id t Hl. rewrite lookup_insert_ne; [done |]. intros <-. by rewrite Hl in Hnew.
  - intros id t Hl Hl'. rewrite lookup_insert_Some in Hl'. destruct Hl' as [[<- <-] | [_ Hl']]; [| congruence].
    simpl. split; [by case_match |]. split; [lia |]. intros m' Hm'. congruence.
  - eauto.
Qed.

Lemma create_tasks_steps env corp mission room requester ids tasks m : ∀ s es s',
  mission_of s mission = Some m → mi_status m ≠ MissionStatus.Completed →
  each (create_task env corp mission room requester ids) tasks s = Ok (es, s') →
  rtc core_step (x_core s) (x_core s').
Proof.
  induction tasks as [|task tasks IH]; intros s es s' Hm Hopen Hx; simpl in Hx; txn_inv; [done |].
  match goal with H : create_task _ _ _ _ _ _ _ _ = _ |- _ =>
    destruct (create_task_step _ _ _ _ _ _ _ _ _ _ _ Hm Hopen H) as [Hs Hsame] end.
  eapply rtc_l; [exact Hs |]. eapply IH; [| exact Hopen | eassumption]. unfold mission_of. by rewrite Hsame.
Qed.

Lemma create_mission_steps env corp requester title description plan s out s' :
  create_mission_tx env corp requester title description plan s = Ok (out, s') →
  rtc core_step (x_core s) (x_core s').
Proof.
  unfold create_mission_tx, require_new. intros Hx. txn_inv.
  match goal with H : mission_creation_admission_tx _ _ _ _ _ _ = Ok (?row, _) |- _ =>
    destruct row as [[title' description'] room] end.
  txn_inv. ok_facts. rewrite core_set_log.
  match goal with H : is_some (mission_of ?s0 _) = false |- _ => rename H into Hnew; rename s0 into s1 end.
  match goal with H : each (create_task _ _ _ _ _ _) _ ?s0 = Ok (_, ?s3) |- _ =>
    rename H into Htasks; rename s0 into s2 end.
  match goal with H : each (create_dependencies _) _ _ = _ |- _ => rename H into Hdeps end.
  set (m := XMission _ _ _ _ _ _ _ _ _ _ _) in *.
  assert (x_core s2 = x_core (on_missions <[xe_mission env := m]> s1) ∧ x_core s1 = x_core s) as [K2 K1].
  { frame_all. split; [| done]. etrans; [eassumption | apply core_set_log]. }
  assert (core_step (x_core s) (x_core s2)) as Hmission.
  { rewrite K2, <-K1. core_of. apply grow_step; simpl; eauto; [congruence |].
    intros id m' Hl Hc. rewrite lookup_insert_Some in Hl. destruct Hl as [[<- <-] | [_ Hl]]; [done | eauto]. }
  eapply rtc_l; [exact Hmission |]. etrans.
  - eapply create_tasks_steps; [| | exact Htasks]; [| by instantiate (1 := m)].
    unfold mission_of. rewrite K2. core_of. apply lookup_insert_eq.
  - eapply each_steps; [| exact Hdeps]. intros task s3 u s4. unfold create_dependencies. intros Hx. txn_inv.
    match goal with H : each (create_dependency _ _) _ _ = _ |- _ =>
      eapply each_steps; [| exact H] end.
    intros dependency ? ? ? Hd%dependency_step. by apply rtc_once.
Qed.
End attempts.
