(* ===== verification/Execution.v ===== *)
(** * Mission execution as a whole (crates/crony-store/src/lib.rs)

    [exec_step] is one step of the system: a handler answers a request, or
    another component writes its own columns ([world_moves], which the circuit
    breaker is shown to respect).  The theorems hold for everything the system
    can reach: completed missions rest on accepted, evidenced work; work is
    exclusive; what has ended stays ended; and every handler refines
    [core_step]. *)
From S2P Require Import Prelude Text Json Domain Planning Deliverable FactoryPolicy Store FactoryItems Breaker ExecTables Checkpoint RunFailure RunEvents Dispatch Decisions ExecSpec EventSteps AttemptSteps.

(** ** Requests *)
Inductive exec_request :=
| CreateMission (corp requester : uuid) (title description : string) (plan : task_graph_plan)
| StartAttempt (corp mission task_id : uuid) (requested_by : option uuid) (runner : string)
| ResumeAttempt (corp source_id requester : uuid)
| DispatchFailed (corp run_id : uuid) (reason : string)
| RunnerLost (runner : string) (excluded : list uuid) (created_before : option timestamp) (reason : string)
| RunnerEvent (input : runner_event_input)
| DecideVerification (corp run_id actor : uuid) (approved : bool) (note : string) (key : option uuid)
| DecideApproval (corp approval_id actor : uuid) (approved : bool) (note : string) (key : uuid)
| ExpireApproval (approval_id : uuid).

Section execution.
Context `{Serde} `{ExecSerde}.

Definition forget {A} (t : txn exec_db A) : txn exec_db unit := t;; mret tt.
Definition handler (env : exec_env) (request : exec_request) : txn exec_db unit :=
  match request with
  | CreateMission corp requester title description plan =>
      forget (create_mission_tx env corp requester title description plan)
  | StartAttempt corp mission task_id requested_by runner =>
      forget (create_task_run env corp mission task_id requested_by runner)
  | ResumeAttempt corp source_id requester => forget (create_resume_run env corp source_id requester)
  | DispatchFailed corp run_id reason => forget (fail_run_before_dispatch corp run_id reason)
  | RunnerLost runner excluded created_before reason =>
      forget (mark_runner_runs_lost_tx env runner excluded created_before reason)
  | RunnerEvent input => forget (apply_runner_event env input)
  | DecideVerification corp run_id actor approved note key =>
      forget (decide_verification env corp run_id actor approved note key)
  | DecideApproval corp approval_id actor approved note key =>
      forget (decide_action_approval env corp approval_id actor approved note key)
  | ExpireApproval approval_id => forget (expire_action_approval env approval_id)
  end.

(** The database after a request: unchanged when it fails. *)
Definition handle (env : exec_env) (request : exec_request) (s : exec_db) : exec_db :=
  (run_txn (handler env request) s).2.

(** What the other components write to the core tables: a run may be suspended
    and its task blocked; the columns execution does not decide on are free. *)
Definition run_drifts (r r' : x_run) : Prop :=
  rn_binding r' = rn_binding r ∧ rn_verification_status r' = rn_verification_status r ∧
  (rn_status r' = rn_status r ∨
   rn_status r = RunStatus.Running ∧ rn_status r' = RunStatus.WaitingForInput).
Definition task_drifts (t t' : x_task) : Prop :=
  task_fixed t' = task_fixed t ∧ ta_attempt_count t' = ta_attempt_count t ∧
  ta_verification_status t' = ta_verification_status t ∧
  (ta_status t' = ta_status t ∨ ta_status t = TaskStatus.Running ∧ ta_status t' = TaskStatus.Blocked).
Record world_moves (c c' : exec_core) : Prop := {
  wm_runs : ∀ id, option_Forall2 run_drifts (co_runs c !! id) (co_runs c' !! id);
  wm_tasks : ∀ id, option_Forall2 task_drifts (co_tasks c !! id) (co_tasks c' !! id);
  wm_missions : ∀ id, mi_status <$> co_missions c' !! id = mi_status <$> co_missions c !! id;
  wm_evidence : co_evidence c' = co_evidence c;
  wm_requests : co_requests c' = co_requests c;
}.

Inductive exec_step : exec_db → exec_db → Prop :=
| step_request env request s : exec_step s (handle env request s)
| step_world s s' : world_moves (x_core s) (x_core s') → exec_step s s'.

(** A database before any mission. *)
Definition empty_core : exec_core := ExecCore ∅ ∅ [] ∅ [] ∅.
Definition reachable (s : exec_db) : Prop := ∃ s0, x_core s0 = empty_core ∧ rtc exec_step s0 s.

(** ** Every step refines the specification *)
Lemma forget_ok {A} (t : txn exec_db A) s u s' : forget t s = Ok (u, s') → ∃ a, t s = Ok (a, s').
Proof. unfold forget. intros Hx. txn_inv. eauto. Qed.

Lemma handler_steps env request s u s' : core_inv (x_core s) → handler env request s = Ok (u, s') →
  rtc core_step (x_core s) (x_core s').
Proof.
  intros Hinv Hx. destruct request; simpl in Hx; apply forget_ok in Hx as [a Hx].
  - by eapply create_mission_steps.
  - apply rtc_once. by eapply create_task_run_step.
  - apply rtc_once. by eapply create_resume_run_step.
  - apply rtc_once. by eapply fail_run_before_dispatch_step.
  - by eapply mark_lost_steps.
  - apply rtc_once. by eapply runner_event_step.
  - apply rtc_once. by eapply decide_verification_step.
  - apply rtc_once. by eapply decide_approval_step.
  - apply rtc_once. by eapply expire_step.
Qed.

Lemma world_step c c' : world_moves c c' → core_step c c'.
Proof.
  intros [Hr Ht Hm He Hq]. split.
  - intros id r Hl. specialize (Hr id). rewrite Hl in Hr. inversion Hr as [? r' Hd E1 E2 |]; subst.
    exists r'. split; [done |]. destruct Hd as (Hb & Hv & [Hs | [Hs Hs']]).
    + by apply quiet_run_moves.
    + apply open_run_moves; [| done | by rewrite Hs' | by rewrite Hv]. unfold is_active. by rewrite Hs.
  - intros id r Hl Hl'. specialize (Hr id). rewrite Hl, Hl' in Hr. inversion Hr.
  - intros id t Hl. specialize (Ht id). rewrite Hl in Ht. inversion Ht as [? t' Hd E1 E2 |]; subst.
    exists t'. split; [done |]. destruct Hd as (Hf & Ha & Hv & [Hs | [Hs Hs']]).
    + split; [done | by left | by left | rewrite Hs; by left].
    + apply open_task_moves; [done | done | by rewrite Hs' | by rewrite Hs].
  - intros id t Hl Hl'. specialize (Ht id). rewrite Hl, Hl' in Ht. inversion Ht.
  - intros id m' Hl Hs. left. specialize (Hm id). rewrite Hl in Hm.
    destruct (co_missions c !! id) as [m|]; [| done]. simpl in Hm. exists m. split; [done | congruence].
  - unfold evidence_complete. by rewrite He.
  - rewrite Hq. eauto.
  - by rewrite Hq.
Qed.

Lemma exec_step_steps s s' : core_inv (x_core s) → exec_step s s' → rtc core_step (x_core s) (x_core s').
Proof.
  intros Hinv Hs. destruct Hs as [env request s0 | s0 s1 Hw]; [| by apply rtc_once, world_step].
  unfold handle, run_txn. destruct (handler env request s0) as [[u s1]|] eqn:E; [| done].
  by eapply handler_steps.
Qed.

Lemma core_steps_inv c c' : core_inv c → rtc core_step c c' → core_inv c'.
Proof. intros Hinv Hs. revert Hinv. induction Hs; eauto using core_step_inv. Qed.

Lemma exec_steps_steps s s' : core_inv (x_core s) → rtc exec_step s s' →
  core_inv (x_core s') ∧ rtc core_step (x_core s) (x_core s').
Proof.
  intros Hinv Hs. revert Hinv. induction Hs as [s | s1 s2 s3 H12 _ IH]; intros Hinv; [done |].
  pose proof (exec_step_steps _ _ Hinv H12) as Hc. destruct IH as [Hi Hr]; [by eapply core_steps_inv |].
  split; [done | by etrans].
Qed.

Lemma empty_inv : core_inv empty_core.
Proof. split; simpl; intros *; by rewrite lookup_empty. Qed.

Lemma reachable_inv s : reachable s → core_inv (x_core s).
Proof.
  intros (s0 & Hs0 & Hs). apply (exec_steps_steps s0 s); [| done]. rewrite Hs0. apply empty_inv.
Qed.

Lemma reachable_requests s0 steps : x_core s0 = empty_core →
  reachable (foldl (λ s '(env, request), handle env request s) s0 steps).
Proof.
  intros Hs0. exists s0. split; [done |]. clear Hs0. revert s0.
  induction steps as [|[env request] steps IH]; intros s0; [done |]. eapply rtc_l; [| apply IH]. constructor.
Qed.
End execution.

(** ** A concrete history: one task with a check and an owner's gate *)
Section demo.
#[local] Existing Instance sample_serde.
#[local] Existing Instance sample_exec_serde.

Definition demo_contract : task_contract :=
  TaskContract "objective" "output" None None None None ["test"] ["shell"] ["push"] [] ["src/"] 1000 1000 None
    "ask" [] None None None.
Definition demo_policy (gate : option manual_verification_gate) : verification_policy :=
  VerificationPolicy [CheckTest "cargo" ["test"] 1000] gate.
Definition demo_plan (gate : option manual_verification_gate) : task_graph_plan :=
  TaskGraphPlan "single" 1 0 1000 1000 []
    [PlannedTask "only" "the task" demo_contract 30 "codex" [] 0 2 (demo_policy gate)].
Definition demo_base : exec_db :=
  ExecDb
    (ExecBase {[1%N]} {[10%N := ActorRow 1 "owner" "human"; 11%N := ActorRow 1 "agent" "agent"]}
       {[20%N := (1%N, 0%Z)]} {[(20%N, 10%N)]} ∅ ∅ ∅)
    empty_core
    (ExecSide {[30%N := XAgent 1 11 "ada" "engineer" "codex" AgentStatus.Idle None None None None false]}
       ∅ [] [] ∅ [] ∅ ∅ ∅) [].

Definition demo_env (run : uuid) : exec_env :=
  ExecEnv 100 run (run + 1) (run + 2) 40 41 [50%N] [].
Definition demo_event (id : uuid) (run : uuid) (event_type : string) (payload : list (string * json)) :
    exec_env * exec_request :=
  (demo_env run, RunnerEvent (RunnerEventInput id "runner-a" 1 run 30 (run + 1) event_type (JObj payload))).
Definition demo_start (run : uuid) : exec_env * exec_request :=
  (demo_env run, StartAttempt 1 40 50 (Some 10%N) "runner-a").
Definition demo_verified (run : uuid) : list (exec_env * exec_request) :=
  [demo_event 200 run "run.started" []; demo_event 201 run "run.verification_started" [];
   demo_event 202 run "run.verification_evidence"
     [("check_index", JInt 0); ("evidence_id", JStr "70"); ("kind", JStr "test"); ("status", JStr "passed");
      ("summary", JStr "ok")];
   demo_event 203 run "run.verification_passed" []].
Definition demo_create (gate : option manual_verification_gate) : exec_env * exec_request :=
  (demo_env 60, CreateMission 1 10 "title" "description" (demo_plan gate)).
Definition demo (steps : list (exec_env * exec_request)) : exec_db :=
  foldl (λ s '(env, request), handle env request s) demo_base steps.

Definition owner_gate : option manual_verification_gate := Some (HumanApproval ["owner"]).
Definition gate_json : json := JObj [("roles", JArr [JStr "owner"]); ("type", JStr "human_approval")].
Definition demo_waiting : list (exec_env * exec_request) :=
  [demo_create owner_gate; demo_start 60] ++ demo_verified 60 ++
  [demo_event 204 60 "run.verification_waiting" [("gate", gate_json); ("gate_type", JStr "human_approval")]].
Definition demo_approved : list (exec_env * exec_request) :=
  demo_waiting ++ [(demo_env 60, DecideVerification 1 60 10 true "fine" (Some 90%N))].

Lemma demo_reachable steps : reachable (demo steps).
Proof. by apply reachable_requests. Qed.
End demo.

(** ** The theorems *)
Section theorems.
Context `{Serde} `{ExecSerde}.

Lemma evidence_at checks : ∀ index rows i check, evidence_satisfies index checks rows = true →
  checks !! i = Some check → ∃ e, e ∈ rows ∧ ve_check_index e = (index + Z.of_nat i)%Z ∧
    ve_kind e = check_kind check ∧ ve_status e = "passed".
Proof.
  induction checks as [|c checks IH]; intros index rows i check Hs Hi; [done |].
  destruct rows as [|e rows]; [done |]. simpl in Hs. rewrite !andb_true_iff, Z.eqb_eq, !seqb_eq in Hs.
  destruct Hs as [[[He Hk] Hp] Hs]. destruct i as [|i]; simpl in Hi.
  - injection Hi as ->. exists e. split; [left |]. split; [lia | done].
  - destruct (IH _ _ i check Hs Hi) as (e' & Hin & Hx & ?). exists e'. split; [by right |]. split; [lia | done].
Qed.

(** C1: a completed mission rests on verified work: in every reachable state each
    task of a completed mission is completed and passed, and has a completed and
    passed run with one passing evidence row of the right kind for every check of
    the task's policy and, if the policy has a manual gate, an approved request
    of exactly that gate. *)
Theorem completed_missions_are_verified s id m tid t : reachable s →
  mission_of s id = Some m → mi_status m = MissionStatus.Completed →
  task_of s tid = Some t → ta_mission t = id →
  ta_status t = TaskStatus.Completed ∧ ta_verification_status t = "passed" ∧
  ∃ rid r, run_of s rid = Some r ∧ rb_task (rn_binding r) = tid ∧ rn_status r = RunStatus.Completed ∧
    rn_verification_status r = "passed" ∧
    (∀ i check, vp_checks (ta_policy t) !! i = Some check →
       ∃ e, e ∈ co_evidence (x_core s) ∧ ve_run e = rid ∧ ve_check_index e = Z.of_nat i ∧
         ve_kind e = check_kind check ∧ ve_status e = "passed") ∧
    (∀ gate, vp_manual_gate (ta_policy t) = Some gate →
       ∃ q, co_requests (x_core s) !! rid = Some q ∧ rq_status q = "approved" ∧ rq_gate q = gate).
Proof.
  intros Hs Hm Hc Ht Htm. pose proof (reachable_inv s Hs) as Hinv.
  pose proof (ci_mission _ Hinv _ _ _ _ Hm Hc Ht Htm) as Hdone.
  destruct (ci_completed _ Hinv _ _ Ht Hdone) as (Hp & (rid & r & Hr & Htask & Hrs & Hv & He & Hg) & _).
  split; [done |]. split; [done |]. exists rid, r. do 4 (split; [done |]). split; [| exact Hg].
  intros i check Hi. destruct (evidence_at _ _ _ _ _ He Hi) as (e & [Hin Hrun]%run_evidence_elem & ? & ? & ?).
  by exists e.
Qed.

(** C7: work is exclusive: in every reachable state no task and no agent has two
    active runs. *)
Theorem active_runs_are_exclusive s id1 id2 r1 r2 : reachable s →
  run_of s id1 = Some r1 → run_of s id2 = Some r2 →
  run_active (rn_status r1) = true → run_active (rn_status r2) = true →
  rb_task (rn_binding r1) = rb_task (rn_binding r2) ∨ rb_agent (rn_binding r1) = rb_agent (rn_binding r2) →
  id1 = id2.
Proof.
  intros Hs H1 H2 A1 A2 Hsame. pose proof (reachable_inv s Hs) as Hinv. destruct Hsame.
  - by apply (ci_one_per_task _ Hinv id1 id2 r1 r2).
  - by apply (ci_one_per_agent _ Hinv id1 id2 r1 r2).
Qed.

(** C8: what has ended stays ended: a run that is completed, failed, cancelled or
    lost keeps its assignment, its status and its verdict through everything that
    happens later. *)
Theorem ended_runs_stay s s' id r : reachable s → rtc exec_step s s' →
  run_of s id = Some r → run_active (rn_status r) = false →
  ∃ r', run_of s' id = Some r' ∧ rn_binding r' = rn_binding r ∧ rn_status r' = rn_status r ∧
    rn_verification_status r' = rn_verification_status r.
Proof.
  intros Hs Hss Hr Ha. destruct (exec_steps_steps s s' (reachable_inv s Hs) Hss) as [_ Hc].
  apply (core_steps_frozen (x_core s)); [done | done |]. unfold is_active. by rewrite Ha.
Qed.

(** Attempts are bounded: in every reachable state a task has used between zero
    and its maximum of attempts, and once they are used up nothing starts another. *)
Theorem attempts_are_bounded s tid t : reachable s → task_of s tid = Some t →
  (0 ≤ ta_attempt_count t ≤ ta_max_attempts t)%Z ∧
  (ta_attempt_count t = ta_max_attempts t →
   ∀ env corp mission by_ runner, handle env (StartAttempt corp mission tid by_ runner) s = s).
Proof.
  intros Hs Ht. split; [by apply (ci_attempts _ (reachable_inv s Hs) tid) |].
  intros Hmax env corp mission by_ runner. unfold handle, run_txn.
  destruct (handler _ _ s) as [[u s']|] eqn:E; [exfalso | done].
  simpl in E. apply forget_ok in E as [out Hx]. apply start_attempts_left in Hx as (t' & Ht' & Hlt).
  rewrite Ht in Ht'. injection Ht' as <-. lia.
Qed.

(** C10: every handler of execution, whatever its request, refines the abstract
    transition: it moves the core tables by steps of [core_step], or not at all
    when it fails, and so keeps their invariant. *)
Theorem handlers_refine_core env request s : core_inv (x_core s) →
  rtc core_step (x_core s) (x_core (handle env request s)) ∧ core_inv (x_core (handle env request s)).
Proof.
  intros Hinv. assert (rtc core_step (x_core s) (x_core (handle env request s))) as Hs.
  { apply exec_step_steps; [done |]. constructor. }
  split; [done | by eapply core_steps_inv].
Qed.
End theorems.

(** ** The circuit breaker is one of the other components *)
Section breaker_world.
Context `{Serde}.

(** What an evaluation writes back: the status and the stage of runs, the status of tasks. *)
Definition write_breaker (b : breaker_db) (c : exec_core) : exec_core :=
  ExecCore (co_missions c)
    (map_imap (λ id t, Some (from_option (λ bt, set_ta_status (bt_status bt) t) t (b_tasks b !! id))) (co_tasks c))
    (co_dependencies c)
    (map_imap (λ id r, Some (from_option (λ br,
       XRun (rn_binding r) (br_status br) (rn_verification_status r) (rn_verification_summary r)
         (rn_summary r) (rn_verification_sha256 r) (rn_deliverable_sha256 r) (br_breaker_stage br)
         (rn_session r) (rn_connection r) (rn_artifact r) (rn_usage r) (rn_workspace r)) r
       (b_runs b !! id))) (co_runs c))
    (co_evidence c) (co_requests c).

(** What an evaluation does to the runs and tasks it sees. *)
Definition b_run_drifts (r r' : b_run) : Prop := br_status r' = br_status r ∨
  br_status r = RunStatus.Running ∧ br_status r' = RunStatus.WaitingForInput.
Definition b_task_drifts (t t' : b_task) : Prop := bt_status t' = bt_status t ∨
  bt_status t = TaskStatus.Running ∧ bt_status t' = TaskStatus.Blocked.

Lemma alter_Forall2 {A} (R : A → A → Prop) f (m : gmap uuid A) i :
  (∀ x, R x x) → (∀ x, R x (f x)) → ∀ id, option_Forall2 R (m !! id) (alter f i m !! id).
Proof.
  intros Hr Hf id. destruct (decide (id = i)) as [-> | Hn];
    rewrite ?lookup_alter_eq, ?lookup_alter_ne by done; destruct (m !! _); constructor; auto.
Qed.

Lemma drifts_refl (b : breaker_db) :
  (∀ id, option_Forall2 b_run_drifts (b_runs b !! id) (b_runs b !! id)) ∧
  (∀ id, option_Forall2 b_task_drifts (b_tasks b !! id) (b_tasks b !! id)).
Proof. split; intros id; destruct (_ !! id); constructor; by left. Qed.

Lemma apply_stage_drifts stage run task b :
  (∀ id, option_Forall2 b_run_drifts (b_runs b !! id) (b_runs (apply_stage stage run task b) !! id)) ∧
  (∀ id, option_Forall2 b_task_drifts (b_tasks b !! id) (b_tasks (apply_stage stage run task b) !! id)).
Proof.
  unfold apply_stage. destruct (seqb stage "suspend"); simpl; (split; [|try apply (drifts_refl b)]).
  - rewrite <-alter_twice. apply alter_Forall2; intros r; [by left |].
    simpl. case_bool_decide; [right | left]; done.
  - apply alter_Forall2; intros t; [by left |]. case_bool_decide; [right | left]; done.
  - apply alter_Forall2; intros r; by left.
Qed.

Lemma evaluation_drifts env corp run b out b' : evaluate_circuit_breaker env corp run b = Ok (out, b') →
  (∀ id, option_Forall2 b_run_drifts (b_runs b !! id) (b_runs b' !! id)) ∧
  (∀ id, option_Forall2 b_task_drifts (b_tasks b !! id) (b_tasks b' !! id)).
Proof.
  unfold evaluate_circuit_breaker. intros Hx. txn_inv.
  destruct (active_breaker_row _ _ _) as [[[r mission_id] mission]|]; txn_inv; [| apply drifts_refl].
  match type of Hx with context [strongest_breaker_stage ?i] =>
    destruct (strongest_breaker_stage i) as [[[[stage reason] used] limit]|] end; txn_inv;
    [| apply drifts_refl].
  match type of Hx with (if ?b then _ else _) _ = _ => destruct b end; txn_inv; [apply drifts_refl |].
  unfold transition_stage in Hx. txn_inv.
  match goal with H : insert_incident_tx _ _ = _ |- _ => apply insert_incident_ok in H as -> end.
  match goal with H : insert_command_tx _ _ = _ |- _ => apply insert_command_ok in H as -> end.
  match goal with H : append_event_tx _ _ = _ |- _ => unfold append_event_tx in H; rename H into Hev end.
  destruct (existsb _ _); injection Hev as <- <-; apply apply_stage_drifts.
Qed.

(** The circuit breaker respects execution: an evaluation on the runs and tasks
    of the execution tables, written back to them, is a step of another component
    in the sense of [world_moves], so no theorem of execution depends on it. *)
Theorem breaker_respects_execution env corp run c b out b' :
  b_runs b = breaker_run <$> co_runs c →
  b_tasks b = (λ t, BTask (ta_mission t) (ta_status t)) <$> co_tasks c →
  evaluate_circuit_breaker env corp run b = Ok (out, b') → world_moves c (write_breaker b' c).
Proof.
  intros Hr Ht Hx. destruct (evaluation_drifts _ _ _ _ _ _ Hx) as [Hrd Htd]. rewrite Hr in Hrd. rewrite Ht in Htd.
  split; simpl; try done; intros id.
  - specialize (Hrd id). rewrite lookup_fmap in Hrd. rewrite map_lookup_imap.
    destruct (co_runs c !! id) as [r|]; simpl in *; [| constructor].
    inversion Hrd as [? br Hd E1 E2 |]; subst. constructor. by split_and!.
  - specialize (Htd id). rewrite lookup_fmap in Htd. rewrite map_lookup_imap.
    destruct (co_tasks c !! id) as [t|]; simpl in *; [| constructor].
    inversion Htd as [? bt Hd E1 E2 |]; subst. constructor. by split_and!.
Qed.
End breaker_world.

(** *** Witnesses *)
Section witnesses.
#[local] Existing Instance sample_serde.
#[local] Existing Instance sample_exec_serde.

Lemma completed_missions_are_verified_witness : ∃ m t,
  mission_of (demo demo_approved) 40 = Some m ∧ mi_status m = MissionStatus.Completed ∧
  task_of (demo demo_approved) 50 = Some t ∧ ta_status t = TaskStatus.Completed ∧
  ∃ rid r, run_of (demo demo_approved) rid = Some r ∧ rn_status r = RunStatus.Completed.
Proof.
  do 2 eexists. split; [vm_compute; reflexivity |]. split; [reflexivity |].
  split; [vm_compute; reflexivity |]. split; [reflexivity |].
  destruct (completed_missions_are_verified (demo demo_approved) 40 _ 50 _ (demo_reachable _)
    ltac:(vm_compute; reflexivity) eq_refl ltac:(vm_compute; reflexivity) eq_refl)
    as (_ & _ & rid & r & Hr & _ & Hs & _). exists rid, r. split; [exact Hr | exact Hs].
Defined.

Lemma active_runs_are_exclusive_witness : ∃ r, run_of (demo [demo_create None; demo_start 60]) 60 = Some r ∧
  run_active (rn_status r) = true ∧ 60%N = 60%N.
Proof.
  eexists. split; [vm_compute; reflexivity |]. split; [reflexivity |].
  apply (active_runs_are_exclusive (demo [demo_create None; demo_start 60]) 60 60 _ _ (demo_reachable _)
    ltac:(vm_compute; reflexivity) ltac:(vm_compute; reflexivity)); [reflexivity | reflexivity | left; reflexivity].
Defined.

Lemma ended_runs_stay_witness : ∃ r', run_of (handle (demo_env 61) (demo_start 61).2 (demo demo_approved)) 60 = Some r' ∧
  rn_status r' = RunStatus.Completed.
Proof.
  destruct (ended_runs_stay (demo demo_approved) (handle (demo_env 61) (demo_start 61).2 (demo demo_approved)) 60 _
    (demo_reachable _) (rtc_once _ _ (step_request _ _ _)) ltac:(vm_compute; reflexivity) eq_refl)
    as (r' & Hr & _ & Hs & _). exists r'. split; [exact Hr | exact Hs].
Defined.

Lemma attempts_are_bounded_witness : ∃ t, task_of (demo demo_approved) 50 = Some t ∧
  (0 ≤ ta_attempt_count t ≤ ta_max_attempts t)%Z.
Proof.
  eexists. split; [vm_compute; reflexivity |].
  apply (attempts_are_bounded (demo demo_approved) 50 _ (demo_reachable _)). vm_compute. reflexivity.
Defined.

Lemma handlers_refine_core_witness :
  rtc core_step (x_core demo_base) (x_core (handle (demo_env 60) (demo_create None).2 demo_base)).
Proof. apply (handlers_refine_core (demo_env 60) (demo_create None).2 demo_base). exact empty_inv. Defined.

(** A run that has used twice its tokens is stopped. *)
Definition demo_spent : exec_db :=
  demo ([demo_create None; demo_start 60; demo_event 200 60 "run.started" [];
         demo_event 201 60 "run.usage" [("input_tokens", JInt 2000)]]).
Lemma breaker_respects_execution_witness : ∃ out b',
  evaluate_circuit_breaker (sample_breaker_env 70) 1 60 (breaker_view demo_spent) = Ok (out, b') ∧
  (br_breaker_stage <$> b_runs b' !! 60%N) = Some "stop" ∧
  world_moves (x_core demo_spent) (write_breaker b' (x_core demo_spent)).
Proof.
  do 2 eexists. split; [vm_compute; reflexivity |]. split; [vm_compute; reflexivity |].
  eapply (breaker_respects_execution (sample_breaker_env 70) 1 60 (x_core demo_spent) (breaker_view demo_spent) _ _ eq_refl eq_refl).
  vm_compute. reflexivity.
Defined.
End witnesses.
