(* ===== verification/ExecGuards.v ===== *)
(** * What execution admits, and what it tells the Factory

    An event is applied once and only for the assignment it names
    ([runner_events_apply_once], [foreign_events_change_nothing]); a manual gate
    is decided by the humans it names; a task is scheduled exactly when it can be
    launched; an item is verified only by its verified mission.  [respects] is the
    frame rule behind the first and the last: what every part of a transaction
    does to a relation between databases. *)
From S2P Require Import Prelude Text Json Domain Planning Deliverable FactoryPolicy Store FactoryItems Breaker ExecTables Checkpoint RunFailure RunEvents Dispatch Decisions ExecSpec EventSteps AttemptSteps Execution.
Import ItemState (item_state_as_str).

(** ** A frame rule for relations *)
Definition respects (R : exec_db → exec_db → Prop) {A} (t : txn exec_db A) : Prop :=
  txn_within R t.

(** A relation that looks at the event log, the Factory items and their operations only. *)
Class Frame (R : exec_db → exec_db → Prop) : Prop := {
  #[global] frame_preorder :: PreOrder R;
  frame_same s s' : x_log s' = x_log s → si_items (x_side s') = si_items (x_side s) →
    si_operations (x_side s') = si_operations (x_side s) → R s s';
  frame_append s e : R s (ExecDb (x_base s) (x_core s) (x_side s) (x_log s ++ [e]));
}.
(** .. and does not see how an item moves to [state]. *)
Definition moves_within (R : exec_db → exec_db → Prop) (state : factory_work_item_state) : Prop :=
  ∀ s id item token version failure, si_items (x_side s) !! id = Some (item, token) →
  R s (on_items <[id := (move_item state version failure item, token)]> s).

(** Reading needs a preorder only; equality is one. *)
Section reading.
Context (R : exec_db → exec_db → Prop) `{!PreOrder R}.

Lemma respects_bind {A B} (m : txn exec_db A) (f : A → txn exec_db B) :
  respects R m → (∀ a, respects R (f a)) → respects R (m ≫= f).
Proof. by apply within_bind. Qed.
Lemma respects_same {A} (t : txn exec_db A) : (∀ s a s', t s = Ok (a, s') → s' = s) → respects R t.
Proof. by apply within_same. Qed.
Lemma respects_ret {A} (a : A) : respects R (mret a).
Proof. by apply within_ret. Qed.
Lemma respects_lift {A} (r : result A) : respects R (lift r).
Proof. by apply within_lift. Qed.
Lemma respects_gets {A} (f : exec_db → A) : respects R (gets f).
Proof. by apply within_gets. Qed.
Lemma respects_read_db {A} (f : exec_db → result A) : respects R (read_db f).
Proof. apply respects_same. intros s b s' Hr. by apply lift_ok in Hr as [_ ->]. Qed.
Lemma respects_read_directory {A} (f : directory → result A) : respects R (read_directory f).
Proof. by apply within_read_directory. Qed.
Lemma respects_fetch {A} (f : exec_db → option A) message : respects R (fetch_one f message).
Proof. apply respects_bind; [apply respects_gets |]. intros o. apply respects_lift. Qed.
Lemma respects_require p : respects R (require_new p).
Proof. apply respects_bind; [apply respects_gets |]. intros o. apply respects_lift. Qed.
End reading.

Section frame.
Context (R : exec_db → exec_db → Prop) `{!Frame R}.

Lemma respects_modify (f : exec_db → exec_db) :
  (∀ s, x_log (f s) = x_log s ∧ si_items (x_side (f s)) = si_items (x_side s) ∧
        si_operations (x_side (f s)) = si_operations (x_side s)) → respects R (modify f).
Proof. intros Hf s a s' Hr. apply modify_ok in Hr as ->. apply frame_same; apply Hf. Qed.
Lemma respects_append event : respects R (append_event_tx event).
Proof.
  intros s a s'. unfold append_event_tx. case_match; intros [= <- <-]; [by apply frame_same |].
  apply frame_append.
Qed.
Lemma respects_append_new event message : respects R (append_new_event event message).
Proof. apply respects_bind; [apply _ | apply respects_append |]. intros o. apply respects_lift, _. Qed.
Lemma respects_move_item id p state failure : moves_within R state →
  respects R (move_item_tx id p state failure).
Proof.
  intros Hs s a s'. unfold move_item_tx, fetch_one. intros Hx. txn_inv. ok_facts.
  match goal with H : _ = Some ?row |- _ => apply bind_Some in H as ([item token] & Hrow & Hc) end.
  case_match; [| done]. injection Hc as <-. by apply Hs.
Qed.
End frame.

Create HintDb frame discriminated.
#[export] Hint Constants Opaque : frame.
#[export] Hint Extern 1 (PreOrder _) => apply _ : frame.
#[export] Hint Extern 1 (Frame _) => apply _ : frame.
#[export] Hint Resolve respects_ret respects_lift respects_gets respects_read_db respects_read_directory
  respects_fetch respects_require respects_append respects_append_new : frame.
Ltac respect :=
  repeat first
    [ progress intros
    | solve [eauto with frame]
    | apply respects_bind; try apply _
    | apply respects_modify; first [apply _ | intros; split_and!; reflexivity]
    | case_match ].

(** ** Everything but the end of a completion keeps such a relation *)
Section handlers.
Context `{Serde} `{ExecSerde}.
Context (R : exec_db → exec_db → Prop) `{!Frame R}.
Context (Hmove : ∀ state, state ≠ ItemState.Verified → moves_within R state).

Lemma respects_move id p state failure : state ≠ ItemState.Verified → respects R (move_item_tx id p state failure).
Proof using All. intros Hs. by apply respects_move_item, Hmove. Qed.
#[local] Hint Extern 1 (respects R (move_item_tx _ _ _ _)) => apply respects_move; discriminate : frame.

Lemma respects_verification_failure corp m room run actor detail cause :
  respects R (reconcile_factory_verification_failure_tx corp m room run actor detail cause).
Proof using All. unfold reconcile_factory_verification_failure_tx. respect. Qed.
Lemma respects_reconcile scope corp room task run reason : respects R (reconcile_tx scope corp room task run reason).
Proof using All. unfold reconcile_tx. respect. Qed.
Lemma respects_resume scope corp room src status run actor : respects R (resume_tx scope corp room src status run actor).
Proof using All. unfold resume_tx. respect. Qed.
Lemma respects_awaiting corp m room run : respects R (reconcile_factory_awaiting_approval_tx corp m room run).
Proof using All. unfold reconcile_factory_awaiting_approval_tx. respect. Qed.
#[local] Hint Resolve respects_verification_failure respects_reconcile respects_resume respects_awaiting : frame.
Lemma respects_terminalize corp recovery run task m room summary status cause :
  respects R (terminalize_factory_recovery_run_tx corp recovery run task m room summary status cause).
Proof using All. unfold terminalize_factory_recovery_run_tx. respect. Qed.
#[local] Hint Resolve respects_terminalize : frame.

Lemma release_failed_frame corp agent run s :
  x_log (release_failed_run_agent corp agent run s) = x_log s ∧
  si_items (x_side (release_failed_run_agent corp agent run s)) = si_items (x_side s) ∧
  si_operations (x_side (release_failed_run_agent corp agent run s)) = si_operations (x_side s).
Proof. unfold release_failed_run_agent. repeat case_match; done. Qed.
#[local] Hint Extern 1 (respects R (modify (release_failed_run_agent _ _ _))) =>
  apply respects_modify; [apply _ | apply release_failed_frame] : frame.

Lemma respects_update_usage row f : respects R (update_usage row f).
Proof using All. unfold update_usage. respect. Qed.
Lemma respects_digests row payload : respects R (passed_digests row payload).
Proof using All. unfold passed_digests. respect. Qed.
#[local] Hint Resolve respects_update_usage respects_digests : frame.
Lemma respects_workspace env row event_type payload : respects R (on_workspace env row event_type payload).
Proof using All. unfold on_workspace. respect. Qed.
Lemma respects_failed row scope payload : respects R (on_failed row scope payload).
Proof using All. unfold on_failed. respect. Qed.
Lemma respects_cancelled row payload : respects R (on_cancelled row payload).
Proof using All. unfold on_cancelled. respect. Qed.
Lemma respects_status row payload : respects R (on_status row payload).
Proof using All. unfold on_status. respect. Qed.
Lemma respects_approval_requested env row payload : respects R (on_approval_requested env row payload).
Proof using All. unfold on_approval_requested. respect. Qed.
Lemma respects_evidence env row payload : respects R (on_verification_evidence env row payload).
Proof using All. unfold on_verification_evidence. respect. Qed.
Lemma respects_passed row payload : respects R (on_verification_passed row payload).
Proof using All. unfold on_verification_passed. respect. Qed.
Lemma respects_waiting row payload : respects R (on_verification_waiting row payload).
Proof using All. unfold on_verification_waiting. respect. Qed.
Lemma respects_failed_verification row payload : respects R (on_verification_failed row payload).
Proof using All. unfold on_verification_failed. respect. Qed.
#[local] Hint Resolve respects_workspace respects_failed respects_cancelled respects_status
  respects_approval_requested respects_evidence respects_passed respects_waiting
  respects_failed_verification : frame.

(** A completion is the one event that may do more. *)
Lemma respects_dispatch env row scope event_type payload :
  (event_type = "run.completed" → respects R (on_completed row payload)) →
  respects R (dispatch_event env row scope event_type payload).
Proof using All.
  intros Hc. unfold dispatch_event, on_session, on_started, on_tool_activity, on_usage,
    on_verification_started, on_teardown_uncertain.
  destruct (seqb event_type "run.completed") eqn:E; [apply seqb_eq in E; specialize (Hc E) | clear Hc]; respect.
Qed.

Lemma respects_check_event env input row scope : respects R (check_event env input row scope).
Proof using All. unfold check_event, validate_termination_tx, validate_scope. respect. Qed.
#[local] Hint Resolve respects_check_event : frame.
Lemma respects_admit input : respects R (admit_row input).
Proof using All. unfold admit_row. respect. Qed.
#[local] Hint Resolve respects_admit : frame.
(** .. and neither is the log of events, where an item may be verified too. *)
Lemma respects_finish (Hverified : moves_within R ItemState.Verified) corp mission room run actor :
  respects R (finish_mission_step corp mission room run actor).
Proof using All.
  assert (∀ id p failure, respects R (move_item_tx id p ItemState.Verified failure)) as Hm.
  { intros. by apply respects_move_item. }
  unfold finish_mission_step, reconcile_factory_verified_tx, ensure_mission_verified. respect.
Qed.
Lemma respects_completed (Hverified : moves_within R ItemState.Verified) row payload :
  respects R (on_completed row payload).
Proof using All.
  pose proof (respects_finish Hverified). unfold on_completed. respect.
Qed.
Lemma respects_runner_event env input :
  (∀ row payload, respects R (on_completed row payload)) → respects R (apply_runner_event env input).
Proof using All.
  intros Hc. pose proof respects_dispatch. unfold apply_runner_event, read_scope. respect.
Qed.

(** *** The other handlers *)
Lemma other_insert_command c : respects R (insert_command c).
Proof using All. unfold insert_command. respect. Qed.
Lemma other_membership corp room actor : respects R (assert_room_membership_tx corp room actor).
Proof using Frame0. unfold assert_room_membership_tx. respect. Qed.
Lemma other_operator corp actor : respects R (assert_mission_operator_tx corp actor).
Proof using Frame0. unfold assert_mission_operator_tx. respect. Qed.
Lemma other_actor_role corp room actor : respects R (actor_role_tx corp room actor).
Proof using Frame0. unfold actor_role_tx. respect. Qed.
Lemma other_scope corp run : respects R (read_scope corp run).
Proof using All. unfold read_scope. respect. Qed.
Lemma other_validate scope corp m : respects R (validate_scope scope corp m).
Proof using All. unfold validate_scope. respect. Qed.
Lemma other_reserve corp agent run : respects R (reserve_queued_messages_tx corp agent run).
Proof using All. unfold reserve_queued_messages_tx. respect. Qed.
Lemma other_bind_run corp run : respects R (bind_new_run_tx corp run).
Proof using All. unfold bind_new_run_tx. respect. Qed.
Lemma other_insert_run id r : respects R (insert_run_tx id r).
Proof using All. unfold insert_run_tx. respect. Qed.
#[local] Hint Resolve other_insert_command other_membership other_operator other_actor_role other_scope
  other_validate other_reserve other_bind_run other_insert_run : frame.
Lemma other_each {A B} (f : A → txn exec_db B) xs : (∀ x, respects R (f x)) →
  respects R (each f xs).
Proof using Frame0. intros Hf. induction xs; simpl; respect. Qed.
#[local] Hint Resolve other_each : frame.
Lemma other_plan_room corp actor tasks : ∀ room, respects R (plan_room_loop corp actor room tasks).
Proof using Frame0. induction tasks; intros room; simpl; respect. Qed.
Lemma other_staff_all corp mission room requester agents : ∀ actors,
  respects R (staff_all corp mission room requester actors agents).
Proof using Frame0. induction agents; intros [|]; simpl; unfold staff_one; respect. Qed.
#[local] Hint Resolve other_plan_room other_staff_all : frame.
Lemma other_create_task env corp mission room requester ids task :
  respects R (create_task env corp mission room requester ids task).
Proof using Frame0. unfold create_task. respect. Qed.
Lemma other_create_dependencies ids task : respects R (create_dependencies ids task).
Proof using Frame0.
  unfold create_dependencies. assert (∀ id d, respects R (create_dependency ids id d)) as Hd.
  { intros. unfold create_dependency. respect. }
  respect.
Qed.
#[local] Hint Resolve other_create_task other_create_dependencies : frame.
Lemma respects_create_mission env corp requester title description plan :
  respects R (create_mission_tx env corp requester title description plan).
Proof using Frame0.
  unfold create_mission_tx, mission_creation_admission_tx, plan_room_tx, persist_staffing_tx. respect.
Qed.
#[local] Hint Resolve respects_create_mission : frame.
Lemma other_expire env id : respects R (expire_action_approval env id).
Proof using All. unfold expire_action_approval, expire_row. respect. Qed.
#[local] Hint Resolve other_expire : frame.
Lemma other_lose env runner reason row : respects R (lose_run env runner reason row).
Proof using All. unfold lose_run. respect. Qed.
#[local] Hint Resolve other_lose : frame.

(** The requests that never complete work. *)
Lemma respects_other_handler env request :
  match request with RunnerEvent _ | DecideVerification _ _ _ _ _ _ => False | _ => True end →
  respects R (handler env request).
Proof using All.
  destruct request; simpl; unfold forget; intros Hr; try done.
  - respect.
  - unfold create_task_run, check_launch. respect.
  - unfold create_resume_run, check_resume. respect.
  - unfold fail_run_before_dispatch, fail_dispatched_run, block_dispatched_item. respect.
  - unfold mark_runner_runs_lost_tx. respect.
  - unfold decide_action_approval, record_approval. respect.
  - respect.
Qed.
Lemma respects_reject corp run_id actor row note : respects R (reject_run corp run_id actor row note).
Proof using All. unfold reject_run. respect. Qed.

End handlers.

(** Every handler keeps a relation that sees no move of an item. *)
Lemma respects_handler `{Serde} `{ExecSerde} R `{!Frame R} (Hm : ∀ state, moves_within R state) env request :
  respects R (handler env request).
Proof.
  destruct request as [| | | | | input | corp run_id actor approved note key | |];
    try (apply respects_other_handler; [apply _ | auto | done]); simpl; unfold forget.
  - pose proof (respects_runner_event R (λ st _, Hm st) env input (respects_completed R (λ st _, Hm st) (Hm _))).
    respect.
  - pose proof (λ corp run actor row note, respects_reject R (λ st _, Hm st) corp run actor row note).
    pose proof (λ corp m room run actor, respects_finish R (λ st _, Hm st) (Hm _) corp m room run actor).
    pose proof (other_membership R).
    pose proof (other_scope R (λ st _, Hm st)).
    pose proof (other_validate R (λ st _, Hm st)).
    unfold decide_verification, check_decidable, approve_run. respect.
Qed.

(** ** The event log only grows *)
Definition log_grows (s s' : exec_db) : Prop := ∃ l, x_log s' = x_log s ++ l.
#[global] Instance log_grows_frame : Frame log_grows.
Proof.
  split.
  - split; [intros s; exists []; by rewrite app_nil_r |].
    intros s1 s2 s3 [l1 H1] [l2 H2]. exists (l1 ++ l2). by rewrite H2, H1, app_assoc.
  - intros s s' Hl _ _. exists []. by rewrite Hl, app_nil_r.
  - intros s e. by exists [e].
Qed.
Lemma log_moves state : moves_within log_grows state.
Proof. intros s id item token version failure _. exists []. by rewrite app_nil_r. Qed.

(** ** Reading leaves the database as it is *)
Section reads.
Context `{Serde} `{ExecSerde}.
Lemma reads_scope corp run : respects eq (read_scope corp run).
Proof. unfold read_scope. respect. Qed.
Lemma reads_admit input : respects eq (admit_row input).
Proof. unfold admit_row. respect. Qed.
Lemma reads_check env input row scope : respects eq (check_event env input row scope).
Proof. unfold check_event, validate_termination_tx, validate_scope. respect. Qed.

Lemma reads_membership corp room actor : respects eq (assert_room_membership_tx corp room actor).
Proof. unfold assert_room_membership_tx. respect. Qed.
Lemma reads_operator corp actor : respects eq (assert_mission_operator_tx corp actor).
Proof. unfold assert_mission_operator_tx. respect. Qed.
Lemma reads_validate scope corp m : respects eq (validate_scope scope corp m).
Proof. unfold validate_scope. respect. Qed.
End reads.
#[export] Hint Resolve reads_scope reads_admit reads_check reads_membership reads_operator
  reads_validate : frame.

(** Transactions that only read are the identity. *)
Ltac read_all :=
  repeat match goal with
  | H : ?t ?s = Ok (_, ?s') |- _ =>
      let F := fresh "F" in assert (respects eq t) as F by (solve [respect]); apply F in H; clear F; subst
  end.

Section once.
Context `{Serde} `{ExecSerde}.

Lemma runner_event_grows env input : respects log_grows (apply_runner_event env input).
Proof.
  apply respects_runner_event; [apply _ | auto using log_moves |]. intros row payload.
  apply respects_completed; auto using log_moves. apply _.
Qed.

Lemma dispatch_grows env row scope event_type payload :
  respects log_grows (dispatch_event env row scope event_type payload).
Proof.
  apply respects_dispatch; [apply _ | auto using log_moves |].
  intros _. apply respects_completed; auto using log_moves. apply _.
Qed.

(** What an accepted event appended, or found in the log. *)
Definition event_key_of (input : runner_event_input) : new_event :=
  new_event_of (re_corp_id input) None (re_event_type input) "run" (re_run_id input)
    ("runner:" +:+ re_runner_id input +:+ ":event:" +:+ uuid_to_string (re_event_id input)) JNull.

Lemma runner_event_key input row payload : same_event_key (runner_event input row payload) = same_event_key (event_key_of input).
Proof. done. Qed.

Lemma runner_event_shape env input s out s' : apply_runner_event env input s = Ok (out, s') →
  (existsb (same_event_key (event_key_of input)) (x_log s) = true ∧ out = RunnerEventOutcome None [] ∧ s' = s) ∨
  (existsb (same_event_key (event_key_of input)) (x_log s) = false ∧
   existsb (same_event_key (event_key_of input)) (x_log s') = true).
Proof.
  intros Hx. unfold apply_runner_event in Hx. txn_inv.
  read_all. match goal with H : append_event_tx _ _ = _ |- _ => unfold append_event_tx in H; rename H into He end.
  simpl in He. rewrite runner_event_key in He.
  destruct (existsb _ (x_log _)) eqn:E; injection He as <- <-; txn_inv; [by left | right].
  split; [done |].
  match goal with H : dispatch_event _ _ _ _ _ _ = Ok (_, ?s') |- _ => apply dispatch_grows in H as [l Hl] end.
  rewrite Hl. simpl. rewrite !existsb_app, orb_true_iff. left. rewrite orb_true_iff. right. simpl.
  rewrite orb_false_r. by apply same_event_key_iff.
Qed.

Lemma handler_grows env request : respects log_grows (handler env request).
Proof. apply respects_handler; [apply _ | apply log_moves]. Qed.

Lemma handle_grows env request s : log_grows s (handle env request s).
Proof.
  unfold handle, run_txn. destruct (handler env request s) as [[u s']|] eqn:E; simpl.
  - by eapply handler_grows.
  - exists []. by rewrite app_nil_r.
Qed.
End once.

(** ** Events *)
Section events.
Context `{Serde} `{ExecSerde}.

Definition handle_all (s : exec_db) (steps : list (exec_env * exec_request)) : exec_db :=
  foldl (λ s '(env, request), handle env request s) s steps.

Lemma handle_all_grows steps : ∀ s, log_grows s (handle_all s steps).
Proof.
  induction steps as [|[env request] steps IH]; intros s; [reflexivity |].
  etrans; [apply handle_grows | apply IH].
Qed.

Lemma handle_event env input s : handle env (RunnerEvent input) s =
  match apply_runner_event env input s with Ok (_, s') => s' | Err _ => s end.
Proof.
  unfold handle, run_txn. simpl. unfold forget, mbind, txn_bind.
  by destruct (apply_runner_event env input s) as [[out s']|].
Qed.

(** C9: a runner event is applied once: after an event was accepted, and whatever
    requests were handled since, a delivery with the same corp, runner and event
    id, whatever it carries, changes nothing. *)
Theorem runner_events_apply_once env env' input input' s out s' steps :
  apply_runner_event env input s = Ok (out, s') →
  re_corp_id input' = re_corp_id input → re_runner_id input' = re_runner_id input →
  re_event_id input' = re_event_id input →
  handle env' (RunnerEvent input') (handle_all s' steps) = handle_all s' steps.
Proof.
  intros Hx Hc Hr Hi. rewrite handle_event.
  assert (same_event_key (event_key_of input') = same_event_key (event_key_of input)) as Hkey.
  { unfold event_key_of. by rewrite Hc, Hr, Hi. }
  destruct (handle_all_grows steps s') as [l Hl].
  destruct (apply_runner_event env' input' _) as [[out2 s2]|] eqn:Hx2; [| done].
  apply runner_event_shape in Hx2 as [(_ & _ & ->) | [Hn _]]; [done | exfalso].
  rewrite Hkey, Hl, existsb_app in Hn. apply orb_false_iff in Hn as [Hn _].
  apply runner_event_shape in Hx as [(Hk & _ & ->) | [_ Hk]]; congruence.
Qed.

(** An event moves only the run it was assigned to: an event that does not name
    the corp, agent, runner and assignment token of the run, or that comes after
    the end of the run and is not one of the workspace and session facts, fails
    and changes nothing. *)
Theorem foreign_events_change_nothing env input s :
  (∀ r, run_of s (re_run_id input) = Some r → let b := rn_binding r in
     rb_corp b ≠ re_corp_id input ∨ rb_agent b ≠ re_agent_id input ∨
     rb_runner b ≠ re_runner_id input ∨ rb_assignment_token b ≠ re_assignment_token input ∨
     (run_active (rn_status r) = false ∧ terminal_event (re_event_type input) = false)) →
  ∃ e, run_txn (apply_runner_event env input) s = (Err e, s).
Proof.
  intros Hf. unfold run_txn. destruct (apply_runner_event env input s) as [[out s']|e] eqn:Hx; [exfalso | eauto].
  unfold apply_runner_event in Hx. txn_inv.
  match goal with H : admit_row _ _ = _ |- _ =>
    pose proof H as Hrow; apply admit_row_ok in Hrow as (_ & Hrow & Hid & _ & _ & Hm & Hact) end.
  read_all. pose proof (no_run _ _ Hrow) as Hr. rewrite Hid in Hr.
  unfold event_matches in Hm. rewrite !andb_true_iff, !N.eqb_eq, seqb_eq in Hm.
  unfold is_active in Hact. destruct (Hf _ Hr) as [?|[?|[?|[?|[Hn Ht]]]]]; destruct Hm as [[[? ?] ?] ?];
    [congruence .. | destruct Hact; congruence].
Qed.

(** A stopped run makes no progress: while the breaker of a run stands at stop,
    or its workspace is quarantined, no event that advances a run is accepted for it. *)
Theorem halted_runs_make_no_progress env input s r : run_of s (re_run_id input) = Some r →
  (rw_disposition (rn_workspace r) = Some "quarantined" ∧
   runner_event_advances_run (re_event_type input) = true ∨
   breaker_blocks_runner_progress (rn_breaker_stage r) (re_event_type input) = true) →
  ∃ e, run_txn (apply_runner_event env input) s = (Err e, s).
Proof.
  intros Hr Hhalt. unfold run_txn.
  destruct (apply_runner_event env input s) as [[out s']|e] eqn:Hx; [exfalso | eauto].
  unfold apply_runner_event in Hx. txn_inv.
  match goal with H : admit_row _ _ = _ |- _ =>
    pose proof H as Hrow; apply admit_row_ok in Hrow as (_ & Hrow & Hid & _) end.
  match goal with H : check_event _ _ _ _ _ = _ |- _ => rename H into Hcheck end.
  pose proof (no_run _ _ Hrow) as Hr'. rewrite Hid in Hr'. unfold check_event in Hcheck. txn_inv. ok_facts.
  assert (er_run a1 = r) as Hrun.
  { clear Hx. unfold run_of in Hr. frame_all. congruence. }
  rewrite Hrun in *. destruct Hhalt as [[Hq Hadv] | Hb]; [| congruence].
  match goal with H : (if runner_event_advances_run _ then _ else _) _ = _ |- _ => rewrite Hadv in H end.
  txn_inv. ok_facts. congruence.
Qed.
End events.

(** ** Decisions *)
Section decisions.
Context `{Serde} `{ExecSerde}.

Lemma handle_forget {A} (t : txn exec_db A) s :
  (run_txn (forget t) s).2 = s ∨ ∃ a s', t s = Ok (a, s') ∧ (run_txn (forget t) s).2 = s'.
Proof.
  unfold run_txn, forget, mbind, txn_bind. destruct (t s) as [[a s']|] eqn:E; [right | by left]. by exists a, s'.
Qed.

Lemma actor_of_spec corp id s a : actor_of corp id s = Some a →
  ba_actors (x_base s) !! id = Some a ∧ actor_corp a = corp.
Proof.
  intros (a' & Ha & Hc)%bind_Some. destruct (N.eqb_spec (actor_corp a') corp); [| done]. naive_solver.
Qed.

(** C3: a manual gate is decided by the authority it names: when a decision changes
    anything, the request was pending, its run and its task were waiting, the
    mission was not over, the actor is a human of the corp with one of the roles of
    the gate and a member of the mission's room, and for an independent review is
    neither the producer of the work nor, if the gate says so, the requester. *)
Theorem gates_are_decided_by_authority env corp run_id actor_id approved note key s :
  handle env (DecideVerification corp run_id actor_id approved note key) s = s ∨
  ∃ q r t m producer actor,
    co_requests (x_core s) !! run_id = Some q ∧ rq_corp q = corp ∧ rq_status q = "pending" ∧
    run_of s run_id = Some r ∧ rn_status r = RunStatus.WaitingForApproval ∧
    task_of s (rq_task q) = Some t ∧ ta_status t = TaskStatus.AwaitingApproval ∧
    mission_of s (ta_mission t) = Some m ∧
    mi_status m ∉ [MissionStatus.Completed; MissionStatus.Failed; MissionStatus.Cancelled] ∧
    agent_of s (rb_agent (rn_binding r)) = Some producer ∧
    ba_actors (x_base s) !! actor_id = Some actor ∧ actor_corp actor = corp ∧
    actor_kind actor = "human" ∧ mem (actor_role actor) (gate_roles (rq_gate q)) = true ∧
    (mi_room m, actor_id) ∈ ba_memberships (x_base s) ∧
    ∀ roles exclude_requester, rq_gate q = IndependentReview roles exclude_requester →
      actor_id ≠ xa_actor producer ∧ (exclude_requester = true → actor_id ≠ mi_requested_by m).
Proof.
  unfold handle. simpl. destruct (handle_forget
    (decide_verification env corp run_id actor_id approved note key) s) as [-> | (out & s' & Hx & ->)]; [by left |].
  unfold decide_verification, fetch_one in Hx. txn_inv. ok_facts.
  match goal with H : assert_room_membership_tx _ _ _ _ = _ |- _ =>
    apply read_directory_ok in H as [Hroom <-] end. read_all.
  match goal with H : request_row_of _ _ _ = Some ?x |- _ => rename x into row; rename H into Hrow end.
  apply request_row_spec in Hrow as (Hq & Hr & Ht & Hm & Hmid & Hcorp & Hagent).
  match type of Hx with (if ?b then _ else _) _ = _ => destruct b end; [txn_inv; by left | right].
  unfold check_decidable in Hx. txn_inv. ok_facts.
  match goal with H : actor_of _ _ _ = Some ?a |- _ =>
    apply actor_of_spec in H as [Hactor Hac]; rename a into actor end.
  match goal with H : ensure_may_decide _ _ _ _ _ = _ |- _ => unfold ensure_may_decide in H; rename H into Hmay end.
  res_inv. ok_facts.
  unfold assert_room_membership in Hroom. apply bail_if_ok, negb_false_iff, andb_true_iff in Hroom as [Hroom _].
  apply bool_decide_eq_true in Hroom.
  exists (qr_request row), (qr_run row), (qr_task row), (qr_mission row), (qr_producer row), actor.
  repeat (split; [first [done | by rewrite <-Hmid] |]). split.
  { rewrite !elem_of_cons, elem_of_nil. intros [Hs | [Hs | [Hs | []]]]; rewrite Hs in *; done. }
  repeat (split; [done |]). intros roles exclude_requester Hg. rewrite Hg in Hmay. ok_facts.
  split; [by apply N.eqb_neq |]. intros ->. by apply N.eqb_neq.
Qed.

(** A rejection needs a one-line note: a note with a control character inside, a
    line break for example, makes the whole rejection fail, although the note is
    within its limit and whether or not a Factory item belongs to the mission. *)
Theorem multiline_rejections_fail env corp run_id actor_id note key s :
  utf8 note = true → any_char is_control (trim note) = true →
  handle env (DecideVerification corp run_id actor_id false note key) s = s.
Proof.
  intros Hutf Hnote. unfold handle. simpl. destruct (handle_forget
    (decide_verification env corp run_id actor_id false note key) s) as [-> | (out & s' & Hx & ->)]; [done |].
  unfold decide_verification, fetch_one, reject_run, reconcile_factory_verification_failure_tx in Hx. txn_inv.
  match type of Hx with (if ?b then _ else _) _ = _ => destruct b end; [read_all; by txn_inv | exfalso].
  txn_inv.
  match goal with H : normalize_factory_text _ _ _ = Ok _ |- _ => rename H into Hn end.
  unfold normalize_factory_text in Hn. 
  destruct (trim note) as [|c rest] eqn:E; [done |]. simpl is_empty in Hn. cbv iota in Hn.
  rewrite <-E in Hn, Hnote. rewrite trim_idempotent in Hn by done. res_inv. ok_facts. congruence.
Qed.
End decisions.

(** ** Scheduling *)
Section scheduling.
Context `{Serde} `{ExecSerde}.

Lemma check_launch_iff explicit task_id m t agent_id a s u s' :
  check_launch explicit task_id m t agent_id a s = Ok (u, s') ↔ s' = s ∧
  mission_allows_dispatch (MissionStatus.mission_status_as_str (mi_status m)) explicit = true ∧
  is_some (xa_retired_at a) = false ∧ task_waits (ta_status t) = true ∧
  xa_adapter a = default (xa_adapter a) (ta_required_adapter t) ∧ dependencies_done s task_id = true ∧
  task_busy task_id s = false ∧ agent_busy agent_id s = false ∧
  (ta_attempt_count t < ta_max_attempts t)%Z.
Proof.
  unfold check_launch. split.
  - intros Hx. txn_inv. ok_facts. split_and!; try done. lia.
  - intros (-> & H1 & H2 & H3 & H4 & H5 & H6 & H7 & H8). destruct u.
    unfold mbind, txn_bind, lift, gets, bail_if. cbv beta iota.
    rewrite H1, H2, H3, (proj2 (seqb_eq _ _) H4). cbv beta iota delta [negb].
    rewrite H5, H6, H7, (proj2 (Z.leb_gt _ _) H8). done.
Qed.

Lemma mission_dispatch_statuses (status : mission_status) explicit :
  mission_allows_dispatch (MissionStatus.mission_status_as_str status) explicit =
  bool_decide (status = MissionStatus.Running) || (explicit && bool_decide (status = MissionStatus.Ready)).
Proof. by destruct status, explicit. Qed.

(** The scheduler offers exactly what can be launched: as long as agents speak
    the adapter of the tasks assigned to them, a task is in the list of schedulable
    tasks if and only if it is a task of the mission and the corp with an idle
    assigned agent and none of the checks of a launch refuses it. *)
Theorem schedulable_tasks_exact corp mission explicit s id :
  (∀ t agent_id a, task_of s id = Some t → ta_assigned_agent t = Some agent_id → agent_of s agent_id = Some a →
     xa_adapter a = default (xa_adapter a) (ta_required_adapter t)) →
  id ∈ schedulable_tasks corp mission explicit s ↔
  ∃ m t agent_id a, mission_of s mission = Some m ∧ task_of s id = Some t ∧ ta_mission t = mission ∧
    ta_corp t = corp ∧ ta_assigned_agent t = Some agent_id ∧ agent_of s agent_id = Some a ∧
    xa_status a = AgentStatus.Idle ∧ check_launch explicit id m t agent_id a s = Ok (tt, s).
Proof.
  intros Hadapter. unfold schedulable_tasks. rewrite list_elem_of_fmap. split.
  - intros ([id' t] & -> & Hin). rewrite sort_by_perm, list_elem_of_In, List.filter_In in Hin.
    destruct Hin as [Hin Hs]. apply list_elem_of_In, elem_of_map_to_list in Hin. simpl in *.
    unfold schedulable in Hs. destruct (mission_of s (ta_mission t)) as [m|] eqn:Hm; [| done].
    destruct (ta_assigned_agent t) as [agent_id|] eqn:Ha; simpl in Hs; [| done].
    destruct (agent_of s agent_id) as [a|] eqn:Hag; [| done].
    rewrite !andb_true_iff, !N.eqb_eq, !negb_true_iff, bool_decide_eq_true, Z.ltb_lt in Hs.
    destruct Hs as [[[[[[[[[Hcorp Hmission] Hst] Hw] Hidle] Hret] Hat] Hdep] Htb] Hab].
    exists m, t, agent_id, a. subst. split_and!; try done. apply check_launch_iff.
    rewrite mission_dispatch_statuses. split_and!; try done. by eapply Hadapter.
  - intros (m & t & agent_id & a & Hm & Ht & Hmission & Hcorp & Ha & Hag & Hidle & Hl).
    apply check_launch_iff in Hl as (_ & Hst & Hret & Hw & _ & Hdep & Htb & Hab & Hat).
    exists (id, t). split; [done |]. rewrite sort_by_perm, list_elem_of_In, List.filter_In. split.
    + by apply list_elem_of_In, elem_of_map_to_list.
    + simpl. unfold schedulable. rewrite Hmission, Hm, Ha. simpl. rewrite Hag.
      rewrite mission_dispatch_statuses in Hst.
      rewrite !andb_true_iff, !N.eqb_eq, !negb_true_iff, bool_decide_eq_true, Z.ltb_lt. by split_and!.
Qed.
End scheduling.

(** ** Factory items *)

(** The rows of the item table are stored under their id. *)
Definition items_keyed (s : exec_db) : Prop :=
  ∀ id row, si_items (x_side s) !! id = Some row → fw_id row.1 = id.
Definition item_verified (s : exec_db) (id : uuid) : Prop :=
  ∃ row, si_items (x_side s) !! id = Some row ∧ fw_state row.1 = ItemState.Verified.

(** Nothing is verified that was not. *)
Definition verifies_nothing (s s' : exec_db) : Prop :=
  items_keyed s → items_keyed s' ∧ ∀ id, item_verified s' id → item_verified s id.
#[global] Instance verifies_nothing_frame : Frame verifies_nothing.
Proof.
  split.
  - split; [intros s Hk; naive_solver |].
    intros s1 s2 s3 H12 H23 Hk. destruct (H12 Hk) as [Hk2 Hv2]. destruct (H23 Hk2) as [Hk3 Hv3]. naive_solver.
  - intros s s' _ Hi _ Hk. unfold items_keyed, item_verified. rewrite Hi. naive_solver.
  - intros s e Hk. naive_solver.
Qed.

Lemma move_keyed s id item token version state failure : si_items (x_side s) !! id = Some (item, token) →
  items_keyed s → items_keyed (on_items <[id := (move_item state version failure item, token)]> s).
Proof.
  intros Hi Hk id' row. simpl. rewrite lookup_insert_Some. intros [[<- <-] | [_ Hl]]; [| eauto].
  apply (Hk id (item, token) Hi).
Qed.

Lemma unverified_moves state : state ≠ ItemState.Verified → moves_within verifies_nothing state.
Proof.
  intros Hs s id item token version failure Hi Hk. split; [by apply move_keyed |].
  intros id' (row & Hr & Hv). simpl in Hr. rewrite lookup_insert_Some in Hr.
  destruct Hr as [[<- <-] | [_ Hr]]; [done | by exists row].
Qed.

Section items.
Context `{Serde} `{ExecSerde}.

(** What verifies an item: the verified mission it belongs to. *)
Definition verified_by_mission (s : exec_db) (id : uuid) : Prop :=
  ∃ row mission, si_items (x_side s) !! id = Some row ∧ fw_mission_id row.1 = Some mission ∧
    factory_mission_verified (fw_corp_id row.1) mission (get_directory s) = true.

Lemma item_of_mission_spec corp mission s item token : items_keyed s →
  item_of_mission corp mission s = Some (item, token) →
  si_items (x_side s) !! fw_id item = Some (item, token) ∧ fw_corp_id item = corp ∧
  fw_mission_id item = Some mission.
Proof.
  intros Hk. unfold item_of_mission. intros ([id row] & Hf & Hrow)%fmap_Some. simpl in Hrow. subst row.
  apply find_some in Hf as [Hin Hc]. apply list_elem_of_In, elem_of_map_to_list in Hin.
  rewrite andb_true_iff, N.eqb_eq, bool_decide_eq_true in Hc. destruct Hc as [Hc Hm].
  pose proof (Hk _ _ Hin) as Hid. simpl in Hid. by subst id.
Qed.

Lemma finish_verifies corp mission room run actor s es s' : items_keyed s →
  finish_mission_step corp mission room run actor s = Ok (es, s') →
  ∀ id, item_verified s' id → item_verified s id ∨ verified_by_mission s' id.
Proof.
  intros Hk. unfold finish_mission_step. intros Hx. txn_inv.
  match type of Hx with (if ?b then _ else _) _ = _ => destruct b end; txn_inv; [| by left].
  match goal with H : reconcile_factory_verified_tx _ _ _ _ _ ?s0 = _ |- _ =>
    rename H into Hrec; set (s1 := s0) in *; assert (si_items (x_side s1) = si_items (x_side s)) as Hs1 by done end.
  clearbody s1. assert (items_keyed s1) as Hk1 by (unfold items_keyed; by rewrite Hs1).
  assert (∀ id, item_verified s1 id → item_verified s id) as Hback by (unfold item_verified; by rewrite Hs1).
  unfold reconcile_factory_verified_tx in Hrec. txn_inv.
  destruct (item_of_mission corp mission s1) as [[current token]|] eqn:Hi; [| txn_inv; auto].
  match type of Hrec with (if ?b then _ else _) _ = _ => destruct b end; txn_inv; [auto |].
  apply item_of_mission_spec in Hi as (Hi & Hc & Hm); [| done].
  unfold ensure_mission_verified, move_item_tx, fetch_one, read_directory in *. txn_inv. ok_facts.
  match goal with H : si_items _ !! _ ≫= _ = Some _ |- _ => rewrite Hi in H; simpl in H; rename H into Hrow end.
  rewrite N.eqb_refl in Hrow. injection Hrow as <-.
  match goal with H : factory_mission_verified _ _ _ = true |- _ => rename H into Hverified end.
  intros id (row & Hr & Hv). simpl in Hr. rewrite lookup_insert_Some in Hr.
  destruct Hr as [[<- <-] | [_ Hr]]; [right | left; apply Hback; by exists row].
  eexists _, mission. simpl. rewrite lookup_insert_eq. split; [done |].
  split; [done |]. exact Hverified.
Qed.

Lemma completed_verifies row payload s es s' : items_keyed s → on_completed row payload s = Ok (es, s') →
  ∀ id, item_verified s' id → item_verified s id ∨ verified_by_mission s' id.
Proof.
  intros Hk. unfold on_completed. intros Hx. txn_inv.
  match goal with H : finish_mission_step _ _ _ _ _ _ = _ |- _ => rename H into Hf end.
  intros id Hv. eapply (finish_verifies _ _ _ _ _ _ _ _ _ Hf id) in Hv as [Hv | Hv]; [by left | by right].
  Unshelve. exact Hk.
Qed.

(** The parts of a request around the end of a completion. *)
Lemma event_verifies env input s out s' : items_keyed s → apply_runner_event env input s = Ok (out, s') →
  ∀ id, item_verified s' id → item_verified s id ∨ verified_by_mission s' id.
Proof.
  intros Hk Hx. unfold apply_runner_event in Hx. txn_inv. read_all.
  match goal with H : append_event_tx _ ?s0 = Ok (?e, ?s1) |- _ =>
    apply (respects_append verifies_nothing) in H; destruct (H Hk) as [Hk1 Hv1]; destruct e as [e|] end;
    txn_inv; [| intros id Hv; left; by apply Hv1].
  match goal with H : dispatch_event _ _ _ _ _ _ = _ |- _ => rename H into Hd end.
  destruct (decide (re_event_type input = "run.completed")) as [E | E].
  - rewrite E in Hd. unfold dispatch_event in Hd. simpl in Hd.
    intros id Hv. eapply completed_verifies in Hv as [Hv | Hv]; [left; by apply Hv1 | by right | done | exact Hd].
  - eapply (respects_dispatch verifies_nothing unverified_moves) in Hd; [| done].
    destruct (Hd Hk1) as [_ Hv2]. intros id Hv. left. by apply Hv1, Hv2.
Qed.

Lemma decision_verifies env corp run_id actor approved note key s out s' : items_keyed s →
  decide_verification env corp run_id actor approved note key s = Ok (out, s') →
  ∀ id, item_verified s' id → item_verified s id ∨ verified_by_mission s' id.
Proof.
  intros Hk Hx. unfold decide_verification in Hx. txn_inv. read_all.
  match type of Hx with (if ?b then _ else _) _ = _ => destruct b end; txn_inv; [by left |].
  unfold check_decidable in *. txn_inv. read_all. intros id Hv. destruct approved.
  - unfold approve_run in *. txn_inv.
    match goal with H : finish_mission_step _ _ _ _ _ _ = _ |- _ =>
      destruct ((λ K, finish_verifies _ _ _ _ _ _ _ _ K H id Hv) Hk) end; [by left | by right].
  - match goal with H : reject_run _ _ _ _ _ _ = _ |- _ =>
      eapply (respects_reject verifies_nothing unverified_moves) in H; destruct (H Hk) as [_ Hb] end.
    left. by apply Hb.
Qed.

(** C2: an item is verified by its verified mission: whatever request is handled, an
    item of the Factory that becomes verified belongs to a mission of its corp that
    is completed with all of its tasks completed and passed in the resulting
    database. *)
Theorem items_verify_with_their_mission env request s id row : items_keyed s →
  si_items (x_side (handle env request s)) !! id = Some row → fw_state row.1 = ItemState.Verified →
  (∃ row0, si_items (x_side s) !! id = Some row0 ∧ fw_state row0.1 = ItemState.Verified) ∨
  ∃ mission m, fw_mission_id row.1 = Some mission ∧ mission_of (handle env request s) mission = Some m ∧
    mi_corp m = fw_corp_id row.1 ∧ mi_status m = MissionStatus.Completed ∧
    ∀ tid t, task_of (handle env request s) tid = Some t → ta_mission t = mission → ta_corp t = mi_corp m →
      ta_status t = TaskStatus.Completed ∧ ta_verification_status t = "passed".
Proof.
  intros Hk Hr Hv. assert (item_verified s id ∨ verified_by_mission (handle env request s) id) as [Hold | Hnew].
  { assert (item_verified (handle env request s) id) as Hi by (by exists row).
    revert Hi. unfold handle, run_txn. destruct (handler env request s) as [[u s']|] eqn:Hx; simpl; [| by left].
    destruct request; try (apply (respects_other_handler verifies_nothing unverified_moves) in Hx; [| done];
      destruct (Hx Hk) as [_ Hb]; intros Hi; left; by apply Hb).
    - simpl in Hx. apply forget_ok in Hx as [out Hx]. exact (event_verifies _ _ _ _ _ Hk Hx id).
    - simpl in Hx. apply forget_ok in Hx as [out Hx]. exact (decision_verifies _ _ _ _ _ _ _ _ _ _ Hk Hx id). }
  { left. destruct Hold as (row0 & ? & ?). eauto. }
  right. destruct Hnew as (row' & mission & Hr' & Hm & Hver). rewrite Hr in Hr'. injection Hr' as <-.
  apply mission_verified_spec in Hver as (mv & Hmv & Hc & Hs & _ & Hall). simpl in *.
  rewrite lookup_fmap in Hmv. apply fmap_Some in Hmv as (m & Em & ->). exists mission, m. simpl in *.
  split_and!; try done. intros tid t Ht Htm Htc. specialize (Hall tid (task_view t)).
  rewrite lookup_fmap in Hall. unfold task_of in Ht. rewrite Ht in Hall. apply Hall; simpl; congruence.
Qed.
End items.

(** *** Witnesses *)
Section witnesses.
#[local] Existing Instance sample_serde.
#[local] Existing Instance sample_exec_serde.

Definition started : list (exec_env * exec_request) :=
  [demo_create None; demo_start 60; demo_event 200 60 "run.started" []].
Definition note_event (corp : uuid) (event_type : string) : runner_event_input :=
  RunnerEventInput 300 "runner-a" corp 60 30 61 event_type (JObj []).

(** The event is delivered again after an attempt to launch another run. *)
Lemma runner_events_apply_once_witness : ∃ out s',
  apply_runner_event (demo_env 60) (note_event 1 "run.started") (demo [demo_create None; demo_start 60]) = Ok (out, s') ∧
  handle (demo_env 60) (RunnerEvent (note_event 1 "run.failed")) (handle_all s' [demo_start 61]) =
    handle_all s' [demo_start 61].
Proof.
  do 2 eexists. split; [vm_compute; reflexivity |].
  eapply (runner_events_apply_once (demo_env 60) (demo_env 60) (note_event 1 "run.started")
    (note_event 1 "run.failed") (demo [demo_create None; demo_start 60])); [| reflexivity ..].
  vm_compute. reflexivity.
Defined.

Lemma foreign_events_change_nothing_witness :
  ∃ e, run_txn (apply_runner_event (demo_env 60) (note_event 2 "run.failed")) (demo started) =
    (Err e, demo started).
Proof.
  apply (foreign_events_change_nothing (demo_env 60) (note_event 2 "run.failed") (demo started)).
  intros r Hr. vm_compute in Hr. injection Hr as <-. cbn. left. discriminate.
Defined.

(** The breaker has stopped the run; the workspace of the other is quarantined. *)
Definition stopped (stage : string) (disposition : option string) : exec_db :=
  update_run 60 (λ r, XRun (rn_binding r) (rn_status r) (rn_verification_status r) (rn_verification_summary r)
    (rn_summary r) (rn_verification_sha256 r) (rn_deliverable_sha256 r) stage (rn_session r)
    (rn_connection r) (rn_artifact r) (rn_usage r) (set_rw_disposition disposition (rn_workspace r))) (demo started).
Lemma halted_runs_make_no_progress_witness :
  (∃ e, run_txn (apply_runner_event (demo_env 60) (note_event 1 "run.completed")) (stopped "stop" None) =
     (Err e, stopped "stop" None)) ∧
  (∃ e, run_txn (apply_runner_event (demo_env 60) (note_event 1 "run.started")) (stopped "healthy" (Some "quarantined")) =
     (Err e, stopped "healthy" (Some "quarantined"))).
Proof.
  split.
  - eapply (halted_runs_make_no_progress (demo_env 60) (note_event 1 "run.completed") (stopped "stop" None));
      [vm_compute; reflexivity | right; reflexivity].
  - eapply (halted_runs_make_no_progress (demo_env 60) (note_event 1 "run.started") (stopped "healthy" (Some "quarantined")));
      [vm_compute; reflexivity | left; split; reflexivity].
Defined.

(** The owner may reject with a note of one line, and cannot with a note of two. *)
Definition two_lines : string := "no tests" +:+ String (Ascii.ascii_of_nat 10) "no docs".
Lemma multiline_rejections_fail_witness :
  (rn_status <$> run_of (handle (demo_env 60) (DecideVerification 1 60 10 false "no tests" None)
     (demo demo_waiting)) 60 = Some RunStatus.Failed) ∧
  handle (demo_env 60) (DecideVerification 1 60 10 false two_lines None) (demo demo_waiting) = demo demo_waiting.
Proof.
  split; [vm_compute; reflexivity |].
  apply (multiline_rejections_fail (demo_env 60) 1 60 10 two_lines None (demo demo_waiting)); reflexivity.
Defined.

Lemma schedulable_tasks_exact_witness :
  50%N ∈ schedulable_tasks 1 40 true (demo [demo_create None]) ∧
  50%N ∉ schedulable_tasks 1 40 false (demo [demo_create None]).
Proof.
  assert (∀ t agent_id a, task_of (demo [demo_create None]) 50 = Some t → ta_assigned_agent t = Some agent_id →
    agent_of (demo [demo_create None]) agent_id = Some a → xa_adapter a = default (xa_adapter a) (ta_required_adapter t)) as Ha.
  { intros t agent_id a Ht Hid Hag. vm_compute in Ht. injection Ht as <-. vm_compute in Hid. injection Hid as <-.
    vm_compute in Hag. injection Hag as <-. reflexivity. }
  split.
  - apply (schedulable_tasks_exact 1 40 true _ 50 Ha). do 4 eexists.
    split; [vm_compute; reflexivity |]. split; [vm_compute; reflexivity |]. split; [reflexivity |].
    split; [reflexivity |]. split; [reflexivity |]. split; [vm_compute; reflexivity |].
    split; vm_compute; reflexivity.
  - intros Hin. apply (schedulable_tasks_exact 1 40 false _ 50 Ha) in Hin
      as (m & t & agent_id & a & Hm & Ht & _ & _ & Hid & Hag & _ & Hl).
    vm_compute in Hm. injection Hm as <-. vm_compute in Ht. injection Ht as <-. vm_compute in Hid.
    injection Hid as <-. vm_compute in Hag. injection Hag as <-. vm_compute in Hl. discriminate Hl.
Defined.

(** An item of the Factory that waits for the decision on its mission. *)
Definition sample_work_item : factory_work_item :=
  FactoryWorkItem 500 1 "github_issue" sample_source_normal ItemState.Running 3 10 (seconds 900) (JObj [])
    (Some 40%N) None.
Definition with_item : exec_db := on_items <[500%N := (sample_work_item, 600%N)]> (demo demo_waiting).
Definition approved_item : exec_db := handle (demo_env 60) (DecideVerification 1 60 10 true "fine" (Some 90%N)) with_item.
Lemma no_items : si_items (x_side (demo demo_waiting)) = ∅.
Proof. vm_compute. reflexivity. Qed.
Lemma items_verify_with_their_mission_witness : ∃ row,
  si_items (x_side approved_item) !! 500%N = Some row ∧ fw_state row.1 = ItemState.Verified ∧
  ((∃ row0, si_items (x_side with_item) !! 500%N = Some row0 ∧ fw_state row0.1 = ItemState.Verified) ∨
   ∃ mission m, fw_mission_id row.1 = Some mission ∧ mission_of approved_item mission = Some m ∧
     mi_status m = MissionStatus.Completed).
Proof.
  eexists. split; [vm_compute; reflexivity |]. split; [reflexivity |].
  edestruct (items_verify_with_their_mission (demo_env 60) (DecideVerification 1 60 10 true "fine" (Some 90%N))
    with_item 500) as [Hold | (mission & m & Hm & Hmo & _ & Hs & _)].
  - intros id row Hr. change (si_items (x_side with_item)) with
      (<[500%N := (sample_work_item, 600%N)]> (si_items (x_side (demo demo_waiting)))) in Hr.
    rewrite no_items in Hr. apply lookup_insert_Some in Hr as [[<- <-] | [_ Hr]]; [reflexivity | discriminate Hr].
  - vm_compute. reflexivity.
  - reflexivity.
  - left. exact Hold.
  - right. exists mission, m. split; [exact Hm |]. split; [exact Hmo | exact Hs].
Defined.

(** An approval request outlives its run: the run that asked fails, the task is
    attempted again, and when the request expires the mission is cancelled under
    the second run, which goes on. *)
Definition stale : list (exec_env * exec_request) :=
  [demo_create None; demo_start 60; demo_event 200 60 "run.started" [];
   demo_event 201 60 "run.approval_requested"
     [("approval_id", JStr "80"); ("action_key", JStr "k"); ("action", JStr "push"); ("risk", JStr "low");
      ("rationale", JStr "why"); ("required_roles", JArr [JStr "owner"])];
   demo_event 202 60 "run.failed" [("error", JStr "boom")];
   demo_start 61; demo_event 203 61 "run.started" []].
Definition later : exec_env := ExecEnv (100 + 1000000000000) 99 98 97 96 95 [] [].
Definition status_of (s : exec_db) (run : uuid) : option run_status * option mission_status :=
  (rn_status <$> run_of s run, mi_status <$> mission_of s 40).

Lemma stale_approval_cancels_mission :
  status_of (demo stale) 60 = (Some RunStatus.Failed, Some MissionStatus.Running) ∧
  status_of (demo stale) 61 = (Some RunStatus.Running, Some MissionStatus.Running) ∧
  status_of (handle later (ExpireApproval 80) (demo stale)) 61 =
    (Some RunStatus.Running, Some MissionStatus.Cancelled).
Proof. split_and!; vm_compute; reflexivity. Qed.
End witnesses.
