(* ===== verification/ExecBounds.v ===== *)
(** * Bounds of execution

    A walk along the lineage of resumed runs of as many steps as there are runs
    visits everything a longer walk would ([lineage_walk_is_complete]), and a
    resumed run gets no more budget than its contract, its mission and the
    rolling windows have left ([resumed_budgets_are_bounded]). *)
From S2P Require Import Prelude Text Json Domain Planning Deliverable FactoryPolicy Store FactoryItems Breaker ExecTables Checkpoint RunFailure RunEvents Dispatch Decisions ExecSpec EventSteps AttemptSteps Execution ExecGuards.

(** ** Lineages *)

(** More distinct positions than values: two positions agree. *)
Lemma pigeonhole (l : list uuid) : ∀ X : gset uuid, (∀ x, x ∈ l → x ∈ X) → (size X < length l)%nat →
  ∃ i j x, (i < j)%nat ∧ l !! i = Some x ∧ l !! j = Some x.
Proof.
  induction l as [|x l IH]; simpl; intros X Hin Hlen; [lia |].
  destruct (decide (x ∈ l)) as [(j & Hj)%list_elem_of_lookup | Hn].
  - exists 0%nat, (S j), x. split; [lia | done].
  - destruct (IH (X ∖ {[x]})) as (i & j & y & Hij & Hi & Hj).
    + intros y Hy. apply elem_of_difference. split; [apply Hin; by right |].
      rewrite elem_of_singleton. intros ->. done.
    + assert (x ∈ X) as Hx by (apply Hin; left). rewrite size_difference by set_solver.
      rewrite size_singleton. assert (size X ≠ 0)%nat; [| lia].
      intros H0%size_empty_inv. set_solver.
    + exists (S i), (S j), y. split; [lia | done].
Qed.

Section lineage.
Context (db : exec_db) (follow : x_run → x_run → bool).

(** The run the walk goes to after [id]. *)
Definition parent (id : uuid) : option uuid :=
  r ← run_of db id; p ← rb_resumed_from (rn_binding r); pr ← run_of db p;
  if follow r pr then Some p else None.
Fixpoint walk (k : nat) (id : uuid) : option uuid :=
  match k with
  | O => if is_some (run_of db id) then Some id else None
  | S k => if is_some (run_of db id) then p ← parent id; walk k p else None
  end.

Lemma ancestors_walk n : ∀ id x, x ∈ ancestors n db follow id ↔ ∃ k, (k < n)%nat ∧ walk k id = Some x.
Proof.
  induction n as [|n IH]; intros id x; simpl.
  { rewrite elem_of_nil. split; [done |]. intros (k & ? & _). lia. }
  destruct (run_of db id) as [r|] eqn:Hr.
  2: { rewrite elem_of_nil. split; [done |]. intros ([|k] & _ & Hk); simpl in Hk; by rewrite Hr in Hk. }
  assert (∀ l, (∀ x, x ∈ l ↔ ∃ k, (k < n)%nat ∧ (p ← parent id; walk k p) = Some x) →
    (x ∈ id :: l ↔ ∃ k, (k < S n)%nat ∧ walk k id = Some x)) as Hcons.
  { intros l Hl. rewrite elem_of_cons, Hl. split.
    - intros [-> | (k & Hk & Hw)]; [exists 0%nat | exists (S k)]; simpl; rewrite Hr; (split; [lia | done]).
    - intros ([|k] & Hk & Hw); simpl in Hw; rewrite Hr in Hw; simpl in Hw; [left | right]; [by simplify_eq |].
      exists k. split; [lia | done]. }
  apply Hcons. intros y. unfold parent. rewrite Hr. simpl.
  destruct (rb_resumed_from (rn_binding r)) as [p|]; simpl.
  2: { rewrite elem_of_nil. split; [done |]. by intros (k & _ & ?). }
  destruct (run_of db p) as [pr|] eqn:Hp; simpl.
  2: { rewrite elem_of_nil. split; [done |]. by intros (k & _ & ?). }
  destruct (follow r pr); simpl; [apply IH |].
  rewrite elem_of_nil. split; [done |]. by intros (k & _ & ?).
Qed.

Lemma walk_add i : ∀ j id, walk (i + j) id = x ← walk i id; walk j x.
Proof.
  induction i as [|i IH]; intros j id; simpl.
  - destruct (run_of db id) eqn:Hr; simpl; [done |]. destruct j; simpl; by rewrite Hr.
  - destruct (is_some (run_of db id)); [| done]. destruct (parent id) as [p|]; simpl; [apply IH | done].
Qed.

Lemma walk_prefix k id x : walk k id = Some x → ∀ i, (i ≤ k)%nat → ∃ y, walk i id = Some y.
Proof.
  intros Hk i Hi. replace k with (i + (k - i))%nat in Hk by lia. rewrite walk_add in Hk.
  destruct (walk i id); [eauto | done].
Qed.

Lemma walk_run k : ∀ id x, walk k id = Some x → x ∈ dom (co_runs (x_core db)).
Proof.
  induction k as [|k IH]; intros id x; simpl; destruct (run_of db id) eqn:Hr; simpl; try done.
  - intros [= <-]. apply elem_of_dom. unfold run_of in Hr. by rewrite Hr.
  - destruct (parent id) as [p|]; simpl; [apply IH | done].
Qed.

(** A walk that is too long repeats itself, so what it reaches a shorter one reaches. *)
Lemma walk_shortens k id x : walk k id = Some x → ∃ j, (j < lineage_fuel db)%nat ∧ walk j id = Some x.
Proof.
  revert x. induction k as [k IH] using lt_wf_ind. intros x Hk.
  destruct (decide (k < lineage_fuel db)%nat) as [| Hge]; [eauto |].
  set (l := omap (λ i, walk i id) (seq 0 (S k))).
  assert (∀ n m, (n + m ≤ S k)%nat → omap (λ i, walk i id) (seq n m) = (λ i, default 0%N (walk i id)) <$> seq n m) as Hmap.
  { intros n m. revert n. induction m as [|m IHm]; intros n Hn; [done |]. csimpl.
    destruct (walk_prefix k id x Hk n) as [y Hy]; [lia |]. rewrite Hy. simpl. f_equal. apply IHm. lia. }
  destruct (pigeonhole l (dom (co_runs (x_core db)))) as (i & j & y & Hij & Hi & Hj).
  - intros y (i & _ & Hi)%list_elem_of_omap. by eapply walk_run.
  - unfold l. rewrite Hmap by lia. rewrite length_fmap, length_seq, size_dom. unfold lineage_fuel in Hge. lia.
  - unfold l in Hi, Hj. rewrite Hmap in Hi, Hj by lia. rewrite list_lookup_fmap in Hi, Hj.
    apply fmap_Some in Hi as (i' & Hi & Hy1). apply fmap_Some in Hj as (j' & Hj & Hy2).
    apply lookup_seq in Hi as [-> Hi]. apply lookup_seq in Hj as [-> Hj]. simpl in *.
    destruct (walk_prefix k id x Hk i) as [y1 E1]; [lia |]. destruct (walk_prefix k id x Hk j) as [y2 E2]; [lia |].
    rewrite E1 in Hy1. rewrite E2 in Hy2. simpl in *. subst y1 y2.
    apply (IH (i + (k - j))%nat); [lia |]. rewrite walk_add, E1. simpl.
    replace k with (j + (k - j))%nat in Hk by lia. rewrite walk_add, E2 in Hk. exact Hk.
Qed.
End lineage.

(** The walk along a lineage of resumed runs is complete: a walk of as many steps
    as there are runs visits exactly the runs every longer walk visits, also along
    a lineage that loops, so the fuel of the model never cuts a lineage short. *)
Theorem lineage_walk_is_complete db follow id fuel x : (lineage_fuel db ≤ fuel)%nat →
  x ∈ ancestors fuel db follow id ↔ x ∈ ancestors (lineage_fuel db) db follow id.
Proof.
  intros Hf. rewrite !ancestors_walk. split; intros (k & Hk & Hw).
  - by eapply walk_shortens.
  - exists k. split; [lia | done].
Qed.

(** ** The budget of a resumed run *)
Section budgets.
Context `{Serde} `{ExecSerde}.

Lemma resume_budget_bounds env corp mission m c db b : resume_budget_of env corp mission m c db = Ok b →
  (rs_tokens b ≤ tc_budget_tokens c)%Z ∧ (rs_tokens_used b + rs_tokens b ≤ mi_budget_tokens m)%Z ∧
  (rs_tokens b ≤ rb_actor_tokens (rs_rolling b))%Z ∧ (rs_tokens b ≤ rb_corp_tokens (rs_rolling b))%Z ∧
  (rs_cost b ≤ tc_budget_cost_microusd c)%Z ∧
  (rs_cost_used b + rs_cost b ≤ mi_budget_cost_microusd m)%Z ∧
  (rs_cost b ≤ rb_actor_cost_microusd (rs_rolling b))%Z ∧
  (rs_cost b ≤ rb_corp_cost_microusd (rs_rolling b))%Z ∧
  (0 < tc_budget_tokens c → 0 < rs_tokens b)%Z ∧ (0 < tc_budget_cost_microusd c → 0 < rs_cost b)%Z ∧
  mission_usage corp mission db = Ok (rs_tokens_used b, rs_cost_used b) ∧
  rolling_budget_remaining_of (breaker_view db) (xe_now env) corp (mi_requested_by m) = Ok (rs_rolling b).
Proof.
  unfold resume_budget_of. intros Hx. apply bind_ok in Hx as ([tokens cost] & Hused & Hx).
  apply bind_ok in Hx as (u & Hb%bail_if_ok & Hx). apply bind_ok in Hx as (rolling & Hroll & Hx).
  apply bind_ok in Hx as (u' & Hb'%bail_if_ok & Hx). injection Hx as <-. simpl in *.
  rewrite !orb_false_iff, !Z.leb_gt in *. split_and!; try lia; done.
Qed.

(** C13: a resumed run gets no more than is left: the run that a resume creates
    continues the source run on its agent, runner and workspace with positive
    limits inside the budget of the contract, inside what the mission's recorded
    usage leaves of its budget, and inside what the requester and the corp have
    left in the rolling windows. *)
Theorem resumed_budgets_are_bounded env corp source_id requester s out s' :
  create_resume_run env corp source_id requester s = Ok (out, s') →
  ∃ source t m r tokens_used cost_used rolling,
    run_of s source_id = Some source ∧ task_of s (rb_task (rn_binding source)) = Some t ∧
    mission_of s (ta_mission t) = Some m ∧ run_of s (xe_run env) = None ∧
    run_of s' (xe_run env) = Some r ∧ rb_resumed_from (rn_binding r) = Some source_id ∧
    same_assignment (rn_binding source) (rn_binding r) = true ∧
    mission_usage corp (ta_mission t) s = Ok (tokens_used, cost_used) ∧
    rolling_budget_remaining_of (breaker_view s) (xe_now env) corp (mi_requested_by m) = Ok rolling ∧
    let tokens := rb_budget_tokens_limit (rn_binding r) in
    let cost := rb_budget_cost_microusd_limit (rn_binding r) in
    (tokens ≤ tc_budget_tokens (ta_contract t))%Z ∧ (tokens_used + tokens ≤ mi_budget_tokens m)%Z ∧
    (tokens ≤ rb_actor_tokens rolling)%Z ∧ (tokens ≤ rb_corp_tokens rolling)%Z ∧
    (cost ≤ tc_budget_cost_microusd (ta_contract t))%Z ∧
    (cost_used + cost ≤ mi_budget_cost_microusd m)%Z ∧
    (cost ≤ rb_actor_cost_microusd rolling)%Z ∧ (cost ≤ rb_corp_cost_microusd rolling)%Z ∧
    (0 < tc_budget_tokens (ta_contract t) → 0 < tokens)%Z ∧
    (0 < tc_budget_cost_microusd (ta_contract t) → 0 < cost)%Z.
Proof.
  unfold create_resume_run, check_resume, insert_run_tx, bind_new_run_tx, require_new, fetch_one.
  intros Hx. txn_inv.
  match goal with H : with_context (resume_row _ _ _) _ = Ok ?row |- _ =>
    apply with_context_ok in H; destruct row as [[[r t] m] ag]; rename H into Hrow end.
  txn_inv. ok_facts.
  match goal with H : read_db (resume_budget_of _ _ _ _ _) _ = Ok (_, _) |- _ =>
    apply lift_ok in H as [Hbudget ->] end.
  read_all. apply resume_row_spec in Hrow as (Hr & Ht & Hm & _ & Hcorp).
  apply resume_budget_bounds in Hbudget as (B1 & B2 & B3 & B4 & B5 & B6 & B7 & B8 & B9 & B10 & Hused & Hroll).
  match goal with H : is_some (run_of _ _) = false |- _ => rename H into Hnew end.
  eexists r, t, m, _, _, _, _. do 3 (split; [done |]). split; [revert Hnew; by destruct (run_of _ (xe_run env)) |].
  split.
  { unfold run_of. rewrite core_set_log. core_rows. by rewrite lookup_alter_eq, lookup_insert_eq. }
  split; [done |]. split.
  { unfold same_assignment. simpl. rewrite Hcorp, !N.eqb_refl. simpl. rewrite andb_true_r. by apply seqb_eq. }
  split; [exact Hused |]. split; [exact Hroll |]. done.
Qed.
End budgets.

(** *** Witnesses *)
Section witnesses.
#[local] Existing Instance sample_serde.
#[local] Existing Instance sample_exec_serde.

(** A run that failed with its workspace preserved, and the run that resumes it. *)
Definition preserved : list (exec_env * exec_request) :=
  [demo_create None; demo_start 60; demo_event 200 60 "run.session" [("session_id", JStr "session")];
   demo_event 201 60 "run.started" [("workspace", JStr "/w"); ("workspace_base_commit", JStr "abc")];
   demo_event 202 60 "run.failed" [("error", JStr "boom")];
   demo_event 203 60 "run.workspace_preserved" []].
Definition resumed : list (exec_env * exec_request) :=
  preserved ++ [(demo_env 61, ResumeAttempt 1 60 10)].

Lemma lineage_walk_is_complete_witness :
  60%N ∈ ancestors 100 (demo resumed) (λ _ _, true) 61 ∧
  60%N ∈ ancestors (lineage_fuel (demo resumed)) (demo resumed) (λ _ _, true) 61.
Proof.
  assert (60%N ∈ ancestors 100 (demo resumed) (λ _ _, true) 61) as Hin.
  { vm_compute. right. left. }
  split; [exact Hin |]. apply (lineage_walk_is_complete (demo resumed) (λ _ _, true) 61 100 60); [| exact Hin].
  vm_compute. lia.
Defined.

Lemma resumed_budgets_are_bounded_witness : ∃ out s',
  create_resume_run (demo_env 61) 1 60 10 (demo preserved) = Ok (out, s') ∧
  ∃ r t, run_of s' 61 = Some r ∧ task_of (demo preserved) (rb_task (rn_binding r)) = Some t ∧
    (rb_budget_tokens_limit (rn_binding r) ≤ tc_budget_tokens (ta_contract t))%Z.
Proof.
  do 2 eexists. split; [vm_compute; reflexivity |].
  edestruct (resumed_budgets_are_bounded (demo_env 61) 1 60 10 (demo preserved))
    as (source & t & m & r & used & cost & rolling & Hs & Ht & _ & _ & Hr & _ & Hsame & _ & _ & Hbound & _);
    [vm_compute; reflexivity |].
  exists r, t. split; [exact Hr |]. split; [| exact Hbound].
  unfold same_assignment in Hsame. rewrite !andb_true_iff, !N.eqb_eq in Hsame. intuition congruence.
Defined.
End witnesses.
