(* ===== verification/Materialization.v ===== *)
(** * From a claimed issue to a mission (crates/crony-store/src/lib.rs)

    The holder of a claim turns a Factory item into a mission
    ([materialize_factory_mission]), inside the policy the claim recorded; the
    item may first have to pin its source commit
    ([upgrade_factory_source_commit]), and a plan the store refuses blocks it
    ([reject_factory_materialization]).  The handlers work on [exec_db]: the
    Factory tables of [FactoryItems] are lifted with [in_factory], the mission is
    [Dispatch.create_mission_tx].  Beside them, the reads that follow a
    materialisation: its replay, the launched runs and the missions that wait. *)
From S2P Require Import Prelude Text Json Domain Planning Deliverable FactoryPolicy Store FactoryItems Breaker ExecTables Checkpoint RunFailure RunEvents Dispatch Decisions ExecSpec EventSteps AttemptSteps Execution ExecGuards.
Import ItemState.

(** ** The Factory tables inside the database of execution *)
Definition with_factory (f : factory_db) (db : exec_db) : exec_db :=
  let d := x_side db in
  ExecDb (x_base db) (x_core db)
    (ExecSide (si_agents d) (si_approvals d) (si_messages d) (si_commands d) (si_artifacts d)
       (si_deliverables d) (si_recoveries d) (db_items f) (db_operations f))
    (db_log f).
Definition in_factory {A} (t : txn factory_db A) : txn exec_db A := λ db,
  match t (factory_view db) with
  | Ok (a, f) => Ok (a, with_factory f db)
  | Err e => Err e
  end.

(** ** Requests and answers *)
Record upgrade_input := UpgradeFactorySourceCommitInput {
  ui_corp_id : uuid; ui_work_item_id : uuid; ui_actor_id : uuid; ui_claim_token : uuid;
  ui_expected_version : Z; ui_idempotency_key : string; ui_source_base_commit : string }.
Record materialize_input := MaterializeFactoryMissionInput {
  mt_corp_id : uuid; mt_work_item_id : uuid; mt_actor_id : uuid; mt_claim_token : uuid;
  mt_expected_version : Z; mt_idempotency_key : string; mt_title : string; mt_description : string;
  mt_request : json }.
Record preflight_input := PreflightFactoryMissionInput {
  pf_corp_id : uuid; pf_actor_id : uuid; pf_source_repository_owner : string;
  pf_source_repository_name : string; pf_policy : json; pf_title : string; pf_description : string;
  pf_request : json }.
Record reject_input := RejectFactoryMaterializationInput {
  rj_corp_id : uuid; rj_work_item_id : uuid; rj_actor_id : uuid; rj_claim_token : uuid;
  rj_attempted_version : Z; rj_idempotency_key : string; rj_failure_detail : string }.
Record mission_outcome := FactoryMissionOutcome {
  mo_work_item : factory_work_item; mo_ids : mission_plan_ids; mo_strategy : string;
  mo_events : list new_event; mo_replayed : bool }.

Section materialization.
Context `{Serde} `{ExecSerde}.

(** ** Shared by the handlers *)
Definition apply_factory_source_constraints (work_item : factory_work_item) (plan : task_graph_plan) :
    result task_graph_plan :=
  apply_factory_source_constraints_parts (src_repository_owner (fw_source work_item))
    (src_repository_name (fw_source work_item)) (fw_policy work_item) plan.
Definition validate_factory_plan_against_policy (work_item : factory_work_item) (plan : task_graph_plan) :
    result unit :=
  validate_factory_plan_against_policy_parts (src_repository_owner (fw_source work_item))
    (src_repository_name (fw_source work_item)) (fw_policy work_item) plan.

(** The clock of the environment, for the operations of [FactoryItems] that read it. *)
Definition at_clock (now : timestamp) : environment := Environment now 0%N 0%N.

(** UPDATE factory_work_items .. RETURNING: the row at its next version. *)
Definition update_item_tx (current : factory_work_item) (token : uuid)
    (f : Z → factory_work_item) : txn exec_db factory_work_item :=
  version ← lift (next_version (fw_version current));
  in_factory (store_item_tx (f version) token).

Definition fenced_operation (item : factory_work_item) (actor : uuid) (operation : string) (token : uuid)
    (request : json) : factory_operation :=
  FactoryOperation (fw_id item) actor operation (fw_version item) (Some token) request.

(** ** Pinning the source commit of an older claim *)
Definition upgrade_request (input : upgrade_input) (commit : string) : json :=
  json_object
    [("work_item_id", JStr (uuid_to_string (ui_work_item_id input)));
     ("expected_version", JInt (ui_expected_version input));
     ("source_base_commit", JStr commit)].

Definition prepare_upgrade (input : upgrade_input) : result (string * string) :=
  bail_if (ui_expected_version input <=? 0)%Z "expected factory work-item version must be positive";;
  let source_base_commit := to_ascii_lowercase (trim (ui_source_base_commit input)) in
  validate_factory_base_commit source_base_commit;;
  idempotency_key ← normalize_factory_idempotency_key (ui_idempotency_key input);
  Ok (source_base_commit, idempotency_key).

(** The policy must be marked for the upgrade and not be pinned; its base ref. *)
Definition upgradable_policy (current : factory_work_item) : result (json_map * string) :=
  policy ← policy_object (fw_policy current);
  bail_if (is_some (v ← obj_get "source_base_commit" policy; as_str v))
    "factory source policy already has an immutable base commit";;
  bail_if (negb (bool_decide ((v ← obj_get "source_commit_upgrade_required" policy; as_bool v)
                              = Some true)))
    "factory source policy is not marked for an authorized legacy upgrade";;
  source_base_ref ← factory_policy_required_string policy "source_base_ref" 240;
  validate_factory_base_ref source_base_ref;;
  Ok (policy, source_base_ref).

(** The runs and the tasks of a mission, as the two EXISTS queries see them. *)
Definition mission_has_run (corp mission : uuid) (db : exec_db) : bool :=
  existsb (λ '(_, r), match task_of db (rb_task (rn_binding r)) with
                      | Some t => (ta_corp t =? corp)%N && (ta_mission t =? mission)%N
                      | None => false
                      end) (map_to_list (co_runs (x_core db))).
Definition source_incompatible (repository base_ref : string) (c : task_contract) : bool :=
  negb (not_distinct (tc_source_repository c) (Some repository))
  || negb (not_distinct (tc_source_base_ref c) (Some base_ref))
  || is_some (tc_source_base_commit c).
Definition task_in (corp mission : uuid) (t : x_task) : bool :=
  (ta_corp t =? corp)%N && (ta_mission t =? mission)%N.
Definition has_incompatible_task (corp mission : uuid) (repository base_ref : string) (db : exec_db) : bool :=
  existsb (λ '(_, t), task_in corp mission t && source_incompatible repository base_ref (ta_contract t))
    (map_to_list (co_tasks (x_core db))).

(** jsonb_set(contract, '{source_base_commit}', ..) *)
Definition set_contract_commit (commit : string) (c : task_contract) : task_contract :=
  TaskContract (tc_objective c) (tc_expected_output c) (tc_source_repository c) (tc_source_base_ref c)
    (Some commit) (tc_workspace_connection_id c) (tc_acceptance_tests c) (tc_allowed_tools c)
    (tc_prohibited_actions c) (tc_references c) (tc_write_scope c) (tc_budget_tokens c)
    (tc_budget_cost_microusd c) (tc_deadline_at c) (tc_escalation c) (tc_secret_refs c)
    (tc_model c) (tc_reasoning_effort c) (tc_deliverable c).
Definition set_ta_contract (v : task_contract) (t : x_task) : x_task :=
  XTask (ta_mission t) (ta_corp t) (ta_title t) (ta_plan_key t) v (ta_depth t) (ta_max_attempts t)
    (ta_attempt_count t) (ta_required_adapter t) (ta_status t) (ta_assigned_agent t) (ta_policy t)
    (ta_verification_status t) (ta_created_at t).
Definition pin_task (corp mission : uuid) (commit : string) (t : x_task) : x_task :=
  if task_in corp mission t then set_ta_contract (set_contract_commit commit (ta_contract t)) t else t.

Definition pin_mission_tasks (corp mission : uuid) (repository base_ref commit : string) :
    txn exec_db unit :=
  has_run ← gets (mission_has_run corp mission);
  lift (bail_if has_run "legacy source commit cannot be freshly pinned after a run exists");;
  incompatible_task ← gets (has_incompatible_task corp mission repository base_ref);
  lift (bail_if incompatible_task
          "legacy mission tasks do not preserve the claimed repository and base ref");;
  modify (on_tasks (fmap (pin_task corp mission commit))).

Definition pinned_policy (commit : string) (policy : json_map) : json :=
  JObj (obj_insert "source_commit_upgrade_required" (JBool false)
          (obj_insert "source_base_commit" (JStr commit) policy)).
Definition upgraded_item (policy : json) (current : factory_work_item) (version : Z) : factory_work_item :=
  FactoryWorkItem (fw_id current) (fw_corp_id current) (fw_source_kind current) (fw_source current)
    (fw_state current) version (fw_claim_owner_id current) (fw_lease_expires_at current) policy
    (fw_mission_id current) None.
Definition upgrade_event (corp_id : uuid) (item : factory_work_item) (actor_id : uuid) : new_event :=
  correlated (fw_mission_id item)
    (new_event_of corp_id (Some actor_id) "factory.source_commit_pinned" "factory_work_item" (fw_id item)
       ("factory:" +:+ uuid_to_string (fw_id item) +:+ ":source-commit:" +:+ show_int (fw_version item))
       (json_object [("state", JStr (item_state_as_str (fw_state item))); ("legacy_upgrade", JBool true)])).

Definition repository_of (item : factory_work_item) : string :=
  src_repository_owner (fw_source item) +:+ "/" +:+ src_repository_name (fw_source item).

Definition upgrade_factory_source_commit (env : exec_env) (input : upgrade_input) :
    txn exec_db work_item_outcome :=
  prepared ← lift (prepare_upgrade input);
  let '(commit, key) := prepared in
  let corp := ui_corp_id input in
  assert_actor_scope_tx corp (ui_actor_id input);;
  operation ← in_factory (factory_operation_tx corp key);
  match operation with
  | Some operation =>
      in_factory (fenced_replay (at_clock (xe_now env)) operation "upgrade_source_commit" corp
        (ui_work_item_id input) (ui_actor_id input) (ui_claim_token input) (upgrade_request input commit)
        "idempotent source upgrade references a missing work item")
  | None =>
      row ← in_factory (controlled_item (at_clock (xe_now env)) corp (ui_work_item_id input)
              (ui_actor_id input) (ui_claim_token input) (ui_expected_version input));
      let '(current, token) := row in
      upgradable ← lift (upgradable_policy current);
      let '(policy, base_ref) := upgradable in
      (match fw_mission_id current with
       | Some mission => pin_mission_tasks corp mission (repository_of current) base_ref commit
       | None => mret tt
       end);;
      work_item ← update_item_tx current token (upgraded_item (pinned_policy commit policy) current);
      in_factory (record_factory_operation_tx corp key
        (fenced_operation work_item (ui_actor_id input) "upgrade_source_commit" (ui_claim_token input)
           (upgrade_request input commit)));;
      event_room_id ← in_factory (factory_event_room_id_tx corp (fw_mission_id work_item));
      event ← append_new_event
        (at_version event_room_id (fw_version work_item) (upgrade_event corp work_item (ui_actor_id input)))
        "factory source upgrade event unexpectedly existed";
      mret (FactoryWorkItemOutcome work_item (Some (ui_claim_token input)) (Some event) false)
  end.

(** ** Refusing a plan *)
Definition rejection_request (input : reject_input) (failure_detail : string) : json :=
  json_object
    [("work_item_id", JStr (uuid_to_string (rj_work_item_id input)));
     ("attempted_version", JInt (rj_attempted_version input));
     ("failure_detail", JStr failure_detail)].

Definition prepare_reject (input : reject_input) : result (string * string) :=
  bail_if (rj_attempted_version input <=? 0)%Z "attempted factory work-item version must be positive";;
  failure_detail ← normalize_factory_text (rj_failure_detail input) "factory materialization rejection" 2000;
  idempotency_key ← normalize_factory_idempotency_key (rj_idempotency_key input);
  Ok (failure_detail, idempotency_key).

Definition check_rejectable (input : reject_input) (current : factory_work_item) (current_token : uuid) :
    result unit :=
  bail_if (negb (fw_claim_owner_id current =? rj_actor_id input)%N
           || negb (current_token =? rj_claim_token input)%N)
    "conflict: stale or unauthorized factory claim token";;
  bail_if (is_some (fw_mission_id current))
    "conflict: factory materialization rejection cannot replace an existing mission";;
  bail_if (negb (bool_decide (fw_state current = Claimed) || bool_decide (fw_state current = Blocked)))
    ("conflict: factory work item " +:+ uuid_to_string (fw_id current)
     +:+ " cannot reject materialization from state " +:+ item_state_as_str (fw_state current)).

Definition rejected_item (failure_detail : string) (released_lease_at : timestamp)
    (current : factory_work_item) (version : Z) : factory_work_item :=
  FactoryWorkItem (fw_id current) (fw_corp_id current) (fw_source_kind current) (fw_source current)
    Blocked version (fw_claim_owner_id current) released_lease_at (fw_policy current)
    (fw_mission_id current) (Some failure_detail).
Definition reject_event (corp_id : uuid) (previous item : factory_work_item) (actor_id : uuid) : new_event :=
  correlated (fw_mission_id item)
    (new_event_of corp_id (Some actor_id) "factory.materialization_rejected" "factory_work_item" (fw_id item)
       ("factory:" +:+ uuid_to_string (fw_id item) +:+ ":materialization-rejected:"
        +:+ show_int (fw_version item))
       (json_object [("previous_state", JStr (item_state_as_str (fw_state previous)));
                     ("state", JStr (item_state_as_str (fw_state item)));
                     ("mission_id", json_opt_uuid (fw_mission_id item));
                     ("failure_detail", json_opt_str (fw_failure_detail item))])).

(** An item that is blocked already keeps its row. *)
Definition reject_current (released_lease_at : timestamp) (input : reject_input) (failure_detail : string)
    (current : factory_work_item) (token : uuid) : txn exec_db (factory_work_item * option new_event) :=
  if bool_decide (fw_state current = Blocked) then mret (current, None)
  else
    let corp := rj_corp_id input in
    work_item ← update_item_tx current token (rejected_item failure_detail released_lease_at current);
    event_room_id ← in_factory (factory_event_room_id_tx corp (fw_mission_id work_item));
    event ← append_new_event
      (at_version event_room_id (fw_version work_item)
         (reject_event corp current work_item (rj_actor_id input)))
      "factory materialization-rejection event unexpectedly existed";
    mret (work_item, Some event).

(** The clock is read before the transaction and again for a replay. *)
Definition reject_factory_materialization (env : exec_env) (replay_now : timestamp) (input : reject_input) :
    txn exec_db work_item_outcome :=
  prepared ← lift (prepare_reject input);
  let '(failure_detail, key) := prepared in
  let corp := rj_corp_id input in
  let released_lease_at := (xe_now env - seconds 1)%Z in
  assert_actor_scope_tx corp (rj_actor_id input);;
  operation ← in_factory (factory_operation_tx corp key);
  match operation with
  | Some operation =>
      in_factory (fenced_replay (at_clock replay_now) operation "materialize_rejected" corp
        (rj_work_item_id input) (rj_actor_id input) (rj_claim_token input)
        (rejection_request input failure_detail)
        "idempotent factory materialization rejection references a missing work item")
  | None =>
      row ← in_factory (factory_work_item_tx corp (rj_work_item_id input));
      row ← lift (with_context row "factory work item not found");
      let '(current, token) := row in
      lift (check_rejectable input current token);;
      outcome ← reject_current released_lease_at input failure_detail current token;
      let '(work_item, event) := outcome in
      in_factory (record_factory_operation_tx corp key
        (fenced_operation work_item (rj_actor_id input) "materialize_rejected" (rj_claim_token input)
           (rejection_request input failure_detail)));;
      mret (FactoryWorkItemOutcome work_item None event false)
  end.

(** ** Creating the mission of an item *)

(** ORDER BY created_at, id *)
Definition earlier_task (x y : uuid * x_task) : bool :=
  (ta_created_at x.2 <? ta_created_at y.2)%Z
  || ((ta_created_at x.2 =? ta_created_at y.2)%Z && (x.1 <=? y.1)%N).
Definition tasks_of_mission (corp mission : uuid) (db : exec_db) : list uuid :=
  (sort_by earlier_task
     (List.filter (λ x, task_in corp mission x.2) (map_to_list (co_tasks (x_core db))))).*1.
Definition mission_in (corp mission : uuid) (db : exec_db) : option x_mission :=
  m ← mission_of db mission; if (mi_corp m =? corp)%N then Some m else None.

Definition factory_mission_details_tx (corp mission_id actor_id : uuid) :
    txn exec_db (mission_plan_ids * string) :=
  assert_mission_operator_tx corp actor_id;;
  mission ← fetch_one (mission_in corp mission_id) "factory mission linkage references a missing mission";
  actor_role_tx corp (mi_room mission) actor_id;;
  task_ids ← gets (tasks_of_mission corp mission_id);
  lift (bail_if (vec_is_empty task_ids) "factory mission linkage has no tasks");;
  mret (MissionPlanIds mission_id task_ids, mi_strategy mission).

(** A known key: the mission of the item, read again with the authority of today. *)
Definition materialize_replay (input : materialize_input) (operation_request : json)
    (operation : factory_operation) : txn exec_db mission_outcome :=
  let corp := mt_corp_id input in
  lift (ensure_factory_operation_matches operation "materialize" (mt_actor_id input)
          (Some (mt_work_item_id input)) (Some (mt_claim_token input)) operation_request);;
  row ← in_factory (factory_work_item_tx corp (mt_work_item_id input));
  row ← lift (with_context row "idempotent factory materialization references a missing work item");
  let '(work_item, _) := row in
  lift (validate_request (fw_policy work_item) operation_request);;
  mission_id ← lift (with_context (fw_mission_id work_item)
                       "idempotent factory materialization has no mission linkage");
  details ← factory_mission_details_tx corp mission_id (mt_actor_id input);
  let '(ids, strategy) := details in
  mret (FactoryMissionOutcome work_item ids strategy [] true).

Definition replay_factory_materialization (input : materialize_input) :
    txn exec_db (option mission_outcome) :=
  lift (bail_if (mt_expected_version input <=? 0)%Z
          "expected factory work-item version must be positive");;
  key ← lift (normalize_factory_idempotency_key (mt_idempotency_key input));
  operation_request ← lift (normalize_factory_operation_request (mt_request input));
  assert_actor_scope_tx (mt_corp_id input) (mt_actor_id input);;
  operation ← in_factory (factory_operation_tx (mt_corp_id input) key);
  match operation with
  | None => mret None
  | Some operation => outcome ← materialize_replay input operation_request operation; mret (Some outcome)
  end.

(** mission_id is UNIQUE *)
Definition mission_linked (id mission : uuid) (db : exec_db) : bool :=
  existsb (λ '(id', (item, _)), negb (id' =? id)%N && bool_decide (fw_mission_id item = Some mission))
    (map_to_list (si_items (x_side db))).
Definition linked_item (mission : uuid) (current : factory_work_item) (version : Z) : factory_work_item :=
  FactoryWorkItem (fw_id current) (fw_corp_id current) (fw_source_kind current) (fw_source current)
    MissionCreated version (fw_claim_owner_id current) (fw_lease_expires_at current) (fw_policy current)
    (Some mission) None.
Definition linked_event (corp : uuid) (room causation : option uuid) (item : factory_work_item)
    (actor : uuid) (ids : mission_plan_ids) : new_event :=
  let mission := mp_mission_id ids in
  NewEvent corp room (Some actor) "factory.mission_linked" "factory_work_item" (fw_id item)
    (fw_version item) (Some mission) causation
    ("factory:" +:+ uuid_to_string (fw_id item) +:+ ":mission:" +:+ uuid_to_string mission) "corp"
    (json_object [("mission_id", json_uuid mission); ("task_ids", JArr (json_uuid <$> mp_task_ids ids));
                  ("state", JStr (item_state_as_str (fw_state item)))]).

(** The checks of the plan against the item, and the plan with its source pinned. *)
Definition constrain_plan (current : factory_work_item) (operation_request : json)
    (plan : task_graph_plan) : result task_graph_plan :=
  validate_request (fw_policy current) operation_request;;
  constrained_plan ← apply_factory_source_constraints current plan;
  validate_factory_plan_against_policy current constrained_plan;;
  Ok constrained_plan.

(** [planned_event] is the identifier the last event of the mission was given. *)
Definition materialize_new (env : exec_env) (planned_event : uuid) (input : materialize_input)
    (title key : string) (operation_request : json) (plan : task_graph_plan) :
    txn exec_db mission_outcome :=
  let corp := mt_corp_id input in
  let actor := mt_actor_id input in
  row ← in_factory (factory_work_item_tx corp (mt_work_item_id input));
  row ← lift (with_context row "factory work item not found");
  let '(current, token) := row in
  lift (ensure_materializable_factory_claim current token actor (mt_claim_token input)
          (mt_expected_version input) (xe_now env));;
  constrained_plan ← lift (constrain_plan current operation_request plan);
  created ← create_mission_tx env corp actor title (mt_description input) constrained_plan;
  let '(ids, events) := created in
  require_new (mission_linked (fw_id current) (mp_mission_id ids));;
  work_item ← update_item_tx current token (linked_item (mp_mission_id ids) current);
  in_factory (record_factory_operation_tx corp key
    (fenced_operation work_item actor "materialize" (mt_claim_token input) operation_request));;
  factory_event ← append_new_event
    (linked_event corp (e ← head events; ev_room_id e)
       (match events with [] => None | _ => Some planned_event end) work_item actor ids)
    "factory mission-link event unexpectedly existed";
  mret (FactoryMissionOutcome work_item ids (plan_strategy constrained_plan) (events ++ [factory_event]) false).

Definition materialize_factory_mission (env : exec_env) (planned_event : uuid)
    (input : materialize_input) (plan : task_graph_plan) : txn exec_db mission_outcome :=
  lift (bail_if (mt_expected_version input <=? 0)%Z
          "expected factory work-item version must be positive");;
  title ← lift (normalize_mission_title (mt_title input));
  key ← lift (normalize_factory_idempotency_key (mt_idempotency_key input));
  operation_request ← lift (normalize_factory_operation_request (mt_request input));
  assert_actor_scope_tx (mt_corp_id input) (mt_actor_id input);;
  operation ← in_factory (factory_operation_tx (mt_corp_id input) key);
  match operation with
  | Some operation => materialize_replay input operation_request operation
  | None => materialize_new env planned_event input title key operation_request plan
  end.

(** ** The checks before a claim, and the mission without an item *)
Definition preflight_factory_mission (input : preflight_input) (plan : task_graph_plan) :
    txn exec_db task_graph_plan :=
  lift (normalize_mission_title (pf_title input));;
  lift (normalize_mission_description (pf_description input));;
  operation_request ← lift (normalize_factory_operation_request (pf_request input));
  lift (validate_request (pf_policy input) operation_request);;
  constrained_plan ← lift (preflight_factory_plan (pf_source_repository_owner input)
                             (pf_source_repository_name input) (pf_policy input) plan);
  assert_actor_scope_tx (pf_corp_id input) (pf_actor_id input);;
  room ← plan_room_tx (pf_corp_id input) (pf_actor_id input) constrained_plan;
  (match room with
   | Some _ => mret tt
   | None =>
       fetch_one (room_of_actor (pf_corp_id input) (pf_actor_id input))
         "forbidden: actor is not a member of any room in this Corp";; mret tt
   end);;
  mret constrained_plan.

Definition validate_mission_creation (corp requester : uuid) (title description : string)
    (plan : task_graph_plan) : txn exec_db unit :=
  mission_creation_admission_tx corp requester title description plan;; mret tt.
Definition create_mission (env : exec_env) (corp requester : uuid) (title description : string)
    (plan : task_graph_plan) : txn exec_db (mission_plan_ids * list new_event) :=
  create_mission_tx env corp requester title description plan.

(** ** Reads *)

(** The EXISTS query over events of type run.started. *)
Definition run_has_started (corp run : uuid) (db : exec_db) : bool :=
  existsb (λ e, (ev_corp_id e =? corp)%N && seqb (ev_aggregate_type e) "run"
                && (ev_aggregate_id e =? run)%N && seqb (ev_type e) "run.started") (x_log db).
Definition has_no_dependency (task_id : uuid) (db : exec_db) : bool :=
  negb (existsb (λ '(t, _), (t =? task_id)%N) (co_dependencies (x_core db))).
Definition launched (corp mission : uuid) (db : exec_db) (run_id : uuid) (r : x_run) : bool :=
  let b := rn_binding r in
  match task_of db (rb_task b) with
  | Some t =>
      (rb_corp b =? ta_corp t)%N && task_in corp mission t
      && negb (not_distinct (rw_detail (rn_workspace r)) (Some "dispatch_not_started"))
      && run_has_started corp run_id db && has_no_dependency (rb_task b) db
  | None => false
  end.

(** DISTINCT ON (task.id) over rows in that order: the first of each task. *)
Fixpoint first_of_tasks (seen : gset uuid) (rows : list (uuid * x_run)) : list (uuid * x_run) :=
  match rows with
  | [] => []
  | row :: rest =>
      let task := rb_task (rn_binding row.2) in
      if bool_decide (task ∈ seen) then first_of_tasks seen rest
      else row :: first_of_tasks ({[task]} ∪ seen) rest
  end.
Definition initial_runs (corp mission : uuid) (db : exec_db) : list (uuid * x_run) :=
  first_of_tasks ∅
    (sort_by earlier_run
       (List.filter (λ x, launched corp mission db x.1 x.2) (map_to_list (co_runs (x_core db))))).

Definition mission_launch_runs (corp mission actor : uuid) : txn exec_db (list (uuid * string)) :=
  assert_mission_operator_tx corp actor;;
  m ← fetch_one (mission_in corp mission) "mission not found in this Corp";
  assert_room_membership_tx corp (mi_room m) actor;;
  if negb (bool_decide (mi_status m = MissionStatus.Running)
           || bool_decide (mi_status m = MissionStatus.Completed))
  then mret []
  else gets (λ db, (λ x, (x.1, rb_runner (rn_binding x.2))) <$> initial_runs corp mission db).

(** SELECT DISTINCT t.mission_id .. ORDER BY t.mission_id *)
Definition schedulable_mission_ids (corp : uuid) (db : exec_db) : list uuid :=
  sort_by N.leb
    (List.filter (λ mission, negb (vec_is_empty (schedulable_tasks corp mission false db)))
       (map_to_list (co_missions (x_core db))).*1).
End materialization.
