(* ===== verification/PublicationRules.v ===== *)
(** * The rules of publication (crates/crony-store: publication.rs, checkpoint_publication.rs)

    What the publication of a pull request decides without the database: the
    normalisation of its requests, the order of its states, the identity a pull
    request must have, when a URL names it, the lineage of the run that is
    published, and the provenance record with its upgrades from older schemas. *)
From S2P Require Import Prelude Text Json Domain Planning FactoryPolicy.
From Stdlib Require Import Ascii.
Import PublicationState (publication_state_as_str).

(** ** Rows *)

(** The columns that are set when a publication is inserted. *)
Record publication_effect := PublicationEffect {
  pe_id : uuid; pe_corp_id : uuid; pe_factory_work_item_id : uuid; pe_mission_id : uuid;
  pe_source_deliverable_id : uuid; pe_artifact_id : uuid; pe_task_id : uuid; pe_run_id : uuid;
  pe_source_issue_number : Z; pe_source_issue_url : string; pe_target_repository : string;
  pe_base_ref : string; pe_branch : string; pe_commit_sha : string; pe_title : string;
  pe_body : string; pe_actor_id : uuid; pe_authorization_id : uuid;
  pe_authorization_snapshot : json; pe_effect_key : string; pe_idempotency_key : string;
  pe_project_owner : string; pe_project_number : Z; pe_project_item_id : string;
  pe_project_status_before : string; pe_auto_merge_enabled : bool; pe_merge_authorized : bool;
  pe_deployment_authorized : bool; }.

(** The columns [pull_request_*]. *)
Record pull_request_columns := PullRequestColumns {
  pr_number : option Z; pr_node_id : option string; pr_url : option string;
  pr_state : option string; pr_draft : option bool; pr_base_ref : option string;
  pr_head_sha : option string; pr_head_repository_owner : option string;
  pr_is_cross_repository : option bool; }.
Definition no_pull_request : pull_request_columns :=
  PullRequestColumns None None None None None None None None None.

Record publication := PullRequestPublication {
  pb_effect : publication_effect;
  pb_state : publication_state;
  pb_version : Z;
  pb_attempt_count : Z;
  pb_publisher_id : option string;
  pb_publisher_lease_expires_at : option timestamp;
  pb_failure_detail : option string;
  pb_branch_pushed_at : option timestamp;
  pb_pull_request : pull_request_columns;
  pb_project_status_after : option string;
  pb_project_status_updated_at : option timestamp;
  pb_provenance : json;
}.
Definition pb_id (p : publication) : uuid := pe_id (pb_effect p).
Definition pb_corp_id (p : publication) : uuid := pe_corp_id (pb_effect p).

(** ** Requests *)
Record start_publication_input := StartPullRequestPublicationInput {
  sp_corp_id : uuid; sp_work_item_id : uuid; sp_actor_id : uuid; sp_actor_role : string;
  sp_source_deliverable_id : uuid; sp_target_repository : string; sp_base_ref : string;
  sp_branch : string; sp_title : string; sp_body : string; sp_authorization_id : uuid;
  sp_authorization_reason : string; sp_effect_key : string; sp_idempotency_key : string;
  sp_publisher_id : string; sp_publisher_credential_hash : string; sp_lease_seconds : Z; }.

Record renew_publication_input := RenewPullRequestPublicationInput {
  rp_corp_id : uuid; rp_publication_id : uuid; rp_actor_id : uuid; rp_publisher_id : string;
  rp_publisher_credential_hash : string; rp_publisher_token : uuid; rp_expected_version : Z;
  rp_idempotency_key : string; rp_lease_seconds : Z; }.

(** The fields of [PullRequestCreated]. *)
Record pull_request_report := PullRequestReport {
  rr_number : Z; rr_node_id : string; rr_url : string; rr_state : string; rr_draft : bool;
  rr_title : string; rr_body : string; rr_head_ref : string; rr_base_ref : string;
  rr_head_sha : string; rr_head_repository_owner : string; rr_is_cross_repository : bool;
  rr_auto_merge_enabled : bool; }.

Inductive publication_checkpoint :=
| CheckpointBranchPushed (commit_sha : string)
| CheckpointPullRequestCreated (report : pull_request_report)
| CheckpointPublished (project_status project_field_id project_option_id : string)
| CheckpointFailed (failure_detail : string).

Record checkpoint_publication_input := RecordPullRequestPublicationCheckpointInput {
  cp_corp_id : uuid; cp_publication_id : uuid; cp_actor_id : uuid; cp_publisher_id : string;
  cp_publisher_credential_hash : string; cp_publisher_token : uuid; cp_expected_version : Z;
  cp_idempotency_key : string; cp_checkpoint : publication_checkpoint; }.

(** ** Normalisation *)
Definition normalize_publication_body (value : string) : result string :=
  let value := replace carriage_return newline (replace (carriage_return +:+ newline) newline value) in
  let value := trim value in
  bail_if (is_empty value) "pull request body cannot be empty";;
  bail_if (65536 <? str_len value)%Z "pull request body cannot exceed 65536 bytes";;
  bail_if (contains nul value) "pull request body cannot contain NUL bytes";;
  Ok value.

Definition validate_publication_lease_seconds (value : Z) : result Z :=
  bail_if (negb (in_range 5 3600 value)) "publication lease must be between 5 and 3600 seconds";;
  Ok value.

Definition normalize_publication_publisher_credential_hash (value : string) : result string :=
  let value := to_ascii_lowercase (trim value) in
  bail_if (negb (str_len value =? 64)%Z || negb (all_bytes is_ascii_hexdigit value))
    "forbidden: invalid publication publisher credential";;
  Ok value.

Definition normalize_target_repository (value : string) : result string :=
  match split_on "/"%char (trim value) with
  | [] => Err "publication target repository omitted owner"
  | [_] => Err "publication target repository omitted name"
  | [owner; name] =>
      owner ← normalize_github_component owner "publication repository owner" 100;
      name ← normalize_github_component name "publication repository name" 100;
      Ok (owner +:+ "/" +:+ name)
  | _ => Err "publication target repository must use owner/name form"
  end.

Definition normalize_start_input (input : start_publication_input) : result start_publication_input :=
  target_repository ← normalize_target_repository (sp_target_repository input);
  base_ref ← normalize_factory_identifier (sp_base_ref input) "publication base ref" 240;
  validate_factory_base_ref base_ref;;
  branch ← normalize_factory_identifier (sp_branch input) "publication branch" 500;
  validate_factory_branch_ref branch;;
  bail_if (seqb branch base_ref) "publication branch must differ from the target base ref";;
  title ← normalize_factory_text (sp_title input) "pull request title" 256;
  body ← normalize_publication_body (sp_body input);
  authorization_reason ← normalize_factory_text (sp_authorization_reason input)
                           "publication authorization reason" 2000;
  effect_key ← normalize_factory_identifier (sp_effect_key input) "publication effect key" 500;
  idempotency_key ← normalize_factory_identifier (sp_idempotency_key input)
                      "publication idempotency key" 500;
  publisher_id ← normalize_factory_identifier (sp_publisher_id input) "trusted publisher id" 160;
  credential ← normalize_publication_publisher_credential_hash (sp_publisher_credential_hash input);
  actor_role ← normalize_factory_identifier (sp_actor_role input) "actor role" 40;
  lease_seconds ← validate_publication_lease_seconds (sp_lease_seconds input);
  Ok (StartPullRequestPublicationInput (sp_corp_id input) (sp_work_item_id input)
        (sp_actor_id input) actor_role (sp_source_deliverable_id input) target_repository base_ref
        branch title body (sp_authorization_id input) authorization_reason effect_key
        idempotency_key publisher_id credential lease_seconds).

Definition normalize_publication_failure (value : string) : result string :=
  normalize_factory_text (join " " (split_whitespace value)) "publication failure detail" 2000.

Definition report_json (r : pull_request_report) : json :=
  json_object
    [("kind", JStr "pull_request_created"); ("number", JInt (rr_number r));
     ("node_id", JStr (rr_node_id r)); ("url", JStr (rr_url r)); ("state", JStr (rr_state r));
     ("draft", JBool (rr_draft r)); ("title", JStr (rr_title r)); ("body", JStr (rr_body r));
     ("head_ref", JStr (rr_head_ref r)); ("base_ref", JStr (rr_base_ref r));
     ("head_sha", JStr (rr_head_sha r));
     ("head_repository_owner", JStr (rr_head_repository_owner r));
     ("is_cross_repository", JBool (rr_is_cross_repository r));
     ("auto_merge_enabled", JBool (rr_auto_merge_enabled r))].

Definition normalize_report (r : pull_request_report) : result pull_request_report :=
  bail_if (rr_number r <=? 0)%Z "pull request number must be positive";;
  node_id ← normalize_factory_identifier (rr_node_id r) "pull request node id" 200;
  url ← normalize_factory_text (rr_url r) "pull request URL" 500;
  state ← normalize_factory_identifier (rr_state r) "pull request state" 40;
  title ← normalize_factory_text (rr_title r) "pull request title" 256;
  body ← normalize_publication_body (rr_body r);
  head_ref ← normalize_factory_identifier (rr_head_ref r) "pull request head ref" 500;
  base_ref ← normalize_factory_identifier (rr_base_ref r) "pull request base ref" 500;
  validate_factory_base_ref base_ref;;
  let head_sha := to_ascii_lowercase (trim (rr_head_sha r)) in
  validate_factory_base_commit head_sha;;
  head_repository_owner ← normalize_github_component (rr_head_repository_owner r)
                            "pull request head repository owner" 100;
  Ok (PullRequestReport (rr_number r) node_id url (to_ascii_uppercase state) (rr_draft r) title body
        head_ref base_ref head_sha head_repository_owner (rr_is_cross_repository r)
        (rr_auto_merge_enabled r)).

(** The operation's name, the normalised checkpoint and the recorded request. *)
Definition normalize_checkpoint (checkpoint : publication_checkpoint) :
    result (string * publication_checkpoint * json) :=
  match checkpoint with
  | CheckpointBranchPushed commit_sha =>
      let commit_sha := to_ascii_lowercase (trim commit_sha) in
      validate_factory_base_commit commit_sha;;
      Ok ("branch_pushed", CheckpointBranchPushed commit_sha,
          json_object [("kind", JStr "branch_pushed"); ("commit_sha", JStr commit_sha)])
  | CheckpointPullRequestCreated report =>
      report ← normalize_report report;
      Ok ("pull_request_created", CheckpointPullRequestCreated report, report_json report)
  | CheckpointPublished project_status project_field_id project_option_id =>
      project_status ← normalize_factory_text project_status "GitHub Project status" 100;
      project_field_id ← normalize_factory_identifier project_field_id "GitHub Project field id" 200;
      project_option_id ← normalize_factory_identifier project_option_id
                            "GitHub Project option id" 200;
      Ok ("published", CheckpointPublished project_status project_field_id project_option_id,
          json_object [("kind", JStr "published"); ("project_status", JStr project_status);
                       ("project_field_id", JStr project_field_id);
                       ("project_option_id", JStr project_option_id)])
  | CheckpointFailed failure_detail =>
      failure_detail ← normalize_publication_failure failure_detail;
      Ok ("failed", CheckpointFailed failure_detail,
          json_object [("kind", JStr "failed"); ("failure_detail", JStr failure_detail)])
  end.

(** ** States *)
Definition publication_state_rank (state : publication_state) : Z :=
  match state with
  | PublicationState.Requested => 0
  | PublicationState.Publishing => 1
  | PublicationState.BranchPushed => 2
  | PublicationState.PullRequestCreated => 3
  | PublicationState.Published => 4
  end.

(** ** The identity of a pull request *)
Definition github_pull_request_url_matches (url target_repository : string) (number : Z) : bool :=
  match strip_prefix "https://github.com/" (trim_end_matches "/"%char url) with
  | None => false
  | Some path =>
      match split_on "/"%char path with
      | [url_owner; url_repository; pull; url_number] =>
          if seqb pull "pull" && seqb url_number (show_int number) then
            match split_once "/"%char target_repository with
            | None => false
            | Some (target_owner, target_name) =>
                eq_ignore_ascii_case url_owner target_owner
                && eq_ignore_ascii_case url_repository target_name
            end
          else false
      | _ => false
      end
  end.

(** [value.trim_start_matches(prefix)] *)
Fixpoint trim_start_matches_from (fuel : nat) (prefix value : string) : string :=
  match fuel with
  | O => value
  | S fuel =>
      match strip_prefix prefix value with
      | Some rest => trim_start_matches_from fuel prefix rest
      | None => value
      end
  end.
Definition trim_start_matches (prefix value : string) : string :=
  trim_start_matches_from (String.length value) prefix value.

Definition validate_pull_request_identity (publication : publication) (r : pull_request_report) :
    result unit :=
  let e := pb_effect publication in
  bail_if (rr_auto_merge_enabled r) "factory publication refuses pull requests with auto-merge enabled";;
  bail_if (negb (seqb (rr_state r) "OPEN"))
    ("factory publication requires an open pull request, not " +:+ rr_state r);;
  bail_if (negb (seqb (rr_title r) (pe_title e)) || negb (seqb (rr_body r) (pe_body e)))
    "pull request title or body does not match the authorized publication content";;
  bail_if (negb (seqb (rr_head_ref r) (pe_branch e)))
    "pull request head does not match the authorized publication target";;
  bail_if (seqb (rr_head_ref r) (rr_base_ref r))
    "pull request head branch must differ from its resolved base branch";;
  (if seqb (pe_base_ref e) "HEAD" then
     bail_if (seqb (rr_base_ref r) "HEAD" || starts_with "refs/" (rr_base_ref r))
       "symbolic publication base HEAD must resolve to an explicit GitHub branch name"
   else
     bail_if (negb (seqb (rr_base_ref r) (trim_start_matches "refs/heads/" (pe_base_ref e))))
       "pull request base does not match the authorized publication target");;
  target ← with_context (split_once "/"%char (pe_target_repository e))
             "publication target repository omitted owner";
  bail_if (rr_is_cross_repository r
           || negb (eq_ignore_ascii_case (rr_head_repository_owner r) target.1)
           || negb (eq_ignore_ascii_case (rr_head_sha r) (pe_commit_sha e)))
    "pull request head repository or commit does not match the verified publication target";;
  bail_if (negb (github_pull_request_url_matches (rr_url r) (pe_target_repository e) (rr_number r)))
    "pull request URL does not match the authorized repository and number".

(** The columns the report is stored in. *)
Definition report_columns (r : pull_request_report) : pull_request_columns :=
  PullRequestColumns (Some (rr_number r)) (Some (rr_node_id r)) (Some (rr_url r)) (Some (rr_state r))
    (Some (rr_draft r)) (Some (rr_base_ref r)) (Some (rr_head_sha r))
    (Some (rr_head_repository_owner r)) (Some (rr_is_cross_repository r)).

#[global] Instance pull_request_columns_eq : EqDecision pull_request_columns.
Proof. solve_decision. Defined.

(** Nine comparisons, column by column. *)
Definition ensure_pull_request_identity_matches (publication : publication) (r : pull_request_report) :
    result unit :=
  bail_if (negb (bool_decide (pb_pull_request publication = report_columns r)))
    "conflict: pull request identity does not match the durable publication".

(** ** The lineage of the published run *)
Section lineage.
Context `{Serde}.

(** The [while] loop: [lineage] has the runs already visited. *)
Fixpoint lineage_loop (fuel : nat) (parents : list (uuid * option uuid)) (lineage : gset uuid)
    (current : option uuid) : result (gset uuid) :=
  match current, fuel with
  | None, _ => Ok lineage
  | Some _, O => Err "out of fuel"
  | Some run_id, S fuel =>
      if bool_decide (run_id ∈ lineage)
      then Err "pull-request publication run lineage contains a resume cycle"
      else
        parent ← with_context (snd <$> find (λ edge, (edge.1 =? run_id)%N) parents)
          ("pull-request publication run lineage references run " +:+ uuid_to_string run_id
           +:+ " outside the factory mission");
        lineage_loop fuel parents ({[run_id]} ∪ lineage) parent
  end.

Definition publication_resume_lineage (selected_run_id : uuid) (resume_edges : list (uuid * option uuid)) :
    result (gset uuid) :=
  bail_if (negb (bool_decide (NoDup resume_edges.*1)))
    "pull-request publication run lineage contains duplicate run identifiers";;
  lineage_loop (S (length resume_edges)) resume_edges ∅ (Some selected_run_id).
End lineage.

Definition historical_suspend_is_recovered (run_id selected_run_id : uuid) (breaker_stage : string)
    (selected_lineage : gset uuid) : bool :=
  negb (run_id =? selected_run_id)%N && seqb breaker_stage "suspend"
  && bool_decide (run_id ∈ selected_lineage).

Definition ensure_recovered_suspend_loop_metrics_allow_publication
    (no_progress_events repeated_tool_count no_progress_limit repeated_tool_limit : Z) : result unit :=
  bail_if (((0 <? no_progress_limit) && (no_progress_limit <=? no_progress_events))%Z
           || ((0 <? repeated_tool_limit) && (repeated_tool_limit <=? repeated_tool_count))%Z)
    "pull-request publication is blocked because current loop metrics require a hard breaker".

(** A completed recovery: its id, the revision it observed, the run it produced. *)
Definition publication_recovery_for_lineage (completed_recoveries : list (uuid * string * uuid))
    (selected_lineage : gset uuid) : option (uuid * string) :=
  fst <$> find (λ recovery, bool_decide (recovery.2 ∈ selected_lineage)) completed_recoveries.

Definition publication_source_revision (claimed_revision : string)
    (completed_recovery : option (uuid * string)) : string * option uuid :=
  match completed_recovery with
  | Some (recovery_id, observed_revision) => (observed_revision, Some recovery_id)
  | None => (claimed_revision, None)
  end.

(** ** Provenance *)

(** [value[k1][k2].. = new]: a missing key is added, [null] becomes an object,
    anything else panics. *)
Fixpoint index_set (path : list string) (new value : json) : result json :=
  match path with
  | [] => Ok new
  | key :: rest =>
      entries ← match value with
                | JObj entries => Ok entries
                | JNull => Ok []
                | _ => Err ("cannot access key " +:+ key +:+ " in JSON value")
                end;
      inner ← index_set rest new (default JNull (obj_get key entries));
      Ok (JObj (obj_insert key inner entries))
  end.

Inductive source_provenance_state := ProvenanceCurrent | ProvenanceLegacy | ProvenanceInvalid.
#[global] Instance source_provenance_state_eq : EqDecision source_provenance_state.
Proof. solve_decision. Defined.

Section provenance.
Context `{Serde}.

Definition recovery_json (id : option uuid) : json := json_opt_str (uuid_to_string <$> id).

Definition schema_version_of (provenance : json) : option Z := get "schema_version" provenance ≫= as_u64.
Definition source_field (key : string) (provenance : json) : option json :=
  pointer ["source_issue"; key] provenance.

Definition persisted_recovery_of (provenance : json) : result (option uuid) :=
  match source_field "recovery_id" provenance with
  | None | Some JNull => Ok None
  | Some (JStr value) =>
      id ← with_context (uuid_parse_str value) "publication provenance recovery id is invalid";
      Ok (Some id)
  | Some _ => Err "publication provenance recovery id has an invalid type"
  end.

Definition publication_source_provenance_state (provenance : json)
    (claimed_revision effective_revision : string) (recovery_id : option uuid) :
    result source_provenance_state :=
  let schema_version := schema_version_of provenance in
  let persisted_revision := source_field "revision" provenance ≫= as_str in
  if bool_decide (schema_version = Some 1%Z) then
    Ok (if bool_decide (persisted_revision = Some claimed_revision)
        then ProvenanceLegacy else ProvenanceInvalid)
  else if negb (bool_decide (schema_version = Some 2%Z) || bool_decide (schema_version = Some 3%Z)) then
    Ok ProvenanceInvalid
  else
    let persisted_claimed_revision := source_field "claimed_revision" provenance ≫= as_str in
    persisted_recovery ← persisted_recovery_of provenance;
    Ok (if bool_decide (persisted_revision = Some effective_revision)
           && bool_decide (persisted_claimed_revision = Some claimed_revision)
           && bool_decide (persisted_recovery = recovery_id)
        then ProvenanceCurrent else ProvenanceInvalid).

Definition upgrade_publication_source_provenance (provenance : json)
    (claimed_revision effective_revision : string) (recovery_id : option uuid) : result json :=
  state ← publication_source_provenance_state provenance claimed_revision effective_revision recovery_id;
  bail_if (negb (bool_decide (state = ProvenanceLegacy)))
    "publication provenance is not an upgradeable schema-version-1 record";;
  root ← with_context (as_object provenance) "publication provenance must be an object";
  let root := obj_insert "schema_version" (JInt 2) root in
  source_issue ← with_context (obj_get "source_issue" root ≫= as_object)
                   "publication provenance omitted source issue";
  let source_issue := obj_insert "revision" (JStr effective_revision) source_issue in
  let source_issue := obj_insert "claimed_revision" (JStr claimed_revision) source_issue in
  let source_issue := obj_insert "recovery_id" (recovery_json recovery_id) source_issue in
  Ok (JObj (obj_insert "source_issue" (JObj source_issue) root)).

(** checkpoint_publication.rs *)
Definition provenance_matches (persisted : json) (expected : option json) : bool :=
  match expected with
  | Some expected => bool_decide (get "checkpoint" persisted = Some expected)
  | None => match get "checkpoint" persisted with None => true | Some proof => is_null proof end
  end.

Definition revalidated_provenance (persisted : json) (expected : option json) : result json :=
  let schema := schema_version_of persisted in
  let legacy := bool_decide (schema = Some 1%Z) || bool_decide (schema = Some 2%Z) in
  bail_if (negb legacy && negb (bool_decide (schema = Some 3%Z)))
    "unsupported publication provenance schema";;
  upgraded ←
    match expected with
    | Some expected =>
        match non_null (get "checkpoint" persisted) with
        | Some proof =>
            bail_if (negb (bool_decide (proof = expected))) "publication checkpoint provenance changed"
        | None => bail_if (negb legacy) "publication checkpoint provenance is missing"
        end;;
        if legacy then
          upgraded ← index_set ["checkpoint"] expected persisted;
          index_set ["schema_version"] (JInt 3) upgraded
        else Ok persisted
    | None =>
        bail_if (bool_decide (schema = Some 3%Z)) "checkpoint publication lost its native authority";;
        Ok persisted
    end;
  bail_if (negb (provenance_matches upgraded expected))
    "publication authority no longer matches its checkpoint provenance";;
  Ok upgraded.
End provenance.

(** ** Lemmas: the lineage *)
Section lineage_lemmas.
Context `{Serde}.
Context (edges : list (uuid * option uuid)) (Hnd : NoDup edges.*1).

(** The runs from [id] to one that resumes nothing, along the edges. *)
Inductive resume_chain : uuid → list uuid → Prop :=
| chain_root id : (id, None) ∈ edges → resume_chain id [id]
| chain_parent id parent path : (id, Some parent) ∈ edges → resume_chain parent path →
    resume_chain id (id :: path).

Lemma parent_of id parent :
  snd <$> find (λ edge, (edge.1 =? id)%N) edges = Some parent ↔ (id, parent) ∈ edges.
Proof using Hnd.
  clear -Hnd. induction edges as [|[x q] l IH]; simpl; [set_solver |].
  apply NoDup_cons in Hnd as [Hx Hl]. destruct (N.eqb_spec x id) as [-> | Hne]; simpl.
  - split; [intros [= ->]; left |]. intros [[= <-] | Hin]%elem_of_cons; [done |].
    destruct Hx. simpl. apply list_elem_of_fmap. by exists (id, parent).
  - rewrite IH by done. rewrite elem_of_cons. naive_solver.
Qed.

Lemma chain_head id path : resume_chain id path → ∃ rest, path = id :: rest.
Proof using Type. destruct 1; eauto. Qed.

Lemma chain_functional id path path' : resume_chain id path → resume_chain id path' → path = path'.
Proof using Hnd.
  intros Hc. revert path'. induction Hc as [id Hin | id parent path Hin Hc IH]; intros path'' Hc';
    inversion Hc' as [? Hin' | ? parent' ? Hin' Hc'']; subst;
    apply parent_of in Hin, Hin'; rewrite Hin in Hin'; simplify_eq; [done |]. f_equal. by apply IH.
Qed.

Lemma chain_suffix id path x : resume_chain id path → x ∈ path →
  ∃ path', resume_chain x path' ∧ (length path' ≤ length path)%nat.
Proof using Type.
  induction 1 as [id Hin | id parent path Hin Hc IH]; intros Hx.
  - apply list_elem_of_singleton in Hx as ->. exists [id]. split; [by constructor | done].
  - apply elem_of_cons in Hx as [-> | Hx].
    + exists (id :: path). split; [by econstructor | done].
    + destruct (IH Hx) as (path' & Hp & Hl). exists path'. split; [done | simpl; lia].
Qed.

Lemma chain_nodup id path : resume_chain id path → NoDup path.
Proof using Hnd.
  induction 1 as [id Hin | id parent path Hin Hc IH]; [apply NoDup_singleton |].
  constructor; [| done]. intros Hx. destruct (chain_suffix _ _ _ Hc Hx) as (path' & Hp & Hl).
  assert (resume_chain id (id :: path)) as Hc' by (by econstructor).
  pose proof (chain_functional _ _ _ Hc' Hp) as <-. simpl in Hl. lia.
Qed.

Lemma chain_edges id path x : resume_chain id path → x ∈ path → x ∈ edges.*1.
Proof using Type.
  induction 1 as [id Hin | id parent path Hin Hc IH].
  - intros ->%list_elem_of_singleton. apply list_elem_of_fmap. by exists (id, None).
  - intros [-> | Hx]%elem_of_cons; [| by apply IH]. apply list_elem_of_fmap. by exists (id, Some parent).
Qed.

Lemma loop_chain fuel : ∀ lineage id result, lineage_loop fuel edges lineage (Some id) = Ok result →
  ∃ path, resume_chain id path ∧ result = list_to_set path ∪ lineage.
Proof using Hnd.
  induction fuel as [|fuel IH]; intros lineage id result; simpl; [done |].
  case_bool_decide; [done |]. intros Hl. apply bind_ok in Hl as (parent & Hp%with_context_ok & Hl).
  apply parent_of in Hp. destruct parent as [parent|].
  - apply IH in Hl as (path & Hc & ->). exists (id :: path). split; [by econstructor | set_solver].
  - destruct fuel; simpl in Hl; simplify_eq; (exists [id]; split; [by constructor | set_solver]).
Qed.

Lemma chain_loop id path : resume_chain id path → ∀ fuel lineage, (length path ≤ fuel)%nat →
  (∀ x, x ∈ path → x ∉ lineage) →
  lineage_loop fuel edges lineage (Some id) = Ok (list_to_set path ∪ lineage).
Proof using Hnd.
  intros Hc. pose proof (chain_nodup _ _ Hc) as Hn.
  induction Hc as [id Hin | id parent path Hin Hc IH]; intros [|fuel] lineage Hf Hfresh; simpl in *; try lia;
    rewrite bool_decide_eq_false_2 by (apply Hfresh; set_solver).
  - apply parent_of in Hin. rewrite Hin. simpl. destruct fuel; simpl; f_equal; set_solver.
  - apply parent_of in Hin. rewrite Hin. simpl. apply NoDup_cons in Hn as [Hid Hn].
    rewrite IH; [f_equal; set_solver | done | lia | set_solver].
Qed.
End lineage_lemmas.


(** ** Lemmas: URLs *)
Definition no_slash (s : string) : Prop := ∀ a b, s ≠ a +:+ String "/"%char b.

Lemma digits_no_slash s : all_bytes is_ascii_digit s = true → no_slash s.
Proof.
  intros Hd a b ->. rewrite all_bytes_app in Hd. apply andb_true_iff in Hd as [_ Hd]. done.
Qed.

(** A URL names a pull request exactly: the check accepts a URL, up to trailing
    slashes, if and only if it is https://github.com/owner/name/pull/number with
    the number as decimal digits and the owner and the name of the target
    repository up to the case of ASCII letters. *)
Theorem pull_request_url_exact url repository number : (0 < number)%Z →
  github_pull_request_url_matches url repository number = true ↔
  ∃ owner name target_owner target_name,
    split_once "/"%char repository = Some (target_owner, target_name) ∧
    trim_end_matches "/"%char url =
      "https://github.com/" +:+ owner +:+ "/" +:+ name +:+ "/pull/" +:+ show_int number ∧
    no_slash owner ∧ no_slash name ∧
    to_ascii_lowercase owner = to_ascii_lowercase target_owner ∧
    to_ascii_lowercase name = to_ascii_lowercase target_name.
Proof.
  intros Hpos. unfold github_pull_request_url_matches, eq_ignore_ascii_case. split.
  - destruct (strip_prefix _ _) as [path|] eqn:Hp; [| done]. apply strip_prefix_spec in Hp as ->.
    pose proof (split_on_join "/"%char path) as Hj. pose proof (split_on_component "/"%char path) as Hw.
    destruct (split_on "/"%char path) as [|owner [|name [|pull [|n [|]]]]]; try done.
    destruct (_ && _) eqn:E; [| done]. apply andb_true_iff in E as [->%seqb_eq ->%seqb_eq].
    destruct (split_once _ _) as [[target_owner target_name]|]; [| done].
    intros [Ho%seqb_eq Hn%seqb_eq]%andb_true_iff.
    exists owner, name, target_owner, target_name. split_and!; try done.
    + by rewrite <- Hj.
    + intros a b. apply Hw. left.
    + intros a b. apply Hw. right. left.
  - intros (owner & name & target_owner & target_name & Hs & -> & Ho & Hn & Hlo & Hln).
    rewrite (proj2 (strip_prefix_spec _ _ _) eq_refl).
    change (owner +:+ "/" +:+ name +:+ "/pull/" +:+ show_int number)
      with (owner +:+ String "/" (name +:+ String "/" ("pull" +:+ String "/" (show_int number)))).
    rewrite !split_on_app, (split_on_fresh _ owner Ho), (split_on_fresh _ name Hn).
    rewrite (split_on_fresh _ (show_int number)) by by apply digits_no_slash, show_int_digits.
    simpl. rewrite seqb_refl, Hs. apply andb_true_iff. by rewrite !seqb_eq.
Qed.

(** ** Lemmas: provenance *)
Section provenance_lemmas.
Context `{SerdeLaws}.

Lemma get_insert key value o : get key (JObj (obj_insert key value o)) = Some value.
Proof using Type. apply obj_get_insert. Qed.
Lemma get_insert_ne key key' value o : key ≠ key' →
  get key' (JObj (obj_insert key value o)) = obj_get key' o.
Proof using Type. intros Hne. by apply obj_get_insert_ne. Qed.

Lemma upgrade_ok provenance claimed effective recovery upgraded :
  upgrade_publication_source_provenance provenance claimed effective recovery = Ok upgraded →
  schema_version_of upgraded = Some 2%Z ∧
  (∀ key, key ≠ "schema_version" → key ≠ "source_issue" → get key upgraded = get key provenance) ∧
  publication_source_provenance_state upgraded claimed effective recovery = Ok ProvenanceCurrent.
Proof using Type*.
  unfold upgrade_publication_source_provenance. intros Hu.
  apply bind_ok in Hu as (state & Hst & Hu). apply bind_ok in Hu as ([] & _ & Hu).
  apply bind_ok in Hu as (root & Hroot%with_context_ok & Hu). apply as_object_Some in Hroot as ->.
  apply bind_ok in Hu as (issue & Hissue & Hu). injection Hu as <-.
  set (source := obj_insert "recovery_id" _ _).
  assert (schema_version_of (JObj (obj_insert "source_issue" (JObj source) (obj_insert "schema_version" (JInt 2) root)))
          = Some 2%Z) as Hv.
  { unfold schema_version_of. rewrite get_insert_ne by done. by rewrite obj_get_insert. }
  split_and!; [done | |].
  { intros key Hk1 Hk2. rewrite get_insert_ne by done. by rewrite obj_get_insert_ne. }
  unfold publication_source_provenance_state, persisted_recovery_of, source_field. rewrite Hv. simpl.
  rewrite obj_get_insert. simpl. unfold source.
  rewrite obj_get_insert, !(obj_get_insert_ne "recovery_id") by done.
  rewrite obj_get_insert, (obj_get_insert_ne "claimed_revision") by done. rewrite obj_get_insert. simpl.
  rewrite !bool_decide_eq_true_2 by done. simpl.
  destruct recovery as [r|]; simpl; [| done]. rewrite uuid_round_trip. simpl.
  by rewrite bool_decide_eq_true_2.
Qed.

(** The state reads the schema version and the source issue only. *)
Lemma current_ext q v claimed effective recovery :
  publication_source_provenance_state q claimed effective recovery = Ok ProvenanceCurrent →
  schema_version_of v = schema_version_of q ∨ schema_version_of v = Some 3%Z →
  get "source_issue" v = get "source_issue" q →
  publication_source_provenance_state v claimed effective recovery = Ok ProvenanceCurrent.
Proof using Type.
  intros Hst Hs Hi.
  assert (∀ key, source_field key v = source_field key q) as Hf.
  { intros key. unfold source_field. simpl. by rewrite Hi. }
  revert Hst. unfold publication_source_provenance_state, persisted_recovery_of. rewrite !Hf.
  destruct Hs as [-> | ->]; [done |].
  destruct (bool_decide (schema_version_of q = Some 1%Z)); [by case_bool_decide |].
  rewrite (bool_decide_eq_false_2 (Some 3%Z = Some 1%Z)), (bool_decide_eq_true_2 (Some 3%Z = Some 3%Z)) by done.
  rewrite orb_true_r. simpl. destruct (negb _); [done | tauto].
Qed.

Lemma revalidated_ok q expected v : expected ≠ Some JNull →
  revalidated_provenance q expected = Ok v →
  (∀ key, key ≠ "schema_version" → key ≠ "checkpoint" → get key v = get key q) ∧
  (schema_version_of v = schema_version_of q ∨ schema_version_of v = Some 3%Z) ∧
  revalidated_provenance v expected = Ok v.
Proof using Type.
  unfold revalidated_provenance. intros Hne Hv.
  apply bind_ok in Hv as ([] & Hschema & Hv). apply bind_ok in Hv as (w & Hw & Hv).
  apply bind_ok in Hv as ([] & Hm & Hv). injection Hv as ->.
  destruct expected as [e|].
  2: { apply bind_ok in Hw as ([] & H3 & Hw). injection Hw as <-. split_and!; [done | by left |].
       rewrite Hschema. cbn [mbind result_bind]. rewrite H3. cbn [mbind result_bind]. by rewrite Hm. }
  apply bind_ok in Hw as ([] & Hproof & Hw). destruct (_ || _) eqn:Hlegacy.
  - apply bind_ok in Hw as (u & Hu & Hw). simpl in Hu.
    apply bind_ok in Hu as (root & Hroot & Hu). injection Hu as <-. simpl in Hw. injection Hw as <-.
    assert (q = JObj root) as ->.
    { destruct q; simpl in Hroot; simplify_eq; done. }
    split_and!.
    + intros key Hk1 Hk2. rewrite get_insert_ne by done. by rewrite obj_get_insert_ne.
    + right. unfold schema_version_of. by rewrite get_insert.
    + assert (schema_version_of (JObj (obj_insert "schema_version" (JInt 3) (obj_insert "checkpoint" e root)))
              = Some 3%Z) as Hs by (unfold schema_version_of; by rewrite get_insert).
      rewrite Hs, get_insert_ne, obj_get_insert by done.
      rewrite (bool_decide_eq_false_2 (Some 3%Z = Some 1%Z)), (bool_decide_eq_false_2 (Some 3%Z = Some 2%Z)) by done.
      rewrite (bool_decide_eq_true_2 (Some 3%Z = Some 3%Z)) by done. simpl.
      destruct e; simpl in *; try done; rewrite !bool_decide_eq_true_2 by done; simpl;
        rewrite Hm; done.
  - injection Hw as <-. split_and!; [done | by left |]. rewrite Hlegacy, Hschema. cbn [mbind result_bind].
    rewrite Hproof. cbn [mbind result_bind]. by rewrite Hm.
Qed.
End provenance_lemmas.

Lemma pull_request_url_exact_witness : (0 < 12)%Z ∧ ∃ owner name target_owner target_name,
  split_once "/"%char "acme/app" = Some (target_owner, target_name) ∧
  trim_end_matches "/"%char "https://github.com/Acme/App/pull/12/" =
    "https://github.com/" +:+ owner +:+ "/" +:+ name +:+ "/pull/" +:+ show_int 12 ∧
  no_slash owner ∧ no_slash name ∧
  to_ascii_lowercase owner = to_ascii_lowercase target_owner ∧
  to_ascii_lowercase name = to_ascii_lowercase target_name.
Proof.
  split; [lia |]. apply (pull_request_url_exact "https://github.com/Acme/App/pull/12/" "acme/app" 12); [lia |].
  vm_compute. reflexivity.
Defined.
