(* ===== verification/Publication.v ===== *)
(** * The publication of pull requests (crates/crony-store: publication.rs, lib.rs)

    The verified deliverable of a Factory item is published as a pull request by a
    trusted publisher, an external process that pushes the branch, opens the pull
    request and moves the project card, and reports each effect as a checkpoint.
    [publication_db] adds its tables to those of execution: publications, their
    attempts, the recorded operations and the publishers' credentials.

    The handlers: [start_pull_request_publication] (a new publication, the
    takeover of an expired one, a replay), [renew_pull_request_publication],
    [record_pull_request_publication_checkpoint], the three credential handlers,
    and the two queries of a viewer. *)
From S2P Require Import Prelude Text Json Domain Planning FactoryPolicy Store FactoryItems Breaker ExecTables Checkpoint RunFailure PublicationRules.
Import PublicationState (publication_state_as_str).

(** ** Tables *)

(** An attempt; (publication, attempt) is UNIQUE and used as the key. *)
Record publication_attempt := PublicationAttempt {
  pa_corp_id : uuid; pa_actor_id : uuid; pa_authorization_id : uuid;
  pa_authorization_snapshot : json; pa_publisher_id : string; pa_state : string;
  pa_failure_detail : option string; pa_finished_at : option timestamp; }.

Record publication_operation := PublicationOperation {
  po_publication_id : uuid; po_actor_id : uuid; po_operation : string;
  po_resulting_version : Z; po_publisher_token : option uuid; po_request : json; }.

Record publisher_credential := PublisherCredential {
  pc_corp_id : uuid; pc_publisher_id : string; pc_credential_hash : string;
  pc_expires_at : timestamp; pc_last_used_at : option timestamp; pc_revoked_at : option timestamp; }.

Record publication_db := PublicationDb {
  pd_exec : exec_db;
  pd_publications : gmap uuid (publication * option uuid);    (* with the publisher token *)
  pd_attempts : gmap (uuid * Z) publication_attempt;
  pd_operations : gmap (uuid * string) publication_operation; (* (corp, idempotency key) *)
  pd_credentials : gmap uuid publisher_credential; }.

Definition on_exec (f : exec_db → exec_db) (db : publication_db) : publication_db :=
  PublicationDb (f (pd_exec db)) (pd_publications db) (pd_attempts db) (pd_operations db)
    (pd_credentials db).
Definition on_publications
    (f : gmap uuid (publication * option uuid) → gmap uuid (publication * option uuid))
    (db : publication_db) : publication_db :=
  PublicationDb (pd_exec db) (f (pd_publications db)) (pd_attempts db) (pd_operations db)
    (pd_credentials db).
Definition on_attempts (f : gmap (uuid * Z) publication_attempt → gmap (uuid * Z) publication_attempt)
    (db : publication_db) : publication_db :=
  PublicationDb (pd_exec db) (pd_publications db) (f (pd_attempts db)) (pd_operations db)
    (pd_credentials db).
Definition on_publication_operations
    (f : gmap (uuid * string) publication_operation → gmap (uuid * string) publication_operation)
    (db : publication_db) : publication_db :=
  PublicationDb (pd_exec db) (pd_publications db) (pd_attempts db) (f (pd_operations db))
    (pd_credentials db).
Definition on_credentials (f : gmap uuid publisher_credential → gmap uuid publisher_credential)
    (db : publication_db) : publication_db :=
  PublicationDb (pd_exec db) (pd_publications db) (pd_attempts db) (pd_operations db)
    (f (pd_credentials db)).

#[global] Instance publication_db_directory : HasDirectory publication_db := λ db,
  get_directory (pd_exec db).
#[global] Instance publication_db_log : HasLog publication_db := {|
  get_log db := x_log (pd_exec db);
  set_log l := on_exec (set_log l);
|}.
#[global] Instance publication_db_log_laws : HasLogLaws publication_db.
Proof. by split. Qed.

(** What a handler takes from the world: the clock of the server at its readings,
    the clock of the database, and two random UUIDs. *)
Record publication_env := PublicationEnv {
  pv_now : timestamp; pv_check_now : timestamp; pv_replay_now : timestamp;
  pv_db_now : timestamp; pv_publication_id : uuid; pv_publisher_token : uuid; }.

Record publication_outcome := PullRequestPublicationOutcome {
  out_publication : publication; out_publisher_token : option uuid;
  out_events : list new_event; out_replayed : bool; out_busy : bool; }.

(** ** What publication needs of the checkpoint components

    [budget_checkpoint] and [checkpoint_correction] decide whether a run that
    continues a budget-stopped one may be published; both only read.  The receipt
    of a checkpoint names the run it started from and its provenance. *)
Record checkpoint_receipt := CheckpointReceipt {
  kr_origin_run_id : uuid; kr_provenance : json; }.
Class PublicationAuthorities := {
  checkpoint_authority : exec_db → uuid → uuid → uuid → gset uuid → string →
    result (option checkpoint_receipt);
  correction_authority : exec_db → factory_work_item → uuid → option checkpoint_receipt → result unit;
}.

(** Items without a budget checkpoint, for the witnesses. *)
Definition no_checkpoints : PublicationAuthorities := {|
  checkpoint_authority _ _ _ _ _ _ := Ok None;
  correction_authority _ _ _ _ := Ok tt;
|}.

Definition read_exec {A} (f : exec_db → result A) : txn publication_db A := λ db,
  lift (f (pd_exec db)) db.

(** ** Prerequisites *)
Record prerequisite_request := PublicationPrerequisiteRequest {
  pq_corp_id : uuid; pq_work_item_id : uuid; pq_source_deliverable_id : uuid;
  pq_target_repository : string; pq_base_ref : string; pq_branch : string; pq_body : string; }.
Definition from_start (input : start_publication_input) : prerequisite_request :=
  PublicationPrerequisiteRequest (sp_corp_id input) (sp_work_item_id input)
    (sp_source_deliverable_id input) (sp_target_repository input) (sp_base_ref input)
    (sp_branch input) (sp_body input).
Definition from_publication (p : publication) : prerequisite_request :=
  let e := pb_effect p in
  PublicationPrerequisiteRequest (pe_corp_id e) (pe_factory_work_item_id e)
    (pe_source_deliverable_id e) (pe_target_repository e) (pe_base_ref e) (pe_branch e) (pe_body e).

Record prerequisites := PublicationPrerequisites {
  pp_work_item : factory_work_item; pp_effective_source_revision : string;
  pp_source_recovery_id : option uuid; pp_mission_id : uuid; pp_room_id : uuid;
  pp_artifact_id : uuid; pp_task_id : uuid; pp_run_id : uuid; pp_commit_sha : string;
  pp_deliverable_sha256 : string; pp_verification_sha256 : string; pp_base_commit : string;
  pp_source_branch : string; pp_project_status_before : string; pp_review_status : string;
  pp_task_ids : list uuid; pp_run_ids : list uuid; pp_evidence_ids : list uuid;
  pp_checkpoint : option checkpoint_receipt; }.

(** What the policy of the item says about publication. *)
Record publication_terms := PublicationTerms {
  pt_base_commit : string; pt_review_status : string; pt_status_before : string; }.

Definition publication_action : string := "pull-request publication".

Section prerequisites.
Context `{Serde} `{ExecSerde} `{PublicationAuthorities}.

Definition work_item_of (db : exec_db) (corp_id work_item_id : uuid) :
    option (factory_work_item * uuid) :=
  row ← si_items (x_side db) !! work_item_id;
  if (fw_corp_id row.1 =? corp_id)%N then Some row else None.

Definition required_text (policy : json_map) (key message : string) : result string :=
  with_context
    (s ← obj_get key policy ≫= as_str; if negb (is_empty (trim s)) then Some s else None) message.

(** The checks against the policy snapshot of the item. *)
Definition check_publication_terms (item : factory_work_item) (request : prerequisite_request) :
    result publication_terms :=
  policy ← with_context (as_object (fw_policy item)) "factory policy snapshot must be an object";
  bail_if (negb (is_false_bool (obj_get "auto_merge" policy)))
    "factory policy must explicitly disable auto_merge before publication";;
  publication ← with_context (obj_get "publication" policy ≫= as_object)
    "factory policy does not authorize pull-request publication";
  bail_if (negb (is_true_bool (obj_get "allowed" publication)))
    "factory policy does not authorize pull-request publication";;
  allowlist ← with_context (obj_get "repository_allowlist" publication ≫= as_array)
    "publication policy omitted repository_allowlist";
  bail_if (negb (existsb (λ repository, eq_ignore_ascii_case repository (pq_target_repository request))
                   (omap as_str allowlist)))
    "publication target repository is outside the factory policy allowlist";;
  bail_if (negb (seqb (pq_target_repository request)
                   (src_repository_owner (fw_source item) +:+ "/" +:+ src_repository_name (fw_source item))))
    "publication target repository must match the claimed source repository";;
  base_ref ← with_context
    (s ← obj_get "base_ref" publication ≫= as_str;
     if negb (is_empty (trim s)) && (str_len s <=? 240)%Z then Some s else None)
    "publication policy omitted base_ref";
  validate_factory_publication_base_ref base_ref;;
  bail_if (negb (seqb (pq_base_ref request) base_ref))
    ("publication base ref " +:+ pq_base_ref request +:+ " does not match factory policy " +:+ base_ref);;
  base_commit ← factory_policy_required_string policy "source_base_commit" 64;
  let base_commit := to_ascii_lowercase base_commit in
  validate_factory_base_commit base_commit;;
  let branch_prefix := default "ecorp/" (obj_get "branch_prefix" publication ≫= as_str) in
  bail_if (negb (starts_with branch_prefix (pq_branch request)))
    ("publication branch must start with the authorized prefix " +:+ branch_prefix);;
  review_status ← required_text publication "review_status" "publication policy omitted review_status";
  status_before ← required_text publication "status_before" "publication policy omitted status_before";
  bail_if (negb (contains (src_issue_url (fw_source item)) (pq_body request)))
    "pull request body must link the claimed source issue URL";;
  Ok (PublicationTerms base_commit review_status status_before).

(** The deliverable joined with its artifact, run, task and mission. *)
Record deliverable_row := DeliverableRow {
  dr_deliverable : x_deliverable; dr_artifact : x_artifact; dr_run : x_run; dr_task : x_task;
  dr_mission : x_mission; }.
Definition deliverable_row_of (db : exec_db) (corp_id mission_id deliverable_id : uuid) :
    option deliverable_row :=
  d ← find (λ d, (sd_id d =? deliverable_id)%N && (sd_corp d =? corp_id)%N) (si_deliverables (x_side db));
  artifact ← si_artifacts (x_side db) !! sd_artifact d;
  run ← run_of db (sd_run d);
  task ← task_of db (sd_task d);
  mission ← mission_of db (ta_mission task);
  if (af_corp artifact =? sd_corp d)%N && (rb_corp (rn_binding run) =? sd_corp d)%N
     && (ta_corp task =? sd_corp d)%N && (mi_corp mission =? sd_corp d)%N
     && (ta_mission task =? mission_id)%N
  then Some (DeliverableRow d artifact run task mission) else None.

(** The committed, ready and verified deliverable; answers the published commit. *)
Definition check_deliverable (row : deliverable_row) (terms : publication_terms) : result string :=
  let d := dr_deliverable row in let run := dr_run row in
  commit_sha ← with_context
    (head ← sd_head_commit d; if is_empty head then None else Some head)
    "merge-ready publication requires a committed deliverable";
  let commit_sha := to_ascii_lowercase commit_sha in
  validate_factory_base_commit commit_sha;;
  let base_commit := to_ascii_lowercase (sd_base_commit d) in
  bail_if (negb (seqb (sd_form d) "commit_branch")
           || negb (seqb (sd_integration_state d) "ready_for_review")
           || negb (seqb base_commit (pt_base_commit terms))
           || seqb commit_sha base_commit)
    "source deliverable is not a merge-ready commit/branch result";;
  let metadata := af_metadata (dr_artifact row) in
  bail_if (negb (is_true_bool (get "publication_ready" metadata))
           || match get "git_bundle_sha256" metadata ≫= as_str with
              | Some digest => is_empty digest
              | None => true
              end)
    "source deliverable does not include a verified portable Git bundle";;
  bail_if (negb (seqb (af_status (dr_artifact row)) "ready")
           || negb (bool_decide (rn_status run = RunStatus.Completed))
           || negb (seqb (rn_verification_status run) "passed")
           || bool_decide (rw_disposition (rn_workspace run) = Some "quarantined")
           || negb (bool_decide (ta_status (dr_task row) = TaskStatus.Completed))
           || negb (seqb (ta_verification_status (dr_task row)) "passed")
           || negb (bool_decide (mi_status (dr_mission row) = MissionStatus.Completed))
           || negb (bool_decide (rn_verification_sha256 run = Some (sd_verification_sha256 d)))
           || negb (bool_decide (rn_deliverable_sha256 run = Some (af_sha256 (dr_artifact row)))))
    "source deliverable is not linked to passing persisted verifier state";;
  Ok commit_sha.

(** ORDER BY created_at, id *)
Definition created_before {A} (created_at : A → timestamp) (x y : uuid * A) : bool :=
  ((created_at x.2 <? created_at y.2) || ((created_at x.2 =? created_at y.2) && (Z.of_N x.1 <=? Z.of_N y.1)))%Z.
Definition mission_task_ids (db : exec_db) (corp_id mission_id : uuid) : list uuid :=
  (sort_by (created_before ta_created_at)
     (List.filter (λ t, (ta_corp t.2 =? corp_id)%N && (ta_mission t.2 =? mission_id)%N)
        (map_to_list (co_tasks (x_core db))))).*1.
Definition mission_run_rows (db : exec_db) (corp_id mission_id : uuid) : list (uuid * x_run) :=
  sort_by (created_before (λ r, rb_created_at (rn_binding r)))
    (List.filter (λ r, (rb_corp (rn_binding r.2) =? corp_id)%N
       && match task_of db (rb_task (rn_binding r.2)) with
          | Some t => (ta_mission t =? mission_id)%N
          | None => false
          end) (map_to_list (co_runs (x_core db)))).
Definition resume_edges (rows : list (uuid * x_run)) : list (uuid * option uuid) :=
  (λ r, (r.1, rb_resumed_from (rn_binding r.2))) <$> rows.

(** ORDER BY created_at DESC, id DESC *)
Definition completed_recoveries (db : exec_db) (corp_id item_id mission_id task_id : uuid) :
    list (uuid * string * uuid) :=
  omap (λ v, run ← rv_replacement_run v.2; Some (v.1, rv_observed_source_revision v.2, run))
    (sort_by (λ x y, created_before rv_created_at y x)
       (List.filter (λ v, (rv_corp v.2 =? corp_id)%N && (rv_item v.2 =? item_id)%N
          && (rv_mission v.2 =? mission_id)%N && (rv_task v.2 =? task_id)%N
          && seqb (rv_status v.2) "completed") (map_to_list (si_recoveries (x_side db))))).

(** Passing evidence of the mission, ORDER BY created_at, check_index, id. *)
Definition evidence_before (x y : x_evidence) : bool :=
  ((ve_created_at x <? ve_created_at y)
   || ((ve_created_at x =? ve_created_at y)
       && ((ve_check_index x <? ve_check_index y)
           || ((ve_check_index x =? ve_check_index y) && (Z.of_N (ve_id x) <=? Z.of_N (ve_id y))))))%Z.
Definition mission_evidence_ids (db : exec_db) (corp_id mission_id : uuid) : list uuid :=
  ve_id <$> sort_by evidence_before
    (List.filter (λ e, (ve_corp e =? corp_id)%N && seqb (ve_status e) "passed"
       && match task_of db (ve_task e) with
          | Some t => (ta_mission t =? mission_id)%N
          | None => false
          end) (co_evidence (x_core db))).

Definition recovered_loop_metrics (db : exec_db) (corp_id : uuid) (run : x_run) : result unit :=
  let policy := policy_of (breaker_view db) corp_id in
  ensure_recovered_suspend_loop_metrics_allow_publication (ru_no_progress_events (rn_usage run))
    (ru_repeated_tool_count (rn_usage run)) (bp_no_progress_event_limit policy)
    (bp_repeated_tool_limit policy).

(** The body of the loop over the runs of the mission. *)
Definition check_mission_run (now : timestamp) (db : exec_db) (corp_id selected_run_id : uuid)
    (lineage : gset uuid) (checkpoint : option checkpoint_receipt) (row : uuid * x_run) : result uuid :=
  let '(run_id, run) := row in
  (if (run_id =? selected_run_id)%N then Ok tt
   else if match checkpoint with Some c => (kr_origin_run_id c =? run_id)%N | None => false end
   then recovered_loop_metrics db corp_id run
   else if historical_suspend_is_recovered run_id selected_run_id (rn_breaker_stage run) lineage
   then recovered_loop_metrics db corp_id run
   else if is_some checkpoint then
     ensure_breaker_allows_human_progress (rn_breaker_stage run) publication_action;;
     recovered_loop_metrics db corp_id run
   else ensure_not_hard_blocked now corp_id run_id (rn_breaker_stage run) publication_action db);;
  Ok run_id.

(** The lineage of the selected run is authorised and has no quarantined workspace. *)
Definition check_lineage (db : exec_db) (item : factory_work_item) (corp_id selected_run_id : uuid)
    (rows : list (uuid * x_run)) (commit_sha : string) :
    result (gset uuid * option checkpoint_receipt) :=
  lineage ← publication_resume_lineage selected_run_id (resume_edges rows);
  checkpoint ← checkpoint_authority db corp_id (fw_id item) selected_run_id lineage commit_sha;
  correction_authority db item selected_run_id checkpoint;;
  bail_if (existsb (λ row, bool_decide (row.1 ∈ lineage)
                           && bool_decide (rw_disposition (rn_workspace row.2) = Some "quarantined")) rows)
    "quarantined source lineage cannot be published";;
  Ok (lineage, checkpoint).

Definition publishable_state (existing : bool) (state : factory_work_item_state) : bool :=
  bool_decide (state = ItemState.Verified) || (existing && bool_decide (state = ItemState.Publishing)).

Definition validate_publication_prerequisites (now : timestamp) (request : prerequisite_request)
    (existing : bool) (db : exec_db) : result prerequisites :=
  let corp_id := pq_corp_id request in
  row ← with_context (work_item_of db corp_id (pq_work_item_id request)) "factory work item not found";
  let work_item := row.1 in
  bail_if (negb (publishable_state existing (fw_state work_item)))
    ("conflict: pull-request publication requires a verified factory work item, not "
     +:+ ItemState.item_state_as_str (fw_state work_item));;
  mission_id ← with_context (fw_mission_id work_item) "verified factory work item has no mission";
  bail_if (negb (factory_mission_verified corp_id mission_id (get_directory db)))
    "conflict: factory work item cannot enter verified before its mission and task verification pass";;
  terms ← check_publication_terms work_item request;
  row ← with_context (deliverable_row_of db corp_id mission_id (pq_source_deliverable_id request))
          "source deliverable is not linked to the factory mission";
  commit_sha ← check_deliverable row terms;
  let d := dr_deliverable row in
  let selected_run_id := sd_run d in
  ensure_not_hard_blocked now corp_id selected_run_id (rn_breaker_stage (dr_run row))
    publication_action db;;
  let rows := mission_run_rows db corp_id mission_id in
  authorised ← check_lineage db work_item corp_id selected_run_id rows commit_sha;
  let '(lineage, checkpoint) := authorised in
  let recovery := publication_recovery_for_lineage
    (completed_recoveries db corp_id (fw_id work_item) mission_id (sd_task d)) lineage in
  let '(effective_source_revision, source_recovery_id) :=
    publication_source_revision (src_revision (fw_source work_item)) recovery in
  run_ids ← collect (check_mission_run now db corp_id selected_run_id lineage checkpoint) rows;
  let evidence_ids := mission_evidence_ids db corp_id mission_id in
  bail_if (vec_is_empty evidence_ids)
    "pull-request publication requires persisted passing verification evidence";;
  Ok (PublicationPrerequisites work_item effective_source_revision source_recovery_id mission_id
        (mi_room (dr_mission row)) (sd_artifact d) (sd_task d) selected_run_id commit_sha
        (af_sha256 (dr_artifact row)) (sd_verification_sha256 d) (to_ascii_lowercase (sd_base_commit d))
        (sd_branch d) (pt_status_before terms) (pt_review_status terms)
        (mission_task_ids db corp_id mission_id) run_ids evidence_ids checkpoint).
End prerequisites.

(** ** What the handlers share *)
Section shared.
Context `{Serde} `{ExecSerde} `{PublicationAuthorities}.

Definition ensure_actor_role (corp_id actor_id : uuid) (expected_role : string) (dir : directory) :
    result unit :=
  role ← with_context
    (a ← dir_actors dir !! actor_id;
     if (actor_corp a =? corp_id)%N && seqb (actor_kind a) "human" then Some (actor_role a) else None)
    no_rows;
  bail_if (negb (seqb role expected_role))
    ("publication authorization role changed from " +:+ expected_role +:+ " to " +:+ role).

(** *** Credentials *)
Definition credential_usable (now : timestamp) (corp_id : uuid) (credential_hash : string)
    (c : publisher_credential) : bool :=
  (pc_corp_id c =? corp_id)%N && seqb (pc_credential_hash c) credential_hash
  && negb (is_some (pc_revoked_at c)) && (now <? pc_expires_at c)%Z.
Definition touch_credential (now : timestamp) (c : publisher_credential) : publisher_credential :=
  PublisherCredential (pc_corp_id c) (pc_publisher_id c) (pc_credential_hash c) (pc_expires_at c)
    (Some now) (pc_revoked_at c).
Definition revalidate_publication_publisher_credential_tx (env : publication_env) (corp_id : uuid)
    (publisher_id credential_hash : string) : txn publication_db unit :=
  found ← gets (λ db, find (λ c, credential_usable (pv_db_now env) corp_id credential_hash c.2
                                 && seqb (pc_publisher_id c.2) publisher_id)
                        (map_to_list (pd_credentials db)));
  row ← lift (with_context found
                "forbidden: publication publisher credential is no longer authorized");
  modify (on_credentials (alter (touch_credential (pv_db_now env)) row.1)).

(** *** Operations *)
Definition publication_operation_tx (corp_id : uuid) (idempotency_key : string) :
    txn publication_db (option publication_operation) :=
  gets (λ db, pd_operations db !! (corp_id, idempotency_key)).

Definition record_publication_operation_tx (corp_id : uuid) (idempotency_key : string)
    (operation : publication_operation) : txn publication_db unit :=
  taken ← gets (λ db, is_some (pd_operations db !! (corp_id, idempotency_key)));
  lift (bail_if taken duplicate_key);;
  modify (on_publication_operations <[(corp_id, idempotency_key) := operation]>).

Definition ensure_publication_operation_matches (operation : publication_operation)
    (expected_operation : string) (actor_id : uuid) (publisher_token : option uuid) (request : json) :
    result unit :=
  bail_if (negb (seqb (po_operation operation) expected_operation)
           || negb (po_actor_id operation =? actor_id)%N
           || negb (bool_decide (po_request operation = request))
           || (is_some publisher_token
               && negb (bool_decide (po_publisher_token operation = publisher_token))))
    "publication idempotency key was reused for a different operation".

Definition lease_live (now : timestamp) (p : publication) : bool :=
  match pb_publisher_lease_expires_at p with Some expiry => (now <? expiry)%Z | None => false end.
Definition is_published (p : publication) : bool :=
  bool_decide (pb_state p = PublicationState.Published).

Definition replayable_publication_token (p : publication) (current_token : option uuid)
    (operation : publication_operation) (now : timestamp) : option uuid :=
  operation_token ← po_publisher_token operation;
  if negb (is_published p) && (po_resulting_version operation <=? pb_version p)%Z
     && lease_live now p && bool_decide (current_token = Some operation_token)
  then Some operation_token else None.

(** *** Rows *)
Definition publication_by_id_tx (corp_id publication_id : uuid) :
    txn publication_db (option (publication * option uuid)) :=
  gets (λ db, row ← pd_publications db !! publication_id;
              if (pb_corp_id row.1 =? corp_id)%N then Some row else None).

(** The UNIQUE constraints of the table. *)
Definition effects_collide (e e' : publication_effect) : bool :=
  (pe_factory_work_item_id e =? pe_factory_work_item_id e')%N
  || (pe_source_deliverable_id e =? pe_source_deliverable_id e')%N
  || ((pe_corp_id e =? pe_corp_id e')%N
      && (seqb (pe_effect_key e) (pe_effect_key e')
          || seqb (pe_idempotency_key e) (pe_idempotency_key e')
          || (seqb (pe_target_repository e) (pe_target_repository e')
              && seqb (pe_branch e) (pe_branch e')))).
Definition publisher_token_taken (id : uuid) (token : option uuid)
    (rows : gmap uuid (publication * option uuid)) : bool :=
  match token with
  | None => false
  | Some token => existsb (λ row, negb (row.1 =? id)%N && bool_decide (row.2.2 = Some token))
                    (map_to_list rows)
  end.

(** UPDATE pull_request_publications .. RETURNING .. *)
Definition store_publication_tx (p : publication) (token : option uuid) : txn publication_db publication :=
  taken ← gets (λ db, publisher_token_taken (pb_id p) token (pd_publications db));
  lift (bail_if taken duplicate_key);;
  modify (on_publications <[pb_id p := (p, token)]>);;
  mret p.
(** INSERT INTO pull_request_publications .. RETURNING .. *)
Definition insert_publication_tx (p : publication) (token : option uuid) : txn publication_db publication :=
  taken ← gets (λ db, is_some (pd_publications db !! pb_id p)
    || existsb (λ row, effects_collide (pb_effect p) (pb_effect row.2.1)) (map_to_list (pd_publications db)));
  lift (bail_if taken duplicate_key);;
  store_publication_tx p token.

Definition insert_publication_attempt_tx (p : publication) (actor_id authorization_id : uuid)
    (authorization : json) (publisher_id : string) : txn publication_db unit :=
  let key := (pb_id p, pb_attempt_count p) in
  taken ← gets (λ db, is_some (pd_attempts db !! key));
  lift (bail_if taken duplicate_key);;
  modify (on_attempts <[key := PublicationAttempt (pb_corp_id p) actor_id authorization_id
                                 authorization publisher_id "running" None None]>).

(** SET state, failure_detail, finished_at of a running attempt *)
Definition finish_attempt (finished_at : option timestamp → timestamp) (corp_id : uuid) (state : string)
    (failure_detail : option string → option string) (a : publication_attempt) : publication_attempt :=
  if (pa_corp_id a =? corp_id)%N && seqb (pa_state a) "running" then
    PublicationAttempt (pa_corp_id a) (pa_actor_id a) (pa_authorization_id a)
      (pa_authorization_snapshot a) (pa_publisher_id a) state (failure_detail (pa_failure_detail a))
      (Some (finished_at (pa_finished_at a)))
  else a.

Definition publication_collision_tx (input : start_publication_input) :
    txn publication_db (option (publication * option uuid)) :=
  gets (λ db, snd <$> find (λ row, let e := pb_effect row.2.1 in
    (pe_corp_id e =? sp_corp_id input)%N
    && ((pe_factory_work_item_id e =? sp_work_item_id input)%N
        || seqb (pe_effect_key e) (sp_effect_key input)
        || (seqb (pe_target_repository e) (sp_target_repository input)
            && seqb (pe_branch e) (sp_branch input)))) (map_to_list (pd_publications db))).

Definition ensure_publication_matches_start (p : publication) (input : start_publication_input) :
    result unit :=
  let e := pb_effect p in
  bail_if (negb (pe_factory_work_item_id e =? sp_work_item_id input)%N
           || negb (pe_source_deliverable_id e =? sp_source_deliverable_id input)%N
           || negb (seqb (pe_target_repository e) (sp_target_repository input))
           || negb (seqb (pe_base_ref e) (sp_base_ref input))
           || negb (seqb (pe_branch e) (sp_branch input))
           || negb (seqb (pe_title e) (sp_title input))
           || negb (seqb (pe_body e) (sp_body input))
           || negb (seqb (pe_effect_key e) (sp_effect_key input)))
    "conflict: publication request does not match the durable effect".

(** *** Rooms and events *)
Definition publication_room_id (corp_id mission_id : uuid) (dir : directory) : result uuid :=
  room ← factory_event_room_id corp_id (Some mission_id) dir;
  with_context room "publication mission omitted its room".
Definition assert_publication_room_membership_tx (p : publication) (actor_id : uuid) :
    txn publication_db unit :=
  room_id ← read_directory (publication_room_id (pb_corp_id p) (pe_mission_id (pb_effect p)));
  assert_room_membership_tx (pb_corp_id p) room_id actor_id.

Definition publication_event (p : publication) (room_id actor_id : uuid) (event_type : string)
    (payload : json) : new_event :=
  correlated (Some (pe_mission_id (pb_effect p)))
    (at_version (Some room_id) (pb_version p)
       (new_event_of (pb_corp_id p) (Some actor_id) event_type "pull_request_publication" (pb_id p)
          ("publication:" +:+ uuid_to_string (pb_id p) +:+ ":" +:+ event_type +:+ ":"
           +:+ show_int (pb_version p)) payload)).
Definition publication_event_tx (p : publication) (actor_id : uuid) (event_type : string)
    (payload : json) : txn publication_db (option new_event) :=
  room_id ← read_directory (publication_room_id (pb_corp_id p) (pe_mission_id (pb_effect p)));
  append_event_tx (publication_event p room_id actor_id event_type payload).

(** UPDATE factory_work_items SET state = .. WHERE .. AND state = .. RETURNING version *)
Definition advance_item_tx (corp_id item_id : uuid) (previous state : factory_work_item_state) :
    txn publication_db Z :=
  row ← read_exec (λ db, with_context
    (row ← si_items (x_side db) !! item_id;
     if (fw_corp_id row.1 =? corp_id)%N && bool_decide (fw_state row.1 = previous)
     then Some row else None) no_rows);
  version ← lift (next_version (fw_version row.1));
  modify (on_exec (on_items <[item_id := (move_item state version None row.1, row.2)]>));;
  mret version.
Definition item_state_event_tx (corp_id item_id mission_id room_id actor_id : uuid) (version : Z)
    (previous state : factory_work_item_state) (extra : list (string * json)) :
    txn publication_db (option new_event) :=
  append_event_tx
    (correlated (Some mission_id)
       (at_version (Some room_id) version
          (new_event_of corp_id (Some actor_id) "factory.state_changed" "factory_work_item" item_id
             ("factory:" +:+ uuid_to_string item_id +:+ ":state:"
              +:+ ItemState.item_state_as_str state +:+ ":" +:+ show_int version)
             (json_object ([("previous_state", JStr (ItemState.item_state_as_str previous));
                            ("state", JStr (ItemState.item_state_as_str state));
                            ("mission_id", json_uuid mission_id)] ++ extra))))).

(** *** The publisher holds the attempt *)
Definition running_attempt (p : publication) (db : publication_db) : option publication_attempt :=
  a ← pd_attempts db !! (pb_id p, pb_attempt_count p);
  if (pa_corp_id a =? pb_corp_id p)%N && seqb (pa_state a) "running" then Some a else None.

Definition ensure_active_publication_control_tx (p : publication) (current_token : option uuid)
    (actor_id : uuid) (publisher_id : string) (presented_token : uuid) (expected_version : Z)
    (now : timestamp) : txn publication_db unit :=
  lift (bail_if (is_published p) "conflict: pull-request publication is already published");;
  lift (bail_if (negb (bool_decide (current_token = Some presented_token)))
          "conflict: stale or unauthorized publication publisher token");;
  lift (bail_if (negb (bool_decide (pb_publisher_id p = Some publisher_id)))
          "conflict: publication attempt belongs to another trusted publisher");;
  lift (bail_if (negb (pb_version p =? expected_version)%Z)
          ("conflict: publication version is " +:+ show_int (pb_version p) +:+ ", not "
           +:+ show_int expected_version));;
  lift (bail_if (negb (lease_live now p)) "conflict: publication publisher lease has expired");;
  attempt ← gets (running_attempt p);
  lift (bail_if (negb (bool_decide (pa_actor_id <$> attempt = Some actor_id)))
          "conflict: publication attempt belongs to another authorized actor").

(** *** The authority is still there; an older provenance is upgraded *)
Definition set_pb_provenance (v : json) (p : publication) : publication :=
  PullRequestPublication (pb_effect p) (pb_state p) (pb_version p) (pb_attempt_count p)
    (pb_publisher_id p) (pb_publisher_lease_expires_at p) (pb_failure_detail p)
    (pb_branch_pushed_at p) (pb_pull_request p) (pb_project_status_after p)
    (pb_project_status_updated_at p) v.

Definition provenance_bound (p : publication) (pre : prerequisites) (state : source_provenance_state) :
    bool :=
  let e := pb_effect p in
  (fw_id (pp_work_item pre) =? pe_factory_work_item_id e)%N
  && (pp_mission_id pre =? pe_mission_id e)%N && (pp_artifact_id pre =? pe_artifact_id e)%N
  && (pp_task_id pre =? pe_task_id e)%N && (pp_run_id pre =? pe_run_id e)%N
  && seqb (pp_commit_sha pre) (pe_commit_sha e)
  && bool_decide (pointer ["deliverable"; "sha256"] (pb_provenance p) ≫= as_str
                  = Some (pp_deliverable_sha256 pre))
  && bool_decide (get "verification_sha256" (pb_provenance p) ≫= as_str
                  = Some (pp_verification_sha256 pre))
  && negb (bool_decide (state = ProvenanceInvalid)).

Definition upgraded_provenance (p : publication) (pre : prerequisites) : result json :=
  let claimed := src_revision (fw_source (pp_work_item pre)) in
  let effective := pp_effective_source_revision pre in
  let recovery := pp_source_recovery_id pre in
  state ← publication_source_provenance_state (pb_provenance p) claimed effective recovery;
  bail_if (negb (provenance_bound p pre state))
    "conflict: publication authority no longer matches its verified provenance";;
  source ← (if bool_decide (state = ProvenanceLegacy)
            then upgrade_publication_source_provenance (pb_provenance p) claimed effective recovery
            else Ok (pb_provenance p));
  revalidated_provenance source (kr_provenance <$> pp_checkpoint pre).

Definition revalidate_publication_authority_tx (env : publication_env) (p : publication)
    (actor_id : uuid) : txn publication_db unit :=
  attempt ← gets (λ db, a ← running_attempt p db;
                        if (pa_actor_id a =? actor_id)%N then Some a else None);
  attempt ← lift (with_context attempt "active publication attempt omitted its authorization role");
  expected_role ← lift (with_context (json_text "actor_role" (pa_authorization_snapshot attempt))
                          "unexpected null; try decoding as an Option");
  read_directory (ensure_actor_role (pb_corp_id p) actor_id expected_role);;
  pre ← read_exec (validate_publication_prerequisites (pv_db_now env) (from_publication p) true);
  assert_room_membership_tx (pb_corp_id p) (pp_room_id pre) actor_id;;
  upgraded ← lift (upgraded_provenance p pre);
  if bool_decide (upgraded = pb_provenance p) then mret tt
  else
    row ← gets (λ db, row ← pd_publications db !! pb_id p;
                      if (pb_corp_id row.1 =? pb_corp_id p)%N
                         && bool_decide (pb_provenance row.1 = pb_provenance p)
                      then Some row else None);
    row ← lift (with_context row "conflict: legacy publication provenance changed during upgrade");
    modify (on_publications <[pb_id p := (set_pb_provenance upgraded row.1, row.2)]>).

(** A replay that would hand out a live token must still be authorised. *)
Definition revalidate_live_replay (env : publication_env) (row : publication * option uuid)
    (operation : publication_operation) (corp_id publication_id actor_id : uuid) (message : string) :
    txn publication_db (publication * option uuid) :=
  if is_some (replayable_publication_token row.1 row.2 operation (pv_check_now env)) then
    revalidate_publication_authority_tx env row.1 actor_id;;
    row' ← publication_by_id_tx corp_id publication_id;
    lift (with_context row' message)
  else mret row.
End shared.

(** ** The handlers *)
Section handlers.
Context `{Serde} `{ExecSerde} `{PublicationAuthorities}.

Definition new_operation (p : publication) (actor_id : uuid) (operation : string)
    (publisher_token : option uuid) (request : json) : publication_operation :=
  PublicationOperation (pb_id p) actor_id operation (pb_version p) publisher_token request.

Definition json_opt_int (o : option Z) : json := match o with Some z => JInt z | None => JNull end.
Definition json_opt_bool (o : option bool) : json := match o with Some b => JBool b | None => JNull end.
Definition json_state (p : publication) : json := JStr (publication_state_as_str (pb_state p)).
Definition json_attempt (p : publication) : json := JInt (pb_attempt_count p).

(** *** Start *)
Definition start_operation_request (input : start_publication_input) : json :=
  json_object
    [("work_item_id", json_uuid (sp_work_item_id input));
     ("source_deliverable_id", json_uuid (sp_source_deliverable_id input));
     ("target_repository", JStr (sp_target_repository input));
     ("base_ref", JStr (sp_base_ref input)); ("branch", JStr (sp_branch input));
     ("title", JStr (sp_title input)); ("body", JStr (sp_body input));
     ("authorization_id", json_uuid (sp_authorization_id input));
     ("authorization_reason", JStr (sp_authorization_reason input));
     ("effect_key", JStr (sp_effect_key input)); ("publisher_id", JStr (sp_publisher_id input));
     ("lease_seconds", JInt (sp_lease_seconds input))].

Definition publication_authorization (input : start_publication_input) (authorized_at : timestamp) : json :=
  json_object
    [("id", json_uuid (sp_authorization_id input)); ("kind", JStr "explicit_human");
     ("permission", JStr "publish_pull_request"); ("actor_id", json_uuid (sp_actor_id input));
     ("actor_role", JStr (sp_actor_role input)); ("reason", JStr (sp_authorization_reason input));
     ("authorized_at", JStr (timestamp_rfc3339 authorized_at)); ("auto_merge", JBool false);
     ("merge", JBool false); ("deploy", JBool false)].

(** The idempotency key is known: answer with the publication as it is now. *)
Definition start_replay (env : publication_env) (input : start_publication_input)
    (operation : publication_operation) : txn publication_db publication_outcome :=
  lift (ensure_publication_operation_matches operation "start" (sp_actor_id input) None
          (start_operation_request input));;
  row ← publication_by_id_tx (sp_corp_id input) (po_publication_id operation);
  row ← lift (with_context row "idempotent publication start references a missing publication");
  assert_publication_room_membership_tx row.1 (sp_actor_id input);;
  row ← revalidate_live_replay env row operation (sp_corp_id input) (po_publication_id operation)
          (sp_actor_id input) "publication disappeared after start replay revalidation";
  let publisher_token := replayable_publication_token row.1 row.2 operation (pv_replay_now env) in
  let busy := negb (is_published row.1) && negb (is_some publisher_token)
              && lease_live (pv_replay_now env) row.1 in
  mret (PullRequestPublicationOutcome row.1 publisher_token [] true busy).

Definition lease_end_of (env : publication_env) (lease_seconds : Z) : timestamp :=
  (pv_now env + seconds lease_seconds)%Z.

(** The row after a takeover: the lease and the attempt change, the progress stays. *)
Definition taken_over (input : start_publication_input) (lease_expires_at : timestamp)
    (version attempt_count : Z) (p : publication) : publication :=
  PullRequestPublication (pb_effect p)
    (if bool_decide (pb_state p = PublicationState.Requested) then PublicationState.Publishing
     else pb_state p)
    version attempt_count (Some (sp_publisher_id input)) (Some lease_expires_at) None
    (pb_branch_pushed_at p) (pb_pull_request p) (pb_project_status_after p)
    (pb_project_status_updated_at p) (pb_provenance p).

Definition lease_expired_detail : string := "Publisher lease expired before the attempt completed.".

(** The effect is already published. *)
Definition start_published (input : start_publication_input) (p : publication) :
    txn publication_db publication_outcome :=
  record_publication_operation_tx (sp_corp_id input) (sp_idempotency_key input)
    (new_operation p (sp_actor_id input) "start" None (start_operation_request input));;
  mret (PullRequestPublicationOutcome p None [] true false).

(** The lease of the previous publisher is gone: a new attempt takes over. *)
Definition start_takeover (env : publication_env) (input : start_publication_input) (p : publication) :
    txn publication_db publication_outcome :=
  modify (on_attempts (map_imap (λ key a,
    Some (if (key.1 =? pb_id p)%N
          then finish_attempt (default (pv_db_now env)) (sp_corp_id input) "abandoned"
                 (λ detail, Some (default lease_expired_detail detail)) a
          else a))));;
  version ← lift (next_version (pb_version p));
  attempt_count ← lift (int4 (pb_attempt_count p + 1));
  let recovered := taken_over input (lease_end_of env (sp_lease_seconds input)) version attempt_count p in
  let authorization := publication_authorization input (pv_now env) in
  let token := pv_publisher_token env in
  recovered ← store_publication_tx recovered (Some token);
  insert_publication_attempt_tx recovered (sp_actor_id input) (sp_authorization_id input)
    authorization (sp_publisher_id input);;
  record_publication_operation_tx (sp_corp_id input) (sp_idempotency_key input)
    (new_operation recovered (sp_actor_id input) "start" (Some token) (start_operation_request input));;
  event ← publication_event_tx recovered (sp_actor_id input) "factory.publication_attempt_started"
    (json_object
       [("factory_work_item_id", json_uuid (pe_factory_work_item_id (pb_effect recovered)));
        ("attempt", json_attempt recovered);
        ("publisher_id", json_opt_str (pb_publisher_id recovered)); ("state", json_state recovered);
        ("recovered", JBool true)]);
  mret (PullRequestPublicationOutcome recovered (Some token) (option_list event) false false).

Definition start_existing (env : publication_env) (input : start_publication_input)
    (row : publication * option uuid) : txn publication_db publication_outcome :=
  let p := row.1 in
  lift (ensure_publication_matches_start p input);;
  assert_publication_room_membership_tx p (sp_actor_id input);;
  if is_published p then start_published input p
  else
    read_exec (validate_publication_prerequisites (pv_db_now env) (from_start input) true);;
    if lease_live (pv_now env) p && is_some row.2
    then mret (PullRequestPublicationOutcome p None [] true true)
    else start_takeover env input p.

Definition new_provenance (input : start_publication_input) (pre : prerequisites) (authorization : json) :
    json :=
  let item := pp_work_item pre in let source := fw_source item in
  json_object
    [("schema_version", JInt (if is_some (pp_checkpoint pre) then 3 else 2));
     ("source_issue", json_object
        [("number", JInt (src_issue_number source)); ("node_id", JStr (src_issue_node_id source));
         ("url", JStr (src_issue_url source)); ("revision", JStr (pp_effective_source_revision pre));
         ("claimed_revision", JStr (src_revision source));
         ("recovery_id", json_opt_uuid (pp_source_recovery_id pre))]);
     ("factory_work_item_id", json_uuid (fw_id item)); ("mission_id", json_uuid (pp_mission_id pre));
     ("task_ids", JArr (json_uuid <$> pp_task_ids pre));
     ("run_ids", JArr (json_uuid <$> pp_run_ids pre));
     ("verification_evidence_ids", JArr (json_uuid <$> pp_evidence_ids pre));
     ("verification_sha256", JStr (pp_verification_sha256 pre));
     ("checkpoint", default JNull (kr_provenance <$> pp_checkpoint pre));
     ("deliverable", json_object
        [("id", json_uuid (sp_source_deliverable_id input)); ("artifact_id", json_uuid (pp_artifact_id pre));
         ("sha256", JStr (pp_deliverable_sha256 pre)); ("base_commit", JStr (pp_base_commit pre));
         ("head_commit", JStr (pp_commit_sha pre)); ("source_branch", JStr (pp_source_branch pre))]);
     ("target", json_object
        [("repository", JStr (sp_target_repository input)); ("base_ref", JStr (sp_base_ref input));
         ("branch", JStr (sp_branch input)); ("commit", JStr (pp_commit_sha pre))]);
     ("pull_request", JNull);
     ("project", json_object
        [("owner", JStr (src_project_owner source)); ("number", JInt (src_project_number source));
         ("item_id", JStr (src_project_item_id source));
         ("status_before", JStr (pp_project_status_before pre));
         ("review_status", JStr (pp_review_status pre))]);
     ("authorization_snapshot", authorization);
     ("effects", json_object
        [("effect_key", JStr (sp_effect_key input)); ("auto_merge", JBool false);
         ("merge", JBool false); ("deploy", JBool false)])].

Definition new_publication (env : publication_env) (input : start_publication_input) (pre : prerequisites) :
    publication :=
  let item := pp_work_item pre in let source := fw_source item in
  let authorization := publication_authorization input (pv_now env) in
  PullRequestPublication
    (PublicationEffect (pv_publication_id env) (sp_corp_id input) (fw_id item) (pp_mission_id pre)
       (sp_source_deliverable_id input) (pp_artifact_id pre) (pp_task_id pre) (pp_run_id pre)
       (src_issue_number source) (src_issue_url source) (sp_target_repository input)
       (sp_base_ref input) (sp_branch input) (pp_commit_sha pre) (sp_title input) (sp_body input)
       (sp_actor_id input) (sp_authorization_id input) authorization (sp_effect_key input)
       (sp_idempotency_key input) (src_project_owner source) (src_project_number source)
       (src_project_item_id source) (pp_project_status_before pre) false false false)
    PublicationState.Publishing 1 1 (Some (sp_publisher_id input))
    (Some (lease_end_of env (sp_lease_seconds input))) None None no_pull_request None None
    (new_provenance input pre authorization).

Definition start_new (env : publication_env) (input : start_publication_input) :
    txn publication_db publication_outcome :=
  pre ← read_exec (validate_publication_prerequisites (pv_db_now env) (from_start input) false);
  assert_room_membership_tx (sp_corp_id input) (pp_room_id pre) (sp_actor_id input);;
  let token := pv_publisher_token env in
  p ← insert_publication_tx (new_publication env input pre) (Some token);
  insert_publication_attempt_tx p (sp_actor_id input) (sp_authorization_id input)
    (publication_authorization input (pv_now env)) (sp_publisher_id input);;
  record_publication_operation_tx (sp_corp_id input) (sp_idempotency_key input)
    (new_operation p (sp_actor_id input) "start" (Some token) (start_operation_request input));;
  factory_version ← advance_item_tx (sp_corp_id input) (fw_id (pp_work_item pre))
    ItemState.Verified ItemState.Publishing;
  item_event ← item_state_event_tx (sp_corp_id input) (fw_id (pp_work_item pre)) (pp_mission_id pre)
    (pp_room_id pre) (sp_actor_id input) factory_version ItemState.Verified ItemState.Publishing
    [("publication_id", json_uuid (pb_id p))];
  let e := pb_effect p in
  event ← publication_event_tx p (sp_actor_id input) "factory.publication_requested"
    (json_object
       [("factory_work_item_id", json_uuid (pe_factory_work_item_id e));
        ("source_deliverable_id", json_uuid (pe_source_deliverable_id e));
        ("target_repository", JStr (pe_target_repository e)); ("base_ref", JStr (pe_base_ref e));
        ("branch", JStr (pe_branch e)); ("commit_sha", JStr (pe_commit_sha e));
        ("attempt", json_attempt p); ("state", json_state p); ("auto_merge", JBool false);
        ("merge", JBool false); ("deploy", JBool false)]);
  mret (PullRequestPublicationOutcome p (Some token) (option_list item_event ++ option_list event)
          false false).

Definition start_pull_request_publication (env : publication_env) (input : start_publication_input) :
    txn publication_db publication_outcome :=
  input ← lift (normalize_start_input input);
  assert_actor_scope_tx (sp_corp_id input) (sp_actor_id input);;
  revalidate_publication_publisher_credential_tx env (sp_corp_id input) (sp_publisher_id input)
    (sp_publisher_credential_hash input);;
  read_directory (ensure_actor_role (sp_corp_id input) (sp_actor_id input) (sp_actor_role input));;
  operation ← publication_operation_tx (sp_corp_id input) (sp_idempotency_key input);
  match operation with
  | Some operation => start_replay env input operation
  | None =>
      existing ← publication_collision_tx input;
      match existing with
      | Some row => start_existing env input row
      | None => start_new env input
      end
  end.

(** *** Renew *)
Definition renew_operation_request (input : renew_publication_input) (publisher_id : string) : json :=
  json_object
    [("publication_id", json_uuid (rp_publication_id input)); ("publisher_id", JStr publisher_id);
     ("expected_version", JInt (rp_expected_version input)); ("lease_seconds", JInt (rp_lease_seconds input))].

Definition renewed (version : Z) (lease_expires_at : timestamp) (p : publication) : publication :=
  PullRequestPublication (pb_effect p) (pb_state p) version (pb_attempt_count p) (pb_publisher_id p)
    (Some lease_expires_at) (pb_failure_detail p) (pb_branch_pushed_at p) (pb_pull_request p)
    (pb_project_status_after p) (pb_project_status_updated_at p) (pb_provenance p).

Definition renew_replay (env : publication_env) (input : renew_publication_input)
    (request : json) (operation : publication_operation) : txn publication_db publication_outcome :=
  lift (ensure_publication_operation_matches operation "renew" (rp_actor_id input)
          (Some (rp_publisher_token input)) request);;
  row ← publication_by_id_tx (rp_corp_id input) (rp_publication_id input);
  row ← lift (with_context row "idempotent publication renewal references a missing publication");
  revalidate_publication_authority_tx env row.1 (rp_actor_id input);;
  row ← publication_by_id_tx (rp_corp_id input) (rp_publication_id input);
  row ← lift (with_context row "publication disappeared after renewal revalidation");
  mret (PullRequestPublicationOutcome row.1
          (replayable_publication_token row.1 row.2 operation (pv_now env)) [] true false).

(** What the publisher sends, normalised: the key, the publisher, the credential. *)
Definition publisher_identity (idempotency_key publisher_id credential_hash : string) :
    result (string * string * string) :=
  idempotency_key ← normalize_factory_identifier idempotency_key "publication idempotency key" 500;
  publisher_id ← normalize_factory_identifier publisher_id "trusted publisher id" 160;
  credential ← normalize_publication_publisher_credential_hash credential_hash;
  Ok (idempotency_key, publisher_id, credential).

Definition renew_new (env : publication_env) (input : renew_publication_input)
    (idempotency_key publisher_id : string) (request : json) : txn publication_db publication_outcome :=
  row ← publication_by_id_tx (rp_corp_id input) (rp_publication_id input);
  row ← lift (with_context row "pull-request publication not found");
  ensure_active_publication_control_tx row.1 row.2 (rp_actor_id input) publisher_id
    (rp_publisher_token input) (rp_expected_version input) (pv_now env);;
  revalidate_publication_authority_tx env row.1 (rp_actor_id input);;
  (* the UPDATE works on the row as it is after the revalidation *)
  row ← publication_by_id_tx (rp_corp_id input) (rp_publication_id input);
  row ← lift (with_context row no_rows);
  version ← lift (next_version (pb_version row.1));
  p ← store_publication_tx (renewed version (lease_end_of env (rp_lease_seconds input)) row.1) row.2;
  record_publication_operation_tx (rp_corp_id input) idempotency_key
    (new_operation p (rp_actor_id input) "renew" (Some (rp_publisher_token input)) request);;
  event ← publication_event_tx p (rp_actor_id input) "factory.publication_lease_renewed"
    (json_object
       [("attempt", json_attempt p); ("publisher_id", json_opt_str (pb_publisher_id p));
        ("lease_expires_at", json_opt_str (timestamp_rfc3339 <$> pb_publisher_lease_expires_at p));
        ("state", json_state p)]);
  mret (PullRequestPublicationOutcome p (Some (rp_publisher_token input)) (option_list event) false false).

Definition renew_pull_request_publication (env : publication_env) (input : renew_publication_input) :
    txn publication_db publication_outcome :=
  lift (bail_if (rp_expected_version input <=? 0)%Z "expected publication version must be positive");;
  identity ← lift (publisher_identity (rp_idempotency_key input) (rp_publisher_id input)
                     (rp_publisher_credential_hash input));
  let '(idempotency_key, publisher_id, credential) := identity in
  lease_seconds ← lift (validate_publication_lease_seconds (rp_lease_seconds input));
  let request := renew_operation_request input publisher_id in
  assert_actor_scope_tx (rp_corp_id input) (rp_actor_id input);;
  revalidate_publication_publisher_credential_tx env (rp_corp_id input) publisher_id credential;;
  operation ← publication_operation_tx (rp_corp_id input) idempotency_key;
  match operation with
  | Some operation => renew_replay env input request operation
  | None => renew_new env input idempotency_key publisher_id request
  end.

(** *** Checkpoints *)
Definition checkpoint_operation_request (publisher_id : string) (checkpoint_request : json) : json :=
  json_object [("publisher_id", JStr publisher_id); ("checkpoint", checkpoint_request)].

Definition checkpoint_replay (env : publication_env) (input : checkpoint_publication_input)
    (operation_name : string) (request : json) (operation : publication_operation) :
    txn publication_db publication_outcome :=
  lift (ensure_publication_operation_matches operation operation_name (cp_actor_id input)
          (Some (cp_publisher_token input)) request);;
  row ← publication_by_id_tx (cp_corp_id input) (cp_publication_id input);
  row ← lift (with_context row "idempotent publication checkpoint references a missing publication");
  row ← revalidate_live_replay env row operation (cp_corp_id input) (cp_publication_id input)
          (cp_actor_id input) "publication disappeared after checkpoint replay revalidation";
  mret (PullRequestPublicationOutcome row.1
          (replayable_publication_token row.1 row.2 operation (pv_replay_now env)) [] true false).

(** The rows after each checkpoint. *)
Definition branch_pushed (version : Z) (now : timestamp) (p : publication) : publication :=
  PullRequestPublication (pb_effect p) PublicationState.BranchPushed version (pb_attempt_count p)
    (pb_publisher_id p) (pb_publisher_lease_expires_at p) None (Some now) (pb_pull_request p)
    (pb_project_status_after p) (pb_project_status_updated_at p) (pb_provenance p).
Definition pull_request_created (version : Z) (r : pull_request_report) (provenance : json)
    (p : publication) : publication :=
  PullRequestPublication (pb_effect p) PublicationState.PullRequestCreated version
    (pb_attempt_count p) (pb_publisher_id p) (pb_publisher_lease_expires_at p) None
    (pb_branch_pushed_at p) (report_columns r) (pb_project_status_after p)
    (pb_project_status_updated_at p) provenance.
Definition published (version : Z) (now : timestamp) (project_status : string) (provenance : json)
    (p : publication) : publication :=
  PullRequestPublication (pb_effect p) PublicationState.Published version (pb_attempt_count p) None
    None None (pb_branch_pushed_at p) (pb_pull_request p) (Some project_status) (Some now) provenance.
Definition attempt_failed (version : Z) (failure_detail : string) (p : publication) : publication :=
  PullRequestPublication (pb_effect p) (pb_state p) version (pb_attempt_count p) None None
    (Some failure_detail) (pb_branch_pushed_at p) (pb_pull_request p) (pb_project_status_after p)
    (pb_project_status_updated_at p) (pb_provenance p).

(** Record the operation under the publication as it is now. *)
Definition record_checkpoint (input : checkpoint_publication_input) (idempotency_key operation : string)
    (request : json) (p : publication) : txn publication_db unit :=
  record_publication_operation_tx (cp_corp_id input) idempotency_key
    (new_operation p (cp_actor_id input) operation (Some (cp_publisher_token input)) request).

Definition record_branch_pushed (env : publication_env) (input : checkpoint_publication_input)
    (idempotency_key : string) (request : json) (row : publication * option uuid) (commit_sha : string) :
    txn publication_db (publication * list new_event * bool) :=
  let current := row.1 in let e := pb_effect current in
  if (publication_state_rank PublicationState.BranchPushed <=? publication_state_rank (pb_state current))%Z
  then
    lift (bail_if (negb (seqb (pe_commit_sha e) commit_sha) || negb (is_some (pb_branch_pushed_at current)))
            "conflict: publication branch checkpoint does not match the persisted branch");;
    record_checkpoint input idempotency_key "branch_pushed" request current;;
    mret (current, [], true)
  else
    lift (bail_if (negb (bool_decide (pb_state current = PublicationState.Publishing))
                   || negb (seqb (pe_commit_sha e) commit_sha))
            "conflict: publication cannot record this branch checkpoint");;
    version ← lift (next_version (pb_version current));
    p ← store_publication_tx (branch_pushed version (pv_db_now env) current) row.2;
    record_checkpoint input idempotency_key "branch_pushed" request p;;
    event ← publication_event_tx p (cp_actor_id input) "factory.publication_branch_pushed"
      (json_object
         [("repository", JStr (pe_target_repository e)); ("branch", JStr (pe_branch e));
          ("commit_sha", JStr (pe_commit_sha e)); ("attempt", json_attempt p)]);
    mret (p, option_list event, false).

Definition pull_request_provenance (r : pull_request_report) : json :=
  json_object
    [("number", JInt (rr_number r)); ("node_id", JStr (rr_node_id r)); ("url", JStr (rr_url r));
     ("state", JStr (rr_state r)); ("draft", JBool (rr_draft r)); ("title", JStr (rr_title r));
     ("body", JStr (rr_body r)); ("base_ref", JStr (rr_base_ref r)); ("head_sha", JStr (rr_head_sha r));
     ("head_repository_owner", JStr (rr_head_repository_owner r)); ("is_cross_repository", JBool false);
     ("auto_merge", JBool false)].

Definition record_pull_request_created (input : checkpoint_publication_input)
    (idempotency_key : string) (request : json) (row : publication * option uuid)
    (report : pull_request_report) : txn publication_db (publication * list new_event * bool) :=
  let current := row.1 in
  lift (validate_pull_request_identity current report);;
  if (publication_state_rank PublicationState.PullRequestCreated
      <=? publication_state_rank (pb_state current))%Z
  then
    lift (ensure_pull_request_identity_matches current report);;
    record_checkpoint input idempotency_key "pull_request_created" request current;;
    mret (current, [], true)
  else
    lift (bail_if (negb (bool_decide (pb_state current = PublicationState.BranchPushed)))
            "conflict: pull request cannot be recorded before the branch is durable");;
    provenance ← lift (index_set ["pull_request"] (pull_request_provenance report) (pb_provenance current));
    version ← lift (next_version (pb_version current));
    p ← store_publication_tx (pull_request_created version report provenance current) row.2;
    record_checkpoint input idempotency_key "pull_request_created" request p;;
    let c := pb_pull_request p in
    event ← publication_event_tx p (cp_actor_id input) "factory.pull_request_created"
      (json_object
         [("pull_request_number", json_opt_int (pr_number c));
          ("pull_request_node_id", json_opt_str (pr_node_id c));
          ("pull_request_url", json_opt_str (pr_url c)); ("pull_request_state", json_opt_str (pr_state c));
          ("draft", json_opt_bool (pr_draft c)); ("base_ref", json_opt_str (pr_base_ref c));
          ("head_sha", json_opt_str (pr_head_sha c));
          ("head_repository_owner", json_opt_str (pr_head_repository_owner c));
          ("is_cross_repository", json_opt_bool (pr_is_cross_repository c));
          ("auto_merge", JBool false); ("attempt", json_attempt p)]);
    mret (p, option_list event, false).

Definition published_provenance (project_status field_id option_id : string) (provenance : json) :
    result json :=
  provenance ← index_set ["project"; "status_after"] (JStr project_status) provenance;
  provenance ← index_set ["project"; "field_id"] (JStr field_id) provenance;
  index_set ["project"; "option_id"] (JStr option_id) provenance.

Definition record_published (env : publication_env) (input : checkpoint_publication_input)
    (idempotency_key : string) (request : json) (row : publication * option uuid)
    (project_status field_id option_id : string) :
    txn publication_db (publication * list new_event * bool) :=
  let current := row.1 in
  expected_status ← lift (with_context (pointer ["project"; "review_status"] (pb_provenance current) ≫= as_str)
                            "publication provenance omitted Project review status");
  lift (bail_if (negb (seqb project_status expected_status))
          ("Project status " +:+ project_status +:+ " does not match authorized review status "
           +:+ expected_status));;
  lift (normalize_factory_identifier field_id "GitHub Project field id" 200);;
  lift (normalize_factory_identifier option_id "GitHub Project option id" 200);;
  if is_published current then
    lift (bail_if (negb (bool_decide (pb_project_status_after current = Some project_status)))
            "conflict: publication already completed with a different Project status");;
    record_checkpoint input idempotency_key "published" request current;;
    mret (current, [], true)
  else
    lift (bail_if (negb (bool_decide (pb_state current = PublicationState.PullRequestCreated))
                   || negb (is_some (pr_number (pb_pull_request current)))
                   || negb (is_some (pr_url (pb_pull_request current))))
            "conflict: Project review status cannot advance before the pull request exists");;
    provenance ← lift (published_provenance project_status field_id option_id (pb_provenance current));
    version ← lift (next_version (pb_version current));
    p ← store_publication_tx (published version (pv_db_now env) project_status provenance current) None;
    modify (on_attempts (alter (finish_attempt (λ _, pv_db_now env) (cp_corp_id input) "published" (λ _, None))
                           (pb_id p, pb_attempt_count p)));;
    let e := pb_effect p in
    factory_version ← advance_item_tx (cp_corp_id input) (pe_factory_work_item_id e)
      ItemState.Publishing ItemState.Published;
    modify (on_exec (on_deliverables (fmap (λ d,
      if (sd_id d =? pe_source_deliverable_id e)%N && (sd_corp d =? cp_corp_id input)%N
      then set_sd_integration_state "published" d else d))));;
    record_checkpoint input idempotency_key "published" request p;;
    room_id ← read_directory (publication_room_id (pb_corp_id p) (pe_mission_id e));
    item_event ← item_state_event_tx (cp_corp_id input) (pe_factory_work_item_id e) (pe_mission_id e)
      room_id (cp_actor_id input) factory_version ItemState.Publishing ItemState.Published
      [("publication_id", json_uuid (pb_id p)); ("pull_request_url", json_opt_str (pr_url (pb_pull_request p)))];
    event ← publication_event_tx p (cp_actor_id input) "factory.publication_completed"
      (json_object
         [("pull_request_number", json_opt_int (pr_number (pb_pull_request p)));
          ("pull_request_url", json_opt_str (pr_url (pb_pull_request p)));
          ("project_status", json_opt_str (pb_project_status_after p)); ("attempt", json_attempt p);
          ("auto_merge", JBool false); ("merge", JBool false); ("deploy", JBool false)]);
    mret (p, option_list item_event ++ option_list event, false).

Definition record_failed (env : publication_env) (input : checkpoint_publication_input)
    (idempotency_key : string) (request : json) (row : publication * option uuid)
    (failure_detail : string) : txn publication_db (publication * list new_event * bool) :=
  let current := row.1 in
  lift (bail_if (is_published current) "conflict: a published pull request cannot be marked failed");;
  version ← lift (next_version (pb_version current));
  p ← store_publication_tx (attempt_failed version failure_detail current) None;
  modify (on_attempts (alter (finish_attempt (λ _, pv_db_now env) (cp_corp_id input) "failed"
                                (λ _, Some failure_detail)) (pb_id p, pb_attempt_count p)));;
  record_checkpoint input idempotency_key "failed" request p;;
  event ← publication_event_tx p (cp_actor_id input) "factory.publication_failed"
    (json_object [("state", json_state p); ("attempt", json_attempt p);
                  ("failure_detail", json_opt_str (pb_failure_detail p))]);
  mret (p, option_list event, false).

(** A failure closes the attempt without new authority; the effects need it. *)
Definition authorised_row (env : publication_env) (input : checkpoint_publication_input)
    (checkpoint : publication_checkpoint) (row : publication * option uuid) :
    txn publication_db (publication * option uuid) :=
  match checkpoint with
  | CheckpointFailed _ => mret row
  | _ =>
      revalidate_publication_authority_tx env row.1 (cp_actor_id input);;
      row ← publication_by_id_tx (cp_corp_id input) (cp_publication_id input);
      lift (with_context row "publication disappeared after authority revalidation")
  end.

Definition checkpoint_new (env : publication_env) (input : checkpoint_publication_input)
    (idempotency_key publisher_id : string) (checkpoint : publication_checkpoint) (request : json) :
    txn publication_db publication_outcome :=
  row ← publication_by_id_tx (cp_corp_id input) (cp_publication_id input);
  row ← lift (with_context row "pull-request publication not found");
  ensure_active_publication_control_tx row.1 row.2 (cp_actor_id input) publisher_id
    (cp_publisher_token input) (cp_expected_version input) (pv_now env);;
  row ← authorised_row env input checkpoint row;
  recorded ← match checkpoint with
             | CheckpointBranchPushed commit_sha =>
                 record_branch_pushed env input idempotency_key request row commit_sha
             | CheckpointPullRequestCreated report =>
                 record_pull_request_created input idempotency_key request row report
             | CheckpointPublished project_status field_id option_id =>
                 record_published env input idempotency_key request row project_status field_id option_id
             | CheckpointFailed failure_detail =>
                 record_failed env input idempotency_key request row failure_detail
             end;
  let '(p, events, replayed) := recorded in
  let publisher_token :=
    if negb (is_published p) && is_some (pb_publisher_lease_expires_at p)
    then Some (cp_publisher_token input) else None in
  mret (PullRequestPublicationOutcome p publisher_token events replayed false).

Definition record_pull_request_publication_checkpoint (env : publication_env)
    (input : checkpoint_publication_input) : txn publication_db publication_outcome :=
  lift (bail_if (cp_expected_version input <=? 0)%Z "expected publication version must be positive");;
  identity ← lift (publisher_identity (cp_idempotency_key input) (cp_publisher_id input)
                     (cp_publisher_credential_hash input));
  let '(idempotency_key, publisher_id, credential) := identity in
  normalized ← lift (normalize_checkpoint (cp_checkpoint input));
  let '(operation_name, checkpoint, checkpoint_request) := normalized in
  let request := checkpoint_operation_request publisher_id checkpoint_request in
  assert_actor_scope_tx (cp_corp_id input) (cp_actor_id input);;
  revalidate_publication_publisher_credential_tx env (cp_corp_id input) publisher_id credential;;
  operation ← publication_operation_tx (cp_corp_id input) idempotency_key;
  match operation with
  | Some operation => checkpoint_replay env input operation_name request operation
  | None => checkpoint_new env input idempotency_key publisher_id checkpoint request
  end.
End handlers.

(** ** Credentials of publishers *)
Section credentials.
Context `{Serde}.

Record enrol_outcome := PublicationPublisherCredentialOutcome {
  eo_credential_id : uuid; eo_publisher_id : string; eo_expires_at : timestamp; eo_event : new_event; }.

Definition owner_or_admin (corp_id actor_id : uuid) (action : string) (dir : directory) : result unit :=
  bail_if (negb match dir_actors dir !! actor_id with
                | Some a => (actor_corp a =? corp_id)%N && seqb (actor_kind a) "human"
                            && mem (actor_role a) ["owner"; "admin"]
                | None => false
                end)
    ("forbidden: only a Corp owner or admin can " +:+ action +:+ " a publication publisher").

Definition credential_digest (value message : string) : result string :=
  let value := to_ascii_lowercase (trim value) in
  bail_if (negb (str_len value =? 64)%Z || negb (all_bytes is_ascii_hexdigit value)) message;;
  Ok value.

(** [pv_publication_id] is the fresh id, [credential_hash] is UNIQUE. *)
Definition create_publication_publisher_credential (env : publication_env) (corp_id actor_id : uuid)
    (publisher_id credential_hash : string) (expires_at : timestamp) : txn publication_db enrol_outcome :=
  publisher_id ← lift (normalize_factory_identifier publisher_id "trusted publisher id" 160);
  credential_hash ← lift (credential_digest credential_hash
    "publication publisher credential hash must be a SHA-256 digest");
  lift (bail_if (expires_at <=? pv_now env)%Z
          "publication publisher credential expiry must be in the future");;
  read_directory (owner_or_admin corp_id actor_id "enroll");;
  let credential_id := pv_publication_id env in
  taken ← gets (λ db, is_some (pd_credentials db !! credential_id)
    || existsb (λ c, seqb (pc_credential_hash c.2) credential_hash) (map_to_list (pd_credentials db)));
  lift (bail_if taken duplicate_key);;
  lift (bail_if (expires_at <=? pv_db_now env)%Z "new row violates check constraint");;
  modify (on_credentials <[credential_id :=
    PublisherCredential corp_id publisher_id credential_hash expires_at None None]>);;
  event ← append_new_event
    (new_event_of corp_id (Some actor_id) "factory.publication_publisher_enrolled"
       "publication_publisher" credential_id
       ("publication-publisher-enrolled:" +:+ uuid_to_string credential_id)
       (json_object [("publisher_id", JStr publisher_id);
                     ("expires_at", JStr (timestamp_rfc3339 expires_at))]))
    "publication publisher enrollment event was unexpectedly deduplicated";
  mret (PublicationPublisherCredentialOutcome credential_id publisher_id expires_at event).

Definition authenticate_publication_publisher (env : publication_env) (corp_id : uuid)
    (credential_hash : string) : txn publication_db string :=
  credential_hash ← lift (credential_digest credential_hash
    "forbidden: invalid publication publisher credential");
  found ← gets (λ db, find (λ c, credential_usable (pv_db_now env) corp_id credential_hash c.2)
                        (map_to_list (pd_credentials db)));
  row ← lift (with_context found
    "forbidden: unknown, expired, or revoked publication publisher credential");
  modify (on_credentials (alter (touch_credential (pv_db_now env)) row.1));;
  mret (pc_publisher_id row.2).

Definition revoke_credential (now : timestamp) (c : publisher_credential) : publisher_credential :=
  PublisherCredential (pc_corp_id c) (pc_publisher_id c) (pc_credential_hash c) (pc_expires_at c)
    (pc_last_used_at c) (Some now).

Record revocation_outcome := PublicationPublisherCredentialRevocationOutcome {
  vo_credential_id : uuid; vo_publisher_id : string; vo_revoked : bool; vo_event : option new_event; }.

Definition revoke_publication_publisher_credential (env : publication_env)
    (corp_id actor_id credential_id : uuid) (reason : string) : txn publication_db revocation_outcome :=
  reason ← lift (normalize_factory_text reason "publisher credential revocation reason" 2000);
  read_directory (owner_or_admin corp_id actor_id "revoke");;
  row ← gets (λ db, c ← pd_credentials db !! credential_id;
                    if (pc_corp_id c =? corp_id)%N then Some c else None);
  row ← lift (with_context row "publication publisher credential was not found");
  if is_some (pc_revoked_at row) then
    mret (PublicationPublisherCredentialRevocationOutcome credential_id (pc_publisher_id row) false None)
  else
    modify (on_credentials (alter (revoke_credential (pv_db_now env)) credential_id));;
    event ← append_event_tx
      (new_event_of corp_id (Some actor_id) "factory.publication_publisher_revoked"
         "publication_publisher" credential_id
         ("publication-publisher-revoked:" +:+ uuid_to_string credential_id)
         (json_object [("publisher_id", JStr (pc_publisher_id row)); ("reason", JStr reason)]));
    mret (PublicationPublisherCredentialRevocationOutcome credential_id (pc_publisher_id row) true event).
End credentials.

(** ** What a viewer may read *)

(** An operator of the corp in the room of the item's mission sees the item. *)
Definition viewer_of_mission (db : exec_db) (corp_id viewer_actor_id mission_id : uuid) : bool :=
  match mission_of db mission_id with
  | Some m => (mi_corp m =? corp_id)%N
              && bool_decide ((mi_room m, viewer_actor_id) ∈ ba_memberships (x_base db))
  | None => false
  end.
Definition human_operator (db : exec_db) (corp_id actor_id : uuid) : bool :=
  match ba_actors (x_base db) !! actor_id with
  | Some a => (actor_corp a =? corp_id)%N && seqb (actor_kind a) "human"
              && mem (actor_role a) operator_roles
  | None => false
  end.

(** The publication of an item, for a member of the room of its mission. *)
Definition publication_for_work_item_viewer (corp_id viewer_actor_id work_item_id : uuid)
    (db : publication_db) : option (publication * option uuid) :=
  snd <$> find (λ row, let e := pb_effect row.2.1 in
    (pe_factory_work_item_id e =? work_item_id)%N && (pe_corp_id e =? corp_id)%N
    && match mission_of (pd_exec db) (pe_mission_id e) with
       | Some m => bool_decide ((mi_room m, viewer_actor_id) ∈ ba_memberships (x_base (pd_exec db)))
       | None => false
       end) (map_to_list (pd_publications db)).

Definition pull_request_publication_for_work_item (corp_id viewer_actor_id work_item_id : uuid) :
    txn publication_db (option publication) :=
  assert_actor_scope_tx corp_id viewer_actor_id;;
  gets (λ db, fst <$> publication_for_work_item_viewer corp_id viewer_actor_id work_item_id db).

Record publication_context := FactoryPublicationContext {
  fc_work_item : factory_work_item; fc_publication : option publication;
  fc_source_deliverables : list (x_deliverable * x_artifact); }.

(** The deliverables of the mission with a ready artifact, ORDER BY created_at DESC, id. *)
Definition newer_deliverable (x y : x_deliverable) : bool :=
  ((sd_created_at y <? sd_created_at x)
   || ((sd_created_at x =? sd_created_at y) && (Z.of_N (sd_id x) <=? Z.of_N (sd_id y))))%Z.
Definition context_deliverables (db : exec_db) (corp_id viewer_actor_id mission_id : uuid) :
    list (x_deliverable * x_artifact) :=
  omap (λ d,
    artifact ← si_artifacts (x_side db) !! sd_artifact d;
    task ← task_of db (sd_task d);
    mission ← mission_of db (ta_mission task);
    if seqb (af_status artifact) "ready" && (sd_corp d =? corp_id)%N && (ta_mission task =? mission_id)%N
       && bool_decide ((mi_room mission, viewer_actor_id) ∈ ba_memberships (x_base db))
    then Some (d, artifact) else None) (sort_by newer_deliverable (si_deliverables (x_side db))).

Definition factory_publication_context (corp_id viewer_actor_id work_item_id : uuid) :
    txn publication_db (option publication_context) :=
  assert_actor_scope_tx corp_id viewer_actor_id;;
  gets (λ db,
    let x := pd_exec db in
    row ← work_item_of x corp_id work_item_id;
    mission_id ← fw_mission_id row.1;
    if viewer_of_mission x corp_id viewer_actor_id mission_id && human_operator x corp_id viewer_actor_id
    then Some (FactoryPublicationContext row.1
                 (fst <$> publication_for_work_item_viewer corp_id viewer_actor_id work_item_id db)
                 (context_deliverables x corp_id viewer_actor_id mission_id))
    else None).
