(* ===== verification/PublicationSteps.v ===== *)
(** * Publication as steps on its rows

    [pub_step] is the abstract specification of publication: what may happen to a
    row, to its publisher and to its attempts, and who may do it.  Every handler
    that succeeds is a sequence of such steps ([handled_by_steps]); the safety
    properties of publication are proved of the steps. *)
From S2P Require Import Prelude Text Json Domain Planning FactoryPolicy Store FactoryItems Breaker ExecTables Checkpoint RunFailure PublicationRules Publication.

(** ** The specification *)
Abbreviation pub_row := (publication * option uuid)%type.

(** The publisher that presents [token] holds the row at [now]. *)
Definition holds (now : timestamp) (token : uuid) (row : pub_row) : Prop :=
  is_published row.1 = false ∧ row.2 = Some token ∧ lease_live now row.1 = true.

Definition fresh_token (db : publication_db) (id token : uuid) : Prop :=
  ∀ id' row, pd_publications db !! id' = Some row → id' ≠ id → row.2 ≠ Some token.

(** The database after a row and its attempts changed. *)
Definition with_rows (db : publication_db) (rows : gmap uuid pub_row)
    (attempts : gmap (uuid * Z) publication_attempt) (db' : publication_db) : Prop :=
  pd_publications db' = rows ∧ pd_attempts db' = attempts.

(** The checkpoints a holder may record. *)
Inductive progress (db_now : timestamp) : publication → publication → Prop :=
| progress_renewed p version lease : next_version (pb_version p) = Ok version →
    progress db_now p (renewed version lease p)
| progress_pushed p version : pb_state p = PublicationState.Publishing →
    next_version (pb_version p) = Ok version →
    progress db_now p (branch_pushed version db_now p)
| progress_created p raw r version provenance : pb_state p = PublicationState.BranchPushed →
    normalize_report raw = Ok r → validate_pull_request_identity p r = Ok tt →
    index_set ["pull_request"] (pull_request_provenance r) (pb_provenance p) = Ok provenance →
    next_version (pb_version p) = Ok version →
    progress db_now p (pull_request_created version r provenance p).

(** How a holder ends its attempt: the state of the attempt, and the row. *)
Inductive closing (db_now : timestamp) : publication → string → (option string → option string) →
    publication → Prop :=
| closing_published p version status provenance : pb_state p = PublicationState.PullRequestCreated →
    next_version (pb_version p) = Ok version →
    closing db_now p "published" (λ _, None) (published version db_now status provenance p)
| closing_failed p version detail : is_published p = false →
    next_version (pb_version p) = Ok version →
    closing db_now p "failed" (λ _, Some detail) (attempt_failed version detail p).

Definition abandon (now : timestamp) (id corp_id : uuid) :
    gmap (uuid * Z) publication_attempt → gmap (uuid * Z) publication_attempt :=
  map_imap (λ key a,
    Some (if (key.1 =? id)%N
          then finish_attempt (default now) corp_id "abandoned" (λ detail, Some (default lease_expired_detail detail)) a
          else a)).

Section steps.
Context `{Serde} `{ExecSerde} `{PublicationAuthorities}.

(** [presented] is the token of the request; starting a publication presents none. *)
Inductive pub_step (env : publication_env) (presented : option uuid) (db db' : publication_db) : Prop :=
| step_quiet : with_rows db (pd_publications db) (pd_attempts db) db' → pub_step env presented db db'
| step_upgraded id p token a provenance :
    pd_publications db !! id = Some (p, token) → running_attempt p db = Some a →
    with_rows db (<[id := (set_pb_provenance provenance p, token)]> (pd_publications db))
      (pd_attempts db) db' → pub_step env presented db db'
| step_opened raw input pre a :
    normalize_start_input raw = Ok input → presented = None →
    validate_publication_prerequisites (pv_db_now env) (from_start input) false (pd_exec db) = Ok pre →
    pd_publications db !! pv_publication_id env = None →
    (∀ id row, pd_publications db !! id = Some row →
       effects_collide (pb_effect (new_publication env input pre)) (pb_effect row.1) = false) →
    fresh_token db (pv_publication_id env) (pv_publisher_token env) →
    pa_corp_id a = sp_corp_id input → pa_state a = "running" →
    with_rows db
      (<[pv_publication_id env := (new_publication env input pre, Some (pv_publisher_token env))]>
         (pd_publications db))
      (<[(pv_publication_id env, 1%Z) := a]> (pd_attempts db)) db' →
    pub_step env presented db db'
| step_taken_over raw input id p token version attempts a :
    normalize_start_input raw = Ok input → presented = None →
    pd_publications db !! id = Some (p, token) → pb_id p = id → is_published p = false →
    lease_live (pv_now env) p && is_some token = false →
    pb_corp_id p = sp_corp_id input →
    next_version (pb_version p) = Ok version → int4 (pb_attempt_count p + 1) = Ok attempts →
    fresh_token db id (pv_publisher_token env) →
    pa_corp_id a = pb_corp_id p → pa_state a = "running" →
    with_rows db
      (<[id := (taken_over input (lease_end_of env (sp_lease_seconds input)) version attempts p,
                Some (pv_publisher_token env))]> (pd_publications db))
      (<[(id, attempts) := a]> (abandon (pv_db_now env) id (pb_corp_id p) (pd_attempts db))) db' →
    pub_step env presented db db'
| step_progress id p token p' :
    pd_publications db !! id = Some (p, Some token) → presented = Some token →
    holds (pv_now env) token (p, Some token) → progress (pv_db_now env) p p' →
    with_rows db (<[id := (p', Some token)]> (pd_publications db)) (pd_attempts db) db' →
    pub_step env presented db db'
| step_closed id p token state detail p' :
    pd_publications db !! id = Some (p, Some token) → pb_id p = id → presented = Some token →
    holds (pv_now env) token (p, Some token) → closing (pv_db_now env) p state detail p' →
    with_rows db (<[id := (p', None)]> (pd_publications db))
      (alter (finish_attempt (λ _, pv_db_now env) (pb_corp_id p) state detail) (id, pb_attempt_count p)
         (pd_attempts db)) db' →
    pub_step env presented db db'.

(** ** The requests *)
Inductive publication_request :=
| StartPublication (input : start_publication_input)
| RenewPublication (input : renew_publication_input)
| RecordCheckpoint (input : checkpoint_publication_input).

Definition handle_publication (env : publication_env) (request : publication_request) :
    txn publication_db publication_outcome :=
  match request with
  | StartPublication input => start_pull_request_publication env input
  | RenewPublication input => renew_pull_request_publication env input
  | RecordCheckpoint input => record_pull_request_publication_checkpoint env input
  end.

Definition presented_token (request : publication_request) : option uuid :=
  match request with
  | StartPublication _ => None
  | RenewPublication input => Some (rp_publisher_token input)
  | RecordCheckpoint input => Some (cp_publisher_token input)
  end.

(** The system: any request at any time, the credential handlers, and whatever the
    other components do to their own tables in between. *)
Inductive publication_step : publication_db → publication_db → Prop :=
| publication_step_handled env request db :
    publication_step db (run_txn (handle_publication env request) db).2
| publication_step_enrolled env corp actor publisher hash expiry db :
    publication_step db
      (run_txn (create_publication_publisher_credential env corp actor publisher hash expiry) db).2
| publication_step_authenticated env corp hash db :
    publication_step db (run_txn (authenticate_publication_publisher env corp hash) db).2
| publication_step_revoked env corp actor id reason db :
    publication_step db (run_txn (revoke_publication_publisher_credential env corp actor id reason) db).2
| publication_step_elsewhere f db : publication_step db (on_exec f db).

(** ** A frame rule for publication *)

(** A transaction moves the database within [R]. *)
Definition keeps (R : publication_db → publication_db → Prop) {A} (t : txn publication_db A) : Prop :=
  txn_within R t.

(** A relation that does not see the tables of the other components, the use of a
    credential, and a new entry among the recorded operations. *)
Class PublicationFrame (R : publication_db → publication_db → Prop) : Prop := {
  #[global] publication_frame_preorder :: PreOrder R;
  frame_exec f s : R s (on_exec f s);
  frame_touch now id s : R s (on_credentials (alter (touch_credential now) id) s);
  frame_operation key op s : pd_operations s !! key = None →
    R s (on_publication_operations <[key := op]> s);
}.

Definition same_rows (db db' : publication_db) : Prop :=
  pd_publications db' = pd_publications db ∧ pd_attempts db' = pd_attempts db.
#[global] Instance same_rows_frame : PublicationFrame same_rows.
Proof.
  split; [split; [by intros ?|]; intros x y z [? ?] [? ?]; split; congruence | by split..].
Qed.
End steps.

Section keeps.
Context (R : publication_db → publication_db → Prop) `{!PreOrder R}.

Lemma keeps_bind_tx {A B} (m : txn publication_db A) (f : A → txn publication_db B) :
  keeps R m → (∀ a, keeps R (f a)) → keeps R (m ≫= f).
Proof. by apply within_bind. Qed.
Lemma keeps_read {A} (t : txn publication_db A) : (∀ s a s', t s = Ok (a, s') → s' = s) → keeps R t.
Proof. by apply within_same. Qed.
Lemma keeps_modify_tx f : (∀ s, R s (f s)) → keeps R (modify f).
Proof. by apply within_modify. Qed.
Lemma keeps_lift_tx {A} (r : result A) : keeps R (lift r).
Proof. apply keeps_read. by intros s a s' [_ ->]%lift_ok. Qed.
Lemma keeps_gets_tx {A} (f : publication_db → A) : keeps R (gets f).
Proof. apply keeps_read. by intros s a s' [_ ->]%gets_ok. Qed.
Lemma keeps_mret {A} (a : A) : keeps R (mret a).
Proof. apply keeps_read. by intros s b s' [_ ->]%mret_ok. Qed.
Lemma keeps_directory {A} (f : directory → result A) : keeps R (read_directory f).
Proof. apply keeps_read. by intros s b s' [_ ->]%read_directory_ok. Qed.
End keeps.

Lemma keeps_event R `{!PublicationFrame R} event : keeps R (append_event_tx event).
Proof.
  intros s a s'. unfold append_event_tx. case_match; intros [= _ <-]; [reflexivity | apply frame_exec].
Qed.

Lemma read_exec_ok {A} (f : exec_db → result A) s a s' :
  read_exec f s = Ok (a, s') ↔ f (pd_exec s) = Ok a ∧ s' = s.
Proof. apply lift_ok. Qed.
Lemma keeps_exec R `{!PreOrder R} {A} (f : exec_db → result A) : keeps R (read_exec f).
Proof. apply keeps_read; [apply _ |]. by intros s b s' [_ ->]%read_exec_ok. Qed.

Create HintDb rows.
#[export] Hint Resolve keeps_lift_tx keeps_gets_tx keeps_mret keeps_directory keeps_exec keeps_event : rows.
(** Walk through a transaction. *)
Ltac keep :=
  repeat first
    [ progress eauto with rows nocore typeclass_instances
    | apply keeps_bind_tx; [apply _ | | intros ?]
    | match goal with
      | |- keeps _ (if ?b then _ else _) => destruct b
      | |- keeps _ (match ?x with _ => _ end) => destruct x
      | |- keeps _ (let '(_, _) := ?x in _) => destruct x
      | |- keeps _ (modify _) => apply keeps_modify_tx; intros ?; first [apply frame_exec | apply frame_touch]
      end ].

(** *** What only reads *)
Section reads.
Context `{Serde}.
Context (R : publication_db → publication_db → Prop) `{!PreOrder R}.

Lemma keeps_membership corp room actor : keeps R (assert_room_membership_tx corp room actor).
Proof using All. apply keeps_directory, _. Qed.
Lemma keeps_scope corp actor : keeps R (assert_actor_scope_tx corp actor).
Proof using All. apply keeps_directory, _. Qed.
Lemma keeps_by_id corp id : keeps R (publication_by_id_tx corp id).
Proof using All. apply keeps_gets_tx, _. Qed.
Lemma keeps_find_operation corp key : keeps R (publication_operation_tx corp key).
Proof using All. apply keeps_gets_tx, _. Qed.
Lemma keeps_collision input : keeps R (publication_collision_tx input).
Proof using All. apply keeps_gets_tx, _. Qed.
Lemma keeps_room p actor : keeps R (assert_publication_room_membership_tx p actor).
Proof using All. unfold assert_publication_room_membership_tx, assert_room_membership_tx. keep. Qed.
Lemma keeps_control p token actor publisher presented version now :
  keeps R (ensure_active_publication_control_tx p token actor publisher presented version now).
Proof using All. unfold ensure_active_publication_control_tx. keep. Qed.
End reads.
#[export] Hint Resolve keeps_membership keeps_scope keeps_by_id keeps_find_operation keeps_collision
  keeps_room keeps_control : rows.

(** *** What writes to the other tables *)
Section rows.
Context `{Serde} `{ExecSerde} `{PublicationAuthorities}.
Context (R : publication_db → publication_db → Prop) `{!PublicationFrame R}.

Lemma keeps_credential env corp publisher hash :
  keeps R (revalidate_publication_publisher_credential_tx env corp publisher hash).
Proof using All. unfold revalidate_publication_publisher_credential_tx. keep. Qed.
Lemma keeps_operation corp key op : keeps R (record_publication_operation_tx corp key op).
Proof using All.
  intros s a s' Ht. unfold record_publication_operation_tx in Ht. txn_inv. res_inv. apply frame_operation.
  by destruct (pd_operations _ !! _).
Qed.
Lemma keeps_record input key operation request p :
  keeps R (record_checkpoint input key operation request p).
Proof using All. apply keeps_operation. Qed.
Lemma keeps_publication_event p actor event_type payload :
  keeps R (publication_event_tx p actor event_type payload).
Proof using All. unfold publication_event_tx. keep. Qed.
Lemma keeps_advance corp item previous state : keeps R (advance_item_tx corp item previous state).
Proof using All. unfold advance_item_tx. keep. Qed.
Lemma keeps_item_event corp item mission room actor version previous state extra :
  keeps R (item_state_event_tx corp item mission room actor version previous state extra).
Proof using All. apply keeps_event, _. Qed.
End rows.
#[export] Hint Resolve keeps_credential keeps_operation keeps_record keeps_publication_event
  keeps_advance keeps_item_event : rows.

(** ** What the row operations do *)
Section operations.
Context `{Serde} `{ExecSerde} `{PublicationAuthorities}.

Lemma by_id_ok corp id s row s' : publication_by_id_tx corp id s = Ok (Some row, s') →
  s' = s ∧ pd_publications s !! id = Some row ∧ pb_corp_id row.1 = corp.
Proof.
  unfold publication_by_id_tx, gets. intros [= Hr <-]. apply bind_Some in Hr as (row' & Hr & Hc).
  case_match eqn:E; simplify_eq. by apply N.eqb_eq in E.
Qed.

Lemma found_row corp id message s row s' :
  (row ← publication_by_id_tx corp id; lift (with_context row message)) s = Ok (row, s') →
  s' = s ∧ pd_publications s !! id = Some row ∧ pb_corp_id row.1 = corp.
Proof.
  intros Ht. apply txn_bind_ok in Ht as (o & s1 & Ho & Ht). apply lift_ok in Ht as [->%with_context_ok ->].
  by apply by_id_ok in Ho.
Qed.

Lemma token_not_taken id token rows : publisher_token_taken id (Some token) rows = false →
  ∀ id' row, rows !! id' = Some row → id' ≠ id → row.2 ≠ Some token.
Proof.
  unfold publisher_token_taken. intros Hf id' row Hr Hne Ht. apply not_true_iff_false in Hf. apply Hf.
  apply existsb_exists. exists (id', row). split; [by apply list_elem_of_In, elem_of_map_to_list |].
  simpl. rewrite Ht, bool_decide_eq_true_2 by done. apply N.eqb_neq in Hne. by rewrite Hne.
Qed.

Lemma store_ok p token s p' s' : store_publication_tx p token s = Ok (p', s') →
  p' = p ∧ s' = on_publications <[pb_id p := (p, token)]> s ∧
  ∀ t, token = Some t → fresh_token s (pb_id p) t.
Proof.
  unfold store_publication_tx. intros Ht. txn_inv. res_inv. split_and!; [done.. |].
  intros t ->. intros id' row. by apply token_not_taken.
Qed.

Lemma insert_ok p token s p' s' : insert_publication_tx p token s = Ok (p', s') →
  p' = p ∧ s' = on_publications <[pb_id p := (p, token)]> s ∧
  (∀ t, token = Some t → fresh_token s (pb_id p) t) ∧
  pd_publications s !! pb_id p = None ∧
  ∀ id row, pd_publications s !! id = Some row → effects_collide (pb_effect p) (pb_effect row.1) = false.
Proof.
  unfold insert_publication_tx. intros Ht. txn_step. txn_step. txn_inv. res_inv.
  match goal with Hs : store_publication_tx _ _ _ = _ |- _ => apply store_ok in Hs as (-> & -> & Hf) end.
  split_and!; try done.
  - match goal with Hs : is_some _ = false |- _ => by destruct (pd_publications _ !! _) end.
  - intros id row Hr. match goal with Hs : existsb _ _ = false |- _ => rename Hs into Hx end.
    apply not_true_iff_false. intros Hc. apply not_true_iff_false in Hx. apply Hx, existsb_exists.
    exists (id, row). split; [by apply list_elem_of_In, elem_of_map_to_list | done].
Qed.

Lemma attempt_ok p actor authorization_id authorization publisher s u s' :
  insert_publication_attempt_tx p actor authorization_id authorization publisher s = Ok (u, s') →
  pd_attempts s !! (pb_id p, pb_attempt_count p) = None ∧
  s' = on_attempts <[(pb_id p, pb_attempt_count p) := PublicationAttempt (pb_corp_id p) actor
         authorization_id authorization publisher "running" None None]> s.
Proof.
  unfold insert_publication_attempt_tx. intros Ht. txn_inv. res_inv. split; [| done].
  by destruct (pd_attempts _ !! _).
Qed.

Lemma control_ok p token actor publisher presented version now s u s' :
  ensure_active_publication_control_tx p token actor publisher presented version now s = Ok (u, s') →
  s' = s ∧ holds now presented (p, token) ∧ pb_publisher_id p = Some publisher ∧
  pb_version p = version ∧ ∃ a, running_attempt p s = Some a ∧ pa_actor_id a = actor.
Proof.
  unfold ensure_active_publication_control_tx. intros Ht. txn_inv. res_inv.
  repeat match goal with Hb : bool_decide _ = true |- _ => apply bool_decide_eq_true in Hb end.
  match goal with Ha : pa_actor_id <$> _ = Some _ |- _ => apply fmap_Some in Ha as (a & Ha & ->) end.
  split_and!; try done; [by apply Z.eqb_eq | eauto].
Qed.

(** After the revalidation the row is as before, up to its provenance. *)
Lemma revalidate_ok env p actor s u s' :
  revalidate_publication_authority_tx env p actor s = Ok (u, s') →
  (∃ a, running_attempt p s = Some a ∧ pa_actor_id a = actor) ∧
  (s' = s ∨
   ∃ row provenance, pd_publications s !! pb_id p = Some row ∧
     s' = on_publications <[pb_id p := (set_pb_provenance provenance row.1, row.2)]> s).
Proof.
  unfold revalidate_publication_authority_tx. intros Ht. repeat txn_step.
  repeat match goal with Hc : with_context _ _ = Ok _ |- _ => apply with_context_ok in Hc end.
  match goal with Ha : (running_attempt _ _ ≫= _) = Some _ |- _ => apply bind_Some in Ha as (a' & Ha & Hb) end.
  destruct (pa_actor_id a' =? actor)%N eqn:E; [| discriminate Hb]. injection Hb as <-.
  split; [exists a'; split; [done | by apply N.eqb_eq] |].
  repeat match goal with
  | Hr : read_exec _ _ = Ok _ |- _ => apply read_exec_ok in Hr as [? ->]
  | Hr : assert_room_membership_tx _ _ _ _ = Ok _ |- _ => apply read_directory_ok in Hr as [? ->]
  end.
  case_bool_decide; txn_inv; [by left | right].
  match goal with Hc : with_context _ _ = Ok _ |- _ => apply with_context_ok in Hc; apply bind_Some in Hc as (row & Hr & Hc) end.
  case_match; simplify_eq. eauto.
Qed.
End operations.

(** ** Every handler is made of steps *)
Definition keyed (db : publication_db) : Prop :=
  ∀ id row, pd_publications db !! id = Some row → pb_id row.1 = id.
(** Two rows that differ in their provenance at most. *)
Definition same_but_provenance (p p' : publication) : Prop :=
  ∃ provenance, p' = set_pb_provenance provenance p.

Lemma same_but_refl p : same_but_provenance p p.
Proof. exists (pb_provenance p). by destruct p. Qed.
#[export] Hint Resolve same_but_refl : rows.

Lemma keyed_same s s' : same_rows s s' → keyed s → keyed s'.
Proof. intros [Hp _] Hk id row. rewrite Hp. apply Hk. Qed.

Lemma keep_in {A} (t : txn publication_db A) s a s' : keeps same_rows t → t s = Ok (a, s') → same_rows s s'.
Proof. intros Ht. apply Ht. Qed.
(** Carry what is known of the rows over to the next database. *)
Ltac carry Hs s1 :=
  repeat match goal with
  | Hr : pd_publications s1 !! _ = _ |- _ => rewrite <- (proj1 Hs) in Hr
  | Hk : keyed s1 |- _ => apply (keyed_same _ _ Hs) in Hk
  end;
  try match goal with Hp : same_rows ?a s1 |- _ =>
    let Hn := fresh "Hs" in pose proof (transitivity Hp Hs : same_rows a _) as Hn; clear Hp Hs
  end.
(** Take the first transaction off [H] and learn that it leaves the rows alone. *)
Ltac skip H :=
  let a := fresh "a" in let s := fresh "s" in let Ha := fresh "Ha" in
  apply txn_bind_ok in H as (a & s & Ha & H);
  match type of Ha with ?t ?s1 = Ok (_, ?s2) =>
    let Hs := fresh "Hs" in assert (same_rows s1 s2) as Hs by (eapply (keep_in t); [keep | exact Ha]);
    carry Hs s1
  end.
(** Take the first transaction off [H]. *)
Ltac take H a :=
  let s := fresh "s" in let Ha := fresh "Ha" in apply txn_bind_ok in H as (a & s & Ha & H).
(** Take a lookup of a row off [H]. *)
Ltac take_row H row :=
  let o := fresh "o" in let s1 := fresh "s" in let s2 := fresh "s" in
  let Ho := fresh "Ho" in let Hw := fresh "Hw" in let Hr := fresh "Hrow" in let Hc := fresh "Hcorp" in
  apply txn_bind_ok in H as (o & s1 & Ho & H); apply txn_bind_ok in H as (row & s2 & Hw & H);
  apply lift_ok in Hw as [Hw%with_context_ok ->]; subst o;
  apply by_id_ok in Ho as (-> & Hr & Hc).
(** The rest of [H] leaves the rows alone. *)
Ltac rest H :=
  match type of H with ?t ?s1 = Ok (_, ?s2) =>
    let Hs := fresh "Hs" in assert (same_rows s1 s2) as Hs by (eapply (keep_in t); [keep | exact H])
  end.
(** Put the known equalities of rows together. *)
Ltac rows :=
  repeat match goal with Hs : same_rows _ _ |- _ => destruct Hs as [? ?] end;
  unfold with_rows, same_rows; simpl in *; split; congruence.

Section handled.
Context `{Serde} `{ExecSerde} `{PublicationAuthorities}.
Context (env : publication_env).

Lemma step_same presented s s' : same_rows s s' → pub_step env presented s s'.
Proof. intros [? ?]. by apply step_quiet. Qed.

(** A revalidation on the row of [id]: at most its provenance changes. *)
Lemma revalidated presented id p token actor s u s' :
  keyed s → pd_publications s !! id = Some (p, token) →
  revalidate_publication_authority_tx env p actor s = Ok (u, s') →
  pub_step env presented s s' ∧ keyed s' ∧
  ∃ p', pd_publications s' !! id = Some (p', token) ∧ same_but_provenance p p'.
Proof.
  intros Hk Hr Ht. pose proof (Hk _ _ Hr) as Hid. simpl in Hid. subst id.
  apply revalidate_ok in Ht as [(a & Ha & _) [-> | (row & v & Hrow & ->)]].
  - split_and!; [by apply step_same | done | eauto with rows].
  - rewrite Hr in Hrow. injection Hrow as <-. split_and!.
    + eapply step_upgraded; [exact Hr | exact Ha | done].
    + intros id row. simpl. destruct (decide (id = pb_id p)) as [-> | Hne].
      * rewrite lookup_insert_eq. intros [= <-]. done.
      * rewrite lookup_insert_ne by done. apply Hk.
    + simpl. rewrite lookup_insert_eq. eexists. split; [done | by eexists].
Qed.

Lemma revalidated_replay presented id p token op corp actor message s row' s' :
  keyed s → pd_publications s !! id = Some (p, token) →
  revalidate_live_replay env (p, token) op corp id actor message s = Ok (row', s') →
  pub_step env presented s s' ∧ ∃ p', row' = (p', token) ∧ same_but_provenance p p' ∧
    pd_publications s' !! id = Some (p', token).
Proof.
  intros Hk Hr. unfold revalidate_live_replay. destruct (is_some _); intros Ht.
  - apply txn_bind_ok in Ht as (u & s1 & H2 & Ht). apply found_row in Ht as (-> & Hrow & _).
    eapply revalidated in H2 as (Hstep & _ & p' & Hp' & Hs); [| done..].
    rewrite Hp' in Hrow. injection Hrow as <-. eauto.
  - txn_inv. split; [by apply step_same | eauto with rows].
Qed.

Lemma start_replay_steps input op s out s' : keyed s →
  start_replay env input op s = Ok (out, s') → rtc (pub_step env None) s s'.
Proof.
  unfold start_replay. intros Hk Ht. skip Ht. take_row Ht row. skip Ht.
  take Ht row'. destruct row as [p token].
  eapply (revalidated_replay None) in Ha1 as [Hstep _]; [| done..].
  rest Ht. eapply rtc_l; [by apply step_same |].
  eapply rtc_l; [exact Hstep |]. apply rtc_once. by apply step_same.
Qed.

Lemma start_takeover_step raw input id p token s out s' :
  normalize_start_input raw = Ok input →
  pd_publications s !! id = Some (p, token) → pb_id p = id → is_published p = false →
  lease_live (pv_now env) p && is_some token = false → pb_corp_id p = sp_corp_id input →
  start_takeover env input p s = Ok (out, s') → pub_step env None s s'.
Proof.
  unfold start_takeover. intros Hn Hr Hid Hnp Hl Hc Ht.
  take Ht u. apply modify_ok in Ha as ->. take Ht version. apply lift_ok in Ha as [Hv ->].
  take Ht attempts. apply lift_ok in Ha as [Hat ->].
  take Ht recovered. apply store_ok in Ha as (-> & -> & Hf).
  take Ht u'. apply attempt_ok in Ha as (Hnew & ->). rest Ht.
  eapply step_taken_over; [exact Hn | done | exact Hr | done..| exact Hv | exact Hat | | | |]; last first.
  - destruct Hs as [Hp Ha]. split; [rewrite Hp | rewrite Ha]; subst id; simpl; [done |].
    unfold abandon. rewrite Hc. reflexivity.
  - done.
  - done.
  - specialize (Hf _ eq_refl). intros id' row Hrow. subst id. by apply (Hf id' row).
Qed.

Lemma start_new_step raw input s out s' : normalize_start_input raw = Ok input →
  start_new env input s = Ok (out, s') → pub_step env None s s'.
Proof.
  unfold start_new. intros Hn Ht. take Ht pre. apply read_exec_ok in Ha as [Hpre ->].
  take Ht u. apply read_directory_ok in Ha as [_ ->].
  take Ht p. apply insert_ok in Ha as (-> & -> & Hf & Hnone & Huniq).
  take Ht u'. apply attempt_ok in Ha as (Hnew & ->). rest Ht.
  eapply step_opened; [exact Hn | done | exact Hpre | exact Hnone | exact Huniq | | | |]; last first.
  - destruct Hs as [Hp Ha]. by split; [rewrite Hp | rewrite Ha].
  - done.
  - done.
  - by apply (Hf _ eq_refl).
Qed.

Lemma collision_ok input s row s' : publication_collision_tx input s = Ok (Some row, s') →
  s' = s ∧ pb_corp_id row.1 = sp_corp_id input ∧ ∃ id, pd_publications s !! id = Some row.
Proof.
  unfold publication_collision_tx, gets. intros [= Hf <-]. apply fmap_Some in Hf as ([id row'] & Hf & ->).
  apply find_some in Hf as [Hin Hp]. apply andb_true_iff in Hp as [Hc%N.eqb_eq _].
  apply list_elem_of_In, elem_of_map_to_list in Hin. eauto.
Qed.

Lemma start_existing_steps raw input id row s out s' : normalize_start_input raw = Ok input →
  keyed s → pd_publications s !! id = Some row → pb_corp_id row.1 = sp_corp_id input →
  start_existing env input row s = Ok (out, s') → rtc (pub_step env None) s s'.
Proof.
  unfold start_existing. intros Hn Hk Hr Hc Ht. destruct row as [p token]. simpl in *.
  skip Ht. skip Ht. destruct (is_published p) eqn:Hp.
  - rest Ht. apply rtc_once, step_same. by etrans.
  - skip Ht. destruct (_ && _) eqn:Hl.
    + rest Ht. apply rtc_once, step_same. by etrans.
    + eapply rtc_l; [by apply step_same |]. apply rtc_once.
      eapply start_takeover_step; [done | done | by apply (Hk id (p, token)) | done..].
Qed.

Lemma start_steps input s out s' : keyed s →
  start_pull_request_publication env input s = Ok (out, s') → rtc (pub_step env None) s s'.
Proof.
  unfold start_pull_request_publication. intros Hk Ht.
  take Ht n. apply lift_ok in Ha as [Hn ->]. skip Ht. skip Ht. skip Ht. skip Ht.
  eapply rtc_l; [by apply step_same |]. destruct a2 as [op|].
  - by eapply start_replay_steps.
  - take Ht existing. destruct existing as [row|].
    + apply collision_ok in Ha3 as (-> & Hc & id & Hr). by eapply start_existing_steps.
    + apply (keeps_collision same_rows) in Ha3 as Hs'. eapply rtc_l; [by apply step_same |].
      apply rtc_once. by eapply start_new_step.
Qed.

Lemma holds_upgraded now t p p' token : same_but_provenance p p' →
  holds now t (p, token) → holds now t (p', token).
Proof. by intros (v & ->). Qed.

(** A holder that advances the row. *)
Lemma progress_step id p t p' s1 s' : keyed s1 →
  pd_publications s1 !! id = Some (p, Some t) → holds (pv_now env) t (p, Some t) →
  progress (pv_db_now env) p p' → same_rows (on_publications <[pb_id p' := (p', Some t)]> s1) s' →
  pub_step env (Some t) s1 s'.
Proof.
  intros Hk Hr Hh Hpr [Hp Ha]. eapply step_progress; [done | done | done | done |].
  assert (pb_id p' = id) as Hid by (rewrite <- (Hk _ _ Hr); by destruct Hpr).
  split; [rewrite Hp | rewrite Ha]; by rewrite ?Hid.
Qed.

Lemma closing_step id p t state detail p' s1 s' : keyed s1 →
  pd_publications s1 !! id = Some (p, Some t) → holds (pv_now env) t (p, Some t) →
  closing (pv_db_now env) p state detail p' →
  same_rows (on_attempts (alter (finish_attempt (λ _, pv_db_now env) (pb_corp_id p) state detail)
                            (pb_id p', pb_attempt_count p'))
               (on_publications <[pb_id p' := (p', None)]> s1)) s' →
  pub_step env (Some t) s1 s'.
Proof.
  intros Hk Hr Hh Hcl [Hp Ha]. pose proof (Hk _ _ Hr) as Hid. simpl in Hid.
  eapply step_closed; [exact Hr | done | done | done | exact Hcl |].
  assert (pb_id p' = id ∧ pb_attempt_count p' = pb_attempt_count p) as [Hid' Hc] by (by destruct Hcl).
  split; [rewrite Hp | rewrite Ha]; by rewrite ?Hid', ?Hc.
Qed.

Lemma renew_new_steps input key publisher request s out s' : keyed s →
  renew_new env input key publisher request s = Ok (out, s') →
  rtc (pub_step env (Some (rp_publisher_token input))) s s'.
Proof.
  unfold renew_new. intros Hk Ht. take_row Ht row. take Ht u. destruct row as [p token].
  apply control_ok in Ha as (-> & Hh & _). pose proof (proj1 (proj2 Hh)) as Htok. simpl in Htok. subst token.
  take Ht u'. eapply revalidated in Ha as (Hup & Hk' & p' & Hr' & Hsame); [| done..].
  take_row Ht row'. rewrite Hr' in Hrow0. injection Hrow0 as <-.
  take Ht version. apply lift_ok in Ha as [Hv ->].
  take Ht p2. apply store_ok in Ha as (-> & -> & _). rest Ht.
  eapply rtc_l; [exact Hup |]. apply rtc_once.
  eapply progress_step; [done | exact Hr' | by eapply holds_upgraded | | exact Hs].
  by apply progress_renewed.
Qed.

Lemma renew_replay_steps input request op s out s' : keyed s →
  renew_replay env input request op s = Ok (out, s') →
  rtc (pub_step env (Some (rp_publisher_token input))) s s'.
Proof.
  unfold renew_replay. intros Hk Ht. skip Ht. take_row Ht row. take Ht u. destruct row as [p token].
  eapply revalidated in Ha0 as (Hup & _); [| done..]. rest Ht.
  eapply rtc_l; [by apply step_same |]. eapply rtc_l; [exact Hup |]. by apply rtc_once, step_same.
Qed.

Lemma renew_steps input s out s' : keyed s →
  renew_pull_request_publication env input s = Ok (out, s') →
  rtc (pub_step env (Some (rp_publisher_token input))) s s'.
Proof.
  unfold renew_pull_request_publication. intros Hk Ht. skip Ht. take Ht i. apply lift_ok in Ha0 as [_ ->].
  destruct i as [[key publisher] credential]. skip Ht. skip Ht. skip Ht. skip Ht.
  eapply rtc_l; [by apply step_same |]. case_match.
  - by eapply renew_replay_steps.
  - by eapply renew_new_steps.
Qed.

(** *** Checkpoints *)
Section checkpoint.
Context (input : checkpoint_publication_input) (key : string) (request : json).
Context (id : uuid) (p : publication) (s : publication_db).
Notation t := (cp_publisher_token input).
Context (Hk : keyed s) (Hr : pd_publications s !! id = Some (p, Some t)).
Context (Hh : holds (pv_now env) t (p, Some t)).

Lemma record_branch_step sha r s' :
  record_branch_pushed env input key request (p, Some t) sha s = Ok (r, s') →
  pub_step env (Some t) s s'.
Proof using Hk Hr Hh.
  unfold record_branch_pushed. simpl. case_match; intros Ht.
  - rest Ht. by apply step_same.
  - skip Ht. take Ht version. apply lift_ok in Ha0 as [Hv ->].
    take Ht q. apply store_ok in Ha0 as (-> & -> & _). apply lift_ok in Ha as [Hb%bail_if_ok ->]. rest Ht.
    apply orb_false_iff in Hb as [Hb%negb_false_iff _]. apply bool_decide_eq_true in Hb.
    eapply progress_step; [done.. | by apply progress_pushed | by etrans].
Qed.

Lemma record_created_step raw report r s' : normalize_report raw = Ok report →
  record_pull_request_created input key request (p, Some t) report s = Ok (r, s') →
  pub_step env (Some t) s s'.
Proof using Hk Hr Hh.
  unfold record_pull_request_created. simpl. intros Hn Ht. take Ht u. apply lift_ok in Ha as [Hid ->].
  destruct u. case_match.
  - rest Ht. by apply step_same.
  - take Ht u. apply lift_ok in Ha as [Hb%bail_if_ok ->]. take Ht v. apply lift_ok in Ha as [Hi ->].
    take Ht version. apply lift_ok in Ha as [Hv ->].
    take Ht q. apply store_ok in Ha as (-> & -> & _). rest Ht.
    apply negb_false_iff, bool_decide_eq_true in Hb.
    eapply progress_step; [done.. | by eapply progress_created | exact Hs].
Qed.

Lemma record_published_step status field option_id r s' : pb_corp_id p = cp_corp_id input →
  record_published env input key request (p, Some t) status field option_id s = Ok (r, s') →
  pub_step env (Some t) s s'.
Proof using Hk Hr Hh.
  unfold record_published. simpl. intros Hc Ht.
  take Ht expected. apply lift_ok in Ha as [_ ->]. take Ht u1. apply lift_ok in Ha as [_ ->].
  take Ht u2. apply lift_ok in Ha as [_ ->]. take Ht u3. apply lift_ok in Ha as [_ ->]. case_match.
  - rest Ht. by apply step_same.
  - take Ht u. apply lift_ok in Ha as [Hb%bail_if_ok ->]. take Ht v. apply lift_ok in Ha as [Hi ->].
    take Ht version. apply lift_ok in Ha as [Hv ->].
    take Ht q. apply store_ok in Ha as (-> & -> & _). take Ht u'. apply modify_ok in Ha as ->.
    rest Ht. apply orb_false_iff in Hb as [Hb _]. apply orb_false_iff in Hb as [Hb%negb_false_iff _].
    apply bool_decide_eq_true in Hb.
    eapply closing_step; [done.. | by apply closing_published |]. rewrite Hc. exact Hs.
Qed.

Lemma record_failed_step detail r s' : pb_corp_id p = cp_corp_id input →
  record_failed env input key request (p, Some t) detail s = Ok (r, s') →
  pub_step env (Some t) s s'.
Proof using Hk Hr Hh.
  unfold record_failed. simpl. intros Hc Ht. take Ht u. apply lift_ok in Ha as [Hb%bail_if_ok ->].
  take Ht version. apply lift_ok in Ha as [Hv ->].
  take Ht q. apply store_ok in Ha as (-> & -> & _). take Ht u'. apply modify_ok in Ha as ->. rest Ht.
  eapply closing_step; [done.. | by apply closing_failed |]. rewrite Hc. exact Hs.
Qed.
End checkpoint.

(** The report of a normalised checkpoint is normalised. *)
Definition normal_report (c : publication_checkpoint) : Prop :=
  match c with
  | CheckpointPullRequestCreated r => ∃ raw, normalize_report raw = Ok r
  | _ => True
  end.
Lemma normalized_report c name c' request : normalize_checkpoint c = Ok (name, c', request) →
  normal_report c'.
Proof. destruct c as [| report | |]; simpl; intros Hn; res_inv; simpl; eauto. Qed.

Lemma checkpoint_new_steps input key publisher checkpoint request s out s' : keyed s →
  normal_report checkpoint →
  checkpoint_new env input key publisher checkpoint request s = Ok (out, s') →
  rtc (pub_step env (Some (cp_publisher_token input))) s s'.
Proof.
  unfold checkpoint_new. intros Hk Hn Ht. take_row Ht row. take Ht u. destruct row as [p token].
  apply control_ok in Ha as (-> & Hh & _). pose proof (proj1 (proj2 Hh)) as Htok. simpl in Htok. subst token.
  take Ht row.
  assert (pub_step env (Some (cp_publisher_token input)) s s0 ∧ keyed s0 ∧ ∃ p',
    row = (p', Some (cp_publisher_token input)) ∧ same_but_provenance p p' ∧
    pd_publications s0 !! cp_publication_id input = Some row) as (Hup & Hk' & p' & -> & Hsame & Hr').
  { unfold authorised_row in Ha. destruct checkpoint.
    4: { apply mret_ok in Ha as [-> ->]. split_and!; [by apply step_same | done | eauto with rows]. }
    all: take Ha u'; eapply revalidated in Ha0 as (Hup & Hk' & p' & Hr' & Hsame); [| done..];
      apply found_row in Ha as (-> & Hrow' & _); rewrite Hr' in Hrow'; injection Hrow' as <-;
      split_and!; eauto. }
  assert (pb_corp_id p' = cp_corp_id input) as Hc by (destruct Hsame as (v & ->); exact Hcorp).
  eapply rtc_l; [exact Hup |]. eapply holds_upgraded in Hh; [| exact Hsame].
  take Ht r. rest Ht. eapply rtc_l; [| by apply rtc_once, step_same].
  destruct checkpoint; [by eapply record_branch_step | by destruct Hn; eapply record_created_step
    | by eapply record_published_step | by eapply record_failed_step].
Qed.

Lemma checkpoint_replay_steps input name request op s out s' : keyed s →
  checkpoint_replay env input name request op s = Ok (out, s') →
  rtc (pub_step env (Some (cp_publisher_token input))) s s'.
Proof.
  unfold checkpoint_replay. intros Hk Ht. skip Ht. take_row Ht row. take Ht row'. destruct row as [p token].
  eapply revalidated_replay in Ha0 as [Hup _]; [| done..]. rest Ht.
  eapply rtc_l; [by apply step_same |]. eapply rtc_l; [exact Hup |]. by apply rtc_once, step_same.
Qed.

Lemma checkpoint_steps input s out s' : keyed s →
  record_pull_request_publication_checkpoint env input s = Ok (out, s') →
  rtc (pub_step env (Some (cp_publisher_token input))) s s'.
Proof.
  unfold record_pull_request_publication_checkpoint. intros Hk Ht. skip Ht.
  take Ht i. apply lift_ok in Ha0 as [_ ->]. destruct i as [[key publisher] credential].
  take Ht n. apply lift_ok in Ha0 as [Hn ->]. destruct n as [[name c] creq].
  apply normalized_report in Hn. skip Ht. skip Ht. skip Ht.
  eapply rtc_l; [by apply step_same |]. case_match.
  - by eapply checkpoint_replay_steps.
  - by eapply checkpoint_new_steps.
Qed.

(** A request that succeeds is a sequence of steps; one that fails changes nothing. *)
Lemma handled_by_steps request s : keyed s →
  rtc (pub_step env (presented_token request)) s (run_txn (handle_publication env request) s).2.
Proof.
  intros Hk. unfold run_txn. destruct (handle_publication env request s) as [[out s']|e] eqn:Ht; [| done].
  destruct request; simpl in *; [by eapply start_steps | by eapply renew_steps | by eapply checkpoint_steps].
Qed.
End handled.

Lemma credential_handlers_keep `{Serde} env :
  (∀ corp actor publisher hash expiry, keeps same_rows
     (create_publication_publisher_credential env corp actor publisher hash expiry)) ∧
  (∀ corp hash, keeps same_rows (authenticate_publication_publisher env corp hash)) ∧
  (∀ corp actor id reason, keeps same_rows (revoke_publication_publisher_credential env corp actor id reason)).
Proof.
  split_and!; intros; [unfold create_publication_publisher_credential, append_new_event
    | unfold authenticate_publication_publisher | unfold revoke_publication_publisher_credential]; keep;
    apply keeps_modify_tx; intros ?; by split.
Qed.
