(* ===== verification/PublicationSamples.v ===== *)
(** * A concrete publication, for the witnesses

    One Factory item whose mission is completed and verified, an owner in its
    room, an enrolled publisher, and the requests that publish its pull request. *)
From S2P Require Import Prelude Text Json Domain Planning FactoryPolicy Store FactoryItems Breaker ExecTables Checkpoint RunFailure PublicationRules Publication PublicationSteps.

#[local] Existing Instance sample_serde.
#[local] Existing Instance sample_exec_serde.
#[local] Existing Instance no_checkpoints.

Definition base_sha : string := "aaaaaaaaaaaaaaaaaaaaaaaaaaaaaaaaaaaaaaaa".
Definition head_sha : string := "bbbbbbbbbbbbbbbbbbbbbbbbbbbbbbbbbbbbbbbb".
Definition publisher_hash : string := "cccccccccccccccccccccccccccccccccccccccccccccccccccccccccccccccc".
Definition issue_url : string := "https://github.com/acme/app/issues/7".

Definition publishing_policy : json := json_object
  [("auto_merge", JBool false); ("source_base_commit", JStr base_sha);
   ("publication", json_object
      [("allowed", JBool true); ("repository_allowlist", JArr [JStr "Acme/App"]); ("base_ref", JStr "main");
       ("review_status", JStr "In review"); ("status_before", JStr "In progress")])].
Definition verified_item (state : factory_work_item_state) : factory_work_item :=
  FactoryWorkItem 100 1 "github_project_issue"
    (FactorySource "acme" 3 "PVTI_1" "acme" "app" 7 "I_7" issue_url "a bug" "rev-1")
    state 5 10 0 publishing_policy (Some 40%N) None.

Definition sample_task_contract : task_contract :=
  TaskContract "objective" "output" None None None None ["test"] ["shell"] ["push"] [] ["src/"] 1000 1000 None
    "ask" [] None None None.
Definition published_run (disposition : string) : x_run :=
  XRun (RunBinding 1 50 30 "runner-a" 61 "provider" None 60 (Some "acme/app") (Some "main") (Some base_sha)
          None None 1000 1000 100)
    RunStatus.Completed "passed" None None (Some "v-sha") (Some "d-sha") "none" None None (Some 80%N)
    (RunUsage 10 10 10 0 0 None)
    (RunWorkspace (Some "/w") (Some "ecorp/7") (Some "main") (Some base_sha) (Some disposition) None None).
Definition verified_exec (state : factory_work_item_state) : exec_db :=
  ExecDb
    (ExecBase {[1%N]} {[10%N := ActorRow 1 "owner" "human"; 12%N := ActorRow 1 "member" "human"]}
       {[20%N := (1%N, 0%Z); 21%N := (1%N, 0%Z)]} {[(20%N, 10%N); (20%N, 12%N)]} ∅ ∅ ∅)
    (ExecCore {[40%N := XMission 1 20 10 "fix" "fix it" "single" 1 0 1000 1000 MissionStatus.Completed]}
       {[50%N := XTask 40 1 "fix" "only" sample_task_contract 0 2 1 None TaskStatus.Completed (Some 30%N)
                   (VerificationPolicy [CheckTest "cargo" ["test"] 1000] None) "passed" 50]}
       [] {[60%N := published_run "preserved"]}
       [XEvidence 70 1 50 60 0 "test" "passed" "ok" JNull 120] ∅)
    (ExecSide ∅ ∅ [] []
       {[80%N := XArtifact 1 50 60 30 "runner-a" "verifier" "uri" "d-sha" "application/json" 10 "deliverable"
                   "ready" (json_object [("publication_ready", JBool true); ("git_bundle_sha256", JStr "x")])
                   "sig" 1000 110]}
       [XDeliverable 90 60 50 1 80 "commit_branch" "ecorp/7" base_sha (Some head_sha) "v-sha"
          "ready_for_review" 115]
       ∅ {[100%N := (verified_item state, 101%N)]} ∅) [].

Definition sample_publications : publication_db :=
  PublicationDb (verified_exec ItemState.Verified) ∅ ∅ ∅
    {[200%N := PublisherCredential 1 "publisher-1" publisher_hash (seconds 100000) None None]}.

(** The environment of the request at second [now], with fresh ids [300 + n] and [400 + n]. *)
Definition publication_at (now : Z) (n : N) : publication_env :=
  PublicationEnv (seconds now) (seconds now) (seconds now) (seconds now) (300 + n) (400 + n).

Definition sample_start (actor : uuid) (role key : string) : start_publication_input :=
  StartPullRequestPublicationInput 1 100 actor role 90 "Acme/App" "main" "ecorp/7" "Fix the bug"
    ("Closes " +:+ issue_url) 500 "reviewed" "effect-1" key "publisher-1" publisher_hash 60.
Definition sample_report : pull_request_report :=
  PullRequestReport 12 "PR_12" "https://github.com/acme/app/pull/12" "open" true "Fix the bug"
    ("Closes " +:+ issue_url) "ecorp/7" "main" head_sha "Acme" false false.
Definition sample_checkpoint (version : Z) (key : string) (token : uuid) (c : publication_checkpoint) :
    checkpoint_publication_input :=
  RecordPullRequestPublicationCheckpointInput 1 300 10 "publisher-1" publisher_hash token version key c.

Definition requests (l : list (publication_env * publication_request)) : publication_db :=
  foldl (λ db '(env, request), (run_txn (handle_publication env request) db).2) sample_publications l.

(** Started, branch pushed, pull request opened, published; one second apart. *)
Definition started_requests : list (publication_env * publication_request) :=
  [(publication_at 1 0, StartPublication (sample_start 10 "owner" "key-1"))].
Definition pushed_requests := started_requests ++
  [(publication_at 2 1, RecordCheckpoint (sample_checkpoint 1 "key-2" 400 (CheckpointBranchPushed head_sha)))].
Definition created_requests := pushed_requests ++
  [(publication_at 3 2, RecordCheckpoint (sample_checkpoint 2 "key-3" 400 (CheckpointPullRequestCreated sample_report)))].
Definition published_requests := created_requests ++
  [(publication_at 4 3, RecordCheckpoint (sample_checkpoint 3 "key-4" 400 (CheckpointPublished "In review" "F" "O")))].

Example sample_states :
  (λ l, (λ row : pub_row, (pb_state row.1, pb_version row.1, row.2)) <$> pd_publications (requests l) !! 300%N)
    <$> [started_requests; pushed_requests; created_requests; published_requests] =
  [Some (PublicationState.Publishing, 1%Z, Some 400%N); Some (PublicationState.BranchPushed, 2%Z, Some 400%N);
   Some (PublicationState.PullRequestCreated, 3%Z, Some 400%N); Some (PublicationState.Published, 4%Z, None)].
Proof. vm_compute. reflexivity. Qed.
Example sample_item :
  (λ row, fw_state row.1) <$> si_items (x_side (pd_exec (requests published_requests))) !! 100%N
    = Some ItemState.Published.
Proof. vm_compute. reflexivity. Qed.

Lemma requests_steps l : rtc publication_step sample_publications (requests l).
Proof.
  unfold requests. generalize sample_publications. induction l as [|[env request] l IH]; intros db; [done |].
  eapply rtc_l; [apply publication_step_handled | apply IH].
Qed.
