(* ===== verification/PublicationSafety.v ===== *)
(** * The safety of publication

    An invariant of the tables ([publication_inv]) that every step keeps, and what
    follows: rows fit their constraints, a recorded pull request is the authorised
    one, an effect is published once ([publication_tables_hold]); a publication
    only advances ([publications_only_advance]); a live publisher excludes all
    others ([live_publisher_excludes_others]). *)
From S2P Require Import Prelude Text Json Domain Planning FactoryPolicy Store FactoryItems Breaker ExecTables Checkpoint RunFailure PublicationRules Publication PublicationSteps PublicationSamples.
From Stdlib Require Import Ascii.

(** ** Well-formed rows *)
Definition lower_hex (value : string) : bool :=
  all_bytes (λ c, is_ascii_hexdigit c && negb (is_ascii_uppercase c)) value.
Definition commit_text (value : string) : bool :=
  ((str_len value =? 40) || (str_len value =? 64))%Z && lower_hex value.

(** The CHECK constraints of migrations 0024, 0025 and 0026; a length in bytes
    bounds the length in characters.  [source_issue_number] and [project_number]
    are copied from the item, whose own constraints they satisfy. *)
Definition effect_checks (e : publication_effect) : bool :=
  in_range 3 255 (str_len (pe_target_repository e)) && in_range 1 512 (str_len (pe_base_ref e))
  && in_range 1 512 (str_len (pe_branch e)) && commit_text (pe_commit_sha e)
  && in_range 1 256 (str_len (pe_title e)) && in_range 1 65536 (str_len (pe_body e))
  && in_range 1 500 (str_len (pe_effect_key e)) && in_range 1 500 (str_len (pe_idempotency_key e))
  && negb (pe_auto_merge_enabled e) && negb (pe_merge_authorized e)
  && negb (pe_deployment_authorized e).
Definition pull_request_checks (c : pull_request_columns) : bool :=
  match pr_number c with
  | None => true
  | Some number =>
      (0 <? number)%Z && is_some (pr_node_id c) && is_some (pr_url c) && is_some (pr_state c)
      && is_some (pr_draft c)
      && match pr_head_sha c with Some sha => commit_text sha | None => false end
      && match pr_head_repository_owner c with
         | Some owner => in_range 1 100 (str_len owner)
         | None => false
         end
      && bool_decide (pr_is_cross_repository c = Some false)
      && match pr_base_ref c with Some base => in_range 1 512 (str_len base) | None => false end
  end.
Definition publication_checks (row : pub_row) : bool :=
  let p := row.1 in
  effect_checks (pb_effect p) && pull_request_checks (pb_pull_request p)
  && (0 <? pb_version p)%Z && (0 <=? pb_attempt_count p)%Z
  && Bool.eqb (is_some row.2) (is_some (pb_publisher_id p))
  && Bool.eqb (is_some row.2) (is_some (pb_publisher_lease_expires_at p)).

Record row_ok (row : pub_row) : Prop := {
  ok_effect : effect_checks (pb_effect row.1) = true;
  ok_version : (0 < pb_version row.1)%Z;
  ok_attempts : (0 < pb_attempt_count row.1)%Z;
  ok_publisher : is_some row.2 = is_some (pb_publisher_id row.1);
  ok_lease : is_some row.2 = is_some (pb_publisher_lease_expires_at row.1);
  ok_started : (1 ≤ publication_state_rank (pb_state row.1))%Z;
  ok_branch : is_some (pb_branch_pushed_at row.1) = (2 <=? publication_state_rank (pb_state row.1))%Z;
  ok_no_pull_request : (publication_state_rank (pb_state row.1) < 3)%Z →
    pb_pull_request row.1 = no_pull_request;
  ok_pull_request : (3 ≤ publication_state_rank (pb_state row.1))%Z →
    ∃ raw r, normalize_report raw = Ok r ∧ validate_pull_request_identity row.1 r = Ok tt ∧
      pb_pull_request row.1 = report_columns r;
  ok_status : is_some (pb_project_status_after row.1) = is_published row.1;
  ok_free : is_published row.1 = true → row.2 = None;
}.

(** ** The invariant *)
Record publication_inv (db : publication_db) : Prop := {
  pi_keyed : keyed db;
  pi_rows id row : pd_publications db !! id = Some row → row_ok row;
  pi_effects id id' row row' : pd_publications db !! id = Some row →
    pd_publications db !! id' = Some row' →
    effects_collide (pb_effect row.1) (pb_effect row'.1) = true → id = id';
  pi_tokens id id' row row' token : pd_publications db !! id = Some row →
    pd_publications db !! id' = Some row' → row.2 = Some token → row'.2 = Some token → id = id';
  pi_attempts id n a : pd_attempts db !! (id, n) = Some a → ∃ row,
    pd_publications db !! id = Some row ∧ (0 < n ≤ pb_attempt_count row.1)%Z ∧
    pa_corp_id a = pb_corp_id row.1;
  pi_running id n a row : pd_attempts db !! (id, n) = Some a → pa_state a = "running" →
    pd_publications db !! id = Some row → n = pb_attempt_count row.1 ∧ is_some row.2 = true;
  pi_held id row : pd_publications db !! id = Some row → is_some row.2 = true →
    ∃ a, pd_attempts db !! (id, pb_attempt_count row.1) = Some a ∧ pa_state a = "running";
}.

(** *** Text lemmas *)
Lemma text_lengths value field max v : normalize_factory_text value field max = Ok v →
  (1 ≤ str_len v ≤ max)%Z.
Proof.
  unfold normalize_factory_text. intros Hn. res_inv.
  match goal with Hl : (_ <? _)%Z = false |- _ => apply Z.ltb_ge in Hl end.
  match goal with Hl : is_empty _ = false |- _ => rename Hl into He end.
  unfold is_empty in He. pose proof (str_len_nonneg (trim value)). split; [| done].
  destruct (trim value); [done |]. unfold str_len. simpl. lia.
Qed.
Lemma identifier_lengths value field max v : normalize_factory_identifier value field max = Ok v →
  (1 ≤ str_len v ≤ max)%Z.
Proof. unfold normalize_factory_identifier. intros Hn. res_inv. by eapply text_lengths. Qed.
Lemma component_lengths value field max v : normalize_github_component value field max = Ok v →
  (1 ≤ str_len v ≤ max)%Z.
Proof.
  unfold normalize_github_component. intros Hn. res_inv. rewrite str_len_lowercase. by eapply text_lengths.
Qed.
Lemma body_lengths value v : normalize_publication_body value = Ok v → (1 ≤ str_len v ≤ 65536)%Z.
Proof.
  unfold normalize_publication_body. intros Hn. res_inv.
  match goal with Hl : (_ <? _)%Z = false |- _ => apply Z.ltb_ge in Hl end.
  match goal with Hl : is_empty _ = false |- _ => rename Hl into He end.
  split; [| done]. destruct (trim _); [done |]. unfold str_len. simpl. lia.
Qed.
Lemma repository_lengths value v : normalize_target_repository value = Ok v → (3 ≤ str_len v ≤ 255)%Z.
Proof.
  unfold normalize_target_repository. intros Hn. repeat case_match; try done. res_inv.
  repeat match goal with Hc : normalize_github_component _ _ _ = Ok _ |- _ => apply component_lengths in Hc end.
  match goal with |- context [String _ ?v] => change (String _ v) with ("/" +:+ v) end.
  rewrite !str_len_app. change (str_len "/") with 1%Z. lia.
Qed.

Lemma lowercase_never_upper s :
  all_bytes (λ c, negb (is_ascii_uppercase c)) (to_ascii_lowercase s) = true.
Proof.
  unfold all_bytes, to_ascii_lowercase. induction s as [|a s IH]; [done |]. simpl. rewrite IH, andb_true_r.
  unfold lower_byte. destruct (is_ascii_uppercase (byte_val a)) eqn:E; [| by rewrite E].
  rewrite byte_val_of; unfold is_ascii_uppercase in *; lia.
Qed.
Lemma lowercase_commit s : validate_factory_base_commit (to_ascii_lowercase s) = Ok tt →
  commit_text (to_ascii_lowercase s) = true.
Proof.
  unfold validate_factory_base_commit, commit_text, lower_hex. rewrite bail_if_ok.
  intros [Hl%negb_false_iff Hh%negb_false_iff]%orb_false_iff. rewrite Hl. simpl.
  pose proof (lowercase_never_upper s) as Hn. unfold all_bytes in *. rewrite forallb_forall in *.
  intros c Hc. by rewrite Hh, Hn.
Qed.

(** ** Rows stay well-formed *)
Ltac lengths :=
  repeat match goal with
  | Hn : normalize_factory_identifier _ _ _ = Ok _ |- _ => apply identifier_lengths in Hn
  | Hn : normalize_factory_text _ _ _ = Ok _ |- _ => apply text_lengths in Hn
  | Hn : normalize_github_component _ _ _ = Ok _ |- _ => apply component_lengths in Hn
  | Hn : normalize_publication_body _ = Ok _ |- _ => apply body_lengths in Hn
  | Hn : normalize_target_repository _ = Ok _ |- _ => apply repository_lengths in Hn
  end.

Section well_formed.
Context `{Serde} `{ExecSerde} `{PublicationAuthorities}.

(** What the prerequisites of a publication establish. *)
Record authorised (now : timestamp) (request : prerequisite_request) (existing : bool) (db : exec_db)
    (pre : prerequisites) (token : uuid) (terms : publication_terms) (row : deliverable_row)
    (lineage : gset uuid) : Prop := {
  au_item : work_item_of db (pq_corp_id request) (pq_work_item_id request) = Some (pp_work_item pre, token);
  au_state : publishable_state existing (fw_state (pp_work_item pre)) = true;
  au_mission : fw_mission_id (pp_work_item pre) = Some (pp_mission_id pre);
  au_verified : factory_mission_verified (pq_corp_id request) (pp_mission_id pre) (get_directory db) = true;
  au_terms : check_publication_terms (pp_work_item pre) request = Ok terms;
  au_row : deliverable_row_of db (pq_corp_id request) (pp_mission_id pre)
             (pq_source_deliverable_id request) = Some row;
  au_deliverable : check_deliverable row terms = Ok (pp_commit_sha pre);
  au_run : pp_run_id pre = sd_run (dr_deliverable row);
  au_not_blocked : ensure_not_hard_blocked now (pq_corp_id request) (pp_run_id pre)
                     (rn_breaker_stage (dr_run row)) publication_action db = Ok tt;
  au_lineage : check_lineage db (pp_work_item pre) (pq_corp_id request) (pp_run_id pre)
                 (mission_run_rows db (pq_corp_id request) (pp_mission_id pre)) (pp_commit_sha pre)
               = Ok (lineage, pp_checkpoint pre);
  au_runs : collect (check_mission_run now db (pq_corp_id request) (pp_run_id pre) lineage
                       (pp_checkpoint pre))
              (mission_run_rows db (pq_corp_id request) (pp_mission_id pre)) = Ok (pp_run_ids pre);
  au_evidence : pp_evidence_ids pre = mission_evidence_ids db (pq_corp_id request) (pp_mission_id pre)
                ∧ pp_evidence_ids pre ≠ [];
  au_fields : pp_artifact_id pre = sd_artifact (dr_deliverable row) ∧
    pp_task_id pre = sd_task (dr_deliverable row) ∧
    pp_deliverable_sha256 pre = af_sha256 (dr_artifact row) ∧
    pp_verification_sha256 pre = sd_verification_sha256 (dr_deliverable row) ∧
    pp_room_id pre = mi_room (dr_mission row);
}.

Lemma prerequisites_ok now request existing db pre :
  validate_publication_prerequisites now request existing db = Ok pre →
  ∃ token terms row lineage, authorised now request existing db pre token terms row lineage.
Proof.
  unfold validate_publication_prerequisites. intros Hp.
  apply bind_ok in Hp as ([item token] & Hitem%with_context_ok & Hp).
  apply bind_ok in Hp as ([] & Hstate%bail_if_ok%negb_false_iff & Hp).
  apply bind_ok in Hp as (mission & Hm%with_context_ok & Hp).
  apply bind_ok in Hp as ([] & Hver%bail_if_ok%negb_false_iff & Hp).
  apply bind_ok in Hp as (terms & Hterms & Hp).
  apply bind_ok in Hp as (row & Hrow%with_context_ok & Hp).
  apply bind_ok in Hp as (sha & Hsha & Hp).
  apply bind_ok in Hp as ([] & Hblock & Hp).
  apply bind_ok in Hp as ([lineage checkpoint] & Hlin & Hp).
  destruct (publication_source_revision _ _) as [revision recovery].
  apply bind_ok in Hp as (runs & Hruns & Hp).
  apply bind_ok in Hp as ([] & Hev%bail_if_ok & Hp). injection Hp as <-.
  exists token, terms, row, lineage. split; simpl; try done.
  split; [done |]. intros He. by rewrite He in Hev.
Qed.

Lemma prerequisites_commit now request existing db pre :
  validate_publication_prerequisites now request existing db = Ok pre →
  commit_text (pp_commit_sha pre) = true.
Proof.
  intros (token & terms & row & lineage & Ha)%prerequisites_ok. pose proof (au_deliverable _ _ _ _ _ _ _ _ _ Ha) as Hc.
  unfold check_deliverable in Hc. res_inv. rewrite <- Hc. by apply lowercase_commit.
Qed.

Lemma start_effect_checks env raw input pre : normalize_start_input raw = Ok input →
  commit_text (pp_commit_sha pre) = true →
  effect_checks (pb_effect (new_publication env input pre)) = true.
Proof.
  unfold normalize_start_input. intros Hn Hc. res_inv. lengths. unfold effect_checks. simpl.
  rewrite Hc. repeat (rewrite (proj2 (in_range_spec _ _ _)) by lia). done.
Qed.

Lemma report_checks p raw r : normalize_report raw = Ok r → validate_pull_request_identity p r = Ok tt →
  pull_request_checks (report_columns r) = true.
Proof.
  intros Hn Hv. unfold validate_pull_request_identity in Hv. res_inv.
  match goal with Hx : rr_is_cross_repository r = false |- _ => rename Hx into Hcross end.
  unfold normalize_report in Hn. res_inv. simpl in *. lengths.
  unfold pull_request_checks. simpl. rewrite Hcross, lowercase_commit by done.
  repeat (rewrite (proj2 (in_range_spec _ _ _)) by lia).
  match goal with Hx : (_ <=? 0)%Z = false |- _ => apply Z.leb_gt in Hx end.
  by replace (0 <? rr_number raw)%Z with true by lia.
Qed.

Lemma row_checks row : row_ok row → publication_checks row = true.
Proof.
  intros Hok. unfold publication_checks.
  rewrite (ok_effect _ Hok), <- (ok_publisher _ Hok), <- (ok_lease _ Hok), !Bool.eqb_reflx, !andb_true_r.
  destruct row as [p token].
  pose proof (ok_version _ Hok). pose proof (ok_attempts _ Hok). simpl in *.
  replace (0 <? pb_version p)%Z with true by lia. replace (0 <=? pb_attempt_count p)%Z with true by lia.
  rewrite !andb_true_r. simpl. destruct (decide (publication_state_rank (pb_state p) < 3)%Z) as [Hr | Hr].
  - pose proof (ok_no_pull_request _ Hok Hr) as Hc. simpl in Hc. by rewrite Hc.
  - destruct (ok_pull_request _ Hok) as (raw & r & Hn & Hv & Hc); [simpl; lia |]. simpl in Hc.
    rewrite Hc. by eapply report_checks.
Qed.

Lemma version_pos v version : next_version v = Ok version → (0 < v)%Z → version = (v + 1)%Z.
Proof. unfold next_version. intros [-> _]%with_context_ok%checked_i64_spec. done. Qed.
Lemma int4_value z v : int4 z = Ok v → v = z.
Proof. unfold int4, checked_i32. intros Hv%with_context_ok. by case_match; simplify_eq. Qed.

Lemma new_row_ok env raw input pre : normalize_start_input raw = Ok input →
  commit_text (pp_commit_sha pre) = true →
  row_ok (new_publication env input pre, Some (pv_publisher_token env)).
Proof. intros Hn Hc. split; simpl; try done; try lia. by eapply start_effect_checks. Qed.

Lemma upgraded_row_ok p token v : row_ok (p, token) → row_ok (set_pb_provenance v p, token).
Proof. intros Hok. by destruct Hok; split. Qed.

Lemma taken_row_ok input lease version attempts p token fresh : row_ok (p, token) →
  is_published p = false → next_version (pb_version p) = Ok version →
  int4 (pb_attempt_count p + 1) = Ok attempts →
  row_ok (taken_over input lease version attempts p, Some fresh).
Proof.
  intros [] Hnp Hv Ha. simpl in *. apply version_pos in Hv as ->; [| done]. apply int4_value in Ha as ->.
  assert (bool_decide (pb_state p = PublicationState.Requested) = false) as Hs.
  { apply bool_decide_eq_false. intros He. rewrite He in ok_started0. simpl in *. lia. }
  assert (is_published (taken_over input lease (pb_version p + 1) (pb_attempt_count p + 1) p)
          = is_published p) as Hpub by (unfold is_published; simpl; by rewrite Hs).
  split; try (simpl; rewrite ?Hs; done); try (simpl; lia); simpl fst; rewrite Hpub; [done | congruence].
Qed.

Lemma progress_row_ok db_now p p' token : row_ok (p, Some token) → is_published p = false →
  progress db_now p p' → row_ok (p', Some token).
Proof.
  intros [] Hnp Hpr. destruct Hpr as [p version lease Hv | p version Hs Hv | p raw r version prov Hs Hn Hi _ Hv];
    simpl in *; apply version_pos in Hv as ->; try done; try rewrite Hs in *;
    (split; simpl in *; rewrite ?Hs; try done; try lia; eauto; try congruence).
  all: try (intros; apply ok_no_pull_request0; simpl; lia).
  all: rewrite ok_status0; unfold is_published; by rewrite Hs.
Qed.

Lemma closing_row_ok db_now p state detail p' token : row_ok (p, Some token) → is_published p = false →
  closing db_now p state detail p' → row_ok (p', None).
Proof.
  intros [] Hnp Hcl. destruct Hcl as [p version status prov Hs Hv | p version detail _ Hv];
    simpl in *; apply version_pos in Hv as ->; try done; try rewrite Hs in *;
    (split; simpl in *; rewrite ?Hs; try done; try lia; eauto).
  intros _. apply ok_pull_request0. lia.
Qed.
End well_formed.

(** ** The steps keep the invariant *)

(** Conditions on the attempts that a change of row [id] has to meet. *)
Record attempts_fit (id : uuid) (row : pub_row) (attempts : gmap (uuid * Z) publication_attempt) : Prop := {
  af_bound n a : attempts !! (id, n) = Some a →
    (0 < n ≤ pb_attempt_count row.1)%Z ∧ pa_corp_id a = pb_corp_id row.1;
  af_running n a : attempts !! (id, n) = Some a → pa_state a = "running" →
    n = pb_attempt_count row.1 ∧ is_some row.2 = true;
  af_held : is_some row.2 = true →
    ∃ a, attempts !! (id, pb_attempt_count row.1) = Some a ∧ pa_state a = "running";
}.

Lemma inv_attempts_fit db id row : publication_inv db → pd_publications db !! id = Some row →
  attempts_fit id row (pd_attempts db).
Proof.
  intros Hi Hr. split.
  - intros n a Ha. destruct (pi_attempts _ Hi _ _ _ Ha) as (row' & Hr' & Hn & Hc).
    rewrite Hr in Hr'. by simplify_eq.
  - intros n a Ha Hrun. by eapply pi_running.
  - intros Ht. by eapply pi_held.
Qed.

(** Replacing or adding one row, with the attempts of the others untouched. *)
Lemma inv_with_row db db' id row attempts : publication_inv db → pb_id row.1 = id → row_ok row →
  (∀ id' row', pd_publications db !! id' = Some row' → id' ≠ id →
     effects_collide (pb_effect row.1) (pb_effect row'.1) = false) →
  (∀ t, row.2 = Some t → fresh_token db id t) →
  attempts_fit id row attempts →
  (∀ id' n, id' ≠ id → attempts !! (id', n) = pd_attempts db !! (id', n)) →
  with_rows db (<[id := row]> (pd_publications db)) attempts db' → publication_inv db'.
Proof.
  intros Hi Hid Hok Hfx Hft Haf Hot [Hp Ha].
  assert (∀ id' row', pd_publications db' !! id' = Some row' →
    id' = id ∧ row' = row ∨ id' ≠ id ∧ pd_publications db !! id' = Some row') as Hrows.
  { intros id' row'. rewrite Hp. destruct (decide (id' = id)) as [-> | Hne].
    - rewrite lookup_insert_eq. intros [= <-]. by left.
    - rewrite lookup_insert_ne by done. by right. }
  assert (∀ e e', effects_collide e e' = effects_collide e' e) as Hsym.
  { intros e e'. unfold effects_collide, seqb.
    by rewrite (N.eqb_sym (pe_factory_work_item_id e)), (N.eqb_sym (pe_source_deliverable_id e)),
      (N.eqb_sym (pe_corp_id e)), (String.eqb_sym (pe_effect_key e)), (String.eqb_sym (pe_idempotency_key e)),
      (String.eqb_sym (pe_target_repository e)), (String.eqb_sym (pe_branch e)). }
  split.
  - intros id' row' [[-> ->] | [_ Hr]]%Hrows; [done | by apply (pi_keyed _ Hi)].
  - intros id' row' [[-> ->] | [_ Hr]]%Hrows; [done | by eapply pi_rows].
  - intros i j r r' [[-> ->] | [Hi1 Hr]]%Hrows [[-> ->] | [Hj Hr']]%Hrows Hc; [done | | |].
    + by rewrite (Hfx _ _ Hr' Hj) in Hc.
    + rewrite Hsym, (Hfx _ _ Hr Hi1) in Hc. done.
    + by eapply pi_effects.
  - intros i j r r' t [[-> ->] | [Hi1 Hr]]%Hrows [[-> ->] | [Hj Hr']]%Hrows Ht Ht'; [done | | |].
    + by destruct (Hft _ Ht _ _ Hr' Hj).
    + by destruct (Hft _ Ht' _ _ Hr Hi1).
    + by eapply pi_tokens.
  - intros i n a. rewrite Ha. destruct (decide (i = id)) as [-> | Hne].
    + intros Hat. exists row. rewrite Hp, lookup_insert_eq. by destruct (af_bound _ _ _ Haf _ _ Hat).
    + rewrite Hot by done. intros (r & Hr & ?)%(pi_attempts _ Hi). exists r.
      by rewrite Hp, lookup_insert_ne.
  - intros i n a r Hat Hrun [[-> ->] | [Hne Hr]]%Hrows; rewrite Ha in Hat.
    + by eapply af_running.
    + rewrite Hot in Hat by done. by eapply pi_running.
  - intros i r [[-> ->] | [Hne Hr]]%Hrows Ht; rewrite Ha.
    + by apply (af_held _ _ _ Haf).
    + rewrite Hot by done. by eapply pi_held.
Qed.

Lemma finish_state now corp state detail a : state ≠ "running" → pa_corp_id a = corp →
  pa_state (finish_attempt now corp state detail a) ≠ "running" ∧
  pa_corp_id (finish_attempt now corp state detail a) = corp.
Proof.
  intros Hs Hc. unfold finish_attempt. rewrite Hc, N.eqb_refl. simpl.
  destruct (seqb (pa_state a) "running") eqn:E; [done |]. split; [| done]. by apply seqb_neq.
Qed.

Lemma abandon_lookup now i corp attempts j n :
  abandon now i corp attempts !! (j, n) =
    (λ a, if (j =? i)%N
          then finish_attempt (default now) corp "abandoned" (λ detail, Some (default lease_expired_detail detail)) a
          else a) <$> attempts !! (j, n).
Proof.
  unfold abandon. rewrite map_lookup_imap. destruct (attempts !! (j, n)); simpl; [| done].
  by destruct (j =? i)%N.
Qed.

Section invariant.
Context `{Serde} `{ExecSerde} `{PublicationAuthorities}.

Lemma same_rows_inv db db' : same_rows db db' → publication_inv db → publication_inv db'.
Proof.
  destruct db, db'. intros [Hp Ha]. simpl in Hp, Ha. subst. intros []. by split.
Qed.

Lemma running_attempt_ok p db a : running_attempt p db = Some a →
  pd_attempts db !! (pb_id p, pb_attempt_count p) = Some a ∧ pa_state a = "running".
Proof.
  unfold running_attempt. intros (a' & Ha & Hb)%bind_Some. case_match eqn:E; simplify_eq.
  apply andb_true_iff in E as [_ Hs%seqb_eq]. done.
Qed.

(** A row that keeps its effect collides with no other row. *)
Lemma same_effect_apart db id row e : publication_inv db → pd_publications db !! id = Some row →
  e = pb_effect row.1 →
  ∀ id' row', pd_publications db !! id' = Some row' → id' ≠ id →
    effects_collide e (pb_effect row'.1) = false.
Proof.
  intros Hi Hr -> id' row' Hr' Hne. apply not_true_iff_false. intros Hc. destruct Hne.
  symmetry. by eapply pi_effects.
Qed.
Lemma same_token_fresh db id row t : publication_inv db → pd_publications db !! id = Some row →
  row.2 = Some t → fresh_token db id t.
Proof. intros Hi Hr Ht id' row' Hr' Hne Ht'. destruct Hne. by eapply pi_tokens. Qed.

Lemma pub_step_inv env presented db db' :
  publication_inv db → pub_step env presented db db' → publication_inv db'.
Proof.
  intros Hi Hst. destruct Hst as
    [Hw | id p token a v Hr Hrun Hw | raw input pre a Hn _ Hpre Hnone Hfx Hft Hac Has Hw
    | raw input id p token version attempts a Hn _ Hr Hid Hnp Hl Hc Hv Hat Hft Hac Has Hw
    | id p token p' Hr _ Hh Hpr Hw | id p token state detail p' Hr Hid _ Hh Hcl Hw].
  - by eapply same_rows_inv.
  - pose proof (inv_attempts_fit _ _ _ Hi Hr) as [Haf1 Haf2 Haf3].
    refine (inv_with_row _ _ _ _ _ Hi _ _ _ _ _ _ Hw); simpl.
    + by apply (pi_keyed _ Hi _ _ Hr).
    + apply upgraded_row_ok. by eapply pi_rows.
    + by eapply same_effect_apart.
    + intros t ->. by eapply same_token_fresh.
    + by split.
    + done.
  - refine (inv_with_row _ _ _ _ _ Hi _ _ _ _ _ _ Hw); simpl; [done | ..].
    + eapply new_row_ok; [done | by eapply prerequisites_commit].
    + intros id' row' Hr' _. by eapply Hfx.
    + by intros t [= <-].
    + assert (∀ n, pd_attempts db !! (pv_publication_id env, n) = None) as Hno.
      { intros n. apply eq_None_not_Some. intros [a' Ha]. apply (pi_attempts _ Hi) in Ha as (? & ? & _). congruence. }
      split; simpl.
      * intros n a'. destruct (decide (n = 1%Z)) as [-> | Hne].
        -- rewrite lookup_insert_eq. intros [= <-]. by split; [lia |].
        -- rewrite lookup_insert_ne by congruence. by rewrite Hno.
      * intros n a'. destruct (decide (n = 1%Z)) as [-> | Hne]; [done |].
        rewrite lookup_insert_ne by congruence. by rewrite Hno.
      * intros _. exists a. by rewrite lookup_insert_eq.
    + intros id' n Hne. by rewrite lookup_insert_ne by congruence.
  - pose proof (inv_attempts_fit _ _ _ Hi Hr) as [Haf1 Haf2 Haf3]. simpl in *.
    pose proof (int4_value _ _ Hat) as Hat'.
    pose proof (ok_attempts _ (pi_rows _ Hi _ _ Hr)) as Hpos. simpl in Hpos.
    refine (inv_with_row _ _ _ _ _ Hi _ _ _ _ _ _ Hw); simpl; [done | ..].
    + eapply taken_row_ok; [by eapply pi_rows | done..].
    + by eapply same_effect_apart.
    + by intros t [= <-].
    + assert (∀ n a', abandon (pv_db_now env) id (pb_corp_id p) (pd_attempts db) !! (id, n) = Some a' →
        (0 < n ≤ pb_attempt_count p)%Z ∧ pa_corp_id a' = pb_corp_id p ∧ pa_state a' ≠ "running") as Hab.
      { intros n a'. rewrite abandon_lookup, N.eqb_refl.
        intros (a0 & Ha0 & ->)%fmap_Some. destruct (Haf1 _ _ Ha0) as [Hb Hcorp].
        destruct (finish_state (default (pv_db_now env)) (pb_corp_id p) "abandoned"
          (λ detail, Some (default lease_expired_detail detail)) a0) as [Hs Hc']; done. }
      split; simpl.
      * intros n a'. destruct (decide (n = attempts)) as [-> | Hne].
        -- rewrite lookup_insert_eq. intros [= <-]. by split; [lia |].
        -- rewrite lookup_insert_ne by congruence. intros (Hb & Hcorp & _)%Hab. by split; [lia |].
      * intros n a'. destruct (decide (n = attempts)) as [-> | Hne]; [done |].
        rewrite lookup_insert_ne by congruence. by intros (_ & _ & Hs)%Hab ?.
      * intros _. exists a. by rewrite lookup_insert_eq.
    + intros i n Hne. rewrite lookup_insert_ne, abandon_lookup by congruence.
      apply N.eqb_neq in Hne. rewrite Hne. by destruct (pd_attempts db !! (i, n)).
  - pose proof (inv_attempts_fit _ _ _ Hi Hr) as [Haf1 Haf2 Haf3]. simpl in *.
    assert (pb_effect p' = pb_effect p ∧ pb_attempt_count p' = pb_attempt_count p) as [He Hcnt] by (by destruct Hpr).
    refine (inv_with_row _ _ _ _ _ Hi _ _ _ _ _ _ Hw); simpl.
    + unfold pb_id. rewrite He. by apply (pi_keyed _ Hi _ _ Hr).
    + eapply progress_row_ok; [by eapply pi_rows | by destruct Hh | done].
    + by eapply same_effect_apart.
    + intros t [= <-]. by eapply same_token_fresh.
    + split; simpl; unfold pb_corp_id; rewrite ?He, ?Hcnt; done.
    + done.
  - pose proof (inv_attempts_fit _ _ _ Hi Hr) as [Haf1 Haf2 Haf3]. simpl in *.
    assert (pb_effect p' = pb_effect p ∧ pb_attempt_count p' = pb_attempt_count p ∧ state ≠ "running")
      as (He & Hcnt & Hnr) by (by destruct Hcl).
    refine (inv_with_row _ _ _ _ _ Hi _ _ _ _ _ _ Hw); simpl.
    + unfold pb_id. rewrite He. by apply (pi_keyed _ Hi _ _ Hr).
    + eapply closing_row_ok; [by eapply pi_rows | by destruct Hh | done].
    + by eapply same_effect_apart.
    + done.
    + split; simpl; unfold pb_corp_id; rewrite ?He, ?Hcnt; [| | done]; intros n a;
        (destruct (decide (n = pb_attempt_count p)) as [-> | Hne];
         [rewrite lookup_alter_eq; intros (a0 & Ha0 & ->)%fmap_Some;
          destruct (Haf1 _ _ Ha0) as [Hb Hcorp];
          destruct (finish_state (λ _, pv_db_now env) (pb_corp_id p) state detail a0 Hnr Hcorp) as [Hs Hc']
         | rewrite lookup_alter_ne by congruence; intros Ha]).
      * by split.
      * by eapply Haf1.
      * done.
      * intros Hrun. destruct (Haf2 _ _ Ha Hrun) as [-> _]. done.
    + intros i n Hne. by rewrite lookup_alter_ne by congruence.
Qed.

Lemma pub_steps_inv env presented db db' :
  publication_inv db → rtc (pub_step env presented) db db' → publication_inv db'.
Proof. intros Hi. induction 1; eauto using pub_step_inv. Qed.

Lemma publication_handled_inv env request db : publication_inv db →
  publication_inv (run_txn (handle_publication env request) db).2.
Proof. intros Hi. eapply pub_steps_inv; [done |]. by apply handled_by_steps, pi_keyed. Qed.

Lemma kept_run {A} (t : txn publication_db A) db : keeps same_rows t → same_rows db (run_txn t db).2.
Proof. intros Ht. unfold run_txn. destruct (t db) as [[a db']|] eqn:E; [by eapply Ht | done]. Qed.

(** What a step of the system does to the rows: nothing, or what its request does. *)
Lemma publication_step_cases db db' : publication_step db db' →
  same_rows db db' ∨ ∃ env request, db' = (run_txn (handle_publication env request) db).2.
Proof.
  destruct 1; [by eauto | left; apply kept_run, credential_handlers_keep .. | by left].
Qed.
Lemma publication_step_inv db db' : publication_inv db → publication_step db db' → publication_inv db'.
Proof.
  intros Hi [Hs | (env & request & ->)]%publication_step_cases; [by eapply same_rows_inv | by apply publication_handled_inv].
Qed.

(** The states the system reaches from empty tables. *)
Definition publication_reachable (db : publication_db) : Prop :=
  ∃ db0, pd_publications db0 = ∅ ∧ pd_attempts db0 = ∅ ∧ rtc publication_step db0 db.

Lemma publication_reachable_inv db : publication_reachable db → publication_inv db.
Proof.
  intros (db0 & Hp & Ha & Hs). assert (publication_inv db0) as Hi.
  { split; [intros id row Hr; by rewrite Hp, lookup_empty in Hr |..];
      intros *; rewrite ?Hp, ?Ha, ?lookup_empty; done. }
  clear Hp Ha. induction Hs; eauto using publication_step_inv.
Qed.

(** ** How a row evolves *)
Record evolves (row row' : pub_row) : Prop := {
  ev_effect : pb_effect row'.1 = pb_effect row.1;
  ev_rank : (publication_state_rank (pb_state row.1) ≤ publication_state_rank (pb_state row'.1))%Z;
  ev_version : (pb_version row.1 ≤ pb_version row'.1)%Z;
  ev_attempts : (pb_attempt_count row.1 ≤ pb_attempt_count row'.1)%Z;
  ev_branch : is_some (pb_branch_pushed_at row.1) = true →
    pb_branch_pushed_at row'.1 = pb_branch_pushed_at row.1;
  ev_pull_request : pb_pull_request row.1 ≠ no_pull_request →
    pb_pull_request row'.1 = pb_pull_request row.1;
  ev_published : is_published row.1 = true → row' = row;
  ev_unversioned : pb_version row'.1 = pb_version row.1 →
    same_but_provenance row.1 row'.1 ∧ row'.2 = row.2;
}.

#[global] Instance evolves_preorder : PreOrder evolves.
Proof.
  split.
  - intros row. split; try done; eauto with rows.
  - intros x y z [] []. split; try congruence; try lia.
    + intros Hb. rewrite ev_branch1; [by apply ev_branch0 |]. by rewrite ev_branch0.
    + intros Hb. rewrite ev_pull_request1; [by apply ev_pull_request0 |]. by rewrite ev_pull_request0.
    + intros Hp. rewrite <- (ev_published0 Hp). apply ev_published1. by rewrite (ev_published0 Hp).
    + intros Hv. destruct ev_unversioned0 as [(v & Hy) Ht]; [lia |].
      destruct ev_unversioned1 as [(v' & Hz) Ht']; [lia |]. split; [| congruence].
      exists v'. rewrite Hz, Hy. done.
Qed.

Lemma pub_step_evolves env presented db db' id row : publication_inv db →
  pub_step env presented db db' → pd_publications db !! id = Some row →
  ∃ row', pd_publications db' !! id = Some row' ∧ evolves row row'.
Proof.
  intros Hi Hst Hrow.
  assert (∀ i (r' : pub_row) attempts, with_rows db (<[i := r']> (pd_publications db)) attempts db' →
    (∀ r, pd_publications db !! i = Some r → evolves r r') →
    ∃ row', pd_publications db' !! id = Some row' ∧ evolves row row') as Hone.
  { intros i r' attempts [-> _] Hev. destruct (decide (id = i)) as [-> | Hne].
    - rewrite lookup_insert_eq. eauto.
    - rewrite lookup_insert_ne by done. by exists row. }
  destruct Hst as
    [Hw | i p token a v Hr Hrun Hw | raw input pre a Hn _ Hpre Hnone Hfx Hft Hac Has Hw
    | raw input i p token version attempts a Hn _ Hr Hid Hnp Hl Hc Hv Hat Hft Hac Has Hw
    | i p token p' Hr _ Hh Hpr Hw | i p token state detail p' Hr Hid _ Hh Hcl Hw].
  - destruct Hw as [-> _]. by exists row.
  - eapply Hone; [exact Hw |]. rewrite Hr. intros r [= <-].
    apply running_attempt_ok in Hrun as [Ha Hs].
    assert (is_published p = false) as Hnp.
    { apply not_true_iff_false. intros Hp. pose proof (pi_keyed _ Hi _ _ Hr) as Hk. simpl in Hk. rewrite Hk in Ha.
      destruct (pi_running _ Hi _ _ _ _ Ha Hs Hr) as [_ Ht].
      pose proof (ok_free _ (pi_rows _ Hi _ _ Hr) Hp) as Hf. simpl in *. by rewrite Hf in Ht. }
    split; simpl; try done; [by rewrite Hnp | split; [by eexists | done]].
  - eapply Hone; [exact Hw |]. by rewrite Hnone.
  - eapply Hone; [exact Hw |]. rewrite Hr. intros r [= <-]. apply int4_value in Hat.
    apply version_pos in Hv; [| by apply (ok_version _ (pi_rows _ Hi _ _ Hr))].
    split; simpl; try done; try lia; [| by rewrite Hnp].
    case_bool_decide as Hq; [rewrite Hq |]; simpl; lia.
  - eapply Hone; [exact Hw |]. rewrite Hr. intros r [= <-]. destruct Hh as (Hnp & _).
    pose proof (pi_rows _ Hi _ _ Hr) as Hok. pose proof (ok_version _ Hok) as Hpos. simpl in *.
    pose proof (ok_branch _ Hok) as Hb. pose proof (ok_no_pull_request _ Hok) as Hpr'. simpl in *.
    destruct Hpr as [p version lease Hv | p version Hs Hv | p raw r version prov Hs Hn Hv' _ Hv];
      apply version_pos in Hv; try done; split; simpl; try done; try lia; try (by rewrite Hnp);
      try (rewrite Hs; simpl; lia); rewrite Hs in *; simpl in *.
    + by rewrite Hb.
    + intros Hx. destruct Hx. apply Hpr'. lia.
  - eapply Hone; [exact Hw |]. rewrite Hr. intros r [= <-]. destruct Hh as (Hnp & _).
    pose proof (ok_version _ (pi_rows _ Hi _ _ Hr)) as Hpos. simpl in *.
    destruct Hcl as [p version status prov Hs Hv | p version detail _ Hv];
      apply version_pos in Hv; try done; split; simpl; try done; try lia; try (by rewrite Hnp).
    rewrite Hs. simpl. lia.
Qed.

Lemma pub_steps_evolve env presented db db' id row : publication_inv db →
  rtc (pub_step env presented) db db' → pd_publications db !! id = Some row →
  ∃ row', pd_publications db' !! id = Some row' ∧ evolves row row'.
Proof.
  intros Hi Hs. revert row. induction Hs as [db | db db1 db' Hst Hs IH]; intros row Hr; [by exists row |].
  destruct (pub_step_evolves _ _ _ _ _ _ Hi Hst Hr) as (row1 & Hr1 & He1).
  destruct (IH (pub_step_inv _ _ _ _ Hi Hst) _ Hr1) as (row' & Hr' & He'). exists row'. split; [done | by etrans].
Qed.
Lemma publication_steps_evolve db db' id row : publication_inv db →
  rtc publication_step db db' → pd_publications db !! id = Some row →
  ∃ row', pd_publications db' !! id = Some row' ∧ evolves row row'.
Proof.
  intros Hi Hs. revert row. induction Hs as [db | db db1 db' Hst Hs IH]; intros row Hr; [by exists row |].
  assert (∃ row1, pd_publications db1 !! id = Some row1 ∧ evolves row row1) as (row1 & Hr1 & He1).
  { destruct (publication_step_cases _ _ Hst) as [[-> _] | (env & request & ->)]; [by exists row |].
    eapply pub_steps_evolve; [done | by apply handled_by_steps, pi_keyed | done]. }
  destruct (IH (publication_step_inv _ _ Hi Hst) _ Hr1) as (row' & Hr' & He'). exists row'. split; [done | by etrans].
Qed.

(** ** A live publisher *)
Lemma pub_step_excluded env presented db db' id p t : publication_inv db →
  pub_step env presented db db' → presented ≠ Some t →
  pd_publications db !! id = Some (p, Some t) → lease_live (pv_now env) p = true →
  ∃ p', pd_publications db' !! id = Some (p', Some t) ∧ same_but_provenance p p' ∧
    ∀ n, pd_attempts db' !! (id, n) = pd_attempts db !! (id, n).
Proof.
  intros Hi Hst Hne Hrow Hlive.
  destruct Hst as
    [Hw | i q token a v Hr Hrun Hw | raw input pre a Hn _ Hpre Hnone Hfx Hft Hac Has Hw
    | raw input i q token version attempts a Hn _ Hr Hid Hnp Hl Hc Hv Hat Hft Hac Has Hw
    | i q token q' Hr Hpt Hh Hpr Hw | i q token state detail q' Hr Hid Hpt Hh Hcl Hw];
    destruct Hw as [-> Ha].
  - rewrite Ha. exists p. eauto with rows.
  - rewrite Ha. destruct (decide (id = i)) as [<- | Hni].
    + rewrite Hrow in Hr. injection Hr as <- <-. rewrite lookup_insert_eq. eexists.
      split_and!; [done | by eexists | done].
    + rewrite lookup_insert_ne by done. exists p. eauto with rows.
  - rewrite Ha. destruct (decide (id = pv_publication_id env)) as [-> | Hni]; [congruence |].
    rewrite lookup_insert_ne by done. exists p. split_and!; [done | eauto with rows |].
    intros n. by rewrite lookup_insert_ne by congruence.
  - destruct (decide (id = i)) as [<- | Hni].
    + rewrite Hrow in Hr. injection Hr as <- <-. by rewrite Hlive in Hl.
    + rewrite lookup_insert_ne by done. exists p. split_and!; [done | eauto with rows |].
      intros n. rewrite Ha, lookup_insert_ne, abandon_lookup by congruence.
      apply N.eqb_neq in Hni. rewrite Hni. by destruct (pd_attempts db !! (id, n)).
  - destruct (decide (id = i)) as [<- | Hni]; [congruence |].
    rewrite lookup_insert_ne by done. rewrite Ha. exists p. eauto with rows.
  - destruct (decide (id = i)) as [<- | Hni]; [congruence |].
    rewrite lookup_insert_ne by done. exists p. split_and!; [done | eauto with rows |].
    intros n. by rewrite Ha, lookup_alter_ne by congruence.
Qed.

Lemma pub_steps_excluded env presented db db' id p t : publication_inv db →
  rtc (pub_step env presented) db db' → presented ≠ Some t →
  pd_publications db !! id = Some (p, Some t) → lease_live (pv_now env) p = true →
  ∃ p', pd_publications db' !! id = Some (p', Some t) ∧ same_but_provenance p p' ∧
    ∀ n, pd_attempts db' !! (id, n) = pd_attempts db !! (id, n).
Proof.
  intros Hi Hs Hne. revert p. induction Hs as [db | db db1 db' Hst Hs IH]; intros p Hr Hlive.
  { exists p. eauto with rows. }
  destruct (pub_step_excluded _ _ _ _ _ _ _ Hi Hst Hne Hr Hlive) as (p1 & Hr1 & (v & ->) & Ha1).
  destruct (IH (pub_step_inv _ _ _ _ Hi Hst) _ Hr1 Hlive) as (p' & Hr' & (v' & ->) & Ha').
  eexists. split_and!; [exact Hr' | by eexists | intros n; by rewrite Ha'].
Qed.
End invariant.

(** ** The properties *)
Section properties.
Context `{Serde} `{ExecSerde} `{PublicationAuthorities}.

(** C14: every handler of publication refines its specification: whatever the request
    and the tables of the other components, a request on a reachable state is a
    sequence of the steps of [pub_step] under the token it presents, and one that
    fails leaves the database as it was. *)
Theorem publication_handlers_refine env request db : publication_reachable db →
  rtc (pub_step env (presented_token request)) db (run_txn (handle_publication env request) db).2 ∧
  ∀ e, (run_txn (handle_publication env request) db).1 = Err e →
    (run_txn (handle_publication env request) db).2 = db.
Proof.
  intros Hr. split; [by apply handled_by_steps, pi_keyed, publication_reachable_inv |].
  intros e. unfold run_txn. by destruct (handle_publication env request db) as [[out db']|].
Qed.

(** C17: publications are well typed: in every reachable state a row satisfies the
    constraints of its table (texts and commits in range, a publisher, its token
    and its lease all there or all absent, a recorded pull request complete, no
    merge or deployment authorised), and the optional columns are set exactly
    from the state on that writes them. *)
Theorem publications_are_typed db id p token : publication_reachable db →
  pd_publications db !! id = Some (p, token) →
  publication_checks (p, token) = true ∧ pb_id p = id ∧
  (1 ≤ publication_state_rank (pb_state p))%Z ∧
  is_some (pb_branch_pushed_at p) = (2 <=? publication_state_rank (pb_state p))%Z ∧
  is_some (pr_number (pb_pull_request p)) = (3 <=? publication_state_rank (pb_state p))%Z ∧
  is_some (pb_project_status_after p) = (4 <=? publication_state_rank (pb_state p))%Z ∧
  (is_published p = true → token = None).
Proof.
  intros Hr%publication_reachable_inv Hrow. pose proof (pi_rows _ Hr _ _ Hrow) as Hok.
  split_and!; [by apply row_checks | by apply (pi_keyed _ Hr _ _ Hrow) | by apply (ok_started _ Hok)
    | by apply (ok_branch _ Hok) | | | by apply (ok_free _ Hok)].
  - destruct (Z.leb_spec 3 (publication_state_rank (pb_state p))) as [Hrank | Hrank].
    + destruct (ok_pull_request _ Hok Hrank) as (raw & r & _ & _ & Hc). simpl in Hc. by rewrite Hc.
    + pose proof (ok_no_pull_request _ Hok Hrank) as Hc. simpl in Hc. by rewrite Hc.
  - pose proof (ok_status _ Hok) as Hs. simpl in Hs. rewrite Hs. unfold is_published.
    by destruct (pb_state p).
Qed.

(** The pull request a publication records is the authorised one: in every
    reachable state a recorded pull request is open, its URL names its number in
    the target repository, its head is the published branch of that repository at
    the verified commit, and its base is the authorised one (or, for a symbolic
    HEAD, an explicit branch), different from its head. *)
Theorem recorded_pull_requests_are_authorised db id p token number : publication_reachable db →
  pd_publications db !! id = Some (p, token) → pr_number (pb_pull_request p) = Some number →
  let e := pb_effect p in let c := pb_pull_request p in
  ∃ url base sha owner target_owner target_name,
    pr_url c = Some url ∧ pr_base_ref c = Some base ∧ pr_head_sha c = Some sha ∧
    pr_head_repository_owner c = Some owner ∧ pr_state c = Some "OPEN" ∧
    pr_is_cross_repository c = Some false ∧
    split_once "/"%char (pe_target_repository e) = Some (target_owner, target_name) ∧
    github_pull_request_url_matches url (pe_target_repository e) number = true ∧
    to_ascii_lowercase sha = to_ascii_lowercase (pe_commit_sha e) ∧
    to_ascii_lowercase owner = to_ascii_lowercase target_owner ∧ base ≠ pe_branch e ∧
    (if seqb (pe_base_ref e) "HEAD" then base ≠ "HEAD" ∧ starts_with "refs/" base = false
     else base = trim_start_matches "refs/heads/" (pe_base_ref e)).
Proof.
  intros Hr%publication_reachable_inv Hrow Hn. pose proof (pi_rows _ Hr _ _ Hrow) as Hok. simpl.
  destruct (decide (publication_state_rank (pb_state p) < 3)%Z) as [Hrank | Hrank].
  { pose proof (ok_no_pull_request _ Hok Hrank) as Hc. simpl in Hc. by rewrite Hc in Hn. }
  destruct (ok_pull_request _ Hok) as (raw & r & Hnorm & Hv & Hc); [simpl; lia |]. simpl in Hv, Hc.
  rewrite Hc in Hn |- *. simpl in Hn |- *. injection Hn as <-.
  unfold validate_pull_request_identity in Hv. res_inv. destruct v as [target_owner target_name].
  repeat match goal with Hx : seqb _ _ = true |- _ => apply seqb_eq in Hx end.
  simpl in *. unfold eq_ignore_ascii_case in *.
  repeat match goal with Hx : seqb (to_ascii_lowercase _) _ = true |- _ => apply seqb_eq in Hx end.
  do 6 eexists. split_and!; try done; try congruence.
  - intros Heq. match goal with Hx : seqb _ _ = false |- _ => apply seqb_neq in Hx; congruence end.
  - destruct (seqb (pe_base_ref (pb_effect p)) "HEAD"); res_inv.
    + split; [by apply seqb_neq | done].
    + by apply seqb_eq.
Qed.

(** C16: an effect is published once: in every reachable state no two publications
    share a Factory item, a source deliverable, or within a corp an effect key, an
    idempotency key or a branch of a repository; no two publishers hold the same
    token; and a publication has a running attempt, its current one, exactly while
    a publisher holds it. *)
Theorem effects_are_published_once db id id' p p' token token' : publication_reachable db →
  pd_publications db !! id = Some (p, token) → pd_publications db !! id' = Some (p', token') →
  (effects_collide (pb_effect p) (pb_effect p') = true → id = id') ∧
  (is_some token = true → token = token' → id = id') ∧
  ∀ n, (∃ a, pd_attempts db !! (id, n) = Some a ∧ pa_state a = "running") ↔
       n = pb_attempt_count p ∧ is_some token = true.
Proof.
  intros Hi%publication_reachable_inv Hr Hr'. split_and!.
  - intros Hc. by eapply (pi_effects _ Hi _ _ _ _ Hr Hr').
  - destruct token as [t|]; [| done]. intros _ <-. by eapply (pi_tokens _ Hi _ _ _ _ _ Hr Hr').
  - intros n. split.
    + intros (a & Ha & Hs). by apply (pi_running _ Hi _ _ _ _ Ha Hs Hr).
    + intros [-> Ht]. by apply (pi_held _ Hi _ _ Hr).
Qed.

(** A publication only advances: through any further steps of the system its
    effect columns stay, its state never goes back, a pushed branch and a recorded
    pull request stay as recorded, a published row stays as it is, and whatever
    else changes raises the version, apart from the upgrade of its provenance. *)
Theorem publications_only_advance db db' id row : publication_reachable db →
  rtc publication_step db db' → pd_publications db !! id = Some row →
  ∃ row', pd_publications db' !! id = Some row' ∧ evolves row row'.
Proof. intros Hr Hs Hrow. eapply publication_steps_evolve; eauto using publication_reachable_inv. Qed.

(** A live publisher excludes all others: while a publisher holds a publication
    under a live lease, no request that does not present its token changes the
    row, its token or its attempts, whoever sends it and whatever else it says;
    only an older provenance record may be upgraded. *)
Theorem live_publisher_excludes_others env request db id p t : publication_reachable db →
  pd_publications db !! id = Some (p, Some t) → lease_live (pv_now env) p = true →
  presented_token request ≠ Some t →
  ∃ p', pd_publications (run_txn (handle_publication env request) db).2 !! id = Some (p', Some t) ∧
    same_but_provenance p p' ∧
    ∀ n, pd_attempts (run_txn (handle_publication env request) db).2 !! (id, n) = pd_attempts db !! (id, n).
Proof.
  intros Hi%publication_reachable_inv Hr Hl Hne.
  eapply pub_steps_excluded; [done | by apply handled_by_steps, pi_keyed | done..].
Qed.
End properties.

(** ** Witnesses *)
Section witnesses.
#[local] Existing Instance sample_serde.
#[local] Existing Instance sample_exec_serde.
#[local] Existing Instance no_checkpoints.

Lemma requests_reachable l : publication_reachable (requests l).
Proof. exists sample_publications. split_and!; [done.. | apply requests_steps]. Qed.

(** The row of the publication after the requests. *)
Definition sample_row (l : list (publication_env * publication_request)) : pub_row :=
  default (new_publication (publication_at 0 0) (sample_start 10 "owner" "")
             (PublicationPrerequisites (verified_item ItemState.Verified) "" None 0 0 0 0 0 "" "" "" "" "" "" ""
                [] [] [] None), None) (pd_publications (requests l) !! 300%N).
Lemma sample_row_found l : is_some (pd_publications (requests l) !! 300%N) = true →
  pd_publications (requests l) !! 300%N = Some ((sample_row l).1, (sample_row l).2).
Proof. unfold sample_row. by destruct (pd_publications (requests l) !! 300%N) as [[]|]. Qed.

Lemma publication_handlers_refine_witness :
  rtc (pub_step (publication_at 9 9) None) (requests started_requests)
    (run_txn (handle_publication (publication_at 9 9) (StartPublication (sample_start 12 "member" "key-9")))
       (requests started_requests)).2.
Proof.
  apply (publication_handlers_refine (publication_at 9 9) (StartPublication (sample_start 12 "member" "key-9"))
           (requests started_requests)).
  apply requests_reachable.
Defined.

Lemma publications_are_typed_witness :
  publication_checks (sample_row created_requests) = true ∧ pb_id (sample_row created_requests).1 = 300%N.
Proof.
  destruct (publications_are_typed (requests created_requests) 300 (sample_row created_requests).1
    (sample_row created_requests).2) as (Hc & Hid & _).
  - apply requests_reachable.
  - apply sample_row_found. vm_compute. reflexivity.
  - split; [| exact Hid]. revert Hc. by destruct (sample_row created_requests).
Defined.

Lemma recorded_pull_requests_are_authorised_witness :
  ∃ url, pr_url (pb_pull_request (sample_row published_requests).1) = Some url ∧
    github_pull_request_url_matches url "acme/app" 12 = true.
Proof.
  destruct (recorded_pull_requests_are_authorised (requests published_requests) 300
    (sample_row published_requests).1 (sample_row published_requests).2 12)
    as (url & base & sha & owner & o & n & Hu & _ & _ & _ & _ & _ & _ & Hm & _).
  - apply requests_reachable.
  - apply sample_row_found. vm_compute. reflexivity.
  - vm_compute. reflexivity.
  - exists url. split; [exact Hu |]. revert Hm. vm_compute. exact (λ x, x).
Defined.

Lemma effects_are_published_once_witness :
  ∃ a, pd_attempts (requests started_requests) !! (300%N, 1%Z) = Some a ∧ pa_state a = "running".
Proof.
  apply (effects_are_published_once (requests started_requests) 300 300 (sample_row started_requests).1
    (sample_row started_requests).1 (sample_row started_requests).2 (sample_row started_requests).2).
  - apply requests_reachable.
  - apply sample_row_found. vm_compute. reflexivity.
  - apply sample_row_found. vm_compute. reflexivity.
  - split; vm_compute; reflexivity.
Defined.

Lemma publications_only_advance_witness : ∃ row',
  pd_publications (run_txn (handle_publication (publication_at 4 3) (RecordCheckpoint
    (sample_checkpoint 3 "key-4" 400 (CheckpointPublished "In review" "F" "O")))) (requests created_requests)).2
    !! 300%N = Some row' ∧ evolves (sample_row created_requests) row'.
Proof.
  apply (publications_only_advance (requests created_requests)).
  - apply requests_reachable.
  - apply rtc_once, publication_step_handled.
  - rewrite sample_row_found by (vm_compute; reflexivity). by destruct (sample_row created_requests).
Defined.

(** Another actor starts the same effect while the first publisher holds it. *)
Lemma live_publisher_excludes_others_witness : ∃ p',
  pd_publications (run_txn (handle_publication (publication_at 9 9)
    (StartPublication (sample_start 12 "member" "key-9"))) (requests started_requests)).2 !! 300%N
    = Some (p', Some 400%N) ∧ same_but_provenance (sample_row started_requests).1 p'.
Proof.
  destruct (live_publisher_excludes_others (publication_at 9 9)
    (StartPublication (sample_start 12 "member" "key-9")) (requests started_requests) 300
    (sample_row started_requests).1 400) as (p' & Hp & Hs & _).
  - apply requests_reachable.
  - rewrite sample_row_found by (vm_compute; reflexivity). f_equal.
  - vm_compute. reflexivity.
  - discriminate.
  - exists p'. split; [exact Hp | exact Hs].
Defined.
End witnesses.
