(* ===== verification/PublicationGuards.v ===== *)
(** * What publication needs, and what repeats do

    No effect without verified work: every request that starts or advances a
    publication re-establishes its authority ([effects_need_verified_work]).
    Repeats change nothing ([publication_requests_are_idempotent]), a revoked
    publisher stays locked out ([revoked_publishers_are_locked_out]), and the last
    checkpoint completes the Factory item ([publication_completes_its_item]). *)
From S2P Require Import Prelude Text Json Domain Planning FactoryPolicy Store FactoryItems Breaker ExecTables Checkpoint RunFailure PublicationRules Publication PublicationSteps PublicationSamples PublicationSafety.

(** ** Recorded operations and credentials stay *)
Definition same_credential (c c' : publisher_credential) : Prop :=
  pc_corp_id c' = pc_corp_id c ∧ pc_publisher_id c' = pc_publisher_id c ∧
  pc_credential_hash c' = pc_credential_hash c ∧
  (is_some (pc_revoked_at c) = true → is_some (pc_revoked_at c') = true).
Definition distinct_hashes (db : publication_db) : Prop :=
  ∀ id id' c c', pd_credentials db !! id = Some c → pd_credentials db !! id' = Some c' →
    pc_credential_hash c = pc_credential_hash c' → id = id'.

Record entries_stay (s s' : publication_db) : Prop := {
  es_operations key op : pd_operations s !! key = Some op → pd_operations s' !! key = Some op;
  es_credentials id c : pd_credentials s !! id = Some c →
    ∃ c', pd_credentials s' !! id = Some c' ∧ same_credential c c';
  es_hashes : distinct_hashes s → distinct_hashes s';
}.

Lemma same_credential_refl c : same_credential c c.
Proof. by unfold same_credential. Qed.
Lemma same_tables_stay s s' : pd_operations s' = pd_operations s → pd_credentials s' = pd_credentials s →
  entries_stay s s'.
Proof.
  intros Ho Hc. split; unfold distinct_hashes; rewrite ?Ho, ?Hc; eauto using same_credential_refl.
Qed.

(** Updating one credential without touching its identity. *)
Lemma alter_stay f i s : (∀ c, same_credential c (f c)) → entries_stay s (on_credentials (alter f i) s).
Proof.
  intros Hf. assert (∀ id c, pd_credentials (on_credentials (alter f i) s) !! id = Some c →
    ∃ c0, pd_credentials s !! id = Some c0 ∧ same_credential c0 c) as Hback.
  { intros id c. simpl. destruct (decide (i = id)) as [<- | Hne].
    - rewrite lookup_alter_eq. intros (c0 & Hc0 & ->)%fmap_Some. eauto.
    - rewrite lookup_alter_ne by done. eauto using same_credential_refl. }
  split; [done | |].
  - intros id c Hc. simpl. destruct (decide (i = id)) as [<- | Hne].
    + rewrite lookup_alter_eq, Hc. simpl. eauto.
    + rewrite lookup_alter_ne by done. eauto using same_credential_refl.
  - intros Hd id id' c c' (c0 & H0 & Hs0)%Hback (c1 & H1 & Hs1)%Hback Heq.
    eapply Hd; [exact H0 | exact H1 |]. destruct Hs0 as (_ & _ & <- & _), Hs1 as (_ & _ & <- & _). exact Heq.
Qed.

#[global] Instance entries_stay_frame : PublicationFrame entries_stay.
Proof.
  split.
  - split; [intros s; by apply same_tables_stay |]. intros x y z [] []. split; eauto.
    intros id c Hc. destruct (es_credentials0 _ _ Hc) as (c1 & H1 & Hs1).
    destruct (es_credentials1 _ _ H1) as (c2 & H2 & Hs2). exists c2. split; [done |].
    unfold same_credential in *. naive_solver congruence.
  - intros f s. by apply same_tables_stay.
  - intros now id s. apply alter_stay. intros c. by unfold same_credential.
  - intros key op s Hnew. split; [| simpl; eauto using same_credential_refl | done].
    intros key' op' Hk. simpl. rewrite lookup_insert_ne; [done | congruence].
Qed.

Section stay.
Context `{Serde} `{ExecSerde} `{PublicationAuthorities}.

Lemma stay_rows f : keeps entries_stay (modify (on_publications f)).
Proof. apply keeps_modify_tx. intros s. by apply same_tables_stay. Qed.
Lemma stay_attempts f : keeps entries_stay (modify (on_attempts f)).
Proof. apply keeps_modify_tx. intros s. by apply same_tables_stay. Qed.
#[local] Hint Resolve stay_rows stay_attempts : rows.
Lemma stay_exec f : keeps entries_stay (modify (on_exec f)).
Proof. apply keeps_modify_tx. intros s. by apply same_tables_stay. Qed.
Lemma stay_store p token : keeps entries_stay (store_publication_tx p token).
Proof. unfold store_publication_tx. keep. Qed.
#[local] Hint Resolve stay_exec stay_store : rows.
Lemma stay_insert p token : keeps entries_stay (insert_publication_tx p token).
Proof. unfold insert_publication_tx. keep. Qed.
Lemma stay_attempt p actor authorization_id authorization publisher :
  keeps entries_stay (insert_publication_attempt_tx p actor authorization_id authorization publisher).
Proof. unfold insert_publication_attempt_tx. keep. Qed.
Lemma stay_revalidate env p actor : keeps entries_stay (revalidate_publication_authority_tx env p actor).
Proof. unfold revalidate_publication_authority_tx. keep. Qed.
#[local] Hint Resolve stay_insert stay_attempt stay_revalidate : rows.
Lemma stay_replay env row op corp id actor message :
  keeps entries_stay (revalidate_live_replay env row op corp id actor message).
Proof. unfold revalidate_live_replay. keep. Qed.
#[local] Hint Resolve stay_replay : rows.

Lemma stay_start env input : keeps entries_stay (start_pull_request_publication env input).
Proof.
  unfold start_pull_request_publication, start_replay, start_existing, start_published, start_takeover,
    start_new. keep.
Qed.
Lemma stay_renew env input : keeps entries_stay (renew_pull_request_publication env input).
Proof. unfold renew_pull_request_publication, renew_replay, renew_new. keep. Qed.
Lemma stay_checkpoint env input : keeps entries_stay (record_pull_request_publication_checkpoint env input).
Proof.
  unfold record_pull_request_publication_checkpoint, checkpoint_replay, checkpoint_new, authorised_row,
    record_branch_pushed, record_pull_request_created, record_published, record_failed. keep.
Qed.
Lemma stay_handled env request : keeps entries_stay (handle_publication env request).
Proof. destruct request; [apply stay_start | apply stay_renew | apply stay_checkpoint]. Qed.
End stay.

(** ** Credentials *)
Definition request_corp (request : publication_request) : uuid :=
  match request with
  | StartPublication input => sp_corp_id input
  | RenewPublication input => rp_corp_id input
  | RecordCheckpoint input => cp_corp_id input
  end.
Definition request_credential (request : publication_request) : string :=
  match request with
  | StartPublication input => sp_publisher_credential_hash input
  | RenewPublication input => rp_publisher_credential_hash input
  | RecordCheckpoint input => cp_publisher_credential_hash input
  end.

Lemma find_credential (f : publisher_credential → bool) (m : gmap uuid publisher_credential) id c :
  find (λ row, f row.2) (map_to_list m) = Some (id, c) → m !! id = Some c ∧ f c = true.
Proof.
  intros [Hin Hf]%find_some. split; [| done]. by apply list_elem_of_In, elem_of_map_to_list in Hin.
Qed.

Lemma credential_ok env corp publisher hash s u s' :
  revalidate_publication_publisher_credential_tx env corp publisher hash s = Ok (u, s') →
  ∃ id c, pd_credentials s !! id = Some c ∧ pc_corp_id c = corp ∧ pc_credential_hash c = hash ∧
    pc_revoked_at c = None ∧ (pv_db_now env < pc_expires_at c)%Z ∧ pc_publisher_id c = publisher.
Proof.
  unfold revalidate_publication_publisher_credential_tx. intros Ht. txn_inv. res_inv.
  match goal with Hf : find _ _ = Some ?row |- _ => destruct row as [id c]; rename Hf into Hfind end.
  apply (find_credential (λ c, credential_usable _ _ _ c && seqb (pc_publisher_id c) publisher)) in Hfind
    as [Hc Hu].
  exists id, c. unfold credential_usable in Hu.
  apply andb_true_iff in Hu as [[[[Hcorp%N.eqb_eq Hhash%seqb_eq]%andb_true_iff Hrev%negb_true_iff]%andb_true_iff
    Hexp%Z.ltb_lt]%andb_true_iff Hp%seqb_eq].
  split_and!; try done. by destruct (pc_revoked_at c).
Qed.

Section credentials.
Context `{Serde} `{ExecSerde} `{PublicationAuthorities}.

Lemma normalized_start raw input : normalize_start_input raw = Ok input →
  sp_corp_id raw = sp_corp_id input ∧
  normalize_publication_publisher_credential_hash (sp_publisher_credential_hash raw)
    = Ok (sp_publisher_credential_hash input).
Proof. unfold normalize_start_input. intros Hn. res_inv. done. Qed.

(** Every request that succeeds presents a live credential of its corp. *)
Lemma handled_presents_credential env request s out s' :
  handle_publication env request s = Ok (out, s') →
  ∃ id c, pd_credentials s !! id = Some c ∧ pc_corp_id c = request_corp request ∧
    normalize_publication_publisher_credential_hash (request_credential request) = Ok (pc_credential_hash c) ∧
    pc_revoked_at c = None ∧ (pv_db_now env < pc_expires_at c)%Z.
Proof.
  assert (∀ corp actor s u s', assert_actor_scope_tx corp actor s = Ok (u, s') → s' = s) as Hscope.
  { intros ????? Ha. by apply read_directory_ok in Ha as [_ ->]. }
  assert (∀ key publisher hash i, publisher_identity key publisher hash = Ok i →
    normalize_publication_publisher_credential_hash hash = Ok i.2) as Hid.
  { unfold publisher_identity. intros ???? Hi. res_inv. done. }
  destruct request as [input | input | input]; simpl; intros Ht.
  - unfold start_pull_request_publication in Ht. take Ht n. apply lift_ok in Ha as [Hn ->].
    take Ht u. apply Hscope in Ha as ->. take Ht u'. apply credential_ok in Ha as (id & c & Hc & Hcorp & Hh & Hr & He & _).
    apply normalized_start in Hn as [-> Hn]. rewrite <- Hh in Hn. eauto 8.
  - unfold renew_pull_request_publication in Ht. take Ht u0. apply lift_ok in Ha as [_ ->].
    take Ht i. apply lift_ok in Ha as [Hi%Hid ->]. destruct i as [[key publisher] credential].
    take Ht l. apply lift_ok in Ha as [_ ->]. take Ht u. apply Hscope in Ha as ->.
    take Ht u'. apply credential_ok in Ha as (id & c & Hc & Hcorp & Hh & Hr & He & _).
    exists id, c. simpl in *. split_and!; congruence.
  - unfold record_pull_request_publication_checkpoint in Ht. take Ht u0. apply lift_ok in Ha as [_ ->].
    take Ht i. apply lift_ok in Ha as [Hi%Hid ->]. destruct i as [[key publisher] credential].
    take Ht n. apply lift_ok in Ha as [_ ->]. destruct n as [[name c0] creq].
    take Ht u. apply Hscope in Ha as ->.
    take Ht u'. apply credential_ok in Ha as (id & c & Hc & Hcorp & Hh & Hr & He & _).
    exists id, c. simpl in *. split_and!; congruence.
Qed.

Lemma stay_enrol env corp actor publisher hash expiry :
  keeps entries_stay (create_publication_publisher_credential env corp actor publisher hash expiry).
Proof.
  intros s out s' Ht. unfold create_publication_publisher_credential, append_new_event in Ht.
  take Ht p. apply lift_ok in Ha as [_ ->]. take Ht h. apply lift_ok in Ha as [_ ->].
  take Ht u. apply lift_ok in Ha as [_ ->]. take Ht u1. apply read_directory_ok in Ha as [_ ->].
  take Ht taken. apply gets_ok in Ha as [-> ->].
  take Ht u2. apply lift_ok in Ha as [[Hid Hh]%bail_if_ok%orb_false_iff ->].
  take Ht u3. apply lift_ok in Ha as [_ ->]. take Ht u4. apply modify_ok in Ha as ->.
  etrans; [| eapply (_ : keeps entries_stay _); exact Ht].
  assert (pd_credentials s !! pv_publication_id env = None) as Hnone by (by destruct (_ !! _)).
  assert (∀ id c, pd_credentials s !! id = Some c → pc_credential_hash c ≠ h) as Hfresh.
  { intros id c Hc <-. apply not_true_iff_false in Hh. apply Hh, existsb_exists.
    exists (id, c). split; [by apply list_elem_of_In, elem_of_map_to_list | apply seqb_eq; done]. }
  split; [done | |]; simpl.
  - intros id c Hc. rewrite lookup_insert_ne by congruence. eauto using same_credential_refl.
  - intros Hd id id' c c'. simpl. rewrite !lookup_insert_Some.
    intros [[<- <-] | [? Hc]] [[<- <-] | [? Hc']] Heq; simpl in *; [done | | | by eapply Hd].
    + by destruct (Hfresh _ _ Hc').
    + by destruct (Hfresh _ _ Hc).
  Unshelve. keep.
Qed.

Lemma stay_step db db' : publication_step db db' → entries_stay db db'.
Proof.
  assert (∀ A (t : txn publication_db A) s, keeps entries_stay t → entries_stay s (run_txn t s).2) as Hrun.
  { intros A t s Ht. unfold run_txn. destruct (t s) as [[a s']|] eqn:E; [by eapply Ht | reflexivity]. }
  destruct 1.
  - apply Hrun, stay_handled.
  - apply Hrun, stay_enrol.
  - apply Hrun. unfold authenticate_publication_publisher. keep.
  - apply Hrun. unfold revoke_publication_publisher_credential. keep.
    apply keeps_modify_tx. intros s. apply alter_stay. intros c'. by unfold same_credential.
  - by apply same_tables_stay.
Qed.
Lemma stay_steps db db' : rtc publication_step db db' → entries_stay db db'.
Proof. induction 1; [reflexivity | etrans; [by apply stay_step | done]]. Qed.

(** A revoked publisher is locked out for good: once a credential is revoked,
    no request that presents it succeeds, through any further steps of the system,
    whatever the request, its actor and the time; the hashes of credentials are
    UNIQUE, and stay so. *)
Theorem revoked_publishers_are_locked_out db db' id c env request : distinct_hashes db →
  pd_credentials db !! id = Some c → is_some (pc_revoked_at c) = true →
  rtc publication_step db db' →
  normalize_publication_publisher_credential_hash (request_credential request) = Ok (pc_credential_hash c) →
  distinct_hashes db' ∧ ∃ e, run_txn (handle_publication env request) db' = (Err e, db').
Proof.
  intros Hd Hc Hr Hs%stay_steps Hn. destruct (es_credentials _ _ Hs _ _ Hc) as (c' & Hc' & _ & _ & Hh & Hr').
  split; [by apply (es_hashes _ _ Hs) |]. unfold run_txn.
  destruct (handle_publication env request db') as [[out s']|e] eqn:E; [| eauto].
  apply handled_presents_credential in E as (id2 & c2 & Hc2 & _ & Hn2 & Hr2 & _).
  assert (id2 = id) as ->.
  { eapply (es_hashes _ _ Hs Hd); [exact Hc2 | exact Hc' |]. congruence. }
  specialize (Hr' Hr). rewrite Hc' in Hc2. injection Hc2 as <-. by rewrite Hr2 in Hr'.
Qed.
End credentials.

(** ** What repeats and replays do to the tables *)

(** At most a credential is used and an older provenance upgraded. *)
Record quiet (s s' : publication_db) : Prop := {
  qu_exec : pd_exec s' = pd_exec s;
  qu_operations : pd_operations s' = pd_operations s;
  qu_attempts : pd_attempts s' = pd_attempts s;
  qu_rows id row : pd_publications s !! id = Some row →
    ∃ p, pd_publications s' !! id = Some (p, row.2) ∧ same_but_provenance row.1 p;
  qu_no_row id : pd_publications s !! id = None → pd_publications s' !! id = None;
}.
Lemma same_but_trans p p' p'' : same_but_provenance p p' → same_but_provenance p' p'' →
  same_but_provenance p p''.
Proof. intros (v & ->) (w & ->). by exists w. Qed.
#[global] Instance quiet_preorder : PreOrder quiet.
Proof.
  split.
  - intros s. split; try done. intros id [p token] Hr. eauto with rows.
  - intros x y z [] []. split; try congruence; try by eauto.
    intros id row Hr. destruct (qu_rows0 _ _ Hr) as (p & Hp & Hs).
    destruct (qu_rows1 _ _ Hp) as (p' & Hp' & Hs'). eauto using same_but_trans.
Qed.

Lemma quiet_keyed s s' : quiet s s' → keyed s → keyed s'.
Proof.
  intros Hq Hk id row Hr. destruct (pd_publications s !! id) as [row0|] eqn:E.
  - destruct (qu_rows _ _ Hq _ _ E) as (p & Hp & v & Hs). rewrite Hr in Hp. injection Hp as ->. simpl.
    rewrite Hs. apply (Hk _ _ E).
  - by rewrite (qu_no_row _ _ Hq _ E) in Hr.
Qed.

Section quiet.
Context `{Serde} `{ExecSerde} `{PublicationAuthorities}.

Lemma quiet_credential env corp publisher hash :
  keeps quiet (revalidate_publication_publisher_credential_tx env corp publisher hash).
Proof.
  unfold revalidate_publication_publisher_credential_tx. keep.
  apply keeps_modify_tx. intros s. split; try done. intros id [p token] Hr. eauto with rows.
Qed.
Lemma quiet_revalidate env p actor : keeps quiet (revalidate_publication_authority_tx env p actor).
Proof.
  intros s u s' [_ [-> | ([q token] & v & Hr & ->)]]%revalidate_ok; [reflexivity |].
  split; try done; simpl; intros id; destruct (decide (pb_id p = id)) as [<- | Hne];
    rewrite ?lookup_insert_eq, ?lookup_insert_ne by done; try done.
  - intros row. rewrite Hr. intros [= <-]. eexists. split; [done | by eexists].
  - intros [q' token'] Hr'. eauto with rows.
  - congruence.
Qed.
#[local] Hint Resolve quiet_credential quiet_revalidate : rows.
Lemma quiet_live_replay env row op corp id actor message :
  keeps quiet (revalidate_live_replay env row op corp id actor message).
Proof. unfold revalidate_live_replay. keep. Qed.
#[local] Hint Resolve quiet_live_replay : rows.
Lemma quiet_start_replay env input op : keeps quiet (start_replay env input op).
Proof. unfold start_replay. keep. Qed.
Lemma quiet_renew_replay env input request op : keeps quiet (renew_replay env input request op).
Proof. unfold renew_replay. keep. Qed.
Lemma quiet_checkpoint_replay env input name request op :
  keeps quiet (checkpoint_replay env input name request op).
Proof. unfold checkpoint_replay. keep. Qed.
End quiet.
#[export] Hint Resolve quiet_credential quiet_revalidate quiet_start_replay quiet_renew_replay
  quiet_checkpoint_replay : rows.

(** ** Verified work *)

(** The item, its policy and its deliverable still carry the publication of
    [deliverable] to [repository]. *)
Record verified_work (db : exec_db) (corp item_id deliverable : uuid) (repository commit : string)
    (item : factory_work_item) (row : deliverable_row) (mission : uuid) : Prop := {
  vw_item : fw_corp_id item = corp ∧ ∃ token, si_items (x_side db) !! item_id = Some (item, token);
  vw_state : fw_state item = ItemState.Verified ∨ fw_state item = ItemState.Publishing;
  vw_mission : fw_mission_id item = Some mission ∧
    factory_mission_verified corp mission (get_directory db) = true;
  vw_policy : ∃ policy terms, as_object (fw_policy item) = Some policy ∧
    obj_get "auto_merge" policy = Some (JBool false) ∧
    obj_get "publication" policy ≫= as_object = Some terms ∧
    obj_get "allowed" terms = Some (JBool true);
  vw_repository : repository =
    src_repository_owner (fw_source item) +:+ "/" +:+ src_repository_name (fw_source item);
  vw_row : deliverable_row_of db corp mission deliverable = Some row ∧
    sd_integration_state (dr_deliverable row) = "ready_for_review" ∧
    af_status (dr_artifact row) = "ready";
  vw_run : rn_status (dr_run row) = RunStatus.Completed ∧ rn_verification_status (dr_run row) = "passed" ∧
    rw_disposition (rn_workspace (dr_run row)) ≠ Some "quarantined" ∧
    rn_verification_sha256 (dr_run row) = Some (sd_verification_sha256 (dr_deliverable row)) ∧
    rn_deliverable_sha256 (dr_run row) = Some (af_sha256 (dr_artifact row));
  vw_commit : to_ascii_lowercase <$> sd_head_commit (dr_deliverable row) = Some commit ∧
    commit ≠ to_ascii_lowercase (sd_base_commit (dr_deliverable row));
  vw_evidence : mission_evidence_ids db corp mission ≠ [];
}.

Section verified.
Context `{Serde} `{ExecSerde} `{PublicationAuthorities}.

Lemma terms_ok item request terms : check_publication_terms item request = Ok terms →
  (∃ policy terms, as_object (fw_policy item) = Some policy ∧
    obj_get "auto_merge" policy = Some (JBool false) ∧
    obj_get "publication" policy ≫= as_object = Some terms ∧ obj_get "allowed" terms = Some (JBool true)) ∧
  pq_target_repository request =
    src_repository_owner (fw_source item) +:+ "/" +:+ src_repository_name (fw_source item).
Proof.
  assert (∀ o, is_false_bool o = true → o = Some (JBool false)) as Hf by (by intros [[| [] | | | | |] |]).
  assert (∀ o, is_true_bool o = true → o = Some (JBool true)) as Ht by (by intros [[| [] | | | | |] |]).
  unfold check_publication_terms. intros Hc.
  apply bind_ok in Hc as (policy & Hpol%with_context_ok & Hc).
  apply bind_ok in Hc as ([] & Ham%bail_if_ok%negb_false_iff & Hc).
  apply bind_ok in Hc as (publication & Hpub%with_context_ok & Hc).
  apply bind_ok in Hc as ([] & Hal%bail_if_ok%negb_false_iff & Hc).
  apply bind_ok in Hc as (allowlist & _ & Hc). apply bind_ok in Hc as ([] & _ & Hc).
  apply bind_ok in Hc as ([] & Hrep%bail_if_ok%negb_false_iff%seqb_eq & _).
  split; [| exact Hrep]. exists policy, publication. split_and!; auto.
Qed.

Lemma prerequisites_verified now request existing db pre :
  validate_publication_prerequisites now request existing db = Ok pre → ∃ row,
  verified_work db (pq_corp_id request) (pq_work_item_id request) (pq_source_deliverable_id request)
    (pq_target_repository request) (pp_commit_sha pre) (pp_work_item pre) row (pp_mission_id pre).
Proof.
  intros (token & terms & row & lineage & Ha)%prerequisites_ok. destruct Ha as [Hitem Hstate Hm Hver Hterms Hrow Hdel _ _ _ _ Hev _]. exists row.
  apply terms_ok in Hterms as [Hpol Hrep].
  apply bind_Some in Hitem as ([item token'] & Hitem & Hcorp). case_match eqn:Ecorp; [| done].
  apply N.eqb_eq in Ecorp. injection Hcorp as -> ->. unfold check_deliverable in Hdel.
  apply bind_ok in Hdel as (head & Hhead%with_context_ok & Hd).
  apply bind_Some in Hhead as (head' & Hhead & Hh'). destruct (is_empty head'); [done |]. injection Hh' as <-.
  apply bind_ok in Hd as ([] & _ & Hd). apply bind_ok in Hd as ([] & Hforms%bail_if_ok & Hd).
  apply bind_ok in Hd as ([] & _ & Hd). apply bind_ok in Hd as ([] & Hstates%bail_if_ok & Hd).
  injection Hd as Hd.
  repeat match goal with Hb : (_ || _) = false |- _ => apply orb_false_iff in Hb as [Hb ?] end.
  repeat match goal with
  | Hb : negb _ = false |- _ => apply negb_false_iff in Hb
  | Hb : bool_decide _ = true |- _ => apply bool_decide_eq_true in Hb
  | Hb : bool_decide _ = false |- _ => apply bool_decide_eq_false in Hb
  | Hb : seqb _ _ = true |- _ => apply seqb_eq in Hb
  | Hb : seqb _ _ = false |- _ => apply seqb_neq in Hb
  end.
  split; simpl in *; try done; eauto 10.
  - unfold publishable_state in Hstate. apply orb_true_iff in Hstate as [Hs | [_ Hs]%andb_true_iff];
      apply bool_decide_eq_true in Hs; auto.
  - split; [by rewrite Hhead; simpl; f_equal | congruence].
  - destruct Hev as [<- He]. exact He.
Qed.
End verified.

(** Take the first transaction off [H] and learn that it is quiet. *)
Ltac quietly H :=
  let a := fresh "a" in let s := fresh "s" in let Ha := fresh "Ha" in let Hn := fresh "Hn" in
  apply txn_bind_ok in H as (a & s & Ha & H);
  match type of Ha with ?t ?s1 = Ok (_, ?s2) =>
    assert (quiet s1 s2) as Hn by (refine ((_ : keeps quiet t) _ _ _ Ha); keep);
    clear Ha;
    first
      [ match goal with Hp : quiet ?s0 s1 |- _ =>
          apply (transitivity Hp) in Hn; clear Hp; rename Hn into Hp
        end
      | rename Hn into Hq ]
  end.

(** Go to the outcome that [H] returns. *)
Ltac finish H :=
  repeat match type of H with
  | (mbind _ _) _ = Ok _ => apply txn_bind_ok in H as (? & ? & _ & H)
  end; apply mret_ok in H as [H _]; try (match type of H with ?x = _ => is_var x; subst x end); simpl in *.

(** A request that makes an effect, or prepares one; a failure only ends an attempt. *)
Definition makes_effects (request : publication_request) : bool :=
  match request with
  | RecordCheckpoint input => match cp_checkpoint input with CheckpointFailed _ => false | _ => true end
  | _ => true
  end.
Definition factory_items_keyed (db : exec_db) : Prop :=
  ∀ id row, si_items (x_side db) !! id = Some row → fw_id row.1 = id.

Section effects.
Context `{Serde} `{ExecSerde} `{PublicationAuthorities}.

(** The work behind a publication, found again. *)
Definition backed (db : exec_db) (p : publication) (at_commit : bool) : Prop :=
  let e := pb_effect p in
  ∃ item row mission commit,
    verified_work db (pe_corp_id e) (pe_factory_work_item_id e) (pe_source_deliverable_id e)
      (pe_target_repository e) commit item row mission ∧
    (at_commit = true → commit = pe_commit_sha e ∧ mission = pe_mission_id e).

Lemma backed_same db p p' b : pb_effect p' = pb_effect p → backed db p b → backed db p' b.
Proof. unfold backed. by intros ->. Qed.
Lemma backed_weaken db p : backed db p true → backed db p false.
Proof. intros (item & row & m & c & Hw & _). by exists item, row, m, c. Qed.

Lemma bound_ok p pre state : provenance_bound p pre state = true →
  fw_id (pp_work_item pre) = pe_factory_work_item_id (pb_effect p) ∧
  pp_mission_id pre = pe_mission_id (pb_effect p) ∧ pp_commit_sha pre = pe_commit_sha (pb_effect p).
Proof.
  unfold provenance_bound. rewrite !andb_true_iff, !N.eqb_eq, seqb_eq. naive_solver.
Qed.

Lemma revalidate_backed env p actor s u s' :
  revalidate_publication_authority_tx env p actor s = Ok (u, s') → backed (pd_exec s) p true.
Proof.
  unfold revalidate_publication_authority_tx. intros Ht.
  take Ht a. apply gets_ok in Ha as [_ ->]. take Ht a'. apply lift_ok in Ha as [_ ->].
  take Ht role. apply lift_ok in Ha as [_ ->]. take Ht u1. apply read_directory_ok in Ha as [_ ->].
  take Ht pre. apply read_exec_ok in Ha as [Hpre ->]. take Ht u2. apply read_directory_ok in Ha as [_ ->].
  take Ht v. apply lift_ok in Ha as [Hv ->]. clear Ht.
  apply prerequisites_verified in Hpre as (row & Hw). unfold upgraded_provenance in Hv.
  apply bind_ok in Hv as (state & _ & Hv). apply bind_ok in Hv as ([] & Hb%bail_if_ok%negb_false_iff & _).
  apply bound_ok in Hb as (_ & Hm & Hc).
  by exists (pp_work_item pre), row, (pp_mission_id pre), (pp_commit_sha pre).
Qed.

Lemma start_new_backed env input s out s' : factory_items_keyed (pd_exec s) →
  start_new env input s = Ok (out, s') → backed (pd_exec s) (out_publication out) true.
Proof.
  unfold start_new. intros Hk Ht. take Ht pre. apply read_exec_ok in Ha as [Hpre ->].
  take Ht u. apply read_directory_ok in Ha as [_ ->]. take Ht p. apply insert_ok in Ha as (-> & _). finish Ht.
  apply prerequisites_verified in Hpre as (row & Hw). pose proof Hw as [[_ (token & Hi)] _ _ _ _ _ _ _ _].
  apply Hk in Hi. simpl in Hi. exists (pp_work_item pre), row, (pp_mission_id pre), (pp_commit_sha pre).
  simpl. rewrite Hi. by split.
Qed.

Lemma start_existing_backed env input row s out s' : pb_corp_id row.1 = sp_corp_id input →
  start_existing env input row s = Ok (out, s') → out_replayed out = false →
  backed (pd_exec s) (out_publication out) false.
Proof.
  unfold start_existing. intros Hc Ht Hr. take Ht u. apply lift_ok in Ha as [Hm ->].
  quietly Ht. destruct (is_published row.1).
  { unfold start_published in Ht. finish Ht. done. }
  take Ht pre. apply read_exec_ok in Ha as [Hpre ->]. destruct (_ && _).
  { finish Ht. done. }
  unfold start_takeover in Ht. take Ht u1. clear Ha. take Ht version. clear Ha. take Ht attempts. clear Ha.
  take Ht p. apply store_ok in Ha as (-> & _). finish Ht.
  apply prerequisites_verified in Hpre as (drow & Hw). rewrite (qu_exec _ _ Hq) in Hw.
  exists (pp_work_item pre), drow, (pp_mission_id pre), (pp_commit_sha pre). split; [| done]. simpl.
  unfold ensure_publication_matches_start in Hm. apply bail_if_ok in Hm.
  repeat match goal with Hb : (_ || _) = false |- _ => apply orb_false_iff in Hb as [Hb ?] end.
  repeat match goal with
  | Hb : negb (N.eqb _ _) = false |- _ => apply negb_false_iff, N.eqb_eq in Hb
  | Hb : negb (seqb _ _) = false |- _ => apply negb_false_iff, seqb_eq in Hb
  end.
  unfold pb_corp_id in Hc. simpl in *. congruence.
Qed.

Lemma renew_new_backed env input key publisher request s out s' :
  renew_new env input key publisher request s = Ok (out, s') → keyed s →
  backed (pd_exec s) (out_publication out) true.
Proof.
  unfold renew_new. intros Ht Hk. take_row Ht row. take Ht u. apply control_ok in Ha as (-> & _).
  take Ht u1. pose proof Ha as Hb. apply revalidate_backed in Hb. destruct row as [p token].
  eapply (revalidated env None) in Ha as (_ & _ & p' & Hr' & Hsame); [| done..].
  take_row Ht row. rewrite Hr' in Hrow0. injection Hrow0 as <-. take Ht version. clear Ha.
  take Ht q. apply store_ok in Ha as (-> & _). finish Ht.
  destruct Hsame as (v & ->). by eapply backed_same.
Qed.

(** The checkpoints answer with the row they recorded. *)
Lemma recorded_effect env input key request row checkpoint s p events replayed s' :
  match checkpoint with
  | CheckpointBranchPushed sha => record_branch_pushed env input key request row sha
  | CheckpointPullRequestCreated report => record_pull_request_created input key request row report
  | CheckpointPublished status field option_id =>
      record_published env input key request row status field option_id
  | CheckpointFailed detail => record_failed env input key request row detail
  end s = Ok ((p, events, replayed), s') → pb_effect p = pb_effect row.1.
Proof.
  destruct checkpoint; unfold record_branch_pushed, record_pull_request_created, record_published, record_failed;
    intros Ht;
    repeat match type of Ht with
    | (mbind _ _) _ = Ok _ =>
        let a := fresh "a" in let s1 := fresh "s" in let Ha := fresh "Ha" in
        apply txn_bind_ok in Ht as (a & s1 & Ha & Ht);
        first [apply store_ok in Ha as (-> & _) | clear Ha]
    | (if ?b then _ else _) _ = Ok _ => destruct b
    end; apply mret_ok in Ht as [Ht _]; simplify_eq; done.
Qed.

Lemma normal_effects c name c' request : normalize_checkpoint c = Ok (name, c', request) →
  match c' with CheckpointFailed _ => false | _ => true end
    = match c with CheckpointFailed _ => false | _ => true end.
Proof. destruct c; simpl; intros Hn; by res_inv. Qed.

Lemma checkpoint_new_backed env input key publisher c request s out s' : keyed s →
  match c with CheckpointFailed _ => false | _ => true end = true →
  checkpoint_new env input key publisher c request s = Ok (out, s') →
  backed (pd_exec s) (out_publication out) true.
Proof.
  unfold checkpoint_new. intros Hk Hc Ht. take_row Ht row. take Ht u. apply control_ok in Ha as (-> & _).
  take Ht row'. take Ht recorded. destruct recorded as [[p events] replayed]. apply recorded_effect in Ha0.
  finish Ht. destruct row as [q token].
  assert (backed (pd_exec s) q true ∧ pb_effect row'.1 = pb_effect q) as [Hb He].
  { unfold authorised_row in Ha. destruct c; try done; take Ha u'; pose proof Ha1 as Hb;
      apply revalidate_backed in Hb; eapply (revalidated env None) in Ha1 as (_ & _ & p' & Hr' & v & Hsame);
      try done; apply found_row in Ha as (-> & Hrow' & _); rewrite Hr' in Hrow'; injection Hrow' as <-;
      rewrite Hsame; done. }
  eapply backed_same; [| exact Hb]. congruence.
Qed.

(** C15: no effect without verified work: whatever the request, when it starts, takes
    over, renews or advances a publication, the item still carries it at that
    moment: it is verified or publishing with a verified mission, its policy
    authorises publication and disables auto-merge, the target is its source
    repository, and the deliverable is ready for review, its run completed and
    passed with the recorded hashes and not quarantined, with passing evidence;
    a request of the publisher moreover finds the published commit and mission. *)
Theorem effects_need_verified_work env request db out db' : keyed db → factory_items_keyed (pd_exec db) →
  run_txn (handle_publication env request) db = (Ok out, db') →
  makes_effects request = true → out_replayed out = false →
  let e := pb_effect (out_publication out) in
  ∃ item row mission commit,
    verified_work (pd_exec db) (pe_corp_id e) (pe_factory_work_item_id e) (pe_source_deliverable_id e)
      (pe_target_repository e) commit item row mission ∧
    (is_some (presented_token request) = true → commit = pe_commit_sha e ∧ mission = pe_mission_id e).
Proof.
  unfold run_txn. intros Hk Hi Ht He Hr.
  destruct (handle_publication env request db) as [[out' s']|] eqn:E; simplify_eq.
  change (backed (pd_exec db) (out_publication out) (is_some (presented_token request))).
  destruct request as [input | input | input]; simpl in *.
  - unfold start_pull_request_publication in E. take E n. apply lift_ok in Ha as [_ ->].
    quietly E. quietly E. quietly E. quietly E. destruct a2 as [op|].
    { unfold start_replay in E. finish E. done. }
    take E existing. destruct existing as [row|].
    + apply collision_ok in Ha as (-> & Hc & _). rewrite <- (qu_exec _ _ Hq). by eapply start_existing_backed.
    + apply (keeps_collision quiet) in Ha as Hq'. rewrite <- (qu_exec _ _ Hq), <- (qu_exec _ _ Hq').
      eapply backed_weaken, start_new_backed; [by rewrite (qu_exec _ _ Hq'), (qu_exec _ _ Hq) | exact E].
  - unfold renew_pull_request_publication in E. quietly E. quietly E. destruct a0 as [[key publisher] hash].
    quietly E. quietly E. quietly E. quietly E. rewrite <- (qu_exec _ _ Hq). case_match.
    + unfold renew_replay in E. finish E. done.
    + eapply renew_new_backed; [exact E | by eapply quiet_keyed].
  - unfold record_pull_request_publication_checkpoint in E. quietly E. quietly E.
    destruct a0 as [[key publisher] hash]. take E n. apply lift_ok in Ha as [Hn ->].
    destruct n as [[name c] creq]. quietly E. quietly E. quietly E. rewrite <- (qu_exec _ _ Hq). destruct a2.
    + unfold checkpoint_replay in E. finish E. done.
    + eapply checkpoint_new_backed; [by eapply quiet_keyed | | exact E].
      rewrite (normal_effects _ _ _ _ Hn). exact He.
Qed.
End effects.

(** ** Requests are idempotent *)
Section idempotent.
Context `{Serde} `{ExecSerde} `{PublicationAuthorities}.

Definition recorded (key : uuid * string) (db : publication_db) : Prop :=
  is_Some (pd_operations db !! key).
Lemma recorded_stays key s s' : entries_stay s s' → recorded key s → recorded key s'.
Proof. intros Hs [op Hop]. exists op. by eapply es_operations. Qed.

(** A transaction after which the key is recorded. *)
Definition records (key : uuid * string) {A} (t : txn publication_db A) : Prop :=
  ∀ s a s', t s = Ok (a, s') → recorded key s'.

Lemma records_first {A B} key (m : txn publication_db A) (f : A → txn publication_db B) :
  records key m → (∀ a, keeps entries_stay (f a)) → records key (m ≫= f).
Proof. intros Hm Hf s b s' (a & s1 & Hm1 & Hf1)%txn_bind_ok.
  eapply recorded_stays; [by eapply Hf | by eapply Hm]. Qed.
Lemma records_later {A B} key (m : txn publication_db A) (f : A → txn publication_db B) :
  (∀ a, records key (f a)) → records key (m ≫= f).
Proof. intros Hf s b s' (a & s1 & Hm1 & Hf1)%txn_bind_ok. by eapply Hf. Qed.
Lemma records_operation corp key op : records (corp, key) (record_publication_operation_tx corp key op).
Proof.
  intros s a s' Ht. unfold record_publication_operation_tx in Ht. txn_inv. unfold recorded. simpl.
  rewrite lookup_insert_eq. eauto.
Qed.
Lemma records_checkpoint input key operation request p :
  records (cp_corp_id input, key) (record_checkpoint input key operation request p).
Proof. apply records_operation. Qed.
#[local] Hint Resolve records_operation records_checkpoint : rows.
Ltac recording :=
  repeat first
    [ solve [eauto with rows nocore]
    | apply records_first; [solve [eauto with rows nocore] | intros ?; keep]
    | apply records_later; intros ?
    | match goal with |- records _ (if ?b then _ else _) => destruct b end ].

Lemma records_published input p :
  records (sp_corp_id input, sp_idempotency_key input) (start_published input p).
Proof. unfold start_published. recording. Qed.
Lemma records_takeover env input p :
  records (sp_corp_id input, sp_idempotency_key input) (start_takeover env input p).
Proof. unfold start_takeover. recording. Qed.
Lemma records_new env input : records (sp_corp_id input, sp_idempotency_key input) (start_new env input).
Proof. unfold start_new. recording. Qed.
Lemma records_renew env input key publisher request :
  records (rp_corp_id input, key) (renew_new env input key publisher request).
Proof. unfold renew_new. recording. Qed.
Lemma records_each env input key publisher c request :
  records (cp_corp_id input, key) (checkpoint_new env input key publisher c request).
Proof.
  unfold checkpoint_new. apply records_later. intros ?. apply records_later. intros ?.
  apply records_later. intros ?. apply records_later. intros row. apply records_first.
  - destruct c; unfold record_branch_pushed, record_pull_request_created, record_published, record_failed;
      recording.
  - intros [[p events] replayed]. keep.
Qed.

(** The key under which a request is recorded. *)
Definition operation_key (request : publication_request) : option (uuid * string) :=
  match request with
  | StartPublication input =>
      match normalize_start_input input with
      | Ok input => Some (sp_corp_id input, sp_idempotency_key input)
      | Err _ => None
      end
  | RenewPublication input =>
      match normalize_factory_identifier (rp_idempotency_key input) "publication idempotency key" 500 with
      | Ok key => Some (rp_corp_id input, key)
      | Err _ => None
      end
  | RecordCheckpoint input =>
      match normalize_factory_identifier (cp_idempotency_key input) "publication idempotency key" 500 with
      | Ok key => Some (cp_corp_id input, key)
      | Err _ => None
      end
  end.

Lemma identity_key key publisher hash i : publisher_identity key publisher hash = Ok i →
  normalize_factory_identifier key "publication idempotency key" 500 = Ok i.1.1.
Proof. unfold publisher_identity. intros Hi. by res_inv. Qed.

(** What a request does once its key is known, and otherwise. *)
Lemma handled_cases env request s out s' : handle_publication env request s = Ok (out, s') →
  ∃ key s1, operation_key request = Some key ∧ quiet s s1 ∧
    match pd_operations s1 !! key with
    | Some _ => quiet s1 s' ∧ out_replayed out = true ∧ out_events out = [] ∧ recorded key s'
    | None => out_busy out = false → recorded key s'
    end.
Proof.
  assert (∀ corp key s o s1, publication_operation_tx corp key s = Ok (o, s1) →
    s1 = s ∧ pd_operations s !! (corp, key) = o) as Hop.
  { intros ????? [-> ->]%gets_ok. done. }
  assert (∀ A (t : txn publication_db A) s1 key op a s2, keeps quiet t → t s1 = Ok (a, s2) →
    pd_operations s1 !! key = Some op → quiet s1 s2 ∧ recorded key s2) as Hrep.
  { intros A t s1 key op a s2 Hk Ht Hs. apply Hk in Ht as Hq. split; [done |].
    unfold recorded. rewrite (qu_operations _ _ Hq). eauto. }
  destruct request as [input | input | input]; simpl; intros E.
  - unfold start_pull_request_publication in E. take E n. apply lift_ok in Ha as [-> ->].
    quietly E. quietly E. quietly E. take E op. apply Hop in Ha as [-> Hop'].
    eexists _, _. split_and!; [done | exact Hq |]. rewrite Hop'. destruct op as [op|].
    + destruct (Hrep _ _ _ _ _ _ _ (quiet_start_replay _ _ _) E Hop') as [Hq' Hr].
      unfold start_replay in E. finish E. done.
    + intros Hb. take E existing. destruct existing as [row|]; [| by eapply records_new].
      apply collision_ok in Ha as (-> & _ & _). unfold start_existing in E.
      take E u. take E u1. destruct (is_published row.1); [by eapply records_published |].
      take E pre. destruct (_ && _); [| by eapply records_takeover]. finish E. done.
  - unfold renew_pull_request_publication in E. quietly E. take E i. apply lift_ok in Ha as [Hi ->].
    apply identity_key in Hi. destruct i as [[key publisher] hash]. simpl in Hi. rewrite Hi.
    quietly E. quietly E. quietly E. take E op. apply Hop in Ha as [-> Hop'].
    eexists _, _. split_and!; [done | exact Hq |]. rewrite Hop'. destruct op as [op|].
    + destruct (Hrep _ _ _ _ _ _ _ (quiet_renew_replay _ _ _ _) E Hop') as [Hq' Hr].
      unfold renew_replay in E. finish E. done.
    + intros _. by eapply records_renew.
  - unfold record_pull_request_publication_checkpoint in E. quietly E. take E i. apply lift_ok in Ha as [Hi ->].
    apply identity_key in Hi. destruct i as [[key publisher] hash]. simpl in Hi. rewrite Hi.
    take E n. apply lift_ok in Ha as [_ ->]. destruct n as [[name c] creq].
    quietly E. quietly E. take E op. apply Hop in Ha as [-> Hop'].
    eexists _, _. split_and!; [done | exact Hq |]. rewrite Hop'. destruct op as [op|].
    + destruct (Hrep _ _ _ _ _ _ _ (quiet_checkpoint_replay _ _ _ _ _) E Hop') as [Hq' Hr].
      unfold checkpoint_replay in E. finish E. done.
    + intros _. by eapply records_each.
Qed.

(** Requests are idempotent: once a request has been answered (other than that
    another publisher is busy), repeating it at any later time, whatever happened
    in between, either fails or is answered as a replay: no event, no operation,
    no attempt, nothing in the tables of the other components, and no row changes,
    up to the upgrade of an older provenance. *)
Theorem publication_requests_are_idempotent env env' request db db1 db2 out out' db3 :
  run_txn (handle_publication env request) db = (Ok out, db1) → out_busy out = false →
  rtc publication_step db1 db2 →
  run_txn (handle_publication env' request) db2 = (Ok out', db3) →
  out_replayed out' = true ∧ out_events out' = [] ∧ quiet db2 db3.
Proof.
  unfold run_txn. intros E Hb Hs E'.
  destruct (handle_publication env request db) as [[o s]|] eqn:Hh; simplify_eq.
  destruct (handle_publication env' request db2) as [[o s]|] eqn:Hh'; simplify_eq.
  apply handled_cases in Hh as (key & s1 & Hkey & _ & Hc).
  assert (recorded key db1) as Hr.
  { destruct (pd_operations s1 !! key); [by destruct Hc as (_ & _ & _ & ?) | by apply Hc]. }
  eapply recorded_stays in Hr as [op Hop]; [| by apply stay_steps].
  apply handled_cases in Hh' as (key' & s2 & Hkey' & Hq & Hc').
  rewrite Hkey in Hkey'. injection Hkey' as <-. rewrite (qu_operations _ _ Hq), Hop in Hc'.
  destruct Hc' as (Hq' & Hrep & Hev & _). split_and!; [done.. | by etrans].
Qed.
End idempotent.

(** ** The last checkpoint *)

(** The row tables and the items and deliverables stay; the log may grow. *)
Record side_stays (s s' : publication_db) : Prop := {
  ss_side : x_side (pd_exec s') = x_side (pd_exec s);
  ss_rows : pd_publications s' = pd_publications s;
  ss_attempts : pd_attempts s' = pd_attempts s;
}.
#[global] Instance side_stays_preorder : PreOrder side_stays.
Proof. split; [by split |]. intros x y z [] []. split; congruence. Qed.

Section completion.
Context `{Serde} `{ExecSerde} `{PublicationAuthorities}.

Lemma side_event event : keeps side_stays (append_event_tx event).
Proof.
  intros s a s'. unfold append_event_tx. case_match; intros [= _ <-]; [reflexivity |].
  by split.
Qed.
#[local] Hint Resolve side_event : rows.
Lemma side_operation corp key op : keeps side_stays (record_publication_operation_tx corp key op).
Proof.
  unfold record_publication_operation_tx. keep. apply keeps_modify_tx. by split.
Qed.
Lemma side_publication_event p actor type_ payload :
  keeps side_stays (publication_event_tx p actor type_ payload).
Proof. unfold publication_event_tx. keep. Qed.
Lemma side_item_event corp item mission room actor version previous state extra :
  keeps side_stays (item_state_event_tx corp item mission room actor version previous state extra).
Proof. apply side_event. Qed.
Lemma side_record input key operation request p :
  keeps side_stays (record_checkpoint input key operation request p).
Proof. apply side_operation. Qed.

Lemma advance_ok corp item_id previous state s version s' :
  advance_item_tx corp item_id previous state s = Ok (version, s') → ∃ item token,
  si_items (x_side (pd_exec s)) !! item_id = Some (item, token) ∧ fw_corp_id item = corp ∧
  fw_state item = previous ∧ next_version (fw_version item) = Ok version ∧
  s' = on_exec (on_items <[item_id := (move_item state version None item, token)]>) s.
Proof.
  unfold advance_item_tx. intros Ht. take Ht row. apply read_exec_ok in Ha as [Hr%with_context_ok ->].
  apply bind_Some in Hr as ([item token] & Hi & Hr). destruct (_ && _) eqn:Hb; simplify_eq.
  apply andb_true_iff in Hb as [Hc%N.eqb_eq Hs%bool_decide_eq_true].
  take Ht v. apply lift_ok in Ha as [Hv ->]. take Ht u. apply modify_ok in Ha as ->.
  apply mret_ok in Ht as [-> ->]. by exists item, token.
Qed.

Lemma record_published_completes env input key request p token status field option_id q events s s' :
  record_published env input key request (p, token) status field option_id s = Ok ((q, events, false), s') →
  ∃ item item_token version,
    let e := pb_effect p in
    si_items (x_side (pd_exec s)) !! pe_factory_work_item_id e = Some (item, item_token) ∧
    fw_state item = ItemState.Publishing ∧ next_version (fw_version item) = Ok version ∧
    si_items (x_side (pd_exec s')) =
      <[pe_factory_work_item_id e := (move_item ItemState.Published version None item, item_token)]>
        (si_items (x_side (pd_exec s))) ∧
    si_deliverables (x_side (pd_exec s')) =
      (λ d, if (sd_id d =? pe_source_deliverable_id e)%N && (sd_corp d =? cp_corp_id input)%N
            then set_sd_integration_state "published" d else d) <$> si_deliverables (x_side (pd_exec s)) ∧
    pd_publications s' !! pb_id p = Some (q, None) ∧ is_published q = true ∧
    pb_project_status_after q = Some status ∧ pb_effect q = e.
Proof.
  unfold record_published. intros Ht. cbn [fst] in Ht.
  take Ht expected. apply lift_ok in Ha as [_ ->]. take Ht u1. apply lift_ok in Ha as [_ ->].
  take Ht u2. apply lift_ok in Ha as [_ ->]. take Ht u3. apply lift_ok in Ha as [_ ->].
  destruct (is_published p); [finish Ht; discriminate Ht |].
  take Ht u. apply lift_ok in Ha as [_ ->]. take Ht v. apply lift_ok in Ha as [_ ->].
  take Ht version. apply lift_ok in Ha as [_ ->]. take Ht q'. apply store_ok in Ha as (-> & -> & _).
  take Ht u'. apply modify_ok in Ha as ->. take Ht fv. apply advance_ok in Ha as (item & it & Hi & _ & Hst & Hv & ->).
  take Ht u4. apply modify_ok in Ha as ->.
  match type of Ht with ?t ?s1 = _ => assert (keeps side_stays t) as Hk end.
  { apply keeps_bind_tx; [apply _ | apply side_record | intros ?]. apply keeps_bind_tx; [apply _ | keep | intros ?].
    apply keeps_bind_tx; [apply _ | apply side_item_event | intros ?].
    apply keeps_bind_tx; [apply _ | apply side_publication_event | intros ?]. keep. }
  apply Hk in Ht as Hside. finish Ht. simplify_eq.
  exists item, it, fv. simpl in *. destruct Hside as [-> -> _]. simpl.
  split_and!; try done. by rewrite lookup_insert_eq.
Qed.

(** The last checkpoint completes everything at once: when a checkpoint that the
    project card moved is recorded, not replayed, the Factory item was publishing
    and is now published at its next version, the source deliverable is published,
    the row is published under the reported status, and its token is given up; on
    an item in any other state the checkpoint cannot be recorded. *)
Theorem publication_completes_its_item env input status field option_id db out db' : keyed db →
  cp_checkpoint input = CheckpointPublished status field option_id →
  run_txn (record_pull_request_publication_checkpoint env input) db = (Ok out, db') →
  out_replayed out = false →
  let e := pb_effect (out_publication out) in
  ∃ item token version,
    si_items (x_side (pd_exec db)) !! pe_factory_work_item_id e = Some (item, token) ∧
    fw_state item = ItemState.Publishing ∧ next_version (fw_version item) = Ok version ∧
    si_items (x_side (pd_exec db')) =
      <[pe_factory_work_item_id e := (move_item ItemState.Published version None item, token)]>
        (si_items (x_side (pd_exec db))) ∧
    si_deliverables (x_side (pd_exec db')) =
      (λ d, if (sd_id d =? pe_source_deliverable_id e)%N && (sd_corp d =? cp_corp_id input)%N
            then set_sd_integration_state "published" d else d) <$> si_deliverables (x_side (pd_exec db)) ∧
    pd_publications db' !! cp_publication_id input = Some (out_publication out, None) ∧
    is_published (out_publication out) = true ∧ out_publisher_token out = None.
Proof.
  unfold run_txn. intros Hk Hc E Hr.
  destruct (record_pull_request_publication_checkpoint env input db) as [[o s]|] eqn:Hh; simplify_eq.
  rename Hh into E. unfold record_pull_request_publication_checkpoint in E. quietly E. quietly E.
  destruct a0 as [[key publisher] hash]. take E n. apply lift_ok in Ha as [Hn ->].
  rewrite Hc in Hn. simpl in Hn. destruct n as [[name c] creq]. res_inv.
  quietly E. quietly E. quietly E.
  match goal with o : option publication_operation |- _ => destruct o end.
  { unfold checkpoint_replay in E. finish E. done. }
  apply (quiet_keyed _ _ Hq) in Hk. rewrite <- (qu_exec _ _ Hq). clear Hq.
  unfold checkpoint_new in E. take_row E row. take E u. apply control_ok in Ha as (-> & _).
  take E row'. unfold authorised_row in Ha. take Ha u'. destruct row as [p token].
  apply (quiet_revalidate env p (cp_actor_id input)) in Ha0 as Hq.
  eapply (revalidated env None) in Ha0 as (_ & _ & p' & Hr' & v' & Hsame); [| done..].
  apply found_row in Ha as (-> & Hrow' & _). rewrite Hr' in Hrow'. injection Hrow' as <-.
  take E res. destruct res as [[q events] replayed]. apply mret_ok in E as [-> ->]. simpl in Hr. subst replayed.
  rewrite <- (qu_exec _ _ Hq).
  apply record_published_completes in Ha as (item & it & version & Hi & Hst & Hnv & Hi' & Hd & Hp & Hpub & _ & He).
  exists item, it, version. cbn [out_publication out_publisher_token]. rewrite He, Hpub.
  split_and!; try done. rewrite <- (Hk _ _ Hrow). simpl. rewrite <- Hp. f_equal. by rewrite Hsame.
Qed.

(** The upgrade of a publication's provenance converges: what a revalidation
    computes from a row and its authority, revalidated again under the same
    authority, is unchanged, so a row is rewritten at most once per change of its
    authority. *)
Theorem provenance_upgrade_converges `{!SerdeLaws _} p pre v :
  kr_provenance <$> pp_checkpoint pre ≠ Some JNull →
  upgraded_provenance p pre = Ok v → upgraded_provenance (set_pb_provenance v p) pre = Ok v.
Proof.
  unfold upgraded_provenance. intros Hne Hu. cbn [pb_provenance set_pb_provenance].
  apply bind_ok in Hu as (state & Hst & Hu). apply bind_ok in Hu as ([] & Hb & Hu).
  apply bind_ok in Hu as (source & Hsrc & Hu).
  assert (publication_source_provenance_state source (src_revision (fw_source (pp_work_item pre)))
    (pp_effective_source_revision pre) (pp_source_recovery_id pre) = Ok ProvenanceCurrent ∧
    ∀ key, key ≠ "schema_version" → key ≠ "source_issue" → get key source = get key (pb_provenance p)) as [Hcur Hget].
  { case_bool_decide as Hl.
    - apply upgrade_ok in Hsrc as (_ & Hget & Hcur). done.
    - injection Hsrc as <-. split; [| done]. rewrite Hst. f_equal.
      apply bail_if_ok, negb_false_iff in Hb. unfold provenance_bound in Hb.
      apply andb_true_iff in Hb as [_ Hi]. apply negb_true_iff, bool_decide_eq_false in Hi. by destruct state. }
  apply revalidated_ok in Hu as (Hget' & Hs & Hagain); [| done].
  assert (publication_source_provenance_state v (src_revision (fw_source (pp_work_item pre)))
    (pp_effective_source_revision pre) (pp_source_recovery_id pre) = Ok ProvenanceCurrent) as ->.
  { eapply current_ext; [exact Hcur | exact Hs | by apply Hget']. }
  cbn [mbind result_bind].
  assert (provenance_bound (set_pb_provenance v p) pre ProvenanceCurrent = true) as ->.
  { apply bail_if_ok, negb_false_iff in Hb. revert Hb. unfold provenance_bound.
    cbn [pb_provenance pb_effect set_pb_provenance pointer]. rewrite !Hget', !Hget by done. simpl.
    rewrite !andb_true_iff. tauto. }
  cbn [negb bail_if mbind result_bind]. rewrite bool_decide_eq_false_2 by done. exact Hagain.
Qed.
End completion.

(** ** Witnesses *)
Section witnesses.
#[local] Existing Instance sample_serde.
#[local] Existing Instance sample_exec_serde.
#[local] Existing Instance no_checkpoints.

(** The request of a step of the sample, on the database before it. *)
Definition sample_push : publication_request :=
  RecordCheckpoint (sample_checkpoint 1 "key-2" 400 (CheckpointBranchPushed head_sha)).
Definition sample_publish : checkpoint_publication_input :=
  sample_checkpoint 3 "key-4" 400 (CheckpointPublished "In review" "F" "O").
Definition sample_outcome (env : publication_env) (request : publication_request) (db : publication_db) :
    option publication_outcome :=
  match (run_txn (handle_publication env request) db).1 with Ok out => Some out | Err _ => None end.
Lemma outcome_run env request db out : sample_outcome env request db = Some out →
  run_txn (handle_publication env request) db = (Ok out, (run_txn (handle_publication env request) db).2).
Proof. unfold sample_outcome. destruct (run_txn _ db) as [[o|] db']; simpl; congruence. Qed.
Lemma requests_keyed l : keyed (requests l).
Proof. by apply pi_keyed, publication_reachable_inv, requests_reachable. Qed.

Lemma effects_need_verified_work_witness : ∃ out item row mission,
  sample_outcome (publication_at 2 1) sample_push (requests started_requests) = Some out ∧
  verified_work (pd_exec (requests started_requests)) 1 100 90 "acme/app" head_sha item row mission.
Proof.
  destruct (sample_outcome (publication_at 2 1) sample_push (requests started_requests)) as [out|] eqn:Hout.
  2: { revert Hout. vm_compute. discriminate. }
  destruct (effects_need_verified_work (publication_at 2 1) sample_push (requests started_requests) out
    (run_txn (handle_publication (publication_at 2 1) sample_push) (requests started_requests)).2)
    as (item & row & mission & commit & Hw & Hc).
  - apply requests_keyed.
  - intros id row. change (si_items (x_side (pd_exec (requests started_requests))))
      with ({[100%N := (move_item ItemState.Publishing 6 None (verified_item ItemState.Verified), 101%N)]}
              : gmap uuid (factory_work_item * uuid)).
    intros [<- <-]%lookup_singleton_Some. reflexivity.
  - by apply outcome_run.
  - reflexivity.
  - revert Hout. vm_compute. intros [= <-]. reflexivity.
  - exists out, item, row, mission. split; [reflexivity |].
    destruct (Hc eq_refl) as [-> _]. revert Hw Hout. generalize item row mission. clear.
    intros item row mission Hw Hout.
    assert (pb_effect (out_publication out) = pb_effect (sample_row started_requests).1) as He.
    { revert Hout. vm_compute. intros [= <-]. reflexivity. }
    rewrite He in Hw. exact Hw.
Defined.

Lemma publication_requests_are_idempotent_witness : ∃ out out',
  sample_outcome (publication_at 2 1) sample_push (requests started_requests) = Some out ∧
  sample_outcome (publication_at 9 9) sample_push (requests published_requests) = Some out' ∧
  out_replayed out' = true.
Proof.
  destruct (sample_outcome (publication_at 2 1) sample_push (requests started_requests)) as [out|] eqn:Hout.
  2: { revert Hout. vm_compute. discriminate. }
  destruct (sample_outcome (publication_at 9 9) sample_push (requests published_requests)) as [out'|] eqn:Hout'.
  2: { revert Hout'. vm_compute. discriminate. }
  exists out, out'. split_and!; [done.. |].
  apply (publication_requests_are_idempotent (publication_at 2 1) (publication_at 9 9) sample_push
    (requests started_requests) (requests pushed_requests) (requests published_requests) out out'
    (run_txn (handle_publication (publication_at 9 9) sample_push) (requests published_requests)).2).
  - by apply outcome_run.
  - revert Hout. vm_compute. intros [= <-]. reflexivity.
  - eapply rtc_l; [apply publication_step_handled |]. apply rtc_once. apply publication_step_handled.
  - by apply outcome_run.
Defined.

Definition revoked_sample : publication_db :=
  (run_txn (revoke_publication_publisher_credential (publication_at 5 5) 1 10 200 "lost laptop")
     (requests started_requests)).2.
Lemma revoked_publishers_are_locked_out_witness : ∃ e,
  run_txn (handle_publication (publication_at 6 6) sample_push)
    (run_txn (handle_publication (publication_at 6 6) sample_push) revoked_sample).2
    = (Err e, (run_txn (handle_publication (publication_at 6 6) sample_push) revoked_sample).2).
Proof.
  apply (revoked_publishers_are_locked_out revoked_sample
    (run_txn (handle_publication (publication_at 6 6) sample_push) revoked_sample).2 200
    (PublisherCredential 1 "publisher-1" publisher_hash (seconds 100000) (Some (seconds 1)) (Some (seconds 5)))
    (publication_at 6 6) sample_push).
  - assert (pd_credentials revoked_sample = {[200%N := PublisherCredential 1 "publisher-1" publisher_hash
      (seconds 100000) (Some (seconds 1)) (Some (seconds 5))]}) as Hc by (vm_compute; reflexivity).
    intros id id' c c'. rewrite Hc. intros [<- _]%lookup_singleton_Some [<- _]%lookup_singleton_Some _. reflexivity.
  - vm_compute. reflexivity.
  - reflexivity.
  - apply rtc_once, publication_step_handled.
  - vm_compute. reflexivity.
Defined.

Lemma publication_completes_its_item_witness : ∃ item token,
  si_items (x_side (pd_exec (requests created_requests))) !! 100%N = Some (item, token) ∧
  fw_state item = ItemState.Publishing.
Proof.
  destruct (sample_outcome (publication_at 4 3) (RecordCheckpoint sample_publish) (requests created_requests))
    as [out|] eqn:Hout.
  2: { revert Hout. vm_compute. discriminate. }
  destruct (publication_completes_its_item (publication_at 4 3) sample_publish "In review" "F" "O"
    (requests created_requests) out (requests published_requests))
    as (item & token & version & Hi & Hs & _).
  - apply requests_keyed.
  - reflexivity.
  - apply (outcome_run _ (RecordCheckpoint sample_publish) _ _ Hout).
  - revert Hout. vm_compute. intros [= <-]. reflexivity.
  - exists item, token. split; [| exact Hs].
    assert (pe_factory_work_item_id (pb_effect (out_publication out)) = 100%N) as He.
    { revert Hout. vm_compute. intros [= <-]. reflexivity. }
    rewrite He in Hi. exact Hi.
Defined.

(** A publication of the first schema, whose provenance is upgraded. *)
Definition sample_prerequisites : prerequisites :=
  PublicationPrerequisites (verified_item ItemState.Publishing) "rev-1" None 40 20 80 50 60 head_sha "d-sha"
    "v-sha" base_sha "ecorp/7" "In progress" "In review" [50%N] [60%N] [70%N] None.
Definition legacy_publication : publication :=
  set_pb_provenance (json_object
    [("schema_version", JInt 1); ("source_issue", json_object [("revision", JStr "rev-1")]);
     ("verification_sha256", JStr "v-sha"); ("deliverable", json_object [("sha256", JStr "d-sha")])])
    (sample_row started_requests).1.
Lemma provenance_upgrade_converges_witness : ∃ v,
  upgraded_provenance legacy_publication sample_prerequisites = Ok v ∧ v ≠ pb_provenance legacy_publication ∧
  upgraded_provenance (set_pb_provenance v legacy_publication) sample_prerequisites = Ok v.
Proof.
  destruct (upgraded_provenance legacy_publication sample_prerequisites) as [v|] eqn:Hv.
  2: { vm_compute in Hv. discriminate Hv. }
  exists v. split_and!; [reflexivity | | apply (provenance_upgrade_converges legacy_publication); done].
  vm_compute in Hv. injection Hv as <-. intros He. vm_compute in He. discriminate He.
Defined.
End witnesses.
