(* ===== verification/Polling.v ===== *)
(** * The GitHub request budget of the Factory (crates/crony-cli/src/factory/quota.rs)

    The trusted Factory shares one [BudgetState] between all of its requests to
    GitHub: before a request it asks [check], after one it reports [observe_json],
    [failure] or [success], and at start it [restore]s the persisted state.  The
    state is behind a mutex, so each operation here is one step.  Errors do not
    roll the state back; an operation returns the new state with its answer. *)
From S2P Require Import Prelude Text Json.
From Stdlib Require Import DecimalString DecimalZ.

(** ** Instants

    [DateTime<Utc>] of the chrono crate covers a bounded range of instants, and
    the checked operations answer [None] outside of it.  The bounds and the two
    parsers are parameters. *)
Class Chrono := {
  min_utc : timestamp;
  max_utc : timestamp;
  parse_from_rfc3339 : string → option timestamp;
  parse_from_rfc2822 : string → option timestamp;
}.
Definition in_utc `{Chrono} (t : timestamp) : bool := in_range min_utc max_utc t.

(** The epoch lies inside, and the parsers return instants of the range. *)
Class ChronoLaws (C : Chrono) := {
  epoch_in_utc : in_utc 0 = true;
  rfc3339_in_utc s t : parse_from_rfc3339 s = Some t → in_utc t = true;
  rfc2822_in_utc s t : parse_from_rfc2822 s = Some t → in_utc t = true;
}.

(** [TimeDelta::try_seconds]: a delta holds at most [i64::MAX] milliseconds. *)
Definition try_seconds (s : Z) : option Z :=
  if in_range (- (i64_max / 1000)) (i64_max / 1000) s then Some (seconds s) else None.
Definition checked_add_signed `{Chrono} (t delta : Z) : option timestamp :=
  if in_utc (t + delta) then Some (t + delta)%Z else None.

(** ** Data *)
Inductive factory_retry_reason :=
| GraphqlQuota | PrimaryRateLimit | SecondaryRateLimit | GithubUnavailable.
#[global] Instance factory_retry_reason_eq : EqDecision factory_retry_reason.
Proof. solve_decision. Defined.

Record github_graphql_quota := GithubGraphqlQuota {
  gq_limit : Z; gq_remaining : Z; gq_cost : Z; gq_reset_at : timestamp; gq_observed_at : timestamp }.
Record polling_state := FactoryPollingState {
  next_retry_at : option timestamp;
  retry_reason : option factory_retry_reason;
  consecutive_failures : Z;
  graphql : option github_graphql_quota;
}.
Definition polling_default : polling_state := FactoryPollingState None None 0 None.
#[global] Instance github_graphql_quota_eq : EqDecision github_graphql_quota.
Proof. solve_decision. Defined.
#[global] Instance polling_state_eq : EqDecision polling_state.
Proof. solve_decision. Defined.

Record github_wait := GitHubWait { gw_reason : factory_retry_reason; gw_next_retry_at : timestamp }.
(** What [anyhow::Error] holds: [downcast_ref] finds a wait or nothing. *)
Inductive github_error := Throttled (wait : github_wait) | OtherError (message : string).

Definition with_wait (retry : option timestamp) (reason : option factory_retry_reason) (s : polling_state) :
    polling_state := FactoryPollingState retry reason (consecutive_failures s) (graphql s).
Definition with_failures (n : Z) (s : polling_state) : polling_state :=
  FactoryPollingState (next_retry_at s) (retry_reason s) n (graphql s).
Definition with_graphql (q : option github_graphql_quota) (s : polling_state) : polling_state :=
  FactoryPollingState (next_retry_at s) (retry_reason s) (consecutive_failures s) q.

Definition reset_margin_seconds : Z := 5.
Definition base_backoff_seconds : Z := 60.
Definition max_backoff_seconds : Z := 15 * 60.
Definition max_failures : Z := 16.
Definition max_quota_points : Z := 1000000.
Definition max_quota_window_seconds : Z := 24 * 60 * 60.

Section polling.
Context `{Chrono}.
Open Scope Z_scope.

(** ** Deadlines *)
Definition backoff (failures : Z) : Z :=
  Z.min (base_backoff_seconds * Z.shiftl 1 (Z.min (Z.max (failures - 1) 0) 4)) max_backoff_seconds.
Definition after (now : timestamp) (secs : Z) : timestamp :=
  default max_utc (delta ← try_seconds secs; checked_add_signed now delta).
Definition outstanding (deadline now : timestamp) : bool := (deadline =? max_utc) || (now <? deadline).

Definition extend_wait (reason : factory_retry_reason) (deadline : timestamp) (s : polling_state) : polling_state :=
  if match next_retry_at s with None => true | Some current => current <? deadline end
     || (bool_decide (next_retry_at s = Some deadline)
         && bool_decide (retry_reason s = Some GraphqlQuota) && bool_decide (reason ≠ GraphqlQuota))
  then with_wait (Some deadline) (Some reason) s else s.

Definition repair_wait (now : timestamp) (s : polling_state) : polling_state :=
  let s := with_failures (Z.max 1 (Z.min max_failures (consecutive_failures s))) s in
  extend_wait GithubUnavailable (after now (backoff (consecutive_failures s))) s.

(** ** Quota observations *)
Definition valid_counters (q : github_graphql_quota) : bool :=
  (0 <? gq_limit q) && (gq_limit q <=? max_quota_points) && (gq_remaining q <=? gq_limit q)
  && (gq_cost q <=? gq_limit q).
Definition valid_quota (q : github_graphql_quota) : bool :=
  let window := gq_reset_at q - gq_observed_at q in
  valid_counters q && (seconds (- reset_margin_seconds) <=? window) && (window <=? seconds max_quota_window_seconds).
Definition merge_quota (q : github_graphql_quota) (s : polling_state) : polling_state :=
  if match graphql s with
     | Some current =>
         (gq_observed_at q <? gq_observed_at current) || (gq_reset_at q <? gq_reset_at current)
         || ((gq_reset_at q =? gq_reset_at current) && (gq_remaining current <? gq_remaining q))
     | None => false
     end
  then s else with_graphql (Some q) s.

Definition reserve_of (q : github_graphql_quota) : Z := Z.max 1 (Z.min 25 (gq_limit q / 100)).
Definition required_of (q : github_graphql_quota) : Z := Z.min u64_max (Z.max (gq_cost q) 1 + reserve_of q).
Definition quota_deadline (q : github_graphql_quota) : timestamp := after (gq_reset_at q) reset_margin_seconds.
Definition retain_quota_wait (now : timestamp) (s : polling_state) : polling_state :=
  match graphql s with
  | Some q => if (gq_remaining q <? required_of q) && outstanding (quota_deadline q) now
              then extend_wait GraphqlQuota (quota_deadline q) s else s
  | None => s
  end.

(** ** The operations of [BudgetState] *)
Definition restore (persisted : polling_state) (now : timestamp) (s : polling_state) : polling_state :=
  let s := with_failures (Z.min max_failures (Z.max (consecutive_failures s) (consecutive_failures persisted))) s in
  let s := match next_retry_at persisted with
           | Some deadline => extend_wait (default GithubUnavailable (retry_reason persisted)) deadline s
           | None => if bool_decide (is_Some (retry_reason persisted)) || (0 <? consecutive_failures persisted)
                     then repair_wait now s else s
           end in
  let s := match graphql persisted with
           | Some q => if valid_quota q && (gq_observed_at q <=? now) then merge_quota q s else repair_wait now s
           | None => s
           end in
  retain_quota_wait now s.

(** The answer is the wait the caller has to keep, if any. *)
Definition check (now : timestamp) (s : polling_state) : polling_state * option github_wait :=
  let s := retain_quota_wait now s in
  (s, match next_retry_at s with
      | Some deadline => if outstanding deadline now
                         then Some (GitHubWait (default GithubUnavailable (retry_reason s)) deadline) else None
      | None => None
      end).

Definition invalid_observation : string := "invalid GitHub GraphQL quota observation".
Definition observed_quota (value : json) (now : timestamp) : result github_graphql_quota :=
  let number key := with_context (v ← get key value; as_u64 v) invalid_observation in
  reset ← with_context (v ← get "resetAt" value; text ← as_str v;
                        if (str_len text <=? 64)%Z then Some text else None) invalid_observation;
  limit ← number "limit";
  remaining ← number "remaining";
  cost ← number "cost";
  reset_at ← with_context (parse_from_rfc3339 reset) invalid_observation;
  Ok (GithubGraphqlQuota limit remaining cost reset_at now).
Definition observe_json (response : json) (now : timestamp) (s : polling_state) : polling_state * result unit :=
  match pointer ["data"; "rateLimit"] response with
  | None => (s, Ok tt)
  | Some value =>
      match observed_quota value now with
      | Err e => (s, Err e)
      | Ok q =>
          if negb (valid_counters q) then (s, Err invalid_observation)
          else if negb (outstanding (after (gq_reset_at q) reset_margin_seconds) now) then (s, Ok tt)
          else if negb (valid_quota q) then (s, Err invalid_observation)
          else (retain_quota_wait now (merge_quota q s), Ok tt)
      end
  end.

Definition counted_failure (s : polling_state) : Z :=
  Z.min max_failures (Z.min (2 ^ 32 - 1) (consecutive_failures s + 1)).
Definition failure (error : github_error) (now : timestamp) (s : polling_state) : polling_state * bool :=
  match error with
  | OtherError _ => (s, false)
  | Throttled wait =>
      let deadline := gw_next_retry_at wait in
      let '(s, deadline) :=
        if bool_decide (gw_reason wait ≠ GraphqlQuota) then
          let s := with_failures (counted_failure s) s in
          (s, Z.max deadline (after now (backoff (consecutive_failures s))))
        else (s, deadline) in
      let deadline :=
        match graphql s with
        | Some q => if bool_decide (gw_reason wait = PrimaryRateLimit)
                    then Z.max deadline (after (gq_reset_at q) reset_margin_seconds) else deadline
        | None => deadline
        end in
      (retain_quota_wait now (extend_wait (gw_reason wait) deadline s), true)
  end.

Definition success (now : timestamp) (s : polling_state) : polling_state :=
  let s :=
    if negb match next_retry_at s with Some deadline => outstanding deadline now | None => false end
    then with_failures 0 (with_wait None None s)
    else if bool_decide (retry_reason s = Some GraphqlQuota) then with_failures 0 s else s in
  retain_quota_wait now s.
End polling.

(** ** Waits *)
Section laws.
Context `{Chrono, !ChronoLaws _}.
Open Scope Z_scope.

Definition join_wait (current : option timestamp) (deadline : timestamp) : timestamp :=
  match current with Some c => Z.max c deadline | None => deadline end.
(** The wait that a low balance asks for. *)
Definition low_balance (now : timestamp) (q : github_graphql_quota) : bool :=
  (gq_remaining q <? required_of q) && outstanding (quota_deadline q) now.

Lemma extend_wait_next r x s : next_retry_at (extend_wait r x s) = Some (join_wait (next_retry_at s) x).
Proof.
  unfold extend_wait, join_wait. destruct (next_retry_at s) as [c|] eqn:E; [| done].
  destruct (c <? x) eqn:Ec; simpl; [f_equal; lia |].
  case_bool_decide as Hx; simpl; [injection Hx as ->; destruct (_ && _); simpl; rewrite ?E; f_equal; lia |].
  rewrite E. f_equal. apply Z.ltb_ge in Ec. by rewrite Z.max_l.
Qed.
Lemma extend_wait_failures r x s : consecutive_failures (extend_wait r x s) = consecutive_failures s.
Proof. unfold extend_wait. by destruct (_ || _). Qed.
Lemma extend_wait_graphql r x s : graphql (extend_wait r x s) = graphql s.
Proof. unfold extend_wait. by destruct (_ || _). Qed.
Lemma retain_next now s : next_retry_at (retain_quota_wait now s) =
  match graphql s with
  | Some q => if low_balance now q then Some (join_wait (next_retry_at s) (quota_deadline q)) else next_retry_at s
  | None => next_retry_at s
  end.
Proof.
  unfold retain_quota_wait, low_balance. destruct (graphql s) as [q|]; [| done].
  destruct (_ && _); [apply extend_wait_next | done].
Qed.
Lemma retain_failures now s : consecutive_failures (retain_quota_wait now s) = consecutive_failures s.
Proof. unfold retain_quota_wait. repeat case_match; rewrite ?extend_wait_failures; done. Qed.
Lemma retain_graphql now s : graphql (retain_quota_wait now s) = graphql s.
Proof. unfold retain_quota_wait. repeat case_match; rewrite ?extend_wait_graphql; done. Qed.

(** *** Instants *)
Lemma after_in_utc now x : in_utc now = true → 0 ≤ x → in_utc (after now x) = true ∧ now ≤ after now x.
Proof.
  intros Hnow Hx. pose proof (epoch_in_utc (C := H)) as He. unfold after, checked_add_signed, try_seconds.
  assert (in_utc max_utc = true ∧ now ≤ max_utc) as [Hmax Hle].
  { unfold in_utc, in_range in *. lia. }
  destruct (in_range _ _ x) eqn:Ex; simpl; [| done].
  destruct (in_utc (now + seconds x)) eqn:E; simpl; [| done]. split; [done | unfold seconds; lia].
Qed.
(** A deadline is kept: it is the whole delay away, or the sentinel. *)
Lemma after_delays now x : in_utc now = true → 0 ≤ x →
  after now x = now + seconds x ∨ after now x = max_utc.
Proof.
  intros Hnow Hx. unfold after, checked_add_signed. destruct (try_seconds x) as [d|] eqn:E; [| by right].
  unfold try_seconds in E. destruct (in_range _ _ x); [| done]. injection E as <-. simpl.
  destruct (in_utc (now + seconds x)); simpl; [by left | by right].
Qed.
Lemma backoff_bounds n : 60 ≤ backoff n ≤ 900.
Proof.
  unfold backoff, base_backoff_seconds, max_backoff_seconds. rewrite Z.shiftl_1_l.
  pose proof (Z.pow_pos_nonneg 2 (Z.min (Z.max (n - 1) 0) 4)). lia.
Qed.
Lemma backoff_mono n m : n ≤ m → backoff n ≤ backoff m.
Proof.
  intros Hn. unfold backoff. rewrite !Z.shiftl_1_l.
  apply Z.min_le_compat_r, Z.mul_le_mono_nonneg_l; [unfold base_backoff_seconds; lia |].
  apply Z.pow_le_mono_r; lia.
Qed.

(** *** Well-formed states *)
Definition quota_in_utc (q : github_graphql_quota) : Prop :=
  in_utc (gq_reset_at q) = true ∧ in_utc (gq_observed_at q) = true.
Record polling_inv (s : polling_state) : Prop := {
  pi_reason : is_Some (next_retry_at s) ↔ is_Some (retry_reason s);
  pi_failures : 0 ≤ consecutive_failures s ≤ max_failures;
  pi_retry d : next_retry_at s = Some d → in_utc d = true;
  pi_quota q : graphql s = Some q → valid_quota q = true ∧ quota_in_utc q;
}.
(** What the types say of a persisted state: instants of the range, counters of their width. *)
Record polling_typed (s : polling_state) : Prop := {
  pt_failures : 0 ≤ consecutive_failures s < 2 ^ 32;
  pt_retry d : next_retry_at s = Some d → in_utc d = true;
  pt_quota q : graphql s = Some q → quota_in_utc q;
}.
Lemma inv_typed s : polling_inv s → polling_typed s.
Proof.
  intros [? Hf ? Hq]. split; [unfold max_failures in Hf; lia | done |]. intros q E. by apply Hq.
Qed.

Lemma join_in_utc o x : (∀ d, o = Some d → in_utc d = true) → in_utc x = true → in_utc (join_wait o x) = true.
Proof.
  intros Ho Hx. destruct o as [c|]; simpl; [| done]. specialize (Ho c eq_refl).
  unfold in_utc, in_range in *. lia.
Qed.
Lemma extend_wait_inv r x s : polling_inv s → in_utc x = true → polling_inv (extend_wait r x s).
Proof.
  intros [Hr Hf Hd Hq] Hx. split.
  - unfold extend_wait. destruct (_ || _); simpl; [split; eauto | done].
  - by rewrite extend_wait_failures.
  - intros d. rewrite extend_wait_next. intros [= <-]. by apply join_in_utc.
  - intros q. rewrite extend_wait_graphql. apply Hq.
Qed.
Lemma failures_inv n s : polling_inv s → 0 ≤ n ≤ max_failures → polling_inv (with_failures n s).
Proof. intros [? ? ? ?] ?. by split. Qed.
Lemma quota_deadline_in_utc q : quota_in_utc q → in_utc (quota_deadline q) = true.
Proof. intros [Hr _]. by apply after_in_utc. Qed.
Lemma retain_inv now s : polling_inv s → polling_inv (retain_quota_wait now s).
Proof.
  intros Hs. unfold retain_quota_wait. destruct (graphql s) as [q|] eqn:E; [| done].
  destruct (_ && _); [| done]. apply extend_wait_inv; [done |].
  apply quota_deadline_in_utc. by apply (pi_quota s Hs).
Qed.
Lemma merge_inv q s : polling_inv s → valid_quota q = true → quota_in_utc q → polling_inv (merge_quota q s).
Proof.
  intros Hs Hv Hq. unfold merge_quota. destruct (match graphql s with Some _ => _ | None => _ end); [done |].
  destruct Hs. split; simpl; try done. by intros ? [= <-].
Qed.
Lemma repair_inv now s : polling_inv s → in_utc now = true → polling_inv (repair_wait now s).
Proof.
  intros Hs Hnow. unfold repair_wait. apply extend_wait_inv.
  - apply failures_inv; [done |]. unfold max_failures. lia.
  - apply after_in_utc; [done |]. pose proof (backoff_bounds (Z.max 1 (Z.min max_failures (consecutive_failures s)))).
    simpl. lia.
Qed.

(** *** One operation *)
Inductive budget_call :=
| Restore (persisted : polling_state) | CheckQuota | Observe (response : json)
| Failure (error : github_error) | Success.
Definition budget_handle (now : timestamp) (call : budget_call) (s : polling_state) : polling_state :=
  match call with
  | Restore persisted => restore persisted now s
  | CheckQuota => (check now s).1
  | Observe response => (observe_json response now s).1
  | Failure error => (failure error now s).1
  | Success => success now s
  end.
Definition call_typed (call : budget_call) : Prop :=
  match call with
  | Restore persisted => polling_typed persisted
  | Failure (Throttled wait) => in_utc (gw_next_retry_at wait) = true
  | _ => True
  end.

Lemma observed_quota_ok value now q : observed_quota value now = Ok q → in_utc now = true →
  gq_observed_at q = now ∧ quota_in_utc q.
Proof.
  unfold observed_quota. intros Hq Hnow. res_inv.
  match goal with Hr : parse_from_rfc3339 _ = Some _ |- _ => by apply rfc3339_in_utc in Hr end.
Qed.

Lemma restore_inv p now s : polling_inv s → polling_typed p → in_utc now = true → polling_inv (restore p now s).
Proof.
  intros Hs [Hf Hd Hq] Hnow. unfold restore. apply retain_inv.
  set (s1 := with_failures _ s).
  assert (polling_inv s1) as H1.
  { apply failures_inv; [done |]. pose proof (pi_failures s Hs). unfold max_failures in *. lia. }
  clearbody s1. set (s2 := match next_retry_at p with Some _ => _ | None => _ end).
  assert (polling_inv s2) as H2.
  { unfold s2. destruct (next_retry_at p) as [d|]; [by apply extend_wait_inv; [| apply Hd] |].
    destruct (_ || _); [by apply repair_inv | done]. }
  clearbody s2. destruct (graphql p) as [q|]; [| done]. specialize (Hq q eq_refl).
  destruct (valid_quota q) eqn:E; simpl; [| by apply repair_inv].
  destruct (_ <=? now); [by apply merge_inv | by apply repair_inv].
Qed.
Lemma observe_inv v now s : polling_inv s → in_utc now = true → polling_inv (observe_json v now s).1.
Proof.
  intros Hs Hnow. unfold observe_json. destruct (pointer _ v) as [value|]; [| done].
  destruct (observed_quota value now) as [q|] eqn:E; [| done].
  apply observed_quota_ok in E as [_ Hq]; [| done].
  destruct (valid_counters q), (outstanding _ now), (valid_quota q) eqn:Ev; simpl; try done.
  by apply retain_inv, merge_inv.
Qed.

(** The deadline a failed request asks for. *)
Definition failure_deadline (wait : github_wait) (now : timestamp) (s : polling_state) : timestamp :=
  let deadline := if bool_decide (gw_reason wait ≠ GraphqlQuota)
                  then Z.max (gw_next_retry_at wait) (after now (backoff (counted_failure s)))
                  else gw_next_retry_at wait in
  match graphql s with
  | Some q => if bool_decide (gw_reason wait = PrimaryRateLimit) then Z.max deadline (quota_deadline q) else deadline
  | None => deadline
  end.
Definition failures_after (wait : github_wait) (s : polling_state) : Z :=
  if bool_decide (gw_reason wait ≠ GraphqlQuota) then counted_failure s else consecutive_failures s.
Lemma failure_eq wait now s : failure (Throttled wait) now s =
  (retain_quota_wait now (extend_wait (gw_reason wait) (failure_deadline wait now s)
     (with_failures (failures_after wait s) s)), true).
Proof.
  unfold failure, failure_deadline, failures_after. case_bool_decide; simpl; [done |].
  by destruct s as [n r f g].
Qed.
Lemma counted_failure_bounds s : polling_inv s → 1 ≤ counted_failure s ≤ max_failures.
Proof. intros Hs. pose proof (pi_failures s Hs). unfold counted_failure, max_failures in *. lia. Qed.
Lemma failure_deadline_in_utc wait now s : polling_inv s → in_utc now = true →
  in_utc (gw_next_retry_at wait) = true → in_utc (failure_deadline wait now s) = true.
Proof.
  intros Hs Hnow Hw. pose proof (counted_failure_bounds s Hs) as Hc. pose proof (backoff_bounds (counted_failure s)).
  assert (in_utc (after now (backoff (counted_failure s))) = true) as Ha by (apply after_in_utc; [done | lia]).
  unfold failure_deadline. destruct (graphql s) as [q|] eqn:E.
  - assert (in_utc (quota_deadline q) = true) by (apply quota_deadline_in_utc; by apply (pi_quota s Hs)).
    repeat case_bool_decide; unfold in_utc, in_range in *; lia.
  - repeat case_bool_decide; unfold in_utc, in_range in *; lia.
Qed.
Lemma failure_inv e now s : polling_inv s → in_utc now = true → call_typed (Failure e) →
  polling_inv (failure e now s).1.
Proof.
  intros Hs Hnow He. destruct e as [wait|]; [| done]. rewrite failure_eq. simpl.
  apply retain_inv, extend_wait_inv; [| by apply failure_deadline_in_utc].
  apply failures_inv; [done |]. pose proof (counted_failure_bounds s Hs). pose proof (pi_failures s Hs).
  unfold failures_after. case_bool_decide; lia.
Qed.
Lemma success_inv now s : polling_inv s → polling_inv (success now s).
Proof.
  intros Hs. unfold success. apply retain_inv. pose proof (pi_failures s Hs).
  destruct (negb _).
  - destruct Hs as [_ _ _ Hq]. split; simpl; [by split; intros [? ?] | unfold max_failures; lia | done | done].
  - case_bool_decide; [apply failures_inv; [done | unfold max_failures; lia] | done].
Qed.
Lemma budget_inv now call s : polling_inv s → in_utc now = true → call_typed call →
  polling_inv (budget_handle now call s).
Proof.
  intros Hs Hnow Hc. destruct call; simpl;
    [by apply restore_inv | by apply retain_inv | by apply observe_inv | by apply failure_inv | by apply success_inv].
Qed.
Lemma default_inv : polling_inv polling_default.
Proof. split; simpl; [by split; intros [? ?] | unfold max_failures; lia | done | done]. Qed.

(** *** Waits only grow while they last *)
Definition held (d : timestamp) (s : polling_state) : Prop := ∃ c, next_retry_at s = Some c ∧ d ≤ c.
Lemma extend_held d r x s : held d s → held d (extend_wait r x s).
Proof. intros (c & Hc & Hd). exists (Z.max c x). rewrite extend_wait_next, Hc. split; [done | lia]. Qed.
Lemma extend_reaches r x s : held x (extend_wait r x s).
Proof.
  exists (join_wait (next_retry_at s) x). rewrite extend_wait_next. split; [done |].
  destruct (next_retry_at s); simpl; lia.
Qed.
Lemma retain_held d now s : held d s → held d (retain_quota_wait now s).
Proof. intros Hd. unfold retain_quota_wait. repeat case_match; auto using extend_held. Qed.
Lemma merge_held d q s : held d s → held d (merge_quota q s).
Proof. intros Hd. unfold merge_quota. by destruct (match graphql s with Some _ => _ | None => _ end). Qed.
Lemma repair_held d now s : held d s → held d (repair_wait now s).
Proof. intros Hd. by apply extend_held. Qed.
Lemma restore_held d p now s : held d s → held d (restore p now s).
Proof.
  intros Hd. unfold restore. apply retain_held.
  set (s1 := with_failures _ s). assert (held d s1) as H1 by done. clearbody s1.
  repeat case_match; auto using repair_held, merge_held, extend_held.
Qed.
Lemma restore_takes d p now s : next_retry_at p = Some d → held d (restore p now s).
Proof.
  intros Hp. unfold restore. rewrite Hp. apply retain_held.
  repeat case_match; auto using repair_held, merge_held, extend_reaches.
Qed.

Lemma outstanding_le d c now : outstanding d now = true → d ≤ c → in_utc c = true → outstanding c now = true.
Proof. unfold outstanding, in_utc, in_range. lia. Qed.
Lemma held_outstanding d now s : polling_inv s → held d s → outstanding d now = true →
  ∃ c, next_retry_at s = Some c ∧ outstanding c now = true.
Proof.
  intros Hs (c & Hc & Hd) Ho. exists c. split; [done |]. eapply outstanding_le; [done | done |]. by apply (pi_retry s Hs).
Qed.
Lemma budget_held now call s d : polling_inv s → held d s → outstanding d now = true →
  held d (budget_handle now call s).
Proof.
  intros Hs Hd Ho. destruct call as [p | | v | [wait|m] |]; cbn [budget_handle].
  - by apply restore_held.
  - by apply retain_held.
  - unfold observe_json. repeat case_match; simpl; try done. by apply retain_held, merge_held.
  - rewrite failure_eq. by apply retain_held, extend_held.
  - done.
  - unfold success. apply retain_held. destruct (held_outstanding d now s) as (c & Hc & Hout); [done.. |].
    rewrite Hc, Hout. simpl. by case_bool_decide.
Qed.
Lemma held_refused now s d : polling_inv s → held d s → outstanding d now = true →
  ∃ w, (check now s).2 = Some w ∧ d ≤ gw_next_retry_at w.
Proof.
  intros Hs Hd Ho. unfold check. simpl.
  pose proof (retain_held _ now _ Hd) as Hd'. pose proof (retain_inv now s Hs) as Hs'.
  destruct Hd' as (c & Hc & Hle). rewrite Hc. rewrite (outstanding_le d c now); [| done | done | by apply (pi_retry _ Hs')].
  eexists. by split.
Qed.

(** ** Properties *)

(** The calls of the programs that share one budget, in the order in which they take the lock. *)
Definition budget_run (calls : list (timestamp * budget_call)) (s : polling_state) : polling_state :=
  foldl (λ s '(now, call), budget_handle now call s) s calls.

Lemma budget_run_inv calls s : polling_inv s →
  Forall (λ '(t, call), in_utc t = true ∧ call_typed call) calls → polling_inv (budget_run calls s).
Proof.
  revert s. induction calls as [|[t call] calls IH]; intros s Hs; [done |].
  intros [[Ht Hc] Hcalls]%Forall_cons. by apply IH; [apply budget_inv |].
Qed.
Lemma budget_run_held d calls s : polling_inv s → held d s →
  Forall (λ '(t, call), in_utc t = true ∧ call_typed call ∧ outstanding d t = true) calls →
  held d (budget_run calls s).
Proof.
  revert s. induction calls as [|[t call] calls IH]; intros s Hs Hd; [done |].
  intros [(Ht & Hc & Ho) Hcalls]%Forall_cons. by apply IH; [apply budget_inv | apply budget_held |].
Qed.

(** While a wait lasts no request is admitted: whatever is restored, observed, reported as
    failed or successful before the deadline, in any order and by whichever task shares
    the budget, a request at a moment before the deadline is refused, with a deadline that
    is not shorter. *)
Theorem waits_are_kept s d calls now :
  polling_inv s → held d s →
  Forall (λ '(t, call), in_utc t = true ∧ call_typed call ∧ outstanding d t = true) calls →
  outstanding d now = true →
  ∃ wait, (check now (budget_run calls s)).2 = Some wait ∧ d ≤ gw_next_retry_at wait.
Proof.
  intros Hs Hd Hcalls Ho. apply held_refused; [| by apply budget_run_held | done].
  apply budget_run_inv; [done |]. eapply Forall_impl; [exact Hcalls |]. intros [t call] (? & ? & _). done.
Qed.

Lemma outstanding_join o x now : (∀ c, o = Some c → in_utc c = true) → in_utc x = true →
  outstanding (join_wait o x) now = match o with Some c => outstanding c now | None => false end || outstanding x now.
Proof.
  intros Ho Hx. destruct o as [c|]; simpl; [| done]. specialize (Ho c eq_refl).
  unfold outstanding, in_utc, in_range in *. lia.
Qed.

(** A request is admitted at a moment exactly if no recorded deadline is outstanding then
    and the last observed balance covers another request of its cost above the reserve, or
    its window, with the margin, is over. *)
Theorem check_exact s now : polling_inv s →
  (check now s).2 = None ↔
  (∀ d, next_retry_at s = Some d → outstanding d now = false) ∧
  (∀ q, graphql s = Some q → required_of q ≤ gq_remaining q ∨ outstanding (quota_deadline q) now = false).
Proof.
  intros Hs. unfold check. simpl. rewrite retain_next.
  assert ((match graphql s with
    | Some q => if low_balance now q then Some (join_wait (next_retry_at s) (quota_deadline q)) else next_retry_at s
    | None => next_retry_at s end = next_retry_at s ∧
      ∀ q, graphql s = Some q → required_of q ≤ gq_remaining q ∨ outstanding (quota_deadline q) now = false) ∨
    ∃ q, graphql s = Some q ∧ low_balance now q = true) as [[-> Hq] | (q & Hq & Hlow)].
  { destruct (graphql s) as [q|]; [| by left]. destruct (low_balance now q) eqn:E; [right; eauto | left].
    split; [done |]. intros ? [= <-]. unfold low_balance in E.
    destruct (gq_remaining q <? required_of q) eqn:Er; [by right | left; lia]. }
  - destruct (next_retry_at s) as [d|] eqn:Ed; [| by split; intros; [split |]].
    destruct (outstanding d now) eqn:Eo; split; try done.
    + intros [Hd _]. by rewrite Hd in Eo.
    + intros _. split; [| done]. by intros ? [= <-].
  - rewrite Hq, Hlow. pose proof Hlow as [Hl Hout]%andb_true_iff.
    rewrite outstanding_join; [| by apply (pi_retry s Hs) | by apply quota_deadline_in_utc, (pi_quota s Hs)].
    rewrite Hout, orb_true_r. split; [done |]. intros [_ Hcover]. destruct (Hcover q eq_refl); [lia | congruence].
Qed.

(** A throttled request at [now] is followed by a wait that is at least the one GitHub asked
    for and, unless the request was refused by the budget itself, at least the backoff for
    the number of failures in a row, which grows from one minute to fifteen; the wait comes
    from GitHub, from the balance or from before, or it is no longer than fifteen minutes. *)
Theorem failures_back_off wait now s :
  polling_inv s → in_utc now = true → in_utc (gw_next_retry_at wait) = true →
  let s' := (failure (Throttled wait) now s).1 in
  ∃ d, next_retry_at s' = Some d ∧ gw_next_retry_at wait ≤ d ∧
    (gw_reason wait ≠ GraphqlQuota →
       consecutive_failures s' = Z.min max_failures (consecutive_failures s + 1) ∧
       (now + seconds (backoff (consecutive_failures s')) ≤ d ∨ d = max_utc) ∧
       60 ≤ backoff (consecutive_failures s') ≤ 900) ∧
    (d = gw_next_retry_at wait ∨ next_retry_at s = Some d ∨ (∃ q, graphql s = Some q ∧ d = quota_deadline q) ∨
     d ≤ now + seconds 900 ∨ d = max_utc).
Proof.
  intros Hs Hnow Hw s'. unfold s'. rewrite failure_eq. cbn [fst].
  pose proof (counted_failure_bounds s Hs) as Hcount. pose proof (pi_failures s Hs) as Hf.
  assert (failures_after wait s ≤ max_failures) as Hfa by (unfold failures_after; case_bool_decide; lia).
  set (x := failure_deadline wait now s).
  assert (held x (retain_quota_wait now (extend_wait (gw_reason wait) x (with_failures (failures_after wait s) s))))
    as (d & Hd & Hx) by apply retain_held, extend_reaches.
  pose proof (after_delays now (backoff (counted_failure s)) Hnow) as Hafter.
  pose proof (backoff_bounds (counted_failure s)) as Hb.
  exists d. rewrite retain_failures, extend_wait_failures. cbn [with_failures consecutive_failures].
  split; [done |].
  assert (gw_next_retry_at wait ≤ x) as Hup.
  { unfold x, failure_deadline. repeat case_match; repeat case_bool_decide; lia. }
  assert (in_utc d = true) as Hdu.
  { eapply pi_retry; [| exact Hd]. apply retain_inv, extend_wait_inv; [| by apply failure_deadline_in_utc].
    apply failures_inv; [done |]. unfold failures_after. case_bool_decide; lia. }
  split; [lia |]. split.
  - intros Hr. unfold failures_after. rewrite bool_decide_eq_true_2 by done.
    split; [unfold counted_failure, max_failures in *; lia |]. split; [| apply backoff_bounds].
    assert (after now (backoff (counted_failure s)) ≤ x).
    { unfold x, failure_deadline. rewrite (bool_decide_eq_true_2 (gw_reason wait ≠ GraphqlQuota)) by done.
      repeat case_match; repeat case_bool_decide; lia. }
    destruct Hafter as [Ha | Ha]; [lia | left; lia |].
    right. unfold in_utc, in_range in Hdu. lia.
  - rewrite retain_next, extend_wait_next, extend_wait_graphql in Hd. cbn [with_failures graphql next_retry_at] in Hd.
    assert (∀ o y z, Some (join_wait o y) = Some z → o = Some z ∨ y = z) as Hjoin.
    { intros [c|] y z; simpl; intros [= <-]; [| by right]. destruct (Z.max_spec c y) as [[_ ->] | [_ ->]]; auto. }
    assert (next_retry_at s = Some d ∨ x = d ∨ ∃ q, graphql s = Some q ∧ d = quota_deadline q) as [Ho | [<- | Hq]].
    { destruct (graphql s) as [q|]; [| by apply Hjoin in Hd as [|]; auto].
      destruct (low_balance now q); apply Hjoin in Hd as [Hd | Hd]; eauto.
      apply Hjoin in Hd as [|]; auto. }
    + auto.
    + unfold x, failure_deadline. destruct (graphql s) as [q|];
        repeat case_bool_decide; repeat match goal with |- context [Z.max ?a ?b] =>
          destruct (Z.max_spec a b) as [[_ ->] | [_ ->]] end; eauto 6;
        (destruct Hafter as [-> | ->]; [lia | unfold seconds; auto 6 with lia | auto 6]).
    + auto.
Qed.
End laws.

(** ** Witnesses *)
Section witnesses.
(** A library whose texts of instants are seconds. *)
Definition sample_chrono : Chrono := {|
  min_utc := (- seconds 8334601228800)%Z;
  max_utc := (seconds 8210266876799 + 999999999)%Z;
  parse_from_rfc3339 s := n ← NilEmpty.uint_of_string s; let t := seconds (Z.of_uint n) in
    if in_range (- seconds 8334601228800) (seconds 8210266876799) t then Some t else None;
  parse_from_rfc2822 s := None;
|}.
#[global] Instance sample_chrono_laws : ChronoLaws sample_chrono.
Proof.
  split.
  - reflexivity.
  - intros s t. simpl. destruct (NilEmpty.uint_of_string s) as [n|]; simpl; [| done].
    destruct (in_range _ _ (seconds (Z.of_uint n))) eqn:E; [| done]. intros [= <-].
    unfold in_utc, in_range in *. simpl in *. lia.
  - done.
Qed.
#[local] Existing Instance sample_chrono.

(** A balance below the reserve until the instant 1000, observed at 100. *)
Definition low_response : json :=
  json_object [("data", json_object [("rateLimit", json_object
    [("limit", JInt 5000); ("remaining", JInt 20); ("cost", JInt 1); ("resetAt", JStr "1000")])])].
Definition low_budget : polling_state := (observe_json low_response (seconds 100) polling_default).1.
Definition secondary : github_error := Throttled (GitHubWait SecondaryRateLimit (seconds 130)).

Lemma low_budget_inv : polling_inv low_budget.
Proof. apply observe_inv; [apply default_inv | reflexivity]. Qed.

Lemma waits_are_kept_witness :
  ∃ wait, (check (seconds 1004) (budget_run [(seconds 200, Failure secondary); (seconds 300, Success);
    (seconds 400, Restore polling_default)] low_budget)).2 = Some wait ∧ (seconds 1005 ≤ gw_next_retry_at wait)%Z.
Proof.
  apply (waits_are_kept low_budget (seconds 1005)).
  - apply low_budget_inv.
  - exists (seconds 1005). split; [reflexivity | done].
  - repeat constructor; simpl; lia || done.
  - reflexivity.
Defined.

Lemma check_exact_witness : (check (seconds 1005) low_budget).2 = None.
Proof.
  apply (check_exact low_budget); [apply low_budget_inv |]. split.
  - intros d Hd. vm_compute in Hd. injection Hd as <-. reflexivity.
  - intros q Hq. right. vm_compute in Hq. injection Hq as <-. reflexivity.
Defined.

Lemma failures_back_off_witness :
  let s := (failure secondary (seconds 100) (failure secondary (seconds 90) polling_default).1).1 in
  next_retry_at s = Some (seconds 220) ∧ ∃ d, next_retry_at s = Some d ∧ (seconds 130 ≤ d)%Z.
Proof.
  intros s. split; [reflexivity |].
  destruct (failures_back_off (GitHubWait SecondaryRateLimit (seconds 130)) (seconds 100)
    (failure secondary (seconds 90) polling_default).1) as (d & Hd & Hle & _).
  - apply failure_inv; [apply default_inv | reflexivity | reflexivity].
  - reflexivity.
  - reflexivity.
  - by exists d.
Defined.
End witnesses.
