(* ===== verification/GithubResponse.v ===== *)
(** * Answers of the GitHub command line (crates/crony-cli/src/factory/quota.rs, factory.rs)

    The HTTP preambles in front of a body ([split_headers], [json_body]), the
    classification of a failed request ([classify_failure]), and the guarded
    requests of the Factory, which ask the budget first and report to it.  The
    process itself is the environment: its exit and output are inputs. *)
From S2P Require Import Prelude Text Json Domain Planning Polling.
From Stdlib Require Import Ascii.

(** ** Bytes and text *)

(** [u8::is_ascii_whitespace] *)
Definition is_ascii_whitespace (c : Z) : bool :=
  ((c =? 9) || (c =? 10) || (c =? 12) || (c =? 13) || (c =? 32))%Z.
(** [trim_ascii_start] *)
Fixpoint trim_ascii_start (s : string) : string :=
  match s with
  | "" => ""
  | String a r => if is_ascii_whitespace (byte_val a) then trim_ascii_start r else s
  end.
(** The first word of [split_ascii_whitespace], and what follows it. *)
Fixpoint ascii_word (s : string) : string * string :=
  match s with
  | "" => ("", "")
  | String a r => if is_ascii_whitespace (byte_val a) then ("", s)
                  else let '(w, t) := ascii_word r in (String a w, t)
  end.
Definition next_word (s : string) : option (string * string) :=
  let '(w, t) := ascii_word (trim_ascii_start s) in if is_empty w then None else Some (w, t).

(** [str::parse] of an unsigned integer: an optional plus and digits. *)
Definition digit_fold (n c : Z) : Z := (n * 10 + (c - 48))%Z.
Definition parse_unsigned (bound : Z) (s : string) : option Z :=
  let digits := default s (strip_prefix "+" s) in
  let n := foldl digit_fold 0%Z (bytes digits) in
  if negb (is_empty digits) && all_bytes is_ascii_digit digits && (n <=? bound)%Z then Some n else None.

(** [String::from_utf8_lossy]: every maximal prefix of an ill-formed sequence becomes U+FFFD. *)
Definition replacement : string := encode_char 65533.
Definition continuation (a : ascii) : bool := in_range 128 191 (byte_val a).
Definition second_of (x : Z) (b : ascii) : bool :=
  in_range (if x =? 224 then 160 else if x =? 240 then 144 else 128)%Z
    (if x =? 237 then 159 else if x =? 244 then 143 else 191)%Z (byte_val b).
Fixpoint from_utf8_lossy (s : string) : string :=
  match s with
  | "" => ""
  | String a r =>
      let x := byte_val a in
      if (x <? 128)%Z then String a (from_utf8_lossy r)
      else if in_range 194 223 x then
        match r with
        | String b r2 => if continuation b then String a (String b (from_utf8_lossy r2))
                         else replacement +:+ from_utf8_lossy r
        | "" => replacement
        end
      else if in_range 224 239 x then
        match r with
        | String b r2 =>
            if negb (second_of x b) then replacement +:+ from_utf8_lossy r
            else match r2 with
                 | String c r3 => if continuation c then String a (String b (String c (from_utf8_lossy r3)))
                                  else replacement +:+ from_utf8_lossy r2
                 | "" => replacement
                 end
        | "" => replacement
        end
      else if in_range 240 244 x then
        match r with
        | String b r2 =>
            if negb (second_of x b) then replacement +:+ from_utf8_lossy r
            else match r2 with
                 | String c r3 =>
                     if negb (continuation c) then replacement +:+ from_utf8_lossy r2
                     else match r3 with
                          | String d r4 => if continuation d
                                           then String a (String b (String c (String d (from_utf8_lossy r4))))
                                           else replacement +:+ from_utf8_lossy r3
                          | "" => replacement
                          end
                 | "" => replacement
                 end
        | "" => replacement
        end
      else replacement +:+ from_utf8_lossy r
  end.

(** [&bytes\[..n\]] *)
Fixpoint take_bytes (n : nat) (s : string) : string :=
  match n, s with S n, String a r => String a (take_bytes n r) | _, _ => "" end.

(** [str::lines] *)
Definition line_text (l : string) : string := default l (strip_suffix carriage_return l).
Definition str_lines (s : string) : list string :=
  match reverse (split_on "010"%char s) with
  | [] => []
  | last :: before => (line_text <$> reverse before) ++ (if is_empty last then [] else [last])
  end.

(** The rest of the text after each match of [str::match_indices]; [skip] bytes
    of the last match are still to be passed over. *)
Fixpoint match_tails (skip : nat) (pattern s : string) : list string :=
  match s with
  | "" => []
  | String _ r =>
      match skip with
      | S k => match_tails k pattern r
      | O => match strip_prefix pattern s with
             | Some tail => tail :: match_tails (String.length pattern - 1) pattern r
             | None => match_tails 0 pattern r
             end
      end
  end.

(** ** HTTP preambles *)
Definition max_header_bytes : Z := 64 * 1024.
Definition max_header_lines : nat := 256.
Definition max_header_blocks : nat := 8.
Definition max_diagnostic_bytes : Z := 64 * 1024.
Definition max_error_body_bytes : Z := 1024 * 1024.

Record response := Response { rs_body : string; rs_status : option Z; rs_headers : list (string * string) }.

Definition headers_incomplete : string := "GitHub response HTTP headers are incomplete or exceed bounds".
Definition invalid_status : string := "invalid GitHub response HTTP status".

(** The bytes before the first newline among the first [available]. *)
Fixpoint take_line (available : nat) (s : string) : option (string * string) :=
  match available, s with
  | S k, String a r => if Ascii.eqb a "010"%char then Some ("", r)
                       else '(l, t) ← take_line k r; Some (String a l, t)
  | _, _ => None
  end.
(** [lines_left] is [MAX_HEADER_LINES] less the lines read so far, [total] the bytes. *)
Definition header_line (lines_left : nat) (bytes : string) (total : Z) : result (nat * string * string * Z) :=
  let available := Z.to_nat (Z.max 0 (max_header_bytes - total)) in
  match lines_left, take_line available bytes with
  | S lines_left, Some (before, tail) =>
      let line := line_text before in
      bail_if (negb (utf8 line)) "invalid GitHub response HTTP header encoding";;
      Ok (lines_left, line, tail, total + str_len before + 1)%Z
  | _, _ => Err headers_incomplete
  end.

Definition relevant_headers : list string := ["retry-after"; "x-ratelimit-reset"; "x-ratelimit-remaining"].
Definition header_of (line : string) : result (list (string * string)) :=
  match split_once ":"%char line with
  | Some (name, value) =>
      if is_empty name then Err "invalid GitHub response HTTP header"
      else Ok (if existsb (eq_ignore_ascii_case name) relevant_headers then [(name, trim value)] else [])
  | None => Err "invalid GitHub response HTTP header"
  end.
(** The loop over the header lines of one preamble, up to the empty line. *)
Fixpoint header_loop (lines_left : nat) (rest : string) (total : Z) (headers : list (string * string)) :
    result (nat * string * Z * list (string * string)) :=
  match lines_left with
  | O => Err headers_incomplete
  | S lines_left' =>
      read ← header_line lines_left rest total;
      let '(_, line, tail, total) := read in
      if is_empty line then Ok (lines_left', tail, total, headers)
      else found ← header_of line; header_loop lines_left' tail total (headers ++ found)
  end.

Definition http_versions : list string := ["HTTP/1.0"; "HTTP/1.1"; "HTTP/2"; "HTTP/2.0"; "HTTP/3"; "HTTP/3.0"].
Definition status_code_of (line : string) : result Z :=
  match next_word line with
  | None => Err invalid_status
  | Some (version, rest) =>
      bail_if (negb (mem version http_versions)) invalid_status;;
      with_context
        ('(code, _) ← next_word rest;
         if (str_len code =? 3)%Z && all_bytes is_ascii_digit code
         then n ← parse_unsigned 65535 code; if in_range 100 599 n then Some n else None
         else None) invalid_status
  end.
Fixpoint preamble_loop (blocks lines_left : nat) (rest : string) (total : Z) (r : response) : result response :=
  if negb (starts_with "HTTP/" rest) then Ok r
  else match blocks with
       | O => Err "GitHub response HTTP headers exceed bounds"
       | S blocks =>
           read ← header_line lines_left rest total;
           let '(lines_left, line, tail, total) := read in
           status ← status_code_of line;
           block ← header_loop lines_left tail total (rs_headers r);
           let '(lines_left, tail, total, headers) := block in
           let rest := trim_ascii_start tail in
           preamble_loop blocks lines_left rest total (Response rest (Some status) headers)
       end.
Definition split_headers (stdout : string) : result response :=
  preamble_loop max_header_blocks max_header_lines (trim_ascii_start stdout) 0 (Response stdout None []).
Definition json_body (stdout : string) : result string := rs_body <$> split_headers stdout.

(** ** Failures *)

(** [serde_json::from_slice], a parameter. *)
Class JsonReader := json_from_slice : string → option json.

Record signals := Signals {
  sg_primary : bool; sg_secondary : bool; sg_unavailable : bool; sg_too_many : bool; sg_forbidden : bool }.
Definition no_signals : signals := Signals false false false false false.

Definition status_prefixes : list string := ["http "; "http"; "http/1.0 "; "http/1.1 "; "http/2 "; "http/2.0 "].
Definition follows_status (code tail : string) : bool :=
  match strip_prefix code tail with
  | Some (String a _) => negb (is_ascii_digit (byte_val a))
  | Some "" => true
  | None => false
  end.
Definition has_http_status (text code : string) : bool :=
  existsb (λ prefix, existsb (follows_status code) (match_tails 0 prefix text)) status_prefixes.

Definition contains_any (needles : list string) (text : string) : bool := existsb (λ n, contains n text) needles.
Definition signals_text (bytes : string) (s : signals) : signals :=
  let text := to_ascii_lowercase (from_utf8_lossy (take_bytes (Z.to_nat max_diagnostic_bytes) bytes)) in
  Signals
    (sg_primary s || contains_any ["primary rate limit"; "rate limit exceeded"; "rate limit was exceeded";
                                   "rate limit has been exceeded"] text)
    (sg_secondary s || contains_any ["secondary rate limit"; "secondary rate-limit"; "abuse detection";
                                     "abuse rate limit"] text)
    (sg_unavailable s || contains_any ["service unavailable"; "temporarily unavailable"; "bad gateway";
                                       "gateway timeout"] text || has_http_status text "503")
    (sg_too_many s || has_http_status text "429")
    (sg_forbidden s || has_http_status text "403").

Definition error_keys : list (list string) := [["type"]; ["extensions"; "code"]; ["extensions"; "type"]].
Definition rate_limited (error : json) : bool :=
  existsb (λ key, bool_decide ((v ← pointer key error; as_str v) = Some "RATE_LIMITED")) error_keys.
Definition with_primary (b : bool) (s : signals) : signals :=
  Signals (sg_primary s || b) (sg_secondary s) (sg_unavailable s) (sg_too_many s) (sg_forbidden s).
Definition message_signals (value : json) (s : signals) : signals :=
  match v ← get "message" value; as_str v with Some message => signals_text message s | None => s end.
Definition error_signals (s : signals) (error : json) : signals :=
  message_signals error (with_primary (rate_limited error) s).

Section classify.
Context `{Chrono, JsonReader}.

Definition body_signals (body : string) (s : signals) : signals :=
  if (str_len body <=? max_error_body_bytes)%Z then
    match json_from_slice body with
    | Some value =>
        let s := match v ← get "errors" value; as_array v with
                 | Some errors => foldl error_signals s (take 32 errors)
                 | None => s
                 end in
        match get "data" value with None => message_signals value s | Some _ => s end
    | None => signals_text body s
    end
  else s.

(** [str::parse] of a digit string as a signed 64-bit integer is [parse_unsigned i64_max]. *)
Definition retry_hint (name value : string) (now : timestamp) : option timestamp :=
  let reset := eq_ignore_ascii_case name "x-ratelimit-reset" in
  if negb reset && negb (eq_ignore_ascii_case name "retry-after") then None
  else if negb (is_empty value) && all_bytes is_ascii_digit value then
    match parse_unsigned i64_max value with
    | None => Some max_utc
    | Some secs =>
        Some (if reset
              then if in_utc (seconds secs) then after (seconds secs) reset_margin_seconds else max_utc
              else after now secs)
    end
  else if negb reset && (str_len value <=? 64)%Z then parse_from_rfc2822 value
  else None.

Definition stderr_headers (stderr : string) : list (string * string) :=
  omap (λ line, '(key, value) ← split_once ":"%char line; Some (trim key, trim value))
    (take max_header_lines (str_lines (from_utf8_lossy stderr))).
Definition is_exhausted (headers : list (string * string)) : bool :=
  existsb (λ '(key, value), eq_ignore_ascii_case key "x-ratelimit-remaining"
             && bool_decide (parse_unsigned u64_max value = Some 0%Z)) headers.
Definition failure_reason (s : signals) (exhausted : bool) (status : option Z) : option factory_retry_reason :=
  let code_is code := bool_decide (status = Some code) in
  if sg_secondary s then Some SecondaryRateLimit
  else if sg_primary s || (exhausted && (code_is 403%Z || code_is 429%Z || sg_forbidden s || sg_too_many s))
  then Some PrimaryRateLimit
  else if sg_too_many s || code_is 429%Z then Some SecondaryRateLimit
  else if sg_unavailable s || code_is 503%Z then Some GithubUnavailable
  else None.

Definition latest (hints : list timestamp) : option timestamp :=
  match hints with [] => None | h :: rest => Some (foldl Z.max h rest) end.
Definition retry_hints (reason : factory_retry_reason) (exhausted : bool) (headers : list (string * string))
    (now : timestamp) : list timestamp :=
  let use_primary_reset := exhausted || bool_decide (reason = PrimaryRateLimit ∨ reason = GraphqlQuota) in
  List.filter (λ deadline, outstanding deadline now)
    (omap (λ '(key, value), retry_hint key value now)
       (List.filter (λ '(key, _), use_primary_reset || negb (eq_ignore_ascii_case key "x-ratelimit-reset")) headers)).

Definition fail_closed : github_wait := GitHubWait GithubUnavailable max_utc.
Definition oversized_diagnostics (stderr : string) : bool :=
  (max_diagnostic_bytes <? str_len stderr)%Z
  || (max_header_lines <? length (take (max_header_lines + 1) (split_on "010"%char stderr)))%nat.
Definition classify_failure (stdout stderr : string) (now : timestamp) : option github_wait :=
  if oversized_diagnostics stderr then Some fail_closed
  else match split_headers stdout with
       | Err _ => Some fail_closed
       | Ok response =>
           let s := body_signals (rs_body response) (signals_text stderr no_signals) in
           let headers := rs_headers response ++ stderr_headers stderr in
           let exhausted := is_exhausted headers in
           match failure_reason s exhausted (rs_status response) with
           | None => None
           | Some reason =>
               Some (GitHubWait reason (default (after now base_backoff_seconds)
                                          (latest (retry_hints reason exhausted headers now))))
           end
       end.

(** ** Guarded requests *)

(** The longest prefix of whole characters within [room] bytes. *)
Fixpoint fit_chars (room : Z) (cs : list Z) : list Z :=
  match cs with
  | [] => []
  | c :: rest => let left_over := (room - str_len (encode_char c))%Z in
                 if (left_over <? 0)%Z then [] else c :: fit_chars left_over rest
  end.
Definition truncate_utf8 (value : string) (max_bytes : Z) : string :=
  if (str_len value <=? max_bytes)%Z then value else of_chars (fit_chars max_bytes (chars value)).
Definition sanitize_failure_detail (value : string) : string :=
  let normalized := of_chars ((λ c, if is_control c then 32%Z else c) <$> chars value) in
  let collapsed := join " " (split_whitespace normalized) in
  truncate_utf8 (if is_empty collapsed then "factory operation failed" else collapsed) 2000.

(** How the process of a request ended: it exited, or it could not be run to its end. *)
Inductive process_outcome :=
| Exited (successful : bool) (stdout stderr : string)
| NotRun (message : string).
(** A request to the command line: its text for errors and how it ended. *)
Record gh_request := GhRequest { gh_text : string; gh_outcome : process_outcome }.
(** The clock when the budget is asked, when the answer is classified and when it is reported. *)
Record request_clock := RequestClock { asked : timestamp; classified : timestamp; reported : timestamp }.

Definition gh_output (request : gh_request) (now : timestamp) : github_error + string :=
  match gh_outcome request with
  | NotRun message => inl (OtherError message)
  | Exited true stdout _ => inr stdout
  | Exited false stdout stderr =>
      match classify_failure stdout stderr now with
      | Some wait => inl (Throttled wait)
      | None => inl (OtherError (gh_text request +:+ " failed: " +:+ sanitize_failure_detail (from_utf8_lossy stderr)))
      end
  end.
Definition decode_body (stdout context : string) : github_error + json :=
  match json_body stdout with
  | Err e => inl (OtherError e)
  | Ok body => match json_from_slice body with Some v => inr v | None => inl (OtherError context) end
  end.
Definition gh_json (request : gh_request) (now : timestamp) : github_error + json :=
  match gh_output request now with
  | inl e => inl e
  | inr stdout => decode_body stdout ("decode JSON from " +:+ gh_text request)
  end.
Definition gh_run (request : gh_request) (now : timestamp) : github_error + unit :=
  match gh_output request now with inl e => inl e | inr _ => inr tt end.

(** [gh_json_guarded] and [gh_run_guarded] differ in the request they make. *)
Definition guarded {A} (request : github_error + A) (clock : request_clock) (s : polling_state) :
    polling_state * (github_error + A) :=
  match check (asked clock) s with
  | (s, Some wait) => (s, inl (Throttled wait))
  | (s, None) => match request with
                 | inl error => ((failure error (reported clock) s).1, inl error)
                 | inr a => (s, inr a)
                 end
  end.
Definition gh_json_guarded (request : gh_request) (clock : request_clock) :=
  guarded (gh_json request (classified clock)) clock.
Definition gh_run_guarded (request : gh_request) (clock : request_clock) :=
  guarded (gh_run request (classified clock)) clock.

Definition graphql_envelope_has_errors (value : json) : bool :=
  match get "errors" value with
  | None => false
  | Some (JArr errors) => match errors with [] => false | _ => true end
  | Some _ => true
  end.
(** What [graphql_json] makes of the output of a successful process. *)
Definition graphql_answer (stdout : string) (clock : request_clock) (s : polling_state) :
    polling_state * (github_error + json) :=
  match decode_body stdout "decode bounded GitHub GraphQL response" with
  | inl e => (s, inl e)
  | inr value =>
      if graphql_envelope_has_errors value then
        match classify_failure stdout "" (classified clock) with
        | Some wait => ((failure (Throttled wait) (reported clock) s).1, inl (Throttled wait))
        | None => (s, inl (OtherError "GitHub GraphQL returned partial errors; refusing incomplete source data"))
        end
      else match pointer ["data"; "rateLimit"] value with
           | None => (s, inl (OtherError
               "GitHub GraphQL response omitted rateLimit; refusing unbudgeted discovery"))
           | Some _ => match observe_json value (reported clock) s with
                       | (s, Ok _) => (s, inr value)
                       | (s, Err e) => (s, inl (OtherError e))
                       end
           end
  end.
Definition is_scalar (v : json) : bool := match v with JArr _ | JObj _ => false | _ => true end.
Definition graphql_json (variables : json) (request : gh_request) (clock : request_clock) (s : polling_state) :
    polling_state * (github_error + json) :=
  match check (asked clock) s with
  | (s, Some wait) => (s, inl (Throttled wait))
  | (s, None) =>
      match as_object variables with
      | None => (s, inl (OtherError "GraphQL variables must be an object"))
      | Some members =>
          if negb (forallb (λ '(_, v), is_scalar v) members)
          then (s, inl (OtherError "unsupported GraphQL variable shape"))
          else match gh_output request (classified clock) with
               | inl error => ((failure error (reported clock) s).1, inl error)
               | inr stdout => graphql_answer stdout clock s
               end
      end
  end.

(** The start of a cycle, [run]: a current observation of the balance is there or is asked for. *)
Definition current_observation (now : timestamp) (s : polling_state) : bool :=
  match graphql s with Some q => (now <? gq_reset_at q)%Z | None => false end.
Definition recent_observation (now : timestamp) (s : polling_state) : bool :=
  current_observation now s
  && match graphql s with Some q => (now <? gq_observed_at q + seconds 60)%Z | None => false end.
Definition no_observation : string := "GitHub did not provide a current GraphQL quota observation".
Definition run_admission (request : gh_request) (started : timestamp) (clock : request_clock) (ended : timestamp)
    (s : polling_state) : polling_state * (github_error + unit) :=
  match check started s with
  | (s, Some wait) => (s, inl (Throttled wait))
  | (s, None) =>
      if recent_observation started s then (s, inr tt)
      else match graphql_json (JObj []) request clock s with
           | (s, inl error) => (s, inl error)
           | (s, inr _) =>
               if negb (current_observation ended s) then (s, inl (OtherError no_observation))
               else match check ended s with
                    | (s, Some wait) => (s, inl (Throttled wait))
                    | (s, None) => (s, inr tt)
                    end
           end
  end.

(** The requests of the Factory, and whether the answer is a wait. *)
Inductive github_call :=
| JsonCall (request : gh_request) | RunCall (request : gh_request)
| GraphqlCall (variables : json) (request : gh_request).
Definition error_of {A} (answer : github_error + A) : option github_error :=
  match answer with inl e => Some e | inr _ => None end.
Definition call_github (call : github_call) (clock : request_clock) (s : polling_state) :
    polling_state * option github_error :=
  match call with
  | JsonCall request => let '(s, answer) := gh_json_guarded request clock s in (s, error_of answer)
  | RunCall request => let '(s, answer) := gh_run_guarded request clock s in (s, error_of answer)
  | GraphqlCall variables request =>
      let '(s, answer) := graphql_json variables request clock s in (s, error_of answer)
  end.
End classify.

(** ** What a classified failure asks for *)
Section classified.
Context `{Chrono, !ChronoLaws _, JsonReader}.

Lemma foldl_max_ge l : ∀ h : Z, (h ≤ foldl Z.max h l)%Z ∧ ∀ x, x ∈ l → (x ≤ foldl Z.max h l)%Z.
Proof.
  induction l as [|y l IH]; intros h; simpl; [split; [lia | set_solver] |].
  destruct (IH (Z.max h y)) as [H1 H2]. split; [lia |].
  intros x [-> | Hx]%elem_of_cons; [lia | by apply H2].
Qed.
Lemma foldl_max_in l : ∀ h : Z, foldl Z.max h l = h ∨ foldl Z.max h l ∈ l.
Proof.
  induction l as [|y l IH]; intros h; simpl; [by left |].
  destruct (IH (Z.max h y)) as [-> | ?]; [| set_solver].
  destruct (Z.max_spec h y) as [[_ ->] | [_ ->]]; [set_solver | by left].
Qed.
Lemma latest_spec hints d : latest hints = Some d → d ∈ hints ∧ ∀ x, x ∈ hints → (x ≤ d)%Z.
Proof.
  destruct hints as [|h rest]; [done |]. intros [= <-]. destruct (foldl_max_ge rest h) as [H1 H2]. split.
  - destruct (foldl_max_in rest h) as [-> | ?]; set_solver.
  - intros x [-> | Hx]%elem_of_cons; auto.
Qed.

Lemma parse_unsigned_bounds bound s n : parse_unsigned bound s = Some n → (0 ≤ n ≤ bound)%Z.
Proof.
  unfold parse_unsigned. set (digits := default s _). destruct (_ && _) eqn:E; [| done]. intros [= <-].
  rewrite !andb_true_iff in E. destruct E as [[_ E] Hb]. split; [| lia]. clear Hb. unfold all_bytes in E.
  assert (∀ l m, forallb is_ascii_digit l = true → (0 ≤ m → 0 ≤ foldl digit_fold m l)%Z) as Hfold.
  { induction l as [|c l IH]; intros m Hl Hm; simpl in *; [done |].
    apply andb_true_iff in Hl as [Hc Hl]. apply IH; [done |].
    unfold is_ascii_digit in Hc. unfold digit_fold. lia. }
  by apply Hfold.
Qed.
Lemma retry_hint_in_utc name value now d : in_utc now = true → retry_hint name value now = Some d → in_utc d = true.
Proof.
  intros Hnow. assert (in_utc max_utc = true) as Hmax.
  { pose proof (epoch_in_utc (C := H)). unfold in_utc, in_range in *. lia. }
  unfold retry_hint. destruct (negb _ && negb _); [done |].
  destruct (negb (is_empty value) && all_bytes is_ascii_digit value) eqn:Ed.
  - destruct (parse_unsigned i64_max value) as [secs|] eqn:Ep; [| by intros [= <-]].
    apply parse_unsigned_bounds in Ep as [Hsecs _].
    intros [= <-]. destruct (eq_ignore_ascii_case name "x-ratelimit-reset"); [| by apply after_in_utc].
    destruct (in_utc (seconds secs)) eqn:Es; [| done]. by apply after_in_utc.
  - clear Ed. destruct (_ && _); [| done]. by intros Hp%rfc2822_in_utc.
Qed.
Lemma retry_hints_in_utc reason exhausted headers now d : in_utc now = true →
  d ∈ retry_hints reason exhausted headers now → in_utc d = true ∧ outstanding d now = true.
Proof.
  intros Hnow. unfold retry_hints. rewrite list_elem_of_In, filter_In, <- list_elem_of_In, list_elem_of_omap.
  intros (([key value] & _ & Hd) & Ho). split; [by eapply retry_hint_in_utc | done].
Qed.

Lemma after_outstanding now x : in_utc now = true → (0 < x)%Z → outstanding (after now x) now = true.
Proof.
  intros Hnow Hx. destruct (after_delays now x) as [-> | ->]; [done | lia | |]; unfold outstanding, seconds; lia.
Qed.
Lemma failure_reason_not_quota s exhausted status reason :
  failure_reason s exhausted status = Some reason → reason ≠ GraphqlQuota.
Proof. unfold failure_reason. repeat case_match; congruence. Qed.

Lemma classify_in_utc stdout stderr now wait : in_utc now = true → classify_failure stdout stderr now = Some wait →
  in_utc (gw_next_retry_at wait) = true.
Proof.
  intros Hnow. assert (in_utc max_utc = true) as Hmax.
  { pose proof (epoch_in_utc (C := H)). unfold in_utc, in_range in *. lia. }
  unfold classify_failure. destruct (oversized_diagnostics stderr); [by intros [= <-] |].
  destruct (split_headers stdout) as [r|]; [| by intros [= <-]].
  destruct (failure_reason _ _ _) as [reason|]; [| done]. intros [= <-]. cbn [gw_next_retry_at].
  destruct (latest _) as [d|] eqn:El; simpl; [| by apply after_in_utc].
  apply latest_spec in El as [Hd _]. by apply retry_hints_in_utc in Hd as [].
Qed.

(** The relevant headers of a response and its diagnostics, which a hint may come from. *)
Definition hint_of (stdout stderr : string) (now : timestamp) (reason : factory_retry_reason) (d : timestamp) : Prop :=
  ∃ response key value, split_headers stdout = Ok response ∧
    (key, value) ∈ rs_headers response ++ stderr_headers stderr ∧ retry_hint key value now = Some d ∧
    (eq_ignore_ascii_case key "x-ratelimit-reset" = true →
       reason = PrimaryRateLimit ∨ is_exhausted (rs_headers response ++ stderr_headers stderr) = true).

(** A failure that is classified asks for a wait that has not passed, is never an admission
    wait of the budget itself, and is as late as every hint of the answer that counts: a
    Retry-After always, a reset of the primary window if it is exhausted or was the limit;
    what cannot be read in full asks for an operator. *)
Theorem classified_waits_are_sufficient stdout stderr now wait :
  in_utc now = true → classify_failure stdout stderr now = Some wait →
  in_utc (gw_next_retry_at wait) = true ∧ outstanding (gw_next_retry_at wait) now = true ∧
  gw_reason wait ≠ GraphqlQuota ∧
  (∀ d, hint_of stdout stderr now (gw_reason wait) d → outstanding d now = true → (d ≤ gw_next_retry_at wait)%Z) ∧
  (oversized_diagnostics stderr = true ∨ is_ok (split_headers stdout) = false → wait = fail_closed).
Proof.
  intros Hnow. assert (in_utc max_utc = true) as Hmax.
  { pose proof (epoch_in_utc (C := H)). unfold in_utc, in_range in *. lia. }
  unfold classify_failure. destruct (oversized_diagnostics stderr) eqn:Eo.
  { intros [= <-]. split_and!; try done; [unfold outstanding; simpl; lia |].
    intros d (r & k & v & _ & _ & Hd & _) _. apply retry_hint_in_utc in Hd; [| done].
    unfold in_utc, in_range in Hd. simpl. lia. }
  destruct (split_headers stdout) as [r|] eqn:Er.
  2: { intros [= <-]. split_and!; try done; [unfold outstanding; simpl; lia |].
    intros d (r & k & v & Hr & _). congruence. }
  set (headers := rs_headers r ++ stderr_headers stderr). set (exhausted := is_exhausted headers).
  destruct (failure_reason _ _ _) as [reason|] eqn:Ereason; [| done]. intros [= <-]. cbn [gw_next_retry_at gw_reason].
  apply failure_reason_not_quota in Ereason.
  assert (∀ d, hint_of stdout stderr now reason d → outstanding d now = true →
    d ∈ retry_hints reason exhausted headers now) as Hin.
  { intros d (r' & k & v & Hr & Hkv & Hd & Hreset) Ho. assert (r' = r) as -> by congruence.
    unfold retry_hints. apply list_elem_of_In, filter_In. split; [| done].
    apply list_elem_of_In, list_elem_of_omap. exists (k, v). split; [| done].
    apply list_elem_of_In, filter_In. split; [by apply list_elem_of_In |].
    destruct (eq_ignore_ascii_case k "x-ratelimit-reset"); [| by rewrite orb_true_r].
    destruct (Hreset eq_refl) as [-> | Hex].
    - rewrite (bool_decide_eq_true_2 (PrimaryRateLimit = PrimaryRateLimit ∨ _)) by auto. by rewrite orb_true_r.
    - unfold exhausted, headers. by rewrite Hex. }
  destruct (latest (retry_hints reason exhausted headers now)) as [d|] eqn:El; simpl.
  - apply latest_spec in El as [Hd Hall]. apply retry_hints_in_utc in Hd as [Hu Ho]; [| done].
    split_and!; try done; [intros x Hx Hox; by apply Hall, Hin | by intros [|]].
  - destruct (retry_hints reason exhausted headers now) as [|h l] eqn:Eh; [| done].
    split_and!; try done.
    + by apply after_in_utc.
    + by apply after_outstanding.
    + intros x Hx Hox. specialize (Hin x Hx Hox). set_solver.
    + by intros [|].
Qed.
End classified.

(** ** Requests and the budget *)
Section requests.
Context `{Chrono, !ChronoLaws _, JsonReader}.

Ltac all_calls := repeat (apply Forall_cons_2; [by simpl; auto |]); by apply Forall_nil_2.
Definition clock_in_utc (clock : request_clock) : Prop :=
  in_utc (asked clock) = true ∧ in_utc (classified clock) = true ∧ in_utc (reported clock) = true.

(** A state after a budget call and the error that came with it: the error was
    refused by [check], or reported with [failure], or is no wait. *)
Definition settled_with (clock : request_clock) (s s' : polling_state) (e : option github_error) : Prop :=
  ∃ calls, s' = budget_run calls s ∧
    Forall (λ '(t, call), (t = asked clock ∨ t = reported clock) ∧ call_typed call) calls ∧
    ∀ wait, e = Some (Throttled wait) → held (gw_next_retry_at wait) s'.

Lemma check_settled clock s s1 wait : check (asked clock) s = (s1, Some wait) →
  settled_with clock s s1 (Some (Throttled wait)).
Proof.
  intros Hc. exists [(asked clock, CheckQuota)]. cbn [budget_run foldl budget_handle]. rewrite Hc. split; [done |].
  split; [all_calls |]. intros w [= <-]. unfold check in Hc.
  injection Hc as <- Hw. set (s1 := retain_quota_wait _ s) in *. clearbody s1.
  destruct (next_retry_at s1) as [d|] eqn:E; [| done]. destruct (outstanding d _); [| done].
  injection Hw as <-. exists d. done.
Qed.
Lemma failure_held wait now s : held (gw_next_retry_at wait) (failure (Throttled wait) now s).1.
Proof.
  rewrite failure_eq. apply retain_held. cbn [fst].
  destruct (extend_reaches (gw_reason wait) (failure_deadline wait now s) (with_failures (failures_after wait s) s))
    as (c & Hc & Hle).
  exists c. split; [done |]. unfold failure_deadline in Hle. repeat case_match; repeat case_bool_decide; lia.
Qed.
Lemma failure_settled clock s s1 e : check (asked clock) s = (s1, None) → call_typed (Failure e) →
  settled_with clock s (failure e (reported clock) s1).1 (Some e).
Proof.
  intros Hc He. exists [(asked clock, CheckQuota); (reported clock, Failure e)].
  cbn [budget_run foldl budget_handle]. rewrite Hc. split; [done |]. split; [all_calls |].
  intros wait [= ->]. apply failure_held.
Qed.
Lemma asked_settled clock s s1 e : check (asked clock) s = (s1, None) →
  (∀ wait, e ≠ Some (Throttled wait)) → settled_with clock s s1 e.
Proof.
  intros Hc He. exists [(asked clock, CheckQuota)]. cbn [budget_run foldl budget_handle]. rewrite Hc.
  split; [done |]. split; [all_calls |]. intros wait ->. by destruct (He wait).
Qed.

(** What [gh_output] classifies is a wait for an instant. *)
Lemma classified_typed request now e : in_utc now = true →
  gh_output request now = inl e → call_typed (Failure e).
Proof.
  intros Hnow. unfold gh_output. destruct (gh_outcome request) as [[] out err|m]; [done | | by intros [= <-]].
  destruct (classify_failure out err now) as [w|] eqn:E; intros [= <-]; [| done].
  by eapply classify_in_utc.
Qed.
Lemma decode_body_error stdout context e : decode_body stdout context = inl e → ∃ m, e = OtherError m.
Proof. unfold decode_body. repeat case_match; intros [= <-]; eauto. Qed.
Lemma gh_json_typed request now e : in_utc now = true → gh_json request now = inl e → call_typed (Failure e).
Proof.
  intros Hnow. unfold gh_json. destruct (gh_output request now) as [e'|out] eqn:E.
  - intros [= <-]. by eapply classified_typed.
  - intros Hd. by apply decode_body_error in Hd as [m ->].
Qed.
Lemma gh_run_typed request now e : in_utc now = true → gh_run request now = inl e → call_typed (Failure e).
Proof.
  intros Hnow. unfold gh_run. destruct (gh_output request now) as [e'|out] eqn:E; [| done].
  intros [= <-]. by eapply classified_typed.
Qed.
Lemma guarded_settled {A} (request : github_error + A) clock s s' answer :
  (∀ e, request = inl e → call_typed (Failure e)) →
  guarded request clock s = (s', answer) → settled_with clock s s' (error_of answer).
Proof.
  intros Htyped. unfold guarded. destruct (check (asked clock) s) as [s1 [w|]] eqn:E.
  { intros [= <- <-]. by apply check_settled. }
  destruct request as [e|a]; intros [= <- <-].
  - apply failure_settled; [done | by apply Htyped].
  - by apply asked_settled.
Qed.
Lemma graphql_settled variables request clock s s' answer : clock_in_utc clock →
  graphql_json variables request clock s = (s', answer) → settled_with clock s s' (error_of answer).
Proof.
  intros (_ & Hc & _). unfold graphql_json. destruct (check (asked clock) s) as [s1 [w|]] eqn:E.
  { intros [= <- <-]. by apply check_settled. }
  destruct (as_object variables) as [members|]; [| intros [= <- <-]; by apply asked_settled].
  destruct (negb _); [intros [= <- <-]; by apply asked_settled |].
  destruct (gh_output request _) as [e|out] eqn:Eo.
  { intros [= <- <-]. apply failure_settled; [done | by eapply classified_typed]. }
  unfold graphql_answer. destruct (decode_body out _) as [e|value] eqn:Ed.
  { intros [= <- <-]. apply decode_body_error in Ed as [m ->]. by apply asked_settled. }
  destruct (graphql_envelope_has_errors value).
  { destruct (classify_failure out "" _) as [w|] eqn:Ew; intros [= <- <-]; [| by apply asked_settled].
    apply (failure_settled clock s s1 (Throttled w)); [done |]. by eapply classify_in_utc. }
  destruct (pointer _ value); [| intros [= <- <-]; by apply asked_settled].
  intros Hobs. exists [(asked clock, CheckQuota); (reported clock, Observe value)].
  cbn [budget_run foldl budget_handle]. rewrite E. cbn [fst].
  destruct (observe_json value (reported clock) s1) as [s2 [u|m]]; injection Hobs as <- <-;
    (split; [done |]; split; [all_calls | done]).
Qed.
Lemma call_settled call clock s s' e : clock_in_utc clock →
  call_github call clock s = (s', e) → settled_with clock s s' e.
Proof.
  intros Hclock. pose proof Hclock as (_ & Hc & _). destruct call as [r|r|v r]; simpl.
  - unfold gh_json_guarded. destruct (guarded _ _ s) as [s1 a] eqn:E. intros [= <- <-].
    eapply guarded_settled; [| exact E]. intros e'. by apply gh_json_typed.
  - unfold gh_run_guarded. destruct (guarded _ _ s) as [s1 a] eqn:E. intros [= <- <-].
    eapply guarded_settled; [| exact E]. intros e'. by apply gh_run_typed.
  - destruct (graphql_json v r clock s) as [s1 a] eqn:E. intros [= <- <-]. by eapply graphql_settled.
Qed.

(** A refused request makes no use of its process. *)
Lemma call_refused call clock s s' wait : check (asked clock) s = (s', Some wait) →
  call_github call clock s = (s', Some (Throttled wait)).
Proof.
  intros Hc. destruct call as [r|r|v r]; simpl; unfold gh_json_guarded, gh_run_guarded, guarded, graphql_json;
    by rewrite Hc.
Qed.

(** C31: throttling stops the Factory: once a request was answered with a wait, by GitHub or by
    the budget, then whatever the tasks that share the budget do until that deadline, every
    further request before it is answered with a wait at least as long, whatever its
    process would have returned. *)
Theorem throttling_stops_requests call clock s s1 wait calls call' clock' :
  polling_inv s → clock_in_utc clock →
  call_github call clock s = (s1, Some (Throttled wait)) →
  Forall (λ '(t, c), in_utc t = true ∧ call_typed c ∧ outstanding (gw_next_retry_at wait) t = true) calls →
  outstanding (gw_next_retry_at wait) (asked clock') = true →
  ∃ s2 wait', call_github call' clock' (budget_run calls s1) = (s2, Some (Throttled wait')) ∧
    (gw_next_retry_at wait ≤ gw_next_retry_at wait')%Z.
Proof.
  intros Hs Hclock Hcall Hcalls Hout. apply call_settled in Hcall as (before & -> & Hbefore & Hheld); [| done].
  assert (polling_inv (budget_run before s)) as Hs1.
  { apply budget_run_inv; [done |]. eapply Forall_impl; [exact Hbefore |]. destruct Hclock as (? & _ & ?).
    by intros [t c] [[-> | ->] ?]. }
  destruct (waits_are_kept _ _ calls (asked clock') Hs1 (Hheld _ eq_refl) Hcalls Hout) as (wait' & Hc & Hle).
  destruct (check (asked clock') _) as [s2 answer] eqn:E. simpl in Hc. subst answer.
  exists s2, wait'. split; [by apply call_refused | done].
Qed.
End requests.

(** ** Printed preambles are read back *)
Section preambles.

Record preamble := Preamble { pm_line : string; pm_headers : list (string * string) }.
Definition crlf : string := carriage_return +:+ newline.
Definition header_text (h : string * string) : string := h.1 +:+ ": " +:+ h.2.
Definition render_line (line : string) (rest : string) : string := line +:+ carriage_return +:+ String "010"%char rest.
Definition render_headers (hs : list (string * string)) (rest : string) : string :=
  foldr (λ h, render_line (header_text h)) (render_line "" rest) hs.
Definition render_preamble (p : preamble) (rest : string) : string :=
  render_line (pm_line p) (render_headers (pm_headers p) rest).
Definition render_preambles (ps : list preamble) (body : string) : string := foldr render_preamble body ps.

(** What one line and one preamble cost. *)
Definition line_cost (line : string) : Z := (str_len line + 2)%Z.
Fixpoint headers_cost (hs : list (string * string)) : Z :=
  match hs with [] => line_cost "" | h :: hs => (line_cost (header_text h) + headers_cost hs)%Z end.
Definition preamble_cost (p : preamble) : Z := (line_cost (pm_line p) + headers_cost (pm_headers p))%Z.
Definition preamble_lines (p : preamble) : nat := length (pm_headers p) + 2.
Definition preambles_cost (ps : list preamble) : Z := foldr (λ p n, preamble_cost p + n)%Z 0%Z ps.
Definition total_lines (ps : list preamble) : nat := foldr (λ p n, preamble_lines p + n) 0 ps.

Definition clean_line (line : string) : Prop := utf8 line = true ∧ all_bytes (λ z, negb (z =? 10)%Z) line = true.
Definition header_clean (h : string * string) : Prop :=
  h.1 ≠ "" ∧ all_bytes (λ z, negb (z =? 58)%Z) h.1 = true ∧ clean_line (header_text h).
Definition preamble_clean (code : Z) (p : preamble) : Prop :=
  clean_line (pm_line p) ∧ starts_with "HTTP/" (pm_line p) = true ∧ status_code_of (pm_line p) = Ok code ∧
  Forall header_clean (pm_headers p).
Definition kept_headers (hs : list (string * string)) : list (string * string) :=
  omap (λ h, if existsb (eq_ignore_ascii_case h.1) relevant_headers then Some (h.1, trim h.2) else None) hs.

Lemma take_line_newline line rest : ∀ n, all_bytes (λ z, negb (z =? 10)%Z) line = true →
  String.length line < n → take_line n (line +:+ String "010"%char rest) = Some (line, rest).
Proof.
  induction line as [|a line IH]; intros [|n] Hl Hn; simpl in *; try lia; [done |].
  unfold all_bytes in Hl. simpl in Hl. apply andb_true_iff in Hl as [Ha Hl].
  destruct (Ascii.eqb a "010") eqn:E; [by apply Ascii.eqb_eq in E as -> |].
  by rewrite IH by (done || lia).
Qed.

Lemma line_text_cr line : line_text (line +:+ carriage_return) = line.
Proof. unfold line_text. by rewrite strip_suffix_app. Qed.

Lemma header_line_render n line rest total : clean_line line → (0 ≤ total)%Z →
  (total + line_cost line ≤ max_header_bytes)%Z →
  header_line (S n) (render_line line rest) total = Ok (n, line, rest, total + line_cost line)%Z.
Proof.
  intros [Hu Hl] Htotal Hcost. unfold header_line, render_line, line_cost in *.
  pose proof (str_len_app line carriage_return) as Hlen. rewrite <- str_app_assoc, take_line_newline.
  - rewrite line_text_cr, Hu, Hlen. simpl. do 2 f_equal. unfold str_len. simpl. lia.
  - by rewrite all_bytes_app, Hl.
  - unfold str_len in *. simpl in *. lia.
Qed.

Lemma split_once_colon name rest : all_bytes (λ z, negb (z =? 58)%Z) name = true →
  split_once ":"%char (name +:+ String ":" rest) = Some (name, rest).
Proof.
  unfold all_bytes. induction name as [|a name IH]; simpl; [done |]. intros [Ha Hn]%andb_true_iff.
  destruct (Ascii.eqb a ":") eqn:E; [by apply Ascii.eqb_eq in E as -> |]. by rewrite IH.
Qed.
Lemma trim_space v : trim (" " +:+ v) = trim v.
Proof. done. Qed.

Lemma header_of_render h : header_clean h →
  header_of (header_text h) = Ok (if existsb (eq_ignore_ascii_case h.1) relevant_headers
                                  then [(h.1, trim h.2)] else []) ∧ is_empty (header_text h) = false.
Proof.
  destruct h as [name value]. intros (Hne & Hcolon & _). cbn [fst snd] in *. split.
  - unfold header_of, header_text. cbn [fst snd].
    assert (name +:+ ": " +:+ value = name +:+ String ":" (" " +:+ value)) as -> by done.
    rewrite split_once_colon by done. destruct name; [done |]. by rewrite trim_space.
  - by destruct name.
Qed.

Lemma headers_cost_pos hs : (0 ≤ headers_cost hs)%Z.
Proof.
  induction hs as [|h hs IH]; [done |]. pose proof (str_len_nonneg (header_text h)).
  cbn [headers_cost]. unfold line_cost at 1. lia.
Qed.
Lemma header_loop_render hs rest : ∀ n total headers, Forall header_clean hs → (0 ≤ total)%Z →
  (total + headers_cost hs ≤ max_header_bytes)%Z →
  header_loop (n + S (length hs)) (render_headers hs rest) total headers =
    Ok (n, rest, total + headers_cost hs,
        headers ++ kept_headers hs)%Z.
Proof.
  induction hs as [|h hs IH]; intros n total headers Hclean Htotal Hcost; simpl length.
  - rewrite Nat.add_comm. cbn [header_loop Nat.add render_headers foldr headers_cost] in *.
    rewrite header_line_render by done. simpl. by rewrite app_nil_r.
  - apply Forall_cons in Hclean as [Hh Hclean]. rewrite Nat.add_succ_r.
    cbn [header_loop render_headers foldr headers_cost] in *.
    pose proof (headers_cost_pos hs) as Hpos.
    destruct (header_of_render h Hh) as [Hof Hne]. destruct Hh as (_ & _ & Hline).
    pose proof (str_len_nonneg (header_text h)) as Hlen.
    rewrite Nat.add_succ_r, header_line_render by (done || lia). cbn [mbind result_bind].
    rewrite Hne, Hof. cbn [mbind result_bind]. rewrite <- Nat.add_succ_r.
    fold (render_headers hs rest). rewrite IH; [| done | unfold line_cost; lia | lia].
    f_equal. f_equal; [f_equal; lia |]. unfold kept_headers. rewrite <- app_assoc. cbn [omap list_omap].
    by destruct (existsb (eq_ignore_ascii_case h.1) relevant_headers).
Qed.

Lemma trim_ascii_start_http s : starts_with "HTTP/" s = true → trim_ascii_start s = s.
Proof. intros (r & ->)%starts_with_spec. done. Qed.
Lemma render_preambles_http ps body code : Forall (preamble_clean code) ps → ps ≠ [] →
  starts_with "HTTP/" (render_preambles ps body) = true.
Proof.
  intros Hps Hne. destruct ps as [|p ps]; [done |]. apply Forall_cons in Hps as [(_ & Hh & _) _].
  apply starts_with_spec in Hh as (r & Hr). simpl. unfold render_preamble, render_line. rewrite Hr.
  apply starts_with_spec. rewrite str_app_assoc. eauto.
Qed.

Lemma preamble_loop_render code body ps : ∀ blocks n total r,
  Forall (preamble_clean code) ps → starts_with "HTTP/" body = false → trim_ascii_start body = body →
  length ps ≤ blocks → (0 ≤ total)%Z → (total + preambles_cost ps ≤ max_header_bytes)%Z →
  (ps = [] → rs_body r = body) →
  preamble_loop blocks (n + total_lines ps) (render_preambles ps body) total r =
    Ok (Response body (if ps is [] then rs_status r else Some code)
          (rs_headers r ++ kept_headers (concat (pm_headers <$> ps)))).
Proof.
  induction ps as [|p ps IH]; intros blocks n total r Hps Hbody Htrim Hblocks Htotal Hcost Hr.
  { destruct r as [b st hs]. specialize (Hr eq_refl). simpl in Hr. subst b.
    destruct blocks; simpl; rewrite Hbody; simpl; by rewrite app_nil_r. }
  pose proof (render_preambles_http (p :: ps) body code Hps ltac:(done)) as Hhttp.
  pose proof Hps as [(Hline & _ & Hstatus & Hheaders) Hrest]%Forall_cons.
  destruct blocks as [|blocks]; [simpl in Hblocks; lia |].
  cbn [preamble_loop]. rewrite Hhttp. cbn [negb].
  cbn [total_lines preambles_cost foldr render_preambles] in *.
  fold (total_lines ps) (preambles_cost ps) (render_preambles ps body) in *.
  assert (0 ≤ preambles_cost ps)%Z as Hpos.
  { clear. induction ps as [|q ps IH]; [done |]. cbn [preambles_cost foldr]. fold (preambles_cost ps).
    unfold preamble_cost, line_cost at 1. pose proof (headers_cost_pos (pm_headers q)).
    pose proof (str_len_nonneg (pm_line q)). lia. }
  unfold preamble_cost in Hcost. pose proof (headers_cost_pos (pm_headers p)) as Hhc.
  pose proof (str_len_nonneg (pm_line p)) as Hlc. unfold render_preamble, preamble_lines.
  replace (n + (length (pm_headers p) + 2 + total_lines ps))
    with (S ((n + total_lines ps) + S (length (pm_headers p)))) by lia.
  assert (0 ≤ total + line_cost (pm_line p))%Z as Ht1 by (unfold line_cost; lia).
  rewrite header_line_render by (done || lia). cbn [mbind result_bind]. rewrite Hstatus. cbn [mbind result_bind].
  rewrite header_loop_render by (done || lia). cbn [mbind result_bind].
  assert (trim_ascii_start (render_preambles ps body) = render_preambles ps body) as ->.
  { destruct ps as [|q ps]; [done |]. apply trim_ascii_start_http. by eapply render_preambles_http. }
  rewrite IH; [| done | done | done | simpl in Hblocks; lia | lia | lia | by intros ->].
  cbn [rs_headers rs_status fmap list_fmap concat]. unfold kept_headers. rewrite omap_app, app_assoc.
  by destruct ps.
Qed.

(** The preambles of a response are stripped exactly: a body behind any sequence of
    well-formed HTTP preambles within the bounds is returned as it is, with the status of
    the last block and the relevant headers of all of them, in their order. *)
Theorem preambles_are_stripped code body ps :
  Forall (preamble_clean code) ps → starts_with "HTTP/" body = false → trim_ascii_start body = body →
  length ps ≤ max_header_blocks → total_lines ps ≤ max_header_lines → (preambles_cost ps ≤ max_header_bytes)%Z →
  split_headers (render_preambles ps body) =
    Ok (Response body (if ps is [] then None else Some code) (kept_headers (concat (pm_headers <$> ps)))).
Proof.
  intros Hps Hbody Htrim Hblocks Hlines Hcost. unfold split_headers.
  assert (trim_ascii_start (render_preambles ps body) = render_preambles ps body) as ->.
  { destruct ps as [|q ps]; [done |]. apply trim_ascii_start_http. by eapply render_preambles_http. }
  replace max_header_lines with ((max_header_lines - total_lines ps) + total_lines ps) by lia.
  rewrite (preamble_loop_render code) by (done || by intros ->). done.
Qed.
End preambles.

(** ** Witnesses *)
Section witnesses.
#[local] Existing Instance sample_chrono.
(** A reader that knows the body of one error envelope. *)
#[local] Instance sample_reader : JsonReader := λ s,
  if seqb s "{}" then Some (JObj []) else None.

Definition sample_preamble : preamble :=
  Preamble "HTTP/2 403 Forbidden" [("Server", "github.com"); ("Retry-After", " 120 ")].
Definition sample_answer : string := render_preambles [sample_preamble] "You have exceeded a secondary rate limit".
Definition sample_clock (t : Z) : request_clock := RequestClock (seconds t) (seconds t) (seconds t).

Lemma preambles_are_stripped_witness :
  split_headers (render_preambles [sample_preamble; sample_preamble] "{}") =
    Ok (Response "{}" (Some 403%Z) [("Retry-After", "120"); ("Retry-After", "120")]).
Proof.
  rewrite (preambles_are_stripped 403); try reflexivity; [| vm_compute; lia | vm_compute; lia | vm_compute; discriminate].
  assert (preamble_clean 403 sample_preamble) as Hclean.
  { split_and!; [by split | reflexivity | reflexivity |].
    repeat (apply Forall_cons_2; [split_and!; [discriminate | reflexivity | by split] |]).
    apply Forall_nil_2. }
  by repeat constructor.
Defined.

Lemma classified_waits_are_sufficient_witness :
  ∃ wait, classify_failure sample_answer "" (seconds 1000) = Some wait ∧
    gw_reason wait = SecondaryRateLimit ∧ (seconds 1120 ≤ gw_next_retry_at wait)%Z.
Proof.
  destruct (classify_failure sample_answer "" (seconds 1000)) as [wait|] eqn:E; [| vm_compute in E; discriminate].
  exists wait. split; [done |]. split; [vm_compute in E; by injection E as <- |].
  assert (in_utc (seconds 1000) = true) as Hnow by reflexivity.
  destruct (classified_waits_are_sufficient sample_answer "" (seconds 1000) wait Hnow E) as (_ & _ & _ & Hhints & _).
  apply Hhints; [| reflexivity].
  destruct (split_headers sample_answer) as [r|] eqn:Er; [| vm_compute in Er; discriminate].
  exists r, "Retry-After", "120". split_and!; [done | | reflexivity | discriminate].
  vm_compute in Er. injection Er as <-. set_solver.
Defined.

Lemma throttling_stops_requests_witness :
  let request := GhRequest "gh api" (Exited false sample_answer "") in
  let '(s, e) := call_github (JsonCall request) (sample_clock 1000) polling_default in
  ∃ s2 wait', call_github (RunCall (GhRequest "gh label" (Exited true "" ""))) (sample_clock 1119)
    (budget_run [(seconds 1100, Success)] s) = (s2, Some (Throttled wait')) ∧
    (seconds 1120 ≤ gw_next_retry_at wait')%Z.
Proof.
  intros request. destruct (call_github (JsonCall request) (sample_clock 1000) polling_default) as [s e] eqn:E.
  assert (e = Some (Throttled (GitHubWait SecondaryRateLimit (seconds 1120)))) as ->
    by (vm_compute in E; by injection E as _ <-).
  apply (throttling_stops_requests (JsonCall request) (sample_clock 1000) polling_default s
    (GitHubWait SecondaryRateLimit (seconds 1120)) [(seconds 1100, Success)]).
  - apply default_inv.
  - repeat split.
  - exact E.
  - repeat constructor.
  - reflexivity.
Defined.
End witnesses.
