(* ===== verification/FactoryController.v ===== *)
(** * Factory controllers (crates/crony-store/src/factory_controller.rs)

    A controller is a watcher of one GitHub project and repository: it connects
    under a connection epoch ([configure_factory_controller]), reports with
    heartbeats ([heartbeat_factory_controller]), and is paused, resumed or asked
    to reconcile by people ([control_factory_controller]).  The row keeps the
    polling state of the watcher, so that a restart does not forget a wait. *)
From S2P Require Import Prelude Text Json Domain Planning FactoryPolicy Store FactoryItems Polling.

(** ** Data *)
Record controller_source := ControllerSource {
  cs_project_owner : string; cs_project_number : Z; cs_repository_owner : string; cs_repository_name : string }.
#[global] Instance controller_source_eq : EqDecision controller_source.
Proof. solve_decision. Defined.

(** The columns of factory_controllers; [fc_polling] is [None] while the column
    has its default, the empty object. *)
Record controller_row := ControllerRow {
  fc_corp_id : uuid; fc_service_actor_id : uuid; fc_configured_by : uuid;
  fc_source : controller_source;
  fc_desired_state : string;
  fc_version : Z;
  fc_connection_epoch : uuid;
  fc_lease_expires_at : timestamp; fc_last_heartbeat_at : timestamp;
  fc_reconcile_generation : Z; fc_completed_generation : Z;
  fc_active_work_item_id : option uuid;
  fc_reconcile_started_at : option timestamp; fc_last_reconciled_at : option timestamp;
  fc_last_reconcile_result : option string; fc_last_error : option string;
  fc_polling : option polling_state;
}.
Record controller_operation := ControllerOperation {
  co_controller_id : uuid; co_actor_id : uuid; co_operation : string; co_request : json; co_resulting_version : Z }.

Record controller_db := ControllerDb {
  cd_items : gmap uuid (factory_work_item * uuid);
  cd_controllers : gmap uuid controller_row;
  cd_operations : gmap (uuid * string) controller_operation;
  cd_log : event_log;
}.
#[global] Instance controller_db_log : HasLog controller_db := {|
  get_log := cd_log;
  set_log l db := ControllerDb (cd_items db) (cd_controllers db) (cd_operations db) l;
|}.
#[global] Instance controller_db_log_laws : HasLogLaws controller_db.
Proof. by split. Qed.
Definition set_controllers (f : gmap uuid controller_row → gmap uuid controller_row) (db : controller_db) :
    controller_db := ControllerDb (cd_items db) (f (cd_controllers db)) (cd_operations db) (cd_log db).
Definition set_controller_operations
    (f : gmap (uuid * string) controller_operation → gmap (uuid * string) controller_operation)
    (db : controller_db) : controller_db :=
  ControllerDb (cd_items db) (cd_controllers db) (f (cd_operations db)) (cd_log db).

(** The answer, [FactoryController] with its derived status. *)
Record factory_controller := FactoryController {
  ctl_id : uuid; ctl_row : controller_row; ctl_status : string; ctl_polling : polling_state }.
Record controller_outcome := FactoryControllerOutcome {
  cot_controller : factory_controller; cot_event : option new_event; cot_replayed : bool }.

Record configure_input := ConfigureFactoryControllerInput {
  cf_corp_id : uuid; cf_actor_id : uuid; cf_controller_id : uuid; cf_source : controller_source;
  cf_connection_epoch : uuid; cf_lease_seconds : Z; cf_idempotency_key : string }.
Record heartbeat_input := HeartbeatFactoryControllerInput {
  hb_corp_id : uuid; hb_actor_id : uuid; hb_controller_id : uuid; hb_connection_epoch : uuid;
  hb_lease_seconds : Z; hb_active_work_item_id : option uuid;
  hb_completed_reconcile_generation : option Z; hb_reconcile_result : option string;
  hb_error : option string; hb_polling : option polling_state }.
Record control_input := ControlFactoryControllerInput {
  ct_corp_id : uuid; ct_actor_id : uuid; ct_controller_id : uuid; ct_expected_version : Z;
  ct_action : string; ct_idempotency_key : string }.

(** [Utc::now()] and a fresh UUID. *)
Record controller_env := ControllerEnv { cv_now : timestamp; cv_event : uuid }.

Section controllers.
Context `{Chrono, Serde}.

(** ** Checks of the input *)
Definition validate_controller_lease_seconds (value : Z) : result unit :=
  bail_if (negb (in_range 10 300 value)) "factory controller lease seconds must be between 10 and 300".
Definition controller_name_char (c : Z) : bool := is_ascii_alphanumeric c || one_of "-_." c.
Definition validate_component (value label : string) : result unit :=
  bail_if (is_empty (trim value) || (100 <? str_len value)%Z || negb (all_chars controller_name_char value))
    (label +:+ " is invalid").
Definition validate_controller_key (value : string) : result unit :=
  bail_if (is_empty (trim value) || (256 <? str_len value)%Z) "factory controller idempotency key is invalid".
Definition sanitize_error (value : string) : result string :=
  let sanitized := join " " (split_whitespace value) in
  bail_if (2000 <? str_len sanitized)%Z "factory controller error exceeds 2000 bytes";;
  Ok sanitized.

(** ** Polling states *)
Definition days (n : Z) : Z := minutes (n * 24 * 60).
Definition out_of_range : string := "GraphQL observation timestamp is out of range".
Definition validate_polling_update (prior next : polling_state) (now : timestamp) : result unit :=
  bail_if (xorb (is_some (next_retry_at next)) (is_some (retry_reason next)) || (32 <? consecutive_failures next)%Z)
    "invalid bounded factory polling state";;
  bail_if match next_retry_at prior with
          | Some required => (now <? required)%Z
              && match next_retry_at next with Some proposed => (proposed <? required)%Z | None => true end
          | None => false
          end "factory polling update cannot shorten an outstanding retry wait";;
  match graphql next with
  | None => Ok tt
  | Some quota =>
      latest_reset ← with_context (checked_add_signed (gq_observed_at quota) (days 7)) out_of_range;
      earliest_reset ← with_context (checked_add_signed (gq_observed_at quota) (- minutes 5)) out_of_range;
      bail_if ((gq_limit quota =? 0)%Z || (1000000000 <? gq_limit quota)%Z
               || (gq_limit quota <? gq_remaining quota)%Z || (1000000000 <? gq_cost quota)%Z
               || (now + minutes 5 <? gq_observed_at quota)%Z || (latest_reset <? gq_reset_at quota)%Z
               || (gq_reset_at quota <? earliest_reset)%Z) "invalid GraphQL quota observation";;
      bail_if match graphql prior with
              | Some old => (gq_observed_at quota <? gq_observed_at old)%Z
              | None => false
              end "GraphQL quota observations cannot move backwards"
  end.

Definition retry_reason_as_str (r : factory_retry_reason) : string :=
  match r with
  | GraphqlQuota => "graphql_quota" | PrimaryRateLimit => "primary_rate_limit"
  | SecondaryRateLimit => "secondary_rate_limit" | GithubUnavailable => "github_unavailable"
  end.
Definition quota_json (q : github_graphql_quota) : json :=
  json_object [("limit", JInt (gq_limit q)); ("remaining", JInt (gq_remaining q)); ("cost", JInt (gq_cost q));
    ("reset_at", JStr (timestamp_rfc3339 (gq_reset_at q)));
    ("observed_at", JStr (timestamp_rfc3339 (gq_observed_at q)))].
Definition polling_json (s : polling_state) : json :=
  json_object [("next_retry_at", json_opt_str (timestamp_rfc3339 <$> next_retry_at s));
    ("retry_reason", json_opt_str (retry_reason_as_str <$> retry_reason s));
    ("consecutive_failures", JInt (consecutive_failures s));
    ("graphql", match graphql s with Some q => quota_json q | None => JNull end)].

(** ** Reading a row *)
Definition stored_polling (row : controller_row) : polling_state := default polling_default (fc_polling row).
Definition controller_status (needs_decision : bool) (now : timestamp) (row : controller_row) : string :=
  if (fc_lease_expires_at row <=? now)%Z then "offline"
  else if needs_decision then "needs_decision"
  else if match next_retry_at (stored_polling row) with Some retry => (now <? retry)%Z | None => false end
  then "backing_off"
  else if bool_decide (fc_last_reconcile_result row = Some "failed") || is_some (fc_last_error row) then "blocked"
  else if is_some (fc_active_work_item_id row) then "working" else "watching".
Definition map_factory_controller (now : timestamp) (id : uuid) (row : controller_row) : factory_controller :=
  FactoryController id row (controller_status false now row) (stored_polling row).

Definition controller_of (corp_id controller_id : uuid) (db : controller_db) : option controller_row :=
  row ← cd_controllers db !! controller_id;
  if (fc_corp_id row =? corp_id)%N then Some row else None.

Definition replay_operation_tx (now : timestamp) (corp_id : uuid) (key operation : string) (request : json) :
    txn controller_db (option factory_controller) :=
  found ← gets (λ db, cd_operations db !! (corp_id, key));
  match found with
  | None => mret None
  | Some op =>
      lift (bail_if (negb (seqb (co_operation op) operation) || negb (json_eqb (co_request op) request))
              "factory controller idempotency key was reused with another request");;
      row ← fetch (controller_of corp_id (co_controller_id op)) "factory controller operation lost its controller";
      mret (Some (map_factory_controller now (co_controller_id op) row))
  end.
Definition record_controller_operation_tx (corp_id : uuid) (key : string) (op : controller_operation) :
    txn controller_db unit :=
  taken ← gets (λ db, is_some (cd_operations db !! (corp_id, key)));
  lift (bail_if taken "duplicate key value violates unique constraint");;
  modify (set_controller_operations <[(corp_id, key) := op]>).

(** The unique constraint on the source of a corp. *)
Definition source_taken (corp_id controller_id : uuid) (source : controller_source) (db : controller_db) : bool :=
  existsb (λ '(id, row), negb (id =? controller_id)%N && (fc_corp_id row =? corp_id)%N
             && bool_decide (fc_source row = source)) (map_to_list (cd_controllers db)).
Definition store_controller_tx (id : uuid) (row : controller_row) : txn controller_db unit :=
  taken ← gets (source_taken (fc_corp_id row) id (fc_source row));
  lift (bail_if taken "duplicate key value violates unique constraint");;
  modify (set_controllers <[id := row]>).

(** ** Connecting *)
Definition configure_request (input : configure_input) : json :=
  let s := cf_source input in
  json_object [("controller_id", JStr (uuid_to_string (cf_controller_id input)));
    ("source_project_owner", JStr (cs_project_owner s)); ("source_project_number", JInt (cs_project_number s));
    ("source_repository_owner", JStr (cs_repository_owner s)); ("source_repository_name", JStr (cs_repository_name s));
    ("connection_epoch", JStr (uuid_to_string (cf_connection_epoch input)));
    ("lease_seconds", JInt (cf_lease_seconds input))].
Definition validate_configure (input : configure_input) : result unit :=
  let s := cf_source input in
  validate_controller_lease_seconds (cf_lease_seconds input);;
  validate_component (cs_project_owner s) "source project owner";;
  validate_component (cs_repository_owner s) "source repository owner";;
  validate_component (cs_repository_name s) "source repository name";;
  validate_controller_key (cf_idempotency_key input);;
  bail_if (cs_project_number s <=? 0)%Z "source project number must be positive".

(** INSERT .. ON CONFLICT (id) DO UPDATE .. WHERE corp_id = EXCLUDED.corp_id *)
Definition configured_row (input : configure_input) (now : timestamp) (current : option controller_row) :
    result controller_row :=
  let expires := (now + seconds (cf_lease_seconds input))%Z in
  match current with
  | None =>
      Ok (ControllerRow (cf_corp_id input) (cf_actor_id input) (cf_actor_id input) (cf_source input) "running" 1
            (cf_connection_epoch input) expires now 0 0 None None None None None None)
  | Some row =>
      bail_if (negb (fc_corp_id row =? cf_corp_id input)%N) "factory controller id belongs to another Corp";;
      version ← next_version (fc_version row);
      Ok (ControllerRow (fc_corp_id row) (cf_actor_id input) (cf_actor_id input) (cf_source input)
            (fc_desired_state row) version (cf_connection_epoch input) expires now
            (fc_reconcile_generation row) (fc_completed_generation row) (fc_active_work_item_id row)
            (fc_reconcile_started_at row) (fc_last_reconciled_at row) (fc_last_reconcile_result row) None
            (fc_polling row))
  end.
Definition source_fields (s : controller_source) : list (string * json) :=
  [("source_project_owner", JStr (cs_project_owner s)); ("source_project_number", JInt (cs_project_number s));
   ("source_repository_owner", JStr (cs_repository_owner s)); ("source_repository_name", JStr (cs_repository_name s))].
Definition controller_event (corp actor : uuid) (row : controller_row) (event_type : string) (id : uuid)
    (key : string) (payload : json) : new_event :=
  at_version None (fc_version row)
    (new_event_of corp (Some actor) event_type "factory_controller" id
       ("factory-controller:" +:+ uuid_to_string id +:+ ":" +:+ key) payload).

Definition configure_factory_controller (env : controller_env) (input : configure_input) :
    txn controller_db controller_outcome :=
  let corp := cf_corp_id input in
  let id := cf_controller_id input in
  lift (validate_configure input);;
  let request := configure_request input in
  replayed ← replay_operation_tx (cv_now env) corp (cf_idempotency_key input) "configure" request;
  match replayed with
  | Some controller => mret (FactoryControllerOutcome controller None true)
  | None =>
      current ← gets (λ db, cd_controllers db !! id);
      row ← lift (configured_row input (cv_now env) current);
      store_controller_tx id row;;
      record_controller_operation_tx corp (cf_idempotency_key input)
        (ControllerOperation id (cf_actor_id input) "configure" request (fc_version row));;
      event ← append_event_tx
        (controller_event corp (cf_actor_id input) row "factory.controller_configured" id
           ("configure:" +:+ cf_idempotency_key input)
           (json_object ([("desired_state", JStr (fc_desired_state row))] ++ source_fields (fc_source row)
              ++ [("lease_expires_at", JStr (timestamp_rfc3339 (fc_lease_expires_at row)))])));
      mret (FactoryControllerOutcome (map_factory_controller (cv_now env) id row) event false)
  end.

(** ** Heartbeats *)
Definition item_belongs (corp_id item_id : uuid) (source : controller_source) (db : controller_db) : bool :=
  match cd_items db !! item_id with
  | Some (item, _) =>
      let s := fw_source item in
      (fw_corp_id item =? corp_id)%N && seqb (src_project_owner s) (cs_project_owner source)
      && (src_project_number s =? cs_project_number source)%Z
      && seqb (src_repository_owner s) (cs_repository_owner source)
      && seqb (src_repository_name s) (cs_repository_name source)
  | None => false
  end.
Definition check_heartbeat (input : heartbeat_input) (row : controller_row) (next_completed : Z) : result unit :=
  bail_if (negb (fc_service_actor_id row =? hb_actor_id input)%N)
    "factory controller heartbeat actor does not match its service identity";;
  bail_if (negb (fc_connection_epoch row =? hb_connection_epoch input)%N)
    "factory controller connection epoch is stale";;
  bail_if ((next_completed <? fc_completed_generation row)%Z || (fc_reconcile_generation row <? next_completed)%Z)
    "factory controller reconciliation completion is outside the authorized generation";;
  bail_if (is_some (hb_reconcile_result input) && negb (is_some (hb_completed_reconcile_generation input)))
    "factory controller reconcile result requires a completed generation".
Definition beaten_row (input : heartbeat_input) (row : controller_row) (now : timestamp) (next_completed : Z)
    (error : option string) (polling : polling_state) : controller_row :=
  let may_start := match next_retry_at polling with Some retry => (retry <=? now)%Z | None => true end in
  let started :=
    if (next_completed <? fc_reconcile_generation row)%Z && negb (is_some (fc_reconcile_started_at row))
       && seqb (fc_desired_state row) "running" && may_start then Some now
    else if (next_completed =? fc_reconcile_generation row)%Z then None
    else fc_reconcile_started_at row in
  let reconciled :=
    if (fc_completed_generation row <? next_completed)%Z || is_some (hb_reconcile_result input) then Some now
    else fc_last_reconciled_at row in
  ControllerRow (fc_corp_id row) (fc_service_actor_id row) (fc_configured_by row) (fc_source row)
    (fc_desired_state row) (fc_version row) (fc_connection_epoch row)
    (now + seconds (hb_lease_seconds input))%Z now (fc_reconcile_generation row) next_completed
    (hb_active_work_item_id input) started reconciled
    (if is_some (hb_reconcile_result input) then hb_reconcile_result input else fc_last_reconcile_result row)
    error (Some polling).
Definition status_changed (before after : controller_row) : bool :=
  negb (bool_decide (fc_active_work_item_id before = fc_active_work_item_id after))
  || negb (fc_completed_generation before =? fc_completed_generation after)%Z
  || negb (bool_decide (fc_last_reconcile_result before = fc_last_reconcile_result after))
  || negb (bool_decide (fc_last_error before = fc_last_error after))
  || negb (bool_decide (fc_polling before = fc_polling after)).
Definition status_payload (row : controller_row) : json :=
  json_object [("active_work_item_id", json_opt_str (uuid_to_string <$> fc_active_work_item_id row));
    ("completed_reconcile_generation", JInt (fc_completed_generation row));
    ("last_reconcile_result", json_opt_str (fc_last_reconcile_result row));
    ("last_error", json_opt_str (fc_last_error row)); ("polling", polling_json (stored_polling row))].

Definition heartbeat_factory_controller (env : controller_env) (input : heartbeat_input) :
    txn controller_db controller_outcome :=
  let corp := hb_corp_id input in
  let id := hb_controller_id input in
  let now := cv_now env in
  lift (validate_controller_lease_seconds (hb_lease_seconds input));;
  error ← lift (transpose sanitize_error (hb_error input));
  lift (bail_if match hb_reconcile_result input with
                | Some r => negb (seqb r "succeeded" || seqb r "failed")
                | None => false
                end "factory controller reconcile result must be succeeded or failed");;
  current ← fetch (controller_of corp id) "factory controller does not exist";
  let next_completed := default (fc_completed_generation current) (hb_completed_reconcile_generation input) in
  lift (check_heartbeat input current next_completed);;
  belongs ← gets (λ db, match hb_active_work_item_id input with
                        | Some item => item_belongs corp item (fc_source current) db
                        | None => true
                        end);
  lift (bail_if (negb belongs)
          "factory controller active work item does not belong to its Corp/Project/repository");;
  let prior := stored_polling current in
  let polling := default prior (hb_polling input) in
  lift (validate_polling_update prior polling now);;
  let row := beaten_row input current now next_completed error polling in
  modify (set_controllers <[id := row]>);;
  event ← (if status_changed current row then
             append_event_tx
               (controller_event corp (hb_actor_id input) row "factory.controller_status_changed" id
                  ("status:" +:+ uuid_to_string (cv_event env)) (status_payload row))
           else mret None);
  mret (FactoryControllerOutcome (map_factory_controller now id row) event false).

(** ** Control *)
Definition control_actions : list string := ["pause"; "resume"; "reconcile"].
Definition control_request (input : control_input) : json :=
  json_object [("controller_id", JStr (uuid_to_string (ct_controller_id input)));
    ("expected_version", JInt (ct_expected_version input)); ("action", JStr (ct_action input))].
Definition controlled_row (input : control_input) (row : controller_row) : result controller_row :=
  let action := ct_action input in
  let desired := if seqb action "pause" then "paused" else if seqb action "resume" then "running"
                 else fc_desired_state row in
  let reconcile := seqb action "resume" || seqb action "reconcile" in
  generation ← with_context (checked_i64 (fc_reconcile_generation row + (if reconcile then 1 else 0)))
                 "bigint out of range";
  version ← next_version (fc_version row);
  Ok (ControllerRow (fc_corp_id row) (fc_service_actor_id row) (fc_configured_by row) (fc_source row) desired
        version (fc_connection_epoch row) (fc_lease_expires_at row) (fc_last_heartbeat_at row) generation
        (fc_completed_generation row) (fc_active_work_item_id row)
        (if reconcile then None else fc_reconcile_started_at row) (fc_last_reconciled_at row)
        (fc_last_reconcile_result row) (if seqb desired "running" then None else fc_last_error row)
        (fc_polling row)).
Definition version_changed (expected current : Z) : string :=
  "factory controller version changed: expected " +:+ show_int expected +:+ ", current " +:+ show_int current.

Definition control_factory_controller (env : controller_env) (input : control_input) :
    txn controller_db controller_outcome :=
  let corp := ct_corp_id input in
  let id := ct_controller_id input in
  lift (validate_controller_key (ct_idempotency_key input));;
  lift (bail_if (negb (mem (ct_action input) control_actions)) "unknown factory controller control action");;
  let request := control_request input in
  replayed ← replay_operation_tx (cv_now env) corp (ct_idempotency_key input) (ct_action input) request;
  match replayed with
  | Some controller => mret (FactoryControllerOutcome controller None true)
  | None =>
      current ← fetch (controller_of corp id) "factory controller does not exist";
      lift (bail_if (negb (fc_version current =? ct_expected_version input)%Z)
              (version_changed (ct_expected_version input) (fc_version current)));;
      row ← lift (controlled_row input current);
      modify (set_controllers <[id := row]>);;
      record_controller_operation_tx corp (ct_idempotency_key input)
        (ControllerOperation id (ct_actor_id input) (ct_action input) request (fc_version row));;
      event ← append_event_tx
        (controller_event corp (ct_actor_id input) row ("factory.controller_" +:+ ct_action input) id
           (ct_action input +:+ ":" +:+ ct_idempotency_key input)
           (json_object [("desired_state", JStr (fc_desired_state row));
              ("reconcile_generation", JInt (fc_reconcile_generation row))]));
      mret (FactoryControllerOutcome (map_factory_controller (cv_now env) id row) event false)
  end.
End controllers.

(** ** Requests *)
Section requests.
Context `{Chrono, Serde}.

Inductive controller_call :=
| Configure (input : configure_input) | Heartbeat (input : heartbeat_input) | Control (input : control_input).
Definition controller_handle (env : controller_env) (call : controller_call) : txn controller_db controller_outcome :=
  match call with
  | Configure input => configure_factory_controller env input
  | Heartbeat input => heartbeat_factory_controller env input
  | Control input => control_factory_controller env input
  end.
Definition call_controller (call : controller_call) : uuid :=
  match call with
  | Configure input => cf_controller_id input
  | Heartbeat input => hb_controller_id input
  | Control input => ct_controller_id input
  end.
(** The idempotency key, the name and the recorded form of a request. *)
Definition call_operation (call : controller_call) : option (uuid * string * string * json) :=
  match call with
  | Configure input => Some (cf_corp_id input, cf_idempotency_key input, "configure", configure_request input)
  | Heartbeat _ => None
  | Control input => Some (ct_corp_id input, ct_idempotency_key input, ct_action input, control_request input)
  end.

(** What a request that is not a repeat makes of the row of its controller. *)
Inductive row_change (env : controller_env) (db : controller_db) :
    controller_call → option controller_row → controller_row → Prop :=
| change_configured input row :
    validate_configure input = Ok tt →
    configured_row input (cv_now env) (cd_controllers db !! cf_controller_id input) = Ok row →
    source_taken (fc_corp_id row) (cf_controller_id input) (fc_source row) db = false →
    row_change env db (Configure input) (cd_controllers db !! cf_controller_id input) row
| change_beaten input cur error polling next :
    controller_of (hb_corp_id input) (hb_controller_id input) db = Some cur →
    next = default (fc_completed_generation cur) (hb_completed_reconcile_generation input) →
    check_heartbeat input cur next = Ok tt →
    match hb_reconcile_result input with Some r => r = "succeeded" ∨ r = "failed" | None => True end →
    polling = default (stored_polling cur) (hb_polling input) →
    validate_polling_update (stored_polling cur) polling (cv_now env) = Ok tt →
    row_change env db (Heartbeat input) (Some cur) (beaten_row input cur (cv_now env) next error polling)
| change_controlled input cur row :
    controller_of (ct_corp_id input) (ct_controller_id input) db = Some cur →
    fc_version cur = ct_expected_version input → controlled_row input cur = Ok row →
    row_change env db (Control input) (Some cur) row.

Lemma replay_operation_ok now corp key operation request db found db' :
  replay_operation_tx now corp key operation request db = Ok (found, db') →
  db' = db ∧ match found with
  | None => cd_operations db !! (corp, key) = None
  | Some controller => ∃ op row, cd_operations db !! (corp, key) = Some op ∧ co_operation op = operation ∧
      co_request op = request ∧ controller_of corp (co_controller_id op) db = Some row ∧
      controller = map_factory_controller now (co_controller_id op) row
  end.
Proof.
  unfold replay_operation_tx, fetch. intros Hx. txn_inv.
  destruct (cd_operations db !! (corp, key)) as [op|] eqn:Hop; txn_inv; [| done].
  match goal with Hb : bail_if _ _ = Ok _ |- _ => apply bail_if_ok, orb_false_iff in Hb as [H1%negb_false_iff%seqb_eq H2%negb_false_iff%json_eqb_eq] end.
  match goal with Hw : with_context _ _ = Ok _ |- _ => apply with_context_ok in Hw end.
  split; [done |]. by do 2 eexists.
Qed.
Lemma append_event_keeps event db out db' : append_event_tx event db = Ok (out, db') →
  cd_controllers db' = cd_controllers db ∧ cd_operations db' = cd_operations db ∧ cd_items db' = cd_items db.
Proof. unfold append_event_tx. intros Hx. repeat case_match; injection Hx as <- <-; done. Qed.

Definition operation_recorded (call : controller_call) (row : controller_row) (db db' : controller_db) : Prop :=
  match call_operation call with
  | None => cd_operations db' = cd_operations db
  | Some (corp, key, operation, request) =>
      cd_operations db !! (corp, key) = None ∧
      ∃ actor, cd_operations db' = <[(corp, key) := ControllerOperation (call_controller call) actor operation
                                        request (fc_version row)]> (cd_operations db)
  end.
(** A request repeats a recorded one, or it changes one row. *)
Definition call_answered (env : controller_env) (call : controller_call) (db : controller_db)
    (out : controller_outcome) (db' : controller_db) : Prop :=
  (db' = db ∧ cot_replayed out = true ∧ ∃ corp key operation request op,
     call_operation call = Some (corp, key, operation, request) ∧ cd_operations db !! (corp, key) = Some op ∧
     co_operation op = operation ∧ co_request op = request) ∨
  (cot_replayed out = false ∧ ∃ old row, row_change env db call old row ∧
     cot_controller out = map_factory_controller (cv_now env) (call_controller call) row ∧
     cd_controllers db' = <[call_controller call := row]> (cd_controllers db) ∧
     cd_items db' = cd_items db ∧ operation_recorded call row db db').

Lemma record_controller_operation_ok corp key op db u db' : record_controller_operation_tx corp key op db = Ok (u, db') →
  cd_operations db !! (corp, key) = None ∧ db' = set_controller_operations <[(corp, key) := op]> db.
Proof.
  unfold record_controller_operation_tx. intros Hx. txn_inv. destruct (cd_operations db !! (corp, key)) eqn:E; [| done].
  match goal with Hb : bail_if _ _ = Ok _ |- _ => by apply bail_if_ok in Hb end.
Qed.

Ltac replay_case := match goal with
  | Hr : replay_operation_tx _ _ _ _ _ _ = Ok (?x, _) |- _ =>
      let Hop := fresh "Hop" in apply replay_operation_ok in Hr as [-> Hop]; destruct x as [controller|];
      [txn_inv; left; destruct Hop as (op & row & Hop & Hname & Hreq & _); split; [done |]; split; [done |];
       do 5 eexists; split; [done |]; done
      |]
  end.
Ltac event_case := match goal with
  | He : append_event_tx _ _ = Ok _ |- _ =>
      let H1 := fresh "Hc" in let H2 := fresh "Ho" in let H3 := fresh "Hi" in
      apply append_event_keeps in He as (H1 & H2 & H3)
  end.

Lemma handle_answered env call db out db' :
  controller_handle env call db = Ok (out, db') → call_answered env call db out db'.
Proof.
  destruct call as [input|input|input]; cbn [controller_handle].
  - unfold configure_factory_controller. intros Hx. txn_inv. replay_case. unfold store_controller_tx in Hx. txn_inv.
    match goal with Hr : record_controller_operation_tx _ _ _ _ = _ |- _ => apply record_controller_operation_ok in Hr as [Hfree ->] end.
    event_case. right. split; [done |]. do 2 eexists. split; [eapply change_configured; [done.. |] |].
    { match goal with Hb : bail_if (source_taken _ _ _ _) _ = _ |- _ => by apply bail_if_ok in Hb end. }
    split; [done |]. split; [by rewrite Hc |]. split; [by rewrite Hi |]. split; [exact Hfree |]. eexists. by rewrite Ho.
  - unfold heartbeat_factory_controller, fetch. intros Hx. txn_inv. right.
    match goal with Hw : with_context (controller_of _ _ _) _ = Ok ?cur |- _ => apply with_context_ok in Hw; rename cur into row end.
    match goal with He : (if status_changed ?r ?r' then _ else _) ?s = Ok (_, ?d) |- _ =>
      assert (cd_controllers d = cd_controllers s ∧ cd_operations d = cd_operations s ∧ cd_items d = cd_items s)
        as (Hc & Ho & Hi)
        by (destruct (status_changed r r'); [by eapply append_event_keeps | by txn_inv]) end.
    split; [done |]. do 2 eexists.
    split; [| split; [done | split; [exact Hc | by split]]]. eapply change_beaten; [done | done | done | | done | done].
    destruct (hb_reconcile_result input) as [r|]; [| done].
    match goal with Hb : bail_if (negb _) _ = Ok _ |- _ => apply bail_if_ok in Hb; by rewrite negb_false_iff, orb_true_iff, !seqb_eq in Hb end.
  - unfold control_factory_controller, fetch. intros Hx. txn_inv. replay_case. txn_inv.
    match goal with Hr : record_controller_operation_tx _ _ _ _ = _ |- _ => apply record_controller_operation_ok in Hr as [Hfree ->] end.
    match goal with Hw : with_context (controller_of _ _ _) _ = Ok ?cur |- _ => apply with_context_ok in Hw end.
    match goal with Hb : bail_if (negb (_ =? _)%Z) _ = _ |- _ => apply bail_if_ok, negb_false_iff, Z.eqb_eq in Hb end.
    event_case. right. split; [done |]. do 2 eexists. split; [by eapply change_controlled |].
    split; [done |]. split; [by rewrite Hc |]. split; [by rewrite Hi |]. split; [exact Hfree |]. eexists. by rewrite Ho.
Qed.
End requests.

(** ** Consistency *)
Section consistency.
Context `{Chrono, Serde}.

Record row_inv (row : controller_row) : Prop := {
  ri_generations : (0 ≤ fc_completed_generation row ≤ fc_reconcile_generation row)%Z;
  ri_version : (1 ≤ fc_version row)%Z;
  ri_desired : fc_desired_state row = "running" ∨ fc_desired_state row = "paused";
  ri_result r : fc_last_reconcile_result row = Some r → r = "succeeded" ∨ r = "failed";
  ri_polling p : fc_polling row = Some p →
    (is_Some (next_retry_at p) ↔ is_Some (retry_reason p)) ∧ (consecutive_failures p ≤ 32)%Z;
}.
Record controllers_inv (db : controller_db) : Prop := {
  ci_row id row : cd_controllers db !! id = Some row → row_inv row;
  ci_source id id' row row' : cd_controllers db !! id = Some row → cd_controllers db !! id' = Some row' →
    fc_corp_id row = fc_corp_id row' → fc_source row = fc_source row' → id = id';
  ci_operation corp key op : cd_operations db !! (corp, key) = Some op →
    is_Some (controller_of corp (co_controller_id op) db);
}.

Lemma controller_of_spec corp id db row :
  controller_of corp id db = Some row ↔ cd_controllers db !! id = Some row ∧ fc_corp_id row = corp.
Proof.
  unfold controller_of. split.
  - intros (r & Hr & Hc)%bind_Some. destruct (fc_corp_id r =? corp)%N eqn:E; [| done].
    injection Hc as <-. by apply N.eqb_eq in E.
  - intros [-> <-]. simpl. by rewrite N.eqb_refl.
Qed.
Lemma change_old env db call old row : row_change env db call old row →
  cd_controllers db !! call_controller call = old.
Proof.
  destruct 1 as [| input cur e p n Hc | input cur row Hc]; [done | |]; by apply controller_of_spec in Hc as [].
Qed.
Lemma next_version_spec v v' : next_version v = Ok v' → v' = (v + 1)%Z.
Proof. unfold next_version, checked_i64. intros Hv%with_context_ok. case_match; [congruence | done]. Qed.

Lemma polling_update_paired prior next now : validate_polling_update prior next now = Ok tt →
  (is_Some (next_retry_at next) ↔ is_Some (retry_reason next)) ∧ (consecutive_failures next ≤ 32)%Z.
Proof.
  unfold validate_polling_update. intros Hx. apply bind_ok in Hx as (u & Hb & _).
  apply bail_if_ok, orb_false_iff in Hb as [Hx Hf].
  destruct (next_retry_at next), (retry_reason next); try done; (split; [by split; eauto | lia]).
Qed.

Lemma change_row_inv env db call old row : row_change env db call old row →
  (∀ r, old = Some r → row_inv r) → row_inv row.
Proof.
  destruct 1 as [input row _ Hrow _ | input cur e p n Hcur Hn Hcheck Hres Hp Hval | input cur row Hcur Hver Hrow];
    intros Hold.
  - unfold configured_row in Hrow. destruct (cd_controllers db !! _) as [r|].
    + destruct (Hold r eq_refl) as [Hg Hv Hd Hr Hp]. res_inv.
      match goal with Hn : next_version _ = Ok _ |- _ => apply next_version_spec in Hn as -> end.
      split; simpl; try done. lia.
    + injection Hrow as <-. split; simpl; try done. by left.
  - destruct (Hold cur eq_refl) as [Hg Hv Hd Hr Hpoll]. unfold check_heartbeat in Hcheck. res_inv.
    split; simpl; [| done | done | |].
    + lia.
    + intros r. destruct (hb_reconcile_result input) as [r'|]; simpl; [by intros [= <-] | apply Hr].
    + intros q [= <-]. by eapply polling_update_paired.
  - destruct (Hold cur eq_refl) as [Hg Hv Hd Hr Hp]. unfold controlled_row, checked_i64 in Hrow. res_inv.
    match goal with Hn : next_version _ = Ok _ |- _ => apply next_version_spec in Hn as -> end.
    split; simpl; try done.
    + match goal with Hc : (if in_i64 ?z then _ else _) = Some ?g |- _ => destruct (in_i64 z); [injection Hc as <- | done] end.
      destruct (_ || _); lia.
    + lia.
    + destruct (seqb _ "pause"); [by right |]. destruct (seqb _ "resume"); [by left | done].
Qed.

Inductive controller_step : controller_db → controller_db → Prop :=
| step_call env call db out db' : controller_handle env call db = Ok (out, db') → controller_step db db'
| step_elsewhere db db' : cd_controllers db' = cd_controllers db → cd_operations db' = cd_operations db →
    controller_step db db'.

Lemma change_source env db call old row id r : controllers_inv db → row_change env db call old row →
  cd_controllers db !! id = Some r → id ≠ call_controller call →
  fc_corp_id r = fc_corp_id row → fc_source r ≠ fc_source row.
Proof.
  intros Hinv Hch Hr Hne Hcorp Hsrc.
  destruct Hch as [input row _ _ Htaken | input cur e p n Hcur | input cur row Hcur _ Hrow]; simpl in Hne.
  - unfold source_taken in Htaken. assert (existsb (λ '(i, x), negb (i =? cf_controller_id input)%N &&
      (fc_corp_id x =? fc_corp_id row)%N && bool_decide (fc_source x = fc_source row))
      (map_to_list (cd_controllers db)) = true); [| congruence].
    apply existsb_exists. exists (id, r). split; [by apply list_elem_of_In, elem_of_map_to_list |].
    rewrite Hcorp, N.eqb_refl, bool_decide_eq_true_2 by done.
    apply N.eqb_neq in Hne. by rewrite Hne.
  - apply controller_of_spec in Hcur as [Hcur _]. apply Hne. by eapply (ci_source db Hinv).
  - apply controller_of_spec in Hcur as [Hcur _]. apply Hne. unfold controlled_row in Hrow. res_inv.
    by eapply (ci_source db Hinv).
Qed.
(** A row keeps its corp, is never deleted, and its counters only go up. *)
Definition advances (row row' : controller_row) : Prop :=
  fc_corp_id row' = fc_corp_id row ∧ (fc_version row ≤ fc_version row')%Z ∧
  (fc_reconcile_generation row ≤ fc_reconcile_generation row')%Z ∧
  (fc_completed_generation row ≤ fc_completed_generation row')%Z.
Lemma change_advances env db call old row r : row_change env db call old row → old = Some r → advances r row.
Proof.
  destruct 1 as [input row _ Hrow _ | input cur e p n Hcur Hn Hcheck | input cur row Hcur Hver Hrow]; intros Hold.
  - rewrite Hold in Hrow. unfold configured_row in Hrow. res_inv.
    match goal with Hn : next_version _ = Ok _ |- _ => apply next_version_spec in Hn as -> end.
    split_and!; simpl; done || lia.
  - injection Hold as ->. unfold check_heartbeat in Hcheck. res_inv. split_and!; simpl; done || lia.
  - injection Hold as ->. unfold controlled_row, checked_i64 in Hrow. res_inv.
    match goal with Hn : next_version _ = Ok _ |- _ => apply next_version_spec in Hn as -> end.
    match goal with Hc : (if in_i64 ?z then _ else _) = Some ?g |- _ => destruct (in_i64 z); [injection Hc as <- | done] end.
    split_and!; simpl; try done; [lia | destruct (_ || _); lia].
Qed.
Lemma change_corp env db call old row corp key operation request : row_change env db call old row →
  call_operation call = Some (corp, key, operation, request) → fc_corp_id row = corp.
Proof.
  destruct 1 as [input row _ Hrow _ | | input cur row Hcur Hver Hrow]; intros [= <- <- <- <-].
  - unfold configured_row in Hrow. destruct (cd_controllers db !! _); res_inv; [| done].
    by match goal with Hb : (_ =? _)%N = true |- _ => apply N.eqb_eq in Hb end.
  - apply controller_of_spec in Hcur as [_ <-]. unfold controlled_row in Hrow. by res_inv.
Qed.
Lemma step_advances db db' id row : controller_step db db' → cd_controllers db !! id = Some row →
  ∃ row', cd_controllers db' !! id = Some row' ∧ advances row row'.
Proof.
  intros Hs Hrow. assert (advances row row) as Hrefl by (split_and!; done || lia).
  destruct Hs as [env call db out db' Hx | db db' Hc _]; [| rewrite Hc; eauto].
  apply handle_answered in Hx as [(-> & _) | (_ & old & new & Hch & _ & Hc & _)]; [eauto |]. rewrite Hc.
  destruct (decide (id = call_controller call)) as [-> | Hne]; [| rewrite lookup_insert_ne by done; eauto].
  rewrite lookup_insert_eq. eexists. split; [done |].
  eapply change_advances; [done |]. by rewrite <- (change_old _ _ _ _ _ Hch).
Qed.
Lemma step_operations db db' k op : controller_step db db' → cd_operations db !! k = Some op →
  cd_operations db' !! k = Some op.
Proof.
  intros Hs Hop. destruct Hs as [env call db out db' Hx | db db' _ Ho]; [| by rewrite Ho].
  apply handle_answered in Hx as [(-> & _) | (_ & old & new & _ & _ & _ & _ & Hrec)]; [done |]. unfold operation_recorded in Hrec.
  destruct (call_operation call) as [[[[corp key] operation] request]|]; [| by rewrite Hrec].
  destruct Hrec as (Hfree & actor & ->). rewrite lookup_insert_ne; [done | congruence].
Qed.
Lemma step_controllers_inv db db' : controllers_inv db → controller_step db db' → controllers_inv db'.
Proof.
  intros Hinv Hs.
  assert (∀ corp key op, cd_operations db !! (corp, key) = Some op →
    is_Some (controller_of corp (co_controller_id op) db')) as Hops.
  { intros corp key op Hop. destruct (ci_operation db Hinv _ _ _ Hop) as [row [Hrow Hcorp]%controller_of_spec].
    destruct (step_advances db db' _ _ Hs Hrow) as (row' & Hrow' & Hcorp' & _).
    exists row'. apply controller_of_spec. split; [done | congruence]. }
  destruct Hs as [env call db out db' Hx | db db' Hc Ho].
  2: { destruct Hinv as [Hr Hs Hop]. split; try rewrite Hc; try done. intros corp key op. rewrite Ho. apply Hops. }
  apply handle_answered in Hx as [(-> & _) | (_ & old & row & Hch & _ & Hc & _ & Hrec)]; [done |].
  pose proof (change_old _ _ _ _ _ Hch) as Hold. split.
  - intros id r. rewrite Hc, lookup_insert_Some. intros [[<- <-] | [_ Hr]]; [| by eapply (ci_row db Hinv)].
    eapply change_row_inv; [done |]. intros r ->. by eapply (ci_row db Hinv).
  - intros id id' r r'. rewrite !Hc, !lookup_insert_Some.
    intros [[<- <-] | [Hne Hr]] [[<- <-] | [Hne' Hr']] Hcorp Hsrc; [done | | | by eapply (ci_source db Hinv)].
    + exfalso. by eapply (change_source env db call old row id' r').
    + exfalso. by eapply (change_source env db call old row id r).
  - intros corp key op Hop. unfold operation_recorded in Hrec.
    destruct (call_operation call) as [[[[corp' key'] operation] request]|] eqn:Ecall; [| rewrite Hrec in Hop; eauto].
    destruct Hrec as (_ & actor & Hrec). rewrite Hrec, lookup_insert_Some in Hop.
    destruct Hop as [[[= -> ->] <-] | [_ Hop]]; [| eauto].
    exists row. apply controller_of_spec. simpl. rewrite Hc, lookup_insert_eq. split; [done |]. by eapply change_corp.
Qed.

Lemma empty_controllers_inv db : cd_controllers db = ∅ → cd_operations db = ∅ → controllers_inv db.
Proof. intros He Hop. split; rewrite ?He, ?Hop; intros *; by rewrite lookup_empty. Qed.

(** Whatever requests come in any order, no two controllers of a corp watch the same project and
    repository; a completed reconciliation was requested; a controller is running or paused;
    its last result is a success or a failure; and a stored wait has its reason. *)
Theorem controllers_stay_consistent db db' :
  cd_controllers db = ∅ → cd_operations db = ∅ → rtc controller_step db db' → controllers_inv db'.
Proof.
  intros He Hop Hs. pose proof (empty_controllers_inv db He Hop) as Hinv.
  clear He Hop. induction Hs; [done | eauto using step_controllers_inv].
Qed.

(** ** What lasts *)

(** Requests that satisfy [P], between other activity. *)
Inductive allowed_step (P : controller_env → controller_call → Prop) : controller_db → controller_db → Prop :=
| allowed_call env call db out db' : P env call → controller_handle env call db = Ok (out, db') → allowed_step P db db'
| allowed_elsewhere db db' : cd_controllers db' = cd_controllers db → cd_operations db' = cd_operations db →
    allowed_step P db db'.

Definition stored_wait (id : uuid) (d : timestamp) (db : controller_db) : Prop :=
  ∃ row c, cd_controllers db !! id = Some row ∧ next_retry_at (stored_polling row) = Some c ∧ (d ≤ c)%Z.

Lemma polling_update_keeps prior next now c : validate_polling_update prior next now = Ok tt →
  next_retry_at prior = Some c → (now < c)%Z → ∃ c', next_retry_at next = Some c' ∧ (c ≤ c')%Z.
Proof.
  unfold validate_polling_update. intros Hx Hc Hnow. apply bind_ok in Hx as (_ & _ & Hx).
  apply bind_ok in Hx as (u & Hb & _). apply bail_if_ok in Hb. rewrite Hc in Hb.
  destruct (next_retry_at next) as [c'|]; [exists c'; split; [done |] |]; lia.
Qed.
Lemma change_keeps_wait env db call old row r c : row_change env db call old row → old = Some r →
  next_retry_at (stored_polling r) = Some c → (cv_now env < c)%Z →
  ∃ c', next_retry_at (stored_polling row) = Some c' ∧ (c ≤ c')%Z.
Proof.
  destruct 1 as [input row _ Hrow _ | input cur e p n Hcur Hn Hcheck Hres Hp Hval | input cur row Hcur Hver Hrow];
    intros Hold Hc Hnow.
  - rewrite Hold in Hrow. unfold configured_row in Hrow. res_inv. unfold stored_polling in *. simpl. eauto with lia.
  - injection Hold as ->. by eapply polling_update_keeps.
  - injection Hold as ->. unfold controlled_row in Hrow. res_inv. unfold stored_polling in *. simpl. eauto with lia.
Qed.

(** A stored wait outlives everything: before its deadline no heartbeat, no reconnection under a
    new epoch, no pause, resume or forced reconciliation, in any order, shortens or removes
    it, whatever polling state a watcher reports. *)
Theorem stored_waits_survive id d db db' :
  stored_wait id d db → rtc (allowed_step (λ env _, (cv_now env < d)%Z)) db db' → stored_wait id d db'.
Proof.
  intros Hw Hs. induction Hs as [|db db1 db2 Hstep _ IH]; [done |]. apply IH. clear IH.
  destruct Hw as (row & c & Hrow & Hc & Hd).
  destruct Hstep as [env call db out db1 Hnow Hx | db db1 Heq _]; [| exists row, c; by rewrite Heq].
  apply handle_answered in Hx as [(-> & _) | (_ & old & new & Hch & _ & Heq & _)]; [by exists row, c |].
  destruct (decide (id = call_controller call)) as [-> | Hne].
  2: { exists row, c. rewrite Heq, lookup_insert_ne by done. done. }
  pose proof (change_old _ _ _ _ _ Hch) as Hold. rewrite Hrow in Hold.
  destruct (change_keeps_wait _ _ _ _ _ row c Hch) as (c' & Hc' & Hle); [done | done | lia |].
  exists new, c'. rewrite Heq, lookup_insert_eq. split_and!; [done | done | lia].
Qed.

(** A request that does not connect the controller under the epoch. *)
Definition not_reconnected (id epoch : uuid) (call : controller_call) : Prop :=
  match call with
  | Configure input => cf_controller_id input = id → cf_connection_epoch input ≠ epoch
  | _ => True
  end.
Definition other_epoch (id epoch : uuid) (db : controller_db) : Prop :=
  ∀ row, cd_controllers db !! id = Some row → fc_connection_epoch row ≠ epoch.
Lemma change_epoch env db call old row id epoch : row_change env db call old row → id = call_controller call →
  not_reconnected id epoch call → (∀ r, old = Some r → fc_connection_epoch r ≠ epoch) → fc_connection_epoch row ≠ epoch.
Proof.
  destruct 1 as [input row _ Hrow _ | input cur e p n Hcur | input cur row Hcur Hver Hrow]; intros -> Hnot Hold.
  - simpl in Hnot. specialize (Hnot eq_refl). unfold configured_row in Hrow.
    destruct (cd_controllers db !! _); res_inv; done.
  - exact (Hold cur eq_refl).
  - unfold controlled_row in Hrow. res_inv. exact (Hold cur eq_refl).
Qed.

(** A watcher whose controller was connected under another epoch is locked out: as long as nobody
    connects it under the old epoch again, no heartbeat under that epoch is accepted. *)
Theorem stale_watchers_are_fenced id epoch db db' env input :
  other_epoch id epoch db → rtc (allowed_step (λ _ call, not_reconnected id epoch call)) db db' →
  hb_controller_id input = id → hb_connection_epoch input = epoch →
  is_ok (heartbeat_factory_controller env input db') = false.
Proof.
  intros He Hs Hid Hep. assert (other_epoch id epoch db') as He'.
  { clear Hid Hep. induction Hs as [|db db1 db2 Hstep _ IH]; [done |]. apply IH. clear IH.
    destruct Hstep as [env' call db out db1 Hnot Hx | db db1 Heq _]; [| intros row; rewrite Heq; apply He].
    apply handle_answered in Hx as [(-> & _) | (_ & old & new & Hch & _ & Heq & _)]; [done |].
    intros row. rewrite Heq, lookup_insert_Some. intros [[Hcall <-] | [_ Hr]]; [| by apply He].
    eapply change_epoch; [exact Hch | symmetry; exact Hcall | exact Hnot |].
    intros r ->. apply He. rewrite <- Hcall. by eapply change_old. }
  destruct (heartbeat_factory_controller env input db') as [[out db2]|] eqn:Hx; [| done].
  apply (handle_answered env (Heartbeat input)) in Hx as [(_ & _ & (? & ? & ? & ? & ? & Hop & _)) | (_ & old & row & Hch & _)];
    [done |].
  inversion Hch as [| input' cur e p n Hcur Hn Hcheck |]; subst. apply controller_of_spec in Hcur as [Hcur _].
  unfold check_heartbeat in Hcheck. res_inv.
  match goal with Hb : (fc_connection_epoch _ =? _)%N = true |- _ => apply N.eqb_eq in Hb; by destruct (He' _ Hcur) end.
Qed.

(** A request that was answered passes the checks that do not look at the tables. *)
Lemma handle_input_ok env call db out db' corp key operation request :
  controller_handle env call db = Ok (out, db') → call_operation call = Some (corp, key, operation, request) →
  ∀ env2 db2 op row, cd_operations db2 !! (corp, key) = Some op → co_operation op = operation →
    co_request op = request → controller_of corp (co_controller_id op) db2 = Some row →
    controller_handle env2 call db2 = Ok (FactoryControllerOutcome
      (map_factory_controller (cv_now env2) (co_controller_id op) row) None true, db2).
Proof.
  intros Hx Hcall env2 db2 op row Hop Hname Hreq Hrow.
  assert (replay_operation_tx (cv_now env2) corp key operation request db2 =
    Ok (Some (map_factory_controller (cv_now env2) (co_controller_id op) row), db2)) as Hreplay.
  { unfold replay_operation_tx, fetch, mbind, txn_bind, gets, lift. rewrite Hop, Hname, Hreq, seqb_refl, (proj2 (json_eqb_eq _ _) eq_refl).
    simpl. by rewrite Hrow. }
  destruct call as [input|input|input]; [| done |]; injection Hcall as <- <- <- <-; cbn [controller_handle] in *.
  - unfold configure_factory_controller in *. txn_inv.
    match goal with Hv : validate_configure _ = Ok _ |- _ => rename Hv into Hvalid end.
    unfold mbind, txn_bind, lift in *. rewrite Hvalid, Hreplay. done.
  - unfold control_factory_controller in *. txn_inv.
    match goal with Hv : validate_controller_key _ = Ok _ |- _ => rename Hv into Hvalid end.
    match goal with Hv : bail_if (negb (mem _ _)) _ = Ok _ |- _ => rename Hv into Hmem end.
    unfold mbind, txn_bind, lift in *. rewrite Hvalid, Hmem, Hreplay. done.
Qed.

(** Connecting and controlling are idempotent: once answered, the same request, at any later time
    and after any other activity, is call_answered as a replay with the controller as it is now,
    without an event and without a change. *)
Theorem controller_requests_are_idempotent env call db out db1 db2 env2 :
  controllers_inv db → (∀ input, call ≠ Heartbeat input) →
  controller_handle env call db = Ok (out, db1) → rtc controller_step db1 db2 →
  ∃ controller, controller_handle env2 call db2 = Ok (FactoryControllerOutcome controller None true, db2).
Proof.
  intros Hinv Hcall Hx Hs.
  assert (controllers_inv db2) as Hinv2.
  { assert (controllers_inv db1) as Hinv1 by (eapply step_controllers_inv; [done | by eapply step_call]).
    clear Hx. induction Hs; [done | eauto using step_controllers_inv]. }
  assert (∃ corp key operation request op, call_operation call = Some (corp, key, operation, request) ∧
    cd_operations db1 !! (corp, key) = Some op ∧ co_operation op = operation ∧ co_request op = request)
    as (corp & key & operation & request & op & Hop & Hrow & Hname & Hreq).
  { pose proof Hx as [(-> & _ & Hop) | (_ & old & row & _ & _ & _ & _ & Hrec)]%handle_answered; [done |].
    unfold operation_recorded in Hrec. destruct (call_operation call) as [[[[corp key] operation] request]|] eqn:E.
    2: { destruct call as [|input|]; [done | by destruct (Hcall input) | done]. }
    destruct Hrec as (_ & actor & ->). do 5 eexists. split; [done |]. rewrite lookup_insert_eq. by split. }
  assert (cd_operations db2 !! (corp, key) = Some op) as Hop2.
  { clear -Hs Hrow. induction Hs; [done |]. eauto using step_operations. }
  destruct (ci_operation db2 Hinv2 _ _ _ Hop2) as [row Hctl].
  eexists. by eapply handle_input_ok.
Qed.
End consistency.

(** ** Witnesses *)
Section witnesses.
#[local] Existing Instance sample_serde.
#[local] Existing Instance sample_chrono.

Definition sample_board : controller_source := ControllerSource "acme" 7 "acme" "tools".
Definition controller_start : controller_db := ControllerDb ∅ ∅ ∅ [].
Definition connect (epoch : uuid) (key : string) : controller_call :=
  Configure (ConfigureFactoryControllerInput 1 2 3 sample_board epoch 60 key).
Definition beat (epoch : uuid) (polling : polling_state) : heartbeat_input :=
  HeartbeatFactoryControllerInput 1 2 3 epoch 60 None None None None (Some polling).
Definition controller_at (t : Z) : controller_env := ControllerEnv (seconds t) (Z.to_N t).
Definition controller_run (calls : list (Z * controller_call)) (db : controller_db) : controller_db :=
  foldl (λ db '(t, call), (run_txn (controller_handle (controller_at t) call) db).2) db calls.
Definition waiting : polling_state := FactoryPollingState (Some (seconds 900)) (Some SecondaryRateLimit) 2 None.
Definition controller_connected : controller_db := controller_run [(100%Z, connect 50 "a")] controller_start.
Definition controller_waiting : controller_db :=
  controller_run [(110%Z, Heartbeat (beat 50 waiting))] controller_connected.
(** The watcher restarts under another epoch and claims that there is no wait; a human resumes it. *)
Definition later_calls : list (Z * controller_call) :=
  [(200%Z, connect 51 "b"); (210%Z, Heartbeat (beat 51 polling_default)); (220%Z, Heartbeat (beat 50 waiting));
   (230%Z, Control (ControlFactoryControllerInput 1 9 3 2 "resume" "c"))].

Lemma run_steps (P : controller_env → controller_call → Prop) calls :
  Forall (λ '(t, call), P (controller_at t) call) calls →
  ∀ db, rtc (allowed_step P) db (controller_run calls db) ∧ rtc controller_step db (controller_run calls db).
Proof.
  induction 1 as [|[t call] calls Hp Hall IH]; intros db; [done |]. simpl.
  unfold run_txn.
  destruct (controller_handle (controller_at t) call db) as [[out db']|] eqn:E; cbn [snd].
  - destruct (IH db') as [H1 H2]. split; (eapply rtc_l; [| eassumption]); [by eapply allowed_call | by eapply step_call].
  - apply IH.
Qed.

Lemma controller_run_app xs ys db : controller_run (xs ++ ys) db = controller_run ys (controller_run xs db).
Proof. apply foldl_app. Qed.

Lemma controllers_stay_consistent_witness :
  controllers_inv (controller_run later_calls controller_waiting) ∧
  (fc_reconcile_generation <$> cd_controllers (controller_run later_calls controller_waiting) !! 3%N) = Some 1%Z.
Proof.
  split; [| vm_compute; reflexivity].
  apply (controllers_stay_consistent controller_start); [reflexivity | reflexivity |].
  unfold controller_waiting, controller_connected. rewrite <- !controller_run_app.
  apply (run_steps (λ _ _, True)). repeat constructor.
Defined.

Lemma stored_waits_survive_witness :
  stored_wait 3 (seconds 900) (controller_run later_calls controller_waiting).
Proof.
  apply (stored_waits_survive 3 (seconds 900) controller_waiting).
  - eexists _, (seconds 900). split; [vm_compute; reflexivity |]. split; [vm_compute; reflexivity | done].
  - apply (run_steps (λ env _, (cv_now env < seconds 900)%Z)). repeat constructor.
Defined.

Lemma stale_watchers_are_fenced_witness :
  is_ok (heartbeat_factory_controller (controller_at 105) (beat 50 waiting) controller_connected) = true ∧
  is_ok (heartbeat_factory_controller (controller_at 300) (beat 50 waiting)
    (controller_run [(230%Z, connect 51 "c")] (controller_run [(200%Z, connect 51 "b")] controller_waiting))) = false.
Proof.
  split; [vm_compute; reflexivity |].
  apply (stale_watchers_are_fenced 3 50 (controller_run [(200%Z, connect 51 "b")] controller_waiting));
    [| | reflexivity | reflexivity].
  - intros row Hrow. assert (fc_connection_epoch <$> cd_controllers
      (controller_run [(200%Z, connect 51 "b")] controller_waiting) !! 3%N = Some 51%N) as He by (vm_compute; reflexivity).
    rewrite Hrow in He. simpl in He. congruence.
  - apply (run_steps (λ _ call, not_reconnected 3 50 call)). repeat constructor. discriminate.
Defined.

Lemma controller_requests_are_idempotent_witness :
  ∃ controller, controller_handle (controller_at 500) (connect 50 "a") (controller_run later_calls controller_waiting) =
    Ok (FactoryControllerOutcome controller None true, controller_run later_calls controller_waiting).
Proof.
  destruct (controller_handle (controller_at 100) (connect 50 "a") controller_start) as [[out db]|] eqn:E;
    [| vm_compute in E; discriminate].
  apply (controller_requests_are_idempotent (controller_at 100) (connect 50 "a") controller_start out db).
  - by apply empty_controllers_inv.
  - discriminate.
  - exact E.
  - assert (db = controller_connected) as -> by (unfold controller_connected, controller_run, run_txn; cbn [foldl]; by rewrite E).
    unfold controller_waiting. rewrite <- controller_run_app. apply (run_steps (λ _ _, True)). repeat constructor.
Defined.
End witnesses.
