(* ===== verification/Watch.v ===== *)
(** * The watch loop of the Factory (crates/crony-cli/src/factory.rs)

    [watch] connects a controller, restores its polling state and then, at every
    heartbeat, takes in a finished cycle, reads the snapshot, reports to the server
    and decides whether the next cycle starts.  Cycles run in a task of their own;
    the answers of the server are inputs of [watch_tick].  The second half puts
    watchers and the store of [FactoryController] together. *)
From S2P Require Import Prelude Text Json Domain Planning FactoryPolicy Store FactoryItems Polling GithubResponse FactoryController.

(** ** Data *)
Record watch_args := FactoryWatchArgs {
  wa_corp_id : uuid; wa_actor_id : uuid; wa_controller_id : uuid; wa_source : controller_source;
  wa_dry_run : bool; wa_heartbeat_seconds : Z; wa_interval_seconds : Z; wa_issue : option Z }.

(** The fields of a controller, as the loop reads them from the JSON of the server. *)
Record controller_view := ControllerView {
  vw_desired_state : string; vw_reconcile_generation : Z; vw_completed_generation : Z }.
Definition view_of (c : factory_controller) : controller_view :=
  ControllerView (fc_desired_state (ctl_row c)) (fc_reconcile_generation (ctl_row c))
    (fc_completed_generation (ctl_row c)).

(** How a cycle ended: [run] returned a value with its Factory state, or an error, or panicked. *)
Inductive cycle_result := CycleDone (factory_state : option string) | CycleFailed (error : github_error) | CyclePanicked.

(** The variables of the loop, the budget and the active issue shared with the cycle. *)
Record watch_state := WatchState {
  ws_controller : controller_view;
  ws_cycle : bool;
  ws_cycle_generation : option Z;
  ws_next_periodic : timestamp;
  ws_last_error : option string;
  ws_last_result : option string;
  ws_active_issue : Z;
  ws_budget : polling_state;
}.

(** What a tick takes from the world: the clocks, the end of the cycle if it has
    ended, the snapshot and the answer to the heartbeat. *)
Record tick_env := TickEnv {
  te_now : timestamp;
  te_instant : timestamp;
  te_finished : option cycle_result;
  te_snapshot : option (option controller_view * list factory_work_item);
  te_heartbeat : heartbeat_input → option controller_view;
}.

Section watch.
Context `{Chrono, Serde}.

(** ** Starting *)
Definition watch_lease_seconds (args : watch_args) : Z := Z.max 10 (Z.min 300 (wa_heartbeat_seconds args * 3)).
Definition validate_watch_args (args : watch_args) : result unit :=
  bail_if (wa_dry_run args) "factory watch cannot run in dry-run mode";;
  bail_if (negb (in_range 5 300 (wa_heartbeat_seconds args)))
    "factory heartbeat interval must be between 5 and 300 seconds";;
  bail_if (negb (in_range 5 3600 (wa_interval_seconds args)))
    "factory watch interval must be between 5 and 3600 seconds".
Definition watch_configuration (args : watch_args) (epoch : uuid) : configure_input :=
  ConfigureFactoryControllerInput (wa_corp_id args) (wa_actor_id args) (wa_controller_id args) (wa_source args) epoch
    (watch_lease_seconds args)
    ("factory-controller:" +:+ uuid_to_string (wa_controller_id args) +:+ ":connect:" +:+ uuid_to_string epoch).
(** The state at the start of the loop, from the answer to the configuration. *)
Definition watch_start (answer : factory_controller) (now : timestamp) (instant : timestamp) : watch_state :=
  WatchState (view_of answer) false None instant None None 0 (restore (ctl_polling answer) now polling_default).

(** ** One tick *)
Definition retry_reason_text (r : factory_retry_reason) : string :=
  match r with
  | GraphqlQuota => "GraphQL quota reserve" | PrimaryRateLimit => "primary rate limit"
  | SecondaryRateLimit => "secondary rate limit" | GithubUnavailable => "upstream unavailable"
  end.
Definition wait_text (w : github_wait) : string :=
  "GitHub " +:+ retry_reason_text (gw_reason w) +:+ "; retry " +:+
  (if (gw_next_retry_at w =? max_utc)%Z then "deadline requires operator recovery"
   else "not before " +:+ timestamp_display (gw_next_retry_at w)).
Definition error_text (e : github_error) : string :=
  match e with Throttled w => wait_text w | OtherError message => message end.
Definition bounded_status_error (value : string) : string :=
  of_chars (take 1000 (chars (join " " (split_whitespace value)))).
Definition settled_states : list string := ["verified"; "published"; "failed"; "cancelled"].
Definition nothing_eligible (e : github_error) : bool := starts_with "no eligible factory issue found" (error_text e).

Definition succeeded (now : timestamp) (idle : bool) (w : watch_state) : watch_state :=
  WatchState (ws_controller w) (ws_cycle w) (ws_cycle_generation w) (ws_next_periodic w) None (Some "succeeded")
    (if idle then 0%Z else ws_active_issue w) (success now (ws_budget w)).
Definition failed (now : timestamp) (e : github_error) (w : watch_state) : watch_state :=
  let due := match next_retry_at (ws_budget w) with Some retry => (retry <=? now)%Z | None => true end in
  WatchState (ws_controller w) (ws_cycle w) (ws_cycle_generation w) (ws_next_periodic w)
    (Some (bounded_status_error (error_text e))) (Some "failed") (ws_active_issue w)
    (if due then (failure e now (ws_budget w)).1 else ws_budget w).
Definition cycle_over (next : timestamp) (w : watch_state) : watch_state :=
  WatchState (ws_controller w) false (ws_cycle_generation w) next (ws_last_error w) (ws_last_result w)
    (ws_active_issue w) (ws_budget w).
Definition take_in_cycle (args : watch_args) (env : tick_env) (w : watch_state) : result watch_state :=
  match te_finished env with
  | Some ended =>
      if ws_cycle w then
        w ← match ended with
            | CycleDone state => Ok (succeeded (te_now env) match state with
                                                            | Some s => mem s settled_states
                                                            | None => false
                                                            end w)
            | CycleFailed e => Ok (if nothing_eligible e then succeeded (te_now env) true w
                                   else failed (te_now env) e w)
            | CyclePanicked => Err "factory cycle task failed"
            end;
        Ok (cycle_over (te_instant env + seconds (wa_interval_seconds args))%Z w)
      else Ok w
  | None => Ok w
  end.

Definition item_matches (source : controller_source) (item : factory_work_item) : bool :=
  let s := fw_source item in
  seqb (src_project_owner s) (cs_project_owner source) && (src_project_number s =? cs_project_number source)%Z
  && seqb (src_repository_owner s) (cs_repository_owner source)
  && seqb (src_repository_name s) (cs_repository_name source)
  && negb (mem (ItemState.item_state_as_str (fw_state item)) settled_states).
Definition active_item (source : controller_source) (items : list factory_work_item) : option uuid :=
  fw_id <$> find (item_matches source) items.
Definition with_view (view : controller_view) (w : watch_state) : watch_state :=
  WatchState view (ws_cycle w) (ws_cycle_generation w) (ws_next_periodic w) (ws_last_error w) (ws_last_result w)
    (ws_active_issue w) (ws_budget w).

Definition finished_generation (w : watch_state) : option Z :=
  if negb (ws_cycle w) && is_some (ws_last_result w)
  then Some (default (vw_completed_generation (ws_controller w)) (ws_cycle_generation w)) else None.
Definition heartbeat_of (args : watch_args) (epoch : uuid) (active : option uuid) (w : watch_state) : heartbeat_input :=
  let finished := finished_generation w in
  HeartbeatFactoryControllerInput (wa_corp_id args) (wa_actor_id args) (wa_controller_id args) epoch
    (watch_lease_seconds args) active finished (_ ← finished; ws_last_result w) (ws_last_error w)
    (Some (ws_budget w)).
Definition reported_to (answer : controller_view) (w : watch_state) : watch_state :=
  let cleared := is_some (finished_generation w) in
  WatchState answer (ws_cycle w) (if cleared then None else ws_cycle_generation w) (ws_next_periodic w)
    (ws_last_error w) (if cleared then None else ws_last_result w) (ws_active_issue w) (ws_budget w).

(** [pending] and [completed] were read before the heartbeat was answered. *)
Definition next_cycle (env : tick_env) (pending completed : Z) (w : watch_state) : watch_state :=
  let forced := (completed <? pending)%Z in
  if negb (ws_cycle w) && negb (seqb (vw_desired_state (ws_controller w)) "paused") then
    let '(budget, wait) := check (te_now env) (ws_budget w) in
    let start := negb (is_some wait) && (forced || (ws_next_periodic w <=? te_instant env)%Z) in
    WatchState (ws_controller w) start
      (if start then (if forced then Some pending else None) else ws_cycle_generation w)
      (ws_next_periodic w) (ws_last_error w) (ws_last_result w) (ws_active_issue w) budget
  else w.

Definition watch_tick (args : watch_args) (epoch : uuid) (env : tick_env) (w : watch_state) : result watch_state :=
  w ← take_in_cycle args env w;
  match te_snapshot env with
  | None => Ok w
  | Some (view, items) =>
      let w := match view with Some view => with_view view w | None => w end in
      let pending := vw_reconcile_generation (ws_controller w) in
      let completed := vw_completed_generation (ws_controller w) in
      match te_heartbeat env (heartbeat_of args epoch (active_item (wa_source args) items) w) with
      | None => Ok w
      | Some answer => Ok (next_cycle env pending completed (reported_to answer w))
      end
  end.
(** The issue a new cycle is started for. *)
Definition cycle_issue (args : watch_args) (w : watch_state) : option Z :=
  match wa_issue args with
  | None => if (0 <? ws_active_issue w)%Z then Some (ws_active_issue w) else None
  | Some issue => Some issue
  end.
End watch.

(** ** Lemmas *)
Section loop.
Context `{Chrono, Serde}.

(** What a tick does to the shared budget: calls of [BudgetState] at its clock. *)
Definition tick_calls (env : tick_env) (calls : list (timestamp * budget_call)) : Prop :=
  Forall (λ '(t, call), t = te_now env ∧ (call = Success ∨ call = CheckQuota ∨
    ∃ e, call = Failure e ∧ te_finished env = Some (CycleFailed e))) calls.

Lemma budget_run_app xs ys s : budget_run (xs ++ ys) s = budget_run ys (budget_run xs s).
Proof. apply foldl_app. Qed.
Lemma take_in_budget args env w w' : take_in_cycle args env w = Ok w' →
  ∃ calls, tick_calls env calls ∧ ws_budget w' = budget_run calls (ws_budget w).
Proof.
  unfold take_in_cycle. destruct (te_finished env) as [ended|] eqn:Ef; [| intros [= <-]; exists []; by split; [apply Forall_nil_2 |]].
  destruct (ws_cycle w); [| intros [= <-]; exists []; by split; [apply Forall_nil_2 |]].
  assert (tick_calls env [(te_now env, Success)]) as Hs by (apply Forall_cons_2; [auto | by apply Forall_nil_2]).
  destruct ended as [state|e|]; simpl; [intros [= <-]; by exists [(te_now env, Success)] | | done].
  destruct (nothing_eligible e); intros [= <-]; [by exists [(te_now env, Success)] |].
  unfold failed, cycle_over. cbn [ws_budget].
  destruct (match next_retry_at _ with Some _ => _ | None => _ end); [| exists []; by split; [apply Forall_nil_2 |]].
  exists [(te_now env, Failure e)]. split; [| done].
  apply Forall_cons_2; [| by apply Forall_nil_2]. split; [done |]. right. right. by exists e.
Qed.
Lemma next_cycle_budget env pending completed w :
  ws_budget (next_cycle env pending completed w) = ws_budget w ∨
  ws_budget (next_cycle env pending completed w) = budget_run [(te_now env, CheckQuota)] (ws_budget w).
Proof.
  unfold next_cycle. destruct (_ && _); [right | by left]. simpl.
  by destruct (check (te_now env) (ws_budget w)) as [b wait].
Qed.
Lemma tick_budget args epoch env w w' : watch_tick args epoch env w = Ok w' →
  ∃ calls, tick_calls env calls ∧ ws_budget w' = budget_run calls (ws_budget w).
Proof.
  unfold watch_tick. intros Hx. apply bind_ok in Hx as (w1 & Ht & Hx).
  apply take_in_budget in Ht as (calls & Hcalls & Hb).
  destruct (te_snapshot env) as [[view items]|]; [| injection Hx as <-; eauto].
  set (w2 := match view with Some v => with_view v w1 | None => w1 end) in *.
  assert (ws_budget w2 = ws_budget w1) as Hw2 by (unfold w2; by destruct view). clearbody w2.
  destruct (te_heartbeat env _) as [answer|]; injection Hx as <-; [| exists calls; by rewrite Hw2].
  destruct (next_cycle_budget env (vw_reconcile_generation (ws_controller w2))
    (vw_completed_generation (ws_controller w2)) (reported_to answer w2)) as [-> | ->]; simpl ws_budget.
  - exists calls. by rewrite Hw2.
  - exists (calls ++ [(te_now env, CheckQuota)]). split.
    + apply Forall_app. split; [done |]. apply Forall_cons_2; [auto | by apply Forall_nil_2].
    + by rewrite budget_run_app, <- Hb, <- Hw2.
Qed.

(** A cycle starts only when the budget admits a request then. *)
Lemma cycles_need_budget args epoch env w w' :
  watch_tick args epoch env w = Ok w' → ws_cycle w' = true →
  ws_cycle w = true ∨ ∃ s, (check (te_now env) s).2 = None ∧ ws_budget w' = (check (te_now env) s).1.
Proof.
  unfold watch_tick. intros Hx Hc. destruct (ws_cycle w) eqn:Ew; [by left | right].
  assert (take_in_cycle args env w = Ok w) as Ht by (unfold take_in_cycle; rewrite Ew; by destruct (te_finished env)).
  rewrite Ht in Hx. cbn [mbind result_bind] in Hx.
  destruct (te_snapshot env) as [[view items]|]; [| congruence].
  set (w2 := match view with Some v => with_view v w | None => w end) in *.
  assert (ws_cycle w2 = false) as Hw2 by (unfold w2; by destruct view). clearbody w2.
  destruct (te_heartbeat env _) as [answer|]; injection Hx as <-; [| congruence].
  set (r := reported_to answer w2) in *.
  assert (ws_cycle r = false ∧ ws_budget r = ws_budget w2) as [Hr Hb] by done. clearbody r.
  unfold next_cycle in *. rewrite Hr in *. cbn [negb andb] in *.
  destruct (negb (seqb _ "paused")); [| by rewrite Hr in Hc].
  exists (ws_budget r). destruct (check (te_now env) (ws_budget r)) as [b [wait|]]; [done | by split].
Qed.

(** A forced reconciliation runs twice: at the tick that reports it as completed, the loop
    compares the generations it read before the report, so it starts another
    cycle for the generation that has just been completed. *)
Theorem forced_cycles_run_twice args epoch env w state view items answer :
  ws_cycle w = true → ws_cycle_generation w = Some (vw_reconcile_generation view) →
  te_finished env = Some (CycleDone state) → te_snapshot env = Some (Some view, items) →
  (vw_completed_generation view < vw_reconcile_generation view)%Z →
  (∀ input, te_heartbeat env input = Some answer) →
  vw_completed_generation answer = vw_reconcile_generation view → vw_desired_state answer = "running" →
  (check (te_now env) (success (te_now env) (ws_budget w))).2 = None →
  ∃ w', watch_tick args epoch env w = Ok w' ∧ ws_cycle w' = true ∧
    ws_cycle_generation w' = Some (vw_completed_generation (ws_controller w')).
Proof.
  intros Hc Hg Hf Hs Hlt Hhb Hdone Hrun Hcheck. unfold watch_tick, take_in_cycle. rewrite Hf, Hc, Hs.
  cbn [mbind result_bind]. rewrite Hhb. eexists. split; [done |].
  unfold next_cycle, reported_to, with_view, cycle_over, succeeded.
  cbn [ws_cycle ws_controller ws_budget ws_next_periodic ws_cycle_generation]. rewrite Hrun.
  destruct (check (te_now env) (success (te_now env) (ws_budget w))) as [b wait].
  cbn [snd] in Hcheck. subst wait. apply Z.ltb_lt in Hlt. rewrite Hlt. simpl. by rewrite Hdone.
Qed.
End loop.

(** ** Watchers and the store *)

(** One controller, the watchers that were started for it by connection epoch with
    their budgets, and the clock that watchers and server share. *)
Record watch_system := WatchSystem {
  sy_now : timestamp; sy_db : controller_db; sy_watchers : gmap uuid polling_state }.

Section system.
Context `{Chrono, !ChronoLaws _, Serde}.
Context (id : uuid).
Open Scope Z_scope.

Definition system_env (sys : watch_system) (event : uuid) : controller_env := ControllerEnv (sy_now sys) event.
(** The instants at which every limit of a polling state is representable. *)
Definition clock_ok (t : timestamp) : Prop := min_utc + minutes 5 ≤ t ≤ max_utc - days 7.

Inductive system_step : watch_system → watch_system → Prop :=
| system_clock sys now : sy_now sys ≤ now → clock_ok now →
    system_step sys (WatchSystem now (sy_db sys) (sy_watchers sys))
| system_connect sys event input out db :
    cf_controller_id input = id → sy_watchers sys !! cf_connection_epoch input = None →
    configure_factory_controller (system_env sys event) input (sy_db sys) = Ok (out, db) → cot_replayed out = false →
    system_step sys (WatchSystem (sy_now sys) db
      (<[cf_connection_epoch input := restore (ctl_polling (cot_controller out)) (sy_now sys) polling_default]>
         (sy_watchers sys)))
| system_budget sys epoch b call : sy_watchers sys !! epoch = Some b → call_typed call →
    (∀ p, call ≠ Restore p) →
    system_step sys (WatchSystem (sy_now sys) (sy_db sys)
      (<[epoch := budget_handle (sy_now sys) call b]> (sy_watchers sys)))
| system_heartbeat sys event input b out db :
    hb_controller_id input = id → sy_watchers sys !! hb_connection_epoch input = Some b →
    hb_polling input = Some b →
    heartbeat_factory_controller (system_env sys event) input (sy_db sys) = Ok (out, db) →
    system_step sys (WatchSystem (sy_now sys) db (sy_watchers sys))
| system_control sys event input out db :
    control_factory_controller (system_env sys event) input (sy_db sys) = Ok (out, db) →
    system_step sys (WatchSystem (sy_now sys) db (sy_watchers sys))
| system_other sys db : cd_controllers db !! id = cd_controllers (sy_db sys) !! id →
    system_step sys (WatchSystem (sy_now sys) db (sy_watchers sys)).

Definition observed_within (start now : timestamp) (s : polling_state) : Prop :=
  ∀ q, graphql s = Some q → start ≤ gq_observed_at q ≤ now.
(** The budget of the connected watcher knows what the store knows. *)
Definition covers (now : timestamp) (stored b : polling_state) : Prop :=
  (∀ c, next_retry_at stored = Some c → now < c → held c b) ∧
  (∀ q, graphql stored = Some q → ∃ q', graphql b = Some q' ∧ gq_observed_at q ≤ gq_observed_at q').
Record system_inv (start : timestamp) (sys : watch_system) : Prop := {
  si_start : clock_ok start;
  si_clock : clock_ok (sy_now sys);
  si_watcher e b : sy_watchers sys !! e = Some b → polling_inv b ∧ observed_within start (sy_now sys) b;
  si_stored row : cd_controllers (sy_db sys) !! id = Some row →
    polling_inv (stored_polling row) ∧ observed_within start (sy_now sys) (stored_polling row);
  si_covers row b : cd_controllers (sy_db sys) !! id = Some row →
    sy_watchers sys !! fc_connection_epoch row = Some b → covers (sy_now sys) (stored_polling row) b;
}.

Lemma clock_in_range t : clock_ok t → in_utc t = true.
Proof.
  unfold clock_ok, in_utc, in_range, days, minutes, seconds. lia.
Qed.

(** *** What the operations do to the observed balance *)
Definition newer (s s' : polling_state) : Prop :=
  ∀ q, graphql s = Some q → ∃ q', graphql s' = Some q' ∧ gq_observed_at q ≤ gq_observed_at q'.
Lemma merge_newer q s : newer s (merge_quota q s).
Proof.
  intros q0 Hq. unfold merge_quota. rewrite Hq. destruct (_ || _) eqn:E; [exists q0; split; [done | lia] |].
  exists q. split; [done |]. rewrite !orb_false_iff in E. lia.
Qed.
Lemma merge_from q s : graphql (merge_quota q s) = graphql s ∨ graphql (merge_quota q s) = Some q.
Proof. unfold merge_quota. destruct (match graphql s with Some _ => _ | None => _ end); auto. Qed.
Lemma budget_graphql now call s : (∀ p, call ≠ Restore p) →
  graphql (budget_handle now call s) = graphql s ∨
  (newer s (budget_handle now call s) ∧ ∃ q, graphql (budget_handle now call s) = Some q ∧ gq_observed_at q = now).
Proof.
  intros Hc. destruct call as [p | | v | [wait|m] |]; cbn [budget_handle].
  - by destruct (Hc p).
  - left. apply retain_graphql.
  - unfold observe_json. destruct (pointer _ v) as [value|]; [| by left].
    destruct (observed_quota value now) as [q|] eqn:E; [| by left].
    destruct (valid_counters q), (outstanding _ now), (valid_quota q); simpl; auto.
    destruct (merge_from q s) as [Hm | Hm]; [left; by rewrite retain_graphql | right].
    split; [intros q0 Hq0; rewrite retain_graphql; by apply merge_newer |].
    exists q. rewrite retain_graphql. split; [done |]. unfold observed_quota in E. by res_inv.
  - left. rewrite failure_eq. simpl. by rewrite retain_graphql, extend_wait_graphql.
  - by left.
  - left. unfold success. rewrite retain_graphql. by repeat case_match; try case_bool_decide.
Qed.
Lemma restore_graphql p now : graphql (restore p now polling_default) =
  match graphql p with
  | Some q => if valid_quota q && (gq_observed_at q <=? now) then Some q else None
  | None => None
  end.
Proof.
  unfold restore. rewrite retain_graphql.
  set (s1 := with_failures _ _). assert (graphql s1 = None) as H1 by done. clearbody s1.
  set (s2 := match next_retry_at p with Some _ => _ | None => _ end).
  assert (graphql s2 = None) as H2.
  { unfold s2, repair_wait. destruct (next_retry_at p); [by rewrite extend_wait_graphql |].
    destruct (_ || _); [by rewrite extend_wait_graphql | done]. }
  clearbody s2. destruct (graphql p) as [q|]; [| done].
  destruct (valid_quota q && _); [unfold merge_quota; by rewrite H2 |].
  unfold repair_wait. by rewrite extend_wait_graphql.
Qed.

(** *** The budget covers the store *)
Lemma budget_covers now call stored b : polling_inv b → in_utc now = true → call_typed call → (∀ p, call ≠ Restore p) →
  covers now stored b → covers now stored (budget_handle now call b).
Proof.
  intros Hb Hnow Hty Hc [Hw Hq]. split.
  - intros c Hs Hlt. apply budget_held; [done | by apply Hw | unfold outstanding; lia].
  - intros q Hs. destruct (Hq q Hs) as (q' & Hq' & Hle).
    destruct (budget_graphql now call b Hc) as [-> | [Hnew _]]; [eauto |].
    destruct (Hnew q' Hq') as (q2 & ? & ?). exists q2. split; [done | lia].
Qed.
Lemma restore_covers start now stored : polling_inv stored → observed_within start now stored →
  covers now stored (restore stored now polling_default).
Proof.
  intros Hs Ho. split.
  - intros c Hc _. by apply restore_takes.
  - intros q Hq. rewrite restore_graphql, Hq. destruct (pi_quota _ Hs q Hq) as [-> _].
    destruct (Ho q Hq) as [_ Hle]. apply Z.leb_le in Hle. rewrite Hle. exists q. split; [done | lia].
Qed.
Lemma covers_refl now b : covers now b b.
Proof. split; [intros c Hc _; exists c; split; [done | lia] | intros q Hq; exists q; split; [done | lia]]. Qed.
Lemma covers_later now now' stored b : now ≤ now' → covers now stored b → covers now' stored b.
Proof. intros Hle [Hw Hq]. split; [intros c Hc Hlt; apply Hw; [done | lia] | done]. Qed.

(** *** Rows *)
Definition stored_of (old : option controller_row) : polling_state :=
  match old with Some row => stored_polling row | None => polling_default end.
Lemma change_stored env db call old row : row_change env db call old row →
  match call with
  | Configure input => stored_polling row = stored_of old ∧ fc_connection_epoch row = cf_connection_epoch input
  | Heartbeat input => ∃ cur, old = Some cur ∧ stored_polling row = default (stored_polling cur) (hb_polling input) ∧
      fc_connection_epoch row = fc_connection_epoch cur ∧ fc_connection_epoch cur = hb_connection_epoch input
  | Control input => ∃ cur, old = Some cur ∧ stored_polling row = stored_polling cur ∧
      fc_connection_epoch row = fc_connection_epoch cur
  end.
Proof.
  destruct 1 as [input row _ Hrow _ | input cur e p n Hcur Hn Hcheck Hres Hp Hval | input cur row Hcur Hver Hrow].
  - unfold configured_row in Hrow. destruct (cd_controllers db !! _); res_inv; done.
  - exists cur. split; [done |]. split; [by rewrite <- Hp |]. unfold check_heartbeat in Hcheck. res_inv.
    split; [done |]. by match goal with Hb : (fc_connection_epoch _ =? _)%N = true |- _ => apply N.eqb_eq in Hb end.
  - exists cur. unfold controlled_row in Hrow. by res_inv.
Qed.
(** A request that was not a repeat: the row of its controller, and the others. *)
Lemma handle_row env call db out db' : controller_handle env call db = Ok (out, db') →
  (cot_replayed out = true ∧ db' = db) ∨
  ∃ old row, row_change env db call old row ∧ cd_controllers db !! call_controller call = old ∧
    ctl_polling (cot_controller out) = stored_polling row ∧
    cd_controllers db' !! call_controller call = Some row ∧
    ∀ i, i ≠ call_controller call → cd_controllers db' !! i = cd_controllers db !! i.
Proof.
  intros [(-> & Hr & _) | (_ & old & row & Hch & Hout & Hc & _)]%handle_answered; [by left | right].
  exists old, row. pose proof (change_old _ _ _ _ _ Hch). rewrite Hc, lookup_insert_eq, Hout.
  split_and!; try done. intros i Hi. by rewrite lookup_insert_ne.
Qed.

(** *** The invariant *)
Lemma default_observed start now : observed_within start now polling_default.
Proof. done. Qed.
Lemma budget_observed start now call b : start ≤ now → (∀ p, call ≠ Restore p) →
  observed_within start now b → observed_within start now (budget_handle now call b).
Proof.
  intros Hle Hc Ho q Hq. destruct (budget_graphql now call b Hc) as [Hs | (_ & q' & Hs & <-)].
  - rewrite Hs in Hq. by apply Ho.
  - rewrite Hs in Hq. injection Hq as <-. lia.
Qed.
Lemma restore_observed start now p : observed_within start now p →
  observed_within start now (restore p now polling_default).
Proof.
  intros Ho q. rewrite restore_graphql. destruct (graphql p) as [q'|] eqn:E; [| done].
  destruct (_ && _); [| done]. intros [= <-]. by apply Ho.
Qed.

Lemma system_keeps start sys sys' : start ≤ sy_now sys → system_inv start sys → system_step sys sys' →
  start ≤ sy_now sys' ∧ system_inv start sys'.
Proof.
  intros Hstart [Hs0 Hclock Hwatch Hstored Hcov] Hstep. pose proof (clock_in_range _ Hclock) as Hnow.
  destruct Hstep as [sys now Hle Hok | sys event input out db Hid Hfresh Hx Hnew | sys e b call Hb Hty Hc
    | sys event input b out db Hid Hb Hp Hx | sys event input out db Hx | sys db Heq]; simpl in *.
  - split; [lia |]. split; simpl; try done.
    + intros e b Hb. destruct (Hwatch e b Hb) as [? Ho]. split; [done |]. intros q Hq. specialize (Ho q Hq). lia.
    + intros row Hr. destruct (Hstored row Hr) as [? Ho]. split; [done |]. intros q Hq. specialize (Ho q Hq). lia.
    + intros row b Hr Hb. eapply covers_later; [exact Hle | by apply Hcov].
  - split; [done |].
    apply (handle_row _ (Configure input)) in Hx as [[Hrep _] | (old & row & Hch & Hold & Hout & Hrow & _)]; [congruence |].
    apply change_stored in Hch as [Hst Hep]. simpl in Hold, Hrow. rewrite Hid in Hold, Hrow. rewrite Hout, Hst.
    assert (polling_inv (stored_of old) ∧ observed_within start (sy_now sys) (stored_of old)) as [Hinv Hobs].
    { destruct old as [r|]; [by apply Hstored | split; [apply default_inv | apply default_observed]]. }
    split; simpl; try done.
    + intros e b. rewrite lookup_insert_Some. intros [[<- <-] | [_ Hb]]; [| by eapply Hwatch].
      split; [apply restore_inv; [apply default_inv | by apply inv_typed | done] | by apply restore_observed].
    + intros r. rewrite Hrow. intros [= <-]. by rewrite Hst.
    + intros r b. rewrite Hrow. intros [= <-]. rewrite Hep, lookup_insert_eq. intros [= <-]. rewrite Hst.
      by eapply restore_covers.
  - split; [done |]. destruct (Hwatch e b Hb) as [Hbi Hbo]. split; simpl; try done.
    + intros e' b'. rewrite lookup_insert_Some. intros [[<- <-] | [_ Hb']]; [| by eapply Hwatch].
      split; [by apply budget_inv | by apply budget_observed].
    + intros row b' Hr. rewrite lookup_insert_Some. intros [[He <-] | [_ Hb']]; [| by apply Hcov].
      apply budget_covers; try done. apply Hcov; [done | by rewrite <- He].
  - split; [done |].
    apply (handle_row _ (Heartbeat input)) in Hx as [[_ ->] | (old & row & Hch & Hold & _ & Hrow & _)]; [by split |].
    apply change_stored in Hch as (cur & -> & Hst & Hep & Hcur). simpl in Hold, Hrow. rewrite Hid in Hold, Hrow.
    rewrite Hp in Hst. simpl in Hst. destruct (Hwatch _ _ Hb) as [Hbi Hbo]. split; simpl; try done.
    + intros r. rewrite Hrow. intros [= <-]. by rewrite Hst.
    + intros r b'. rewrite Hrow. intros [= <-]. rewrite Hep, Hcur, Hb. intros [= <-]. rewrite Hst. apply covers_refl.
  - split; [done |].
    apply (handle_row _ (Control input)) in Hx as [[_ ->] | (old & row & Hch & Hold & _ & Hrow & Hothers)]; [by split |].
    apply change_stored in Hch as (cur & -> & Hst & Hep). simpl in *.
    destruct (decide (id = ct_controller_id input)) as [Hid | Hne].
    + rewrite <- Hid in Hold, Hrow. split; simpl; try done.
      * intros r. rewrite Hrow. intros [= <-]. rewrite Hst. by apply Hstored.
      * intros r b'. rewrite Hrow. intros [= <-]. rewrite Hep, Hst. by apply Hcov.
    + split; simpl; try done; rewrite (Hothers id Hne); done.
  - split; [done |]. split; simpl; try done; rewrite Heq; done.
Qed.

(** A covered state may be reported. *)
Lemma covered_update start now stored b : clock_ok start → clock_ok now → polling_inv b →
  observed_within start now b → covers now stored b → validate_polling_update stored b now = Ok tt.
Proof.
  intros Hstart Hclock [Hr Hf _ Hq] Ho [Hw Hn]. unfold validate_polling_update.
  assert (xorb (is_some (next_retry_at b)) (is_some (retry_reason b)) = false) as ->.
  { destruct (next_retry_at b), (retry_reason b); try done; exfalso;
      [by apply (is_Some_None (A := factory_retry_reason)), Hr | by apply (is_Some_None (A := timestamp)), Hr]. }
  assert ((32 <? consecutive_failures b) = false) as -> by (unfold max_failures in Hf; lia). cbn [orb bail_if mbind result_bind].
  assert (match next_retry_at stored with
    | Some required => (now <? required) &&
        match next_retry_at b with Some proposed => proposed <? required | None => true end
    | None => false end = false) as ->.
  { destruct (next_retry_at stored) as [c|]; [| done]. destruct (now <? c) eqn:E; [| done].
    destruct (Hw c eq_refl ltac:(lia)) as (c' & -> & Hle). simpl. lia. }
  cbn [bail_if mbind result_bind]. destruct (graphql b) as [q|] eqn:Eq; [| done].
  destruct (Hq q eq_refl) as [Hv _]. specialize (Ho q Eq). unfold valid_quota, valid_counters in Hv.
  rewrite !andb_true_iff in Hv. unfold clock_ok, days, minutes, seconds, max_quota_points, reset_margin_seconds,
    max_quota_window_seconds in *.
  unfold checked_add_signed, in_utc, in_range.
  repeat match goal with |- context [(min_utc <=? ?x) && ?y] => replace ((min_utc <=? x) && y) with true by lia end.
  cbn [with_context mbind result_bind].
  unfold days, minutes, seconds in *.
  replace (_ || _) with false by lia. cbn [bail_if mbind result_bind].
  destruct (graphql stored) as [q0|]; [| done]. destruct (Hn q0 eq_refl) as (q' & [= <-] & Hle).
  by replace (gq_observed_at q <? gq_observed_at q0) with false by lia.
Qed.

(** C30: what the connected watcher reports is never refused for its polling state, and it never
    forgets what the store knows: from the first connection on, through restarts under new
    epochs, answers of GitHub in any order, heartbeats, pauses and forced reconciliations,
    the server accepts the polling state of the watcher connected last, and while a stored
    wait lasts that watcher admits no request. *)
Theorem connected_watchers_agree_with_the_store sys sys' row b :
  clock_ok (sy_now sys) → cd_controllers (sy_db sys) !! id = None → sy_watchers sys = ∅ →
  rtc system_step sys sys' →
  cd_controllers (sy_db sys') !! id = Some row → sy_watchers sys' !! fc_connection_epoch row = Some b →
  validate_polling_update (stored_polling row) b (sy_now sys') = Ok tt ∧
  ∀ c, next_retry_at (stored_polling row) = Some c → sy_now sys' < c →
    ∃ wait, (check (sy_now sys') b).2 = Some wait ∧ c ≤ gw_next_retry_at wait.
Proof.
  intros Hclock Hnone Hempty Hsteps Hrow Hb. set (start := sy_now sys).
  assert (start ≤ sy_now sys ∧ system_inv start sys) as Hinv.
  { split; [lia |]. split; [done | done | rewrite Hempty | rewrite Hnone | rewrite Hnone]; try done;
      intros e b'; by rewrite lookup_empty. }
  assert (start ≤ sy_now sys' ∧ system_inv start sys') as [_ [Hs Hc Hw Hst Hcov]].
  { clear Hrow Hb Hclock Hnone Hempty. clearbody start.
    induction Hsteps as [|s1 s2 s3 Hstep _ IH]; [done |]. destruct Hinv. by apply IH; eapply system_keeps. }
  destruct (Hw _ _ Hb) as [Hbi Hbo]. pose proof (Hcov row b Hrow Hb) as Hcover. split.
  - by apply (covered_update start).
  - intros c Hnext Hlt. destruct Hcover as [Hheld _]. apply held_refused; [done | by apply Hheld |].
    unfold outstanding. lia.
Qed.
End system.

(** ** Witnesses *)
Section witnesses.
#[local] Existing Instance sample_serde.
#[local] Existing Instance sample_chrono.

(** A watcher connects and is throttled; it reports that, and another takes its place. *)
Definition throttled_budget : polling_state :=
  budget_handle (seconds 100) (Failure secondary) (restore polling_default (seconds 100) polling_default).
Definition throttled_db : controller_db :=
  controller_run [(110%Z, Heartbeat (beat 50 throttled_budget))] controller_connected.
Definition replaced_db : controller_db := controller_run [(110%Z, connect 51 "b")] throttled_db.
Definition first_system : watch_system := WatchSystem (seconds 100) controller_start ∅.
Definition last_system : watch_system :=
  WatchSystem (seconds 110) replaced_db
    (<[51%N := restore throttled_budget (seconds 110) polling_default]>
      (<[50%N := throttled_budget]> (<[50%N := restore polling_default (seconds 100) polling_default]> ∅))).

Lemma run_one t call db out db' : controller_handle (controller_at t) call db = Ok (out, db') →
  controller_run [(t, call)] db = db'.
Proof. unfold controller_run, run_txn. cbn [foldl]. by intros ->. Qed.

Lemma last_system_reached : rtc (system_step 3) first_system last_system.
Proof.
  destruct (controller_handle (controller_at 100) (connect 50 "a") controller_start) as [[o1 d1]|] eqn:E1;
    [| vm_compute in E1; discriminate].
  assert (d1 = controller_connected) as -> by (symmetry; exact (run_one _ _ _ _ _ E1)).
  destruct (controller_handle (controller_at 110) (Heartbeat (beat 50 throttled_budget)) controller_connected)
    as [[o2 d2]|] eqn:E2; [| vm_compute in E2; discriminate].
  assert (d2 = throttled_db) as -> by (symmetry; exact (run_one _ _ _ _ _ E2)).
  destruct (controller_handle (controller_at 110) (connect 51 "b") throttled_db) as [[o3 d3]|] eqn:E3;
    [| vm_compute in E3; discriminate].
  assert (d3 = replaced_db) as -> by (symmetry; exact (run_one _ _ _ _ _ E3)).
  assert (ctl_polling (cot_controller o1) = polling_default ∧ cot_replayed o1 = false) as [H1 R1].
  { vm_compute in E1. injection E1 as <-. split; reflexivity. }
  assert (ctl_polling (cot_controller o3) = throttled_budget ∧ cot_replayed o3 = false) as [H3 R3].
  { vm_compute in E3. injection E3 as <-. split; vm_compute; reflexivity. }
  eapply rtc_l.
  { eapply (system_connect 3 first_system 100 (ConfigureFactoryControllerInput 1 2 3 sample_board 50 60 "a"));
      [reflexivity | apply lookup_empty | exact E1 | exact R1]. }
  rewrite H1. cbn [sy_now sy_db sy_watchers first_system cf_connection_epoch].
  eapply rtc_l.
  { eapply (system_budget 3 _ 50 _ (Failure secondary)); [apply lookup_insert_eq | reflexivity | discriminate]. }
  cbn [sy_now sy_db sy_watchers]. eapply rtc_l.
  { apply (system_clock 3 _ (seconds 110)); [done | split; vm_compute; discriminate]. }
  cbn [sy_now sy_db sy_watchers]. eapply rtc_l.
  { eapply (system_heartbeat 3 _ 110 (beat 50 throttled_budget)); [reflexivity | apply lookup_insert_eq | reflexivity | exact E2]. }
  cbn [sy_now sy_db sy_watchers]. eapply rtc_l.
  { eapply (system_connect 3 _ 110 (ConfigureFactoryControllerInput 1 2 3 sample_board 51 60 "b"));
      [reflexivity | reflexivity | exact E3 | exact R3]. }
  rewrite H3. done.
Qed.

Lemma connected_watchers_agree_with_the_store_witness : ∃ wait,
  (check (seconds 110) (restore throttled_budget (seconds 110) polling_default)).2 = Some wait ∧
  (seconds 160 ≤ gw_next_retry_at wait)%Z.
Proof.
  destruct (cd_controllers replaced_db !! 3%N) as [row|] eqn:Hrow; [| vm_compute in Hrow; discriminate].
  assert (fc_connection_epoch row = 51%N ∧ next_retry_at (stored_polling row) = Some (seconds 160)) as [He Hn].
  { vm_compute in Hrow. injection Hrow as <-. done. }
  destruct (connected_watchers_agree_with_the_store 3 first_system last_system row
    (restore throttled_budget (seconds 110) polling_default)) as [_ Hwait].
  - split; vm_compute; discriminate.
  - apply lookup_empty.
  - done.
  - apply last_system_reached.
  - exact Hrow.
  - rewrite He. apply lookup_insert_eq.
  - apply (Hwait (seconds 160)); [exact Hn | reflexivity].
Defined.

(** A forced reconciliation that has just ended. *)
Lemma forced_cycles_run_twice_witness :
  let view := ControllerView "running" 1 0 in
  let answer := ControllerView "running" 1 1 in
  let args := FactoryWatchArgs 1 2 3 sample_board false 20 60 None in
  let w := WatchState view true (Some 1%Z) (seconds 900) None None 0 polling_default in
  let env := TickEnv (seconds 200) (seconds 200) (Some (CycleDone None)) (Some (Some view, [])) (λ _, Some answer) in
  ∃ w', watch_tick args 50 env w = Ok w' ∧ ws_cycle w' = true ∧
    ws_cycle_generation w' = Some (vw_completed_generation (ws_controller w')).
Proof.
  intros view answer args w env.
  apply (forced_cycles_run_twice args 50 env w None view [] answer); try reflexivity.
Defined.
End witnesses.
