(* ===== verification/Access.v ===== *)
(** * Who may ask (crates/crony-server/src/auth.rs, main.rs; crates/crony-store/src/lib.rs)

    A request reaches a handler with a [principal]: any development client, or an
    OIDC identity behind a bearer token ([authenticate_bearer]).  [authorize_actor]
    resolves it to a human actor of the Corp in the store
    ([human_authorization], [resolve_human_identity]) and checks the role against
    the permission of the handler.  Browsers open sockets with one-time tickets
    ([issue_websocket_ticket], [consume_websocket_ticket]). *)
From S2P Require Import Prelude Text Json Domain Planning Store ExecTables.
From Stdlib Require Import Ascii.

(** ** Answers of the server

    A handler of the server calls the store several times; what a call has
    committed stays when a later one fails. *)
Inductive api_status := Unauthorized | BadRequest | Forbidden | NotFound | Conflict | Internal.
Record api_error := ApiError { ae_status : api_status; ae_message : string }.
#[global] Instance api_status_eq : EqDecision api_status.
Proof. solve_decision. Defined.
#[global] Instance api_error_eq : EqDecision api_error.
Proof. solve_decision. Defined.

Inductive reply (A : Type) := Answer (a : A) | Refusal (e : api_error).
Arguments Answer {A} a.
Arguments Refusal {A} e.
Definition api (S A : Type) : Type := S → reply A * S.
#[global] Instance api_ret S : MRet (api S) := λ A a s, (Answer a, s).
#[global] Instance api_bind S : MBind (api S) := λ A B f m s,
  match m s with (Answer a, s') => f a s' | (Refusal e, s') => (Refusal e, s') end.

(** [ApiError::bad_request(..)] and its siblings *)
Definition refuse {S A} (status : api_status) (message : string) : api S A := λ s,
  (Refusal (ApiError status message), s).
Definition refuse_if {S} (condition : bool) (status : api_status) (message : string) : api S unit :=
  if condition then refuse status message else mret tt.
(** [store.f(..).await.map_err(f)?] *)
Definition call {S A} (map_err : string → api_error) (t : txn S A) : api S A := λ s,
  match t s with Ok (a, s') => (Answer a, s') | Err e => (Refusal (map_err e), s) end.
Definition or_refuse {S A} (o : option A) (status : api_status) (message : string) : api S A :=
  match o with Some a => mret a | None => refuse status message end.

Definition map_store_error (message : string) : api_error :=
  if starts_with "forbidden:" message then ApiError Forbidden message
  else if starts_with "conflict:" message then ApiError Conflict message
  else ApiError BadRequest message.

(** ** Roles and permissions *)
Inductive permission :=
| PermRead | PermPostMessage | PermOperate | PermApprove | PermEmergencyStop | PermControlFactory
| PermRecover | PermPublish | PermManage.
Inductive corp_role := RoleOwner | RoleAdmin | RoleManager | RoleMember | RoleGuest | RoleSpectator.
#[global] Instance corp_role_eq : EqDecision corp_role.
Proof. solve_decision. Defined.
#[global] Instance permission_eq : EqDecision permission.
Proof. solve_decision. Defined.

Definition corp_role_parse (value : string) : result corp_role :=
  if seqb value "owner" then Ok RoleOwner
  else if seqb value "admin" then Ok RoleAdmin
  else if seqb value "manager" then Ok RoleManager
  else if seqb value "member" then Ok RoleMember
  else if seqb value "guest" then Ok RoleGuest
  else if seqb value "spectator" then Ok RoleSpectator
  else Err ("unsupported human Corp role " +:+ value).

Definition allows (role : corp_role) (p : permission) : bool :=
  match p with
  | PermRead => true
  | PermPostMessage => negb (bool_decide (role = RoleSpectator))
  | PermOperate | PermApprove =>
      match role with RoleOwner | RoleAdmin | RoleManager | RoleMember => true | _ => false end
  | PermEmergencyStop | PermRecover | PermControlFactory | PermPublish =>
      match role with RoleOwner | RoleAdmin | RoleManager => true | _ => false end
  | PermManage => match role with RoleOwner | RoleAdmin => true | _ => false end
  end.

(** ** Principals, bearer tokens and tickets *)
Inductive server_mode := Development | Production.
Inductive principal :=
| DevelopmentPrincipal
| OidcPrincipal (issuer subject : string) (email : option string).

Record websocket_ticket := WebSocketTicket {
  wt_corp_id : uuid; wt_actor_id : uuid; wt_valid_until : timestamp }.
(** Instants count nanoseconds, as timestamps do. *)
Record auth_service := AuthService {
  au_mode : server_mode; au_issuer : option string;
  au_cache : gmap string (principal * timestamp); au_tickets : gmap string websocket_ticket }.
Definition on_cache (f : gmap string (principal * timestamp) → gmap string (principal * timestamp))
    (a : auth_service) : auth_service := AuthService (au_mode a) (au_issuer a) (f (au_cache a)) (au_tickets a).
Definition on_tickets (f : gmap string websocket_ticket → gmap string websocket_ticket)
    (a : auth_service) : auth_service := AuthService (au_mode a) (au_issuer a) (au_cache a) (f (au_tickets a)).

(** What the userinfo endpoint answers a bearer token. *)
Inductive userinfo_answer :=
| UserInfoUnreachable | UserInfoRejected | UserInfoUndecodable
| UserInfo (sub : string) (email : option string).
Definition decode_userinfo (answer : userinfo_answer) : result (string * option string) :=
  match answer with
  | UserInfoUnreachable => Err "request OIDC userinfo"
  | UserInfoRejected => Err "OIDC bearer token was rejected"
  | UserInfoUndecodable => Err "decode OIDC userinfo response"
  | UserInfo sub email => Ok (sub, email)
  end.

(** The Authorization header: absent, not UTF-8, or a text. *)
Inductive authorization_header := HeaderMissing | HeaderNotText | HeaderText (value : string).

Section auth.
Context `{ExecSerde}.

Definition cached_principal (now : timestamp) (digest : string) (auth : auth_service) : option principal :=
  cached ← au_cache auth !! digest;
  if (now <? cached.2)%Z then Some cached.1 else None.

(** [now] is read before the request to the provider, [answered] after it. *)
Definition authenticate_bearer (userinfo : string → userinfo_answer) (now answered : timestamp)
    (token : string) : txn auth_service principal :=
  mode ← gets au_mode;
  match mode with
  | Development => mret DevelopmentPrincipal
  | Production =>
      let digest := text_sha256 token in
      cached ← gets (cached_principal now digest);
      match cached with
      | Some p => mret p
      | None =>
          info ← lift (decode_userinfo (userinfo token));
          lift (bail_if (is_empty (trim info.1)) "OIDC userinfo response omitted sub");;
          issuer ← gets au_issuer;
          issuer ← lift (with_context issuer "OIDC issuer is not configured");
          let p := OidcPrincipal issuer info.1 info.2 in
          modify (on_cache <[digest := (p, (answered + seconds 30)%Z)]>);;
          mret p
      end
  end.

Definition bearer_token (header : authorization_header) : result string :=
  value ← match header with
    | HeaderMissing => Err "missing Authorization bearer token"
    | HeaderNotText => Err "Authorization header is not valid UTF-8"
    | HeaderText value => Ok value
    end;
  with_context (token ← strip_prefix "Bearer " value;
                if is_empty (trim token) then None else Some token)
    "Authorization must use a Bearer token".
Definition authenticate_headers (userinfo : string → userinfo_answer) (now answered : timestamp)
    (header : authorization_header) : txn auth_service principal :=
  mode ← gets au_mode;
  match mode with
  | Development => mret DevelopmentPrincipal
  | Production =>
      token ← lift (bearer_token header);
      authenticate_bearer userinfo now answered token
  end.

(** The two random UUIDs of a ticket are one input. *)
Definition new_ticket (random : string) : string := "crony_ws_" +:+ random.
Definition ticket_ttl_seconds : Z := 30.
Definition issue_websocket_ticket (now : timestamp) (random : string) (corp_id actor_id : uuid)
    (auth : auth_service) : (string * Z) * auth_service :=
  let ticket := new_ticket random in
  ((ticket, ticket_ttl_seconds),
   on_tickets <[text_sha256 ticket :=
     WebSocketTicket corp_id actor_id (now + seconds ticket_ttl_seconds)]> auth).

(** The ticket is removed before it is looked at. *)
Definition consume_websocket_ticket (now : timestamp) (corp_id : uuid) (ticket : string)
    (auth : auth_service) : result uuid * auth_service :=
  let digest := text_sha256 ticket in
  match au_tickets auth !! digest with
  | None => (Err "unknown or already-consumed WebSocket ticket", auth)
  | Some t =>
      (if (wt_valid_until t <=? now)%Z then Err "WebSocket ticket expired"
       else if negb (wt_corp_id t =? corp_id)%N then Err "WebSocket ticket belongs to a different Corp"
       else Ok (wt_actor_id t),
       on_tickets (delete digest) auth)
  end.
End auth.

(** ** Human actors in the store *)
Record human_identity := HumanIdentity {
  hi_actor_id : uuid; hi_email : option string; hi_last_authenticated_at : option timestamp }.
(** Identities by issuer and subject. *)
Definition identities : Type := gmap (string * string) human_identity.

Class HasIdentities (S : Type) := {
  get_identities : S → identities;
  set_identities : identities → S → S;
}.

Record human_authorization_row := HumanAuthorization { ha_actor_id : uuid; ha_role : string }.

(** SELECT role FROM actors WHERE id = .. AND corp_id = .. AND kind = 'human' *)
Definition human_role (corp_id actor_id : uuid) (dir : directory) : option string :=
  a ← dir_actors dir !! actor_id;
  if (actor_corp a =? corp_id)%N && seqb (actor_kind a) "human" then Some (actor_role a) else None.
Definition manages (role : option string) : bool :=
  match role with Some role => mem role ["owner"; "admin"] | None => false end.
(** The guard of the store operations that only an owner or admin may ask for. *)
Definition require_manager {St} `{HasDirectory St} (corp_id actor_id : uuid) (action : string) : txn St unit :=
  read_directory (λ dir, bail_if (negb (manages (human_role corp_id actor_id dir)))
    ("forbidden: only a Corp owner or admin can " +:+ action)).

Section identities.
Context {St : Type} `{HasDirectory St} `{HasIdentities St}.

Definition human_authorization (corp_id actor_id : uuid) : txn St (option human_authorization_row) :=
  gets (λ s, HumanAuthorization actor_id <$> human_role corp_id actor_id (get_directory s)).

Definition touch_identity (now : timestamp) (i : human_identity) : human_identity :=
  HumanIdentity (hi_actor_id i) (hi_email i) (Some now).
Definition resolve_human_identity (now : timestamp) (corp_id : uuid) (issuer subject : string) :
    txn St (option human_authorization_row) :=
  found ← gets (λ s, i ← get_identities s !! (issuer, subject);
                     role ← human_role corp_id (hi_actor_id i) (get_directory s);
                     Some (i, role));
  match found with
  | None => mret None
  | Some (i, role) =>
      modify (λ s, set_identities (<[(issuer, subject) := touch_identity now i]> (get_identities s)) s);;
      mret (Some (HumanAuthorization (hi_actor_id i) role))
  end.

(** UNIQUE (actor_id), on another identity *)
Definition actor_linked (key : string * string) (actor_id : uuid) (m : identities) : bool :=
  existsb (λ '(k, i), negb (bool_decide (k = key)) && (hi_actor_id i =? actor_id)%N) (map_to_list m).
Definition link_human_identity (actor_id : uuid) (issuer subject : string) (email : option string) : txn St unit :=
  kind ← gets (λ s, actor_kind <$> dir_actors (get_directory s) !! actor_id);
  lift (bail_if (negb (bool_decide (kind = Some "human")))
          "identity can only be linked to a human actor");;
  taken ← gets (λ s, actor_linked (issuer, subject) actor_id (get_identities s));
  lift (bail_if taken duplicate_key);;
  modify (λ s, set_identities
    (<[(issuer, subject) := HumanIdentity actor_id email
         (i ← get_identities s !! (issuer, subject); hi_last_authenticated_at i)]> (get_identities s)) s).

(** ** Authorising a request *)
Definition resolve_principal (now : timestamp) (p : principal) (corp_id : uuid)
    (claimed_actor_id : option uuid) : api St (option human_authorization_row) :=
  match p with
  | DevelopmentPrincipal =>
      actor_id ← or_refuse claimed_actor_id Unauthorized "development actor identity is missing";
      call (ApiError Internal) (human_authorization corp_id actor_id)
  | OidcPrincipal issuer subject _ => call (ApiError Internal) (resolve_human_identity now corp_id issuer subject)
  end.
Definition authorize_actor (now : timestamp) (p : principal) (corp_id : uuid)
    (claimed_actor_id : option uuid) (perm : permission) : api St uuid :=
  resolved ← resolve_principal now p corp_id claimed_actor_id;
  authorization ← or_refuse resolved Forbidden "identity is not a human member of this Corp";
  refuse_if match claimed_actor_id with
            | Some claimed => negb (claimed =? ha_actor_id authorization)%N
            | None => false
            end Forbidden "request actor does not match the authenticated identity";;
  role ← call (ApiError Forbidden) (lift (corp_role_parse (ha_role authorization)));
  refuse_if (negb (allows role perm)) Forbidden
    ("Corp role " +:+ ha_role authorization +:+ " is not allowed to perform this action");;
  mret (ha_actor_id authorization).
End identities.

(** [debug_link_oidc_identity]: the route of the development server. *)
Definition debug_link_oidc_identity {St} `{HasDirectory St} `{HasIdentities St} (actor_id : uuid)
    (issuer subject : string) (email : option string) : api St unit :=
  call (ApiError BadRequest) (link_human_identity actor_id (trim_end_matches "/"%char issuer) subject email).

(** ** Lemmas on answers *)
Lemma api_bind_ok {S A B} (m : api S A) (f : A → api S B) s b s' :
  (m ≫= f) s = (Answer b, s') ↔ ∃ a s1, m s = (Answer a, s1) ∧ f a s1 = (Answer b, s').
Proof. unfold mbind, api_bind. destruct (m s) as [[a|e] s1]; naive_solver. Qed.
Lemma call_ok {S A} map_err (t : txn S A) s a s' :
  call map_err t s = (Answer a, s') ↔ t s = Ok (a, s').
Proof. unfold call. destruct (t s) as [[]|]; naive_solver. Qed.
Lemma or_refuse_ok {S A} (o : option A) status message (s : S) a s' :
  or_refuse o status message s = (Answer a, s') ↔ o = Some a ∧ s' = s.
Proof. destruct o; unfold or_refuse, refuse, mret, api_ret; naive_solver. Qed.
Lemma refuse_if_ok {S} (c : bool) status message (s : S) u s' :
  refuse_if c status message s = (Answer u, s') ↔ c = false ∧ s' = s.
Proof. destruct c, u; unfold refuse_if, refuse, mret, api_ret; naive_solver. Qed.
Lemma answer_ok {S A} (a b : A) (s s' : S) : (mret a : api S A) s = (Answer b, s') ↔ b = a ∧ s' = s.
Proof. unfold mret, api_ret. naive_solver. Qed.

(** ** Authorisation is exact *)
Section exact.
Context {St : Type} `{HasDirectory St} `{HasIdentities St}.

(** Whom a principal may act as. *)
Definition speaks_for (s : St) (p : principal) (claimed : option uuid) (actor_id : uuid) : Prop :=
  match p with
  | DevelopmentPrincipal => claimed = Some actor_id
  | OidcPrincipal issuer subject _ =>
      (∃ i, get_identities s !! (issuer, subject) = Some i ∧ hi_actor_id i = actor_id) ∧
      (claimed = None ∨ claimed = Some actor_id)
  end.

Lemma resolve_principal_ok now p corp claimed (s : St) a : 
  (∃ s', resolve_principal now p corp claimed s = (Answer (Some a), s')) ↔
  human_role corp (ha_actor_id a) (get_directory s) = Some (ha_role a) ∧
  match p with
  | DevelopmentPrincipal => claimed = Some (ha_actor_id a)
  | OidcPrincipal issuer subject _ =>
      ∃ i, get_identities s !! (issuer, subject) = Some i ∧ hi_actor_id i = ha_actor_id a
  end.
Proof.
  destruct a as [actor role]. destruct p as [|issuer subject email]; simpl.
  - setoid_rewrite api_bind_ok. setoid_rewrite or_refuse_ok. setoid_rewrite call_ok.
    unfold human_authorization. setoid_rewrite gets_ok. split.
    + intros (s' & c & s1 & [-> ->] & [Hr ->]). symmetry in Hr. apply fmap_Some in Hr as (r & Hr & [= -> ->]).
      done.
    + intros [Hr ->]. exists s, actor, s. rewrite Hr. done.
  - setoid_rewrite call_ok. unfold resolve_human_identity. setoid_rewrite txn_bind_ok.
    setoid_rewrite gets_ok. split.
    + intros (s' & found & s1 & [-> ->] & Hx). destruct (get_identities s !! _) as [i|] eqn:Hi; simpl in Hx; [| by txn_inv].
      destruct (human_role corp (hi_actor_id i) _) as [r|] eqn:Hr; simpl in Hx; txn_inv; simplify_eq. eauto.
    + intros (Hr & i & Hi & <-). do 3 eexists. split; [done |]. rewrite Hi. simpl. rewrite Hr. done.
Qed.

(** C27: authorisation is exact: a request is answered, in the name of an actor,
    exactly when its principal may act as that actor, the actor is a human member
    of the Corp, and the actor's role is known and allows what is asked. *)
Theorem authorisation_is_exact now p corp claimed perm actor (s : St) :
  (∃ s', authorize_actor now p corp claimed perm s = (Answer actor, s')) ↔
  speaks_for s p claimed actor ∧
  ∃ text role, human_role corp actor (get_directory s) = Some text ∧ corp_role_parse text = Ok role ∧
    allows role perm = true.
Proof.
  unfold authorize_actor. setoid_rewrite api_bind_ok. split.
  - intros (s' & resolved & s1 & Hres & Hx). apply api_bind_ok in Hx as (a & s2 & [-> ->]%or_refuse_ok & Hx).
    apply api_bind_ok in Hx as ([] & s3 & [Hclaim ->]%refuse_if_ok & Hx).
    apply api_bind_ok in Hx as (role & s4 & [Hrole ->]%call_ok%lift_ok & Hx).
    apply api_bind_ok in Hx as ([] & s5 & [Hallow ->]%refuse_if_ok & [-> ->]%answer_ok).
    apply negb_false_iff in Hallow.
    destruct (proj1 (resolve_principal_ok now p corp claimed s a) (ex_intro _ _ Hres)) as [Hr Hp].
    split; [| eauto]. destruct p; [done |]. split; [done |].
    destruct claimed as [c|]; [right | by left]. apply negb_false_iff, N.eqb_eq in Hclaim. by subst.
  - intros (Hp & text & role & Hr & Hrole & Hallow).
    destruct (proj2 (resolve_principal_ok now p corp claimed s (HumanAuthorization actor text))) as [s' Hres].
    { split; [done |]. destruct p; [done |]. by destruct Hp. }
    exists s', (Some (HumanAuthorization actor text)), s'. split; [done |].
    repeat setoid_rewrite api_bind_ok. simpl.
    eexists _, s'. split; [done |]. eexists tt, s'. split.
    { apply refuse_if_ok. split; [| done]. destruct claimed as [c|]; [| done]. apply negb_false_iff, N.eqb_eq.
      destruct p; [by injection Hp |]. by destruct Hp as [_ [| [= ->]]]. }
    exists role, s'. split; [by apply call_ok, lift_ok |]. exists tt, s'. split; [| done].
    apply refuse_if_ok. by rewrite Hallow.
Qed.
End exact.

(** ** Tickets open one socket *)
Inductive ticket_op :=
| IssueTicket (now : timestamp) (random : string) (corp_id actor_id : uuid)
| ConsumeTicket (now : timestamp) (corp_id : uuid) (ticket : string).

Section tickets.
Context `{ExecSerde}.

Definition ticket_step (auth : auth_service) (op : ticket_op) : auth_service :=
  match op with
  | IssueTicket now random corp_id actor_id => (issue_websocket_ticket now random corp_id actor_id auth).2
  | ConsumeTicket now corp_id ticket => (consume_websocket_ticket now corp_id ticket auth).2
  end.
(** The digest an operation writes or removes. *)
Definition ticket_digest (op : ticket_op) : string :=
  match op with
  | IssueTicket _ random _ _ => text_sha256 (new_ticket random)
  | ConsumeTicket _ _ ticket => text_sha256 ticket
  end.

Lemma ticket_step_at auth op d : au_tickets (ticket_step auth op) !! d =
  if bool_decide (ticket_digest op = d) then
    match op with
    | IssueTicket now _ corp_id actor_id => Some (WebSocketTicket corp_id actor_id (now + seconds ticket_ttl_seconds))
    | ConsumeTicket _ _ _ => None
    end
  else au_tickets auth !! d.
Proof.
  destruct op as [now random corp actor | now corp ticket]; simpl; case_bool_decide as E.
  - rewrite <-E. by rewrite lookup_insert_eq.
  - by rewrite lookup_insert_ne.
  - unfold consume_websocket_ticket. rewrite <-E. destruct (au_tickets auth !! _) eqn:Et; simpl; [| done].
    by rewrite lookup_delete_eq.
  - unfold consume_websocket_ticket. destruct (au_tickets auth !! _) eqn:Et; simpl; [| done].
    by rewrite lookup_delete_ne.
Qed.

(** A ticket in the table was issued, and nothing touched it since. *)
Lemma ticket_history ops auth d t : au_tickets auth = ∅ →
  au_tickets (foldl ticket_step auth ops) !! d = Some t →
  ∃ before now random after,
    ops = before ++ IssueTicket now random (wt_corp_id t) (wt_actor_id t) :: after ∧
    text_sha256 (new_ticket random) = d ∧ wt_valid_until t = (now + seconds ticket_ttl_seconds)%Z ∧
    Forall (λ op, ticket_digest op ≠ d) after.
Proof.
  intros Hempty. induction ops as [|op ops IH] using rev_ind; simpl; [by rewrite Hempty |].
  rewrite foldl_snoc, ticket_step_at. case_bool_decide as E.
  - destruct op as [now random corp actor |]; [| done]. intros [= <-].
    by exists ops, now, random, [].
  - intros Ht. destruct (IH Ht) as (before & now & random & after & -> & ? & ? & ?).
    exists before, now, random, (after ++ [op]). rewrite <-app_assoc. split_and!; try done.
    apply Forall_app. split; [done |]. by constructor.
Qed.

(** C28: a ticket opens one socket: whatever tickets were issued and consumed before,
    a ticket is accepted only if it was issued to that actor for that Corp less than
    thirty seconds ago, and it was neither accepted nor even tried since; and once
    tried it is unknown. *)
Theorem tickets_open_one_socket ops auth now corp ticket actor auth' : au_tickets auth = ∅ →
  consume_websocket_ticket now corp ticket (foldl ticket_step auth ops) = (Ok actor, auth') →
  (∃ before issued random after, ops = before ++ IssueTicket issued random corp actor :: after ∧
     text_sha256 (new_ticket random) = text_sha256 ticket ∧ (now < issued + seconds 30)%Z ∧
     ∀ at_ corp', ConsumeTicket at_ corp' ticket ∉ after) ∧
  ∀ later corp', (consume_websocket_ticket later corp' ticket auth').1 =
    Err "unknown or already-consumed WebSocket ticket".
Proof.
  intros Hempty. unfold consume_websocket_ticket at 1.
  destruct (au_tickets (foldl ticket_step auth ops) !! text_sha256 ticket) as [t|] eqn:Et; [| done].
  destruct (wt_valid_until t <=? now)%Z eqn:Ev; [done |]. destruct (wt_corp_id t =? corp)%N eqn:Ec; [| done].
  intros [= <- <-]. apply N.eqb_eq in Ec. apply Z.leb_gt in Ev. split.
  - destruct (ticket_history ops auth _ t Hempty Et) as (before & issued & random & after & -> & Hd & Hv & Hafter).
    exists before, issued, random, after. rewrite Ec. split; [done |]. split; [done |].
    split; [rewrite Hv in Ev; exact Ev |]. intros at_ corp' Hin. rewrite Forall_forall in Hafter.
    by apply (Hafter _ Hin).
  - intros later corp'. unfold consume_websocket_ticket. simpl. by rewrite lookup_delete_eq.
Qed.
End tickets.

Section ticket_demo.
#[local] Existing Instance sample_exec_serde.
Definition demo_auth : auth_service := AuthService Production (Some "https://id.example") ∅ ∅.
Definition demo_tickets : list ticket_op :=
  [IssueTicket 0 "a" 1 10; ConsumeTicket 5 1 "crony_ws_b"; IssueTicket 7 "b" 1 11].
Lemma tickets_open_one_socket_witness :
  au_tickets demo_auth = ∅ ∧
  ∃ auth', consume_websocket_ticket 9 1 "crony_ws_a" (foldl ticket_step demo_auth demo_tickets) = (Ok 10%N, auth') ∧
  (consume_websocket_ticket 10 1 "crony_ws_a" auth').1 = Err "unknown or already-consumed WebSocket ticket".
Proof.
  split; [reflexivity |]. eexists. split; [vm_compute; reflexivity |].
  refine (proj2 (tickets_open_one_socket demo_tickets demo_auth 9 1 "crony_ws_a" 10 _ eq_refl _) 10%Z 1%N).
  vm_compute. reflexivity.
Defined.
End ticket_demo.
