(* ===== verification/Runners.v ===== *)
(** * Runners: enrolment, credentials and connections (crates/crony-store/src/lib.rs, workspace_connections.rs)

    A runner enrols with a one-time token and then exchanges its credential at
    every connection ([authenticate_and_rotate_runner]).  Its row says whether it
    is connected, in its grace period or offline ([runner_connected],
    [runner_disconnected], [expire_runner_grace]), under an epoch that fences
    older connections.  What a runner claims to run is compared with its
    assignments ([reconcile_runner_claims]); the rest is lost
    ([mark_unclaimed_runner_runs_lost], [revoke_runner]).  The database adds three
    tables to [exec_db]. *)
From S2P Require Import Prelude Text Json Domain Planning Deliverable FactoryPolicy Store FactoryItems Breaker ExecTables Checkpoint RunFailure RunEvents Dispatch Decisions ExecSpec EventSteps AttemptSteps Execution Access.

(** ** Tables *)
Record enrollment_token := EnrollmentToken {
  et_corp_id : uuid; et_runner_id : string; et_token_hash : string; et_created_by : uuid;
  et_expires_at : timestamp; et_used_at : option timestamp }.
(** A credential; its runner is the key of the table. *)
Record runner_credential := RunnerCredential {
  rk_id : uuid; rk_corp_id : uuid; rk_token_hash : string; rk_expires_at : timestamp;
  rk_revoked_at : option timestamp; rk_enrolled_by : uuid }.
Inductive node_status := NodeConnected | NodeGrace | NodeOffline.
#[global] Instance node_status_eq : EqDecision node_status.
Proof. solve_decision. Defined.
Definition node_status_as_str (s : node_status) : string :=
  match s with NodeConnected => "connected" | NodeGrace => "grace" | NodeOffline => "offline" end.
Record runner_node := RunnerNode {
  no_corp_id : uuid; no_hostname : string; no_os : string; no_capabilities : json;
  no_connection_epoch : uuid; no_status : node_status; no_connected_at : timestamp;
  no_last_seen_at : timestamp; no_disconnected_at : option timestamp;
  no_grace_expires_at : option timestamp }.

Record runner_db := RunnerDb {
  rd_exec : exec_db; rd_tokens : gmap uuid enrollment_token;
  rd_credentials : gmap string runner_credential; rd_nodes : gmap string runner_node }.

(** A connection of [exec_db] is joined with its runner: the columns of the join
    follow the table of runners. *)
Definition node_is (status : node_status) (nodes : gmap string runner_node) (id : string) : bool :=
  match nodes !! id with Some n => bool_decide (no_status n = status) | None => false end.
Definition join_connection (nodes : gmap string runner_node) (c : x_connection) : x_connection :=
  XConnection (cn_corp c) (cn_room c) (cn_runner c) (cn_runner_node c)
    (node_is NodeConnected nodes (cn_runner c)) (cn_agent c) (cn_status c) (cn_source c).
Definition join_nodes (nodes : gmap string runner_node) (b : exec_base) : exec_base :=
  ExecBase (ba_corps b) (ba_actors b) (ba_rooms b) (ba_memberships b)
    (list_to_map (omap (λ '(_, c), n ← nodes !! cn_runner c; Some (cn_runner_node c, no_corp_id n))
       (map_to_list (ba_connections b))))
    (join_connection nodes <$> ba_connections b) (ba_policies b).

Definition joined_exec (nodes : gmap string runner_node) : exec_db → exec_db := in_base (join_nodes nodes).
Definition set_exec (e : exec_db) (db : runner_db) : runner_db :=
  RunnerDb (joined_exec (rd_nodes db) e) (rd_tokens db) (rd_credentials db) (rd_nodes db).
Definition on_tokens (f : gmap uuid enrollment_token → gmap uuid enrollment_token) (db : runner_db) : runner_db :=
  RunnerDb (rd_exec db) (f (rd_tokens db)) (rd_credentials db) (rd_nodes db).
Definition on_runner_credentials (f : gmap string runner_credential → gmap string runner_credential)
    (db : runner_db) : runner_db := RunnerDb (rd_exec db) (rd_tokens db) (f (rd_credentials db)) (rd_nodes db).
Definition on_nodes (f : gmap string runner_node → gmap string runner_node) (db : runner_db) : runner_db :=
  let nodes := f (rd_nodes db) in
  RunnerDb (joined_exec nodes (rd_exec db)) (rd_tokens db) (rd_credentials db) nodes.

#[global] Instance runner_db_directory : HasDirectory runner_db := λ db, get_directory (rd_exec db).
#[global] Instance runner_db_log : HasLog runner_db := {|
  get_log db := get_log (rd_exec db);
  set_log l db := RunnerDb (set_log l (rd_exec db)) (rd_tokens db) (rd_credentials db) (rd_nodes db);
|}.
#[global] Instance runner_db_log_laws : HasLogLaws runner_db.
Proof. by split. Qed.

(** A transaction of execution, inside this database. *)
Definition in_exec {A} (t : txn exec_db A) : txn runner_db A := λ db,
  match t (rd_exec db) with Ok (a, e) => Ok (a, set_exec e db) | Err e => Err e end.

(** [now()] of the database, [Utc::now()] of the server, and two fresh UUIDs. *)
Record runner_env := RunnerEnv {
  re_exec : exec_env; re_clock : timestamp; re_id : uuid; re_event : uuid }.
Definition re_now (env : runner_env) : timestamp := xe_now (re_exec env).

Section runners.
Context `{Serde} `{ExecSerde}.

(** ** Enrolment *)
Record runner_enrollment_outcome := RunnerEnrollmentOutcome {
  reo_enrollment_id : uuid; reo_expires_at : timestamp; reo_event : new_event }.

(** PRIMARY KEY (id), UNIQUE (token_hash) *)
Definition enrollment_taken (id : uuid) (token_hash : string) (db : runner_db) : bool :=
  is_some (rd_tokens db !! id)
  || existsb (λ '(_, t), seqb (et_token_hash t) token_hash) (map_to_list (rd_tokens db)).
Definition create_runner_enrollment (env : runner_env) (corp_id actor_id : uuid)
    (runner_id token_hash : string) (expires_at : timestamp) : txn runner_db runner_enrollment_outcome :=
  let runner_id := trim runner_id in
  lift (bail_if (is_empty runner_id || (128 <? str_len runner_id)%Z)
          "runner id must contain between 1 and 128 characters");;
  require_manager corp_id actor_id "enroll a runner";;
  let enrollment_id := re_id env in
  taken ← gets (enrollment_taken enrollment_id token_hash);
  lift (bail_if taken duplicate_key);;
  modify (on_tokens <[enrollment_id := EnrollmentToken corp_id runner_id token_hash actor_id expires_at None]>);;
  event ← append_new_event
    (new_event_of corp_id (Some actor_id) "runner.enrollment_created" "runner_enrollment" enrollment_id
       ("runner-enrollment-created:" +:+ uuid_to_string enrollment_id)
       (json_object [("runner_id", JStr runner_id); ("expires_at", JStr (timestamp_rfc3339 expires_at))]))
    "new runner enrollment event was unexpectedly deduplicated";
  mret (RunnerEnrollmentOutcome enrollment_id expires_at event).

(** ** Authentication *)
Record runner_authentication_outcome := RunnerAuthenticationOutcome {
  rao_corp_id : uuid; rao_expires_at : timestamp; rao_event : new_event }.

Definition live_credential (now : timestamp) (corp_id : uuid) (runner_id token_hash : string)
    (db : runner_db) : option runner_credential :=
  c ← rd_credentials db !! runner_id;
  if (rk_corp_id c =? corp_id)%N && seqb (rk_token_hash c) token_hash
     && negb (is_some (rk_revoked_at c)) && (now <? rk_expires_at c)%Z then Some c else None.
Definition token_usable (now : timestamp) (corp_id : uuid) (runner_id token_hash : string)
    (t : enrollment_token) : bool :=
  (et_corp_id t =? corp_id)%N && seqb (et_runner_id t) runner_id && seqb (et_token_hash t) token_hash
  && negb (is_some (et_used_at t)) && (now <? et_expires_at t)%Z.
Definition usable_enrollment (now : timestamp) (corp_id : uuid) (runner_id token_hash : string)
    (db : runner_db) : option (uuid * enrollment_token) :=
  find (λ x, token_usable now corp_id runner_id token_hash x.2) (map_to_list (rd_tokens db)).

(** UNIQUE (id) and UNIQUE (token_hash), on the rows of the other runners *)
Definition credential_taken (runner_id : string) (id : uuid) (token_hash : string) (db : runner_db) : bool :=
  existsb (λ '(r, c), negb (seqb r runner_id)
                      && ((rk_id c =? id)%N || seqb (rk_token_hash c) token_hash))
    (map_to_list (rd_credentials db)).
Definition set_credential (runner_id : string) (c : runner_credential) : txn runner_db unit :=
  taken ← gets (credential_taken runner_id (rk_id c) (rk_token_hash c));
  lift (bail_if taken duplicate_key);;
  modify (on_runner_credentials <[runner_id := c]>).

Definition use_token (now : timestamp) (t : enrollment_token) : enrollment_token :=
  EnrollmentToken (et_corp_id t) (et_runner_id t) (et_token_hash t) (et_created_by t) (et_expires_at t)
    (Some now).
Definition rotate (token_hash : string) (expires_at : timestamp) (c : runner_credential) : runner_credential :=
  RunnerCredential (rk_id c) (rk_corp_id c) token_hash expires_at (rk_revoked_at c) (rk_enrolled_by c).

(** The credential's id, its actor and the type of the event. *)
Definition exchange_credential (env : runner_env) (corp_id : uuid)
    (runner_id presented_token_hash next_token_hash : string) (next_expires_at : timestamp) :
    txn runner_db (uuid * uuid * string) :=
  credential ← gets (live_credential (re_now env) corp_id runner_id presented_token_hash);
  match credential with
  | Some c =>
      set_credential runner_id (rotate next_token_hash next_expires_at c);;
      mret (rk_id c, rk_enrolled_by c, "runner.credential_rotated")
  | None =>
      enrollment ← gets (usable_enrollment (re_now env) corp_id runner_id presented_token_hash);
      row ← lift (with_context enrollment
        "forbidden: unknown, expired, replayed, or revoked runner credential");
      let '(enrollment_id, t) := row in
      modify (on_tokens (alter (use_token (re_now env)) enrollment_id));;
      let credential_id := re_id env in
      set_credential runner_id
        (RunnerCredential credential_id corp_id next_token_hash next_expires_at None (et_created_by t));;
      mret (credential_id, et_created_by t, "runner.enrolled")
  end.
Definition authenticate_and_rotate_runner (env : runner_env) (corp_id : uuid)
    (runner_id presented_token_hash next_token_hash : string) (next_expires_at : timestamp) :
    txn runner_db runner_authentication_outcome :=
  exchanged ← exchange_credential env corp_id runner_id presented_token_hash next_token_hash next_expires_at;
  let '(credential_id, actor_id, event_type) := exchanged in
  event ← append_new_event
    (new_event_of corp_id (Some actor_id) event_type "runner" credential_id
       (event_type +:+ ":" +:+ uuid_to_string credential_id +:+ ":" +:+ uuid_to_string (re_event env))
       (json_object [("runner_id", JStr runner_id);
                     ("credential_expires_at", JStr (timestamp_rfc3339 next_expires_at))]))
    "runner authentication event was unexpectedly deduplicated";
  mret (RunnerAuthenticationOutcome corp_id next_expires_at event).

(** ** Revocation *)
Record runner_revocation_outcome := RunnerRevocationOutcome {
  rro_revoked : bool; rro_event : option new_event; rro_run_events : list new_event }.
Definition revoke (now : timestamp) (c : runner_credential) : runner_credential :=
  RunnerCredential (rk_id c) (rk_corp_id c) (rk_token_hash c) (rk_expires_at c) (Some now) (rk_enrolled_by c).
Definition revocable (corp_id : uuid) (runner_id : string) (db : runner_db) : option runner_credential :=
  c ← rd_credentials db !! runner_id;
  if (rk_corp_id c =? corp_id)%N && negb (is_some (rk_revoked_at c)) then Some c else None.

Definition set_node_status (status : node_status) (n : runner_node) : runner_node :=
  RunnerNode (no_corp_id n) (no_hostname n) (no_os n) (no_capabilities n) (no_connection_epoch n) status
    (no_connected_at n) (no_last_seen_at n) (no_disconnected_at n) (no_grace_expires_at n).
Definition set_node_grace (disconnected_at grace_expires_at : option timestamp) (n : runner_node) : runner_node :=
  RunnerNode (no_corp_id n) (no_hostname n) (no_os n) (no_capabilities n) (no_connection_epoch n) (no_status n)
    (no_connected_at n) (no_last_seen_at n) disconnected_at grace_expires_at.

Definition revoke_runner (env : runner_env) (corp_id actor_id : uuid) (runner_id reason : string) :
    txn runner_db runner_revocation_outcome :=
  require_manager corp_id actor_id "revoke a runner";;
  row ← gets (revocable corp_id runner_id);
  match row with
  | None => mret (RunnerRevocationOutcome false None [])
  | Some c =>
      modify (on_runner_credentials (alter (revoke (re_now env)) runner_id));;
      run_events ← in_exec (mark_runner_runs_lost_tx (re_exec env) runner_id [] None
        ("runner credential revoked: " +:+ reason));
      modify (on_nodes (alter (λ n, if (no_corp_id n =? corp_id)%N then set_node_status NodeOffline n else n)
                runner_id));;
      event ← append_event_tx
        (new_event_of corp_id (Some actor_id) "runner.revoked" "runner" (rk_id c)
           ("runner-revoked:" +:+ uuid_to_string (rk_id c))
           (json_object [("runner_id", JStr runner_id); ("reason", JStr reason)]));
      mret (RunnerRevocationOutcome true event run_events)
  end.

(** ** Connections *)
Record runner_connect_input := RunnerConnectInput {
  rci_id : string; rci_corp_id : uuid; rci_hostname : string; rci_os : string; rci_capabilities : json;
  rci_connection_epoch : uuid }.
Record runner_record := RunnerRecord { rr_id : string; rr_node : runner_node }.

Definition runner_connected (env : runner_env) (input : runner_connect_input) : txn runner_db runner_record :=
  known ← gets (λ db, bool_decide (rci_corp_id input ∈ ba_corps (x_base (rd_exec db))));
  lift (bail_if (negb known) "insert or update violates foreign key constraint");;
  let node := RunnerNode (rci_corp_id input) (rci_hostname input) (rci_os input) (rci_capabilities input)
    (rci_connection_epoch input) NodeConnected (re_now env) (re_now env) None None in
  modify (on_nodes <[rci_id input := node]>);;
  mret (RunnerRecord (rci_id input) node).

(** The node at this epoch with this status: the WHERE clause of the updates. *)
Definition node_at (runner_id : string) (epoch : uuid) (status : node_status) (db : runner_db) :
    option runner_node :=
  n ← rd_nodes db !! runner_id;
  if (no_connection_epoch n =? epoch)%N && bool_decide (no_status n = status) then Some n else None.
Definition update_node_at (runner_id : string) (epoch : uuid) (status : node_status)
    (f : runner_node → runner_node) : txn runner_db bool :=
  found ← gets (node_at runner_id epoch status);
  match found with
  | Some n => modify (on_nodes <[runner_id := f n]>);; mret true
  | None => mret false
  end.

Definition see_node (now : timestamp) (n : runner_node) : runner_node :=
  RunnerNode (no_corp_id n) (no_hostname n) (no_os n) (no_capabilities n) (no_connection_epoch n) (no_status n)
    (no_connected_at n) now (no_disconnected_at n) (no_grace_expires_at n).
Definition runner_heartbeat (env : runner_env) (runner_id : string) (epoch : uuid) : txn runner_db bool :=
  update_node_at runner_id epoch NodeConnected (see_node (re_now env)).

Definition set_node_capabilities (capabilities : json) (n : runner_node) : runner_node :=
  RunnerNode (no_corp_id n) (no_hostname n) (no_os n) capabilities (no_connection_epoch n) (no_status n)
    (no_connected_at n) (no_last_seen_at n) (no_disconnected_at n) (no_grace_expires_at n).
Definition update_runner_capabilities (corp_id : uuid) (runner_id : string) (epoch : uuid)
    (capabilities : json) : txn runner_db (bool * option new_event) :=
  found ← gets (λ db, n ← node_at runner_id epoch NodeConnected db;
                      if (no_corp_id n =? corp_id)%N then Some n else None);
  match found with
  | None => mret (false, None)
  | Some n =>
      modify (on_nodes <[runner_id := set_node_capabilities capabilities n]>);;
      event ← append_event_tx
        (new_event_of corp_id None "runner.capabilities_updated" "runner" epoch
           ("runner-capabilities:" +:+ runner_id +:+ ":" +:+ uuid_to_string epoch +:+ ":"
            +:+ json_sha256 capabilities)
           (json_object [("runner_id", JStr runner_id)]));
      mret (true, event)
  end.

(** [active_runner_run_rows]: run, corp, room and mission, ORDER BY created_at *)
Definition run_place (db : exec_db) (r : x_run) : option (uuid * uuid) :=
  t ← task_of db (rb_task (rn_binding r)); m ← mission_of db (ta_mission t); Some (mi_room m, ta_mission t).
Definition active_runner_run_rows (runner_id : string) (db : exec_db) : list (uuid * uuid * (uuid * uuid)) :=
  omap (λ '(id, r), place ← run_place db r; Some (id, rb_corp (rn_binding r), place))
    (sort_by earlier_run
       (List.filter (λ '(_, r), seqb (rb_runner (rn_binding r)) runner_id && run_active (rn_status r))
          (map_to_list (co_runs (x_core db))))).

Definition runner_run_event (corp_id : uuid) (place : uuid * uuid) (event_type : string) (run_id : uuid)
    (key : string) (payload : json) : new_event :=
  correlated (Some place.2)
    (at_version (Some place.1) 1 (new_event_of corp_id None event_type "run" run_id key payload)).
Definition start_grace (runner_id : string) (epoch : uuid) (grace_expires_at : timestamp)
    (row : uuid * uuid * (uuid * uuid)) : txn exec_db (list new_event) :=
  let '(run_id, corp_id, place) := row in
  event ← append_event_tx
    (runner_run_event corp_id place "runner.grace_started" run_id
       ("runner-grace:" +:+ runner_id +:+ ":" +:+ uuid_to_string epoch +:+ ":" +:+ uuid_to_string run_id)
       (json_object [("runner_id", JStr runner_id);
                     ("grace_expires_at", JStr (timestamp_rfc3339 grace_expires_at))]));
  mret (option_list event).

Definition runner_disconnected (env : runner_env) (runner_id : string) (epoch : uuid) (grace_seconds : Z) :
    txn runner_db (list new_event) :=
  let grace_expires_at := (re_clock env + seconds (Z.max grace_seconds 1))%Z in
  updated ← update_node_at runner_id epoch NodeConnected
    (λ n, set_node_status NodeGrace (set_node_grace (Some (re_now env)) (Some grace_expires_at) n));
  match updated with
  | false => mret []
  | true =>
      rows ← gets (λ db, active_runner_run_rows runner_id (rd_exec db));
      events ← in_exec (each (start_grace runner_id epoch grace_expires_at) rows);
      mret (concat events)
  end.

Definition grace_over (now : timestamp) (n : runner_node) : bool :=
  match no_grace_expires_at n with Some at_ => (at_ <=? now)%Z | None => false end.
Definition expire_runner_grace (env : runner_env) (runner_id : string) (epoch : uuid) :
    txn runner_db (list new_event) :=
  found ← gets (λ db, n ← node_at runner_id epoch NodeGrace db;
                      if grace_over (re_now env) n then Some n else None);
  match found with
  | None => mret []
  | Some n =>
      modify (on_nodes <[runner_id :=
        set_node_status NodeOffline (set_node_grace (no_disconnected_at n) None n)]>);;
      in_exec (mark_runner_runs_lost_tx (re_exec env) runner_id [] None "runner grace period expired")
  end.

(** ** What a runner claims *)
Record run_claim := RunClaim { cm_run_id : uuid; cm_assignment_token : uuid }.
Record runner_reconcile_outcome := RunnerReconcileOutcome {
  rco_accepted : list uuid; rco_stale : list uuid; rco_events : list new_event }.

Definition claimed_run (runner_id : string) (claim : run_claim) (db : exec_db) :
    option (uuid * (uuid * uuid)) :=
  r ← run_of db (cm_run_id claim);
  if seqb (rb_runner (rn_binding r)) runner_id && run_active (rn_status r)
     && (rb_assignment_token (rn_binding r) =? cm_assignment_token claim)%N
  then place ← run_place db r; Some (rb_corp (rn_binding r), place) else None.
Fixpoint reconcile_claims (runner_id : string) (epoch : uuid) (claims : list run_claim) :
    txn exec_db runner_reconcile_outcome :=
  match claims with
  | [] => mret (RunnerReconcileOutcome [] [] [])
  | claim :: rest =>
      row ← gets (claimed_run runner_id claim);
      match row with
      | None =>
          out ← reconcile_claims runner_id epoch rest;
          mret (RunnerReconcileOutcome (rco_accepted out) (cm_run_id claim :: rco_stale out) (rco_events out))
      | Some (corp_id, place) =>
          event ← append_event_tx
            (runner_run_event corp_id place "run.reconciled" (cm_run_id claim)
               ("run-reconciled:" +:+ uuid_to_string (cm_run_id claim) +:+ ":" +:+ uuid_to_string epoch)
               (json_object [("runner_id", JStr runner_id)]));
          out ← reconcile_claims runner_id epoch rest;
          mret (RunnerReconcileOutcome (cm_run_id claim :: rco_accepted out) (rco_stale out)
                  (option_list event ++ rco_events out))
      end
  end.
Definition reconcile_runner_claims (runner_id : string) (epoch : uuid) (claims : list run_claim) :
    txn runner_db runner_reconcile_outcome :=
  connected ← gets (λ db, is_some (node_at runner_id epoch NodeConnected db));
  lift (bail_if (negb connected) "runner connection epoch is not active");;
  in_exec (reconcile_claims runner_id epoch claims).

Definition mark_unclaimed_runner_runs_lost (env : runner_env) (runner_id : string) (epoch : uuid)
    (accepted_claims : list uuid) : txn runner_db (list new_event) :=
  found ← gets (node_at runner_id epoch NodeConnected);
  match found with
  | None => mret []
  | Some n =>
      in_exec (mark_runner_runs_lost_tx (re_exec env) runner_id accepted_claims (Some (no_connected_at n))
        "runner reconnected without an active claim")
  end.

(** ** Queries, ORDER BY id *)
Definition runner_before (x y : runner_record) : bool := str_leb (rr_id x) (rr_id y).
Definition records_where (p : runner_node → bool) (db : runner_db) : list runner_record :=
  sort_by runner_before
    (omap (λ '(id, n), if p n then Some (RunnerRecord id n) else None) (map_to_list (rd_nodes db))).
Definition runner_records (corp_id : uuid) : runner_db → list runner_record :=
  records_where (λ n, (no_corp_id n =? corp_id)%N).
Definition runner_records_requiring_recovery : runner_db → list runner_record :=
  records_where (λ n, negb (bool_decide (no_status n = NodeOffline))).
Definition connected_runner_count (db : runner_db) : Z :=
  vec_len (List.filter (λ '(_, n), bool_decide (no_status n = NodeConnected)) (map_to_list (rd_nodes db))).

(** ** The requests on runners *)
Inductive runner_request :=
| Enroll (corp_id actor_id : uuid) (runner_id token_hash : string) (expires_at : timestamp)
| Authenticate (corp_id : uuid) (runner_id presented next : string) (expires_at : timestamp)
| Revoke (corp_id actor_id : uuid) (runner_id reason : string)
| Connect (input : runner_connect_input)
| Heartbeat (runner_id : string) (epoch : uuid)
| UpdateCapabilities (corp_id : uuid) (runner_id : string) (epoch : uuid) (capabilities : json)
| Disconnect (runner_id : string) (epoch : uuid) (grace_seconds : Z)
| ExpireGrace (runner_id : string) (epoch : uuid)
| Reconcile (runner_id : string) (epoch : uuid) (claims : list run_claim)
| MarkUnclaimed (runner_id : string) (epoch : uuid) (accepted_claims : list uuid).

Definition drop_answer {S A} (t : txn S A) : txn S unit := t;; mret tt.
Definition runner_handler (env : runner_env) (request : runner_request) : txn runner_db unit :=
  match request with
  | Enroll corp actor runner hash at_ => drop_answer (create_runner_enrollment env corp actor runner hash at_)
  | Authenticate corp runner presented next at_ =>
      drop_answer (authenticate_and_rotate_runner env corp runner presented next at_)
  | Revoke corp actor runner reason => drop_answer (revoke_runner env corp actor runner reason)
  | Connect input => drop_answer (runner_connected env input)
  | Heartbeat runner epoch => drop_answer (runner_heartbeat env runner epoch)
  | UpdateCapabilities corp runner epoch caps => drop_answer (update_runner_capabilities corp runner epoch caps)
  | Disconnect runner epoch grace => drop_answer (runner_disconnected env runner epoch grace)
  | ExpireGrace runner epoch => drop_answer (expire_runner_grace env runner epoch)
  | Reconcile runner epoch claims => drop_answer (reconcile_runner_claims runner epoch claims)
  | MarkUnclaimed runner epoch accepted => drop_answer (mark_unclaimed_runner_runs_lost env runner epoch accepted)
  end.
Definition runner_handle (env : runner_env) (request : runner_request) (db : runner_db) : runner_db :=
  (run_txn (runner_handler env request) db).2.

(** The system: requests on runners, and execution between them. *)
Inductive runner_step : runner_db → runner_db → Prop :=
| runner_step_request env request db : runner_step db (runner_handle env request db)
| runner_step_exec db e : exec_step (rd_exec db) e → runner_step db (set_exec e db).
End runners.
