(* ===== verification/RunnerSafety.v ===== *)
(** * What holds of runners

    Every request on runners moves the tables of execution by steps of
    [Execution], so everything proved there holds under any mix of requests
    ([runner_requests_refine_execution]).  A presented token works once
    ([presented_tokens_work_once]); an older epoch changes nothing
    ([stale_epochs_change_nothing]); claims are accepted exactly for the active
    assignments ([claims_are_decided_exactly]); a run bound to a saved
    connection starts only on a connected machine ([bound_runs_need_their_machine]).
    [enrolment_takes_over_runner] and [revoked_runner_connects] are behaviours the
    code does not mean. *)
From S2P Require Import Prelude Text Json Domain Planning Deliverable FactoryPolicy Store FactoryItems Breaker ExecTables Checkpoint RunFailure RunEvents Dispatch Decisions ExecSpec EventSteps AttemptSteps Execution ExecGuards Access Runners.

(** ** Requests on runners are steps of execution *)
Section refinement.
Context `{Serde} `{ExecSerde}.

Definition exec_moves (db db' : runner_db) : Prop := rtc exec_step (rd_exec db) (rd_exec db').
#[local] Instance exec_moves_preorder : PreOrder exec_moves.
Proof. split; [by intros ?; apply rtc_refl | unfold exec_moves; intros x y z ? ?; by etrans]. Qed.

Lemma world_refl c : world_moves c c.
Proof.
  split; try done; intros id; destruct (_ !! id) as [x|]; constructor; split_and!; try done; by left.
Qed.
Lemma core_kept s s' : x_core s' = x_core s → exec_step s s'.
Proof. intros E. apply step_world. rewrite E. apply world_refl. Qed.
Lemma moves_core_kept db db' : x_core (rd_exec db') = x_core (rd_exec db) → exec_moves db db'.
Proof. intros E. by apply rtc_once, core_kept. Qed.

(** Appending events keeps the core tables. *)
Definition core_same (s s' : exec_db) : Prop := x_core s' = x_core s.
#[local] Instance core_same_preorder : PreOrder core_same.
Proof. split; unfold core_same; congruence. Qed.
Lemma core_append event : txn_within core_same (append_event_tx event).
Proof. apply within_append; [apply _ |]. intros s. by unfold core_same. Qed.
#[local] Hint Resolve core_append : within.
Lemma core_each {A B} (f : A → txn exec_db B) xs : (∀ x, txn_within core_same (f x)) →
  txn_within core_same (each f xs).
Proof. intros Hf. induction xs; simpl; within. Qed.
Lemma core_start_grace runner epoch at_ row : txn_within core_same (start_grace runner epoch at_ row).
Proof. destruct row as [[run corp] place]. unfold start_grace. within. Qed.
Lemma core_reconcile runner epoch claims : txn_within core_same (reconcile_claims runner epoch claims).
Proof. induction claims; simpl; within. Qed.

Lemma moves_in_exec {A} (t : txn exec_db A) : (∀ s a s', t s = Ok (a, s') → rtc exec_step s s') →
  txn_within exec_moves (in_exec t).
Proof.
  intros Ht db a db'. unfold in_exec. destruct (t (rd_exec db)) as [[b e]|] eqn:E; [| done].
  intros [= <- <-]. unfold exec_moves. etrans; [by eapply Ht |]. simpl. by apply rtc_once, core_kept.
Qed.
Lemma moves_in_exec_core {A} (t : txn exec_db A) : txn_within core_same t → txn_within exec_moves (in_exec t).
Proof. intros Ht. apply moves_in_exec. intros s a s' Hx. apply rtc_once, core_kept. by eapply Ht. Qed.
Lemma moves_lost env runner excluded before reason :
  txn_within exec_moves (in_exec (mark_runner_runs_lost_tx env runner excluded before reason)).
Proof.
  apply moves_in_exec. intros s a s' Hx. apply rtc_once.
  assert (s' = handle env (RunnerLost runner excluded before reason) s) as ->; [| constructor].
  unfold handle, run_txn. simpl. unfold forget, mbind, txn_bind. by rewrite Hx.
Qed.

Lemma moves_tokens f : txn_within exec_moves (modify (on_tokens f)).
Proof. apply within_modify. intros db. by apply moves_core_kept. Qed.
Lemma moves_credentials f : txn_within exec_moves (modify (on_runner_credentials f)).
Proof. apply within_modify. intros db. by apply moves_core_kept. Qed.
Lemma moves_nodes f : txn_within exec_moves (modify (on_nodes f)).
Proof. apply within_modify. intros db. by apply moves_core_kept. Qed.
Lemma moves_append event : txn_within exec_moves (append_event_tx event).
Proof. apply within_append; [apply _ |]. intros db. by apply moves_core_kept. Qed.
Lemma moves_append_new event message : txn_within exec_moves (append_new_event event message).
Proof. apply within_append_new; [apply _ |]. intros db. by apply moves_core_kept. Qed.
Lemma moves_manager corp actor action : txn_within exec_moves (require_manager corp actor action).
Proof. unfold require_manager. within. Qed.
#[local] Hint Resolve moves_tokens moves_credentials moves_nodes moves_append moves_append_new moves_manager
  moves_lost : within.
Lemma moves_update_node runner epoch status f : txn_within exec_moves (update_node_at runner epoch status f).
Proof. unfold update_node_at. within. Qed.
Lemma moves_set_credential runner c : txn_within exec_moves (set_credential runner c).
Proof. unfold set_credential. within. Qed.
#[local] Hint Resolve moves_update_node moves_set_credential : within.
Lemma moves_drop {A} (t : txn runner_db A) : txn_within exec_moves t → txn_within exec_moves (drop_answer t).
Proof. intros Ht. unfold drop_answer. within. Qed.

Lemma runner_handler_moves env request : txn_within exec_moves (runner_handler env request).
Proof.
  pose proof (λ r e at_ rows, moves_in_exec_core _ (core_each (start_grace r e at_) rows (core_start_grace r e at_))).
  pose proof (λ r e claims, moves_in_exec_core _ (core_reconcile r e claims)).
  destruct request; simpl; apply moves_drop.
  - unfold create_runner_enrollment. within.
  - unfold authenticate_and_rotate_runner, exchange_credential. within.
  - unfold revoke_runner. within.
  - unfold runner_connected. within.
  - apply moves_update_node.
  - unfold update_runner_capabilities. within.
  - unfold runner_disconnected. within.
  - unfold expire_runner_grace. within.
  - unfold reconcile_runner_claims. within.
  - unfold mark_unclaimed_runner_runs_lost. within.
Qed.

Lemma runner_steps_exec db db' : rtc runner_step db db' → exec_moves db db'.
Proof.
  induction 1 as [db | d1 d2 d3 Hs _ IH]; [reflexivity |]. etrans; [| exact IH].
  destruct Hs as [env request d | d e He].
  - unfold runner_handle, run_txn. destruct (runner_handler env request d) as [[u d']|] eqn:E; [| reflexivity].
    by eapply runner_handler_moves.
  - unfold exec_moves. etrans; [by apply rtc_once |]. simpl. by apply rtc_once, core_kept.
Qed.

Lemma runner_requests_refine db db' : reachable (rd_exec db) → rtc runner_step db db' → reachable (rd_exec db').
Proof. intros (s0 & H0' & Hs) Hr%runner_steps_exec. exists s0. split; [done |]. by etrans. Qed.

(** C20: the tables of execution under runners: whatever runners enrol, connect,
    disconnect, claim, lose or are revoked, in any order and interleaved with
    execution, the tables of execution move by steps of [Execution] only; from empty
    tables its invariant holds throughout. *)
Theorem runner_requests_refine_execution db db' : rtc runner_step db db' →
  rtc exec_step (rd_exec db) (rd_exec db') ∧
  (x_core (rd_exec db) = empty_core → reachable (rd_exec db') ∧ core_inv (x_core (rd_exec db'))).
Proof.
  intros Hs%runner_steps_exec. split; [exact Hs |]. intros Hempty.
  assert (reachable (rd_exec db')) as Hr by (by exists (rd_exec db)).
  split; [done | by apply reachable_inv].
Qed.
End refinement.

(** ** Tokens *)
Definition introduces (request : runner_request) : option string :=
  match request with
  | Enroll _ _ _ hash _ => Some hash
  | Authenticate _ _ _ next _ => Some next
  | _ => None
  end.
Definition hash_known (h : string) (db : runner_db) : Prop :=
  (∃ id t, rd_tokens db !! id = Some t ∧ et_token_hash t = h) ∨
  (∃ r c, rd_credentials db !! r = Some c ∧ rk_token_hash c = h).
(** Nothing answers to this hash any more. *)
Record spent (h : string) (db : runner_db) : Prop := {
  sp_tokens id t : rd_tokens db !! id = Some t → et_token_hash t = h → et_used_at t ≠ None;
  sp_credentials r c : rd_credentials db !! r = Some c → rk_token_hash c ≠ h;
}.
(** A hash names one token or one credential. *)
Record tokens_wf (db : runner_db) : Prop := {
  tw_tokens id id' t t' : rd_tokens db !! id = Some t → rd_tokens db !! id' = Some t' →
    et_token_hash t = et_token_hash t' → id = id';
  tw_credentials r r' c c' : rd_credentials db !! r = Some c → rd_credentials db !! r' = Some c' →
    rk_token_hash c = rk_token_hash c' → r = r';
  tw_apart id t r c : rd_tokens db !! id = Some t → et_used_at t = None →
    rd_credentials db !! r = Some c → et_token_hash t ≠ rk_token_hash c;
}.

Section tokens.
Context `{Serde} `{ExecSerde}.

(** Requests bring hashes that were not seen before, or at least not [h]. *)
Inductive fresh_step : runner_db → runner_db → Prop :=
| fresh_request env request db : (∀ h, introduces request = Some h → ¬ hash_known h db) →
    fresh_step db (runner_handle env request db)
| fresh_exec db e : exec_step (rd_exec db) e → fresh_step db (set_exec e db).
Inductive step_without (h : string) : runner_db → runner_db → Prop :=
| without_request env request db : introduces request ≠ Some h →
    step_without h db (runner_handle env request db)
| without_exec db e : exec_step (rd_exec db) e → step_without h db (set_exec e db).

Definition tables_same (db db' : runner_db) : Prop :=
  rd_tokens db' = rd_tokens db ∧ rd_credentials db' = rd_credentials db.
#[local] Instance tables_same_preorder : PreOrder tables_same.
Proof. split; [by split |]. intros x y z [? ?] [? ?]. split; congruence. Qed.

Lemma tables_nodes f : txn_within tables_same (modify (on_nodes f)).
Proof. by apply within_modify. Qed.
Lemma tables_append event : txn_within tables_same (append_event_tx event).
Proof. by apply within_append; [apply _ |]. Qed.
Lemma tables_append_new event message : txn_within tables_same (append_new_event event message).
Proof. by apply within_append_new; [apply _ |]. Qed.
Lemma tables_in_exec {A} (t : txn exec_db A) : txn_within tables_same (in_exec t).
Proof. intros db a db'. unfold in_exec. case_match; [| done]. case_match. by intros [= <- <-]. Qed.
Lemma tables_manager corp actor action : txn_within tables_same (require_manager corp actor action).
Proof. unfold require_manager. within. Qed.
#[local] Hint Resolve tables_nodes tables_append tables_append_new tables_in_exec tables_manager : within.
Lemma tables_update_node runner epoch status f : txn_within tables_same (update_node_at runner epoch status f).
Proof. unfold update_node_at. within. Qed.
#[local] Hint Resolve tables_update_node : within.

(** Only three requests touch the tables of tokens and credentials. *)
Lemma tables_handler env request :
  match request with Enroll _ _ _ _ _ | Authenticate _ _ _ _ _ | Revoke _ _ _ _ => False | _ => True end →
  txn_within tables_same (runner_handler env request).
Proof.
  destruct request; simpl; intros Hr; try done; unfold drop_answer, runner_connected, runner_heartbeat,
    update_runner_capabilities, runner_disconnected, expire_runner_grace, reconcile_runner_claims,
    mark_unclaimed_runner_runs_lost; within.
Qed.


(** What the three requests write. *)
Lemma drop_ok {S A} (t : txn S A) s u s' : drop_answer t s = Ok (u, s') → ∃ a, t s = Ok (a, s').
Proof. unfold drop_answer. intros Hx. txn_inv. eauto. Qed.

Lemma enroll_tables env corp actor runner hash at_ db u db' :
  create_runner_enrollment env corp actor runner hash at_ db = Ok (u, db') →
  enrollment_taken (re_id env) hash db = false ∧ rd_credentials db' = rd_credentials db ∧
  rd_tokens db' = <[re_id env := EnrollmentToken corp (trim runner) hash actor at_ None]> (rd_tokens db).
Proof.
  unfold create_runner_enrollment, require_manager. intros Hx. txn_inv. simpl in *.
  repeat match goal with H : bail_if ?b _ = Ok _ |- _ => destruct b eqn:?; [discriminate H |]; clear H end.
  done.
Qed.

Lemma set_credential_ok runner c db u db' : set_credential runner c db = Ok (u, db') →
  credential_taken runner (rk_id c) (rk_token_hash c) db = false ∧
  db' = on_runner_credentials <[runner := c]> db.
Proof.
  unfold set_credential. intros Hx. txn_inv.
  match goal with H : bail_if ?b _ = Ok _ |- _ => destruct b eqn:E; [discriminate H |] end. done.
Qed.
Lemma credential_not_taken runner id hash db r c : credential_taken runner id hash db = false →
  rd_credentials db !! r = Some c → rk_token_hash c = hash → r = runner.
Proof.
  unfold credential_taken. intros Ht Hc Hh. destruct (decide (r = runner)) as [| Hne]; [done |]. exfalso.
  apply not_true_iff_false in Ht. apply Ht, existsb_exists. exists (r, c). split.
  - by apply list_elem_of_In, elem_of_map_to_list.
  - rewrite andb_true_iff, negb_true_iff, orb_true_iff, <-not_true_iff_false, !seqb_eq. auto.
Qed.

(** An exchange rotates a live credential, or uses a token up. *)
Lemma authenticate_tables env corp runner h next at_ db u db' :
  authenticate_and_rotate_runner env corp runner h next at_ db = Ok (u, db') →
  (∃ c, live_credential (re_now env) corp runner h db = Some c ∧ rd_tokens db' = rd_tokens db ∧
     (∀ r c', rd_credentials db !! r = Some c' → rk_token_hash c' = next → r = runner) ∧
     rd_credentials db' = <[runner := rotate next at_ c]> (rd_credentials db)) ∨
  (∃ id t, live_credential (re_now env) corp runner h db = None ∧
     rd_tokens db !! id = Some t ∧ token_usable (re_now env) corp runner h t = true ∧
     rd_tokens db' = <[id := use_token (re_now env) t]> (rd_tokens db) ∧
     (∀ r c', rd_credentials db !! r = Some c' → rk_token_hash c' = next → r = runner) ∧
     rd_credentials db' =
       <[runner := RunnerCredential (re_id env) corp next at_ None (et_created_by t)]> (rd_credentials db)).
Proof.
  unfold authenticate_and_rotate_runner, exchange_credential. intros Hx. txn_inv.
  match goal with H : (match live_credential ?n ?c ?r ?k ?d with _ => _ end) _ = _ |- _ =>
    destruct (live_credential n c r k d) as [c0|] eqn:Hc end; txn_inv.
  - left. exists c0. match goal with H : set_credential _ _ _ = _ |- _ => apply set_credential_ok in H as [Ht ->] end.
    simpl. split; [done |]. split; [done |]. split; [| done].
    intros r c' Hr Hh. by eapply credential_not_taken.
  - right. match goal with H : with_context _ _ = Ok _ |- _ => apply with_context_ok in H; rename H into Hf end.
    match type of Hf with _ = Some ?x => destruct x as [id t] end. txn_inv.
    match goal with H : set_credential _ _ _ = _ |- _ => apply set_credential_ok in H as [Ht ->] end.
    unfold usable_enrollment in Hf. apply List.find_some in Hf as [Hin Hu].
    apply list_elem_of_In, elem_of_map_to_list in Hin. exists id, t. simpl in *.
    split; [done |]. split; [done |]. split; [done |]. split.
    { apply map_eq. intros i. destruct (decide (i = id)) as [-> |].
      - by rewrite lookup_alter_eq, lookup_insert_eq, Hin.
      - by rewrite lookup_alter_ne, lookup_insert_ne by done. }
    split; [| done]. intros r c' Hr Hh. by eapply (credential_not_taken runner _ _ _ r c' Ht).
Qed.

Lemma enrollment_not_taken id hash db i t : enrollment_taken id hash db = false →
  rd_tokens db !! i = Some t → i ≠ id ∧ et_token_hash t ≠ hash.
Proof.
  unfold enrollment_taken. intros [Hid Hh]%orb_false_iff Ht. split; [intros -> | intros Hash].
  - by rewrite Ht in Hid.
  - apply not_true_iff_false in Hh. apply Hh, existsb_exists. exists (i, t).
    split; [by apply list_elem_of_In, elem_of_map_to_list | by apply seqb_eq].
Qed.
Lemma live_credential_ok now corp runner h db c : live_credential now corp runner h db = Some c →
  rd_credentials db !! runner = Some c ∧ rk_corp_id c = corp ∧ rk_token_hash c = h ∧
  rk_revoked_at c = None ∧ (now < rk_expires_at c)%Z.
Proof.
  unfold live_credential. intros (c0 & Hc & Hx)%bind_Some. case_match eqn:E; [| done]. injection Hx as ->.
  rewrite !andb_true_iff, N.eqb_eq, seqb_eq, Z.ltb_lt, negb_true_iff in E.
  destruct E as [[[? ?] Hr] ?]. by destruct (rk_revoked_at c).
Qed.
Lemma token_usable_ok now corp runner h t : token_usable now corp runner h t = true ↔
  et_corp_id t = corp ∧ et_runner_id t = runner ∧ et_token_hash t = h ∧ et_used_at t = None ∧
  (now < et_expires_at t)%Z.
Proof.
  unfold token_usable. rewrite !andb_true_iff, N.eqb_eq, !seqb_eq, Z.ltb_lt, negb_true_iff.
  destruct (et_used_at t); simpl; naive_solver.
Qed.

Lemma revoke_tables env corp actor runner reason db u db' :
  revoke_runner env corp actor runner reason db = Ok (u, db') →
  rd_tokens db' = rd_tokens db ∧
  (rd_credentials db' = rd_credentials db ∨
   rd_credentials db' = alter (revoke (re_now env)) runner (rd_credentials db)).
Proof.
  unfold revoke_runner. intros Hx. apply txn_bind_ok in Hx as ([] & s1 & H1%tables_manager & Hx).
  destruct H1 as [T1 C1]. txn_inv. destruct (revocable corp runner s1) as [c|]; [| by txn_inv; auto].
  txn_inv. match goal with H : in_exec _ _ = _ |- _ => apply tables_in_exec in H as [T2 C2] end.
  match goal with H : append_event_tx _ _ = _ |- _ => apply tables_append in H as [T3 C3] end.
  simpl in *. rewrite T3, C3, T2, C2, T1, C1. auto.
Qed.

(** The cases of a request, for what is kept by the tables. *)
Lemma handle_cases (P : runner_db → Prop) env request db :
  (∀ db', rd_tokens db' = rd_tokens db → rd_credentials db' = rd_credentials db → P db') →
  (∀ db' runner now, rd_tokens db' = rd_tokens db →
     rd_credentials db' = alter (revoke now) runner (rd_credentials db) → P db') →
  (∀ corp actor runner hash at_ u db', request = Enroll corp actor runner hash at_ →
     create_runner_enrollment env corp actor runner hash at_ db = Ok (u, db') → P db') →
  (∀ corp runner h next at_ u db', request = Authenticate corp runner h next at_ →
     authenticate_and_rotate_runner env corp runner h next at_ db = Ok (u, db') → P db') →
  P (runner_handle env request db).
Proof.
  intros Hsame Hrevoke Henroll Hauth. unfold runner_handle, run_txn.
  destruct (runner_handler env request db) as [[u db']|] eqn:E; [simpl | by apply Hsame].
  destruct request;
    try (match type of E with runner_handler _ ?r _ = _ => destruct (tables_handler env r I _ _ _ E) as [? ?] end;
         by apply Hsame);
    simpl in E; apply drop_ok in E as [a E].
  - by eapply Henroll.
  - by eapply Hauth.
  - apply revoke_tables in E as [Ht [Hc | Hc]]; [by apply Hsame | by eapply Hrevoke].
Qed.

Lemma spent_handle h env request db : introduces request ≠ Some h → spent h db →
  spent h (runner_handle env request db).
Proof.
  intros Hi [St Sc]. apply handle_cases.
  - intros db' Ht Hc. split; rewrite ?Ht, ?Hc; auto.
  - intros db' runner now Ht Hc. split; rewrite ?Ht, ?Hc; [auto |]. intros r c Hr.
    apply lookup_alter_Some in Hr as [(-> & c0 & Hr & ->) | [_ Hr]]; apply (Sc _ _ Hr).
  - intros corp actor runner hash at_ u db' -> Hx. simpl in Hi.
    apply enroll_tables in Hx as (Hf & Hc & Ht). split; rewrite ?Ht, ?Hc; [| auto].
    intros id t [[<- <-] | [_ Hl]]%lookup_insert_Some Hh; [simpl in Hh; congruence | by eapply St].
  - intros corp runner h' next at_ u db' -> Hx. simpl in Hi.
    apply authenticate_tables in Hx as [(c & _ & Ht & _ & Hc) | (id & t & _ & Hin & Hu & Ht & _ & Hc)].
    + split; rewrite ?Ht, ?Hc; [auto |]. intros r c' [[<- <-] | [_ Hl]]%lookup_insert_Some; [| by eapply Sc].
      simpl. congruence.
    + split; rewrite ?Ht, ?Hc.
      * intros i t' [[<- <-] | [_ Hl]]%lookup_insert_Some Hh; [done | by eapply St].
      * intros r c' [[<- <-] | [_ Hl]]%lookup_insert_Some; [| by eapply Sc]. simpl. congruence.
Qed.
Lemma spent_step h db db' : step_without h db db' → spent h db → spent h db'.
Proof. intros [env request d Hi | d e He]; [by apply spent_handle |]. intros [St Sc]. by split. Qed.
Lemma spent_steps h db db' : rtc (step_without h) db db' → spent h db → spent h db'.
Proof. induction 1; eauto using spent_step. Qed.

Lemma wf_handle env request db : (∀ h, introduces request = Some h → ¬ hash_known h db) →
  tokens_wf db → tokens_wf (runner_handle env request db).
Proof.
  intros Hf [Wt Wc Wa]. apply handle_cases.
  - intros db' Ht Hc. split; rewrite ?Ht, ?Hc; auto.
  - intros db' runner now Ht Hc.
    assert (∀ r c, rd_credentials db' !! r = Some c →
      ∃ c0, rd_credentials db !! r = Some c0 ∧ rk_token_hash c0 = rk_token_hash c) as Hb.
    { rewrite Hc. intros r c [(-> & c0 & Hr & ->) | [_ Hr]]%lookup_alter_Some; eauto. }
    split; rewrite ?Ht; [done | |].
    + intros r r' c c' (x & Hx & Ex)%Hb (y & Hy & Ey)%Hb Hh. apply (Wc r r' x y); congruence.
    + intros id t r c Hi Hu (x & Hx & Ex)%Hb. rewrite <-Ex. eauto.
  - intros corp actor runner hash at_ u db' -> Hx. specialize (Hf hash eq_refl).
    apply enroll_tables in Hx as (Hn & Hc & Ht).
    assert (∀ i t, rd_tokens db !! i = Some t → et_token_hash t ≠ hash) as Hne.
    { intros i t Hi. by apply (enrollment_not_taken _ _ _ _ _ Hn Hi). }
    split; rewrite ?Ht, ?Hc; [| done |].
    + intros i i' t t' [[<- <-] | [_ Hi]]%lookup_insert_Some [[<- <-] | [_ Hi']]%lookup_insert_Some Hh;
        simpl in *; [done | | | by eapply Wt]; exfalso.
      * by apply (Hne _ _ Hi').
      * by apply (Hne _ _ Hi).
    + intros i t r c [[<- <-] | [_ Hi]]%lookup_insert_Some Hu Hr; [| by eapply Wa]. simpl. intros ->.
      apply Hf. right. eauto.
  - intros corp runner h next at_ u db' -> Hx. specialize (Hf next eq_refl).
    assert (∀ i t, rd_tokens db !! i = Some t → et_token_hash t ≠ next) as Hne.
    { intros i t Hi E. apply Hf. left. eauto. }
    assert (∀ r c, rd_credentials db !! r = Some c → rk_token_hash c ≠ next) as Hnc.
    { intros r c Hi E. apply Hf. right. eauto. }
    assert (∀ new, rk_token_hash new = next → rd_credentials db' = <[runner := new]> (rd_credentials db) →
      (∀ r r' c c', rd_credentials db' !! r = Some c → rd_credentials db' !! r' = Some c' →
         rk_token_hash c = rk_token_hash c' → r = r')) as Hcr.
    { intros new Hnew -> r r' c c' [[<- <-] | [_ Hi]]%lookup_insert_Some
        [[<- <-] | [_ Hi']]%lookup_insert_Some Hh; [done | | | by eapply Wc]; exfalso.
      - apply (Hnc _ _ Hi'). congruence.
      - apply (Hnc _ _ Hi). congruence. }
    apply authenticate_tables in Hx as [(c & _ & Ht & _ & Hc) | (id & t & _ & Hin & Hu & Ht & _ & Hc)].
    + split; [rewrite Ht; auto | by eapply Hcr; [| exact Hc] |]. rewrite Ht, Hc.
      intros i t r c' Hi Hun [[<- <-] | [_ Hl]]%lookup_insert_Some; [by eapply Hne | by eapply Wa].
    + split; [rewrite Ht | by eapply Hcr; [| exact Hc] | rewrite Ht, Hc].
      * intros i i' t1 t2 [[<- <-] | [_ Hi]]%lookup_insert_Some [[<- <-] | [_ Hi']]%lookup_insert_Some Hh;
          [done | by eapply Wt | by eapply Wt | by eapply Wt].
      * intros i t' r c' [[<- <-] | [_ Hi]]%lookup_insert_Some Hun Hr; [done |].
        apply lookup_insert_Some in Hr as [[<- <-] | [_ Hl]]; [by eapply Hne | by eapply Wa].
Qed.
Lemma wf_steps db db' : rtc fresh_step db db' → tokens_wf db → tokens_wf db'.
Proof.
  induction 1 as [| d1 d2 d3 Hs _ IH]; [done |]. intros W. apply IH. destruct Hs as [env req d Hf | d e He].
  - by apply wf_handle.
  - destruct W. by split.
Qed.
Lemma wf_empty db : rd_tokens db = ∅ → rd_credentials db = ∅ → tokens_wf db.
Proof. intros Ht Hc. split; rewrite ?Ht, ?Hc; intros *; by rewrite !lookup_empty. Qed.

Lemma exchange_spends env corp runner h next at_ db u db' : tokens_wf db → next ≠ h →
  authenticate_and_rotate_runner env corp runner h next at_ db = Ok (u, db') → spent h db'.
Proof.
  intros [Wt Wc Wa] Hne Hx.
  apply authenticate_tables in Hx as [(c & Hl & Ht & _ & Hc) | (id & t & _ & Hin & Hu & Ht & _ & Hc)].
  - apply live_credential_ok in Hl as (Hr & _ & Hh & _). split; rewrite ?Ht, ?Hc.
    + intros i t Hi Hth Hun. by apply (Wa _ _ _ _ Hi Hun Hr); congruence.
    + intros r c' [[<- <-] | [Hd Hl]]%lookup_insert_Some; [done |]. intros Hh'. apply Hd.
      apply (Wc _ _ _ _ Hr Hl). congruence.
  - apply token_usable_ok in Hu as (_ & _ & Hh & Hun & _). split; rewrite ?Ht, ?Hc.
    + intros i t' [[<- <-] | [Hd Hl]]%lookup_insert_Some Hh'; [done |]. exfalso. apply Hd.
      apply (Wt _ _ _ _ Hin Hl). congruence.
    + intros r c' [[<- <-] | [_ Hl]]%lookup_insert_Some; [done |]. intros E.
      apply (Wa _ _ _ _ Hin Hun Hl). congruence.
Qed.

Definition refused_credential : string := "forbidden: unknown, expired, replayed, or revoked runner credential".
Lemma exchange_needs env corp runner h next at_ db :
  live_credential (re_now env) corp runner h db = None →
  (∀ id t, rd_tokens db !! id = Some t → token_usable (re_now env) corp runner h t = false) →
  authenticate_and_rotate_runner env corp runner h next at_ db = Err refused_credential.
Proof.
  intros Hl Ht. unfold authenticate_and_rotate_runner, exchange_credential, mbind, txn_bind, gets. rewrite Hl.
  assert (usable_enrollment (re_now env) corp runner h db = None) as ->; [| done].
  unfold usable_enrollment. destruct (List.find _ _) as [[id t]|] eqn:E; [| done].
  apply List.find_some in E as [Hin Hu]. apply list_elem_of_In, elem_of_map_to_list in Hin.
  simpl in Hu. by rewrite (Ht _ _ Hin) in Hu.
Qed.
Lemma spent_refused h env corp runner next at_ db : spent h db →
  authenticate_and_rotate_runner env corp runner h next at_ db = Err refused_credential.
Proof.
  intros [St Sc]. apply exchange_needs.
  - destruct (live_credential _ _ _ _ _) as [c|] eqn:E; [| done].
    apply live_credential_ok in E as (Hr & _ & Hh & _). by destruct (Sc _ _ Hr).
  - intros id t Hi. apply not_true_iff_false. intros (_ & _ & Hh & Hu & _)%token_usable_ok.
    by apply (St _ _ Hi Hh).
Qed.

(** C19: a presented token works once: in every history in which the hashes of new
    tokens were not seen before, an enrolment token or a credential that was
    exchanged is refused ever after, for every Corp and runner, as long as no
    request introduces its hash again. *)
Theorem presented_tokens_work_once db0 db env corp runner h next at_ out db1 db2 :
  rd_tokens db0 = ∅ → rd_credentials db0 = ∅ → rtc fresh_step db0 db →
  authenticate_and_rotate_runner env corp runner h next at_ db = Ok (out, db1) → next ≠ h →
  rtc (step_without h) db1 db2 →
  ∀ env' corp' runner' next' at_',
    authenticate_and_rotate_runner env' corp' runner' h next' at_' db2 = Err refused_credential.
Proof.
  intros Ht Hc Hs Hx Hne Hs' *. apply spent_refused, (spent_steps h db1); [done |].
  eapply exchange_spends; [| exact Hne | exact Hx]. eapply wf_steps; [exact Hs |]. by apply wf_empty.
Qed.
End tokens.

(** ** Revoked runners *)
Section revoked.
Context `{Serde} `{ExecSerde}.

(** The runner has no credential in force and no token to use. *)
Record locked_out (runner : string) (db : runner_db) : Prop := {
  lk_credential c : rd_credentials db !! runner = Some c → rk_revoked_at c ≠ None;
  lk_tokens id t : rd_tokens db !! id = Some t → et_runner_id t = runner → et_used_at t ≠ None;
}.
(** A step that enrols this runner for nobody. *)
Inductive step_not_enrolling (runner : string) : runner_db → runner_db → Prop :=
| not_enrolling_request env request db :
    (∀ corp actor id hash at_, request = Enroll corp actor id hash at_ → trim id ≠ runner) →
    step_not_enrolling runner db (runner_handle env request db)
| not_enrolling_exec db e : exec_step (rd_exec db) e → step_not_enrolling runner db (set_exec e db).

Lemma locked_out_refused runner env corp h next at_ db : locked_out runner db →
  authenticate_and_rotate_runner env corp runner h next at_ db = Err refused_credential.
Proof.
  intros [Lc Lt]. apply exchange_needs.
  - destruct (live_credential _ _ _ _ _) as [c|] eqn:E; [| done].
    apply live_credential_ok in E as (Hr & _ & _ & Hv & _). by destruct (Lc _ Hr).
  - intros id t Hi. apply not_true_iff_false. intros (_ & Hr & _ & Hu & _)%token_usable_ok.
    by apply (Lt _ _ Hi Hr).
Qed.
Lemma locked_out_step runner db db' : step_not_enrolling runner db db' → locked_out runner db →
  locked_out runner db'.
Proof.
  intros [env request d Hn | d e He] L; [| by destruct L]. pose proof L as [Lc Lt]. apply handle_cases.
  - intros d' Ht Hc. split; rewrite ?Ht, ?Hc; auto.
  - intros d' r now Ht Hc. split; rewrite ?Ht, ?Hc; [| auto].
    intros c [(-> & c0 & Hr & ->) | [_ Hr]]%lookup_alter_Some; [done | by apply Lc].
  - intros corp actor id hash at_ u d' -> Hx. specialize (Hn _ _ _ _ _ eq_refl).
    apply enroll_tables in Hx as (_ & Hc & Ht). split; rewrite ?Ht, ?Hc; [auto |].
    intros i t [[<- <-] | [_ Hl]]%lookup_insert_Some Hr; [by destruct Hn | by eapply Lt].
  - intros corp r h next at_ u d' -> Hx.
    destruct (decide (r = runner)) as [-> | Hne]; [by rewrite locked_out_refused in Hx |].
    apply authenticate_tables in Hx as [(c & _ & Ht & _ & Hc) | (id & t & _ & Hin & Hu & Ht & _ & Hc)];
      split; rewrite ?Ht, ?Hc.
    + intros c'. rewrite lookup_insert_ne by done. apply Lc.
    + auto.
    + intros c'. rewrite lookup_insert_ne by done. apply Lc.
    + intros i t' [[<- <-] | [_ Hl]]%lookup_insert_Some Hr; [done | by eapply Lt].
Qed.

Lemma revoke_locks env corp actor runner reason db out db' :
  revoke_runner env corp actor runner reason db = Ok (out, db') → rro_revoked out = true →
  (∀ id t, rd_tokens db !! id = Some t → et_runner_id t = runner → et_used_at t ≠ None) →
  locked_out runner db'.
Proof.
  intros Hx Hr Hu. pose proof Hx as Hx'. apply revoke_tables in Hx' as [Ht Hc].
  split; rewrite ?Ht; [| done]. destruct Hc as [Hc | Hc]; rewrite Hc; [exfalso |].
  - unfold revoke_runner in Hx. apply txn_bind_ok in Hx as ([] & s1 & H1%tables_manager & Hx).
    destruct H1 as [T1 C1]. txn_inv. destruct (revocable corp runner s1) as [c|] eqn:Ec; txn_inv; [| done].
    match goal with H : in_exec _ _ = _ |- _ => apply tables_in_exec in H as [T2 C2] end.
    match goal with H : append_event_tx _ _ = _ |- _ => apply tables_append in H as [T3 C3] end.
    simpl in *. rewrite C3, C2, <-C1 in Hc. unfold revocable in Ec.
    apply bind_Some in Ec as (c0 & Ec & Hv). case_match eqn:E; [| done]. apply andb_true_iff in E as [_ E].
    assert (alter (revoke (re_now env)) runner (rd_credentials s1) !! runner = rd_credentials s1 !! runner) as Hl
      by by rewrite Hc.
    rewrite lookup_alter_eq, Ec in Hl. injection Hl as Hl. by rewrite <-Hl in E.
  - intros c. rewrite lookup_alter_eq. destruct (rd_credentials db !! runner); simpl; [| done]. by intros [= <-].
Qed.

(** A revoked runner stays out: once the credential of a runner is revoked, and
    no enrolment token for it is outstanding, every credential it presents, to any
    Corp, is refused until somebody enrols it again. *)
Theorem revoked_runners_stay_out env corp actor runner reason db out db1 db2 :
  revoke_runner env corp actor runner reason db = Ok (out, db1) → rro_revoked out = true →
  (∀ id t, rd_tokens db !! id = Some t → et_runner_id t = runner → et_used_at t ≠ None) →
  rtc (step_not_enrolling runner) db1 db2 →
  ∀ env' corp' h next at_, authenticate_and_rotate_runner env' corp' runner h next at_ db2 = Err refused_credential.
Proof.
  intros Hx Hr Hu Hs *. apply locked_out_refused. assert (locked_out runner db1) as L by by eapply revoke_locks.
  clear Hx Hu. revert L. induction Hs; eauto using locked_out_step.
Qed.
End revoked.

(** ** Epochs *)
Section epochs.
Context `{Serde} `{ExecSerde}.

(** The connection a request speaks for, and the status it needs. *)
Definition speaks_of (request : runner_request) : option (string * uuid * node_status) :=
  match request with
  | Heartbeat runner epoch | UpdateCapabilities _ runner epoch _ | Disconnect runner epoch _
  | Reconcile runner epoch _ | MarkUnclaimed runner epoch _ => Some (runner, epoch, NodeConnected)
  | ExpireGrace runner epoch => Some (runner, epoch, NodeGrace)
  | _ => None
  end.
(** Older connections are fenced: a request that speaks for a connection changes
    nothing at all, tables of execution and event log included, unless the runner's
    row carries exactly that epoch in the status the request needs; and a grace
    period does not expire before its deadline. *)
Theorem stale_epochs_change_nothing env request runner epoch status db :
  speaks_of request = Some (runner, epoch, status) →
  (∀ n, rd_nodes db !! runner = Some n → no_connection_epoch n = epoch → no_status n = status →
     status = NodeGrace ∧ ∀ deadline, no_grace_expires_at n = Some deadline → (re_now env < deadline)%Z) →
  runner_handle env request db = db.
Proof.
  intros Hs Hn. assert (status ≠ NodeGrace → node_at runner epoch status db = None) as Hnone.
  { intros Hg. unfold node_at. destruct (rd_nodes db !! runner) as [n|] eqn:En; [| done]. simpl.
    destruct (no_connection_epoch n =? epoch)%N eqn:Ee; [| done]. case_bool_decide as Es; [| done].
    apply N.eqb_eq in Ee. by destruct (Hn n eq_refl Ee Es). }
  destruct request; simpl in Hs; try done; injection Hs as <- <- <-;
    first [assert (NodeConnected ≠ NodeGrace) as Hd by done; apply Hnone in Hd | pose proof I as Hd]; clear Hnone;
    unfold runner_handle, run_txn, runner_handler, drop_answer, runner_heartbeat, update_runner_capabilities,
      runner_disconnected, reconcile_runner_claims, mark_unclaimed_runner_runs_lost, expire_runner_grace,
      update_node_at, mbind, txn_bind, gets; rewrite ?Hd; try done.
  clear Hd.
  unfold node_at. destruct (rd_nodes db !! _) as [n|] eqn:En; [| done]. simpl.
  destruct (no_connection_epoch n =? _)%N eqn:Ee; [| done]. case_bool_decide as Es; [| done].
  simpl. apply N.eqb_eq in Ee. destruct (Hn n eq_refl Ee Es) as [_ Hd]. unfold grace_over.
  destruct (no_grace_expires_at n) as [d|]; [| done]. by rewrite (proj2 (Z.leb_gt _ _) (Hd d eq_refl)).
Qed.
End epochs.

(** ** Claims *)
Section claims.
Context `{Serde} `{ExecSerde}.

Definition claim_holds (runner : string) (db : exec_db) (claim : run_claim) : bool :=
  is_some (claimed_run runner claim db).
Lemma claimed_run_log runner claim s l :
  claimed_run runner claim (set_log l s) = claimed_run runner claim s.
Proof. done. Qed.
Lemma append_log_only event (s : exec_db) o s' : append_event_tx event s = Ok (o, s') →
  ∃ l, s' = set_log l s.
Proof.
  unfold append_event_tx. case_match; intros [= <- <-]; [| by eexists].
  exists (x_log s). by destruct s.
Qed.

Lemma reconcile_claims_ok runner epoch claims : ∀ s, ∃ events l,
  reconcile_claims runner epoch claims s =
    Ok (RunnerReconcileOutcome (cm_run_id <$> List.filter (claim_holds runner s) claims)
          (cm_run_id <$> List.filter (λ c, negb (claim_holds runner s c)) claims) events, set_log l s).
Proof.
  induction claims as [|claim rest IH]; intros s; simpl.
  - exists [], (x_log s). by destruct s.
  - unfold mbind, txn_bind, gets.
    assert (claim_holds runner s claim = is_some (claimed_run runner claim s)) as Eh by done.
    destruct (claimed_run runner claim s) as [[corp place]|] eqn:Ec; rewrite Eh; simpl.
    + destruct (append_event_tx _ s) as [[o s1]|] eqn:Ea; [| unfold append_event_tx in Ea; by case_match].
      apply append_log_only in Ea as [l1 ->]. destruct (IH (set_log l1 s)) as (events & l & Hx).
      rewrite Hx. by do 2 eexists.
    + destruct (IH s) as (events & l & Hx). rewrite Hx. by do 2 eexists.
Qed.

(** Claims are decided exactly: on a connected epoch the reconciliation answers
    every claim, in order; it accepts exactly those that name an active run
    assigned to this runner with the token of its assignment, calls the others
    stale, and writes nothing but events; on any other epoch it is refused. *)
Theorem claims_are_decided_exactly runner epoch claims db :
  (node_at runner epoch NodeConnected db = None ∧
   reconcile_runner_claims runner epoch claims db = Err "runner connection epoch is not active") ∨
  ∃ n events l, node_at runner epoch NodeConnected db = Some n ∧
    reconcile_runner_claims runner epoch claims db =
      Ok (RunnerReconcileOutcome
            (cm_run_id <$> List.filter (claim_holds runner (rd_exec db)) claims)
            (cm_run_id <$> List.filter (λ c, negb (claim_holds runner (rd_exec db) c)) claims) events,
          set_exec (set_log l (rd_exec db)) db) ∧
    ∀ claim, claim_holds runner (rd_exec db) claim = true ↔
      ∃ r t m, run_of (rd_exec db) (cm_run_id claim) = Some r ∧ rb_runner (rn_binding r) = runner ∧
        run_active (rn_status r) = true ∧ rb_assignment_token (rn_binding r) = cm_assignment_token claim ∧
        task_of (rd_exec db) (rb_task (rn_binding r)) = Some t ∧ mission_of (rd_exec db) (ta_mission t) = Some m.
Proof.
  unfold reconcile_runner_claims, mbind, txn_bind, gets, lift, in_exec.
  destruct (node_at runner epoch NodeConnected db) as [n|] eqn:En; [right | left; by split].
  destruct (reconcile_claims_ok runner epoch claims (rd_exec db)) as (events & l & Hx).
  exists n, events, l. split; [done |]. split; [simpl; by rewrite Hx |].
  intros claim. unfold claim_holds, claimed_run, run_place. destruct (run_of _ _) as [r|]; simpl; [| naive_solver].
  destruct (seqb _ _ && _ && _) eqn:E.
  - rewrite !andb_true_iff, seqb_eq, N.eqb_eq in E. destruct E as [[? ?] ?].
    destruct (task_of _ _) as [t|] eqn:Et; simpl; [| naive_solver].
    destruct (mission_of _ _) as [m|] eqn:Em; simpl; naive_solver.
  - split; [done |]. intros (r' & t & m & [= <-] & Hr & Ha & Ht & _).
    apply not_true_iff_false in E. destruct E. by rewrite !andb_true_iff, seqb_eq, N.eqb_eq.
Qed.
End claims.

(** ** The runs of a revoked runner *)
Section lost.
Context `{Serde} `{ExecSerde}.

Lemma not_waiting_not_ready now corp id s r : run_of s id = Some r → rn_status r ≠ RunStatus.WaitingForApproval →
  review_ready now corp id s = Ok false.
Proof.
  intros Hr Hs. unfold review_ready. assert (review_waiting corp id s = false) as ->; [| done].
  unfold review_waiting. destruct (run_joined s corp id) as [[[r' t] m]|] eqn:Ej; [| done].
  apply run_joined_spec in Ej as (Hr' & _). unfold run_of in *. rewrite Hr in Hr'. injection Hr' as <-.
  by rewrite bool_decide_eq_false_2.
Qed.

Lemma lose_run_ends env runner reason row s es s' r : run_of s (lo_run_id row) = Some r →
  lo_recovery row = None → rn_status r ≠ RunStatus.WaitingForApproval →
  lose_run env runner reason row s = Ok (es, s') →
  ∃ r', run_of s' (lo_run_id row) = Some r' ∧ rn_status r' = RunStatus.Lost ∧ rn_summary r' = Some reason.
Proof.
  intros Hr Hv Hs Hx. unfold lose_run in Hx. rewrite Hv in Hx.
  apply txn_bind_ok in Hx as (ready & s1 & Hready & Hx). unfold read_db in Hready.
  rewrite (not_waiting_not_ready _ _ _ _ _ Hr Hs) in Hready. injection Hready as <- <-. txn_inv.
  exists (set_rn_summary (Some reason) (set_rn_status RunStatus.Lost r)). unfold run_of in *. core_rows. simpl.
  rewrite lookup_alter_eq, Hr. done.
Qed.

Lemma each_lose_ends env runner reason rows row : ∀ s es s',
  core_inv (x_core s) → NoDup (lo_run_id <$> rows) →
  (∀ x, x ∈ rows → run_of s (lo_run_id x) = Some (lo_run x) ∧ is_active (lo_run x)) →
  row ∈ rows → lo_recovery row = None → rn_status (lo_run row) ≠ RunStatus.WaitingForApproval →
  each (lose_run env runner reason) rows s = Ok (es, s') →
  ∃ r', run_of s' (lo_run_id row) = Some r' ∧ rn_status r' = RunStatus.Lost.
Proof.
  induction rows as [|x rows IH]; intros s es s' Hinv Hnd Hrows Hin Hv Hs Hx; [by apply elem_of_nil in Hin |].
  simpl in Hx. txn_inv. apply NoDup_cons in Hnd as [Hn Hnd]. destruct (Hrows x) as [Hr Hact]; [left |].
  match goal with H : lose_run _ _ _ _ _ = _ |- _ => rename H into Hl end.
  destruct (lose_run_step _ _ _ _ _ _ _ _ Hr Hact eq_refl Hl) as [Hstep Hkeep].
  assert (∀ y, y ∈ rows → run_of s0 (lo_run_id y) = Some (lo_run y) ∧ is_active (lo_run y)) as Hrows'.
  { intros y Hy. rewrite Hkeep; [apply Hrows; by right |]. intros E. apply Hn. rewrite <-E.
    by apply list_elem_of_fmap_2. }
  apply elem_of_cons in Hin as [-> | Hin].
  - destruct (lose_run_ends _ _ _ _ _ _ _ _ Hr Hv Hs Hl) as (r1 & Hr1 & Hlost & _).
    match goal with H : each _ rows _ = _ |- _ =>
      apply each_lose_steps in H as Hsteps; [| by eapply core_step_inv | done | exact Hrows'] end.
    destruct (core_steps_frozen _ _ _ _ Hsteps Hr1) as (r2 & Hr2 & _ & Hs2 & _).
    { unfold is_active. by rewrite Hlost. }
    exists r2. split; [done | congruence].
  - eapply IH; [by eapply core_step_inv | done | exact Hrows' | done | done | done | eassumption].
Qed.

(** A run that only its runner can carry on: it waits for no human, is not the
    replacement of a recovery, and no recovery command still has to be sent for it. *)
Definition rests_on_runner (runner : string) (s : exec_db) (id : uuid) (r : x_run) : Prop :=
  run_of s id = Some r ∧ rb_runner (rn_binding r) = runner ∧ run_active (rn_status r) = true ∧
  rn_status r ≠ RunStatus.WaitingForApproval ∧ awaits_recovery_command s id r = false ∧
  ∃ t m, run_joined s (rb_corp (rn_binding r)) id = Some (r, t, m) ∧ lost_recovery s id r t = None.

Definition rests_on_runner_b (runner : string) (s : exec_db) (id : uuid) (r : x_run) : bool :=
  seqb (rb_runner (rn_binding r)) runner && run_active (rn_status r)
  && negb (bool_decide (rn_status r = RunStatus.WaitingForApproval)) && negb (awaits_recovery_command s id r)
  && match run_joined s (rb_corp (rn_binding r)) id with
     | Some (r', t, m) => match lost_recovery s id r t with None => true | Some _ => false end
     | None => false
     end.
Lemma rests_on_runner_true runner s id r : run_of s id = Some r → rests_on_runner_b runner s id r = true →
  rests_on_runner runner s id r.
Proof.
  unfold rests_on_runner_b. intros Hr. rewrite !andb_true_iff, !negb_true_iff, seqb_eq.
  intros ((((Hn & Ha) & Hw) & Hc) & Hj). apply bool_decide_eq_false in Hw.
  destruct (run_joined s _ id) as [[[r' t] m]|] eqn:Ej; [| done].
  destruct (lost_recovery s id r t) eqn:El; [done |]. split_and!; try done.
  pose proof Ej as (Hr' & _)%run_joined_spec. unfold run_of in Hr, Hr'. rewrite Hr in Hr'. injection Hr' as <-.
  by exists t, m.
Qed.

Lemma lost_rows_has runner s id r : rests_on_runner runner s id r →
  ∃ row, row ∈ lost_rows runner [] None s ∧ lo_run_id row = id ∧ lo_run row = r ∧ lo_recovery row = None.
Proof.
  intros (Hr & Hrun & Ha & _ & Hw & t & m & Hj & Hl). exists (LostRow id r t m None). split; [| done].
  unfold lost_rows. apply list_elem_of_omap. exists (id, r). split.
  - rewrite sort_by_perm. apply list_elem_of_In, List.filter_In. split.
    + apply list_elem_of_In, elem_of_map_to_list. exact Hr.
    + unfold lost_candidate. rewrite Ha, (proj2 (seqb_eq _ _) Hrun). done.
  - rewrite Hj. simpl. by rewrite Hw, Hl.
Qed.

Lemma mark_lost_ends env runner reason s es s' id r : core_inv (x_core s) →
  mark_runner_runs_lost_tx env runner [] None reason s = Ok (es, s') → rests_on_runner runner s id r →
  ∃ r', run_of s' id = Some r' ∧ rn_status r' = RunStatus.Lost.
Proof.
  intros Hinv Hx Hrest. destruct (lost_rows_has _ _ _ _ Hrest) as (row & Hin & <- & Hrow & Hv).
  unfold mark_runner_runs_lost_tx in Hx. txn_inv.
  destruct (lost_rows_spec runner [] None s) as [Hnd Hrows].
  eapply each_lose_ends; [done | exact Hnd | exact Hrows | exact Hin | exact Hv | | eassumption].
  apply Hrest.
Qed.

(** C21: revocation takes effect: when the credential of a runner is revoked, the
    runner's row of that Corp goes offline and every run that rests on the runner
    is lost, in any state that execution can reach. *)
Theorem revocation_ends_runs env corp actor runner reason db out db' :
  reachable (rd_exec db) → revoke_runner env corp actor runner reason db = Ok (out, db') →
  rro_revoked out = true →
  (∀ n, rd_nodes db' !! runner = Some n → no_corp_id n = corp → no_status n = NodeOffline) ∧
  ∀ id r, rests_on_runner runner (rd_exec db) id r →
    ∃ r', run_of (rd_exec db') id = Some r' ∧ rn_status r' = RunStatus.Lost.
Proof.
  intros Hreach Hx Hr. unfold revoke_runner, require_manager in Hx. txn_inv.
  destruct (revocable corp runner db) as [c|]; txn_inv; [| done].
  match goal with H : append_event_tx _ ?s = Ok (_, ?s') |- _ =>
    assert (rd_nodes s' = rd_nodes s ∧ x_core (rd_exec s') = x_core (rd_exec s)) as [En Ec] end.
  { unfold append_event_tx in *. case_match; simplify_eq; done. }
  match goal with H : in_exec ?t ?s = Ok (_, ?s') |- _ => unfold in_exec in H; destruct (t (rd_exec s)) as [[es e]|] eqn:Em;
    [injection H as <- <- | done] end.
  split.
  - rewrite En. simpl. intros n Hn Hcorp. apply lookup_alter_Some in Hn as [(_ & n0 & _ & ->) | [Hd _]]; [| done].
    destruct (no_corp_id n0 =? corp)%N eqn:E; [done |]. by apply N.eqb_neq in E.
  - intros id r Hrest. simpl in Em. destruct (mark_lost_ends _ _ _ _ _ _ _ _ (reachable_inv _ Hreach) Em Hrest) as (r' & Hl & Hs).
    exists r'. split; [| done]. unfold run_of. by rewrite Ec.
Qed.
End lost.

(** ** Connections and machines *)
Section machines.
Context `{Serde} `{ExecSerde}.

Definition joined (db : runner_db) : Prop :=
  ∀ id c, ba_connections (x_base (rd_exec db)) !! id = Some c →
    cn_runner_connected c = node_is NodeConnected (rd_nodes db) (cn_runner c).
Definition keeps_joined (db db' : runner_db) : Prop := joined db → joined db'.
#[local] Instance keeps_joined_preorder : PreOrder keeps_joined.
Proof. split; [intros db J; exact J |]. intros x y z Hxy Hyz Hx. by apply Hyz, Hxy. Qed.

Lemma joined_exec_joined nodes e tokens credentials :
  joined (RunnerDb (joined_exec nodes e) tokens credentials nodes).
Proof.
  intros id c. simpl. rewrite lookup_fmap. intros (c0 & _ & ->)%fmap_Some. done.
Qed.
Lemma joined_nodes f : txn_within keeps_joined (modify (on_nodes f)).
Proof. apply within_modify. intros db _. apply joined_exec_joined. Qed.
Lemma joined_in_exec {A} (t : txn exec_db A) : txn_within keeps_joined (in_exec t).
Proof.
  intros db a db'. unfold in_exec. case_match; [| done]. case_match. intros [= <- <-] _.
  apply joined_exec_joined.
Qed.
Lemma joined_tokens f : txn_within keeps_joined (modify (on_tokens f)).
Proof. apply within_modify. by intros db J. Qed.
Lemma joined_credentials f : txn_within keeps_joined (modify (on_runner_credentials f)).
Proof. apply within_modify. by intros db J. Qed.
Lemma joined_append event : txn_within keeps_joined (append_event_tx event).
Proof. apply within_append; [apply _ |]. by intros db J. Qed.
Lemma joined_append_new event message : txn_within keeps_joined (append_new_event event message).
Proof. apply within_append_new; [apply _ |]. by intros db J. Qed.
Lemma joined_manager corp actor action : txn_within keeps_joined (require_manager corp actor action).
Proof. unfold require_manager. within. Qed.
#[local] Hint Resolve joined_nodes joined_in_exec joined_tokens joined_credentials joined_append
  joined_append_new joined_manager : within.

Lemma joined_handler env request : txn_within keeps_joined (runner_handler env request).
Proof.
  destruct request; simpl; unfold drop_answer, create_runner_enrollment, authenticate_and_rotate_runner,
    exchange_credential, set_credential, revoke_runner, runner_connected, runner_heartbeat,
    update_runner_capabilities, runner_disconnected, expire_runner_grace, reconcile_runner_claims,
    mark_unclaimed_runner_runs_lost, update_node_at; within.
Qed.
Lemma joined_steps db db' : rtc runner_step db db' → joined db → joined db'.
Proof.
  induction 1 as [| d1 d2 d3 Hs _ IH]; [done |]. intros J. apply IH. destruct Hs as [env request d | d e He].
  - unfold runner_handle, run_txn. destruct (runner_handler env request d) as [[u d']|] eqn:E; [| done].
    by apply (joined_handler env request d u).
  - apply joined_exec_joined.
Qed.

(** What binding a run has checked. *)
Lemma validated_connection corp run_id s id : validate_run_connection corp run_id s = Ok (Some id) →
  ∃ r c, run_of s run_id = Some r ∧ ba_connections (x_base s) !! id = Some c ∧ cn_corp c = corp ∧
    cn_runner c = rb_runner (rn_binding r) ∧ cn_runner_connected c = true.
Proof.
  unfold validate_run_connection. intros Hx.
  destruct (run_joined s corp run_id) as [[[r t] m]|] eqn:Ej; [| done]. simpl in Hx.
  apply run_joined_spec in Ej as (Hr & _).
  destruct (inherited_connection corp r (ta_contract t) s) as [[cid|]|]; simpl in Hx; try done.
  destruct (connection_of s corp cid) as [c|] eqn:Ec; simpl in Hx; [| done].
  destruct (check_run_connection r t m c) as [u|] eqn:Ek; simpl in Hx; [| done]. injection Hx as ->.
  exists r, c. split; [done |]. unfold connection_of in Ec. apply with_context_ok, bind_Some in Ec as (c0 & Hc & Hx).
  case_match eqn:E; [| done]. injection Hx as ->. apply andb_true_iff in E as [E%N.eqb_eq _].
  split; [done |]. split; [done |]. unfold check_run_connection in Ek.
  destruct (negb _ || _ || _) eqn:E1 in Ek; [done |]. simpl in Ek.
  destruct (cn_runner_connected c) eqn:E2; [| done].
  apply orb_false_iff in E1 as [[_ E1]%orb_false_iff _]. by apply negb_false_iff, seqb_eq in E1.
Qed.
Lemma launch_connection env corp mission task_id requested_by runner s launch event s' id :
  create_task_run env corp mission task_id requested_by runner s = Ok ((launch, event), s') →
  lr_connection launch = Some id →
  ∃ c, ba_connections (x_base s) !! id = Some c ∧ cn_corp c = corp ∧ cn_runner c = runner ∧
    cn_runner_connected c = true.
Proof.
  unfold create_task_run, bind_new_run_tx. intros Hx. 
  apply txn_bind_ok in Hx as ([] & s1 & H1 & Hx).
  assert (s = s1) as <-.
  { assert (respects eq (match requested_by with Some actor => assert_mission_operator_tx corp actor
      | None => mret tt end)) as R by (destruct requested_by; respect). by apply R in H1. }
  apply txn_bind_ok in Hx as ([[[m t] agent_id] a] & s2 & H2 & Hx). unfold fetch_one in H2. txn_inv.
  match goal with H : (match requested_by with _ => _ end) _ = _ |- _ =>
    assert (respects eq (match requested_by with Some actor => assert_room_membership_tx corp (mi_room m) actor
      | None => mret tt end)) as R by (destruct requested_by; respect); apply R in H; clear R; subst end.
  intros Hl. simpl in Hl.
  match goal with H : check_launch ?e ?i ?m ?t ?g ?a _ = _ |- _ =>
    assert (respects eq (check_launch e i m t g a)) as Hc by (unfold check_launch; respect); apply Hc in H; clear Hc; subst end.
  match goal with H : read_db (validate_run_connection _ _) _ = _ |- _ => unfold read_db in H end. txn_inv.
  match goal with H : validate_run_connection _ _ _ = Ok _ |- _ => rename H into Hv end.
  injection Hx as -> ->. simpl in Hl. rewrite Hl in Hv.
  apply validated_connection in Hv as (r & c & Hr & Hc & Hcorp & Hrun & Hconn). exists c.
  match goal with H : insert_run_tx _ _ _ = _ |- _ => unfold insert_run_tx, require_new in H end. txn_inv.
  unfold run_of in Hr. simpl in Hr, Hc. rewrite lookup_insert_eq in Hr. injection Hr as <-. done.
Qed.

(** C22: a run that is bound to a saved connection starts only on that connection's
    machine, and only while the runner of that machine is connected: under any mix
    of requests on runners and execution, when the store answers the start of an
    attempt with a connection, the runner the attempt was given to is the
    connection's and its row is in the status connected. *)
Theorem bound_runs_need_their_machine db0 db env corp mission task_id requested_by runner launch event db' id :
  joined db0 → rtc runner_step db0 db →
  in_exec (create_task_run env corp mission task_id requested_by runner) db = Ok ((launch, event), db') →
  lr_connection launch = Some id →
  ∃ c n, ba_connections (x_base (rd_exec db)) !! id = Some c ∧ cn_corp c = corp ∧ cn_runner c = runner ∧
    rd_nodes db !! runner = Some n ∧ no_status n = NodeConnected.
Proof.
  intros J0 Hs Hx Hl. assert (joined db) as J by by eapply joined_steps.
  unfold in_exec in Hx. destruct (create_task_run _ _ _ _ _ _ _) as [[out e]|] eqn:Hc; [| done].
  injection Hx as -> _. destruct (launch_connection _ _ _ _ _ _ _ _ _ _ _ Hc Hl) as (c & Hrow & Hcorp & Hrun & Hconn).
  rewrite (J _ _ Hrow), Hrun in Hconn. unfold node_is in Hconn.
  destruct (rd_nodes db !! runner) as [n|] eqn:En; [| done]. case_bool_decide; [| done]. by exists c, n.
Qed.
End machines.

(** ** A concrete history *)
Section runner_demo.
#[local] Existing Instance sample_serde.
#[local] Existing Instance sample_exec_serde.

Definition demo_renv (id : uuid) : runner_env := RunnerEnv (demo_env 60) 100 id (id + 1).
Definition demo_runners (e : exec_db) : runner_db := RunnerDb e ∅ ∅ ∅.
Definition runner_demo (db : runner_db) (steps : list (runner_env * runner_request)) : runner_db :=
  foldl (λ db '(env, request), runner_handle env request db) db steps.
Definition demo_enroll (id corp actor : uuid) (hash : string) : runner_env * runner_request :=
  (demo_renv id, Enroll corp actor "runner-a" hash 1000).
Definition demo_authenticate (id corp : uuid) (presented next : string) : runner_env * runner_request :=
  (demo_renv id, Authenticate corp "runner-a" presented next 1000).
Definition demo_connect (corp epoch : uuid) : runner_env * runner_request :=
  (demo_renv 1, Connect (RunnerConnectInput "runner-a" corp "host" "linux" JNull epoch)).

(** One run of the demonstration mission is active on the runner. *)
Definition demo_active : runner_db := demo_runners (demo [demo_create None; demo_start 60]).
Definition demo_enrolled : runner_db :=
  runner_demo demo_active [demo_enroll 300 1 10 "a1"; demo_authenticate 310 1 "a1" "a2"; demo_connect 1 500].

Lemma runner_demo_steps db steps : rtc runner_step db (runner_demo db steps).
Proof.
  revert db. induction steps as [|[env request] steps IH]; intros db; [apply rtc_refl |].
  eapply rtc_l; [| apply IH]. constructor.
Qed.

Lemma runner_requests_refine_execution_witness :
  rtc runner_step (demo_runners demo_base) (runner_demo (demo_runners demo_base) [demo_enroll 300 1 10 "a1"]) ∧
  reachable (rd_exec (runner_demo (demo_runners demo_base) [demo_enroll 300 1 10 "a1"])).
Proof.
  assert (rtc runner_step (demo_runners demo_base) (runner_demo (demo_runners demo_base) [demo_enroll 300 1 10 "a1"]))
    as Hs by apply runner_demo_steps.
  split; [exact Hs |].
  exact (proj1 (proj2 (runner_requests_refine_execution _ _ Hs) eq_refl)).
Defined.

Lemma empty_not_known e h : ¬ hash_known h (demo_runners e).
Proof. intros [(? & ? & Hl & _) | (? & ? & Hl & _)]; simpl in Hl; by rewrite lookup_empty in Hl. Qed.
Definition demo_token : runner_db := runner_demo demo_active [demo_enroll 300 1 10 "a1"].

Lemma presented_tokens_work_once_witness :
  ∃ out db1, authenticate_and_rotate_runner (demo_renv 310) 1 "runner-a" "a1" "a2" 1000 demo_token = Ok (out, db1) ∧
  authenticate_and_rotate_runner (demo_renv 320) 1 "runner-a" "a1" "a3" 1000 db1 = Err refused_credential.
Proof.
  assert (rtc fresh_step demo_active demo_token) as Hs.
  { apply rtc_once, fresh_request. intros h _. apply empty_not_known. }
  destruct (authenticate_and_rotate_runner (demo_renv 310) 1 "runner-a" "a1" "a2" 1000 demo_token)
    as [[out db1]|] eqn:E; [| by vm_compute in E].
  exists out, db1. split; [reflexivity |].
  exact (presented_tokens_work_once demo_active demo_token (demo_renv 310) 1 "runner-a" "a1" "a2" 1000 out db1 db1
    eq_refl eq_refl Hs E ltac:(discriminate) (rtc_refl _ _) (demo_renv 320) 1 "runner-a" "a3" 1000).
Defined.

Lemma demo_enrolled_used id t : rd_tokens demo_enrolled !! id = Some t → et_used_at t ≠ None.
Proof.
  intros Hl Hu. assert (map_Forall (λ _ t, is_some (et_used_at t) = true) (rd_tokens demo_enrolled)) as Ha.
  { apply (bool_decide_eq_true_1 (map_Forall (λ _ t, is_some (et_used_at t) = true) (rd_tokens demo_enrolled))). by vm_compute. }
  specialize (Ha id t Hl). simpl in Ha. by rewrite Hu in Ha.
Qed.
Lemma revoked_runners_stay_out_witness :
  ∃ out db1, revoke_runner (demo_renv 330) 1 10 "runner-a" "left" demo_enrolled = Ok (out, db1) ∧
  authenticate_and_rotate_runner (demo_renv 340) 1 "runner-a" "a2" "a3" 1000 db1 = Err refused_credential.
Proof.
  destruct (revoke_runner (demo_renv 330) 1 10 "runner-a" "left" demo_enrolled) as [[out db1]|] eqn:E;
    [| by vm_compute in E].
  assert (rro_revoked out = true) as Hr.
  { assert (match revoke_runner (demo_renv 330) 1 10 "runner-a" "left" demo_enrolled with
      | Ok (o, _) => rro_revoked o = true | Err _ => False end) as H by by vm_compute. by rewrite E in H. }
  exists out, db1. split; [reflexivity |].
  exact (revoked_runners_stay_out (demo_renv 330) 1 10 "runner-a" "left" demo_enrolled out db1 db1 E Hr
    (λ id t Hl _, demo_enrolled_used id t Hl) (rtc_refl _ _) (demo_renv 340) 1 "a2" "a3" 1000).
Defined.

Lemma stale_epochs_change_nothing_witness :
  runner_handle (demo_renv 350) (Disconnect "runner-a" 499 60) demo_enrolled = demo_enrolled.
Proof.
  apply (stale_epochs_change_nothing (demo_renv 350) (Disconnect "runner-a" 499 60) "runner-a" 499 NodeConnected);
    [reflexivity |].
  intros n Hn He _. exfalso.
  assert (no_connection_epoch <$> rd_nodes demo_enrolled !! "runner-a" = Some 500%N) as H by by vm_compute.
  rewrite Hn in H. injection H as H. congruence.
Defined.

Lemma revocation_ends_runs_witness :
  ∃ out db1 r, revoke_runner (demo_renv 330) 1 10 "runner-a" "left" demo_enrolled = Ok (out, db1) ∧
  run_of (rd_exec db1) 60 = Some r ∧ rn_status r = RunStatus.Lost.
Proof.
  assert (match revoke_runner (demo_renv 330) 1 10 "runner-a" "left" demo_enrolled with
    | Ok (o, _) => rro_revoked o = true | Err _ => False end) as Hok by by vm_compute.
  destruct (revoke_runner (demo_renv 330) 1 10 "runner-a" "left" demo_enrolled) as [[out db1]|] eqn:E; [| destruct Hok].
  assert (reachable (rd_exec demo_enrolled)) as Hreach.
  { apply (runner_requests_refine demo_active); [by apply demo_reachable | apply runner_demo_steps]. }
  assert (match run_of (rd_exec demo_enrolled) 60 with
    | Some r => rests_on_runner_b "runner-a" (rd_exec demo_enrolled) 60 r = true | None => False end) as Hrest by by vm_compute.
  destruct (run_of (rd_exec demo_enrolled) 60) as [r|] eqn:Er; [| destruct Hrest].
  destruct (proj2 (revocation_ends_runs (demo_renv 330) 1 10 "runner-a" "left" demo_enrolled out db1 Hreach E Hok) 60%N r
    (rests_on_runner_true _ _ _ _ Er Hrest)) as (r' & Hr' & Hs).
  exists out, db1, r'. split; [reflexivity |]. split; [exact Hr' | exact Hs].
Defined.

(** A mission whose task is bound to a saved connection of the runner. *)
Definition demo_machine : runner_node :=
  RunnerNode 1 "host" "linux" JNull 500 NodeConnected 0 0 None None.
Definition demo_bound_plan : task_graph_plan :=
  TaskGraphPlan "single" 1 0 1000 1000 []
    [PlannedTask "only" "the task"
       (TaskContract "objective" "output" (Some "o/r") (Some "main") (Some "c0ffee") (Some 70%N) ["test"] ["shell"]
          ["push"] [] ["src/"] 1000 1000 None "ask" [] None None None)
       30 "codex" [] 0 2 (demo_policy None)].
Definition demo_bound_base : exec_db :=
  ExecDb
    (ExecBase {[1%N]} (ba_actors (x_base demo_base)) (ba_rooms (x_base demo_base)) (ba_memberships (x_base demo_base))
       ∅ {[70%N := XConnection 1 20 "runner-a" 80 false "codex" "ready" (Some ("o/r", "main", "c0ffee"))]} ∅)
    empty_core (x_side demo_base) [].
Definition demo_bound_start : runner_db :=
  RunnerDb (joined_exec {["runner-a" := demo_machine]} demo_bound_base) ∅ ∅ {["runner-a" := demo_machine]}.
Definition demo_bound : runner_db :=
  set_exec (handle (demo_env 60) (CreateMission 1 10 "title" "description" demo_bound_plan) (rd_exec demo_bound_start))
    demo_bound_start.
Lemma bound_runs_need_their_machine_witness :
  ∃ launch event db', in_exec (create_task_run (demo_env 60) 1 40 50 (Some 10%N) "runner-a") demo_bound =
    Ok ((launch, event), db') ∧
  ∃ c n, ba_connections (x_base (rd_exec demo_bound)) !! 70%N = Some c ∧ cn_corp c = 1%N ∧ cn_runner c = "runner-a" ∧
    rd_nodes demo_bound !! "runner-a" = Some n ∧ no_status n = NodeConnected.
Proof.
  assert (rtc runner_step demo_bound_start demo_bound) as Hs.
  { apply rtc_once, runner_step_exec, step_request. }
  assert (match in_exec (create_task_run (demo_env 60) 1 40 50 (Some 10%N) "runner-a") demo_bound with
    | Ok ((l, _), _) => lr_connection l = Some 70%N | Err _ => False end) as Hok by by vm_compute.
  destruct (in_exec (create_task_run (demo_env 60) 1 40 50 (Some 10%N) "runner-a") demo_bound)
    as [[[launch event] db']|] eqn:E; [| destruct Hok].
  exists launch, event, db'. split; [reflexivity |].
  exact (bound_runs_need_their_machine demo_bound_start demo_bound (demo_env 60) 1 40 50 (Some 10%N) "runner-a"
    launch event db' 70 (joined_exec_joined _ _ _ _) Hs E Hok).
Defined.

(** *** Behaviours the code does not mean *)

(** Runner ids are global: the owner of another Corp enrols the same id, which
    takes the credential over, and then ends the first Corp's run by a revocation. *)
Definition demo_second_corp (db : runner_db) : runner_db :=
  RunnerDb (ExecDb
    (ExecBase {[1%N; 2%N]} (<[12%N := ActorRow 2 "owner" "human"]> (ba_actors (x_base (rd_exec db))))
       (ba_rooms (x_base (rd_exec db))) (ba_memberships (x_base (rd_exec db))) (ba_runners (x_base (rd_exec db)))
       (ba_connections (x_base (rd_exec db))) (ba_policies (x_base (rd_exec db))))
    (x_core (rd_exec db)) (x_side (rd_exec db)) (x_log (rd_exec db)))
    (rd_tokens db) (rd_credentials db) (rd_nodes db).
Definition demo_taken_over : runner_db :=
  runner_demo (demo_second_corp demo_enrolled) [demo_enroll 400 2 12 "b1"; demo_authenticate 410 2 "b1" "b2"].
Lemma enrolment_takes_over_runner :
  is_ok (authenticate_and_rotate_runner (demo_renv 420) 1 "runner-a" "a2" "a3" 1000 demo_enrolled) = true ∧
  authenticate_and_rotate_runner (demo_renv 420) 1 "runner-a" "a2" "a3" 1000 demo_taken_over = Err refused_credential ∧
  (rn_status <$> run_of (rd_exec demo_taken_over) 60) = Some RunStatus.Starting ∧
  (rn_status <$> run_of (rd_exec (runner_handle (demo_renv 430) (Revoke 2 12 "runner-a" "mine") demo_taken_over)) 60)
    = Some RunStatus.Lost.
Proof. split_and!; vm_compute; reflexivity. Qed.

(** A registration authenticates in one transaction and connects in another: a
    revocation in between leaves a connected runner without a credential. *)
Lemma revoked_runner_connects :
  let db := runner_demo demo_active
    [demo_enroll 300 1 10 "a1"; demo_authenticate 310 1 "a1" "a2";
     (demo_renv 330, Revoke 1 10 "runner-a" "left"); demo_connect 1 500] in
  (rk_revoked_at <$> rd_credentials db !! "runner-a") = Some (Some 100%Z) ∧
  (no_status <$> rd_nodes db !! "runner-a") = Some NodeConnected.
Proof. split; vm_compute; reflexivity. Qed.
End runner_demo.
