(* ===== verification/Secrets.v ===== *)
(** * Secrets (crates/crony-server: secrets.rs, main.rs; crates/crony-store/src/lib.rs; crates/crony-runner/src/main.rs)

    An owner or admin stores a secret encrypted ([create_secret]); a task names
    secrets by reference; when a run is dispatched the store grants those the
    mission's requester, the tool and the resource are allowed
    ([grant_run_secrets]), the server decrypts them for the runner
    ([resolve_secret_refs]), and the runner stops the provider when the first of
    them expires ([secret_expiry_delay]). *)
From S2P Require Import Prelude Text Json Domain Planning Deliverable FactoryPolicy Store FactoryItems Breaker ExecTables Checkpoint RunFailure RunEvents Dispatch Decisions ExecSpec EventSteps AttemptSteps Execution Polling Access.

(** ** Encryption

    The crates chacha20poly1305 and hex: a key of 32 bytes, a nonce of 12, the
    message and its associated data. *)
Class Aead := {
  aead_encrypt : string → string → string → string → option string;   (* key, nonce, data, message *)
  aead_decrypt : string → string → string → string → option string;   (* key, nonce, data, ciphertext *)
  hex_decode : string → option string;
}.
Class AeadLaws (A : Aead) :=
  aead_round_trip key nonce data message ciphertext :
    aead_encrypt key nonce data message = Some ciphertext → aead_decrypt key nonce data ciphertext = Some message.

(** ** Tables *)
Record secret_row := SecretRow {
  sc_corp_id : uuid; sc_name : string; sc_ciphertext : string; sc_nonce : string;
  sc_allowed_actor_ids : list uuid; sc_allowed_tools : list string; sc_resource_prefix : string;
  sc_max_ttl_seconds : Z; sc_created_by : uuid; sc_revoked_at : option timestamp }.
Record secret_grant := SecretGrant {
  sg_corp_id : uuid; sg_secret_id : uuid; sg_task_id : uuid; sg_run_id : uuid; sg_actor_id : uuid;
  sg_runner_id : string; sg_tool : string; sg_resource : string; sg_expires_at : timestamp }.
Record secret_db := SecretDb {
  se_exec : exec_db; se_identities : identities; se_secrets : gmap uuid secret_row;
  se_grants : gmap uuid secret_grant }.

Definition set_secret_exec (e : exec_db) (db : secret_db) : secret_db :=
  SecretDb e (se_identities db) (se_secrets db) (se_grants db).
Definition on_secrets (f : gmap uuid secret_row → gmap uuid secret_row) (db : secret_db) : secret_db :=
  SecretDb (se_exec db) (se_identities db) (f (se_secrets db)) (se_grants db).
Definition on_grants (f : gmap uuid secret_grant → gmap uuid secret_grant) (db : secret_db) : secret_db :=
  SecretDb (se_exec db) (se_identities db) (se_secrets db) (f (se_grants db)).
#[global] Instance secret_db_directory : HasDirectory secret_db := λ db, get_directory (se_exec db).
#[global] Instance secret_db_log : HasLog secret_db := {|
  get_log db := get_log (se_exec db);
  set_log l db := set_secret_exec (set_log l (se_exec db)) db;
|}.
#[global] Instance secret_db_log_laws : HasLogLaws secret_db.
Proof. by split. Qed.
#[global] Instance secret_db_identities : HasIdentities secret_db := {|
  get_identities := se_identities;
  set_identities i db := SecretDb (se_exec db) i (se_secrets db) (se_grants db);
|}.

Section secrets.
Context `{Serde} `{Chrono} `{Aead}.

(** ** The cipher of the server *)
Definition development_key_hex : string :=
  "a5c3f1458279dfb241239378dbefa6b8d2ab32703cba1768343712fd37ac1f04".
(** [SecretCipher::initialize]: the key. *)
Definition initialize_cipher (mode : server_mode) (configured_key_hex : option string) : result string :=
  key_hex ← match mode, configured_key_hex with
    | _, Some value =>
        if negb (is_empty (trim value)) then Ok (trim value)
        else match mode with
             | Development => Ok development_key_hex
             | Production => Err "CRONY_SECRET_MASTER_KEY_HEX is required in production mode"
             end
    | Development, None => Ok development_key_hex
    | Production, None => Err "CRONY_SECRET_MASTER_KEY_HEX is required in production mode"
    end;
  key ← with_context (hex_decode key_hex) "decode CRONY_SECRET_MASTER_KEY_HEX";
  bail_if (negb (str_len key =? 32)%Z) "CRONY_SECRET_MASTER_KEY_HEX must decode to exactly 32 bytes";;
  Ok key.

Definition associated_data (corp_id secret_id : uuid) (name : string) : string :=
  uuid_to_string corp_id +:+ ":" +:+ uuid_to_string secret_id +:+ ":" +:+ name.
(** [random] holds the sixteen bytes of the fresh UUID. *)
Definition encrypt (key random : string) (corp_id secret_id : uuid) (name plaintext : string) :
    result (string * string) :=
  let nonce := String.substring 0 12 random in
  ciphertext ← with_context (aead_encrypt key nonce (associated_data corp_id secret_id name) plaintext)
    "encrypt secret";
  Ok (ciphertext, nonce).
Definition decrypt (key : string) (corp_id secret_id : uuid) (name ciphertext nonce : string) : result string :=
  bail_if (negb (str_len nonce =? 12)%Z) "stored secret nonce has an invalid length";;
  with_context (aead_decrypt key nonce (associated_data corp_id secret_id name) ciphertext) "decrypt secret".

(** ** Creating and revoking, in the store *)

(** PRIMARY KEY (id), UNIQUE (corp_id, name) *)
Definition secret_taken (id corp_id : uuid) (name : string) (db : secret_db) : bool :=
  is_some (se_secrets db !! id)
  || existsb (λ '(_, s), (sc_corp_id s =? corp_id)%N && seqb (sc_name s) name) (map_to_list (se_secrets db)).
Definition store_create_secret (corp_id actor_id secret_id : uuid) (name ciphertext nonce : string)
    (allowed_actor_ids : list uuid) (allowed_tools : list string) (resource_prefix : string)
    (max_ttl_seconds : Z) : txn secret_db new_event :=
  require_manager corp_id actor_id "create secrets";;
  taken ← gets (secret_taken secret_id corp_id name);
  lift (bail_if taken duplicate_key);;
  lift (bail_if (negb (in_range 30 3600 max_ttl_seconds)) "violates check constraint");;
  modify (on_secrets <[secret_id :=
    SecretRow corp_id name ciphertext nonce allowed_actor_ids allowed_tools resource_prefix max_ttl_seconds
      actor_id None]>);;
  append_new_event
    (new_event_of corp_id (Some actor_id) "secret.created" "secret" secret_id
       ("secret-created:" +:+ uuid_to_string secret_id)
       (json_object
          [("name", JStr name); ("allowed_actor_count", JInt (vec_len allowed_actor_ids));
           ("allowed_tools", JArr (JStr <$> allowed_tools)); ("resource_prefix", JStr resource_prefix);
           ("max_ttl_seconds", JInt max_ttl_seconds)]))
    "secret created event unexpectedly existed".

Definition revoke_row (now : timestamp) (s : secret_row) : secret_row :=
  SecretRow (sc_corp_id s) (sc_name s) (sc_ciphertext s) (sc_nonce s) (sc_allowed_actor_ids s)
    (sc_allowed_tools s) (sc_resource_prefix s) (sc_max_ttl_seconds s) (sc_created_by s) (Some now).
Definition store_revoke_secret (now : timestamp) (corp_id actor_id secret_id : uuid) (reason : string) :
    txn secret_db (option new_event) :=
  require_manager corp_id actor_id "revoke secrets";;
  row ← gets (λ db, s ← se_secrets db !! secret_id;
                    if (sc_corp_id s =? corp_id)%N && negb (is_some (sc_revoked_at s)) then Some s else None);
  match row with
  | None => mret None
  | Some s =>
      modify (on_secrets <[secret_id := revoke_row now s]>);;
      append_event_tx
        (new_event_of corp_id (Some actor_id) "secret.revoked" "secret" secret_id
           ("secret-revoked:" +:+ uuid_to_string secret_id) (json_object [("reason", JStr reason)]))
  end.

(** ** Granting *)
Record secret_grant_record := SecretGrantRecord {
  gr_grant_id : uuid; gr_secret_id : uuid; gr_name : string; gr_ciphertext : string; gr_nonce : string;
  gr_env_name : string; gr_tool : string; gr_resource : string; gr_expires_at : timestamp }.

(** left(value, char_length(prefix)) = prefix *)
Definition has_sql_prefix (prefix value : string) : bool :=
  seqb (of_chars (take (length (chars prefix)) (chars value))) prefix.
Definition secret_allows (corp_id requester : uuid) (r : task_secret_reference) (s : secret_row) : bool :=
  (sc_corp_id s =? corp_id)%N && negb (is_some (sc_revoked_at s))
  && existsb (N.eqb requester) (sc_allowed_actor_ids s) && mem (sr_tool r) (sc_allowed_tools s)
  && has_sql_prefix (sc_resource_prefix s) (sr_resource r).
Definition granted_secret (corp_id requester : uuid) (r : task_secret_reference) (db : secret_db) :
    option secret_row :=
  s ← se_secrets db !! sr_secret_id r; if secret_allows corp_id requester r s then Some s else None.

(** The requester of the mission of a run that is about to start. *)
Definition grant_requester (corp_id task_id run_id : uuid) (runner_id : string) (db : exec_db) : option uuid :=
  r ← run_of db run_id;
  t ← task_of db (rb_task (rn_binding r));
  m ← mission_of db (ta_mission t);
  if (rb_task (rn_binding r) =? task_id)%N && (rb_corp (rn_binding r) =? corp_id)%N
     && seqb (rb_runner (rn_binding r)) runner_id
     && (bool_decide (rn_status r = RunStatus.Provisioning) || bool_decide (rn_status r = RunStatus.Starting))
  then Some (mi_requested_by m) else None.

(** [fresh]: the id of each grant and the clock at that moment. *)
Definition grant_secret (corp_id task_id run_id : uuid) (runner_id : string) (requester : uuid)
    (fresh : uuid * timestamp) (r : task_secret_reference) :
    txn secret_db (secret_grant_record * list new_event) :=
  row ← gets (granted_secret corp_id requester r);
  s ← lift (with_context row ("forbidden: secret " +:+ uuid_to_string (sr_secret_id r)
              +:+ " is not authorized for this actor, task, tool, or resource"));
  let grant_id := fresh.1 in
  let expires_at := (fresh.2 + seconds (Z.min (sc_max_ttl_seconds s) 300))%Z in
  taken ← gets (λ db, is_some (se_grants db !! grant_id));
  lift (bail_if taken duplicate_key);;
  modify (on_grants <[grant_id :=
    SecretGrant corp_id (sr_secret_id r) task_id run_id requester runner_id (sr_tool r) (sr_resource r) expires_at]>);;
  event ← append_event_tx
    (new_event_of corp_id (Some requester) "secret.access_granted" "secret_grant" grant_id
       ("secret-grant:" +:+ uuid_to_string grant_id)
       (json_object
          [("secret_id", json_uuid (sr_secret_id r)); ("task_id", json_uuid task_id); ("run_id", json_uuid run_id);
           ("runner_id", JStr runner_id); ("tool", JStr (sr_tool r)); ("resource", JStr (sr_resource r));
           ("expires_at", JStr (timestamp_rfc3339 expires_at));
           ("assurance", JStr "environment_reduced_assurance")]));
  mret (SecretGrantRecord grant_id (sr_secret_id r) (sc_name s) (sc_ciphertext s) (sc_nonce s) (sr_env_name r)
          (sr_tool r) (sr_resource r) expires_at, option_list event).
Fixpoint grant_secrets (corp_id task_id run_id : uuid) (runner_id : string) (requester : uuid)
    (fresh : list (uuid * timestamp)) (refs : list task_secret_reference) :
    txn secret_db (list secret_grant_record * list new_event) :=
  match refs, fresh with
  | [], _ => mret ([], [])
  | r :: refs, f :: fresh =>
      one ← grant_secret corp_id task_id run_id runner_id requester f r;
      rest ← grant_secrets corp_id task_id run_id runner_id requester fresh refs;
      mret (one.1 :: rest.1, one.2 ++ rest.2)
  | _ :: _, [] => lift (Err "out of identifiers")
  end.
Definition grant_run_secrets (fresh : list (uuid * timestamp)) (corp_id task_id run_id : uuid)
    (runner_id : string) (refs : list task_secret_reference) :
    txn secret_db (list secret_grant_record * list new_event) :=
  if vec_is_empty refs then mret ([], [])
  else
    found ← gets (λ db, grant_requester corp_id task_id run_id runner_id (se_exec db));
    requester ← lift (with_context found "active run is not eligible for secret grants");
    grant_secrets corp_id task_id run_id runner_id requester fresh refs.

(** ** Resolving, in the server *)
Record resolved_secret := ResolvedSecret {
  rs_grant_id : uuid; rs_secret_id : uuid; rs_env_name : string; rs_value : string; rs_tool : string;
  rs_resource : string; rs_expires_at : string; rs_assurance : string }.
Definition resolve_grant (key : string) (corp_id : uuid) (g : secret_grant_record) : result resolved_secret :=
  plaintext ← decrypt key corp_id (gr_secret_id g) (gr_name g) (gr_ciphertext g) (gr_nonce g);
  bail_if (negb (utf8 plaintext)) "secret value is not valid UTF-8";;
  Ok (ResolvedSecret (gr_grant_id g) (gr_secret_id g) (gr_env_name g) plaintext (gr_tool g) (gr_resource g)
        (timestamp_rfc3339 (gr_expires_at g)) "environment_reduced_assurance").
(** The grants are committed before they are decrypted. *)
Definition resolve_secret_refs (key : string) (fresh : list (uuid * timestamp)) (corp_id task_id run_id : uuid)
    (runner_id : string) (refs : list task_secret_reference) (db : secret_db) :
    result (list resolved_secret) * secret_db :=
  match grant_run_secrets fresh corp_id task_id run_id runner_id refs db with
  | Ok ((grants, _), db) => (collect (resolve_grant key corp_id) grants, db)
  | Err e => (Err e, db)
  end.

(** ** The handlers of the server *)
Record create_secret_request := CreateSecretRequest {
  cs_actor_id : uuid; cs_name : string; cs_value : string; cs_allowed_actor_ids : list uuid;
  cs_allowed_tools : list string; cs_resource_prefix : string; cs_max_ttl_seconds : Z }.
Definition valid_scope_component (value : string) : bool :=
  negb (is_empty value) && (str_len value <=? 64)%Z
  && all_chars (λ c, is_ascii_alphanumeric c || one_of "._-" c) value.

(** [for allowed_actor_id in &allowed_actor_ids { .. }] *)
Fixpoint check_allowed_actors (corp_id : uuid) (ids : list uuid) : api secret_db unit :=
  match ids with
  | [] => mret tt
  | id :: rest =>
      found ← call (ApiError Internal) (human_authorization corp_id id);
      refuse_if (negb (is_some found)) BadRequest
        ("allowed actor " +:+ uuid_to_string id +:+ " is not a human member of this Corp");;
      check_allowed_actors corp_id rest
  end.
Definition clamp (low high value : Z) : Z := Z.min high (Z.max low value).
Definition create_secret (key : string) (now : timestamp) (p : principal) (corp_id secret_id : uuid)
    (random : string) (request : create_secret_request) : api secret_db (uuid * string) :=
  actor_id ← authorize_actor now p corp_id (Some (cs_actor_id request)) PermManage;
  let name := trim (cs_name request) in
  refuse_if (is_empty name || (100 <? str_len name)%Z) BadRequest
    "secret name must contain between 1 and 100 characters";;
  refuse_if (is_empty (cs_value request) || (65536 <? str_len (cs_value request))%Z) BadRequest
    "secret value must contain between 1 and 65,536 bytes";;
  refuse_if (vec_is_empty (cs_allowed_tools request) || (32 <? vec_len (cs_allowed_tools request))%Z) BadRequest
    "secret must allow between 1 and 32 tools";;
  refuse_if (existsb (λ tool, negb (valid_scope_component tool)) (cs_allowed_tools request)) BadRequest
    "secret tool scopes must use letters, digits, dot, dash, or underscore";;
  let resource_prefix := trim (cs_resource_prefix request) in
  refuse_if (is_empty resource_prefix || (512 <? str_len resource_prefix)%Z) BadRequest
    "secret resource prefix must contain between 1 and 512 characters";;
  let allowed_actor_ids :=
    if vec_is_empty (cs_allowed_actor_ids request) then [actor_id] else cs_allowed_actor_ids request in
  check_allowed_actors corp_id allowed_actor_ids;;
  sealed ← call (ApiError Internal) (lift (encrypt key random corp_id secret_id name (cs_value request)));
  call map_store_error
    (store_create_secret corp_id actor_id secret_id name sealed.1 sealed.2 allowed_actor_ids
       (cs_allowed_tools request) resource_prefix (clamp 30 3600 (cs_max_ttl_seconds request)));;
  mret (secret_id, name).

Definition revoke_secret (now : timestamp) (p : principal) (corp_id secret_id actor_id : uuid) (reason : string) :
    api secret_db unit :=
  actor_id ← authorize_actor now p corp_id (Some actor_id) PermManage;
  event ← call map_store_error (store_revoke_secret now corp_id actor_id secret_id reason);
  or_refuse event BadRequest "secret is missing or already revoked";;
  mret tt.

(** ** The runner: when the first grant expires *)
Fixpoint earliest_expiry (now : timestamp) (earliest : option timestamp) (secrets : list resolved_secret) :
    result (option timestamp) :=
  match secrets with
  | [] => Ok earliest
  | s :: rest =>
      expires_at ← with_context (parse_from_rfc3339 (rs_expires_at s))
        ("secret grant " +:+ uuid_to_string (rs_grant_id s) +:+ " has an invalid expiry");
      bail_if (expires_at <=? now)%Z
        ("secret grant " +:+ uuid_to_string (rs_grant_id s) +:+ " expired before provider start");;
      earliest_expiry now (Some (from_option (λ current, Z.min current expires_at) expires_at earliest)) rest
  end.
Definition secret_expiry_delay (now : timestamp) (secrets : list resolved_secret) : result (option Z) :=
  earliest ← earliest_expiry now None secrets;
  transpose (λ expires_at, bail_if (expires_at <? now)%Z "secret grant expiry interval is invalid";;
                           Ok (expires_at - now)%Z) earliest.

(** ** The requests on secrets *)
Inductive secret_request :=
| CreateSecret (key : string) (p : principal) (corp_id secret_id : uuid) (random : string)
    (request : create_secret_request)
| RevokeSecret (p : principal) (corp_id secret_id actor_id : uuid) (reason : string)
| ResolveSecrets (key : string) (fresh : list (uuid * timestamp)) (corp_id task_id run_id : uuid)
    (runner_id : string) (refs : list task_secret_reference).
Definition secret_handle (now : timestamp) (request : secret_request) (db : secret_db) : secret_db :=
  match request with
  | CreateSecret key p corp id random request => (create_secret key now p corp id random request db).2
  | RevokeSecret p corp id actor reason => (revoke_secret now p corp id actor reason db).2
  | ResolveSecrets key fresh corp task run runner refs =>
      (resolve_secret_refs key fresh corp task run runner refs db).2
  end.
Inductive secret_step : secret_db → secret_db → Prop :=
| secret_step_request now request db : secret_step db (secret_handle now request db)
| secret_step_exec e db : secret_step db (set_secret_exec e db).
End secrets.
