(* ===== verification/SecretSafety.v ===== *)
(** * What holds of secrets

    A grant is made only to what the secret allows ([secret_grants_are_authorised]);
    a granted secret decrypts to the value its creator stored
    ([granted_secrets_round_trip]); a revoked secret is never granted again
    ([revoked_secrets_are_not_granted]); the provider is stopped within five
    minutes ([secrets_are_short_lived]). *)
From S2P Require Import Prelude Text Json Domain Planning Deliverable FactoryPolicy Store FactoryItems Breaker ExecTables Checkpoint RunFailure RunEvents Dispatch Decisions ExecSpec EventSteps AttemptSteps Execution Polling Access Secrets.
From Stdlib Require Import DecimalString DecimalZ.

(** ** A frame rule for answers *)
Definition api_within {St} (R : St → St → Prop) {A} (t : api St A) : Prop := ∀ s r s', t s = (r, s') → R s s'.
Section api_frame.
Context {St : Type} (R : St → St → Prop) `{!PreOrder R}.
Lemma api_bind {A B} (m : api St A) (f : A → api St B) :
  api_within R m → (∀ a, api_within R (f a)) → api_within R (m ≫= f).
Proof.
  intros Hm Hf s r s'. unfold mbind, Access.api_bind. destruct (m s) as [[a|e] s1] eqn:E.
  - intros Hx. etrans; [by eapply Hm | by eapply Hf].
  - intros [= _ <-]. by eapply Hm.
Qed.
Lemma api_same {A} (t : api St A) : (∀ s, (t s).2 = s) → api_within R t.
Proof. intros Ht s r s' Hx. specialize (Ht s). rewrite Hx in Ht. simpl in Ht. by subst. Qed.
Lemma api_ret {A} (a : A) : api_within R (mret a).
Proof. by apply api_same. Qed.
Lemma api_refuse {A} status message : api_within R (refuse status message : api St A).
Proof. by apply api_same. Qed.
Lemma api_refuse_if c status message : api_within R (refuse_if c status message).
Proof. apply api_same. by destruct c. Qed.
Lemma api_or_refuse {A} (o : option A) status message : api_within R (or_refuse o status message).
Proof. apply api_same. by destruct o. Qed.
Lemma api_call {A} map_err (t : txn St A) : txn_within R t → api_within R (call map_err t).
Proof.
  intros Ht s r s'. unfold call. destruct (t s) as [[a s1]|] eqn:E; intros [= _ <-]; [by eapply Ht | reflexivity].
Qed.
End api_frame.

Create HintDb answers discriminated.
#[export] Hint Constants Opaque : answers.
#[export] Hint Extern 1 (PreOrder _) => apply _ : answers.
#[export] Hint Resolve api_ret api_refuse api_refuse_if api_or_refuse : answers.
Ltac answers :=
  repeat first
    [ progress intros
    | solve [eauto with answers]
    | apply api_bind; try apply _
    | apply api_call; try apply _; within
    | case_match ].

(** ** Rows of secrets stay, up to their revocation *)
Definition same_secret (s s' : secret_row) : Prop :=
  s' = s ∨ sc_revoked_at s = None ∧ ∃ now, s' = revoke_row now s.
Definition secrets_stay (db db' : secret_db) : Prop :=
  ∀ id s, se_secrets db !! id = Some s → ∃ s', se_secrets db' !! id = Some s' ∧ same_secret s s'.
#[global] Instance secrets_stay_preorder : PreOrder secrets_stay.
Proof.
  split; [intros db id s Hs; exists s; split; [done | by left] |].
  intros d1 d2 d3 H12 H23 id s Hs. destruct (H12 id s Hs) as (s2 & Hs2 & M12).
  destruct (H23 id s2 Hs2) as (s3 & Hs3 & M23). exists s3. split; [done |].
  destruct M12 as [-> | (N1 & now & ->)]; [done |]. destruct M23 as [-> | (N2 & _)]; [by right; eauto | done].
Qed.

Section stay.
Context `{Serde} `{Chrono} `{Aead}.

Lemma stay_same db db' : se_secrets db' = se_secrets db → secrets_stay db db'.
Proof. intros E id s Hs. exists s. rewrite E. split; [done | by left]. Qed.
Lemma stay_append event : txn_within secrets_stay (append_event_tx event).
Proof. apply within_append; [apply _ |]. intros db. by apply stay_same. Qed.
Lemma stay_append_new event message : txn_within secrets_stay (append_new_event event message).
Proof. apply within_append_new; [apply _ |]. intros db. by apply stay_same. Qed.
Lemma stay_grants f : txn_within secrets_stay (modify (on_grants f)).
Proof. apply within_modify. intros db. by apply stay_same. Qed.
Lemma stay_manager corp actor action : txn_within secrets_stay (require_manager corp actor action).
Proof. unfold require_manager. within. Qed.
#[local] Hint Resolve stay_append stay_append_new stay_grants stay_manager : within.

Lemma stay_create corp actor id name ciphertext nonce actors tools prefix ttl :
  txn_within secrets_stay (store_create_secret corp actor id name ciphertext nonce actors tools prefix ttl).
Proof.
  intros db u db'. unfold store_create_secret. intros Hx.
  apply txn_bind_ok in Hx as ([] & s1 & Hmgr%stay_manager & Hx). etrans; [exact Hmgr |].
  txn_inv. repeat match goal with H : bail_if ?b _ = Ok _ |- _ => destruct b eqn:?; [discriminate H |]; clear H end.
  intros i s Hs. exists s. split; [| by left]. simpl. rewrite lookup_insert_ne; [done |]. intros <-.
  unfold secret_taken in *. by rewrite Hs in *.
Qed.
Lemma stay_revoke now corp actor id reason : txn_within secrets_stay (store_revoke_secret now corp actor id reason).
Proof.
  intros db u db'. unfold store_revoke_secret. intros Hx.
  apply txn_bind_ok in Hx as ([] & s1 & Hmgr%stay_manager & Hx). etrans; [exact Hmgr |]. txn_inv.
  destruct (s ← se_secrets s1 !! id; _) as [s0|] eqn:E; txn_inv; [| reflexivity].
  apply bind_Some in E as (s2 & Hs2 & E). case_match eqn:Ec; [| done]. injection E as ->.
  apply andb_true_iff in Ec as [_ Ec].
  etrans; [| by eapply stay_append]. intros i s Hs. simpl. destruct (decide (i = id)) as [-> | Hne].
  - rewrite lookup_insert_eq. rewrite Hs2 in Hs. injection Hs as <-. eexists. split; [done |]. right.
    destruct (sc_revoked_at s0); [done |]. eauto.
  - rewrite lookup_insert_ne by done. exists s. split; [done | by left].
Qed.
Lemma stay_grant_secret corp task run runner requester fresh r :
  txn_within secrets_stay (grant_secret corp task run runner requester fresh r).
Proof. unfold grant_secret. within. Qed.
#[local] Hint Resolve stay_create stay_revoke stay_grant_secret : within.
Lemma stay_grants_all corp task run runner requester refs : ∀ fresh,
  txn_within secrets_stay (grant_secrets corp task run runner requester fresh refs).
Proof. induction refs; intros [|]; simpl; within. Qed.
#[local] Hint Resolve stay_grants_all : within.
Lemma stay_grant_run fresh corp task run runner refs :
  txn_within secrets_stay (grant_run_secrets fresh corp task run runner refs).
Proof. unfold grant_run_secrets. within. Qed.
Lemma stay_human corp actor : txn_within secrets_stay (human_authorization corp actor).
Proof. unfold human_authorization. within. Qed.
Lemma stay_identity now corp issuer subject : txn_within secrets_stay (resolve_human_identity now corp issuer subject).
Proof. unfold resolve_human_identity. within. apply within_modify. intros db. by apply stay_same. Qed.
#[local] Hint Resolve stay_human stay_identity : within.
Lemma stay_authorize now p corp claimed perm : api_within secrets_stay (authorize_actor now p corp claimed perm).
Proof. unfold authorize_actor, resolve_principal. answers. Qed.
#[local] Hint Resolve stay_authorize : answers.
Lemma stay_check_allowed corp ids : api_within secrets_stay (check_allowed_actors corp ids).
Proof. induction ids; simpl; answers. Qed.
#[local] Hint Resolve stay_check_allowed : answers.

Lemma secret_step_stay db db' : secret_step db db' → secrets_stay db db'.
Proof.
  intros [now request d | e d]; [| by apply stay_same]. destruct request; simpl.
  - assert (api_within secrets_stay (create_secret key now p corp_id secret_id random request)) as Hc
      by (unfold create_secret; answers).
    by eapply Hc, surjective_pairing.
  - assert (api_within secrets_stay (revoke_secret now p corp_id secret_id actor_id reason)) as Hc
      by (unfold revoke_secret; answers).
    by eapply Hc, surjective_pairing.
  - unfold resolve_secret_refs. destruct (grant_run_secrets _ _ _ _ _ _ d) as [[[grants events] d']|] eqn:E; simpl.
    + by eapply stay_grant_run.
    + reflexivity.
Qed.
Lemma secret_steps_stay db db' : rtc secret_step db db' → secrets_stay db db'.
Proof. induction 1; [reflexivity |]. etrans; [by apply secret_step_stay | done]. Qed.
End stay.

(** ** Grants *)
Section grants.
Context `{Serde} `{Chrono} `{Aead}.

Lemma sql_prefix_spec prefix value : utf8 value = true → has_sql_prefix prefix value = true →
  ∃ rest, value = prefix +:+ rest.
Proof.
  unfold has_sql_prefix. intros [_ Hv]%utf8_spec Hp%seqb_eq.
  exists (of_chars (drop (length (chars prefix)) (chars value))).
  rewrite <-Hp at 1. by rewrite <-of_chars_app, take_drop.
Qed.

(** What a grant for a reference was made from. *)
Record grant_made (corp requester : uuid) (fresh : list (uuid * timestamp)) (secrets : gmap uuid secret_row)
    (r : task_secret_reference) (g : secret_grant_record) (s : secret_row) (at_ : timestamp) : Prop := {
  au_row : secrets !! sr_secret_id r = Some s;
  au_corp : sc_corp_id s = corp;
  au_live : sc_revoked_at s = None;
  au_actor : requester ∈ sc_allowed_actor_ids s;
  au_tool : sr_tool r ∈ sc_allowed_tools s;
  au_prefix : has_sql_prefix (sc_resource_prefix s) (sr_resource r) = true;
  au_clock : (gr_grant_id g, at_) ∈ fresh;
  au_record : g = SecretGrantRecord (gr_grant_id g) (sr_secret_id r) (sc_name s) (sc_ciphertext s) (sc_nonce s)
    (sr_env_name r) (sr_tool r) (sr_resource r) (at_ + seconds (Z.min (sc_max_ttl_seconds s) 300));
}.

Lemma append_secrets event (db : secret_db) o db' : append_event_tx event db = Ok (o, db') →
  se_secrets db' = se_secrets db ∧ se_grants db' = se_grants db ∧ x_core (se_exec db') = x_core (se_exec db).
Proof. unfold append_event_tx. case_match; by intros [= _ <-]. Qed.

Lemma secret_allows_spec corp requester r s : secret_allows corp requester r s = true ↔
  sc_corp_id s = corp ∧ sc_revoked_at s = None ∧ requester ∈ sc_allowed_actor_ids s ∧
  sr_tool r ∈ sc_allowed_tools s ∧ has_sql_prefix (sc_resource_prefix s) (sr_resource r) = true.
Proof.
  unfold secret_allows. rewrite !andb_true_iff, N.eqb_eq, negb_true_iff, existsb_exists, mem_spec.
  setoid_rewrite N.eqb_eq. setoid_rewrite <-list_elem_of_In. destruct (sc_revoked_at s); simpl; naive_solver.
Qed.

Lemma grant_secret_ok corp task run runner requester fresh r db g es db' :
  grant_secret corp task run runner requester fresh r db = Ok ((g, es), db') →
  se_secrets db' = se_secrets db ∧ x_core (se_exec db') = x_core (se_exec db) ∧
  se_grants db !! fresh.1 = None ∧
  se_grants db' = <[fresh.1 := SecretGrant corp (sr_secret_id r) task run requester runner (sr_tool r)
                                 (sr_resource r) (gr_expires_at g)]> (se_grants db) ∧
  ∃ s, grant_made corp requester [fresh] (se_secrets db) r g s fresh.2.
Proof.
  unfold grant_secret. intros Hx. txn_inv.
  match goal with H : with_context _ _ = Ok _ |- _ => apply with_context_ok in H; rename H into Hs end.
  match goal with H : bail_if ?b _ = Ok _ |- _ => destruct b eqn:Et; [discriminate H |] end.
  match goal with H : append_event_tx _ _ = Ok _ |- _ => apply append_secrets in H as (E1 & E2 & E3) end.
  simplify_eq. simpl in *. rewrite E1, E2, E3. simpl. split; [done |]. split; [done |].
  split; [by destruct (se_grants _ !! fresh.1) |]. split; [done |].
  unfold granted_secret in Hs. apply bind_Some in Hs as (s0 & Hrow & Hs). case_match eqn:Ea; [| done].
  injection Hs as ->. apply secret_allows_spec in Ea as (? & ? & ? & ? & ?). eexists. split; try done.
  simpl. destruct fresh. by left.
Qed.

Lemma grant_secrets_ok corp task run runner requester refs : ∀ fresh db grants es db',
  grant_secrets corp task run runner requester fresh refs db = Ok ((grants, es), db') →
  se_secrets db' = se_secrets db ∧ x_core (se_exec db') = x_core (se_exec db) ∧
  Forall2 (λ r g, ∃ s at_, grant_made corp requester fresh (se_secrets db) r g s at_) refs grants ∧
  (∀ id row, se_grants db' !! id = Some row → se_grants db !! id = Some row ∨
     ∃ r g, r ∈ refs ∧ g ∈ grants ∧ gr_grant_id g = id ∧
       row = SecretGrant corp (sr_secret_id r) task run requester runner (sr_tool r) (sr_resource r) (gr_expires_at g)).
Proof.
  induction refs as [|r refs IH]; intros fresh db grants es db' Hx.
  { destruct fresh; injection Hx as <- <- <-; split_and!; auto. }
  destruct fresh as [|f fresh]; [discriminate Hx |]. cbn [grant_secrets] in Hx. txn_inv.
  match goal with H : grant_secret _ _ _ _ _ _ _ _ = Ok (?o, _) |- _ => destruct o as [g1 es1]; rename H into H1' end.
  match goal with H : grant_secrets _ _ _ _ _ _ _ _ = Ok (?o, _) |- _ => destruct o as [gs1 es2]; rename H into H2' end.
  simplify_eq. apply grant_secret_ok in H1' as (E1 & C1 & _ & G1 & sec & A).
  apply IH in H2' as (E2 & C2 & F & G2). rewrite E1 in *. split; [done |]. split; [congruence |]. simpl. split.
  - constructor.
    + exists sec, f.2. destruct A; split; try done. apply list_elem_of_singleton in au_clock0. rewrite au_clock0. left.
    + eapply Forall2_impl; [exact F |]. intros r' g' (s' & at_ & [? ? ? ? ? ? ? ?]). exists s', at_.
      split; try done. by right.
  - intros id row Hrow. apply G2 in Hrow as [Hrow | (r' & g' & ? & ? & ? & ?)].
    + rewrite G1 in Hrow. apply lookup_insert_Some in Hrow as [[<- <-] | [_ ?]]; [right | by left].
      exists r, g1. split; [left |]. split; [left |]. split; [| done].
      destruct A as [_ _ _ _ _ _ A _]. apply list_elem_of_singleton in A. by destruct f; simplify_eq.
    + right. exists r', g'. split; [by right |]. split; [by right | done].
Qed.

Lemma grant_run_secrets_core fresh corp task run runner refs db out db' :
  grant_run_secrets fresh corp task run runner refs db = Ok (out, db') → x_core (se_exec db') = x_core (se_exec db).
Proof.
  unfold grant_run_secrets. intros Hx. destruct (vec_is_empty refs); [by apply mret_ok in Hx as [_ ->] |]. txn_inv.
  destruct out. by apply grant_secrets_ok in Hx as (_ & ? & _).
Qed.

(** C23: a grant is made only to what the secret allows: when the store grants the
    secrets of a dispatch, the run belongs to that task, Corp and runner and has
    not started; each reference gets exactly one grant, from a live secret of the
    Corp that allows the requester of the mission and the tool and whose prefix
    begins the resource; the grant carries that secret's ciphertext and expires
    after its lifetime, at most 300 seconds from the moment it is made; and no other
    row is written. *)
Theorem secret_grants_are_authorised fresh corp task run runner refs db grants es db' : refs ≠ [] →
  grant_run_secrets fresh corp task run runner refs db = Ok ((grants, es), db') →
  ∃ r t m, run_of (se_exec db) run = Some r ∧ rb_task (rn_binding r) = task ∧ rb_corp (rn_binding r) = corp ∧
    rb_runner (rn_binding r) = runner ∧ (rn_status r = RunStatus.Provisioning ∨ rn_status r = RunStatus.Starting) ∧
    task_of (se_exec db) task = Some t ∧ mission_of (se_exec db) (ta_mission t) = Some m ∧
  Forall2 (λ ref g, ∃ s at_, grant_made corp (mi_requested_by m) fresh (se_secrets db) ref g s at_ ∧
             (gr_expires_at g ≤ at_ + seconds 300)%Z ∧
             (utf8 (sr_resource ref) = true → ∃ rest, sr_resource ref = sc_resource_prefix s +:+ rest)) refs grants ∧
  se_secrets db' = se_secrets db ∧ x_core (se_exec db') = x_core (se_exec db) ∧
  (∀ id row, se_grants db' !! id = Some row → se_grants db !! id = Some row ∨
     ∃ ref g, ref ∈ refs ∧ g ∈ grants ∧ gr_grant_id g = id ∧
       row = SecretGrant corp (sr_secret_id ref) task run (mi_requested_by m) runner (sr_tool ref) (sr_resource ref)
               (gr_expires_at g)).
Proof.
  unfold grant_run_secrets. intros Hne Hx. destruct (vec_is_empty refs) eqn:Ee; [by destruct refs |]. txn_inv.
  match goal with H : with_context _ _ = Ok _ |- _ => apply with_context_ok in H; rename H into Hg end.
  unfold grant_requester in Hg. apply bind_Some in Hg as (r & Hr & Hg). apply bind_Some in Hg as (t & Ht & Hg).
  apply bind_Some in Hg as (m & Hm & Hg). case_match eqn:Ec; [| done]. injection Hg as <-.
  rewrite !andb_true_iff, orb_true_iff, !N.eqb_eq, seqb_eq, !bool_decide_eq_true in Ec.
  destruct Ec as [[[Htask Hcorp] Hrun] Hs]. rewrite Htask in Ht. exists r, t, m.
  apply grant_secrets_ok in Hx as (E & C & F & G). split_and!; try done.
  eapply Forall2_impl; [exact F |]. intros ref g (s & at_ & A). exists s, at_. split; [exact A |].
  destruct A. split.
  - rewrite au_record0. simpl. unfold seconds. lia.
  - intros Hu. by apply sql_prefix_spec.
Qed.
End grants.

(** ** Round trip, revocation, expiry *)

(** The texts of instants of the years 1970 to 9999 parse to the instant. *)
Class Rfc3339Laws (S : Serde) (C : Chrono) :=
  rfc3339_round_trip t : (0 ≤ t < seconds 253402300800)%Z → parse_from_rfc3339 (timestamp_rfc3339 t) = Some t.
Section promises.
Context `{Serde} `{Chrono} `{Aead}.

Lemma substring_length n s : n ≤ String.length s → String.length (String.substring 0 n s) = n.
Proof.
  revert n. induction s as [|a s IH]; intros [|n] Hn; simpl in *; try done; try lia. rewrite IH; lia.
Qed.
Lemma encrypt_decrypt `{!AeadLaws _} key random corp id name plaintext ciphertext nonce :
  12 ≤ String.length random → encrypt key random corp id name plaintext = Ok (ciphertext, nonce) →
  decrypt key corp id name ciphertext nonce = Ok plaintext.
Proof.
  unfold encrypt, decrypt. intros Hr. rewrite bind_ok. intros (c & Hc%with_context_ok & [= <- <-]).
  unfold str_len. rewrite substring_length by done. simpl. by rewrite (aead_round_trip _ _ _ _ _ Hc).
Qed.

(** The row a creation leaves. *)
Record created (key random : string) (corp id : uuid) (name value : string) (s : secret_row) : Prop := {
  cr_corp : sc_corp_id s = corp;
  cr_name : sc_name s = name;
  cr_sealed : encrypt key random corp id name value = Ok (sc_ciphertext s, sc_nonce s);
  cr_live : sc_revoked_at s = None;
  cr_ttl : (30 ≤ sc_max_ttl_seconds s ≤ 3600)%Z;
}.
Lemma create_secret_answer key now p corp id random request db o db' :
  create_secret key now p corp id random request db = (Answer o, db') →
  o = (id, trim (cs_name request)) ∧
  ∃ s, se_secrets db' !! id = Some s ∧ created key random corp id (trim (cs_name request)) (cs_value request) s.
Proof.
  unfold create_secret. intros Hx.
  repeat match goal with
    | H : (_ ≫= _) _ = (Answer _, _) |- _ => apply api_bind_ok in H as (? & ? & ? & H)
    end.
  apply answer_ok in Hx as [-> ->]. split; [done |].
  repeat match goal with H : call _ _ _ = (Answer _, _) |- _ => apply call_ok in H end.
  match goal with H : lift _ _ = Ok _ |- _ => apply lift_ok in H as [Hseal ->] end.
  match goal with H : store_create_secret _ _ _ _ _ _ _ _ _ _ _ = Ok _ |- _ => rename H into Hst end.
  unfold store_create_secret in Hst. apply txn_bind_ok in Hst as ([] & d1 & _ & Hst). txn_inv.
  repeat match goal with H : bail_if ?b _ = Ok _ |- _ => destruct b eqn:?; [discriminate H |]; clear H end.
  eexists. split; [simpl; apply lookup_insert_eq |]. split; simpl; try done.
  - rewrite Hseal. f_equal. apply surjective_pairing.
  - match goal with H : negb (in_range _ _ _) = false |- _ => apply negb_false_iff, in_range_spec in H; lia end.
Qed.

(** Every grant comes from a live row of the Corp. *)
Lemma granted_from fresh corp task run runner refs db grants es db' :
  grant_run_secrets fresh corp task run runner refs db = Ok ((grants, es), db') →
  ∃ requester, Forall2 (λ r g, ∃ s at_, grant_made corp requester fresh (se_secrets db) r g s at_) refs grants.
Proof.
  unfold grant_run_secrets. destruct (vec_is_empty refs) eqn:Ee; intros Hx; txn_inv.
  - destruct refs; [| done]. simplify_eq. exists 0%N. constructor.
  - match goal with H : grant_secrets _ _ _ _ ?q _ _ _ = _ |- _ => exists q; by apply grant_secrets_ok in H as (_ & _ & F & _) end.
Qed.

(** C25: a granted secret decrypts to what its creator stored: from the moment a
    creation answers, through any requests on secrets and any changes of execution,
    whenever a dispatch is granted that secret it belongs to the Corp it was created
    for, and the server resolves the grant to the value of the request, under the
    reference's variable and scope. *)
Theorem granted_secrets_round_trip `{!AeadLaws _} key now p corp id random request o db0 db1 db2 fresh corp' task run
    runner refs grants es db3 g :
  create_secret key now p corp id random request db0 = (Answer o, db1) →
  utf8 (cs_value request) = true → 12 ≤ String.length random →
  rtc secret_step db1 db2 →
  grant_run_secrets fresh corp' task run runner refs db2 = Ok ((grants, es), db3) →
  g ∈ grants → gr_secret_id g = id →
  corp' = corp ∧ ∃ ref, ref ∈ refs ∧ sr_secret_id ref = id ∧
  resolve_grant key corp' g =
    Ok (ResolvedSecret (gr_grant_id g) id (sr_env_name ref) (cs_value request) (sr_tool ref) (sr_resource ref)
          (timestamp_rfc3339 (gr_expires_at g)) "environment_reduced_assurance").
Proof.
  intros Hc Hutf Hr Hsteps Hg Hin Hid. apply create_secret_answer in Hc as (_ & s & Hs & [Ec En Es _ _]).
  apply secret_steps_stay in Hsteps. destruct (Hsteps _ _ Hs) as (s2 & Hs2 & Hsame).
  apply granted_from in Hg as [requester F]. apply list_elem_of_lookup in Hin as [i Hi].
  destruct (Forall2_lookup_r _ _ _ _ _ F Hi) as (ref & Href & row & at_ & A).
  destruct A as [Arow Acorp _ _ _ _ _ Arec]. rewrite Arec in Hid. simpl in Hid. rewrite Hid, Hs2 in Arow.
  injection Arow as <-.
  assert (sc_corp_id s2 = sc_corp_id s ∧ sc_name s2 = sc_name s ∧ sc_ciphertext s2 = sc_ciphertext s ∧
          sc_nonce s2 = sc_nonce s) as (E1 & E2 & E3 & E4) by (by destruct Hsame as [-> | (_ & ? & ->)]).
  split; [congruence |]. exists ref. split; [by eapply list_elem_of_lookup_2 |]. split; [done |].
  assert (corp' = corp) as -> by congruence. rewrite Arec. unfold resolve_grant. simpl. rewrite Hid, E2, E3, E4, En.
  rewrite (encrypt_decrypt key random corp id _ _ _ _ Hr Es). simpl. by rewrite Hutf.
Qed.

Lemma revoke_secret_answer now p corp id actor reason u db db' :
  revoke_secret now p corp id actor reason db = (Answer u, db') →
  ∃ s, se_secrets db' !! id = Some s ∧ sc_revoked_at s = Some now ∧ sc_corp_id s = corp.
Proof.
  unfold revoke_secret. intros Hx.
  repeat match goal with
    | H : (_ ≫= _) _ = (Answer _, _) |- _ => apply api_bind_ok in H as (? & ? & ? & H)
    end.
  apply answer_ok in Hx as [-> ->].
  match goal with H : or_refuse _ _ _ _ = (Answer _, _) |- _ => apply or_refuse_ok in H as [-> ->] end.
  match goal with H : call _ (store_revoke_secret _ _ _ _ _) _ = (Answer _, _) |- _ =>
    apply call_ok in H; rename H into Hst end.
  unfold store_revoke_secret in Hst. apply txn_bind_ok in Hst as ([] & d1 & _ & Hst). txn_inv.
  destruct (s ← se_secrets d1 !! id; _) as [s0|] eqn:E; txn_inv; [| done].
  match goal with H : append_event_tx _ _ = Ok _ |- _ => apply append_secrets in H as (-> & _ & _) end.
  apply bind_Some in E as (s2 & Hs2 & E). case_match eqn:Ec; [| done]. injection E as ->.
  apply andb_true_iff in Ec as [Ec%N.eqb_eq _].
  exists (revoke_row now s0). split; [simpl; apply lookup_insert_eq |]. by split.
Qed.

(** C24: revocation is final: once a revocation has answered, through any requests on
    secrets and any changes of execution, no dispatch that names the secret is granted
    any, nothing is written for it, and the server sends the runner no value. *)
Theorem revoked_secrets_are_not_granted now p corp id actor reason u db0 db1 db2 key fresh corp' task run runner refs ref :
  revoke_secret now p corp id actor reason db0 = (Answer u, db1) →
  rtc secret_step db1 db2 → ref ∈ refs → sr_secret_id ref = id →
  is_ok (resolve_secret_refs key fresh corp' task run runner refs db2).1 = false ∧
  (resolve_secret_refs key fresh corp' task run runner refs db2).2 = db2.
Proof.
  intros Hc Hsteps Hin Hid. apply revoke_secret_answer in Hc as (s & Hs & Hrev & _).
  apply secret_steps_stay in Hsteps. destruct (Hsteps _ _ Hs) as (s2 & Hs2 & Hsame).
  unfold resolve_secret_refs. destruct (grant_run_secrets _ _ _ _ _ _ db2) as [[[grants es] db3]|] eqn:E; [| done].
  apply granted_from in E as [requester F]. apply list_elem_of_lookup in Hin as [i Hi].
  destruct (Forall2_lookup_l _ _ _ _ _ F Hi) as (g & _ & row & at_ & A).
  destruct A as [Arow _ Alive _ _ _ _ _]. rewrite Hid, Hs2 in Arow. injection Arow as <-.
  destruct Hsame as [-> | (N & _)]; congruence.
Qed.

(** The earliest of the expiries, as the loop of the runner finds it. *)
Lemma earliest_expiry_ok now secrets : ∀ ts earliest,
  Forall2 (λ s t, parse_from_rfc3339 (rs_expires_at s) = Some t) secrets ts →
  (Forall (λ t, now < t)%Z ts ↔ is_ok (earliest_expiry now earliest secrets) = true) ∧
  ∀ o, earliest_expiry now earliest secrets = Ok o →
    match o with
    | None => earliest = None ∧ ts = []
    | Some m => (earliest = Some m ∨ m ∈ ts) ∧ (∀ c, earliest = Some c → (m ≤ c)%Z) ∧ Forall (λ t, m ≤ t)%Z ts
    end.
Proof.
  induction secrets as [|s secrets IH]; intros ts earliest F; inversion F as [|? t ? ts' Hp F' E1 E2]; subst; clear F.
  { split; [by split |]. intros o [= <-]. destruct earliest as [c|]; [| done].
    split; [by left |]. split; [by intros ? [= ->] | constructor]. }
  simpl. rewrite Hp. simpl. rewrite Forall_cons. destruct (t <=? now)%Z eqn:Et; simpl.
  { split; [| done]. split; [lia | done]. }
  destruct (IH ts' (Some (from_option (λ current, Z.min current t) t earliest)) F') as [IH1 IH2]. split.
  { rewrite <-IH1. lia || (split; [by intros [_ ?] | intros ?; split; [lia | done]]). }
  intros [m|] Hm; [| by destruct (IH2 _ Hm)]. destruct (IH2 _ Hm) as (Hin & Hle & Hall).
  specialize (Hle _ eq_refl). rewrite Forall_cons, elem_of_cons. destruct earliest as [c|]; simpl in *.
  - split; [| split; [intros ? [= <-]; lia | split; [lia | done]]].
    destruct Hin as [[= Hin] | Hin]; [| by auto].
    destruct (Z.min_spec c t) as [[_ E] | [_ E]]; rewrite E in Hin; subst; auto.
  - split; [destruct Hin as [[= ->] |]; auto |]. split; [done |]. by split.
Qed.

(** The provider never outlives a secret it was given: on the secrets a dispatch
    resolved, the runner starts the provider exactly when every grant is still live,
    and it is stopped after a positive delay that ends with the earliest grant, at most
    300 seconds after the latest moment a grant was made; it runs without such a limit
    only when the task names no secret. *)
Theorem secrets_are_short_lived `{!Rfc3339Laws _ _} fresh corp task run runner refs db grants es db' key secrets now clock :
  grant_run_secrets fresh corp task run runner refs db = Ok ((grants, es), db') →
  collect (resolve_grant key corp) grants = Ok secrets →
  (∀ g, g ∈ grants → (0 ≤ gr_expires_at g < seconds 253402300800)%Z) →
  (∀ f, f ∈ fresh → (f.2 ≤ clock)%Z) →
  (is_ok (secret_expiry_delay now secrets) = true ↔ ∀ g, g ∈ grants → (now < gr_expires_at g)%Z) ∧
  ∀ delay, secret_expiry_delay now secrets = Ok delay →
    match delay with
    | None => refs = []
    | Some d => (0 < d)%Z ∧ (now + d ≤ clock + seconds 300)%Z ∧
        (∀ g, g ∈ grants → (now + d ≤ gr_expires_at g)%Z) ∧ ∃ g, g ∈ grants ∧ (now + d = gr_expires_at g)%Z
    end.
Proof.
  intros Hg Hc Hrange Hclock. apply collect_ok in Hc. apply granted_from in Hg as [requester F].
  assert (Forall2 (λ s t, parse_from_rfc3339 (rs_expires_at s) = Some t) secrets (gr_expires_at <$> grants)) as Fp.
  { apply Forall2_fmap_r, Forall2_flip. apply Forall2_same_length_lookup_2; [by eapply Forall2_length |].
    intros i g s Hi Hsi. pose proof (list_elem_of_lookup_2 _ _ _ Hi) as Hin.
    pose proof (Forall2_lookup_lr _ _ _ _ _ _ Hc Hi Hsi) as Hs. simpl in Hs.
    unfold resolve_grant in Hs. apply bind_ok in Hs as (plain & _ & Hs). apply bind_ok in Hs as (u & _ & [= <-]).
    simpl. by apply rfc3339_round_trip, Hrange. }
  destruct (earliest_expiry_ok now secrets _ None Fp) as [E1 E2]. rewrite Forall_fmap, Forall_forall in E1.
  unfold secret_expiry_delay. destruct (earliest_expiry now None secrets) as [[m|]|] eqn:E; simpl in *.
  - destruct (E2 _ eq_refl) as ([|Hm] & _ & Hle); [done |]. apply list_elem_of_fmap in Hm as (g & -> & Hin).
    pose proof (proj2 E1 eq_refl) as Hlive. pose proof (Hlive g Hin) as Hg. simpl in Hg.
    assert (gr_expires_at g <? now = false)%Z as -> by lia. simpl. split; [done |]. intros delay [= <-].
    rewrite Forall_fmap, Forall_forall in Hle.
    split; [lia |]. split; [| split; [intros g' Hin'; specialize (Hle g' Hin'); simpl in Hle; lia |]].
    + apply list_elem_of_lookup in Hin as [i Hi].
      destruct (Forall2_lookup_r _ _ _ _ _ F Hi) as (ref & _ & row & at_ & A).
      destruct A as [_ _ _ _ _ _ Ac Ar]. specialize (Hclock _ Ac). simpl in Hclock. rewrite Ar. simpl. unfold seconds. lia.
    + exists g. split; [done |]. lia.
  - split; [done |]. intros delay [= <-]. destruct (E2 _ eq_refl) as [_ Hn]. apply fmap_nil_inv in Hn. subst.
    by inversion F.
  - split; [done |]. done.
Qed.
End promises.

(** ** Witnesses *)
Section secret_demo.
(** A library whose texts of instants are their nanoseconds, and a cipher that
    hides nothing. *)
Definition rfc_serde : Serde := {|
  uuid_parse_str := @uuid_parse_str sample_serde;
  uuid_to_string := @uuid_to_string sample_serde;
  json_byte_len := @json_byte_len sample_serde;
  decode_verification_policy := @decode_verification_policy sample_serde;
  timestamp_display := @timestamp_display sample_serde;
  timestamp_rfc3339 t := NilEmpty.string_of_int (Z.to_int t);
|}.
Definition rfc_chrono : Chrono := {|
  min_utc := (- seconds 8334601228800)%Z;
  max_utc := (seconds 8210266876799 + 999999999)%Z;
  parse_from_rfc3339 s := Z.of_int <$> NilEmpty.int_of_string s;
  parse_from_rfc2822 s := None;
|}.
#[local] Instance rfc_laws : Rfc3339Laws rfc_serde rfc_chrono.
Proof. intros t _. simpl. rewrite NilEmpty.isi. simpl. by rewrite DecimalZ.of_to. Qed.
Definition open_cipher : Aead := {|
  aead_encrypt key nonce data message := Some message;
  aead_decrypt key nonce data ciphertext := Some ciphertext;
  hex_decode s := Some s;
|}.
#[local] Instance open_cipher_laws : AeadLaws open_cipher.
Proof. by intros key nonce data message ciphertext [= ->]. Qed.
#[local] Existing Instances rfc_serde rfc_chrono open_cipher.

Definition demo_secret_db : secret_db :=
  SecretDb (demo [demo_create None; demo_start 60]) ∅ ∅ ∅.
Definition demo_secret : create_secret_request :=
  CreateSecretRequest 10 " TOKEN " "hunter2" [] ["shell"] "repo/" 900.
Definition demo_refs : list task_secret_reference := [TaskSecretReference 700 "GH_TOKEN" "shell" "repo/a"].
Definition demo_creation := create_secret "key" 0 DevelopmentPrincipal 1 700 "0123456789abcdef" demo_secret demo_secret_db.
Definition demo_grant := grant_run_secrets [(710%N, seconds 5)] 1 50 60 "runner-a" demo_refs.

Lemma secret_grants_are_authorised_witness :
  match demo_grant demo_creation.2 with
  | Ok ((grants, _), db) => ∃ r, run_of (se_exec demo_creation.2) 60 = Some r ∧ length grants = 1%nat ∧
      se_secrets db = se_secrets demo_creation.2
  | Err _ => False
  end.
Proof.
  assert (is_ok (demo_grant demo_creation.2) = true) as Hok by by vm_compute.
  destruct (demo_grant demo_creation.2) as [[[grants es] db']|] eqn:E; [| discriminate Hok].
  destruct (secret_grants_are_authorised [(710%N, seconds 5)] 1 50 60 "runner-a" demo_refs demo_creation.2 grants es db'
    ltac:(discriminate) E) as (r & t & m & Hr & _ & _ & _ & _ & _ & _ & F & Hs & _).
  exists r. split; [exact Hr |]. split; [symmetry; exact (Forall2_length _ _ _ F) | exact Hs].
Defined.

Lemma granted_secrets_round_trip_witness :
  match demo_grant demo_creation.2 with
  | Ok ((grants, _), _) => ∃ g, g ∈ grants ∧ rs_value <$> resolve_grant "key" 1 g = Ok "hunter2"
  | Err _ => False
  end.
Proof.
  assert (match demo_grant demo_creation.2 with Ok ((g :: _, _), _) => gr_secret_id g = 700%N | _ => False end)
    as Hok by by vm_compute.
  destruct (demo_grant demo_creation.2) as [[[[|g grants] es] db3]|] eqn:E; [destruct Hok | | destruct Hok].
  exists g. split; [left |].
  destruct demo_creation as [rep db1] eqn:Ec.
  assert (match (demo_creation).1 with Answer _ => True | _ => False end) as Hans by by vm_compute.
  rewrite Ec in Hans. destruct rep as [o|]; [| destruct Hans].
  destruct (granted_secrets_round_trip "key" 0 DevelopmentPrincipal 1 700 "0123456789abcdef" demo_secret o demo_secret_db
    db1 db1 [(710%N, seconds 5)] 1 50 60 "runner-a" demo_refs (g :: grants) es db3 g Ec eq_refl ltac:(simpl; lia)
    (rtc_refl _ _) E ltac:(left) Hok) as (_ & ref & _ & _ & Hv).
  rewrite Hv. reflexivity.
Defined.

Definition demo_revoked := revoke_secret 6 DevelopmentPrincipal 1 700 10 "leaked" demo_creation.2.
Lemma revoked_secrets_are_not_granted_witness :
  match demo_revoked with
  | (Answer _, db) =>
      is_ok (resolve_secret_refs "key" [(710%N, seconds 5)] 1 50 60 "runner-a" demo_refs db).1 = false
  | (Refusal _, _) => False
  end.
Proof.
  assert (match demo_revoked.1 with Answer _ => True | _ => False end) as Hans by by vm_compute.
  destruct demo_revoked as [[u|] db1] eqn:E; [| destruct Hans].
  exact (proj1 (revoked_secrets_are_not_granted 6 DevelopmentPrincipal 1 700 10 "leaked" u demo_creation.2 db1 db1 "key"
    [(710%N, seconds 5)] 1 50 60 "runner-a" demo_refs _ E (rtc_refl _ _) ltac:(left) eq_refl)).
Defined.

Lemma secrets_are_short_lived_witness :
  match resolve_secret_refs "key" [(710%N, seconds 5)] 1 50 60 "runner-a" demo_refs demo_creation.2 with
  | (Ok secrets, _) => ∃ d, secret_expiry_delay (seconds 6) secrets = Ok (Some d) ∧ (0 < d ≤ seconds 299)%Z
  | (Err _, _) => False
  end.
Proof.
  unfold resolve_secret_refs. fold (demo_grant demo_creation.2).
  assert (match demo_grant demo_creation.2 with
    | Ok ((grants, _), _) => match collect (resolve_grant "key" 1) grants with
        | Ok secrets => match secret_expiry_delay (seconds 6) secrets with Ok (Some _) => True | _ => False end
        | _ => False end ∧ gr_expires_at <$> grants = [seconds 305]
    | _ => False end) as Hok by (vm_compute; split; reflexivity || exact I).
  destruct (demo_grant demo_creation.2) as [[[grants es] db3]|] eqn:E; [| destruct Hok]. destruct Hok as [Hok Hexp].
  destruct (collect (resolve_grant "key" 1) grants) as [secrets|] eqn:Ec; [| destruct Hok].
  destruct (secret_expiry_delay (seconds 6) secrets) as [[d|]|] eqn:Ed; [| destruct Hok | destruct Hok].
  exists d. split; [reflexivity |].
  destruct (proj2 (secrets_are_short_lived [(710%N, seconds 5)] 1 50 60 "runner-a" demo_refs demo_creation.2 grants es db3
    "key" secrets (seconds 6) (seconds 5) E Ec
    ltac:(intros g Hg; apply (list_elem_of_fmap_2 gr_expires_at) in Hg; rewrite Hexp in Hg;
          apply list_elem_of_singleton in Hg; rewrite Hg; unfold seconds; lia)
    ltac:(intros f Hf; apply list_elem_of_singleton in Hf; rewrite Hf; reflexivity)) (Some d) Ed) as (H1 & H2 & _).
  unfold seconds in *. lia.
Defined.
End secret_demo.
