(* ===== verification/RunnerPool.v ===== *)
(** * The connected runners (crates/crony-server/src/main.rs)

    The server keeps one connection per runner in memory: its Corp, the epoch of
    the socket, the queue of the socket and the capabilities.  Work goes only to
    connections that have been reconciled ([enable_runner_dispatch]), only to the
    socket it was meant for ([send_command_to_current_runner]), and to a runner
    whose capabilities meet the task ([select_ready_runner]).  Every tick gives
    each Corp, and in turn each of its runners, a chance
    ([reconcile_ready_corps]). *)
From S2P Require Import Prelude Text Planning FactoryPolicy.

(** ** Data *)
Record runner_model := RunnerModel {
  rm_id : string; rm_policy_state : option string; rm_supports_reasoning_effort : bool;
  rm_supported_reasoning_efforts : list string }.
Record runner_capability := RunnerCapability {
  cap_name : string; cap_available : bool; cap_models : list runner_model;
  cap_source_repository : option string; cap_source_base_ref : option string;
  cap_source_base_commit : option string; cap_workspace_connection_id : option uuid }.
(** [pc_tx] names the queue of the socket, see [channels]. *)
Record runner_connection := RunnerConnection {
  pc_corp_id : uuid; pc_connection_epoch : uuid; pc_dispatch_ready : bool; pc_tx : N;
  pc_capabilities : list runner_capability }.
Abbreviation connections := (gmap string runner_connection).

(** An unbounded channel: a send succeeds as long as the writer holds the other end. *)
Record channel (Cmd : Type) := Channel { ch_open : bool; ch_sent : list Cmd }.
Arguments Channel {Cmd}.
Arguments ch_open {Cmd}.
Arguments ch_sent {Cmd}.
Abbreviation channels Cmd := (gmap N (channel Cmd)).
Record runner_pool (Cmd : Type) := RunnerPool { rp_runners : connections; rp_channels : channels Cmd }.
Arguments RunnerPool {Cmd}.
Arguments rp_runners {Cmd}.
Arguments rp_channels {Cmd}.

(** [tx.send(command).is_ok()] *)
Definition send {Cmd} (tx : N) (command : Cmd) (sockets : channels Cmd) : bool * channels Cmd :=
  match sockets !! tx with
  | Some c => if ch_open c then (true, <[tx := Channel true (ch_sent c ++ [command])]> sockets) else (false, sockets)
  | None => (false, sockets)
  end.

(** ** Readiness *)
Definition set_dispatch_ready (c : runner_connection) : runner_connection :=
  RunnerConnection (pc_corp_id c) (pc_connection_epoch c) true (pc_tx c) (pc_capabilities c).
Definition enable_runner_dispatch (runner_id : string) (connection_epoch : uuid) (runners : connections) :
    bool * connections :=
  match runners !! runner_id with
  | Some connection =>
      if (pc_connection_epoch connection =? connection_epoch)%N
      then (true, <[runner_id := set_dispatch_ready connection]> runners)
      else (false, runners)
  | None => (false, runners)
  end.
Definition runner_epoch_is_ready (runner_id : string) (connection_epoch : uuid) (runners : connections) : bool :=
  match runners !! runner_id with
  | Some c => (pc_connection_epoch c =? connection_epoch)%N && pc_dispatch_ready c
  | None => false
  end.
Definition send_command_to_current_runner {Cmd} (runner_id : string) (connection_epoch : uuid) (command : Cmd)
    (pool : runner_pool Cmd) : bool * runner_pool Cmd :=
  match rp_runners pool !! runner_id with
  | Some c =>
      if (pc_connection_epoch c =? connection_epoch)%N && pc_dispatch_ready c then
        let sent := send (pc_tx c) command (rp_channels pool) in (sent.1, RunnerPool (rp_runners pool) sent.2)
      else (false, pool)
  | None => (false, pool)
  end.

(** ** What a runner can do *)
Definition is_none_or {A} (f : A → bool) (o : option A) : bool := match o with Some a => f a | None => true end.
Definition model_selectable (model_id : string) (m : runner_model) : bool :=
  seqb (rm_id m) model_id && negb (opt_eqb (rm_policy_state m) (Some "disabled")).
Definition model_supports (effort : string) (m : runner_model) : bool :=
  rm_supports_reasoning_effort m && mem effort (rm_supported_reasoning_efforts m).
Definition capability_satisfies_requirement (capability : runner_capability) (required_adapter : string)
    (required_model required_reasoning_effort : option string) : bool :=
  seqb (cap_name capability) required_adapter && cap_available capability
  && is_none_or (λ model_id,
       existsb (λ m, model_selectable model_id m
                     && is_none_or (λ effort, model_supports effort m) required_reasoning_effort)
         (cap_models capability)) required_model.
Definition runner_workspace_satisfies_requirement (capabilities : list runner_capability)
    (required_repository required_base_ref required_base_commit : option string) : bool :=
  match required_repository with
  | None => negb (is_some required_base_ref) && negb (is_some required_base_commit)
  | Some repository =>
      match required_base_ref, required_base_commit with
      | Some base_ref, Some base_commit =>
          existsb (λ c, seqb (cap_name c) "workspace-isolation" && cap_available c
            && from_option (λ r, eq_ignore_ascii_case r repository) false (cap_source_repository c)
            && opt_eqb (cap_source_base_ref c) (Some base_ref)
            && from_option (λ r, eq_ignore_ascii_case r base_commit) false (cap_source_base_commit c)) capabilities
      | _, _ => false
      end
  end.

Record runner_requirements := RunnerRequirements {
  rq_adapter : string; rq_model : option string; rq_reasoning_effort : option string;
  rq_source_repository : option string; rq_source_base_ref : option string; rq_source_base_commit : option string;
  rq_workspace_connection_id : option uuid }.
Definition scoped_capabilities (requirements : runner_requirements) (c : runner_connection) : list runner_capability :=
  List.filter (λ cap, bool_decide (cap_workspace_connection_id cap = rq_workspace_connection_id requirements))
    (pc_capabilities c).
Definition connection_satisfies (corp_id : uuid) (requirements : runner_requirements) (c : runner_connection) : bool :=
  pc_dispatch_ready c && (pc_corp_id c =? corp_id)%N
  && runner_workspace_satisfies_requirement (scoped_capabilities requirements c)
       (rq_source_repository requirements) (rq_source_base_ref requirements) (rq_source_base_commit requirements)
  && existsb (λ cap, capability_satisfies_requirement cap (rq_adapter requirements) (rq_model requirements)
                       (rq_reasoning_effort requirements)) (scoped_capabilities requirements c).
Definition runner_id_before (x y : string * uuid) : bool := str_leb x.1 y.1.
Definition select_ready_runner (corp_id : uuid) (requirements : runner_requirements) (runners : connections) :
    option (string * uuid) :=
  head (sort_by runner_id_before
    ((λ '(id, c), (id, pc_connection_epoch c)) <$>
       List.filter (λ '(_, c), connection_satisfies corp_id requirements c) (map_to_list runners))).

(** The order of the iteration over the map is that of [map_to_list]. *)
Definition runner_capabilities (corp_id : uuid) (runners : connections) : list runner_capability :=
  List.concat ((λ '(_, c), pc_capabilities c) <$>
    List.filter (λ '(_, c), (pc_corp_id c =? corp_id)%N) (map_to_list runners)).
Definition runner_requirement_mismatch (capabilities : list runner_capability) (required_adapter : string)
    (required_model required_reasoning_effort required_source_repository required_source_base_ref
     required_source_base_commit : option string) : string :=
  if is_some required_source_repository
     && negb (runner_workspace_satisfies_requirement capabilities required_source_repository
                required_source_base_ref required_source_base_commit)
  then "requires source repository " +:+ default "unknown" required_source_repository +:+ " at "
         +:+ default "unknown" required_source_base_ref +:+ " (" +:+ default "unknown" required_source_base_commit
         +:+ ") but no connected runner advertises that immutable checkout"
  else
    let adapter_capabilities := List.filter (λ c, seqb (cap_name c) required_adapter) capabilities in
    if vec_is_empty adapter_capabilities then
      "requires adapter " +:+ required_adapter +:+ ", which no connected runner advertises"
    else
      let available := List.filter cap_available adapter_capabilities in
      if vec_is_empty available then
        "requires adapter " +:+ required_adapter +:+ ", but that adapter is unavailable"
      else match required_model with
        | None => "requires adapter " +:+ required_adapter +:+ ", but no matching runner was selectable"
        | Some model_id =>
            let models := List.concat (cap_models <$> available) in
            let matching_models := List.filter (model_selectable model_id) models in
            if vec_is_empty matching_models then
              let advertised := rm_id <$> List.filter (λ m, negb (opt_eqb (rm_policy_state m) (Some "disabled"))) models in
              if vec_is_empty advertised then
                "requires model " +:+ model_id +:+ " on " +:+ required_adapter
                  +:+ ", but connected runners expose no selectable models for that adapter"
              else "requires model " +:+ model_id +:+ " on " +:+ required_adapter +:+ "; available models are "
                     +:+ join ", " advertised
            else match required_reasoning_effort with
              | Some effort =>
                  if negb (existsb (model_supports effort) matching_models) then
                    "requires reasoning effort " +:+ effort +:+ " for model " +:+ model_id +:+ " on "
                      +:+ required_adapter +:+ ", but connected runners do not support it"
                  else "requires " +:+ required_adapter +:+ "/" +:+ model_id +:+ ", but no matching runner was selectable"
              | None => "requires " +:+ required_adapter +:+ "/" +:+ model_id +:+ ", but no matching runner was selectable"
              end
        end.

(** ** The rotation over Corps and runners *)
Record ready_corp_schedule := ReadyCorpSchedule {
  rs_corp_id : uuid; rs_runner_id : string; rs_connection_epoch : uuid }.
Definition is_current (scope : ready_corp_schedule) (runners : connections) : bool :=
  match runners !! rs_runner_id scope with
  | Some c => (pc_corp_id c =? rs_corp_id scope)%N && (pc_connection_epoch c =? rs_connection_epoch scope)%N
              && pc_dispatch_ready c
  | None => false
  end.
Record corp_schedule_cursor := CorpScheduleCursor {
  cu_after_corp : option uuid; cu_after_runner : gmap uuid string }.
Definition new_cursor : corp_schedule_cursor := CorpScheduleCursor None ∅.

Definition scope_before (a b : ready_corp_schedule) : bool :=
  (rs_corp_id a <? rs_corp_id b)%N
  || (rs_corp_id a =? rs_corp_id b)%N && str_leb (rs_runner_id a) (rs_runner_id b).
Definition ready_scopes (runners : connections) : list ready_corp_schedule :=
  sort_by scope_before
    ((λ '(id, c), ReadyCorpSchedule (pc_corp_id c) id (pc_connection_epoch c)) <$>
       List.filter (λ '(_, c), pc_dispatch_ready c) (map_to_list runners)).

(** [slice::chunk_by], [slice::partition_point] on a partitioned slice, [slice::rotate_left] *)
Fixpoint chunk_by {A} (same : A → A → bool) (l : list A) : list (list A) :=
  match l with
  | [] => []
  | x :: rest =>
      match chunk_by same rest with
      | (y :: ys) :: chunks => if same x y then (x :: y :: ys) :: chunks else [x] :: (y :: ys) :: chunks
      | chunks => [x] :: chunks
      end
  end.
Fixpoint partition_point {A} (p : A → bool) (l : list A) : nat :=
  match l with [] => 0 | x :: rest => if p x then S (partition_point p rest) else 0 end.
Definition rotate_left {A} (k : nat) (l : list A) : list A := drop k l ++ take k l.

Definition same_corp (a b : ready_corp_schedule) : bool := (rs_corp_id a =? rs_corp_id b)%N.
(** The peer of a Corp whose turn it is; a chunk is not empty. *)
Definition next_peer (cursor : corp_schedule_cursor) (peers : list ready_corp_schedule) : option ready_corp_schedule :=
  first ← head peers;
  let next := match cu_after_runner cursor !! rs_corp_id first with
    | None => 0
    | Some last => Nat.modulo (partition_point (λ s, str_leb (rs_runner_id s) last) peers) (length peers)
    end in
  peers !! next.
(** The Corps of a tick in turn, at most one hundred. *)
Definition representatives (cursor : corp_schedule_cursor) (chunks : list (list ready_corp_schedule)) :
    list ready_corp_schedule :=
  let all := omap (next_peer cursor) chunks in
  let rotated := match cu_after_corp cursor with
    | Some after => rotate_left (partition_point (λ s, (rs_corp_id s <=? after)%N) all) all
    | None => all
    end in
  take 100 rotated.

Section rotation.
(** [reconcile] awaits, so it may change anything, the connections included. *)
Context {St : Type} (runners_of : St → connections).
Context (reconcile : ready_corp_schedule → St → result bool * St).

Fixpoint visit (multi : list uuid) (scopes : list ready_corp_schedule) (cursor : corp_schedule_cursor) (st : St) :
    list (uuid * string) * corp_schedule_cursor * St :=
  match scopes with
  | [] => ([], cursor, st)
  | scope :: rest =>
      let cursor := CorpScheduleCursor (cu_after_corp cursor)
        (<[rs_corp_id scope := rs_runner_id scope]> (cu_after_runner cursor)) in
      if negb (is_current scope (runners_of st)) then visit multi rest cursor st
      else
        let cursor := if existsb (N.eqb (rs_corp_id scope)) multi then cursor
          else CorpScheduleCursor (cu_after_corp cursor) (delete (rs_corp_id scope) (cu_after_runner cursor)) in
        let '(answer, st) := reconcile scope st in
        let '(failures, cursor, st) := visit multi rest cursor st in
        (match answer with Ok _ => failures | Err e => (rs_corp_id scope, e) :: failures end, cursor, st)
  end.
Definition reconcile_ready_corps (cursor : corp_schedule_cursor) (st : St) :
    list (uuid * string) * corp_schedule_cursor * St :=
  let chunks := chunk_by same_corp (ready_scopes (runners_of st)) in
  let ready_corps := omap (λ peers, rs_corp_id <$> head peers) chunks in
  let multi_runner_corps :=
    omap (λ peers, rs_corp_id <$> head peers) (List.filter (λ peers, 1 <? length peers) chunks) in
  let reps := representatives cursor chunks in
  let kept := filter (λ '(corp_id, _), corp_id ∈ ready_corps) (cu_after_runner cursor) in
  let after_corp := match last reps with Some s => Some (rs_corp_id s) | None => cu_after_corp cursor end in
  visit multi_runner_corps reps (CorpScheduleCursor after_corp kept) st.

(** The lifecycle task of the server: before each of its ticks, [others] happens. *)
Fixpoint lifecycle_ticks (others : list (St → St)) (cursor : corp_schedule_cursor) (st : St) :
    corp_schedule_cursor * St :=
  match others with
  | [] => (cursor, st)
  | other :: others =>
      let '(_, cursor, st) := reconcile_ready_corps cursor (other st) in lifecycle_ticks others cursor st
  end.
End rotation.

(** The futures are awaited only when they are reached. *)
Definition schedule_after_runner_commands {St} (runners_of : St → connections) (scope : ready_corp_schedule)
    (commands schedule : St → result unit * St) (st : St) : result bool * St :=
  if negb (is_current scope (runners_of st)) then (Ok false, st)
  else match commands st with
  | (Err e, st) => (Err e, st)
  | (Ok _, st) =>
      if negb (is_current scope (runners_of st)) then (Ok false, st)
      else match schedule st with
      | (Err e, st) => (Err e, st)
      | (Ok _, st) => (Ok true, st)
      end
  end.
