(* ===== verification/RunnerRotation.v ===== *)
(** * No runner starves

    The rotation of the server over Corps and runners is fair: a runner that stays
    ready is scheduled within a bounded number of ticks, whatever the others do
    ([ready_runners_are_scheduled]). *)
From S2P Require Import Prelude Text Planning FactoryPolicy RunnerPool.

(** ** Sorted lists *)
Lemma partition_point_split {A} p (l : list A) :
  Forall (λ x, p x = true) (take (partition_point p l) l) ∧
  (∀ x, head (drop (partition_point p l) l) = Some x → p x = false).
Proof.
  induction l as [|x l [IH1 IH2]]; simpl; [by split |]. destruct (p x) eqn:E; simpl; [by split; [constructor |] |].
  split; [constructor |]. by intros y [= <-].
Qed.
Lemma StronglySorted_app_intro {A} R (l1 l2 : list A) : StronglySorted R l1 → StronglySorted R l2 →
  (∀ x y, x ∈ l1 → y ∈ l2 → R x y) → StronglySorted R (l1 ++ l2).
Proof.
  intros H1 H2. induction H1 as [|x l1 H1 IH Hx]; simpl; [done |]. intros Hc. constructor; [set_solver |].
  apply Forall_app. split; [done |]. apply Forall_forall. set_solver.
Qed.
Lemma StronglySorted_weaken {A} (R S : A → A → Prop) l : StronglySorted R l →
  (∀ x y, x ∈ l → y ∈ l → R x y → S x y) → StronglySorted S l.
Proof.
  induction 1 as [|x l H IH Hx]; intros Hw; [constructor |]. constructor; [set_solver |].
  rewrite Forall_forall in *. set_solver.
Qed.
Lemma StronglySorted_app_inv {A} (R : A → A → Prop) (l1 l2 : list A) : StronglySorted R (l1 ++ l2) →
  StronglySorted R l1 ∧ StronglySorted R l2 ∧ ∀ x y, x ∈ l1 → y ∈ l2 → R x y.
Proof.
  induction l1 as [|x l1 IH]; simpl; [intros; split_and!; [constructor | done | set_solver] |].
  intros Hs. apply StronglySorted_inv in Hs as [Hs Hx]. destruct (IH Hs) as (? & ? & ?).
  rewrite Forall_app in Hx. destruct Hx as [Hx1 Hx2]. rewrite Forall_forall in Hx2.
  split_and!; [by constructor | done | set_solver].
Qed.

(** ** Going round a total order

    [rotated o l] lists [l] from the first element after [o] on; [ahead o c] are
    the elements a walk from [o] meets up to [c]. *)
Section cyclic.
Context {A : Type} `{EqDecision A} (le : A → A → bool).
Context (le_total : ∀ x y, le x y = true ∨ le y x = true).
Context (le_trans : ∀ x y z, le x y = true → le y z = true → le x z = true).
Context (le_antisym : ∀ x y, le x y = true → le y x = true → x = y).

Definition passed (o : option A) (x : A) : bool := match o with Some a => le x a | None => false end.
Definition rotated (o : option A) (l : list A) : list A := rotate_left (partition_point (passed o) l) l.
(** The order in which a walk from [o] meets the elements. *)
Definition meets (o : option A) (x y : A) : bool :=
  if passed o x then passed o y && le x y else passed o y || le x y.
Definition ahead (o : option A) (c : A) (u : list A) : list A := List.filter (λ x, meets o x c) u.

Lemma le_refl x : le x x = true.
Proof using le_total. by destruct (le_total x x). Qed.
Lemma meets_refl o x : meets o x x = true.
Proof using le_total. unfold meets. rewrite le_refl. by destruct (passed o x). Qed.
Lemma passed_down o x y : le x y = true → passed o y = true → passed o x = true.
Proof using le_trans. destruct o; simpl; [| done]. eauto. Qed.
Lemma meets_trans o x y z : meets o x y = true → meets o y z = true → meets o x z = true.
Proof using le_trans.
  unfold meets. pose proof (passed_down o x y) as P1. pose proof (passed_down o y z) as P2.
  destruct (passed o x), (passed o y), (passed o z); simpl; eauto; try done; intros H1 H2;
    try (apply P1 in H1); try (apply P2 in H2); naive_solver.
Qed.
Lemma meets_antisym o x y : meets o x y = true → meets o y x = true → x = y.
Proof using le_antisym. unfold meets. destruct (passed o x), (passed o y); simpl; auto; done. Qed.
(** From [a], whatever is met before [c] and was met after [a] from [o] is met from [o]. *)
Lemma meets_from o a c x : meets o a c = true → a ≠ c → meets (Some a) x c = true →
  meets o x c = true ∧ (meets o x a = true → False).
Proof using le_total le_trans le_antisym.
  intros Hac Hne Hx. unfold meets in Hx. simpl in Hx.
  pose proof (passed_down o x a) as P1. pose proof (passed_down o a x) as P2.
  pose proof (passed_down o x c) as P3. pose proof (passed_down o c x) as P4.
  pose proof (passed_down o a c) as P5. pose proof (passed_down o c a) as P6.
  pose proof (le_total x a) as T1. pose proof (le_total x c) as T2. pose proof (le_total a c) as T3.
  pose proof (le_trans x c a) as R1. pose proof (le_trans a x c) as R2. pose proof (le_trans x a c) as R3.
  pose proof (le_trans c x a) as R4. pose proof (le_trans a c x) as R5. pose proof (le_trans c a x) as R6.
  pose proof (le_antisym a c) as N1. pose proof (le_antisym x a) as N2. pose proof (le_antisym x c) as N3.
  unfold meets in *.
  destruct (passed o x), (passed o a), (passed o c), (le x a) eqn:?, (le a x) eqn:?, (le x c) eqn:?, (le c x) eqn:?,
    (le a c) eqn:?, (le c a) eqn:?; simpl in *; naive_solver.
Qed.

Notation sorted := (StronglySorted (λ x y, le x y = true)).
Lemma sorted_head_min l x y : sorted l → head l = Some x → y ∈ l → le x y = true.
Proof using le_total.
  intros Hs Hx Hy. destruct Hs as [|z l Hs Hz]; [done |]. injection Hx as ->.
  apply elem_of_cons in Hy as [-> | Hy]; [apply le_refl |]. rewrite Forall_forall in Hz. auto.
Qed.
Lemma rotated_perm o l : rotated o l ≡ₚ l.
Proof. unfold rotated, rotate_left. rewrite Permutation_app_comm. by rewrite take_drop. Qed.
Lemma rotated_sorted o l : sorted l → StronglySorted (λ x y, meets o x y = true) (rotated o l).
Proof using le_total le_trans le_antisym.
  intros Hs. unfold rotated, rotate_left. set (k := partition_point (passed o) l).
  destruct (partition_point_split (passed o) l) as [Ht Hd]. fold k in Ht, Hd. rewrite Forall_forall in Ht.
  pose proof Hs as Hs'. rewrite <-(take_drop k l) in Hs'.
  apply StronglySorted_app_inv in Hs' as (S1 & S2 & _).
  assert (∀ x, x ∈ drop k l → passed o x = false) as Hd'.
  { intros x Hx. destruct (drop k l) as [|y d] eqn:E; [set_solver |]. specialize (Hd y eq_refl).
    destruct (passed o x) eqn:Ex; [| done]. rewrite <-Hd. symmetry. eapply passed_down; [| exact Ex].
    by apply (sorted_head_min (y :: d)). }
  apply StronglySorted_app_intro.
  - eapply StronglySorted_weaken; [exact S2 |]. intros x y Hx Hy Hxy. unfold meets. rewrite (Hd' x), Hxy by done.
    apply orb_true_r.
  - eapply StronglySorted_weaken; [exact S1 |]. intros x y Hx Hy Hxy. unfold meets. rewrite (Ht x), (Ht y), Hxy by done.
    done.
  - intros x y Hx Hy. unfold meets. by rewrite (Hd' x), (Ht y).
Qed.

(** [n] steps of the walk meet [c] or bring it [n] elements closer. *)
Lemma rotation_progress o l c n u : sorted l → NoDup l → c ∈ l → NoDup u → (∀ x, x ∈ l → x ∈ u) → 0 < n →
  c ∈ take n (rotated o l) ∨
  ∃ a, last (take n (rotated o l)) = Some a ∧ length (ahead (Some a) c u) + n ≤ length (ahead o c u).
Proof using le_total le_trans le_antisym EqDecision0.
  intros Hs Hnd Hc Hu Hlu Hn. destruct (decide (c ∈ take n (rotated o l))) as [| Hout]; [by left | right].
  pose proof (rotated_perm o l) as Hp. pose proof (rotated_sorted o l Hs) as Hr.
  assert (NoDup (rotated o l)) as Hnd' by by rewrite Hp.
  assert (c ∈ rotated o l) as Hc' by by rewrite Hp. revert Hout Hp Hr Hnd' Hc'. generalize (rotated o l) as r.
  intros r Hout Hp Hr Hnd' Hc'. rewrite <-(take_drop n r) in Hr, Hnd', Hc'.
  apply elem_of_app in Hc' as [|Hc']; [done |].
  assert (length (take n r) = n) as Hlen.
  { rewrite length_take. apply Nat.min_l. destruct (decide (n ≤ length r)); [done |].
    rewrite drop_ge in Hc' by lia. set_solver. }
  apply StronglySorted_app_inv in Hr as (S1 & _ & S12). apply NoDup_app in Hnd' as (N1 & N12 & _).
  destruct (last (take n r)) as [a|] eqn:Ea; [| apply last_None in Ea; rewrite Ea in Hlen; simpl in Hlen; lia].
  exists a. split; [done |]. apply last_Some in Ea as [p Ep].
  assert (a ∈ take n r) as Ha by (rewrite Ep; set_solver).
  assert (∀ y, y ∈ take n r → meets o y a = true) as Hya.
  { intros y Hy. rewrite Ep in Hy, S1. apply StronglySorted_app_inv in S1 as (_ & _ & S1).
    apply elem_of_app in Hy as [Hy | Hy]; [apply S1; [done | set_solver] |].
    apply list_elem_of_singleton in Hy as ->. by apply meets_refl. }
  assert (meets o a c = true) as Hac by by apply S12.
  assert (a ≠ c) as Hne by (intros ->; by apply N12 in Ha).
  rewrite <-Hlen at 1. rewrite Nat.add_comm, <-length_app. apply submseteq_length, NoDup_submseteq.
  - apply NoDup_app. split; [done |]. split; [| by apply NoDup_ListNoDup, List.NoDup_filter, NoDup_ListNoDup].
    intros y Hy Hy'. apply list_elem_of_In, filter_In in Hy' as [_ Hy'].
    by apply (meets_from o a c y Hac Hne Hy'), Hya.
  - intros y Hy. apply list_elem_of_In, filter_In. rewrite <-list_elem_of_In.
    apply elem_of_app in Hy as [Hy | Hy].
    + split; [apply Hlu; rewrite <-Hp, <-(take_drop n r); set_solver |]. eapply meets_trans; [by apply Hya | done].
    + apply list_elem_of_In, filter_In in Hy as [Hy Hm]. rewrite <-list_elem_of_In in Hy. split; [done |].
      by apply (meets_from o a c y Hac Hne Hm).
Qed.
Lemma ahead_pos o c u : c ∈ u → 0 < length (ahead o c u).
Proof using le_total le_trans le_antisym.
  intros Hc. assert (c ∈ ahead o c u) as Hin.
  { apply list_elem_of_In, filter_In. rewrite <-list_elem_of_In. split; [done |]. by apply meets_refl. }
  destruct (ahead o c u); [set_solver | simpl; lia].
Qed.
Lemma ahead_length o c u : length (ahead o c u) ≤ length u.
Proof. apply List.filter_length_le. Qed.
End cyclic.

(** ** The scopes of a tick *)
Lemma N_leb_total x y : (x <=? y)%N = true ∨ (y <=? x)%N = true.
Proof. rewrite !N.leb_le. lia. Qed.
Lemma N_leb_trans x y z : (x <=? y)%N = true → (y <=? z)%N = true → (x <=? z)%N = true.
Proof. rewrite !N.leb_le. lia. Qed.
Lemma N_leb_antisym x y : (x <=? y)%N = true → (y <=? x)%N = true → x = y.
Proof. rewrite !N.leb_le. lia. Qed.

Lemma scope_before_spec a b : scope_before a b = true ↔
  (rs_corp_id a < rs_corp_id b)%N ∨ rs_corp_id a = rs_corp_id b ∧ str_leb (rs_runner_id a) (rs_runner_id b) = true.
Proof. unfold scope_before. rewrite orb_true_iff, andb_true_iff, N.ltb_lt, N.eqb_eq. done. Qed.
Lemma ready_scopes_sorted m : StronglySorted (λ a b, scope_before a b = true) (ready_scopes m).
Proof.
  apply sort_by_sorted.
  - intros a b. rewrite !scope_before_spec. destruct (str_leb_total (rs_runner_id a) (rs_runner_id b));
      destruct (N.lt_trichotomy (rs_corp_id a) (rs_corp_id b)) as [|[|]]; auto.
  - intros a b d. rewrite !scope_before_spec. intros [|[E1 L1]] [|[E2 L2]]; try (left; lia).
    right. split; [congruence |]. by eapply str_leb_trans.
Qed.
Definition scope_of (id : string) (c : runner_connection) : ready_corp_schedule :=
  ReadyCorpSchedule (pc_corp_id c) id (pc_connection_epoch c).
Lemma elem_of_ready_scopes m s : s ∈ ready_scopes m ↔
  ∃ c, m !! rs_runner_id s = Some c ∧ pc_dispatch_ready c = true ∧ s = scope_of (rs_runner_id s) c.
Proof.
  unfold ready_scopes. rewrite sort_by_perm, list_elem_of_fmap. split.
  - intros ([id c] & -> & Hin). apply list_elem_of_In, filter_In in Hin as [Hin Hr].
    rewrite <-list_elem_of_In, elem_of_map_to_list in Hin. exists c. by split_and!.
  - intros (c & Hc & Hr & Hs). exists (rs_runner_id s, c). split; [done |].
    apply list_elem_of_In, filter_In. split; [| done]. by apply list_elem_of_In, elem_of_map_to_list.
Qed.
Lemma ready_scopes_nodup m : NoDup (rs_runner_id <$> ready_scopes m).
Proof.
  unfold ready_scopes. rewrite sort_by_perm, <-list_fmap_compose.
  assert (∀ l : list (string * runner_connection), NoDup l.*1 →
    NoDup ((rs_runner_id ∘ (λ '(id, c), ReadyCorpSchedule (pc_corp_id c) id (pc_connection_epoch c))) <$>
      List.filter (λ '(_, c), pc_dispatch_ready c) l)) as H; [| apply H, NoDup_fst_map_to_list].
  induction l as [|[id c] l IH]; simpl; [done |]. intros [Hni Hnd]%NoDup_cons.
  destruct (pc_dispatch_ready c); simpl; [| auto]. apply NoDup_cons. split; [| auto].
  intros Hin. apply Hni. apply list_elem_of_fmap in Hin as ([id' c'] & -> & Hin).
  apply list_elem_of_In, filter_In in Hin as [Hin _]. apply list_elem_of_In in Hin.
  apply list_elem_of_fmap. by exists (id', c').
Qed.

(** The chunks of a sorted list: one per Corp, in increasing order. *)
Definition chunk_corps (chunks : list (list ready_corp_schedule)) : list uuid :=
  omap (λ peers, rs_corp_id <$> head peers) chunks.
Definition one_corp (peers : list ready_corp_schedule) : Prop :=
  ∃ x xs, peers = x :: xs ∧ ∀ y, y ∈ peers → rs_corp_id y = rs_corp_id x.
Lemma chunk_by_spec l : StronglySorted (λ a b, scope_before a b = true) l →
  List.concat (chunk_by same_corp l) = l ∧ Forall one_corp (chunk_by same_corp l) ∧
  StronglySorted N.lt (chunk_corps (chunk_by same_corp l)).
Proof.
  induction 1 as [|x l Hs IH Hx]; simpl; [split_and!; constructor |].
  destruct IH as (IH1 & IH2 & IH3). destruct (chunk_by same_corp l) as [|[|y ys] chunks] eqn:E.
  - simpl in IH1. subst l. split_and!; [done | | by repeat constructor]. constructor; [| done].
    exists x, []. split; [done |]. by intros y ->%list_elem_of_singleton.
  - apply Forall_cons in IH2 as [(? & ? & ? & _) _]. done.
  - apply Forall_cons in IH2 as [(y' & ys' & [= <- <-] & Hy) IH2].
    assert (scope_before x y = true) as Hxy by (rewrite Forall_forall in Hx; apply Hx; rewrite <-IH1; set_solver).
    apply scope_before_spec in Hxy. unfold same_corp. destruct (rs_corp_id x =? rs_corp_id y)%N eqn:Exy.
    + apply N.eqb_eq in Exy. simpl in *. split; [by f_equal |]. rewrite Exy in *. split; [| done]. constructor; [| done].
      exists x, (y :: ys). split; [done |]. intros z [-> | Hz]%elem_of_cons; [done |]. rewrite Exy. by apply Hy.
    + apply N.eqb_neq in Exy. simpl in *. split; [by f_equal |]. split.
      * constructor; [| constructor; [by exists y, ys | done]].
        exists x, []. split; [done |]. by intros z ->%list_elem_of_singleton.
      * assert (rs_corp_id x < rs_corp_id y)%N as Hlt by (destruct Hxy as [|[]]; [done | congruence]).
        constructor; [done |]. apply StronglySorted_inv in IH3 as [_ IH3]. constructor; [done |].
        eapply Forall_impl; [exact IH3 |]. simpl. lia.
Qed.

(** ** The turn inside a Corp, and the Corps of a tick *)
Abbreviation turns o l := (rotated str_leb o l).
Abbreviation rounds o l := (rotated N.leb o l).

Lemma partition_point_fmap {A B} (p : B → bool) (f : A → B) l :
  partition_point p (f <$> l) = partition_point (p ∘ f) l.
Proof. induction l as [|x l IH]; [done |]. cbn. unfold compose in *. destruct (p (f x)); [by f_equal | done]. Qed.
Lemma partition_point_none {A} (l : list A) : partition_point (λ _, false) l = 0.
Proof. by destruct l. Qed.
Lemma partition_point_le {A} (p : A → bool) l : partition_point p l ≤ length l.
Proof. induction l as [|x l IH]; simpl; [lia |]. destruct (p x); lia. Qed.
Lemma rotate_left_fmap {A B} (f : A → B) k l : f <$> rotate_left k l = rotate_left k (f <$> l).
Proof. unfold rotate_left. by rewrite fmap_app, fmap_drop, fmap_take. Qed.
Lemma rotated_none {A} (le : A → A → bool) l : rotated le None l = l.
Proof. unfold rotated, rotate_left, passed. rewrite partition_point_none. by rewrite drop_0, take_0, app_nil_r. Qed.

Lemma next_peer_spec cursor peers : one_corp peers → ∃ s, next_peer cursor peers = Some s ∧ s ∈ peers ∧
  head (turns (cu_after_runner cursor !! rs_corp_id s) (rs_runner_id <$> peers)) = Some (rs_runner_id s).
Proof.
  intros (x & xs & -> & Hc). unfold next_peer. cbn [head mbind option_bind].
  set (o := cu_after_runner cursor !! rs_corp_id x). set (l := x :: xs) in *.
  assert (∀ s, s ∈ l → cu_after_runner cursor !! rs_corp_id s = o) as Ho by (intros s Hs; unfold o; by rewrite (Hc s Hs)).
  assert (∃ k, match o with
      | Some last => Nat.modulo (partition_point (λ s, str_leb (rs_runner_id s) last) l) (length l) | None => 0 end = k ∧
    k < length l ∧ head (turns o (rs_runner_id <$> l)) = rs_runner_id <$> l !! k) as (k & -> & Hk & Hh).
  { destruct o as [last|]; [| exists 0; split; [done |]; split; [unfold l; simpl; lia |]; by rewrite rotated_none].
    unfold rotated. rewrite partition_point_fmap. cbn [passed]. unfold compose.
    set (k := partition_point _ l). pose proof (partition_point_le (λ s, str_leb (rs_runner_id s) last) l) as Hle. fold k in Hle.
    exists (k mod length l). split; [done |]. split; [apply Nat.mod_upper_bound; simpl; lia |].
    rewrite <-rotate_left_fmap. unfold rotate_left. destruct (decide (k = length l)) as [-> | Hne].
    - rewrite Nat.Div0.mod_same, drop_all, firstn_all. done.
    - rewrite Nat.mod_small by lia. destruct (l !! k) as [s|] eqn:E; [| apply lookup_ge_None in E; lia].
      by rewrite (drop_S _ _ _ E). }
  apply lookup_lt_is_Some in Hk as [s Hs]. exists s. rewrite Hs in Hh |- *. split; [done |].
  assert (s ∈ l) as Hin by (by eapply list_elem_of_lookup_2). split; [done |]. by rewrite (Ho s Hin).
Qed.

Lemma omap_next_peer cursor chunks : Forall one_corp chunks →
  rs_corp_id <$> omap (next_peer cursor) chunks = chunk_corps chunks.
Proof.
  induction 1 as [|ch chunks Hch _ IH]; [done |]. simpl.
  destruct (next_peer_spec cursor ch Hch) as (s & -> & Hs & _). destruct Hch as (x & xs & -> & Hc). simpl.
  f_equal; [by apply Hc | exact IH].
Qed.
Lemma representatives_corps cursor chunks : Forall one_corp chunks →
  rs_corp_id <$> representatives cursor chunks = take 100 (rounds (cu_after_corp cursor) (chunk_corps chunks)).
Proof.
  intros Hch. unfold representatives. rewrite <-(omap_next_peer cursor chunks Hch), fmap_take. f_equal.
  destruct (cu_after_corp cursor) as [after|]; [| by rewrite rotated_none].
  rewrite rotate_left_fmap. unfold rotated. by rewrite partition_point_fmap.
Qed.
Lemma elem_of_representatives cursor chunks s : s ∈ representatives cursor chunks →
  ∃ peers, peers ∈ chunks ∧ next_peer cursor peers = Some s.
Proof.
  unfold representatives. intros Hs. assert (s ∈ omap (next_peer cursor) chunks) as Hin.
  { match type of Hs with s ∈ take 100 ?l => assert (s ∈ l) as Hl
      by (rewrite <-(take_drop 100 l); apply elem_of_app; by left) end.
    destruct (cu_after_corp cursor); [| done]. unfold rotate_left in Hl.
    by rewrite Permutation_app_comm, take_drop in Hl. }
  by apply list_elem_of_omap in Hin.
Qed.

(** The peers of a Corp in its chunk. *)
Lemma chunk_of_corp m peers : peers ∈ chunk_by same_corp (ready_scopes m) →
  StronglySorted (λ x y, str_leb x y = true) (rs_runner_id <$> peers) ∧ NoDup (rs_runner_id <$> peers) ∧
  (∀ s, s ∈ peers → s ∈ ready_scopes m) ∧
  ∀ s s', s ∈ peers → s' ∈ ready_scopes m → rs_corp_id s' = rs_corp_id s → s' ∈ peers.
Proof.
  pose proof (ready_scopes_sorted m) as Hs. pose proof (ready_scopes_nodup m) as Hn.
  destruct (chunk_by_spec _ Hs) as (Hcat & Hone & Hlt). intros Hin.
  pose proof Hin as (before & after & Hsplit)%list_elem_of_split.
  rewrite Hsplit, concat_app in Hcat. simpl in Hcat. rewrite <-Hcat in Hs, Hn.
  rewrite fmap_app, fmap_app in Hn.
  apply NoDup_app in Hn as (_ & _ & Hn). apply NoDup_app in Hn as (Hn & _ & _).
  apply StronglySorted_app_inv in Hs as (_ & Hs & Hb). apply StronglySorted_app_inv in Hs as (Hs & _ & Ha).
  rewrite Forall_forall in Hone. destruct (Hone _ Hin) as (x & xs & -> & Hc).
  split.
  - clear -Hs Hc. assert (∀ l, StronglySorted (λ a b, scope_before a b = true) l →
      (∀ y, y ∈ l → rs_corp_id y = rs_corp_id x) → StronglySorted (λ x y, str_leb x y = true) (rs_runner_id <$> l)) as H.
    { induction 1 as [|y l Hl IH Hy]; intros Hcl; simpl; [constructor |].
      constructor; [apply IH; set_solver |]. apply Forall_fmap, Forall_forall. intros z Hz. simpl.
      rewrite Forall_forall in Hy. specialize (Hy z Hz). apply scope_before_spec in Hy as [Hy | [_ Hy]]; [| done].
      rewrite (Hcl y), (Hcl z) in Hy by set_solver. lia. }
    by apply H.
  - split; [done |]. split; [intros s Hsx; rewrite <-Hcat; set_solver |].
    intros s s' Hsx Hs' Hcorp. rewrite (Hc s Hsx) in Hcorp. rewrite <-Hcat in Hs'.
    rewrite Hsplit in Hlt. unfold chunk_corps in Hlt. rewrite omap_app in Hlt. simpl in Hlt.
    apply StronglySorted_app_inv in Hlt as (_ & Hlt2 & Hlt1). apply StronglySorted_inv in Hlt2 as [_ Hlt2].
    assert (∀ part, (∀ ch, ch ∈ part → ch ∈ chunk_by same_corp (ready_scopes m)) → s' ∈ List.concat part →
      rs_corp_id x ∈ omap (λ peers, rs_corp_id <$> head peers) part) as Hpart.
    { intros part Hsub Hin'. apply list_elem_of_In, in_concat in Hin' as (ch & Hch & Hin').
      apply list_elem_of_In in Hch, Hin'. apply list_elem_of_omap. exists ch. split; [done |].
      destruct (Hone ch (Hsub _ Hch)) as (y & ys & -> & Hcy). simpl. f_equal. rewrite <-Hcorp. symmetry. by apply Hcy. }
    apply elem_of_app in Hs' as [Hs' | Hs'].
    + exfalso. assert (rs_corp_id x < rs_corp_id x)%N; [| lia]. apply Hlt1; [| set_solver].
      apply Hpart; [| done]. intros ch Hch. rewrite Hsplit. set_solver.
    + apply elem_of_app in Hs' as [Hs' | Hs']; [done |]. exfalso.
      assert (rs_corp_id x < rs_corp_id x)%N; [| lia]. rewrite Forall_forall in Hlt2. apply Hlt2.
      apply Hpart; [| done]. intros ch Hch. rewrite Hsplit. set_solver.
Qed.

(** ** One tick *)
Section fair.
Context {St : Type} (runners_of : St → connections).
Context (reconcile : ready_corp_schedule → St → result bool * St).
(** The runner in question, and the moment of its scheduling, that nothing undoes. *)
Context (corp : uuid) (runner : string) (seen : St → Prop).
Context (reconcile_keeps : ∀ scope st, runners_of (reconcile scope st).2 !! runner = runners_of st !! runner).
Context (reconcile_seen : ∀ scope st, seen st → seen (reconcile scope st).2).
Context (reconciled_seen : ∀ scope st, rs_corp_id scope = corp → rs_runner_id scope = runner →
  is_current scope (runners_of st) = true → seen (reconcile scope st).2).

Notation turn_of cursor := (cu_after_runner cursor !! corp).
Definition runner_ready (m : connections) : Prop := ∃ conn, m !! runner = Some conn ∧
  pc_corp_id conn = corp ∧ pc_dispatch_ready conn = true.

Lemma visit_other multi scopes : ∀ cursor st fs cursor' st', corp ∉ (rs_corp_id <$> scopes) →
  visit runners_of reconcile multi scopes cursor st = (fs, cursor', st') →
  cu_after_corp cursor' = cu_after_corp cursor ∧ turn_of cursor' = turn_of cursor ∧ (seen st → seen st').
Proof using reconcile_seen.
  induction scopes as [|s scopes IH]; intros cursor st fs cursor' st' Hni; simpl; [by intros [= <- <- <-] |].
  rewrite fmap_cons, not_elem_of_cons in Hni. destruct Hni as [Hs Hni].
  destruct (is_current s (runners_of st)); simpl.
  - destruct (reconcile s st) as [answer st1] eqn:Er. destruct (visit _ _ _ _ _ st1) as [[fs1 cursor1] st2] eqn:Ev.
    intros [= _ <- <-]. apply IH in Ev as (E1 & E2 & E3); [| done].
    split_and!.
    + rewrite E1. by destruct (existsb _ _).
    + rewrite E2. destruct (existsb _ _); simpl; rewrite ?lookup_delete_ne, lookup_insert_ne; done.
    + intros Hseen. apply E3. specialize (reconcile_seen s st Hseen). by rewrite Er in reconcile_seen.
  - intros Ev. apply IH in Ev as (E1 & E2 & E3); [| done]. split_and!; [done | | done].
    rewrite E2. simpl. by rewrite lookup_insert_ne.
Qed.
Lemma visit_corp multi scopes s : ∀ cursor st fs cursor' st', NoDup (rs_corp_id <$> scopes) →
  s ∈ scopes → rs_corp_id s = corp → (rs_runner_id s ≠ runner → existsb (N.eqb corp) multi = true) →
  (rs_runner_id s = runner → is_current s (runners_of st) = true) →
  visit runners_of reconcile multi scopes cursor st = (fs, cursor', st') →
  cu_after_corp cursor' = cu_after_corp cursor ∧ (seen st → seen st') ∧
  (rs_runner_id s = runner → seen st') ∧ (rs_runner_id s ≠ runner → turn_of cursor' = Some (rs_runner_id s)).
Proof using reconcile_seen reconcile_keeps reconciled_seen.
  induction scopes as [|s1 scopes IH]; intros cursor st fs cursor' st' Hnd Hin Hc Hmulti Hcur; [set_solver |].
  rewrite fmap_cons, NoDup_cons in Hnd. destruct Hnd as [Hni Hnd].
  apply elem_of_cons in Hin as [<- | Hin]; simpl.
  - rewrite Hc in Hni. destruct (is_current s (runners_of st)) eqn:Ec; simpl.
    + destruct (reconcile s st) as [answer st1] eqn:Er. destruct (visit _ _ _ _ _ st1) as [[fs1 cursor1] st2] eqn:Ev.
      intros [= _ <- <-]. apply visit_other in Ev as (E1 & E2 & E3); [| done]. split_and!.
      * rewrite E1. by destruct (existsb (N.eqb (rs_corp_id s)) multi).
      * intros Hseen. apply E3. specialize (reconcile_seen s st Hseen). by rewrite Er in reconcile_seen.
      * intros Hr. apply E3. specialize (reconciled_seen s st Hc Hr Ec). by rewrite Er in reconciled_seen.
      * intros Hr. rewrite E2, Hc, Hmulti by done. simpl. by rewrite lookup_insert_eq.
    + intros Ev. apply visit_other in Ev as (E1 & E2 & E3); [| done]. split_and!; [done | done | |].
      * intros Hr. specialize (Hcur Hr). congruence.
      * intros _. rewrite E2. simpl. rewrite Hc. by rewrite lookup_insert_eq.
  - destruct (is_current s1 (runners_of st)) eqn:Ec; simpl.
    + destruct (reconcile s1 st) as [answer st1] eqn:Er. destruct (visit _ _ _ _ _ st1) as [[fs1 cursor1] st2] eqn:Ev.
      intros [= _ <- <-]. apply IH in Ev as (E1 & E2 & E3 & E4); try done.
      * split_and!; [by rewrite E1; destruct (existsb (N.eqb (rs_corp_id s1)) multi) | | done | done].
        intros Hseen. apply E2. specialize (reconcile_seen s1 st Hseen). by rewrite Er in reconcile_seen.
      * intros Hr. specialize (Hcur Hr). unfold is_current in *. rewrite Hr in *.
        specialize (reconcile_keeps s1 st). rewrite Er in reconcile_keeps. simpl in reconcile_keeps. by rewrite reconcile_keeps.
    + intros Ev. by apply IH in Ev as (E1 & E2 & E3 & E4).
Qed.

(** How long it still takes: turns inside the Corp, and ticks until its next visit. *)
Context (corps : list uuid) (peers : list string) (rounds_per_visit : nat).
Context (corps_nodup : NoDup corps) (peers_nodup : NoDup peers) (corps_fit : length corps ≤ 100 * rounds_per_visit).
Definition crowd (m : connections) : Prop := ∀ id conn, m !! id = Some conn → pc_dispatch_ready conn = true →
  pc_corp_id conn ∈ corps ∧ (pc_corp_id conn = corp → id ∈ peers).
Definition distance (cursor : corp_schedule_cursor) : nat :=
  (length (ahead str_leb (turn_of cursor) runner peers) - 1) * rounds_per_visit
  + (length (ahead N.leb (cu_after_corp cursor) corp corps) + 99) / 100.

Lemma distance_bound cursor : runner ∈ peers → corp ∈ corps →
  0 < distance cursor ≤ length peers * rounds_per_visit.
Proof using corps_fit.
  intros Hr Hc. unfold distance.
  pose proof (ahead_pos str_leb str_leb_total str_leb_trans str_leb_antisym (turn_of cursor) runner peers Hr) as P1.
  pose proof (ahead_pos N.leb N_leb_total N_leb_trans N_leb_antisym (cu_after_corp cursor) corp corps Hc) as P2.
  pose proof (ahead_length str_leb (turn_of cursor) runner peers) as L1.
  pose proof (ahead_length N.leb (cu_after_corp cursor) corp corps) as L2.
  set (a := length (ahead str_leb _ _ _)) in *. set (b := length (ahead N.leb _ _ _)) in *.
  assert (0 < (b + 99) / 100) by (apply Nat.div_str_pos; lia).
  assert ((b + 99) / 100 < S rounds_per_visit) by (apply Nat.Div0.div_lt_upper_bound; lia).
  revert H H0. generalize ((b + 99) / 100) as q. intros q Hq1 Hq2.
  split; [by apply Nat.add_pos_r |].
  pose proof (Nat.mul_le_mono_r (a - 1) (length peers - 1) rounds_per_visit ltac:(lia)) as Hm.
  replace (length peers * rounds_per_visit) with ((length peers - 1) * rounds_per_visit + rounds_per_visit); [lia |].
  destruct (length peers); [lia |]. simpl. rewrite Nat.sub_0_r. lia.
Qed.

Lemma distance_turn a a' b b' : 0 < a' → a' + 1 ≤ a → 0 < b → b' ≤ length corps →
  (a' - 1) * rounds_per_visit + (b' + 99) / 100 < (a - 1) * rounds_per_visit + (b + 99) / 100.
Proof using corps_fit.
  intros. assert (0 < (b + 99) / 100) as Hq by (apply Nat.div_str_pos; lia).
  assert ((b' + 99) / 100 < S rounds_per_visit) as Hq' by (apply Nat.Div0.div_lt_upper_bound; lia).
  revert Hq Hq'. generalize ((b + 99) / 100) as q, ((b' + 99) / 100) as q'. intros.
  pose proof (Nat.mul_le_mono_r (S (a' - 1)) (a - 1) rounds_per_visit ltac:(lia)) as Hm. simpl in Hm. lia.
Qed.
Lemma distance_round a b b' : b' + 100 ≤ b →
  (a - 1) * rounds_per_visit + (b' + 99) / 100 < (a - 1) * rounds_per_visit + (b + 99) / 100.
Proof.
  intros Hb. apply Nat.add_lt_mono_l. apply Nat.Div0.div_lt_upper_bound.
  pose proof (Nat.div_mod_eq (b + 99) 100). pose proof (Nat.mod_upper_bound (b + 99) 100 ltac:(lia)). lia.
Qed.

Lemma kept_turn m (chosen : list uuid) : corp ∈ chosen →
  filter (λ '(id, _), id ∈ chosen) m !! corp = (m : gmap uuid string) !! corp.
Proof.
  intros Hin. destruct (m !! corp) as [last|] eqn:E.
  - apply map_lookup_filter_Some. by split.
  - apply map_lookup_filter_None. by left.
Qed.

Abbreviation tick_chunks m := (chunk_by same_corp (ready_scopes m)).
Lemma tick_chunks_one m : Forall one_corp (tick_chunks m).
Proof. by apply chunk_by_spec, ready_scopes_sorted. Qed.
Lemma chunk_corps_sorted m :
  StronglySorted (λ x y, (x <=? y)%N = true) (chunk_corps (tick_chunks m)) ∧ NoDup (chunk_corps (tick_chunks m)).
Proof.
  destruct (chunk_by_spec _ (ready_scopes_sorted m)) as (_ & _ & Hlt).
  induction Hlt as [|x l Hl [IH1 IH2] Hx]; [split; constructor |]. rewrite Forall_forall in Hx. split.
  - constructor; [done |]. apply Forall_forall. intros y Hy. apply N.leb_le. specialize (Hx y Hy). lia.
  - constructor; [| done]. intros Hy. specialize (Hx x Hy). lia.
Qed.
Lemma elem_of_chunk_corps m x : x ∈ chunk_corps (tick_chunks m) ↔ ∃ s, s ∈ ready_scopes m ∧ rs_corp_id s = x.
Proof.
  destruct (chunk_by_spec _ (ready_scopes_sorted m)) as (Hcat & Hone & _). rewrite Forall_forall in Hone.
  unfold chunk_corps. rewrite list_elem_of_omap. split.
  - intros (ch & Hch & Hx). destruct (Hone ch Hch) as (s & xs & -> & _). injection Hx as <-. exists s. split; [| done].
    apply (chunk_of_corp m _ Hch). left.
  - intros (s & Hs & <-). rewrite <-Hcat in Hs. apply list_elem_of_In, in_concat in Hs as (ch & Hch & Hs).
    apply list_elem_of_In in Hch, Hs. exists ch. split; [done |]. destruct (Hone ch Hch) as (y & ys & -> & Hy).
    simpl. f_equal. symmetry. by apply Hy.
Qed.
Lemma ready_scope_unique m s s' : s ∈ ready_scopes m → s' ∈ ready_scopes m → rs_runner_id s = rs_runner_id s' → s = s'.
Proof.
  intros (c & Hc & _ & Hs)%elem_of_ready_scopes (c' & Hc' & _ & Hs')%elem_of_ready_scopes E.
  rewrite Hs, Hs', E. rewrite E in Hc. congruence.
Qed.

(** The Corps a tick visits, and its next cursor. *)
Lemma tick_round m cursor : runner_ready m → crowd m →
  let reps := representatives cursor (tick_chunks m) in
  NoDup (rs_corp_id <$> reps) ∧ ∃ final, last reps = Some final ∧
  (corp ∈ (rs_corp_id <$> reps) ∨
   length (ahead N.leb (Some (rs_corp_id final)) corp corps) + 100 ≤ length (ahead N.leb (cu_after_corp cursor) corp corps)).
Proof using corps_nodup corps_fit.
  intros (conn & Hconn & Hcc & Hrdy) Hcrowd reps. pose proof (representatives_corps cursor _ (tick_chunks_one m)) as Hreps.
  fold reps in Hreps. destruct (chunk_corps_sorted m) as [Hcs Hcn].
  assert (corp ∈ chunk_corps (tick_chunks m)) as Hin.
  { apply elem_of_chunk_corps. exists (scope_of runner conn). split; [| done].
    apply elem_of_ready_scopes. by exists conn. }
  assert (∀ x, x ∈ chunk_corps (tick_chunks m) → x ∈ corps) as Hcorps.
  { intros x (s & (c & Hc & Hr & ->)%elem_of_ready_scopes & <-)%elem_of_chunk_corps. by apply (Hcrowd _ _ Hc Hr). }
  split.
  { rewrite Hreps. pose proof (rotated_perm N.leb (cu_after_corp cursor) (chunk_corps (tick_chunks m))) as Hp.
    rewrite <-Hp, <-(take_drop 100) in Hcn. by apply NoDup_app in Hcn as [Hcn _]. }
  pose proof (rotation_progress N.leb N_leb_total N_leb_trans N_leb_antisym (cu_after_corp cursor) _
    corp 100 corps Hcs Hcn Hin corps_nodup Hcorps ltac:(lia)) as Hround. rewrite <-Hreps in Hround.
  destruct (last reps) as [final|] eqn:Efinal.
  - exists final. split; [done |]. destruct Hround as [Hround | (a & Ha & Hround)]; [by left | right].
    rewrite fmap_last, Efinal in Ha. injection Ha as <-. done.
  - apply last_None in Efinal. rewrite Efinal in Hround. destruct Hround as [Hround | (a & Ha & _)]; [| done].
    by apply elem_of_nil in Hround.
Qed.

(** The peer a visit of the Corp picks. *)
Definition multi_runner_corps (m : connections) : list uuid :=
  omap (λ peers, rs_corp_id <$> head peers) (List.filter (λ peers, 1 <? length peers) (tick_chunks m)).
Lemma tick_turn m cursor s : runner_ready m → crowd m →
  s ∈ representatives cursor (tick_chunks m) → rs_corp_id s = corp →
  (rs_runner_id s = runner → is_current s m = true) ∧
  (rs_runner_id s ≠ runner → corp ∈ multi_runner_corps m ∧
     length (ahead str_leb (Some (rs_runner_id s)) runner peers) + 1 ≤ length (ahead str_leb (turn_of cursor) runner peers)).
Proof using peers_nodup corps_fit.
  intros (conn & Hconn & Hcc & Hrdy) Hcrowd (mine & Hmine & Hnext)%elem_of_representatives Hs.
  pose proof (tick_chunks_one m) as Hone. rewrite Forall_forall in Hone. pose proof (Hone _ Hmine) as Hmine1.
  destruct (next_peer_spec cursor mine Hmine1) as (s' & Hs' & Hin & Hhead). rewrite Hnext in Hs'. injection Hs' as <-.
  rewrite Hs in Hhead. destruct (chunk_of_corp m mine Hmine) as (Hsorted & Hnodup & Hsub & Hfull).
  set (me := scope_of runner conn).
  assert (me ∈ ready_scopes m) as Hme by (apply elem_of_ready_scopes; by exists conn).
  assert (me ∈ mine) as Hmem by (apply (Hfull s); [done | done | by rewrite Hs]).
  assert (∀ x, x ∈ mine → rs_corp_id x = corp) as Hmc.
  { destruct Hmine1 as (x & xs & -> & Hx). intros y Hy. rewrite (Hx y Hy), <-(Hx s Hin). done. }
  split; intros Hr.
  - rewrite (ready_scope_unique m s me) by (done || auto). unfold is_current. simpl. rewrite Hconn, Hrdy.
    by rewrite !N.eqb_refl.
  - split.
    + unfold multi_runner_corps. apply list_elem_of_omap. exists mine. split.
      * apply list_elem_of_In, filter_In. rewrite <-list_elem_of_In. split; [done |].
        destruct mine as [|x [|y mine]]; [by apply elem_of_nil in Hin | | done].
        apply list_elem_of_singleton in Hin, Hmem. exfalso. apply Hr. rewrite Hin, <-Hmem. done.
      * destruct Hmine1 as (x & xs & -> & _). simpl. f_equal. apply Hmc. left.
    + assert (∀ x, x ∈ (rs_runner_id <$> mine) → x ∈ peers) as Hpeers.
      { intros x (y & -> & Hy)%list_elem_of_fmap.
        destruct (proj1 (elem_of_ready_scopes _ _) (Hsub y Hy)) as (c & Hc & Hrd & Hsc).
        apply (Hcrowd _ _ Hc Hrd). by rewrite <-(Hmc y Hy), Hsc. }
      destruct (rotation_progress str_leb str_leb_total str_leb_trans str_leb_antisym (turn_of cursor) _ runner 1 peers
        Hsorted Hnodup ltac:(apply list_elem_of_fmap; by exists me) peers_nodup Hpeers ltac:(lia)) as [Ht | (a & Ha & Hlt)];
        destruct (turns (turn_of cursor) (rs_runner_id <$> mine)) as [|b l]; simpl in *; try done;
        injection Hhead as ->.
      * by apply list_elem_of_singleton in Ht.
      * by injection Ha as <-.
Qed.

Lemma tick_progress cursor st fs cursor' st' : runner_ready (runners_of st) → crowd (runners_of st) →
  reconcile_ready_corps runners_of reconcile cursor st = (fs, cursor', st') →
  (seen st → seen st') ∧ (seen st' ∨ distance cursor' < distance cursor).
Proof using reconcile_seen reconcile_keeps reconciled_seen corps_nodup peers_nodup corps_fit.
  intros Hready Hcrowd. unfold reconcile_ready_corps. set (m := runners_of st) in *. fold (multi_runner_corps m).
  destruct (tick_round m cursor Hready Hcrowd) as (Hnd & final & Hfinal & Hround). rewrite Hfinal.
  set (reps := representatives cursor (tick_chunks m)) in *. set (kept := filter _ _).
  assert (kept !! corp = turn_of cursor) as Hkept.
  { apply kept_turn. apply elem_of_chunk_corps. destruct Hready as (conn & Hc & Hcc & Hr).
    exists (scope_of runner conn). split; [apply elem_of_ready_scopes; by exists conn | done]. }
  intros Hv. destruct (decide (corp ∈ (rs_corp_id <$> reps))) as [(s & Hs & Hin)%list_elem_of_fmap | Hout].
  - destruct (tick_turn m cursor s Hready Hcrowd Hin (eq_sym Hs)) as [Hcur Hturn].
    assert (rs_runner_id s ≠ runner → existsb (N.eqb corp) (multi_runner_corps m) = true) as Hmulti.
    { intros Hr. apply existsb_exists. exists corp. rewrite <-list_elem_of_In, N.eqb_refl. split; [| done]. by apply Hturn. }
    destruct (visit_corp _ _ s _ _ _ _ _ Hnd Hin (eq_sym Hs) Hmulti Hcur Hv) as (E1 & E2 & E3 & E4).
    split; [done |]. destruct (decide (rs_runner_id s = runner)) as [Hr | Hr]; [left; auto | right].
    destruct (Hturn Hr) as [_ Hd]. unfold distance. rewrite (E4 Hr).
    pose proof (ahead_length N.leb (cu_after_corp cursor') corp corps) as L.
    assert (corp ∈ corps) as Hc by (destruct Hready as (c & Hc & <- & Hrd); by apply (Hcrowd _ _ Hc Hrd)).
    pose proof (ahead_pos N.leb N_leb_total N_leb_trans N_leb_antisym (cu_after_corp cursor) corp corps Hc) as P.
    set (a := length (ahead str_leb (turn_of cursor) _ _)) in *. set (a' := length (ahead str_leb (Some _) _ _)) in *.
    assert (runner ∈ peers) as Hrp by (destruct Hready as (c & Hc' & Hcc & Hrd); by apply (Hcrowd _ _ Hc' Hrd)).
    pose proof (ahead_pos str_leb str_leb_total str_leb_trans str_leb_antisym (Some (rs_runner_id s)) runner peers Hrp) as P'.
    fold a' in P'. clearbody a a'. by apply (distance_turn a a').
  - destruct Hround as [|Hround]; [done |].
    apply visit_other in Hv as (E1 & E2 & E3); [| done]. split; [done | right].
    unfold distance. rewrite E1, E2. simpl. rewrite Hkept. by apply distance_round.
Qed.

Lemma visit_keeps (Q : St → Prop) multi scopes : (∀ scope st, Q st → Q (reconcile scope st).2) → ∀ cursor st,
  Q st → Q (visit runners_of reconcile multi scopes cursor st).2.
Proof.
  intros HQ. induction scopes as [|s scopes IH]; intros cursor st Hst; simpl; [done |].
  destruct (is_current s (runners_of st)); simpl; [| by apply IH].
  destruct (reconcile s st) as [answer st1] eqn:Er. specialize (HQ s st Hst). rewrite Er in HQ.
  match goal with |- context [visit _ _ multi scopes ?c st1] =>
    specialize (IH c st1 HQ); by destruct (visit runners_of reconcile multi scopes c st1) as [[fs c'] st2] end.
Qed.

(** The runner is ready and the crowd around it fits. *)
Definition fits (st : St) : Prop := runner_ready (runners_of st) ∧ crowd (runners_of st).
Context (reconcile_crowd : ∀ scope st, crowd (runners_of st) → crowd (runners_of (reconcile scope st).2)).

(** C12: no ready runner starves: take a runner that stays ready for its Corp while
    other runners connect, leave, change and fail as they like between the ticks and
    during them; if the Corps with ready runners are always among [100 * k] and the
    ready runners of its Corp among [p], then within [p * k] ticks of the lifecycle
    task the Corp is scheduled on that very runner. *)
Theorem ready_runners_are_scheduled others cursor st :
  (∀ other st, other ∈ others → fits st → fits (other st) ∧ (seen st → seen (other st))) →
  fits st → length peers * rounds_per_visit ≤ length others →
  seen (lifecycle_ticks runners_of reconcile others cursor st).2.
Proof using reconcile_seen reconcile_keeps reconciled_seen corps_nodup peers_nodup corps_fit reconcile_crowd.
  intros Hothers Hfits Hlen.
  assert (runner ∈ peers ∧ corp ∈ corps) as [Hp Hc].
  { destruct Hfits as [(c & Hc & Hcc & Hr) Hcrowd]. destruct (Hcrowd _ _ Hc Hr) as [H1 H2]. rewrite Hcc in *. auto. }
  destruct (distance_bound cursor Hp Hc) as [_ Hd]. assert (seen st ∨ distance cursor ≤ length others) as Hgoal by lia.
  clear Hlen Hd. revert cursor st Hfits Hgoal. induction others as [|other others IH]; intros cursor st Hfits Hgoal; simpl.
  { destruct (distance_bound cursor Hp Hc) as [Hd _]. destruct Hgoal; [done | simpl in *; lia]. }
  destruct (Hothers other st ltac:(left) Hfits) as [Hfits' Hseen].
  destruct (reconcile_ready_corps runners_of reconcile cursor (other st)) as [[fs cursor'] st'] eqn:Et.
  destruct Hfits' as [Hready Hcrowd]. destruct (tick_progress _ _ _ _ _ Hready Hcrowd Et) as [T1 T2].
  apply IH; [intros o s Ho; apply Hothers; by right | | destruct Hgoal; [by auto | destruct T2; [by left | right; simpl in *; lia]]].
  assert (st' = (reconcile_ready_corps runners_of reconcile cursor (other st)).2) as -> by by rewrite Et.
  split.
  - destruct Hready as (conn & Hconn & ?). exists conn. split; [| done].
    refine (visit_keeps (λ st, runners_of st !! runner = Some conn) _ _ _ _ _ Hconn). intros scope s Hs.
    by rewrite reconcile_keeps.
  - by refine (visit_keeps (λ st, crowd (runners_of st)) _ _ _ _ _ Hcrowd).
Qed.
End fair.

(** ** Two Corps, one of them with two runners *)
Section rotation_demo.
Definition demo_connection (corp epoch : uuid) : runner_connection := RunnerConnection corp epoch true epoch [].
Definition demo_connections : connections :=
  {["a" := demo_connection 1 100; "b" := demo_connection 1 101; "c" := demo_connection 2 102]}.
(** A server that only notes whom it scheduled. *)
Definition noting (scope : ready_corp_schedule) (st : connections * list ready_corp_schedule) :
    result bool * (connections * list ready_corp_schedule) := (Ok true, (st.1, scope :: st.2)).
Definition noted (corp : uuid) (runner : string) (st : connections * list ready_corp_schedule) : Prop :=
  existsb (λ s, (rs_corp_id s =? corp)%N && seqb (rs_runner_id s) runner) st.2 = true.

Lemma ready_runners_are_scheduled_witness :
  noted 1 "b" (lifecycle_ticks fst noting [id; id] new_cursor (demo_connections, [])).2.
Proof.
  refine (ready_runners_are_scheduled fst noting 1 "b" (noted 1 "b") _ _ _ [1%N; 2%N] ["a"; "b"] 1 _ _ _ _
    [id; id] new_cursor (demo_connections, []) _ _ _).
  - intros scope st. reflexivity.
  - intros scope st Hst. unfold noted. simpl. rewrite Hst. apply orb_true_r.
  - intros scope st Hc Hr _. unfold noted. simpl. rewrite Hc, Hr, seqb_refl. reflexivity.
  - apply (bool_decide_eq_true_1 (NoDup [1%N; 2%N])). reflexivity.
  - apply (bool_decide_eq_true_1 (NoDup ["a"; "b"])). reflexivity.
  - simpl. lia.
  - intros scope st Hst. exact Hst.
  - intros other st Hin Hst. assert (other = id) as -> by set_solver. split; [exact Hst | intros H; exact H].
  - split.
    + exists (demo_connection 1 101). split; [reflexivity | split; reflexivity].
    + intros id conn Hl _. unfold demo_connections in Hl. simpl in Hl.
      repeat (apply lookup_insert_Some in Hl as [[<- <-] | [_ Hl]]); simpl; [set_solver .. |].
      apply lookup_singleton_Some in Hl as [<- <-]. simpl. set_solver.
  - simpl. lia.
Defined.
End rotation_demo.

(** ** The choice of a runner *)

(** What a task may ask of a runner, read off its capabilities on the connection. *)
Definition offers (rq : runner_requirements) (cap : runner_capability) : Prop :=
  cap_name cap = rq_adapter rq ∧ cap_available cap = true ∧
  ∀ id, rq_model rq = Some id → ∃ m, m ∈ cap_models cap ∧ rm_id m = id ∧ rm_policy_state m ≠ Some "disabled" ∧
    ∀ effort, rq_reasoning_effort rq = Some effort →
      rm_supports_reasoning_effort m = true ∧ effort ∈ rm_supported_reasoning_efforts m.
Definition has_checkout (caps : list runner_capability) (repository base_ref base_commit : string) : Prop :=
  ∃ cap r c, cap ∈ caps ∧ cap_name cap = "workspace-isolation" ∧ cap_available cap = true ∧
    cap_source_repository cap = Some r ∧ to_ascii_lowercase r = to_ascii_lowercase repository ∧
    cap_source_base_ref cap = Some base_ref ∧
    cap_source_base_commit cap = Some c ∧ to_ascii_lowercase c = to_ascii_lowercase base_commit.
Definition serves (corp : uuid) (rq : runner_requirements) (c : runner_connection) : Prop :=
  pc_dispatch_ready c = true ∧ pc_corp_id c = corp ∧
  (∃ cap, cap ∈ pc_capabilities c ∧ cap_workspace_connection_id cap = rq_workspace_connection_id rq ∧ offers rq cap) ∧
  match rq_source_repository rq, rq_source_base_ref rq, rq_source_base_commit rq with
  | None, None, None => True
  | Some repository, Some base_ref, Some base_commit =>
      has_checkout (List.filter (λ cap, bool_decide (cap_workspace_connection_id cap = rq_workspace_connection_id rq))
        (pc_capabilities c)) repository base_ref base_commit
  | _, _, _ => False
  end.

Lemma satisfies_spec rq cap : 
  capability_satisfies_requirement cap (rq_adapter rq) (rq_model rq) (rq_reasoning_effort rq) = true ↔ offers rq cap.
Proof.
  unfold capability_satisfies_requirement, offers. rewrite !andb_true_iff, seqb_eq.
  destruct (rq_model rq) as [id|]; simpl; [| naive_solver].
  rewrite existsb_exists. setoid_rewrite <-list_elem_of_In. unfold model_selectable, model_supports.
  setoid_rewrite andb_true_iff. setoid_rewrite andb_true_iff. setoid_rewrite seqb_eq. setoid_rewrite negb_true_iff.
  destruct (rq_reasoning_effort rq) as [effort|]; simpl.
  - split.
    + intros [[Hn Ha] (m & Hm & [Hid Hp] & Hs)]. split; [done |]. split; [done |]. intros i [= <-].
      exists m. split; [done |]. split; [done |]. split; [intros E; by rewrite E in Hp |].
      intros e [= <-]. apply andb_true_iff in Hs as [? ?%mem_spec]. done.
    + intros (Hn & Ha & Hm). destruct (Hm id eq_refl) as (m & Hin & Hid & Hp & Hs). split; [done |]. exists m.
      split; [done |]. split; [split; [done |] |].
      * destruct (opt_eqb _ _) eqn:E; [by apply opt_eqb_eq in E | done].
      * apply andb_true_iff. destruct (Hs effort eq_refl). by rewrite mem_spec.
  - split.
    + intros [[Hn Ha] (m & Hm & [Hid Hp] & _)]. split; [done |]. split; [done |]. intros i [= <-].
      exists m. split; [done |]. split; [done |]. split; [intros E; by rewrite E in Hp | done].
    + intros (Hn & Ha & Hm). destruct (Hm id eq_refl) as (m & Hin & Hid & Hp & _). split; [done |]. exists m.
      split; [done |]. split; [split; [done |] | done].
      destruct (opt_eqb _ _) eqn:E; [by apply opt_eqb_eq in E | done].
Qed.
Lemma workspace_spec caps repository base_ref base_commit :
  runner_workspace_satisfies_requirement caps repository base_ref base_commit = true ↔
  match repository, base_ref, base_commit with
  | None, None, None => True
  | Some repository, Some base_ref, Some base_commit => has_checkout caps repository base_ref base_commit
  | _, _, _ => False
  end.
Proof.
  unfold runner_workspace_satisfies_requirement, has_checkout.
  destruct repository as [r|], base_ref as [b|], base_commit as [c|]; simpl; try done.
  rewrite existsb_exists. setoid_rewrite <-list_elem_of_In. split.
  - intros (cap & Hin & Hcap). rewrite !andb_true_iff, seqb_eq, opt_eqb_eq in Hcap.
    destruct Hcap as [[[[Hn Ha] Hr] Hb] Hc]. destruct (cap_source_repository cap) as [r'|] eqn:Er; [| done].
    destruct (cap_source_base_commit cap) as [c'|] eqn:Ec; [| done]. simpl in *. apply seqb_eq in Hr, Hc.
    by exists cap, r', c'.
  - intros (cap & r' & c' & Hin & Hn & Ha & Hr & Er & Hb & Hc & Ec). exists cap. split; [done |].
    rewrite Hn, Ha, Hr, Hb, Hc. simpl. unfold eq_ignore_ascii_case. rewrite Er, Ec, !seqb_refl.
    by rewrite (proj2 (opt_eqb_eq _ _) eq_refl).
Qed.
Lemma connection_satisfies_spec corp rq c : connection_satisfies corp rq c = true ↔ serves corp rq c.
Proof.
  unfold connection_satisfies, serves, scoped_capabilities.
  rewrite !andb_true_iff, N.eqb_eq, workspace_spec, existsb_exists.
  setoid_rewrite filter_In. setoid_rewrite bool_decide_eq_true. setoid_rewrite satisfies_spec.
  setoid_rewrite <-list_elem_of_In. naive_solver.
Qed.

Definition ready_candidates (corp : uuid) (rq : runner_requirements) (m : connections) : list (string * uuid) :=
  (λ '(id, c), (id, pc_connection_epoch c)) <$>
    List.filter (λ '(_, c), connection_satisfies corp rq c) (map_to_list m).
Lemma elem_of_ready_candidates corp rq m id epoch : (id, epoch) ∈ ready_candidates corp rq m ↔
  ∃ c, m !! id = Some c ∧ pc_connection_epoch c = epoch ∧ serves corp rq c.
Proof.
  unfold ready_candidates. rewrite list_elem_of_fmap. split.
  - intros ([i c] & [= -> ->] & Hin). apply list_elem_of_In, filter_In in Hin as [Hin Hc].
    rewrite <-list_elem_of_In, elem_of_map_to_list in Hin. exists c. by rewrite <-connection_satisfies_spec.
  - intros (c & Hc & <- & Hs). exists (id, c). split; [done |]. apply list_elem_of_In, filter_In.
    by rewrite <-list_elem_of_In, elem_of_map_to_list, connection_satisfies_spec.
Qed.
Lemma select_ready_runner_found corp rq m id epoch : select_ready_runner corp rq m = Some (id, epoch) →
  ∃ c, m !! id = Some c ∧ pc_connection_epoch c = epoch ∧ serves corp rq c.
Proof.
  intros Hs. apply elem_of_ready_candidates. rewrite <-(sort_by_perm runner_id_before).
  unfold select_ready_runner in Hs. unfold ready_candidates. destruct (sort_by _ _) as [|x l]; [done |].
  injection Hs as ->. left.
Qed.
Lemma select_ready_runner_none corp rq m id c : select_ready_runner corp rq m = None → m !! id = Some c →
  ¬ serves corp rq c.
Proof.
  intros Hs Hc Hserves. assert ((id, pc_connection_epoch c) ∈ ready_candidates corp rq m) as Hin
    by (apply elem_of_ready_candidates; eauto).
  rewrite <-(sort_by_perm runner_id_before) in Hin. unfold select_ready_runner in Hs. unfold ready_candidates in Hin.
  destruct (sort_by _ _); [by apply elem_of_nil in Hin | done].
Qed.

(** The choice of a runner is exact: for a task of a Corp the server picks the
    ready connection of that Corp with the least id among those whose capabilities, on
    the saved connection the task names, advertise the immutable checkout it needs and
    an available adapter with the selectable model and reasoning effort; and it picks
    none only when there is none. *)
Theorem selection_is_exact corp rq (m : connections) :
  match select_ready_runner corp rq m with
  | Some (id, epoch) => ∃ c, m !! id = Some c ∧ pc_connection_epoch c = epoch ∧ serves corp rq c ∧
      ∀ id' c', m !! id' = Some c' → serves corp rq c' → str_leb id id' = true
  | None => ∀ id c, m !! id = Some c → ¬ serves corp rq c
  end.
Proof.
  destruct (select_ready_runner corp rq m) as [[id epoch]|] eqn:E; [| intros id c; by apply select_ready_runner_none].
  destruct (select_ready_runner_found _ _ _ _ _ E) as (c & Hc & He & Hserves). exists c. split_and!; try done.
  intros id' c' Hc' Hserves'. assert ((id', pc_connection_epoch c') ∈ ready_candidates corp rq m) as Hin
    by (apply elem_of_ready_candidates; eauto).
  pose proof (sort_by_sorted runner_id_before (λ x y, str_leb_total x.1 y.1) (λ x y z, str_leb_trans x.1 y.1 z.1)
    (ready_candidates corp rq m)) as Hs.
  rewrite <-(sort_by_perm runner_id_before) in Hin. unfold select_ready_runner in E. unfold ready_candidates in Hs, Hin.
  destruct (sort_by _ _) as [|x rest]; [done |]. injection E as ->.
  apply elem_of_cons in Hin as [[= -> _] | Hin]; [by destruct (str_leb_total id id) |].
  apply StronglySorted_inv in Hs as [_ Hs]. rewrite Forall_forall in Hs. apply (Hs _ Hin).
Qed.
