(* ===== verification/Artifacts.v ===== *)
(** * Artifacts (crates/crony-server/src/artifacts.rs, crates/crony-domain/src/retained_provider_receipt.rs)

    What runs produce is kept in an object store under the hash of its content.
    An upload is checked and signed ([prepare_staging]), written to a staging key
    ([write_staged]), copied to its content address ([finalize_staged]), which is
    safe to repeat after a crash, and the staging object is dropped
    ([discard_staged]); a reader checks retention, signature, hash, size and
    media type ([read_verified]). *)
From S2P Require Import Prelude Text Json Domain Planning Deliverable DependencySource FactoryPolicy Store FactoryItems Breaker ExecTables Checkpoint RunFailure Polling GithubResponse Access.
From Stdlib Require Import Ascii.

(** ** Library code

    The crates hmac, hex and mime, and the reader of a native receipt. *)
Record copilot_receipt := CopilotReceipt {
  cr_provider : string; cr_sdk_version : string; cr_session_id : string; cr_model : string;
  cr_reasoning_effort : option string; cr_discovered_model_count : Z; cr_assistant_messages : Z;
  cr_tool_calls : Z; cr_changed_paths : list string; cr_diff_sha256 : option string }.
Class ObjectFormats := {
  hmac_sha256 : string → string → string;          (* key, message *)
  mac_to_hex : string → string;
  mac_of_hex : string → option string;
  mime_essence : string → option string;           (* Mime::from_str, essence_str *)
  json_to_vec : json → string;                     (* serde_json::to_vec *)
  parse_copilot_receipt : string → option copilot_receipt;
}.
(** Hexadecimal text reads back. *)
Class ObjectFormatsLaws (F : ObjectFormats) := mac_round_trip m : mac_of_hex (mac_to_hex m) = Some m.

(** ** Data *)
Record stored_artifact := StoredArtifact {
  sa_id : uuid; sa_corp_id : uuid; sa_task_id : uuid; sa_run_id : uuid; sa_producer_agent_id : uuid;
  sa_producer_runner_id : string; sa_verifier : string; sa_object_key : string; sa_uri : string; sa_sha256 : string;
  sa_media_type : string; sa_bytes : Z; sa_artifact_role : string; sa_file_name : string; sa_metadata : json;
  sa_provenance_signature : string; sa_retention_until : timestamp }.
Definition set_sa_signature (signature : string) (a : stored_artifact) : stored_artifact :=
  StoredArtifact (sa_id a) (sa_corp_id a) (sa_task_id a) (sa_run_id a) (sa_producer_agent_id a)
    (sa_producer_runner_id a) (sa_verifier a) (sa_object_key a) (sa_uri a) (sa_sha256 a) (sa_media_type a) (sa_bytes a)
    (sa_artifact_role a) (sa_file_name a) (sa_metadata a) signature (sa_retention_until a).
Record artifact_identity := ArtifactIdentity {
  ai_id : uuid; ai_corp_id : uuid; ai_task_id : uuid; ai_run_id : uuid; ai_agent_id : uuid; ai_runner_id : string }.
Record staged_artifact := StagedArtifact { st_artifact : stored_artifact; st_staging_key : string; st_bytes : string }.
(** The objects by key, and the configuration. *)
Record artifact_store := ArtifactStore {
  ao_objects : gmap string string; ao_signing_key : string; ao_max_bytes : Z }.
Definition on_objects (f : gmap string string → gmap string string) (s : artifact_store) : artifact_store :=
  ArtifactStore (f (ao_objects s)) (ao_signing_key s) (ao_max_bytes s).

Definition artifact_verifier : string := "crony-server:artifact-ingest-v1".

(** ** Retained receipts of a native adapter *)
Record receipt_grant := ReceiptGrant {
  rg_schema_version : Z; rg_collection_id : uuid; rg_corp_id : uuid; rg_task_id : uuid; rg_run_id : uuid;
  rg_workspace_run_id : uuid; rg_source_run_id : uuid; rg_checkpoint_run_id : uuid; rg_provider_session_id : string;
  rg_historical_run_id : uuid; rg_historical_termination_event_id : uuid; rg_historical_checkpoint_event_id : uuid;
  rg_source_checkpoint_event_id : uuid; rg_expected_workspace_fingerprint : string; rg_expected_head_commit : string;
  rg_historical_model : option string; rg_historical_reasoning_effort : option string }.
Definition retained_receipt_file : string := "copilot-evidence.json".
Definition max_receipt_bytes : Z := 16777216.
Definition bounded_text (value : string) (limit : Z) : bool :=
  negb (is_empty value) && (str_len value <=? limit)%Z && negb (any_char is_control value).
Definition hex_digest (value : string) (lengths : list Z) : bool :=
  existsb (Z.eqb (str_len value)) lengths
  && all_bytes (λ c, is_ascii_digit c || (97 <=? c)%Z && (c <=? 102)%Z) value.

Section receipts.
Context `{Serde} `{JsonReader} `{ObjectFormats}.

Definition grant_is_valid (g : receipt_grant) : bool :=
  (rg_schema_version g =? 1)%Z
  && negb (existsb is_nil
       [rg_collection_id g; rg_corp_id g; rg_task_id g; rg_run_id g; rg_workspace_run_id g; rg_source_run_id g;
        rg_checkpoint_run_id g; rg_historical_run_id g; rg_historical_termination_event_id g;
        rg_historical_checkpoint_event_id g; rg_source_checkpoint_event_id g])
  && negb (rg_run_id g =? rg_source_run_id g)%N && negb (rg_run_id g =? rg_checkpoint_run_id g)%N
  && negb (rg_run_id g =? rg_historical_run_id g)%N
  && from_option (λ id, negb (is_nil id)) false (uuid_parse_str (rg_provider_session_id g))
  && hex_digest (rg_expected_workspace_fingerprint g) [64%Z]
  && hex_digest (rg_expected_head_commit g) [40%Z; 64%Z]
  && from_option (λ v, bounded_text v 200) true (rg_historical_model g)
  && from_option (λ v, bounded_text v 80) true (rg_historical_reasoning_effort g).
Definition validate_grant (g : receipt_grant) : result unit :=
  bail_if (negb (grant_is_valid g)) "invalid retained-provider-receipt collection scope".

Definition receipt_fields : list string :=
  ["provider"; "sdk_version"; "session_id"; "model"; "reasoning_effort"; "discovered_model_count";
   "assistant_messages"; "tool_calls"; "changed_paths"; "diff_sha256"].
(** [path.split(\['/', '\\'\])] *)
Definition split_separators (path : string) : list string := split_on "/"%char (replace "\" "/" path).
Definition receipt_path_is_invalid (path : string) : bool :=
  negb (bounded_text path 4096) || starts_with "/" path || starts_with "\" path
  || bool_decide (String.get 1 path = Some ":"%char) || mem ".." (split_separators path).
Definition receipt_matches (g : receipt_grant) (r : copilot_receipt) : bool :=
  seqb (cr_provider r) "github-copilot" && seqb (cr_sdk_version r) "1.0.11"
  && seqb (cr_session_id r) (rg_provider_session_id g)
  && seqb (cr_model r) (default "copilot-default" (rg_historical_model g))
  && opt_eqb (cr_reasoning_effort r) (rg_historical_reasoning_effort g)
  && (vec_len (cr_changed_paths r) <=? 20000)%Z
  && negb (existsb receipt_path_is_invalid (cr_changed_paths r))
  && from_option (λ d, hex_digest d [64%Z]) true (cr_diff_sha256 r)
  && forallb (λ count, count <=? i64_max)%Z
       [cr_discovered_model_count r; cr_assistant_messages r; cr_tool_calls r].
Definition validate_retained_copilot_receipt (bytes : string) (g : receipt_grant) : result unit :=
  validate_grant g;;
  bail_if (is_empty bytes || (max_receipt_bytes <? str_len bytes)%Z)
    "retained native receipt exceeds its byte boundary";;
  value ← with_context (json_from_slice bytes) "retained native receipt is not valid JSON";
  bail_if (existsb (λ field, negb (is_some (get field value))) receipt_fields)
    "retained native receipt has an incomplete native format";;
  receipt ← with_context (parse_copilot_receipt bytes)
    "retained native receipt does not match the native adapter format";
  bail_if (negb (receipt_matches g receipt))
    "retained native receipt does not match its authorized historical context".

Definition grant_json (g : receipt_grant) : json :=
  json_object
    [("schema_version", JInt (rg_schema_version g)); ("collection_id", json_uuid (rg_collection_id g));
     ("corp_id", json_uuid (rg_corp_id g)); ("task_id", json_uuid (rg_task_id g)); ("run_id", json_uuid (rg_run_id g));
     ("workspace_run_id", json_uuid (rg_workspace_run_id g)); ("source_run_id", json_uuid (rg_source_run_id g));
     ("checkpoint_run_id", json_uuid (rg_checkpoint_run_id g));
     ("provider_session_id", JStr (rg_provider_session_id g));
     ("historical_run_id", json_uuid (rg_historical_run_id g));
     ("historical_termination_event_id", json_uuid (rg_historical_termination_event_id g));
     ("historical_checkpoint_event_id", json_uuid (rg_historical_checkpoint_event_id g));
     ("source_checkpoint_event_id", json_uuid (rg_source_checkpoint_event_id g));
     ("expected_workspace_fingerprint", JStr (rg_expected_workspace_fingerprint g));
     ("expected_head_commit", JStr (rg_expected_head_commit g));
     ("historical_model", json_opt_str (rg_historical_model g));
     ("historical_reasoning_effort", json_opt_str (rg_historical_reasoning_effort g))].
Definition retained_provider_receipt_metadata (g : receipt_grant) : json :=
  json_object
    [("workspace_relative_path", JStr retained_receipt_file);
     ("retained_provider_receipt", json_object
        [("kind", JStr "historical_copilot_receipt_v1"); ("grant", grant_json g);
         ("attestation", JStr "collected_now_from_current_sealed_workspace");
         ("receipt_generation", JStr "historical");
         ("original_server_artifact_acceptance_claimed", JBool false);
         ("historical_digest_attestation_claimed", JBool false);
         ("provider_completion_claimed", JBool false); ("provider_inference_started", JBool false)])].
End receipts.

Section artifacts.
Context `{Serde} `{Envelopes} `{JsonReader} `{ObjectFormats}.

(** ** Media types *)
Definition is_zip_container (media_type : string) : bool :=
  seqb media_type "application/epub+zip" || seqb media_type "application/java-archive"
  || starts_with "application/vnd.openxmlformats-officedocument." media_type
  || starts_with "application/vnd.oasis.opendocument." media_type.
Definition byte_string (l : list Z) : string := fold_right (λ b s, String (val_byte b) s) "" l.
(** [&bytes\[from..from + 4\] == text], with [bytes.len() >= 12] *)
Definition has_tag (from : nat) (tag bytes : string) : bool :=
  (12 <=? str_len bytes)%Z && seqb (String.substring from 4 bytes) tag.
Definition detect_binary_media_type (bytes : string) : option string :=
  if starts_with (byte_string [137; 80; 78; 71; 13; 10; 26; 10]%Z) bytes then Some "image/png"
  else if starts_with (byte_string [255; 216; 255]%Z) bytes then Some "image/jpeg"
  else if starts_with "GIF87a" bytes || starts_with "GIF89a" bytes then Some "image/gif"
  else if starts_with "%PDF-" bytes then Some "application/pdf"
  else if starts_with (byte_string [80; 75; 3; 4]%Z) bytes then Some "application/zip"
  else if starts_with (byte_string [31; 139]%Z) bytes then Some "application/gzip"
  else if starts_with "RIFF" bytes && has_tag 8 "WEBP" bytes then Some "image/webp"
  else if starts_with "RIFF" bytes && has_tag 8 "WAVE" bytes then Some "audio/wav"
  else if has_tag 4 "ftyp" bytes then Some "video/mp4"
  else None.
(** [text.trim_start().starts_with('<')] *)
Definition is_markup (text : string) : bool :=
  match drop_while is_whitespace (chars text) with c :: _ => (c =? 60)%Z | [] => false end.
Definition normalize_and_verify_media_type (declared bytes : string) : result string :=
  essence ← with_context (mime_essence declared) "artifact media type is invalid";
  let media_type := to_ascii_lowercase essence in
  (if seqb media_type "application/json" || ends_with "+json" media_type then
     bail_if (negb (is_some (json_from_slice bytes))) "artifact declared JSON but content is invalid"
   else if seqb media_type "image/svg+xml" then
     bail_if (negb (utf8 bytes)) "artifact declared SVG but content is not UTF-8";;
     bail_if (negb (contains "<svg" (to_ascii_lowercase bytes))) "artifact declared SVG but no svg element was found"
   else if seqb media_type "application/xml" || seqb media_type "text/xml" || ends_with "+xml" media_type then
     bail_if (negb (utf8 bytes)) "artifact declared XML but content is not UTF-8";;
     bail_if (negb (is_markup bytes)) "artifact declared XML but content is not markup"
   else if starts_with "text/" media_type then
     bail_if (negb (utf8 bytes)) "artifact declared text but content is not UTF-8"
   else if seqb media_type "application/octet-stream" then Ok tt
   else
     detected ← with_context (detect_binary_media_type bytes)
       ("artifact media type " +:+ media_type +:+ " cannot be verified from its content");
     bail_if (negb (seqb detected media_type) && negb (seqb detected "application/zip" && is_zip_container media_type))
       ("artifact media type mismatch: declared " +:+ media_type +:+ ", detected " +:+ detected));;
  Ok media_type.

(** ** Provenance *)

(** [timestamp_micros] *)
Definition micros (t : timestamp) : Z := (t / 1000)%Z.
Definition provenance_fields (a : stored_artifact) : list string :=
  [uuid_to_string (sa_id a); uuid_to_string (sa_corp_id a); uuid_to_string (sa_task_id a);
   uuid_to_string (sa_run_id a); uuid_to_string (sa_producer_agent_id a); sa_producer_runner_id a; sa_verifier a;
   sa_object_key a; sa_uri a; sa_sha256 a; sa_media_type a; show_int (sa_bytes a)].
Definition provenance_message (a : stored_artifact) : string :=
  if seqb (sa_artifact_role a) "provider_evidence" && seqb (sa_file_name a) "artifact.bin"
     && bool_decide (sa_metadata a = json_object [])
  then join "|" ("v1" :: provenance_fields a ++ [show_int (micros (sa_retention_until a))])
  else join "|" ("v2" :: provenance_fields a ++
         [sa_artifact_role a; sa_file_name a; sha256_hex (json_to_vec (sa_metadata a));
          show_int (micros (sa_retention_until a))]).
Definition sign (s : artifact_store) (a : stored_artifact) : string :=
  mac_to_hex (hmac_sha256 (ao_signing_key s) (provenance_message a)).
Definition verify_signature (s : artifact_store) (a : stored_artifact) : result unit :=
  signature ← with_context (mac_of_hex (sa_provenance_signature a)) "decode provenance signature";
  bail_if (negb (seqb (hmac_sha256 (ao_signing_key s) (provenance_message a)) signature))
    "artifact provenance signature is invalid".
Definition verify_artifact_bytes (a : stored_artifact) (bytes label : string) : result unit :=
  bail_if (negb (seqb (sha256_hex bytes) (sa_sha256 a)) || negb (str_len bytes =? sa_bytes a)%Z)
    (label +:+ " failed integrity verification");;
  match normalize_and_verify_media_type (sa_media_type a) bytes with
  | Err e => Err (label +:+ " media validation failed: " +:+ e)
  | Ok verified => bail_if (negb (seqb verified (sa_media_type a))) (label +:+ " media type changed")
  end.

(** ** Staging *)
Definition valid_hex (value : string) (minimum maximum : Z) : bool :=
  in_range minimum maximum (str_len value) && all_chars is_ascii_hexdigit value.
Definition required_artifact_text (name : string) (payload : json) : result string :=
  with_context (get name payload ≫= as_str) ("source deliverable omitted " +:+ name).
Definition source_deliverable_metadata (payload : json) : result json :=
  form ← required_artifact_text "form" payload;
  bail_if (negb (mem form ["commit_branch"; "patch"; "archive"; "typed_artifact_set"; "review_only_report"]))
    "source deliverable form is invalid";;
  verification_sha256 ← required_artifact_text "verification_sha256" payload;
  base_commit ← required_artifact_text "base_commit" payload;
  let head_commit := get "head_commit" payload ≫= as_str in
  branch ← required_artifact_text "branch" payload;
  integration_state ← required_artifact_text "integration_state" payload;
  let git_bundle_sha256 := get "git_bundle_sha256" payload ≫= as_str in
  let publication_ready := default false (get "publication_ready" payload ≫= as_bool) in
  bail_if (negb (valid_hex verification_sha256 64 64) || negb (valid_hex base_commit 40 64)
           || from_option (λ v, negb (valid_hex v 40 64)) false head_commit
           || is_empty branch || (512 <? str_len branch)%Z
           || negb (mem integration_state ["not_applicable"; "ready_for_review"; "published"; "integrated"]))
    "source deliverable metadata is invalid";;
  (if seqb form "commit_branch" then
     bail_if (negb (is_some head_commit) || from_option (λ v, negb (valid_hex v 64 64)) true git_bundle_sha256
              || negb publication_ready)
       "commit/branch deliverable omitted its portable publication bundle"
   else
     bail_if (is_some git_bundle_sha256 || publication_ready)
       "only commit/branch deliverables may be publication-ready");;
  Ok (json_object
    [("form", JStr form); ("verification_sha256", JStr verification_sha256); ("base_commit", JStr base_commit);
     ("head_commit", json_opt_str head_commit); ("branch", JStr branch);
     ("integration_state", JStr integration_state); ("git_bundle_sha256", json_opt_str git_bundle_sha256);
     ("publication_ready", JBool publication_ready)]).
Definition valid_artifact_file_name (file_name : string) : bool :=
  negb (is_empty file_name) && (str_len file_name <=? 255)%Z
  && negb (any_char (λ c, one_of ("/\" +:+ quote) c) file_name) && negb (any_char is_control file_name).

(** [self.max_bytes.saturating_add(2) / 3 * 4 + 4]; the limit is the operator's. *)
Definition maximum_encoded (max_bytes : Z) : Z := (Z.min (max_bytes + 2) u64_max / 3 * 4 + 4)%Z.
(** The bytes of an upload, checked against what it declares. *)
Definition uploaded_bytes (max_bytes : Z) (payload : json) : result (string * string) :=
  declared_bytes ← with_context (get "bytes" payload ≫= as_u64) "artifact upload omitted bytes";
  bail_if ((declared_bytes =? 0)%Z || (max_bytes <? declared_bytes)%Z)
    ("artifact size " +:+ show_int declared_bytes +:+ " is outside the allowed range 1..=" +:+ show_int max_bytes);;
  encoded ← with_context (get "content_base64" payload ≫= as_str) "artifact upload omitted content";
  bail_if (maximum_encoded max_bytes <? str_len encoded)%Z "encoded artifact exceeds the configured byte limit";;
  bytes ← with_context (base64_decode encoded) "artifact content is not valid base64";
  bail_if (negb (str_len bytes =? declared_bytes)%Z)
    ("artifact byte mismatch: declared " +:+ show_int declared_bytes +:+ ", received " +:+ show_int (str_len bytes));;
  declared ← with_context (get "sha256" payload ≫= as_str) "artifact upload omitted sha256";
  let declared_sha := to_ascii_lowercase declared in
  bail_if (negb (valid_hex declared_sha 64 64)) "artifact sha256 is invalid";;
  let actual_sha := sha256_hex bytes in
  bail_if (negb (seqb actual_sha declared_sha))
    ("artifact digest mismatch: declared " +:+ declared_sha +:+ ", received " +:+ actual_sha);;
  Ok (bytes, actual_sha).

Definition receipt_upload_mismatches (identity : artifact_identity) (payload : json) (g : receipt_grant)
    (artifact_role file_name media_type : string) : bool :=
  let metadata := retained_provider_receipt_metadata g in
  negb (ai_corp_id identity =? rg_corp_id g)%N || negb (ai_task_id identity =? rg_task_id g)%N
  || negb (ai_run_id identity =? rg_run_id g)%N || negb (seqb artifact_role "provider_evidence")
  || negb (opt_eqb (get "artifact_role" payload ≫= as_str) (Some "provider_evidence"))
  || negb (seqb file_name retained_receipt_file) || negb (seqb media_type "application/json")
  || negb (bool_decide (get "workspace_relative_path" payload = get "workspace_relative_path" metadata))
  || negb (bool_decide (get "retained_provider_receipt" payload = get "retained_provider_receipt" metadata)).
Definition upload_metadata (identity : artifact_identity) (payload : json) (retained : option receipt_grant)
    (artifact_role file_name media_type bytes : string) : result json :=
  match retained with
  | Some g =>
      validate_retained_copilot_receipt bytes g;;
      bail_if (receipt_upload_mismatches identity payload g artifact_role file_name media_type)
        "retained provider receipt upload does not match its authorized collection";;
      Ok (retained_provider_receipt_metadata g)
  | None =>
      if seqb artifact_role "source_deliverable" then source_deliverable_metadata payload
      else match get "workspace_relative_path" payload ≫= as_str with
        | Some path =>
            bail_if (negb (repository_relative_path_is_valid path))
              "provider artifact workspace-relative path is invalid";;
            Ok (json_object [("workspace_relative_path", JStr path)])
        | None => Ok (json_object [])
        end
  end.

Definition content_key (corp_id : uuid) (sha : string) : string :=
  "corps/" +:+ uuid_to_string corp_id +:+ "/sha256/" +:+ String.substring 0 2 sha +:+ "/" +:+ sha.
Definition staging_key_of (identity : artifact_identity) : string :=
  "staging/corps/" +:+ uuid_to_string (ai_corp_id identity) +:+ "/" +:+ uuid_to_string (ai_id identity).
Definition prepare_staging_with_receipt (s : artifact_store) (identity : artifact_identity) (payload : json)
    (retention_until : timestamp) (retained : option receipt_grant) : result staged_artifact :=
  bail_if (is_some (get "retained_provider_receipt" payload) && negb (is_some retained))
    "retained provider receipt requires current collection authority";;
  content ← uploaded_bytes (ao_max_bytes s) payload;
  let '(bytes, actual_sha) := content in
  declared ← with_context (get "media_type" payload ≫= as_str) "artifact upload omitted media_type";
  media_type ← normalize_and_verify_media_type declared bytes;
  let artifact_role := default "provider_evidence" (get "artifact_role" payload ≫= as_str) in
  bail_if (negb (mem artifact_role ["provider_evidence"; "source_deliverable"])) "artifact role is invalid";;
  let file_name := default "artifact.bin" (get "file_name" payload ≫= as_str) in
  bail_if (negb (valid_artifact_file_name file_name)) "artifact file name is invalid";;
  metadata ← upload_metadata identity payload retained artifact_role file_name media_type bytes;
  bail_if (i64_max <? str_len bytes)%Z "artifact size exceeds i64";;
  let artifact := StoredArtifact (ai_id identity) (ai_corp_id identity) (ai_task_id identity) (ai_run_id identity)
    (ai_agent_id identity) (ai_runner_id identity) artifact_verifier (content_key (ai_corp_id identity) actual_sha)
    ("/api/corps/" +:+ uuid_to_string (ai_corp_id identity) +:+ "/artifacts/" +:+ uuid_to_string (ai_id identity))
    actual_sha media_type (str_len bytes) artifact_role file_name metadata "" retention_until in
  Ok (StagedArtifact (set_sa_signature (sign s artifact) artifact) (staging_key_of identity) bytes).
Definition prepare_staging (s : artifact_store) (identity : artifact_identity) (payload : json)
    (retention_until : timestamp) : result staged_artifact :=
  prepare_staging_with_receipt s identity payload retention_until None.
Definition prepare_retained_provider_receipt_staging (s : artifact_store) (identity : artifact_identity) (payload : json)
    (retention_until : timestamp) (g : receipt_grant) : result staged_artifact :=
  prepare_staging_with_receipt s identity payload retention_until (Some g).

(** ** The object store

    Each access can fail; [fault] is the error of the access that does. *)
Record object_faults := ObjectFaults {
  of_get : option string; of_get_final : option string; of_put : option string; of_delete : option string }.
Definition no_faults : object_faults := ObjectFaults None None None None.
Definition fails_with (fault : option string) : txn artifact_store unit :=
  lift (match fault with Some e => Err e | None => Ok tt end).
Definition put_object (fault : option string) (key bytes : string) : txn artifact_store unit :=
  fails_with fault;; modify (on_objects <[key := bytes]>).
Definition get_object (fault : option string) (key : string) : txn artifact_store (option string) :=
  fails_with fault;; gets (λ s, ao_objects s !! key).

Definition write_staged (faults : object_faults) (staged : staged_artifact) : txn artifact_store unit :=
  lift (verify_artifact_bytes (st_artifact staged) (st_bytes staged) "prepared artifact");;
  put_object (of_put faults) (st_staging_key staged) (st_bytes staged).
Definition finalize_staged (faults : object_faults) (a : stored_artifact) (staging_key : string) :
    txn artifact_store unit :=
  store ← gets id;
  lift (match verify_signature store a with
        | Err e => Err ("artifact provenance metadata is invalid: " +:+ e) | Ok u => Ok u end);;
  staged ← get_object (of_get faults) staging_key;
  match staged with
  | None =>
      final ← get_object (of_get_final faults) (sa_object_key a);
      bytes ← lift (with_context final "staged and final artifact objects are both unavailable");
      lift (verify_artifact_bytes a bytes "final artifact")
  | Some bytes =>
      lift (verify_artifact_bytes a bytes "staged artifact");;
      put_object (of_put faults) (sa_object_key a) bytes
  end.
Definition discard_staged (faults : object_faults) (staging_key : string) : txn artifact_store unit :=
  fails_with (of_delete faults);; modify (on_objects (delete staging_key)).
Definition is_staging_key (key : string) : bool :=
  match split_on "/"%char key with
  | [a; b; c; d] => seqb a "staging" && seqb b "corps" && is_some (uuid_parse_str c) && is_some (uuid_parse_str d)
  | _ => false
  end.
Definition staged_keys (s : artifact_store) : list string :=
  sort_by str_leb (List.filter is_staging_key
    (List.filter (starts_with "staging/") ((map_to_list (ao_objects s)).*1))).

Definition read_verified (now : timestamp) (faults : object_faults) (a : stored_artifact) :
    txn artifact_store string :=
  lift (bail_if (sa_retention_until a <=? now)%Z "artifact retention period has expired");;
  store ← gets id;
  lift (verify_signature store a);;
  object ← get_object (of_get faults) (sa_object_key a);
  bytes ← lift (with_context object "read artifact object");
  lift (verify_artifact_bytes a bytes "stored artifact");;
  mret bytes.
(** A ranged read asks for one byte more than the artifact has. *)
Definition collect_bounded_artifact_bytes (object : string) (expected_bytes : Z) : result string :=
  bail_if (negb (str_len object =? expected_bytes)%Z) "stored artifact failed integrity verification";;
  Ok object.
Definition read_verified_bounded (now later : timestamp) (faults : object_faults) (a : stored_artifact)
    (max_bytes : Z) : txn artifact_store string :=
  lift (bail_if (sa_retention_until a <=? now)%Z "artifact retention period has expired");;
  store ← gets id;
  lift (verify_signature store a);;
  lift (bail_if (sa_bytes a <? 0)%Z "artifact byte count is out of range");;
  lift (bail_if ((sa_bytes a =? 0)%Z || (max_bytes <? sa_bytes a)%Z)
    ("artifact size " +:+ show_int (sa_bytes a) +:+ " is outside the bounded range 1..=" +:+ show_int max_bytes));;
  object ← get_object (of_get faults) (sa_object_key a);
  content ← lift (with_context object "read bounded artifact object");
  bytes ← lift (collect_bounded_artifact_bytes content (sa_bytes a));
  lift (bail_if (sa_retention_until a <=? later)%Z "artifact retention period has expired");;
  lift (verify_artifact_bytes a bytes "stored artifact");;
  mret bytes.

(** ** What happens to the store *)
Inductive artifact_request :=
| Stage (faults : object_faults) (staged : staged_artifact)
| Finalize (faults : object_faults) (a : stored_artifact) (staging_key : string)
| Discard (faults : object_faults) (staging_key : string).
Definition artifact_handle (r : artifact_request) (s : artifact_store) : artifact_store :=
  match r with
  | Stage faults staged => (run_txn (write_staged faults staged) s).2
  | Finalize faults a key => (run_txn (finalize_staged faults a key) s).2
  | Discard faults key => (run_txn (discard_staged faults key) s).2
  end.
End artifacts.
