(* ===== verification/ArtifactSafety.v ===== *)
(** * What holds of artifacts

    An upload that was staged is finalised however often the server fails on the
    way ([uploads_survive_crashes]); what was finalised reads back as it was
    uploaded until it expires, whatever else is uploaded ([artifacts_read_back]). *)
From S2P Require Import Prelude Text Json Domain Planning Deliverable DependencySource FactoryPolicy Store FactoryItems Breaker ExecTables Checkpoint RunFailure Polling GithubResponse Access Artifacts.
From Stdlib Require Import Ascii.

Section artifacts.
Context `{Serde} `{Envelopes} `{JsonReader} `{ObjectFormats}.

(** What [prepare_staging] or its variant for receipts made on a store with this configuration. *)
Definition prepared (s : artifact_store) (staged : staged_artifact) : Prop :=
  ∃ identity payload retention_until retained,
    prepare_staging_with_receipt s identity payload retention_until retained = Ok staged.
(** The requests the server makes: of prepared uploads only. *)
Definition served (s : artifact_store) (r : artifact_request) : Prop :=
  match r with
  | Stage _ staged => prepared s staged
  | Finalize _ a key => ∃ staged, prepared s staged ∧ a = st_artifact staged ∧ key = st_staging_key staged
  | Discard _ key => ∃ staged, prepared s staged ∧ key = st_staging_key staged
  end.
Definition serve (s : artifact_store) (rs : list artifact_request) : artifact_store :=
  foldl (λ s r, artifact_handle r s) s rs.

Lemma prepared_spec s staged : prepared s staged → ∃ identity,
  st_staging_key staged = staging_key_of identity ∧
  sa_object_key (st_artifact staged) = content_key (ai_corp_id identity) (sa_sha256 (st_artifact staged)) ∧
  sa_sha256 (st_artifact staged) = sha256_hex (st_bytes staged) ∧
  sa_bytes (st_artifact staged) = str_len (st_bytes staged) ∧
  (∀ `{!ObjectFormatsLaws _}, verify_signature s (st_artifact staged) = Ok tt).
Proof.
  intros (identity & payload & retention & retained & Hp). exists identity. unfold prepare_staging_with_receipt in Hp.
  apply bind_ok in Hp as (u0 & _ & Hp). apply bind_ok in Hp as ([bytes sha] & Hb & Hp).
  apply bind_ok in Hp as (declared & _ & Hp). apply bind_ok in Hp as (media & _ & Hp).
  apply bind_ok in Hp as (u1 & _ & Hp). apply bind_ok in Hp as (u2 & _ & Hp).
  apply bind_ok in Hp as (metadata & _ & Hp). apply bind_ok in Hp as (u3 & _ & [= <-]).
  assert (sha = sha256_hex bytes) as ->.
  { unfold uploaded_bytes in Hb. repeat (apply bind_ok in Hb as (? & _ & Hb)). by injection Hb as -> <-. }
  split_and!; try done. intros HL. unfold verify_signature, sign. simpl. rewrite mac_round_trip. simpl.
  unfold bail_if. unfold provenance_message. simpl. by rewrite seqb_refl.
Qed.

(** ** Keys *)
Lemma app_tail_inj a b x y : String.length x = String.length y → a +:+ x = b +:+ y → x = y.
Proof.
  intros Hl. revert b. induction a as [|c a IH]; intros [|d b] E; simpl in *; try done.
  - rewrite E in Hl. simpl in Hl. rewrite str_length_app in Hl. lia.
  - rewrite <-E in Hl. simpl in Hl. rewrite str_length_app in Hl. lia.
  - injection E as _ E. by eapply IH.
Qed.
Lemma keys_differ corp sha identity : content_key corp sha ≠ staging_key_of identity.
Proof. by intros [= E]. Qed.
Lemma content_key_inj corp corp' x y : String.length x = String.length y →
  content_key corp x = content_key corp' y → x = y.
Proof.
  intros Hl. unfold content_key. rewrite <-!str_app_assoc. by apply app_tail_inj.
Qed.
Lemma sha_length `{!EnvelopeLaws} b : String.length (sha256_hex b) = 64%nat.
Proof.
  pose proof (sha256_hex_valid b) as Hv. unfold valid_digest in Hv. apply andb_true_iff in Hv as [Hv _].
  unfold str_len in Hv. lia.
Qed.

(** ** What a request does to the objects *)
Lemma verified_bytes a bytes label : verify_artifact_bytes a bytes label = Ok tt → sha256_hex bytes = sa_sha256 a.
Proof.
  unfold verify_artifact_bytes. rewrite bind_ok. intros (u & Hc & _). unfold bail_if in Hc.
  destruct (seqb (sha256_hex bytes) (sa_sha256 a)) eqn:E; [by apply seqb_eq in E | done].
Qed.
Lemma verified_label a bytes label label' : verify_artifact_bytes a bytes label = Ok tt →
  verify_artifact_bytes a bytes label' = Ok tt.
Proof.
  unfold verify_artifact_bytes. rewrite !bind_ok. intros (u & Hc & Hm). exists u. unfold bail_if in *.
  split; [by destruct (_ || _) |]. destruct (normalize_and_verify_media_type _ _) as [v|]; [| done]. by destruct (seqb v (sa_media_type a)).
Qed.
Lemma put_object_ok fault key bytes s u s' : put_object fault key bytes s = Ok (u, s') ↔
  fault = None ∧ s' = on_objects <[key := bytes]> s.
Proof.
  unfold put_object, fails_with. rewrite txn_bind_ok. split.
  - intros (v & s1 & [Hf ->]%lift_ok & ->%modify_ok). by destruct fault.
  - intros [-> ->]. exists tt, s. by destruct u.
Qed.
Lemma get_object_ok fault key s o s' : get_object fault key s = Ok (o, s') ↔
  fault = None ∧ o = ao_objects s !! key ∧ s' = s.
Proof.
  unfold get_object, fails_with. rewrite txn_bind_ok. split.
  - intros (v & s1 & [Hf ->]%lift_ok & [-> ->]%gets_ok). by destruct fault.
  - intros (-> & -> & ->). by exists tt, s.
Qed.
Lemma write_staged_ok faults staged s u s' : write_staged faults staged s = Ok (u, s') →
  verify_artifact_bytes (st_artifact staged) (st_bytes staged) "prepared artifact" = Ok tt ∧
  s' = on_objects <[st_staging_key staged := st_bytes staged]> s.
Proof.
  unfold write_staged. rewrite txn_bind_ok. intros ([] & s1 & [Hv ->]%lift_ok & [_ ->]%put_object_ok). done.
Qed.
(** A finalisation leaves verified bytes at the content address. *)
Lemma finalize_staged_ok faults a key s u s' : finalize_staged faults a key s = Ok (u, s') →
  verify_signature s a = Ok tt ∧ ∃ bytes, verify_artifact_bytes a bytes "stored artifact" = Ok tt ∧
  (s' = on_objects <[sa_object_key a := bytes]> s ∨ s' = s ∧ ao_objects s !! sa_object_key a = Some bytes).
Proof.
  unfold finalize_staged. rewrite txn_bind_ok. intros (store & s1 & [-> ->]%gets_ok & Hx).
  apply txn_bind_ok in Hx as ([] & s1 & [Hsig ->]%lift_ok & Hx). simpl in Hsig.
  apply txn_bind_ok in Hx as (o & s1 & (_ & -> & ->)%get_object_ok & Hx).
  split; [by destruct (verify_signature s a) as [[]|] |].
  destruct (ao_objects s !! key) as [bytes|].
  - apply txn_bind_ok in Hx as ([] & s1 & [Hv ->]%lift_ok & [_ ->]%put_object_ok).
    exists bytes. split; [by eapply verified_label | by left].
  - apply txn_bind_ok in Hx as (o & s1 & (_ & -> & ->)%get_object_ok & Hx).
    apply txn_bind_ok in Hx as (bytes & s1 & [Hb%with_context_ok ->]%lift_ok & Hx). apply lift_ok in Hx as [Hv ->].
    destruct u. exists bytes. split; [by eapply verified_label | by right].
Qed.
Lemma discard_staged_ok faults key s u s' : discard_staged faults key s = Ok (u, s') → s' = on_objects (delete key) s.
Proof.
  unfold discard_staged. rewrite txn_bind_ok. intros (v & s1 & Hf & ->%modify_ok). unfold fails_with in Hf.
  destruct (of_delete faults); apply lift_ok in Hf as [? ->]; done.
Qed.

Definition same_config (s s' : artifact_store) : Prop :=
  ao_signing_key s' = ao_signing_key s ∧ ao_max_bytes s' = ao_max_bytes s.
Lemma handle_config r s : same_config s (artifact_handle r s).
Proof.
  destruct r; simpl; unfold run_txn.
  - destruct (write_staged faults staged s) as [[u s']|] eqn:E; [| done]. by apply write_staged_ok in E as [_ ->].
  - destruct (finalize_staged faults a staging_key s) as [[u s']|] eqn:E; [| done].
    by apply finalize_staged_ok in E as (_ & bytes & _ & [-> | [-> _]]).
  - destruct (discard_staged faults staging_key s) as [[u s']|] eqn:E; [| done]. by apply discard_staged_ok in E as ->.
Qed.
Lemma prepared_config s s' staged : same_config s s' → prepared s staged → prepared s' staged.
Proof.
  intros [Hk Hm] (identity & payload & retention & retained & Hp). exists identity, payload, retention, retained.
  unfold prepare_staging_with_receipt in *. rewrite Hm. unfold sign in *. by rewrite Hk.
Qed.
Lemma served_config s s' r : same_config s s' → served s r → served s' r.
Proof.
  intros Hc. destruct r; simpl; [by apply prepared_config | |].
  - intros (staged & Hp & ?). exists staged. split; [by eapply prepared_config | done].
  - intros (staged & Hp & ?). exists staged. split; [by eapply prepared_config | done].
Qed.
Lemma verify_signature_config s s' a : same_config s s' → verify_signature s' a = verify_signature s a.
Proof. intros [Hk _]. unfold verify_signature. by rewrite Hk. Qed.

Section one_upload.
Context `{!EnvelopeLaws} (staged : staged_artifact).
Notation a := (st_artifact staged).
Context (no_collision : ∀ b, sha256_hex b = sha256_hex (st_bytes staged) → b = st_bytes staged).

(** The bytes are at their content address. *)
Definition final_there (s : artifact_store) : Prop := ao_objects s !! sa_object_key a = Some (st_bytes staged).
Lemma verified_is_upload s b label : prepared s staged → verify_artifact_bytes a b label = Ok tt → b = st_bytes staged.
Proof using no_collision.
  intros (identity & _ & _ & Hsha & _)%prepared_spec Hv%verified_bytes. apply no_collision. congruence.
Qed.
Lemma final_stays s r : prepared s staged → served s r → final_there s → final_there (artifact_handle r s).
Proof using All.
  intros Hp Hr Hf. pose proof Hp as (me & _ & Hkey & Hsha & _)%prepared_spec. unfold final_there in *.
  destruct r as [faults other | faults af key | faults key]; simpl in *; unfold run_txn.
  - destruct (write_staged faults other s) as [[u s']|] eqn:E; [| done]. apply write_staged_ok in E as [_ ->]. simpl.
    apply prepared_spec in Hr as (id & -> & _). rewrite lookup_insert_ne; [done |]. rewrite Hkey.
    intros E. by apply eq_sym, keys_differ in E.
  - destruct (finalize_staged faults af key s) as [[u s']|] eqn:E; [| done].
    apply finalize_staged_ok in E as (_ & b & Hv & [-> | [-> _]]); [simpl | done].
    destruct Hr as (staged' & Hp' & -> & _). apply prepared_spec in Hp' as (id & _ & Hkey' & Hsha' & _).
    destruct (decide (sa_object_key (st_artifact staged') = sa_object_key a)) as [Ek | Ek].
    + rewrite Ek, lookup_insert_eq. f_equal. apply no_collision. apply verified_bytes in Hv. rewrite Hv, <-Hsha.
      rewrite Hkey, Hkey' in Ek. eapply content_key_inj; [| exact Ek]. by rewrite Hsha, Hsha', !sha_length.
    + by rewrite lookup_insert_ne.
  - destruct (discard_staged faults key s) as [[u s']|] eqn:E; [| done].
    apply discard_staged_ok in E as ->. simpl. destruct Hr as (staged' & Hp' & ->).
    apply prepared_spec in Hp' as (id & -> & _). rewrite lookup_delete_ne; [done |]. rewrite Hkey.
    intros E. by apply eq_sym, keys_differ in E.
Qed.
Lemma serve_stays s rs : prepared s staged → Forall (served s) rs → final_there s →
  final_there (serve s rs) ∧ same_config s (serve s rs).
Proof using All.
  revert s. induction rs as [|r rs IH]; intros s Hp Hrs Hf; [done |].
  apply Forall_cons in Hrs as [Hr Hrs]. pose proof (handle_config r s) as Hc.
  destruct (IH (artifact_handle r s)) as [Hf' Hc'].
  - by eapply prepared_config.
  - eapply Forall_impl; [exact Hrs |]. intros x. by apply served_config.
  - by apply final_stays.
  - split; [done |]. unfold same_config in *. simpl. destruct Hc, Hc'. split; congruence.
Qed.
Lemma finalized_there faults s u s' : prepared s staged →
  finalize_staged faults a (st_staging_key staged) s = Ok (u, s') →
  final_there s' ∧ same_config s s' ∧ verify_signature s a = Ok tt ∧
  verify_artifact_bytes a (st_bytes staged) "stored artifact" = Ok tt.
Proof using no_collision.
  intros Hp (Hsig & b & Hv & Hs)%finalize_staged_ok. pose proof (verified_is_upload _ _ _ Hp Hv) as ->.
  unfold final_there. destruct Hs as [-> | [-> Hs]]; split_and!; try done. simpl. by rewrite lookup_insert_eq.
Qed.
End one_upload.

Lemma reads_verified now a bytes s : (now < sa_retention_until a)%Z → verify_signature s a = Ok tt →
  ao_objects s !! sa_object_key a = Some bytes → verify_artifact_bytes a bytes "stored artifact" = Ok tt →
  read_verified now no_faults a s = Ok (bytes, s).
Proof.
  intros Hnow Hsig Hb Hv. unfold read_verified. rewrite (proj2 (Z.leb_gt _ _) Hnow).
  rewrite txn_bind_ok. exists tt, s. split; [done |]. rewrite txn_bind_ok. exists s, s. split; [done |].
  rewrite txn_bind_ok. exists tt, s. rewrite Hsig. split; [done |].
  rewrite txn_bind_ok. exists (Some bytes), s. split; [by apply get_object_ok |].
  rewrite txn_bind_ok. exists bytes, s. split; [done |].
  rewrite txn_bind_ok. exists tt, s. by rewrite Hv.
Qed.

(** What was finalised reads back: once the finalisation of a prepared upload has
    succeeded, then whatever uploads are staged, finalised, retried and discarded
    afterwards, with failing storage accesses in between, a reader gets exactly the
    uploaded bytes until the artifact's retention ends (no other content with the same
    SHA-256 being known). *)
Theorem artifacts_read_back `{!EnvelopeLaws} staged faults s u s' rs now :
  prepared s staged → (∀ b, sha256_hex b = sha256_hex (st_bytes staged) → b = st_bytes staged) →
  finalize_staged faults (st_artifact staged) (st_staging_key staged) s = Ok (u, s') →
  Forall (served s') rs → (now < sa_retention_until (st_artifact staged))%Z →
  read_verified now no_faults (st_artifact staged) (serve s' rs) = Ok (st_bytes staged, serve s' rs).
Proof.
  intros Hp Hnc Hfin Hrs Hnow. destruct (finalized_there staged Hnc _ _ _ _ Hp Hfin) as (Hf & Hc & Hsig & Hv).
  destruct (serve_stays staged Hnc s' rs (prepared_config _ _ _ Hc Hp) Hrs Hf) as [Hf' Hc'].
  apply reads_verified; [done | | done | done].
  by rewrite (verify_signature_config s' (serve s' rs)), (verify_signature_config s s').
Qed.

(** ** Crashes *)

(** Nobody discards the staging object before a finalisation has succeeded. *)
Definition discarded_late (staged : staged_artifact) (s : artifact_store) (rs : list artifact_request) : Prop :=
  ∀ before faults after, rs = before ++ Discard faults (st_staging_key staged) :: after →
  ∃ b1 f b2, before = b1 ++ Finalize f (st_artifact staged) (st_staging_key staged) :: b2 ∧
    is_ok (finalize_staged f (st_artifact staged) (st_staging_key staged) (serve s b1)) = true.
(** The staging object is there, or its copy is. *)
Definition recoverable (staged : staged_artifact) (s : artifact_store) : Prop :=
  ao_objects s !! st_staging_key staged = Some (st_bytes staged) ∨
  ao_objects s !! st_staging_key staged = None ∧ final_there staged s.

Lemma recoverable_step `{!EnvelopeLaws} staged s r :
  (∀ b, sha256_hex b = sha256_hex (st_bytes staged) → b = st_bytes staged) → prepared s staged → served s r →
  (∀ f other, r = Stage f other → st_staging_key other = st_staging_key staged → other = staged) →
  (∀ f, r = Discard f (st_staging_key staged) → final_there staged s) →
  recoverable staged s → recoverable staged (artifact_handle r s).
Proof.
  intros Hnc Hp Hr Hstage Hdiscard Hrec. pose proof (final_stays staged Hnc s r Hp Hr) as Hstays.
  assert (∀ x, (ao_objects (artifact_handle r s) !! st_staging_key staged = ao_objects s !! st_staging_key staged) = x →
    x → recoverable staged (artifact_handle r s)) as Hsame.
  { intros x <- E. unfold recoverable in *. rewrite E. destruct Hrec as [|[? ?]]; [by left | right; auto]. }
  destruct r as [faults other | faults af key | faults key]; simpl in *; unfold run_txn in *.
  - destruct (write_staged faults other s) as [[u s']|] eqn:E; [| done]. apply write_staged_ok in E as [_ ->]. simpl in *.
    destruct (decide (st_staging_key other = st_staging_key staged)) as [Ek | Ek].
    + rewrite (Hstage _ _ eq_refl Ek) in *. left. simpl. by rewrite lookup_insert_eq.
    + eapply Hsame; [done |]. by rewrite lookup_insert_ne.
  - destruct (finalize_staged faults af key s) as [[u s']|] eqn:E; [| done].
    apply finalize_staged_ok in E as (_ & b & _ & [-> | [-> _]]); [| done]. simpl in *. eapply Hsame; [done |].
    destruct Hr as (staged' & (id & _ & Hk & _)%prepared_spec & -> & _). pose proof Hp as (me & Hme & _)%prepared_spec.
    rewrite Hk, Hme. rewrite lookup_insert_ne; [done |]. apply keys_differ.
  - destruct (discard_staged faults key s) as [[u s']|] eqn:E; [| done]. apply discard_staged_ok in E as ->. simpl in *.
    destruct (decide (key = st_staging_key staged)) as [-> | Ek].
    + right. simpl. rewrite lookup_delete_eq. split; [done |]. apply Hstays. by eapply Hdiscard.
    + eapply Hsame; [done |]. by rewrite lookup_delete_ne.
Qed.

Lemma recoverable_finalizes `{!EnvelopeLaws, !ObjectFormatsLaws _} staged s : prepared s staged →
  verify_artifact_bytes (st_artifact staged) (st_bytes staged) "prepared artifact" = Ok tt → recoverable staged s →
  is_ok (finalize_staged no_faults (st_artifact staged) (st_staging_key staged) s) = true.
Proof.
  intros Hp Hv Hrec. pose proof Hp as (me & _ & _ & _ & _ & Hsig)%prepared_spec. specialize (Hsig _).
  destruct (finalize_staged _ _ _ s) as [|e] eqn:E; [done |]. exfalso. revert E.
  unfold finalize_staged, mbind, txn_bind, gets, lift, get_object, put_object, fails_with. simpl. rewrite Hsig. simpl.
  unfold mbind, txn_bind, gets, lift, modify. simpl. destruct Hrec as [-> | [-> Hf]].
  - by rewrite (verified_label _ _ _ "staged artifact" Hv).
  - rewrite Hf. simpl. by rewrite (verified_label _ _ _ "final artifact" Hv).
Qed.

Lemma serve_config s rs : same_config s (serve s rs).
Proof.
  unfold serve. induction rs as [|r rs IH] using rev_ind; [done |]. rewrite foldl_snoc.
  pose proof (handle_config r (foldl (λ s r, artifact_handle r s) s rs)). unfold same_config in *.
  destruct IH as [<- <-]. done.
Qed.
Lemma discarded_final `{!EnvelopeLaws} staged s rs :
  (∀ b, sha256_hex b = sha256_hex (st_bytes staged) → b = st_bytes staged) → prepared s staged →
  Forall (served s) rs →
  (∃ b1 f b2, rs = b1 ++ Finalize f (st_artifact staged) (st_staging_key staged) :: b2 ∧
    is_ok (finalize_staged f (st_artifact staged) (st_staging_key staged) (serve s b1)) = true) →
  final_there staged (serve s rs).
Proof.
  intros Hnc Hp Hrs (b1 & f & b2 & -> & Hok).
  destruct (finalize_staged f _ _ (serve s b1)) as [[u s2]|] eqn:E; [| done].
  pose proof (serve_config s b1) as Hc1.
  destruct (finalized_there staged Hnc _ _ _ _ (prepared_config _ _ _ Hc1 Hp) E) as (Hf & Hc2 & _).
  assert (same_config s s2) as Hc3 by (unfold same_config in *; destruct Hc1, Hc2; split; congruence).
  assert (serve s (b1 ++ Finalize f (st_artifact staged) (st_staging_key staged) :: b2) = serve s2 b2) as ->.
  { unfold serve in *. rewrite foldl_app. simpl. unfold run_txn. by rewrite E. }
  apply (serve_stays staged Hnc s2 b2); [by apply (prepared_config s) | | done].
  apply Forall_app in Hrs as [_ Hrs]. apply Forall_cons in Hrs as [_ Hrs].
  eapply Forall_impl; [exact Hrs |]. intros x. by apply served_config.
Qed.
Lemma serve_recoverable `{!EnvelopeLaws} staged s rs :
  (∀ b, sha256_hex b = sha256_hex (st_bytes staged) → b = st_bytes staged) → prepared s staged →
  Forall (served s) rs →
  (∀ f other, Stage f other ∈ rs → st_staging_key other = st_staging_key staged → other = staged) →
  discarded_late staged s rs → recoverable staged s → recoverable staged (serve s rs).
Proof.
  intros Hnc Hp Hrs Hstage Hlate Hrec. induction rs as [|r rs IH] using rev_ind; [done |].
  apply Forall_app in Hrs as [Hrs Hr]. rewrite Forall_singleton in Hr. pose proof (serve_config s rs) as Hc.
  assert (serve s (rs ++ [r]) = artifact_handle r (serve s rs)) as -> by (unfold serve; by rewrite foldl_snoc).
  apply recoverable_step; try done.
  - by eapply prepared_config.
  - by apply (served_config s).
  - intros f other ->. apply (Hstage f). set_solver.
  - intros f ->. apply discarded_final; [done | done | done |]. by apply (Hlate rs f []).
  - apply IH; [done | |].
    + intros f other Hin. apply (Hstage f). set_solver.
    + intros before f after E. apply (Hlate before f (after ++ [r])). by rewrite E, <-app_assoc.
Qed.

(** C26: an upload survives crashes: after the staging of a prepared upload has
    succeeded, then whatever else is staged, finalised and discarded, however often the
    server fails on the way and tries again, as long as nobody discards the staging
    object before a finalisation has succeeded, the next finalisation that meets no
    failing access succeeds and leaves the uploaded bytes at their content address. *)
Theorem uploads_survive_crashes `{!EnvelopeLaws, !ObjectFormatsLaws _} staged faults s u s' rs :
  prepared s staged → (∀ b, sha256_hex b = sha256_hex (st_bytes staged) → b = st_bytes staged) →
  write_staged faults staged s = Ok (u, s') → Forall (served s') rs →
  (∀ f other, Stage f other ∈ rs → st_staging_key other = st_staging_key staged → other = staged) →
  discarded_late staged s' rs →
  ∃ s'', finalize_staged no_faults (st_artifact staged) (st_staging_key staged) (serve s' rs) = Ok (tt, s'') ∧
    ao_objects s'' !! sa_object_key (st_artifact staged) = Some (st_bytes staged).
Proof.
  intros Hp Hnc Hw Hrs Hstage Hlate. apply write_staged_ok in Hw as [Hv ->].
  set (s1 := on_objects <[st_staging_key staged := st_bytes staged]> s) in *.
  assert (prepared s1 staged) as Hp1 by (by apply (prepared_config s)).
  assert (recoverable staged (serve s1 rs)) as Hrec.
  { apply serve_recoverable; try done. left. simpl. by rewrite lookup_insert_eq. }
  pose proof (serve_config s1 rs) as Hc.
  pose proof (prepared_config _ _ _ Hc Hp1) as Hp2.
  pose proof (recoverable_finalizes staged _ Hp2 Hv Hrec) as Hok.
  destruct (finalize_staged no_faults _ _ (serve s1 rs)) as [[[] s'']|] eqn:E; [| done]. exists s''. split; [done |].
  by destruct (finalized_there staged Hnc _ _ _ _ Hp2 E).
Qed.
End artifacts.

(** ** An upload of five bytes *)
Section artifact_demo.
(** A hash that tells this content from any other. *)
Definition hello_digest : string := "1111111111111111111111111111111111111111111111111111111111111111".
#[local] Instance hello_digests : Digests :=
  {| sha256_hex b := if seqb b "hello" then hello_digest else sample_digest; base64_encode := sample_encode |}.
#[local] Instance hello_envelopes : Envelopes :=
  {| parse_envelope := λ _, None; json_parses := λ _, true; base64_decode := sample_decode |}.
#[local] Instance hello_laws : EnvelopeLaws.
Proof.
  split.
  - intros b. cbn [sha256_hex hello_digests]. destruct (seqb b "hello"); vm_compute; reflexivity.
  - exact (@base64_encode_len sample_digests sample_envelopes sample_envelope_laws).
  - exact (@base64_round_trip sample_digests sample_envelopes sample_envelope_laws).
Qed.
#[local] Instance plain_formats : ObjectFormats := {|
  hmac_sha256 key message := key +:+ message; mac_to_hex m := m; mac_of_hex m := Some m;
  mime_essence s := Some s; json_to_vec _ := ""; parse_copilot_receipt _ := None |}.
#[local] Instance plain_laws : ObjectFormatsLaws plain_formats.
Proof. by intros m. Qed.
#[local] Instance no_json : JsonReader := λ _, None.
#[local] Existing Instance sample_serde.

Definition demo_objects : artifact_store := ArtifactStore ∅ "key" 100.
Definition demo_identity : artifact_identity := ArtifactIdentity 900 1 50 60 30 "runner-a".
Definition demo_payload : json :=
  json_object [("bytes", JInt 5); ("content_base64", JStr (sample_encode "hello")); ("sha256", JStr hello_digest);
               ("media_type", JStr "text/plain")].
Definition demo_prepared : result staged_artifact := prepare_staging demo_objects demo_identity demo_payload 1000.
Definition put_fault : object_faults := ObjectFaults None None (Some "disk full") None.

Lemma hello_unique b : sha256_hex b = sha256_hex "hello" → b = "hello".
Proof. simpl. destruct (seqb b "hello") eqn:E; [by apply seqb_eq in E | done]. Qed.
(** The demonstration upload, and the store after its staging. *)
Lemma demo_staging : ∃ staged s, prepared demo_objects staged ∧ st_bytes staged = "hello" ∧
  sa_retention_until (st_artifact staged) = 1000%Z ∧ write_staged no_faults staged demo_objects = Ok (tt, s).
Proof.
  assert (match demo_prepared with
    | Ok staged => st_bytes staged = "hello" ∧ sa_retention_until (st_artifact staged) = 1000%Z ∧
        is_ok (write_staged no_faults staged demo_objects) = true
    | Err _ => False end) as Hok by (vm_compute; split_and!; reflexivity).
  destruct demo_prepared as [staged|] eqn:E; [| destruct Hok]. destruct Hok as (Hb & Hr & Hw).
  destruct (write_staged no_faults staged demo_objects) as [[[] s]|] eqn:Ew; [| discriminate Hw].
  exists staged, s. split; [| by split_and!]. exists demo_identity, demo_payload, 1000%Z, None. exact E.
Qed.

Lemma uploads_survive_crashes_witness : ∃ staged s s', write_staged no_faults staged demo_objects = Ok (tt, s) ∧
  finalize_staged no_faults (st_artifact staged) (st_staging_key staged)
    (serve s [Finalize put_fault (st_artifact staged) (st_staging_key staged)]) = Ok (tt, s').
Proof.
  destruct demo_staging as (staged & s & Hp & Hb & _ & Hw). exists staged, s.
  pose proof (proj2 (write_staged_ok _ _ _ _ _ Hw)) as Hs.
  assert (prepared s staged) as Hp' by (apply (prepared_config demo_objects); [rewrite Hs; by split | exact Hp]).
  destruct (uploads_survive_crashes staged no_faults demo_objects tt s
    [Finalize put_fault (st_artifact staged) (st_staging_key staged)] Hp
    ltac:(rewrite Hb; exact hello_unique) Hw
    ltac:(constructor; [exists staged; by split_and! | constructor])
    ltac:(intros f other Hin; apply list_elem_of_singleton in Hin; discriminate Hin)
    ltac:(intros before f after E; destruct before as [|? [|]]; discriminate E)) as (s' & Hf & _).
  exists s'. split; [exact Hw | exact Hf].
Defined.

Lemma artifacts_read_back_witness : ∃ staged s', st_bytes staged = "hello" ∧
  read_verified 500 no_faults (st_artifact staged)
    (serve s' [Discard no_faults (st_staging_key staged)]) =
  Ok ("hello", serve s' [Discard no_faults (st_staging_key staged)]).
Proof.
  destruct demo_staging as (staged & s & Hp & Hb & Hr & Hw).
  pose proof (proj2 (write_staged_ok _ _ _ _ _ Hw)) as Hs.
  assert (prepared s staged) as Hp' by (apply (prepared_config demo_objects); [rewrite Hs; by split | exact Hp]).
  destruct (write_staged_ok _ _ _ _ _ Hw) as [Hv _].
  assert (is_ok (finalize_staged no_faults (st_artifact staged) (st_staging_key staged) s) = true) as Hok.
  { apply recoverable_finalizes; [exact Hp' | exact Hv |]. left. rewrite Hs. simpl. apply lookup_insert_eq. }
  destruct (finalize_staged no_faults (st_artifact staged) (st_staging_key staged) s) as [[[] s']|] eqn:Ef;
    [| discriminate Hok].
  assert (prepared s' staged) as Hp2.
  { apply (prepared_config s); [| exact Hp']. pose proof (handle_config (Finalize no_faults (st_artifact staged) (st_staging_key staged)) s) as Hc.
    simpl in Hc. unfold run_txn in Hc. rewrite Ef in Hc. exact Hc. }
  exists staged, s'. split; [exact Hb |]. rewrite <-Hb.
  apply (artifacts_read_back staged no_faults s tt s' [Discard no_faults (st_staging_key staged)] 500).
  - exact Hp'.
  - rewrite Hb. exact hello_unique.
  - exact Ef.
  - constructor; [exists staged; split; [exact Hp2 | reflexivity] | constructor].
  - rewrite Hr. reflexivity.
Defined.
End artifact_demo.
