(* ===== verification/HandoffSafety.v ===== *)
(** * What is handed on is verified

    The text a run gets from the tasks it depends on comes from each of them,
    from the artifact its last run passed verification with, byte for byte
    ([handoffs_are_verified]). *)
From S2P Require Import Prelude Text Json Domain Planning Deliverable DependencySource FactoryPolicy Store FactoryItems Breaker ExecTables Checkpoint RunFailure RunEvents Dispatch Decisions ExecSpec EventSteps AttemptSteps Execution Polling GithubResponse Access Artifacts Handoff.

Section handoff.
Context `{Serde} `{ExecSerde} `{Envelopes} `{JsonReader} `{ObjectFormats}.

(** One dependency with the bytes that were read and the files they hold. *)
Record part := Part { pt_dependency : dependency_artifact; pt_bytes : string; pt_files : list dependency_source_file }.
Definition rendered_file (f : dependency_source_file) : string := file_header f +:+ df_content f +:+ file_footer.
Definition concat_text (l : list string) : string := foldr String.append "" l.
Definition rendered (p : part) : string :=
  let a := da_artifact (pt_dependency p) in
  dependency_header (pt_dependency p) +:+
  (if seqb (sa_artifact_role a) "source_deliverable" then concat_text (rendered_file <$> pt_files p)
   else if starts_with "text/" (sa_media_type a) || seqb (sa_media_type a) "application/json" then pt_bytes p
   else "Binary artifact: " +:+ show_int (sa_bytes a) +:+ " bytes, media type " +:+ sa_media_type a +:+ newline).

(** The dependency is done, and this is what its last run was verified with. *)
Record verified_parent (db : handoff_db) (d : dependency_artifact) : Prop := {
  vp_parent : ∃ parent, task_of (hd_exec db) (da_task_id d) = Some parent ∧ ta_status parent = TaskStatus.Completed ∧
    ta_verification_status parent = "passed" ∧ da_contract d = ta_contract parent ∧
    latest_run_of_task (ta_corp parent) (da_task_id d) (hd_exec db) = Some (da_verification_run_id d);
  vp_run : ∃ r row, run_of (hd_exec db) (da_verification_run_id d) = Some r ∧ rn_status r = RunStatus.Completed ∧
    rn_verification_status r = "passed" ∧
    si_artifacts (x_side (hd_exec db)) !! sa_id (da_artifact d) = Some row ∧ af_status row = "ready" ∧
    af_sha256 row = sa_sha256 (da_artifact d) ∧ sa_task_id (da_artifact d) = da_task_id d ∧
    sa_producer_agent_id (da_artifact d) = rb_agent (rn_binding r) ∧
    sa_producer_runner_id (da_artifact d) = rb_runner (rn_binding r) ∧
    (is_typed_set (da_contract d) = true → sa_run_id (da_artifact d) = da_verification_run_id d ∧
       rn_deliverable_sha256 r = Some (sa_sha256 (da_artifact d)) ∧
       rn_verification_sha256 r = da_verification_sha256 d);
}.
Record verified_part (db : handoff_db) (objects : artifact_store) (now : timestamp)
    (source : option string * option string * option string) (p : part) : Prop := {
  vt_parent : verified_parent db (pt_dependency p);
  vt_bytes : sha256_hex (pt_bytes p) = sa_sha256 (da_artifact (pt_dependency p));
  vt_signed : verify_signature objects (da_artifact (pt_dependency p)) = Ok tt;
  vt_kept : (now < sa_retention_until (da_artifact (pt_dependency p)))%Z;
  vt_files : sa_artifact_role (da_artifact (pt_dependency p)) = "source_deliverable" →
    typed_files (pt_dependency p) source (pt_bytes p) = Ok (pt_files p) ∧
    ∀ f, f ∈ pt_files p → ∃ scope, scope ∈ tc_write_scope (da_contract (pt_dependency p)) ∧
      write_scope_allows_path scope (df_path f) = true;
}.

Lemma dependency_row_ok corp task parent_id db d : dependency_row corp task parent_id db = Some d →
  da_task_id d = parent_id ∧ verified_parent db d.
Proof.
  unfold dependency_row. intros Hx.
  apply bind_Some in Hx as (child & _ & Hx). apply bind_Some in Hx as (parent & Hparent & Hx).
  apply bind_Some in Hx as (run_id & Hlatest & Hx). apply bind_Some in Hx as (r & Hr & Hx).
  apply bind_Some in Hx as (aid & Haid & Hx). apply bind_Some in Hx as (row & Hrow & Hx).
  apply bind_Some in Hx as (file & _ & Hx). case_match eqn:Ec; [| done]. injection Hx as <-.
  rewrite !andb_true_iff, !seqb_eq, !bool_decide_eq_true, !N.eqb_eq in Ec.
  destruct Ec as [[[[[[[[[[[[_ _] _] Hps] Hpv] Hrs] Hrv] Htask] _] Hagent] Hrunner] Hready] Hjoin].
  split; [done |]. split; simpl; [by exists parent |].
  exists r, row. split_and!; try done. intros Ht. unfold artifact_joins in Hjoin. rewrite Ht in Hjoin.
  destruct (deliverable_of_run _ _ _ _) as [dl|]; [| done].
  rewrite !andb_true_iff, !seqb_eq, N.eqb_eq in Hjoin. destruct Hjoin as [[[[[_ Hrun] _] Hver] _] Hsha].
  unfold sql_eq in *. destruct (rn_verification_sha256 r) as [v|], (rn_deliverable_sha256 r) as [s|]; try done.
  rewrite bool_decide_eq_true in Hver, Hsha. simpl in *. by subst.
Qed.

Lemma omap_length_le {A B} (f : A → option B) l : length (omap f l) ≤ length l.
Proof.
  induction l as [|x l IH]; [done |]. change (omap f (x :: l)) with
    (match f x with Some y => y :: omap f l | None => omap f l end). destruct (f x); simpl; lia.
Qed.
Lemma omap_full {A B} (f : A → option B) (g : B → A) l : (∀ x y, f x = Some y → g y = x) →
  length (omap f l) = length l → g <$> omap f l = l.
Proof.
  intros Hg. induction l as [|x l IH]; [done |]. change (omap f (x :: l)) with
    (match f x with Some y => y :: omap f l | None => omap f l end).
  pose proof (omap_length_le f l). destruct (f x) as [y|] eqn:E; intros Hl; simpl in Hl; [| lia].
  rewrite fmap_cons. f_equal; [by apply Hg | apply IH; lia].
Qed.
Lemma dependency_artifacts_ok corp task db ds : dependency_artifacts corp task db = Ok ds →
  da_task_id <$> ds ≡ₚ expected_dependencies corp task (hd_exec db) ∧ Forall (verified_parent db) ds.
Proof.
  unfold dependency_artifacts. rewrite bind_ok. set (rows := omap _ _). intros (u & Hlen & [= <-]).
  unfold bail_if in Hlen. case_match eqn:E; [done |]. apply negb_false_iff, Nat.eqb_eq in E.
  rewrite (sort_by_perm by_plan_key rows) in E |- *.
  assert (Forall (verified_parent db) rows) as Hall.
  { apply Forall_forall. intros d Hd. apply list_elem_of_omap in Hd as (p & _ & Hd). by apply dependency_row_ok in Hd as [_ ?]. }
  split; [| done].
  unfold expected_dependencies in *. destruct (task_of (hd_exec db) task) as [child|] eqn:Ec;
    [destruct (ta_corp child =? corp)%N |]; [| by apply nil_length_inv in E; rewrite E ..].
  unfold rows in *. rewrite (omap_full _ da_task_id); [done | | done].
  intros x y Hy. by apply dependency_row_ok in Hy as [? _].
Qed.

Lemma append_text_ok context text c : append_dependency_text context text = Ok c ↔
  c = context +:+ text ∧ (str_len c ≤ context_limit)%Z.
Proof.
  unfold append_dependency_text. rewrite bind_ok. unfold bail_if. split.
  - intros (u & Hc & [= <-]). case_match eqn:E; [done |]. rewrite str_len_app. split; [done | lia].
  - intros [-> Hl]. rewrite str_len_app in Hl. exists tt. split; [| done]. case_match eqn:E; [lia | done].
Qed.
Lemma append_files_ok scopes files : ∀ context c, append_files scopes context files = Ok c →
  c = context +:+ concat_text (rendered_file <$> files) ∧
  ((str_len context ≤ context_limit)%Z → (str_len c ≤ context_limit)%Z) ∧
  ∀ f, f ∈ files → ∃ scope, scope ∈ scopes ∧ write_scope_allows_path scope (df_path f) = true.
Proof.
  induction files as [|f files IH]; intros context c; cbn [append_files].
  { intros [= <-]. split; [simpl; by rewrite str_app_nil_r |]. split; [done |]. set_solver. }
  rewrite bind_ok. intros (u & Hscope & Hx). apply bind_ok in Hx as (c1 & [-> _]%append_text_ok & Hx).
  apply bind_ok in Hx as (c2 & [-> _]%append_text_ok & Hx). apply bind_ok in Hx as (c3 & [-> Hl]%append_text_ok & Hx).
  apply IH in Hx as (-> & Hlim & Hin). split.
  { change (concat_text (rendered_file <$> f :: files)) with (rendered_file f +:+ concat_text (rendered_file <$> files)).
    unfold rendered_file. by rewrite !str_app_assoc. }
  split; [auto |]. intros g [-> | Hg]%elem_of_cons; [| auto].
  unfold bail_if in Hscope. case_match eqn:E; [done |]. apply negb_false_iff, existsb_exists in E as (s & Hs & ?).
  exists s. by rewrite list_elem_of_In.
Qed.

Lemma read_verified_ok now faults a objects bytes :
  (run_txn (read_verified now faults a) objects).1 = Ok bytes →
  sha256_hex bytes = sa_sha256 a ∧ verify_signature objects a = Ok tt ∧ (now < sa_retention_until a)%Z.
Proof.
  unfold run_txn. destruct (read_verified now faults a objects) as [[b s']|] eqn:E; simpl; [| done]. intros [= ->].
  unfold read_verified in E. apply txn_bind_ok in E as (u & s1 & [Hnow ->]%lift_ok & E).
  apply txn_bind_ok in E as (store & s1 & [-> ->]%gets_ok & E). apply txn_bind_ok in E as ([] & s1 & [Hsig ->]%lift_ok & E).
  apply txn_bind_ok in E as (o & s1 & _ & E). apply txn_bind_ok in E as (b & s2 & _ & E).
  apply txn_bind_ok in E as (v & s3 & [Hv _]%lift_ok & [-> _]%mret_ok). split_and!; [| done |].
  - unfold verify_artifact_bytes in Hv. apply bind_ok in Hv as (w & Hw & _). unfold bail_if in Hw.
    destruct (seqb (sha256_hex b) (sa_sha256 a)) eqn:Es; [by apply seqb_eq in Es | done].
  - unfold bail_if in Hnow. case_match eqn:En; [done | lia].
Qed.

(** The loop over the dependencies, part by part. *)
Lemma append_dependencies_ok now faults objects source ds : ∀ context c handoffs,
  append_dependencies (λ a, (run_txn (read_verified now faults a) objects).1) source context ds = Ok (c, handoffs) →
  (str_len context ≤ context_limit)%Z →
  ∃ parts, pt_dependency <$> parts = ds ∧ c = context +:+ concat_text (rendered <$> parts) ∧
    (str_len c ≤ context_limit)%Z ∧ length handoffs = length ds ∧
    ∀ db, Forall (verified_parent db) ds → Forall (verified_part db objects now source) parts.
Proof.
  induction ds as [|d ds IH]; intros context c handoffs; cbn [append_dependencies].
  { intros [= <- <-] Hl. exists []. split_and!; try done. simpl. by rewrite str_app_nil_r. }
  rewrite bind_ok. intros (bytes & (Hsha & Hsig & Hkept)%read_verified_ok & Hx) _.
  apply bind_ok in Hx as (c1 & [-> Hl1]%append_text_ok & Hx). apply bind_ok in Hx as ([c2 files] & Hbody & Hx).
  apply bind_ok in Hx as ([c3 js] & Hrest & [= <- <-]). simpl in Hrest.
  assert (c2 = context +:+ rendered (Part d bytes files) ∧ (str_len c2 ≤ context_limit)%Z ∧
    (sa_artifact_role (da_artifact d) = "source_deliverable" → typed_files d source bytes = Ok files ∧
      ∀ f, f ∈ files → ∃ scope, scope ∈ tc_write_scope (da_contract d) ∧ write_scope_allows_path scope (df_path f) = true))
    as (-> & Hl2 & Hfiles).
  { unfold rendered. cbn [pt_dependency pt_bytes pt_files]. unfold append_body in Hbody.
    destruct (seqb (sa_artifact_role (da_artifact d)) "source_deliverable") eqn:Erole.
    - apply bind_ok in Hbody as (fs & Hfs & Hbody). apply bind_ok in Hbody as (c4 & Happ & [= <- <-]).
      apply append_files_ok in Happ as (-> & Hlim & Hscope).
      split; [by rewrite str_app_assoc |]. split; [by apply Hlim | by intros _].
    - assert (sa_artifact_role (da_artifact d) ≠ "source_deliverable") as Hne by (by apply seqb_neq).
      destruct (starts_with "text/" (sa_media_type (da_artifact d)) || seqb (sa_media_type (da_artifact d)) "application/json").
      + apply bind_ok in Hbody as (u & _ & Hbody). apply bind_ok in Hbody as (c4 & [-> Hl]%append_text_ok & [= <- <-]).
        split; [by rewrite str_app_assoc |]. by split.
      + apply bind_ok in Hbody as (c4 & [-> Hl]%append_text_ok & [= <- <-]). split; [by rewrite str_app_assoc |]. by split. }
  destruct (IH _ _ _ Hrest Hl2) as (parts & <- & -> & Hl3 & Hlen & Hall). exists (Part d bytes files :: parts).
  split; [done |]. split.
  { change (concat_text (rendered <$> Part d bytes files :: parts)) with
      (rendered (Part d bytes files) +:+ concat_text (rendered <$> parts)). by rewrite str_app_assoc. }
  split; [done |]. split; [simpl; by rewrite Hlen |].
  intros db [Hd Hds]%Forall_cons. constructor; [by constructor | auto].
Qed.

(** Recording a handoff, and so resolving a context, writes one event. *)
Lemma record_dependency_context_ok corp run digest handoffs db event db' :
  record_dependency_context corp run digest handoffs db = Ok (event, db') →
  length handoffs ≤ 8 ∧ x_core (hd_exec db') = x_core (hd_exec db) ∧ x_side (hd_exec db') = x_side (hd_exec db).
Proof.
  unfold record_dependency_context. intros Hrec. apply txn_bind_ok in Hrec as (u & s1 & [Hb ->]%lift_ok & Hrec).
  apply txn_bind_ok in Hrec as (row & s1 & [-> ->]%gets_ok & Hrec).
  apply txn_bind_ok in Hrec as (row & s1 & [_ ->]%lift_ok & Hrec). split.
  - unfold bail_if in Hb. case_match eqn:Eb; [done |]. rewrite !orb_false_iff in Eb. destruct Eb as [[_ E8] _].
    unfold vec_len in E8. lia.
  - unfold append_event_tx in Hrec. by case_match; injection Hrec as _ <-.
Qed.
Lemma resolve_dependency_context_frame now faults objects corp record db out db' :
  resolve_dependency_context now faults objects corp record db = Ok (out, db') →
  x_core (hd_exec db') = x_core (hd_exec db) ∧ x_side (hd_exec db') = x_side (hd_exec db).
Proof.
  unfold resolve_dependency_context. intros Hx. apply txn_bind_ok in Hx as (rows & s & [-> ->]%gets_ok & Hx).
  apply txn_bind_ok in Hx as (ds & s & [_ ->]%lift_ok & Hx).
  destruct (vec_is_empty ds); [by apply mret_ok in Hx as [_ ->] |].
  apply txn_bind_ok in Hx as ([c handoffs] & s & [_ ->]%lift_ok & Hx).
  apply txn_bind_ok in Hx as (e & s & Hrec & [_ ->]%mret_ok). by apply record_dependency_context_ok in Hrec as [_ ?].
Qed.

End handoff.

(** ** A task that reviews what another has written *)
Section handoff_demo.
#[local] Existing Instance sample_serde.
#[local] Existing Instance sample_exec_serde.
Definition handoff_digest : string := "1111111111111111111111111111111111111111111111111111111111111111".
#[local] Instance handoff_digests : Digests := {| sha256_hex _ := handoff_digest; base64_encode b := b |}.
#[local] Instance handoff_envelopes : Envelopes :=
  {| parse_envelope := λ _, None; json_parses := λ _, true; base64_decode := Some |}.
#[local] Instance handoff_formats : ObjectFormats := {|
  hmac_sha256 key message := key +:+ message; mac_to_hex m := m; mac_of_hex m := Some m;
  mime_essence s := Some s; json_to_vec _ := ""; parse_copilot_receipt _ := None |}.
#[local] Instance handoff_json_reader : JsonReader := λ _, None.

Definition handoff_plan : task_graph_plan :=
  TaskGraphPlan "solo" 2 1 3000 3000 []
    [PlannedTask "write" "write it" demo_contract 30 "codex" [] 0 2 (demo_policy None);
     PlannedTask "review" "review it" demo_contract 30 "codex" ["write"] 1 2 (demo_policy None)].
Definition handoff_env (run : uuid) : exec_env := ExecEnv 100 run (run + 1) (run + 2) 40 41 [50%N; 51%N] [].
Definition handoff_steps : list (exec_env * exec_request) :=
  [(handoff_env 60, CreateMission 1 10 "title" "description" handoff_plan);
   (handoff_env 60, StartAttempt 1 40 50 (Some 10%N) "runner-a")] ++ demo_verified 60 ++
  [demo_event 204 60 "run.completed" []; (handoff_env 80, StartAttempt 1 40 51 None "runner-a")].
(** The first run left one text artifact. *)
Definition handoff_objects : artifact_store := ArtifactStore {["object" := "hello"]} "key" 100.
Definition handoff_artifact : stored_artifact :=
  let a := StoredArtifact 900 1 50 60 30 "runner-a" artifact_verifier "object" "uri" handoff_digest "text/plain" 5
    "provider_evidence" "notes.txt" JNull "" 1000 in
  set_sa_signature (sign handoff_objects a) a.
Definition attach_artifact (r : x_run) : x_run :=
  XRun (rn_binding r) (rn_status r) (rn_verification_status r) (rn_verification_summary r) (rn_summary r)
    (rn_verification_sha256 r) (rn_deliverable_sha256 r) (rn_breaker_stage r) (rn_session r) (rn_connection r)
    (Some 900%N) (rn_usage r) (rn_workspace r).
Definition handoff_exec : exec_db :=
  let db := demo handoff_steps in
  let a := handoff_artifact in
  ExecDb (x_base db)
    (ExecCore (co_missions (x_core db)) (co_tasks (x_core db)) (co_dependencies (x_core db))
       (alter attach_artifact 60%N (co_runs (x_core db))) (co_evidence (x_core db)) (co_requests (x_core db)))
    (ExecSide (si_agents (x_side db)) ∅ [] []
       {[900%N := XArtifact 1 50 60 30 "runner-a" artifact_verifier "uri" handoff_digest "text/plain" 5
           "provider_evidence" "ready" JNull (sa_provenance_signature a) 1000 100]} [] ∅ ∅ ∅) [].
Definition handoff_start : handoff_db :=
  HandoffDb handoff_exec {[900%N := ("object", "notes.txt")]}
    {[60%N := (handoff_digest, "text/plain", sa_provenance_signature handoff_artifact)]}.
Definition handoff_record : launch_record :=
  LaunchRecord 20 51 80 30 81 1 "codex" "prompt" demo_contract None (demo_policy None) [].

End handoff_demo.
