(* ===== verification/Workers.v ===== *)
(** * Concurrent workers

    An asynchronous function of the server runs between awaits; at each await it
    accesses the store or the objects once, and anything else may happen first.
    A [worker] is such a function: a tree of accesses to a shared state.  Workers
    run in a pool that starts, interleaves and loses them ([pool_step]).
    [outlined] is a proof outline by rely and guarantee, and [pool_safe] says that
    a pool of outlined workers keeps the invariant whatever the interleaving. *)
From S2P Require Import Prelude.

Inductive worker (St A : Type) : Type :=
| Done (a : A)
| Access {B : Type} (f : St → B * St) (k : B → worker St A).
Arguments Done {St A} a.
Arguments Access {St A B} f k.

#[global] Instance worker_ret St : MRet (worker St) := @Done St.
#[global] Instance worker_bind St : MBind (worker St) := λ A B f,
  fix go (w : worker St A) : worker St B :=
    match w with
    | Done a => f a
    | Access g k => Access g (λ b, go (k b))
    end.
Definition access {St B} (f : St → B * St) : worker St B := Access f Done.
(** [value.await?] *)
Definition attempt {St A B} (w : worker St (result A)) (k : A → worker St (result B)) : worker St (result B) :=
  r ← w; match r with Ok a => k a | Err e => Done (Err e) end.
Definition ignore {St A} (w : worker St A) : worker St unit := _ ← w; Done tt.
(** [for x in xs { .. }] *)
Fixpoint visit_each {St A} (f : A → worker St unit) (xs : list A) : worker St unit :=
  match xs with
  | [] => Done tt
  | x :: xs => f x;; visit_each f xs
  end.

(** A worker that nothing interferes with. *)
Fixpoint run_alone {St A} (w : worker St A) (s : St) : A * St :=
  match w with
  | Done a => (a, s)
  | Access f k => let '(b, s) := f s in run_alone (k b) s
  end.

(** ** The pool *)
Section pool.
Context {St : Type} (admitted : worker St unit → Prop) (others : St → St → Prop).
Definition pool : Type := list (worker St unit) * St.

Inductive pool_step : pool → pool → Prop :=
| pool_access l {B} (f : St → B * St) k r s :
    pool_step (l ++ Access f k :: r, s) (l ++ k (f s).1 :: r, (f s).2)
| pool_start l w s : admitted w → pool_step (l, s) (w :: l, s)
| pool_stop l w r s : pool_step (l ++ w :: r, s) (l ++ r, s)
| pool_others l s s' : others s s' → pool_step (l, s) (l, s').
Definition pool_reachable (s : St) (p : pool) : Prop := rtc pool_step ([], s) p.

(** A worker of the pool can run to its end. *)
Lemma pool_run l w s : rtc pool_step (w :: l, s) (Done (run_alone w s).1 :: l, (run_alone w s).2).
Proof.
  revert s. induction w as [a | B f k IH]; intros s; simpl; [done |].
  eapply rtc_l; [apply (pool_access [] f k l s) |]. simpl. destruct (f s) as [b s']. apply IH.
Qed.
Lemma pool_serve l w s : admitted w → rtc pool_step (l, s) (l, (run_alone w s).2).
Proof.
  intros Ha. eapply rtc_l; [by apply pool_start |]. eapply rtc_trans; [apply pool_run |].
  apply rtc_once, (pool_stop []).
Qed.
End pool.

(** ** Rely and guarantee *)
Section outlines.
Context {St : Type} (inv : St → Prop) (guarantee : St → St → Prop).

(** What others do, as long as they keep the invariant and the guarantee, leaves it true. *)
Definition stable (P : St → Prop) : Prop := ∀ s s', inv s → inv s' → guarantee s s' → P s → P s'.
(** Every access keeps the invariant and the guarantee, from what is known before it;
    the answer is known to satisfy [Q] at the end. *)
Fixpoint outlined {A} (w : worker St A) (P : St → Prop) (Q : A → St → Prop) : Prop :=
  match w with
  | Done a => ∀ s, inv s → P s → Q a s
  | Access f k => ∀ s, inv s → P s →
      inv (f s).2 ∧ guarantee s (f s).2 ∧ ∃ P', stable P' ∧ P' (f s).2 ∧ outlined (k (f s).1) P' Q
  end.
Definition anything {A} (a : A) (s : St) : Prop := True.

Lemma stable_true : stable (λ _, True).
Proof. by intros s s' _ _ _ ?. Qed.
Lemma stable_pure (P : Prop) : stable (λ _, P).
Proof. by intros s s' _ _ _ ?. Qed.
Lemma stable_and P P' : stable P → stable P' → stable (λ s, P s ∧ P' s).
Proof. intros H1 H2 s s' Hi Hi' Hg [? ?].
  split; [by apply (H1 s s') | by apply (H2 s s')].
Qed.

Lemma outlined_weaken {A} (w : worker St A) (P P' : St → Prop) (Q Q' : A → St → Prop) :
  (∀ s, inv s → P' s → P s) → (∀ a s, inv s → Q a s → Q' a s) → outlined w P Q → outlined w P' Q'.
Proof.
  revert P P'. induction w as [a | B f k IH]; intros P P' HP HQ Hw; simpl in *; [by eauto |].
  intros s Hs Hp. destruct (Hw s Hs (HP s Hs Hp)) as (Hi & Hg & P1 & Hst & H1 & Hk). split; [done |].
  split; [done |]. exists P1. split; [done |]. split; [done |]. by eapply IH; [| | exact Hk].
Qed.
Lemma outlined_done {A} (a : A) P (Q : A → St → Prop) : (∀ s, inv s → P s → Q a s) → outlined (Done a) P Q.
Proof. done. Qed.
Lemma outlined_bind {A B} (w : worker St A) (f : A → worker St B) P R (Q : B → St → Prop) :
  outlined w P R → (∀ a, outlined (f a) (R a) Q) → outlined (w ≫= f) P Q.
Proof.
  unfold mbind. revert P. induction w as [a | C g k IH]; intros P Hw Hf; simpl in *.
  - eapply outlined_weaken; [exact Hw | done | apply Hf].
  - intros s Hs Hp. destruct (Hw s Hs Hp) as (Hi & Hg & P1 & Hst & H1 & Hk). split; [done |].
    split; [done |]. exists P1. split; [done |]. split; [done |]. by apply IH.
Qed.
(** What is known but does not depend on the state can be assumed. *)
Lemma outlined_pure {A} (w : worker St A) (F : Prop) (Q : A → St → Prop) :
  (F → outlined w (λ _, True) Q) → outlined w (λ _, F) Q.
Proof. destruct w; intros Hw s Hs HF; by apply (Hw HF). Qed.
(** One access whose answer is stable knowledge. *)
Lemma outlined_access {B} (f : St → B * St) P (R : B → St → Prop) :
  (∀ b, stable (R b)) →
  (∀ s, inv s → P s → inv (f s).2 ∧ guarantee s (f s).2 ∧ R (f s).1 (f s).2) →
  outlined (access f) P R.
Proof.
  intros Hst Hf s Hs Hp. destruct (Hf s Hs Hp) as (Hi & Hg & Hr). split; [done |]. split; [done |].
  exists (R (f s).1). split; [apply Hst |]. split; [exact Hr | by intros s' _ ?].
Qed.
Lemma outlined_attempt {A B} (w : worker St (result A)) (k : A → worker St (result B)) P R :
  outlined w P (λ r s, match r with Ok a => R a s | Err _ => True end) →
  (∀ a, outlined (k a) (R a) anything) → outlined (attempt w k) P anything.
Proof. intros Hw Hk. eapply outlined_bind; [exact Hw |]. intros [a | e]; [apply Hk | done]. Qed.
Lemma outlined_ignore {A} (w : worker St A) P R : outlined w P R → outlined (ignore w) P anything.
Proof. intros Hw. eapply outlined_bind; [exact Hw | done]. Qed.
Lemma outlined_each {A} (f : A → worker St unit) xs (P : St → Prop) :
  (∀ x, x ∈ xs → outlined (f x) P (λ _, P)) → outlined (visit_each f xs) P (λ _, P).
Proof.
  induction xs as [|x xs IH]; intros Hf; [by intros s |]. simpl.
  eapply outlined_bind; [apply Hf; left |]. intros a. apply IH. intros y Hy. apply Hf. by right.
Qed.

(** ** Soundness *)
Context (admitted : worker St unit → Prop) (others : St → St → Prop).
Context (admitted_outlined : ∀ w, admitted w → outlined w (λ _, True) anything).
Context (others_allowed : ∀ s s', inv s → others s s' → inv s' ∧ guarantee s s').

Definition knows (s : St) (w : worker St unit) : Prop := ∃ P, stable P ∧ P s ∧ outlined w P anything.
Lemma knows_stays s s' l : inv s → inv s' → guarantee s s' → Forall (knows s) l → Forall (knows s') l.
Proof.
  intros Hi Hi' Hg Hl. eapply Forall_impl; [exact Hl |]. intros w (P & Hst & HP & Hw).
  exists P. split; [done |]. split; [by apply (Hst s s') | done].
Qed.
Lemma pool_step_safe p p' : pool_step admitted others p p' → inv p.2 → Forall (knows p.2) p.1 →
  inv p'.2 ∧ Forall (knows p'.2) p'.1.
Proof using admitted_outlined others_allowed.
  intros [l B f k r s | l w s Ha | l w r s | l s s' Ho] Hi Hk; simpl in *.
  - apply Forall_app in Hk as [Hl [(P & Hst & HP & Hw) Hr]%Forall_cons].
    destruct (Hw s Hi HP) as (Hi' & Hg & P' & Hst' & HP' & Hk'). split; [done |].
    pose proof (λ l, knows_stays s (f s).2 l Hi Hi' Hg) as Hstays.
    rewrite Forall_app, Forall_cons. split; [by apply Hstays |]. split; [by exists P' | by apply Hstays].
  - split; [done |]. rewrite Forall_cons. split; [| done]. exists (λ _, True). split; [apply stable_true |]. eauto.
  - split; [done |]. apply Forall_app in Hk as [Hl [_ Hr]%Forall_cons]. by apply Forall_app.
  - destruct (others_allowed _ _ Hi Ho) as [Hi' Hg]. split; [done | by apply (knows_stays s)].
Qed.
Lemma pool_safe s p : inv s → pool_reachable admitted others s p → inv p.2.
Proof using admitted_outlined others_allowed.
  intros Hi Hp. cut (inv p.2 ∧ Forall (knows p.2) p.1); [by intros [? _] |].
  revert p Hp. apply (rtc_ind_r (R := pool_step admitted others) (λ p, inv p.2 ∧ Forall (knows p.2) p.1) ([], s)).
  - split; [exact Hi | constructor].
  - intros p1 p2 _ Hstep [? ?]. by eapply pool_step_safe.
Qed.
End outlines.
