(* ===== verification/ArtifactUploads.v ===== *)
(** * Artifact uploads (crates/crony-store/src/lib.rs, retained_provider_receipt.rs; crates/crony-server/src/main.rs)

    An upload is a row of the table [artifacts] and an object: the row is
    reserved as staged ([prepare_artifact_upload]), the bytes are written and
    copied to their content address, and only then the row becomes ready
    ([finalize_artifact_upload]), which moves the run to verification.  An upload
    that fails for good is rejected, one whose bytes never arrived is released,
    and a pass over what a crash left behind does the same again
    ([recover_pending_artifacts]).  The two server functions are workers: at every
    await other uploads, passes and requests may come between. *)
From S2P Require Import Prelude Text Json Domain Planning Deliverable DependencySource FactoryPolicy Store FactoryItems Breaker ExecTables Checkpoint RunFailure RunEvents Dispatch Polling GithubResponse Access Artifacts Handoff Workers.

(** ** Tables

    Columns that nothing else reads: of an artifact, of a run (the uri of its
    artifact) and of a deliverable (its file name). *)
Record upload_columns := UploadColumns {
  uc_staging_key : option string; uc_rejection_reason : option string; uc_finalized_at : option timestamp }.
Record upload_db := UploadDb {
  ud_handoff : handoff_db; ud_columns : gmap uuid upload_columns; ud_run_uris : gmap uuid string;
  ud_deliverable_files : gmap uuid string }.
Definition ud_exec (db : upload_db) : exec_db := hd_exec (ud_handoff db).
Definition on_handoff (f : handoff_db → handoff_db) (db : upload_db) : upload_db :=
  UploadDb (f (ud_handoff db)) (ud_columns db) (ud_run_uris db) (ud_deliverable_files db).
Definition on_upload_exec (f : exec_db → exec_db) : upload_db → upload_db :=
  on_handoff (λ h, HandoffDb (f (hd_exec h)) (hd_files h) (hd_run_evidence h)).
Definition on_columns (f : gmap uuid upload_columns → gmap uuid upload_columns) (db : upload_db) : upload_db :=
  UploadDb (ud_handoff db) (f (ud_columns db)) (ud_run_uris db) (ud_deliverable_files db).
#[global] Instance upload_db_log : HasLog upload_db := {|
  get_log db := get_log (ud_exec db);
  set_log l := on_upload_exec (set_log l);
|}.
#[global] Instance upload_db_log_laws : HasLogLaws upload_db.
Proof. by split. Qed.

Definition on_artifacts (f : gmap uuid x_artifact → gmap uuid x_artifact) : exec_db → exec_db :=
  in_side (λ d, ExecSide (si_agents d) (si_approvals d) (si_messages d) (si_commands d)
    (f (si_artifacts d)) (si_deliverables d) (si_recoveries d) (si_items d) (si_operations d)).
Definition set_af_status (v : string) (a : x_artifact) : x_artifact :=
  XArtifact (af_corp a) (af_task a) (af_run a) (af_producer_agent a) (af_producer_runner a) (af_verifier a) (af_uri a)
    (af_sha256 a) (af_media_type a) (af_bytes a) (af_role a) v (af_metadata a) (af_provenance_signature a)
    (af_retention_until a) (af_created_at a).
Definition set_rn_artifact (v : option uuid) (r : x_run) : x_run :=
  XRun (rn_binding r) (rn_status r) (rn_verification_status r) (rn_verification_summary r) (rn_summary r)
    (rn_verification_sha256 r) (rn_deliverable_sha256 r) (rn_breaker_stage r) (rn_session r) (rn_connection r) v
    (rn_usage r) (rn_workspace r).

(** TIMESTAMPTZ keeps microseconds. *)
Definition to_timestamptz (t : timestamp) : timestamp := (micros t * 1000)%Z.
Definition artifact_columns (created_at : timestamp) (a : stored_artifact) : x_artifact :=
  XArtifact (sa_corp_id a) (sa_task_id a) (sa_run_id a) (sa_producer_agent_id a) (sa_producer_runner_id a)
    (sa_verifier a) (sa_uri a) (sa_sha256 a) (sa_media_type a) (sa_bytes a) (sa_artifact_role a) "staged"
    (sa_metadata a) (sa_provenance_signature a) (to_timestamptz (sa_retention_until a)) created_at.

(** A row of the table, put together from its columns. *)
Record upload_row := UploadRow {
  ur_artifact : stored_artifact; ur_status : string; ur_created_at : timestamp; ur_columns : upload_columns }.
Definition row_of (db : upload_db) (id : uuid) : option upload_row :=
  a ← si_artifacts (x_side (ud_exec db)) !! id;
  file ← hd_files (ud_handoff db) !! id;
  columns ← ud_columns db !! id;
  Some (UploadRow (map_stored_artifact id file a) (af_status a) (af_created_at a) columns).
Definition scoped_row (corp_id id : uuid) (db : upload_db) : option upload_row :=
  row ← row_of db id; if (sa_corp_id (ur_artifact row) =? corp_id)%N then Some row else None.
Definition artifact_rows (db : upload_db) : list upload_row :=
  omap (row_of db) (map_to_list (si_artifacts (x_side (ud_exec db)))).*1.
Definition row_where (p : upload_row → bool) (db : upload_db) : option upload_row := find p (artifact_rows db).
Definition set_status (id : uuid) (status : string) : upload_db → upload_db :=
  on_upload_exec (on_artifacts (alter (set_af_status status) id)).

Record prepared_upload := PreparedUpload {
  pu_artifact : stored_artifact; pu_staging_key : option string; pu_status : string; pu_created_at : timestamp }.
Definition map_prepared_artifact (row : upload_row) : result prepared_upload :=
  let staging_key := uc_staging_key (ur_columns row) in
  bail_if (seqb (ur_status row) "staged" && negb (is_some staging_key)) "staged artifact omitted its staging key";;
  Ok (PreparedUpload (ur_artifact row) staging_key (ur_status row) (ur_created_at row)).

(** The authority of a current collection of a retained receipt, which the store
    checks on its own tables: for an upload, reserving its digest in the command,
    and for an artifact that is already there. *)
Class Collections := {
  collection_grant : runner_event_input → upload_db → result receipt_grant;
  collection_reserve : runner_event_input → stored_artifact → upload_db → result (list x_command → list x_command);
  collection_validate : stored_artifact → upload_db → result unit;
}.

Section uploads.
Context `{Serde} `{ExecSerde} `{Envelopes} `{JsonReader} `{ObjectFormats} `{Collections}.

(** ** Admission *)
Definition upload_joined (run_id : uuid) (db : upload_db) : option (x_run * x_task * x_mission) :=
  r ← run_of (ud_exec db) run_id;
  t ← task_of (ud_exec db) (rb_task (rn_binding r));
  m ← mission_of (ud_exec db) (ta_mission t);
  Some (r, t, m).
Definition uploading_run (corp_id run_id agent_id : uuid) (runner_id : string) (assignment_token : uuid) (db : upload_db) :
    result (x_run * x_task * x_mission) :=
  with_context
    (row ← upload_joined run_id db;
     let '(r, _, _) := row in
     let b := rn_binding r in
     if (rb_corp b =? corp_id)%N && (rb_agent b =? agent_id)%N && seqb (rb_runner b) runner_id
        && (rb_assignment_token b =? assignment_token)%N && run_active (rn_status r)
        && negb (mem (rn_breaker_stage r) ["suspend"; "stop"])
     then Some row else None)
    "artifact upload does not match an active run".
Record artifact_context_row := ArtifactContext { ac_task_id : uuid; ac_mission_id : uuid; ac_room_id : uuid }.
Definition artifact_context (corp_id run_id agent_id : uuid) (runner_id : string) (assignment_token : uuid) :
    txn upload_db artifact_context_row :=
  db ← gets id;
  row ← lift (uploading_run corp_id run_id agent_id runner_id assignment_token db);
  let '(r, t, m) := row in
  mret (ArtifactContext (rb_task (rn_binding r)) (ta_mission t) (mi_room m)).

(** *** Retained receipts *)
Definition denied (detail : string) : string := "retained provider receipt: " +:+ detail.
Definition retained_grant_key : string := "retained_provider_receipt".
Definition retained_upload_key : string := "retained_provider_receipt_upload".
Definition is_marked (payload : json) : bool :=
  is_some (get retained_grant_key payload) || is_some (get retained_upload_key payload).
Definition lock_for_run (corp_id run_id : uuid) (db : upload_db) : result bool :=
  row ← with_context (run_joined (ud_exec db) corp_id run_id) "retained receipt assignment was not found";
  let '(r, t, _) := row in
  if negb (seqb (rb_execution_mode (rn_binding r)) "verification_only") then Ok false
  else
    _ ← with_context (item_of_mission corp_id (ta_mission t) (ud_exec db))
      "verifier evidence requires an explicit Factory collection";
    Ok true.
Definition fence_artifact (corp_id run_id : uuid) (role : string) (metadata : json) (db : upload_db) : result bool :=
  if negb (seqb role "provider_evidence") then
    bail_if (is_some (get retained_grant_key metadata)) (denied "a retained receipt must be provider evidence");;
    Ok false
  else
    collector ← lock_for_run corp_id run_id db;
    bail_if (negb collector && is_some (get retained_grant_key metadata))
      (denied "retained evidence cannot be attributed to a provider run");;
    Ok collector.
Definition prepare_retained (input : runner_event_input) (a : stored_artifact) : txn upload_db bool :=
  db ← gets id;
  collector ← lift (fence_artifact (re_corp_id input) (re_run_id input) (sa_artifact_role a) (sa_metadata a) db);
  (if collector : bool then
     reserve ← lift (collection_reserve input a db);
     modify (on_upload_exec (on_commands reserve))
   else
     lift (bail_if (is_marked (re_payload input))
       (denied "retained-marked upload requires a current collection grant")));;
  mret collector.
Definition retained_provider_receipt_grant_for_upload (input : runner_event_input) :
    txn upload_db (option receipt_grant) :=
  if negb (seqb (re_event_type input) "run.artifact_upload") then
    lift (bail_if (is_marked (re_payload input)) (denied "retained-marked input is not a provider artifact upload"));;
    mret None
  else
    db ← gets id;
    collector ← lift (lock_for_run (re_corp_id input) (re_run_id input) db);
    if negb collector then
      lift (bail_if (is_marked (re_payload input)) (denied "retained-marked upload requires a current verifier grant"));;
      mret None
    else grant ← lift (collection_grant input db); mret (Some grant).

(** ** Reserving a row *)
Definition expected_role (event_type : string) : option string :=
  if seqb event_type "run.artifact_upload" then Some "provider_evidence"
  else if seqb event_type "run.deliverable_upload" then Some "source_deliverable" else None.
Definition ensure_artifact_upload_matches (existing candidate : stored_artifact) (require_event_id : bool) : result unit :=
  bail_if ((require_event_id && negb (sa_id existing =? sa_id candidate)%N)
    || negb (sa_corp_id existing =? sa_corp_id candidate)%N || negb (sa_task_id existing =? sa_task_id candidate)%N
    || negb (sa_run_id existing =? sa_run_id candidate)%N
    || negb (sa_producer_agent_id existing =? sa_producer_agent_id candidate)%N
    || negb (seqb (sa_producer_runner_id existing) (sa_producer_runner_id candidate))
    || negb (seqb (sa_verifier existing) (sa_verifier candidate)) || negb (seqb (sa_sha256 existing) (sa_sha256 candidate))
    || negb (seqb (sa_media_type existing) (sa_media_type candidate)) || negb (sa_bytes existing =? sa_bytes candidate)%Z
    || negb (seqb (sa_artifact_role existing) (sa_artifact_role candidate))
    || negb (seqb (sa_file_name existing) (sa_file_name candidate))
    || negb (bool_decide (sa_metadata existing = sa_metadata candidate)))
    "duplicate artifact upload conflicts with persisted metadata".

(** The CHECK constraints and unique indexes of the table. *)
Definition char_length (s : string) : Z := vec_len (chars s).
Definition artifact_constraints (now : timestamp) (a : stored_artifact) : result unit :=
  bail_if (negb (hex_digest (sa_sha256 a) [64%Z] && in_range 3 255 (char_length (sa_media_type a)) && (0 <=? sa_bytes a)%Z
                 && hex_digest (sa_provenance_signature a) [64%Z] && (now <? to_timestamptz (sa_retention_until a))%Z
                 && mem (sa_artifact_role a) ["provider_evidence"; "source_deliverable"]))
    "new row violates check constraint".
Definition artifact_collides (a : stored_artifact) (db : upload_db) : bool :=
  is_some (row_of db (sa_id a))
  || is_some (row_where (λ row, let e := ur_artifact row in
       (sa_run_id e =? sa_run_id a)%N
       && (seqb (sa_artifact_role e) (sa_artifact_role a) && seqb (sa_sha256 e) (sa_sha256 a)
           || seqb (sa_artifact_role a) "source_deliverable" && seqb (sa_artifact_role e) "source_deliverable"
              && negb (seqb (ur_status row) "rejected"))) db).
Definition insert_artifact (now : timestamp) (a : stored_artifact) (staging_key : string) : txn upload_db prepared_upload :=
  lift (artifact_constraints now a);;
  collides ← gets (artifact_collides a);
  lift (bail_if collides duplicate_key);;
  modify (λ db, on_columns <[sa_id a := UploadColumns (Some staging_key) None None]>
    (on_handoff (λ h, HandoffDb (on_artifacts <[sa_id a := artifact_columns now a]> (hd_exec h))
                        (<[sa_id a := (sa_object_key a, sa_file_name a)]> (hd_files h)) (hd_run_evidence h)) db));;
  mret (PreparedUpload a (Some staging_key) "staged" now).
Definition reuse_artifact (row : upload_row) (a : stored_artifact) (require_event_id retained : bool) :
    txn upload_db prepared_upload :=
  prepared ← lift (map_prepared_artifact row);
  lift (ensure_artifact_upload_matches (pu_artifact prepared) a require_event_id);;
  db ← gets id;
  lift (if retained then collection_validate (pu_artifact prepared) db else Ok tt);;
  mret prepared.
Definition expected_staging_key (input : runner_event_input) : string :=
  "staging/corps/" +:+ uuid_to_string (re_corp_id input) +:+ "/" +:+ uuid_to_string (re_event_id input).
Definition same_digest (corp_id run_id : uuid) (a : stored_artifact) (row : upload_row) : bool :=
  let e := ur_artifact row in
  (sa_corp_id e =? corp_id)%N && (sa_run_id e =? run_id)%N && seqb (sa_artifact_role e) (sa_artifact_role a)
  && seqb (sa_sha256 e) (sa_sha256 a).
Definition prepare_artifact_upload (now : timestamp) (input : runner_event_input) (a : stored_artifact)
    (staging_key : string) : txn upload_db prepared_upload :=
  role ← lift (with_context (expected_role (re_event_type input)) "unsupported artifact upload event");
  lift (bail_if (negb (seqb (sa_artifact_role a) role) || negb (sa_id a =? re_event_id input)%N
                 || negb (sa_corp_id a =? re_corp_id input)%N || negb (sa_run_id a =? re_run_id input)%N
                 || negb (sa_producer_agent_id a =? re_agent_id input)%N
                 || negb (seqb (sa_producer_runner_id a) (re_runner_id input)))
    "artifact metadata does not match the runner event");;
  lift (bail_if (negb (seqb staging_key (expected_staging_key input)))
    "artifact staging key does not match the runner event");;
  retained ← prepare_retained input a;
  db ← gets id;
  row ← lift (uploading_run (re_corp_id input) (re_run_id input) (re_agent_id input) (re_runner_id input)
                (re_assignment_token input) db);
  let '(r, t, m) := row in
  lift (ensure_not_hard_blocked now (re_corp_id input) (re_run_id input) (rn_breaker_stage r) "artifact upload" (ud_exec db));;
  lift (bail_if (negb (sa_task_id a =? rb_task (rn_binding r))%N) "artifact task does not match the active run");;
  match scoped_row (re_corp_id input) (sa_id a) db with
  | Some row => reuse_artifact row a true retained
  | None =>
      match row_where (same_digest (re_corp_id input) (re_run_id input) a) db with
      | Some row => reuse_artifact row a false retained
      | None => insert_artifact now a staging_key
      end
  end.

(** ** Finishing a row *)
Definition ready_event (a : stored_artifact) (mission_id room_id : uuid) : new_event :=
  correlated (Some mission_id) (at_version (Some room_id) 1
    (new_event_of (sa_corp_id a) None
       (if seqb (sa_artifact_role a) "source_deliverable" then "run.deliverable" else "run.artifact") "run" (sa_run_id a)
       ("artifact:" +:+ uuid_to_string (sa_id a) +:+ ":ready")
       (json_object
          [("artifact_id", json_uuid (sa_id a)); ("uri", JStr (sa_uri a)); ("sha256", JStr (sa_sha256 a));
           ("bytes", JInt (sa_bytes a)); ("media_type", JStr (sa_media_type a));
           ("artifact_role", JStr (sa_artifact_role a)); ("file_name", JStr (sa_file_name a));
           ("metadata", sa_metadata a); ("producer_agent_id", json_uuid (sa_producer_agent_id a));
           ("producer_runner_id", JStr (sa_producer_runner_id a)); ("verifier", JStr (sa_verifier a));
           ("retention_until", JStr (timestamp_rfc3339 (sa_retention_until a)));
           ("provenance_signature", JStr (sa_provenance_signature a))]))).
Definition normalize_artifact_rejection_reason (reason : string) : string :=
  normalize_bounded_failure_reason reason "artifact finalization failed permanently".
Definition reject_row (id : uuid) (reason : string) (db : upload_db) : upload_db :=
  on_columns (alter (λ c, UploadColumns (uc_staging_key c) (Some (normalize_artifact_rejection_reason reason))
                            (uc_finalized_at c)) id) (set_status id "rejected" db).
(** [reject_tx] *)
Definition reject_retained (corp_id artifact_id : uuid) (error : string) (db : upload_db) : upload_db :=
  match scoped_row corp_id artifact_id db with
  | Some row => if seqb (ur_status row) "staged" then reject_row artifact_id error db else db
  | None => db
  end.

(** The columns of a deliverable, and the constraints of its table. *)
Definition deliverable_text (key message : string) (a : stored_artifact) : result string :=
  with_context (get key (sa_metadata a) ≫= as_str) ("source deliverable omitted " +:+ message).
Definition deliverable_columns (now : timestamp) (a : stored_artifact) : result x_deliverable :=
  form ← deliverable_text "form" "form" a;
  verification_sha256 ← deliverable_text "verification_sha256" "verification digest" a;
  base_commit ← deliverable_text "base_commit" "base commit" a;
  let head_commit := get "head_commit" (sa_metadata a) ≫= as_str in
  branch ← deliverable_text "branch" "branch" a;
  integration_state ← deliverable_text "integration_state" "integration state" a;
  Ok (XDeliverable (sa_id a) (sa_run_id a) (sa_task_id a) (sa_corp_id a) (sa_id a) form branch base_commit head_commit
        verification_sha256 integration_state now).
Definition commit_lengths : list Z := seqZ 40 25.
Definition deliverable_constraints (file_name : string) (d : x_deliverable) : result unit :=
  bail_if (negb (mem (ExecTables.sd_form d) ["commit_branch"; "patch"; "archive"; "typed_artifact_set"; "review_only_report"]
                 && in_range 1 255 (char_length file_name) && hex_digest (ExecTables.sd_verification_sha256 d) [64%Z]
                 && hex_digest (ExecTables.sd_base_commit d) commit_lengths
                 && from_option (λ c, hex_digest c commit_lengths) true (sd_head_commit d)
                 && in_range 1 512 (char_length (ExecTables.sd_branch d))
                 && mem (sd_integration_state d) ["not_applicable"; "ready_for_review"; "published"; "integrated"]))
    "new row violates check constraint".
(** INSERT .. ON CONFLICT (run_id) DO NOTHING *)
Definition insert_deliverable (now : timestamp) (a : stored_artifact) : txn upload_db unit :=
  d ← lift (deliverable_columns now a);
  lift (deliverable_constraints (sa_file_name a) d);;
  rows ← gets (λ db, si_deliverables (x_side (ud_exec db)));
  if existsb (λ e, sd_run e =? sd_run d)%N rows then mret tt
  else
    lift (bail_if (existsb (λ e, (sd_id e =? sd_id d)%N || (sd_artifact e =? sd_artifact d)%N) rows) duplicate_key);;
    modify (λ db, let db := on_upload_exec (on_deliverables (λ l, l ++ [d])) db in
      UploadDb (ud_handoff db) (ud_columns db) (ud_run_uris db)
        (<[sd_id d := sa_file_name a]> (ud_deliverable_files db))).
Definition record_deliverable (now : timestamp) (a : stored_artifact) : txn upload_db unit :=
  insert_deliverable now a;;
  modify (on_upload_exec (update_run (sa_run_id a) (set_rn_deliverable_sha256 (Some (sa_sha256 a))))).
Definition record_evidence (a : stored_artifact) (db : upload_db) : upload_db :=
  let db := on_handoff (λ h, HandoffDb (update_run (sa_run_id a) (set_rn_artifact (Some (sa_id a))) (hd_exec h)) (hd_files h)
              (<[sa_run_id a := (sa_sha256 a, sa_media_type a, sa_provenance_signature a)]> (hd_run_evidence h))) db in
  UploadDb (ud_handoff db) (ud_columns db) (<[sa_run_id a := sa_uri a]> (ud_run_uris db)) (ud_deliverable_files db).
Definition start_verification (run_id task_id agent_id : uuid) (db : exec_db) : exec_db :=
  update_agent agent_id (λ a, set_agent_run None (set_agent_desk AgentStatus.Reviewing (Some "review") a))
    (update_task task_id (set_ta_status TaskStatus.Review)
       (update_run run_id (set_rn_status RunStatus.Verifying) db)).
Definition finish_artifact (now : timestamp) (a : stored_artifact) (r : x_run) (t : x_task) (m : x_mission) :
    txn upload_db new_event :=
  event ← append_new_event (ready_event a (ta_mission t) (mi_room m)) "artifact finalization event unexpectedly existed";
  modify (λ db, on_columns (alter (λ c, UploadColumns (uc_staging_key c) None (Some now)) (sa_id a))
                  (set_status (sa_id a) "ready" db));;
  (if seqb (sa_artifact_role a) "source_deliverable" then record_deliverable now a else modify (record_evidence a));;
  (if run_active (rn_status r) then
     modify (on_upload_exec (start_verification (sa_run_id a) (sa_task_id a) (rb_agent (rn_binding r))))
   else mret tt);;
  mret event.
(** The answer [Err] inside is committed: the row was rejected. *)
Definition finalize_artifact_upload (now : timestamp) (corp_id artifact_id : uuid) :
    txn upload_db (result (option new_event)) :=
  db ← gets id;
  row ← lift (with_context (scoped_row corp_id artifact_id db) "staged artifact not found");
  let a := ur_artifact row in
  match fence_artifact corp_id (sa_run_id a) (sa_artifact_role a) (sa_metadata a) db with
  | Err e => modify (reject_retained corp_id artifact_id e);; mret (Err e)
  | Ok retained =>
      run ← lift (with_context (run_of (ud_exec db) (sa_run_id a)) "staged artifact run not found");
      lift (bail_if (negb (rb_corp (rn_binding run) =? corp_id)%N) "staged artifact run not found");;
      joined ← lift (with_context
        (t ← task_of (ud_exec db) (sa_task_id a); m ← mission_of (ud_exec db) (ta_mission t); Some (t, m))
        "staged artifact not found");
      let '(t, m) := joined in
      lift (bail_if (negb (mem (ur_status row) ["staged"; "ready"]))
        ("artifact cannot finalize from status " +:+ ur_status row));;
      match (if retained then collection_validate a db
             else bail_if (is_some (get retained_grant_key (sa_metadata a)))
                    "retained provider receipt artifact scope changed before finalization") with
      | Err e => modify (reject_retained corp_id artifact_id e);; mret (Err e)
      | Ok _ =>
          if seqb (ur_status row) "ready" then mret (Ok None)
          else event ← finish_artifact now a run t m; mret (Ok (Some event))
      end
  end.

(** ** Giving a row up *)
Definition reject_staged_artifact (corp_id artifact_id : uuid) (reason : string) : txn upload_db (option string) :=
  row ← gets (scoped_row corp_id artifact_id);
  match row with
  | Some row =>
      if seqb (ur_status row) "staged" then
        let staging_key := uc_staging_key (ur_columns row) in
        (if is_some staging_key then modify (reject_row artifact_id reason) else mret tt);;
        mret staging_key
      else mret None
  | None => mret None
  end.
Definition abandon_staged_artifact (corp_id artifact_id : uuid) : txn upload_db (option string) :=
  row ← gets (scoped_row corp_id artifact_id);
  match row with
  | Some row =>
      if seqb (ur_status row) "staged" then
        modify (λ db, on_columns (delete artifact_id)
          (on_handoff (λ h, HandoffDb (on_artifacts (delete artifact_id) (hd_exec h)) (delete artifact_id (hd_files h))
                              (hd_run_evidence h)) db));;
        mret (uc_staging_key (ur_columns row))
      else mret None
  | None => mret None
  end.
Definition artifact_staging_key_is_reserved (staging_key : string) (db : upload_db) : bool :=
  is_some (row_where (λ row, sql_eq (uc_staging_key (ur_columns row)) (Some staging_key)) db).
Definition clear_artifact_staging_key (corp_id artifact_id : uuid) (staging_key : string) : txn upload_db bool :=
  row ← gets (scoped_row corp_id artifact_id);
  let clears := match row with
    | Some row => sql_eq (uc_staging_key (ur_columns row)) (Some staging_key) && negb (seqb (ur_status row) "staged")
    | None => false
    end in
  (if clears then
     modify (on_columns (alter (λ c, UploadColumns None (uc_rejection_reason c) (uc_finalized_at c)) artifact_id))
   else mret tt);;
  mret clears.

(** ** Reading rows *)
Definition older_row (x y : upload_row) : bool :=
  (ur_created_at x <? ur_created_at y)%Z
  || ((ur_created_at x =? ur_created_at y)%Z && (sa_id (ur_artifact x) <=? sa_id (ur_artifact y))%N).
Definition pending_artifact_uploads (limit : Z) (db : upload_db) : result (list prepared_upload) :=
  bail_if (negb (in_range 1 1000 limit)) "artifact recovery limit must be between 1 and 1000";;
  collect map_prepared_artifact
    (take (Z.to_nat limit) (sort_by older_row
       (List.filter (λ row, seqb (ur_status row) "staged" || is_some (uc_staging_key (ur_columns row))) (artifact_rows db)))).
Definition artifact_for_download (corp_id artifact_id actor_id : uuid) (db : upload_db) : option stored_artifact :=
  row ← scoped_row corp_id artifact_id db;
  t ← task_of (ud_exec db) (sa_task_id (ur_artifact row));
  m ← mission_of (ud_exec db) (ta_mission t);
  if bool_decide ((mi_room m, actor_id) ∈ ba_memberships (x_base (ud_exec db))) && seqb (ur_status row) "ready"
  then Some (ur_artifact row) else None.
Definition ready_artifact_for_run_role_digest (corp_id run_id : uuid) (artifact_role sha256 : string) (db : upload_db) :
    option stored_artifact :=
  ur_artifact <$> row_where (λ row, let a := ur_artifact row in
    (sa_corp_id a =? corp_id)%N && (sa_run_id a =? run_id)%N && seqb (sa_artifact_role a) artifact_role
    && seqb (sa_sha256 a) sha256 && seqb (ur_status row) "ready") db.
End uploads.
