(* ===== verification/ArtifactIngest.v ===== *)
(** * Taking uploads in (crates/crony-server/src/main.rs)

    [process_runner_event] takes one upload from its runner to its ready row, and
    [recover_pending_artifacts] finishes, rejects or releases what earlier
    uploads left behind.  Both run between awaits (Workers.v): every access to
    the store or to the objects is one step of its own, and may fail. *)
From S2P Require Import Prelude Text Json Domain Planning Deliverable DependencySource FactoryPolicy Store FactoryItems Breaker ExecTables Checkpoint RunFailure RunEvents Dispatch Polling GithubResponse Access Artifacts Handoff Workers ArtifactUploads.

Record upload_server := UploadServer { us_db : upload_db; us_objects : artifact_store }.

(** What an upload draws from the world: clocks, and which accesses fail. *)
Record upload_turn := UploadTurn {
  ut_env : exec_env; ut_now : timestamp; ut_retention_days : Z; ut_write : object_faults; ut_finalize : object_faults;
  ut_discard : object_faults }.
(** What a pass draws; its accesses fail by staging key. *)
Record recovery_turn := RecoveryTurn {
  rt_now : timestamp; rt_grace : Z; rt_list : option string; rt_faults : string → object_faults }.
Definition retention_period (n : Z) : Z := seconds (86400 * n).

(** [artifact_error_is_permanent], [artifact_error_is_missing_objects]: the type of an error *)
Inductive artifact_failure := TransientFailure | PermanentFailure | MissingObjects.
Definition is_permanent (f : artifact_failure) : bool :=
  match f with TransientFailure => false | PermanentFailure | MissingObjects => true end.
Definition is_missing_objects (f : artifact_failure) : bool := match f with MissingObjects => true | _ => false end.

Section ingest.
Context `{Serde} `{ExecSerde} `{Envelopes} `{JsonReader} `{ObjectFormats} `{Collections}.
Abbreviation task := (worker upload_server).

(** ** Accesses *)
Definition store_access {A} (f : txn upload_db A) : task (result A) :=
  access (λ s, let '(r, db) := run_txn f (us_db s) in (r, UploadServer db (us_objects s))).
Definition store_read {A} (f : upload_db → result A) : task (result A) := store_access (λ db, lift (f db) db).
Definition object_access {A} (f : txn artifact_store A) : task (result A) :=
  access (λ s, let '(r, objects) := run_txn f (us_objects s) in (r, UploadServer (us_db s) objects)).
(** The signing key and the size limit never change. *)
Definition configuration : task artifact_store := access (λ s, (us_objects s, s)).

(** The type of the error a failing [finalize_staged] has. *)
Definition failure_of (faults : object_faults) (a : stored_artifact) (staging_key : string) (s : artifact_store) :
    artifact_failure :=
  if negb (is_ok (verify_signature s a)) then PermanentFailure
  else if is_some (of_get faults) then TransientFailure
  else match ao_objects s !! staging_key with
    | Some bytes => if is_ok (verify_artifact_bytes a bytes "staged artifact") then TransientFailure else PermanentFailure
    | None =>
        if is_some (of_get_final faults) then TransientFailure
        else match ao_objects s !! sa_object_key a with Some _ => PermanentFailure | None => MissingObjects end
    end.
Definition finalize_access (faults : object_faults) (a : stored_artifact) (staging_key : string) :
    task (option (string * artifact_failure)) :=
  access (λ s, let '(r, objects) := run_txn (finalize_staged faults a staging_key) (us_objects s) in
    (match r with Ok _ => None | Err e => Some (e, failure_of faults a staging_key (us_objects s)) end,
     UploadServer (us_db s) objects)).

(** ** Cleaning up *)
Definition discard_and_clear (faults : object_faults) (corp_id artifact_id : uuid) (staging_key : string) : task unit :=
  discarded ← object_access (discard_staged faults staging_key);
  if is_ok discarded then ignore (store_access (clear_artifact_staging_key corp_id artifact_id staging_key)) else Done tt.
Definition cleanup_prepared_artifact (faults : object_faults) (p : prepared_upload) : task unit :=
  match pu_staging_key p with
  | Some staging_key => discard_and_clear faults (sa_corp_id (pu_artifact p)) (sa_id (pu_artifact p)) staging_key
  | None => Done tt
  end.
(** A permanent failure rejects the row and drops its staging object. *)
Definition reject_upload (faults : object_faults) (a : stored_artifact) (error : string) : task (result unit) :=
  attempt (store_access (reject_staged_artifact (sa_corp_id a) (sa_id a) error)) (λ cleanup_key,
    match cleanup_key with
    | Some key => discard_and_clear faults (sa_corp_id a) (sa_id a) key;; Done (Ok tt)
    | None => Done (Ok tt)
    end).

(** ** One upload *)
Definition is_upload (event_type : string) : bool := mem event_type ["run.artifact_upload"; "run.deliverable_upload"].
Definition outcome_of (event : option new_event) : runner_event_outcome := RunnerEventOutcome event [].
Definition identity_of (input : runner_event_input) (context : artifact_context_row) : artifact_identity :=
  ArtifactIdentity (re_event_id input) (re_corp_id input) (ac_task_id context) (re_run_id input) (re_agent_id input)
    (re_runner_id input).
Definition ingest_prepared (t : upload_turn) (staged : staged_artifact) (p : prepared_upload) :
    task (result runner_event_outcome) :=
  let a := pu_artifact p in
  if seqb (pu_status p) "ready" then
    cleanup_prepared_artifact (ut_discard t) p;; Done (Ok (outcome_of None))
  else if seqb (pu_status p) "rejected" then
    cleanup_prepared_artifact (ut_discard t) p;; Done (Err "artifact upload was previously rejected")
  else if seqb (pu_status p) "staged" then
    match pu_staging_key p with
    | None => Done (Err "staged artifact omitted its staging key")
    | Some staging_key =>
        attempt (object_access (write_staged (ut_write t) (StagedArtifact a staging_key (st_bytes staged)))) (λ _,
          failure ← finalize_access (ut_finalize t) a staging_key;
          match failure with
          | Some (error, failure) =>
              if is_permanent failure then
                rejected ← reject_upload (ut_discard t) a error;
                match rejected with
                | Ok _ => Done (Err error)
                | Err e => Done (Err ("artifact rejection persistence also failed: " +:+ e))
                end
              else Done (Err error)
          | None =>
              attempt (store_access (finalize_artifact_upload (xe_now (ut_env t)) (sa_corp_id a) (sa_id a))) (λ event,
                match event with
                | Err e => Done (Err e)
                | Ok event => cleanup_prepared_artifact (ut_discard t) p;; Done (Ok (outcome_of event))
                end)
          end)
    end
  else Done (Err ("unknown prepared artifact status " +:+ pu_status p)).
Definition process_upload (t : upload_turn) (input : runner_event_input) : task (result runner_event_outcome) :=
  attempt (store_access (artifact_context (re_corp_id input) (re_run_id input) (re_agent_id input) (re_runner_id input)
                           (re_assignment_token input))) (λ context,
  attempt (store_access (retained_provider_receipt_grant_for_upload input)) (λ grant,
  let retention_until := (ut_now t + retention_period (ut_retention_days t))%Z in
  objects ← configuration;
  attempt (Done (match grant with
                 | Some grant => prepare_retained_provider_receipt_staging objects (identity_of input context)
                                   (re_payload input) retention_until grant
                 | None => prepare_staging objects (identity_of input context) (re_payload input) retention_until
                 end)) (λ staged,
  attempt (store_access (prepare_artifact_upload (xe_now (ut_env t)) input (st_artifact staged) (st_staging_key staged)))
    (ingest_prepared t staged)))).
Definition process_runner_event (t : upload_turn) (input : runner_event_input) : task (result runner_event_outcome) :=
  if negb (is_upload (re_event_type input)) then
    store_access (λ db, match apply_runner_event (ut_env t) input (ud_exec db) with
                        | Ok (outcome, e) => Ok (outcome, on_upload_exec (λ _, e) db)
                        | Err error => Err error
                        end)
  else process_upload t input.

(** ** A recovery pass *)
Definition discard_orphan (t : recovery_turn) (known : list string) (staging_key : string) : task unit :=
  if mem staging_key known then Done tt
  else
    reserved ← store_read (λ db, Ok (artifact_staging_key_is_reserved staging_key db));
    match reserved with
    | Ok false => ignore (object_access (discard_staged (rt_faults t staging_key) staging_key))
    | _ => Done tt
    end.
Definition discard_orphans (t : recovery_turn) (pending : list prepared_upload) : task unit :=
  keys ← object_access (fails_with (rt_list t);; gets staged_keys);
  match keys with
  | Ok keys => visit_each (discard_orphan t (omap pu_staging_key pending)) keys
  | Err _ => Done tt
  end.
Definition release_upload (faults : object_faults) (a : stored_artifact) : task unit :=
  abandoned ← store_access (abandon_staged_artifact (sa_corp_id a) (sa_id a));
  match abandoned with
  | Ok (Some key) => ignore (object_access (discard_staged faults key))
  | _ => Done tt
  end.
(** One pending row: the events it leads to; [Err] ends the pass. *)
Definition recover_one (t : recovery_turn) (p : prepared_upload) : task (result (list new_event)) :=
  let a := pu_artifact p in
  if seqb (pu_status p) "staged" && (rt_now t - rt_grace t <? pu_created_at p)%Z then Done (Ok [])
  else if seqb (pu_status p) "staged" then
    match pu_staging_key p with
    | None => Done (Err "staged artifact omitted its staging key")
    | Some staging_key =>
        let faults := rt_faults t staging_key in
        failure ← finalize_access faults a staging_key;
        match failure with
        | Some (error, failure) =>
            (if is_missing_objects failure then release_upload faults a
             else if is_permanent failure then ignore (reject_upload faults a error)
             else Done tt);;
            Done (Ok [])
        | None =>
            event ← store_access (finalize_artifact_upload (rt_now t) (sa_corp_id a) (sa_id a));
            match event with
            | Ok (Ok event) => cleanup_prepared_artifact faults p;; Done (Ok (option_list event))
            | Ok (Err _) | Err _ => Done (Ok [])
            end
        end
    end
  else if mem (pu_status p) ["ready"; "rejected"] then
    cleanup_prepared_artifact (from_option (rt_faults t) no_faults (pu_staging_key p)) p;; Done (Ok [])
  else Done (Ok []).
Fixpoint recover_each (t : recovery_turn) (pending : list prepared_upload) : task (result (list new_event)) :=
  match pending with
  | [] => Done (Ok [])
  | p :: pending =>
      attempt (recover_one t p) (λ events,
        attempt (recover_each t pending) (λ later, Done (Ok (events ++ later))))
  end.
Definition recover_pending_artifacts (t : recovery_turn) : task (result (list new_event)) :=
  attempt (store_read (pending_artifact_uploads 500)) (λ pending,
    discard_orphans t pending;;
    recover_each t pending).
End ingest.
