(* ===== verification/ArtifactIngestSafety.v ===== *)
(** * Ready artifacts are stored

    However uploads, recovery passes and everything else the server does
    interleave, and wherever it dies, an artifact that can be downloaded is at
    its content address and reads back as it was uploaded
    ([downloads_are_the_uploads]). *)
From S2P Require Import Prelude Text Json Domain Planning Deliverable DependencySource FactoryPolicy Store FactoryItems Breaker ExecTables Checkpoint RunFailure RunEvents Dispatch Decisions ExecSpec EventSteps AttemptSteps Execution Polling GithubResponse Access Artifacts ArtifactSafety Handoff Workers ArtifactUploads ArtifactIngest.

Section safety.
Context `{Serde} `{ExecSerde} `{Envelopes} `{JsonReader} `{ObjectFormats} `{Collections}.

(** The event id of an upload is the runner's name for it: [upload_of] says for which
    event it stands. *)
Context (upload_of : uuid → runner_event_input) (config : artifact_store).

(** ** Uploads *)

(** What staging makes of an upload, whenever it is staged. *)
Definition uploads (staged : staged_artifact) : Prop :=
  ∃ identity retention_until retained,
    re_corp_id (upload_of (ai_id identity)) = ai_corp_id identity ∧
    prepare_staging_with_receipt config identity (re_payload (upload_of (ai_id identity))) retention_until retained
      = Ok staged.
Definition known (a : stored_artifact) : Prop := ∃ staged, uploads staged ∧ a = st_artifact staged.
(** The bytes of an artifact are at its content address. *)
Definition stored (a : stored_artifact) (s : artifact_store) : Prop :=
  ∃ bytes, ao_objects s !! sa_object_key a = Some bytes ∧ verify_artifact_bytes a bytes "stored artifact" = Ok tt.
Definition stages (key : string) : Prop := starts_with "staging/" key = true.

Lemma stage_shape identity payload retention retained staged :
  prepare_staging_with_receipt config identity payload retention retained = Ok staged →
  ∃ bytes sha declared media role file metadata,
    uploaded_bytes (ao_max_bytes config) payload = Ok (bytes, sha) ∧
    get "media_type" payload ≫= as_str = Some declared ∧ normalize_and_verify_media_type declared bytes = Ok media ∧
    ∀ retention', ∃ signature,
      let a := StoredArtifact (ai_id identity) (ai_corp_id identity) (ai_task_id identity) (ai_run_id identity)
        (ai_agent_id identity) (ai_runner_id identity) artifact_verifier (content_key (ai_corp_id identity) sha)
        ("/api/corps/" +:+ uuid_to_string (ai_corp_id identity) +:+ "/artifacts/" +:+ uuid_to_string (ai_id identity))
        sha media (str_len bytes) role file metadata signature retention' in
      (retention' = retention → staged = StagedArtifact a (staging_key_of identity) bytes) ∧
      (micros retention' = micros retention → signature = sa_provenance_signature (st_artifact staged)) ∧
      prepare_staging_with_receipt config identity payload retention' retained
        = Ok (StagedArtifact a (staging_key_of identity) bytes).
Proof.
  unfold prepare_staging_with_receipt. intros Hp.
  apply bind_ok in Hp as ([] & E1 & Hp). apply bind_ok in Hp as ([bytes sha] & Hb & Hp).
  apply bind_ok in Hp as (declared & Hd & Hp). apply bind_ok in Hp as (media & Hm & Hp).
  apply bind_ok in Hp as ([] & E2 & Hp). apply bind_ok in Hp as ([] & E3 & Hp).
  apply bind_ok in Hp as (metadata & Hmeta & Hp). apply bind_ok in Hp as ([] & E4 & [= <-]).
  apply with_context_ok in Hd as Hd'. do 7 eexists. split; [exact Hb |]. split; [exact Hd' |]. split; [exact Hm |].
  intros retention'. eexists. cbv zeta. split; [by intros -> |]. split.
  2:{ apply bind_ok. exists tt. split; [exact E1 |]. apply bind_ok. exists (bytes, sha). split; [exact Hb |].
      apply bind_ok. exists declared. split; [exact Hd |]. apply bind_ok. exists media. split; [exact Hm |].
      apply bind_ok. exists tt. split; [exact E2 |]. apply bind_ok. exists tt. split; [exact E3 |].
      apply bind_ok. exists metadata. split; [exact Hmeta |]. apply bind_ok. exists tt. by split; [exact E4 |]. }
  intros Hr. unfold sign, provenance_message. simpl. by rewrite Hr.
Qed.

(** Two stagings of one upload differ in what the check of the bytes does not look at. *)
Definition same_content (a a' : stored_artifact) : Prop :=
  sa_object_key a = sa_object_key a' ∧ sa_sha256 a = sa_sha256 a' ∧ sa_bytes a = sa_bytes a' ∧
  sa_media_type a = sa_media_type a'.
Lemma verify_same_content a a' bytes label : same_content a a' →
  verify_artifact_bytes a bytes label = verify_artifact_bytes a' bytes label.
Proof. unfold verify_artifact_bytes. intros (_ & -> & -> & ->). done. Qed.
Lemma stored_same_content a a' s : same_content a a' → stored a s → stored a' s.
Proof.
  intros Hc (bytes & Hk & Hv). exists bytes. rewrite <-(verify_same_content _ _ _ _ Hc). by rewrite <-(proj1 Hc).
Qed.
Lemma uploads_agree staged staged' : uploads staged → uploads staged' →
  sa_id (st_artifact staged) = sa_id (st_artifact staged') →
  same_content (st_artifact staged) (st_artifact staged') ∧ st_bytes staged = st_bytes staged'.
Proof.
  intros (i & r & g & Hc & Hp) (i' & r' & g' & Hc' & Hp').
  apply stage_shape in Hp as (b & sha & d & media & role & file & meta & Hb & Hd & Hm & Hp).
  apply stage_shape in Hp' as (b' & sha' & d' & media' & role' & file' & meta' & Hb' & Hd' & Hm' & Hp').
  destruct (Hp r) as (sig & Hs & _). destruct (Hp' r') as (sig' & Hs' & _).
  rewrite (Hs eq_refl), (Hs' eq_refl). simpl. intros E.
  rewrite <-E in *. rewrite Hb in Hb'. injection Hb' as <- <-. rewrite Hd in Hd'. injection Hd' as <-.
  rewrite Hm in Hm'. injection Hm' as <-. rewrite Hc in Hc'. unfold same_content. simpl. by rewrite Hc'.
Qed.
Lemma uploads_prepared staged : uploads staged → prepared config staged.
Proof. intros (i & r & g & _ & Hp). by exists i, (re_payload (upload_of (ai_id i))), r, g. Qed.
Lemma uploads_stage staged : uploads staged → stages (st_staging_key staged).
Proof. by intros (i & -> & _)%uploads_prepared%prepared_spec. Qed.
Lemma not_content_key key corp sha : stages key → content_key corp sha ≠ key.
Proof. by intros Hk <-. Qed.
(** What the table keeps of an upload is a staging of it too. *)
Lemma uploads_columns staged now : uploads staged → let a := st_artifact staged in ∃ staged', uploads staged' ∧
  st_artifact staged' = map_stored_artifact (sa_id a) (sa_object_key a, sa_file_name a) (artifact_columns now a) ∧
  st_staging_key staged' = st_staging_key staged.
Proof.
  intros (i & r & g & Hc & Hp). pose proof Hp as Hp0.
  apply stage_shape in Hp0 as (b & sha & d & media & role & file & meta & Hb & Hd & Hm & Hall).
  destruct (Hall r) as (sig & Hs & _). specialize (Hs eq_refl) as ->. destruct (Hall (to_timestamptz r)) as (sig' & _ & Hsig' & Hp').
  exists (StagedArtifact (StoredArtifact (ai_id i) (ai_corp_id i) (ai_task_id i) (ai_run_id i) (ai_agent_id i)
    (ai_runner_id i) artifact_verifier (content_key (ai_corp_id i) sha)
    ("/api/corps/" +:+ uuid_to_string (ai_corp_id i) +:+ "/artifacts/" +:+ uuid_to_string (ai_id i))
    sha media (str_len b) role file meta sig' (to_timestamptz r)) (staging_key_of i) b).
  simpl. split; [by exists i, (to_timestamptz r), g |]. split; [| done].
  unfold map_stored_artifact. simpl. f_equal. rewrite Hsig'; [done |].
  unfold to_timestamptz, micros. by rewrite Z.div_mul.
Qed.

(** ** The objects *)
Section objects.
Context `{!EnvelopeLaws}
  (no_collision : ∀ staged b, uploads staged → sha256_hex b = sha256_hex (st_bytes staged) → b = st_bytes staged).

(** Steps that keep what is stored. *)
Definition keeps (s s' : artifact_store) : Prop := same_config s s' ∧ ∀ a, known a → stored a s → stored a s'.
Lemma keeps_refl s : keeps s s.
Proof. by split. Qed.
Lemma keeps_key f key s : stages key → (∀ m k, k ≠ key → f m !! k = m !! k) → keeps s (on_objects f s).
Proof.
  intros Hk Hf. split; [done |]. intros a (staged & Hu & ->) (bytes & Hb & Hv). exists bytes. split; [| done]. simpl.
  rewrite Hf; [done |]. apply uploads_prepared, prepared_spec in Hu as (i & _ & -> & _). by apply not_content_key.
Qed.
Lemma write_keeps faults staged s : stages (st_staging_key staged) → keeps s (run_txn (write_staged faults staged) s).2.
Proof.
  intros Hk. unfold run_txn. destruct (write_staged faults staged s) as [[u s']|] eqn:E; [| apply keeps_refl].
  apply write_staged_ok in E as [_ ->]. apply (keeps_key _ _ _ Hk). intros m k Hne. by rewrite lookup_insert_ne.
Qed.
Lemma discard_keeps faults key s : stages key → keeps s (run_txn (discard_staged faults key) s).2.
Proof.
  intros Hk. unfold run_txn. destruct (discard_staged faults key s) as [[u s']|] eqn:E; [| apply keeps_refl].
  apply discard_staged_ok in E as ->. apply (keeps_key _ _ _ Hk). intros m k Hne. by rewrite lookup_delete_ne.
Qed.
Lemma known_bytes a bytes label staged : uploads staged → a = st_artifact staged →
  verify_artifact_bytes a bytes label = Ok tt → bytes = st_bytes staged.
Proof using no_collision.
  intros Hu -> Hv%verified_bytes. apply no_collision; [done |].
  apply uploads_prepared, prepared_spec in Hu as (i & _ & _ & Hsha & _). by rewrite Hv, Hsha.
Qed.
Lemma finalize_keeps faults a key s : known a → keeps s (run_txn (finalize_staged faults a key) s).2 ∧
  (is_ok (finalize_staged faults a key s) = true → stored a (run_txn (finalize_staged faults a key) s).2).
Proof using All.
  intros (staged & Hu & Ha). unfold run_txn. destruct (finalize_staged faults a key s) as [[u s']|] eqn:E; simpl.
  2:{ split; [apply keeps_refl | done]. }
  apply finalize_staged_ok in E as (_ & bytes & Hv & [-> | [-> Hthere]]).
  - split; [split; [done |] | intros _; exists bytes; simpl; by rewrite lookup_insert_eq].
    intros a' (staged' & Hu' & ->) (b & Hb & Hvb). unfold stored. simpl.
    destruct (decide (sa_object_key a = sa_object_key (st_artifact staged'))) as [Ek | Ek].
    2:{ exists b. split; [| done]. by rewrite lookup_insert_ne. }
    exists bytes. split; [by rewrite Ek, lookup_insert_eq |].
    assert (bytes = b) as <-; [| done].
    rewrite (known_bytes _ _ _ _ Hu' eq_refl Hvb). apply (no_collision staged'); [done |].
    apply verified_bytes in Hv. rewrite Hv, Ha. rewrite Ha in Ek.
    apply uploads_prepared, prepared_spec in Hu as (i & _ & Hkey & Hsha & _).
    apply uploads_prepared, prepared_spec in Hu' as (i' & _ & Hkey' & Hsha' & _).
    rewrite <-Hsha'. rewrite Hkey, Hkey' in Ek. eapply content_key_inj; [| exact Ek].
    by rewrite Hsha, Hsha', !sha_length.
  - split; [apply keeps_refl |]. intros _. by exists bytes.
Qed.
End objects.

(** ** The rows *)
Definition good (s : artifact_store) (row : upload_row) : Prop :=
  (∃ staged, uploads staged ∧ st_artifact staged = ur_artifact row ∧
     ∀ key, uc_staging_key (ur_columns row) = Some key → key = st_staging_key staged) ∧
  (ur_status row = "ready" → stored (ur_artifact row) s).
Definition rows_good (s : artifact_store) (db : upload_db) : Prop := ∀ id row, row_of db id = Some row → good s row.

(** Rows keep their content; only those of [P] become ready. *)
Definition rows_step (P : uuid → Prop) (db db' : upload_db) : Prop :=
  ∀ id row', row_of db' id = Some row' → ∃ row, row_of db id = Some row ∧ ur_artifact row' = ur_artifact row ∧
    (∀ key, uc_staging_key (ur_columns row') = Some key → uc_staging_key (ur_columns row) = Some key) ∧
    (ur_status row' = "ready" → ur_status row = "ready" ∨ P id).
#[local] Instance rows_step_preorder P : PreOrder (rows_step P).
Proof.
  split; [intros db id row Hr; exists row; naive_solver |]. intros d1 d2 d3 H12 H23 id r3 Hr3.
  destruct (H23 _ _ Hr3) as (r2 & Hr2 & A2 & K2 & S2). destruct (H12 _ _ Hr2) as (r1 & Hr1 & A1 & K1 & S1).
  exists r1. split; [done |]. split; [by rewrite A2 |]. split; [by auto |]. intros Hs. destruct (S2 Hs); auto.
Qed.
Lemma same_rows P db db' : (∀ id, row_of db' id = row_of db id) → rows_step P db db'.
Proof. intros Hs id row Hr. rewrite Hs in Hr. exists row. naive_solver. Qed.
Lemma step_good P s db db' : rows_step P db db' → rows_good s db →
  (∀ id row, P id → row_of db id = Some row → stored (ur_artifact row) s) → rows_good s db'.
Proof.
  intros Hstep Hg HP id row' (row & Hr & Ha & Hk & Hst)%Hstep. destruct (Hg _ _ Hr) as [(staged & Hu & Es & Hkey) Hready].
  split; [exists staged; rewrite Ha; by auto |]. rewrite Ha. intros [Hrow | Hid]%Hst; [by auto | by eapply HP].
Qed.
Lemma row_of_spec db id row : row_of db id = Some row ↔ ∃ a file c,
  si_artifacts (x_side (ud_exec db)) !! id = Some a ∧ hd_files (ud_handoff db) !! id = Some file ∧
  ud_columns db !! id = Some c ∧ row = UploadRow (map_stored_artifact id file a) (af_status a) (af_created_at a) c.
Proof.
  unfold row_of. rewrite bind_Some. split.
  - intros (a & Ha & Hr). apply bind_Some in Hr as (file & Hf & Hr). apply bind_Some in Hr as (c & Hc & [= <-]).
    by exists a, file, c.
  - intros (a & file & c & Ha & Hf & Hc & ->). exists a. split; [done |]. rewrite Hf. simpl. by rewrite Hc.
Qed.
Lemma row_of_id db id row : row_of db id = Some row → sa_id (ur_artifact row) = id.
Proof. by intros (a & file & c & _ & _ & _ & ->)%row_of_spec. Qed.
Lemma scoped_row_spec corp id db row : scoped_row corp id db = Some row →
  row_of db id = Some row ∧ sa_corp_id (ur_artifact row) = corp.
Proof.
  unfold scoped_row. destruct (row_of db id) as [r|]; simpl; [| done].
  destruct (N.eqb_spec (sa_corp_id (ur_artifact r)) corp); [| done]. by intros [= ->].
Qed.
Lemma artifact_rows_spec db row : row ∈ artifact_rows db → ∃ id, row_of db id = Some row.
Proof. unfold artifact_rows. intros (id & _ & Hr)%list_elem_of_omap. by exists id. Qed.

(** *** Operations on rows *)
Definition never (id : uuid) : Prop := False.
Lemma status_step (P : uuid → Prop) id status f db :
  (status = "ready" → P id) → (∀ c k, uc_staging_key (f c) = Some k → uc_staging_key c = Some k) →
  rows_step P db (on_columns (alter f id) (set_status id status db)).
Proof.
  intros Hready Hf id' row' (a & file & c & Ha & Hfile & Hc & ->)%row_of_spec. simpl in *.
  apply lookup_alter_Some in Ha as Ha'. apply lookup_alter_Some in Hc as Hc'.
  destruct Ha' as [(<- & a0 & Ha0 & ->) | [Hne Ha0]], Hc' as [(Hid & c0 & Hc0 & ->) | [Hne' Hc0]]; try done.
  - eexists. split; [apply row_of_spec; by exists a0, file, c0 |]. simpl. naive_solver.
  - eexists. split; [apply row_of_spec; by exists a, file, c |]. simpl. naive_solver.
Qed.
Lemma columns_step P id f db : (∀ c k, uc_staging_key (f c) = Some k → uc_staging_key c = Some k) →
  rows_step P db (on_columns (alter f id) db).
Proof.
  intros Hf id' row' (a & file & c & Ha & Hfile & Hc & ->)%row_of_spec. simpl in *.
  apply lookup_alter_Some in Hc as [(<- & c0 & Hc0 & ->) | [Hne Hc0]].
  - eexists. split; [apply row_of_spec; by exists a, file, c0 |]. simpl. naive_solver.
  - eexists. split; [apply row_of_spec; by exists a, file, c |]. simpl. naive_solver.
Qed.
Lemma reject_row_step P id reason db : rows_step P db (reject_row id reason db).
Proof. by apply status_step. Qed.
Lemma reject_retained_step P corp id e db : rows_step P db (reject_retained corp id e db).
Proof. unfold reject_retained. case_match; [case_match |]; try reflexivity. apply reject_row_step. Qed.
Lemma log_step P event db : rows_step P db (set_log (get_log db ++ [event]) db).
Proof. by apply same_rows. Qed.
Lemma other_step P f db : (∀ e, si_artifacts (x_side (f e)) = si_artifacts (x_side e)) → rows_step P db (on_upload_exec f db).
Proof. intros Hf. apply same_rows. intros id. unfold row_of, ud_exec. simpl. by rewrite Hf. Qed.
#[local] Hint Extern 2 (txn_within (rows_step _) (modify _)) =>
  apply within_modify; intros ?;
    first [apply reject_retained_step | apply reject_row_step | by apply other_step | by apply same_rows
          | apply columns_step; simpl; naive_solver | apply status_step; simpl; naive_solver] : within.
#[local] Hint Extern 2 (txn_within (rows_step _) (append_new_event _ _)) =>
  apply (within_append_new _); intros ?; apply log_step : within.

Lemma finalize_step now corp id db r db' : finalize_artifact_upload now corp id db = Ok (r, db') →
  rows_step (λ i, i = id) db db'.
Proof.
  unfold finalize_artifact_upload. rewrite txn_bind_ok. intros (db0 & s1 & [-> ->]%gets_ok & Hf).
  apply txn_bind_ok in Hf as (row & s1 & [Hrow%with_context_ok ->]%lift_ok & Hf).
  apply scoped_row_spec in Hrow as [Hrow%row_of_id _]. revert r db' Hf.
  match goal with |- ∀ r db', ?t ?db = _ → _ => enough (txn_within (rows_step (λ i, i = id)) t) by eauto end.
  within.
Qed.
Lemma reject_step P corp id reason : txn_within (rows_step P) (reject_staged_artifact corp id reason).
Proof. unfold reject_staged_artifact. within. Qed.
Lemma clear_step P corp id key : txn_within (rows_step P) (clear_artifact_staging_key corp id key).
Proof. unfold clear_artifact_staging_key. cbv zeta. within. Qed.
Lemma delete_step P id db : rows_step P db (on_columns (delete id)
  (on_handoff (λ h, HandoffDb (on_artifacts (delete id) (hd_exec h)) (delete id (hd_files h)) (hd_run_evidence h)) db)).
Proof.
  intros id' row (a & file & c & Ha & Hf & Hc & ->)%row_of_spec. simpl in *.
  apply lookup_delete_Some in Ha as [_ Ha], Hf as [_ Hf], Hc as [_ Hc].
  eexists. split; [apply row_of_spec; by exists a, file, c |]. naive_solver.
Qed.
Lemma abandon_step P corp id : txn_within (rows_step P) (abandon_staged_artifact corp id).
Proof. unfold abandon_staged_artifact. within. apply within_modify. intros db. apply delete_step. Qed.
Lemma retained_step P input a : txn_within (rows_step P) (prepare_retained input a).
Proof. unfold prepare_retained. within. Qed.

(** The keys these answer belong to a row. *)
Lemma staged_key_of_row s db corp id key : rows_good s db →
  (∃ row, scoped_row corp id db = Some row ∧ uc_staging_key (ur_columns row) = Some key) → stages key.
Proof.
  intros Hg (row & [Hrow _]%scoped_row_spec & Hk). destruct (Hg _ _ Hrow) as [(staged & Hu & _ & Hkey) _].
  rewrite (Hkey _ Hk). by apply uploads_stage.
Qed.
Lemma reject_answer corp id reason db key db' : reject_staged_artifact corp id reason db = Ok (Some key, db') →
  ∃ row, scoped_row corp id db = Some row ∧ uc_staging_key (ur_columns row) = Some key.
Proof.
  unfold reject_staged_artifact. rewrite txn_bind_ok. intros (row & s1 & [-> ->]%gets_ok & Hf).
  destruct (scoped_row corp id db) as [row|]; [| by apply mret_ok in Hf as [? _]]. exists row. split; [done |].
  case_match; [| by apply mret_ok in Hf as [? _]].
  apply txn_bind_ok in Hf as (u & s1 & _ & Hf). by apply mret_ok in Hf as [<- _].
Qed.
Lemma abandon_answer corp id db key db' : abandon_staged_artifact corp id db = Ok (Some key, db') →
  ∃ row, scoped_row corp id db = Some row ∧ uc_staging_key (ur_columns row) = Some key.
Proof.
  unfold abandon_staged_artifact. rewrite txn_bind_ok. intros (row & s1 & [-> ->]%gets_ok & Hf).
  destruct (scoped_row corp id db) as [row|]; [| by apply mret_ok in Hf as [? _]]. exists row. split; [done |].
  case_match; [| by apply mret_ok in Hf as [? _]].
  apply txn_bind_ok in Hf as (u & s1 & _ & Hf). by apply mret_ok in Hf as [<- _].
Qed.

(** *** Reserving *)
Definition known_upload (p : prepared_upload) : Prop := ∃ staged, uploads staged ∧ st_artifact staged = pu_artifact p ∧
  ∀ key, pu_staging_key p = Some key → key = st_staging_key staged.
Lemma map_prepared_known s row p : good s row → map_prepared_artifact row = Ok p → known_upload p.
Proof. intros [Hk _]. unfold map_prepared_artifact. rewrite bind_ok. by intros (u & _ & [= <-]). Qed.
Lemma reuse_known s row a req ret db p db' : good s row → reuse_artifact row a req ret db = Ok (p, db') →
  db' = db ∧ known_upload p.
Proof.
  intros Hg. unfold reuse_artifact. rewrite txn_bind_ok. intros (q & s1 & [Hq ->]%lift_ok & Hf).
  apply map_prepared_known with (s := s) in Hq; [| done]. txn_inv. done.
Qed.
Lemma insert_known s now staged db p db' : uploads staged → rows_good s db →
  insert_artifact now (st_artifact staged) (st_staging_key staged) db = Ok (p, db') → rows_good s db' ∧ known_upload p.
Proof.
  intros Hu Hg. unfold insert_artifact. intros Hf. txn_inv.
  split; [| exists staged; simpl; naive_solver]. intros id row (b & file & c & Hb & Hfile & Hc & ->)%row_of_spec.
  simpl in *. apply lookup_insert_Some in Hb as [[<- <-] | [Hne Hb]].
  - rewrite lookup_insert_eq in Hfile. rewrite lookup_insert_eq in Hc. injection Hfile as <-. injection Hc as <-. split; [| done]. simpl.
    destruct (uploads_columns staged now Hu) as (staged' & Hu' & Ea & Ek). exists staged'. split; [done |].
    split; [done |]. intros key [= <-]. by rewrite Ek.
  - rewrite lookup_insert_ne in Hfile by done. rewrite lookup_insert_ne in Hc by done. apply (Hg id), row_of_spec. by exists b, file, c.
Qed.
Lemma prepare_known s now input staged db p db' : uploads staged → rows_good s db →
  prepare_artifact_upload now input (st_artifact staged) (st_staging_key staged) db = Ok (p, db') →
  rows_good s db' ∧ known_upload p.
Proof.
  intros Hu Hg. unfold prepare_artifact_upload. intros Hf.
  apply txn_bind_ok in Hf as (role & s1 & [_ ->]%lift_ok & Hf).
  apply txn_bind_ok in Hf as (u1 & s1 & [_ ->]%lift_ok & Hf).
  apply txn_bind_ok in Hf as (u2 & s1 & [_ ->]%lift_ok & Hf).
  apply txn_bind_ok in Hf as (ret & db1 & Hret & Hf).
  assert (rows_good s db1) as Hg1.
  { eapply (step_good never); [by eapply retained_step | done | done]. }
  apply txn_bind_ok in Hf as (db0 & s1 & [-> ->]%gets_ok & Hf). simpl in Hf.
  apply txn_bind_ok in Hf as ([[r t] m] & s1 & [_ ->]%lift_ok & Hf).
  apply txn_bind_ok in Hf as (u3 & s1 & [_ ->]%lift_ok & Hf).
  apply txn_bind_ok in Hf as (u4 & s1 & [_ ->]%lift_ok & Hf).
  destruct (scoped_row _ _ db1) as [row|] eqn:E1.
  { apply scoped_row_spec in E1 as [E1 _]. apply (reuse_known s) in Hf as [-> Hk]; [by split | by eapply Hg1]. }
  destruct (row_where _ db1) as [row|] eqn:E2; [| by eapply insert_known].
  apply find_some in E2 as [Hin _]. apply list_elem_of_In, artifact_rows_spec in Hin as (id & Hrow).
  apply (reuse_known s) in Hf as [-> Hk]; [by split | by eapply Hg1].
Qed.
Lemma pending_known s limit db ps : rows_good s db → pending_artifact_uploads limit db = Ok ps → Forall known_upload ps.
Proof.
  intros Hg. unfold pending_artifact_uploads. rewrite bind_ok. intros (u & _ & Hc%collect_ok).
  assert (∀ row, row ∈ take (Z.to_nat limit) (sort_by older_row (List.filter (λ row, seqb (ur_status row) "staged"
    || is_some (uc_staging_key (ur_columns row))) (artifact_rows db))) → good s row) as Hall.
  { intros row (i & Hin%list_elem_of_lookup_2 & _)%elem_of_take. rewrite sort_by_perm in Hin.
    apply list_elem_of_In, filter_In in Hin as [Hin _]. apply list_elem_of_In, artifact_rows_spec in Hin as (id & Hrow).
    by eapply Hg. }
  induction Hc as [|row p rows ps Hp _ IH]; [constructor |]. constructor.
  - eapply map_prepared_known; [apply Hall; left | exact Hp].
  - apply IH. intros r Hr. apply Hall. by right.
Qed.

(** ** The server *)
Definition consistent (s : upload_server) : Prop :=
  same_config config (us_objects s) ∧ rows_good (us_objects s) (us_db s).
Definition keeps_stored (s s' : upload_server) : Prop := keeps (us_objects s) (us_objects s').
Abbreviation outline := (outlined consistent keeps_stored).
Abbreviation always := (λ _ : upload_server, True).

Lemma same_config_trans o1 o2 o3 : same_config o1 o2 → same_config o2 o3 → same_config o1 o3.
Proof. unfold same_config. intros [-> ->] [-> ->]. done. Qed.
Lemma rows_kept o o' db : keeps o o' → rows_good o db → rows_good o' db.
Proof.
  intros [_ Hk] Hg id row Hrow. destruct (Hg _ _ Hrow) as [(staged & Hu & Ea & Hkey) Hready].
  split; [by exists staged |]. intros Hs. apply Hk; [by exists staged | by apply Hready].
Qed.
Lemma same_config_staging objects identity payload retention retained : same_config config objects →
  prepare_staging_with_receipt objects identity payload retention retained
    = prepare_staging_with_receipt config identity payload retention retained.
Proof. intros [Hk Hm]. unfold prepare_staging_with_receipt, sign. by rewrite Hk, Hm. Qed.

(** *** Accesses *)
Lemma store_outlined {A} (f : txn upload_db A) P (R : A → Prop) :
  (∀ s a db', consistent s → P s → f (us_db s) = Ok (a, db') → rows_good (us_objects s) db' ∧ R a) →
  outline (store_access f) P (λ r _, match r with Ok a => R a | Err _ => True end).
Proof.
  intros Hf. apply outlined_access; [intros [a|e]; apply stable_pure |]. intros s [Hc Hg] HP. unfold run_txn.
  destruct (f (us_db s)) as [[a db']|e] eqn:E; simpl.
  - destruct (Hf s a db') as [Hg' Ha]; [done | done | done |]. split; [done |]. split; [apply keeps_refl | done].
  - split; [done |]. split; [apply keeps_refl | done].
Qed.
Lemma step_outlined {A} (f : txn upload_db A) P : txn_within (rows_step never) f →
  outline (store_access f) P anything.
Proof.
  intros Hf. eapply outlined_weaken; [intros s _ Hp; exact Hp | intros a s _ _; exact I |].
  apply (store_outlined _ _ (λ _, True)). intros s a db' [_ Hg] _ E. split; [| done].
  eapply (step_good never); [by eapply Hf | done | done].
Qed.
Lemma object_outlined {A} (f : txn artifact_store A) P :
  (∀ s, consistent s → P s → keeps (us_objects s) (run_txn f (us_objects s)).2) →
  outline (object_access f) P anything.
Proof.
  intros Hf. apply outlined_access; [intros r; apply stable_pure |]. intros s Hs HP. specialize (Hf s Hs HP).
  destruct Hs as [Hc Hg]. destruct (run_txn f (us_objects s)) as [r o]; simpl in *.
  split; [| by split]. split; [eapply same_config_trans; [exact Hc | apply Hf] | by eapply rows_kept].
Qed.

(** [store.call().await?], with what its answer is known to be *)
Lemma store_attempt {A B} (f : txn upload_db A) (k : A → worker upload_server (result B)) P (R : A → Prop) :
  (∀ s a db', consistent s → P s → f (us_db s) = Ok (a, db') → rows_good (us_objects s) db' ∧ R a) →
  (∀ a, R a → outline (k a) always anything) → outline (attempt (store_access f) k) P anything.
Proof.
  intros Hf Hk. apply (outlined_attempt _ _ _ _ _ (λ a _, R a)); [by apply store_outlined |].
  intros a. apply outlined_pure, Hk.
Qed.
Lemma read_attempt {A B} (f : txn upload_db A) (k : A → worker upload_server (result B)) P :
  txn_within (rows_step never) f → (∀ a, outline (k a) always anything) →
  outline (attempt (store_access f) k) P anything.
Proof.
  intros Hf Hk. apply (store_attempt _ _ _ (λ _, True)); [| done]. intros s a db' [_ Hg] _ E. split; [| done].
  eapply (step_good never); [by eapply Hf | done | done].
Qed.
Lemma object_attempt {A B} (f : txn artifact_store A) (k : A → worker upload_server (result B)) P :
  (∀ s, consistent s → P s → keeps (us_objects s) (run_txn f (us_objects s)).2) →
  (∀ a, outline (k a) always anything) → outline (attempt (object_access f) k) P anything.
Proof.
  intros Hf Hk. apply (outlined_attempt _ _ _ _ _ (λ _, always)); [| done].
  eapply outlined_weaken; [intros s _ Hs; exact Hs | | by apply object_outlined]. by intros [a|e].
Qed.

Section workers.
Context `{!EnvelopeLaws}
  (no_collision : ∀ staged b, uploads staged → sha256_hex b = sha256_hex (st_bytes staged) → b = st_bytes staged).

Lemma stored_stable a : known a → stable consistent keeps_stored (λ s, stored a (us_objects s)).
Proof. intros Hk s s' _ _ [_ Hg]. by apply Hg. Qed.
Lemma finalize_outlined faults a key P : known a →
  outline (finalize_access faults a key) P
    (λ failure s, match failure with None => stored a (us_objects s) | Some _ => True end).
Proof using All.
  intros Hk. apply outlined_access; [intros [f|]; [apply stable_pure | by apply stored_stable] |].
  intros s [Hc Hg] _. destruct (finalize_keeps no_collision faults a key (us_objects s) Hk) as [Hkeep Hstored].
  unfold run_txn in *. destruct (finalize_staged faults a key (us_objects s)) as [[u o]|e]; simpl in *.
  - split; [split; [eapply same_config_trans; [exact Hc | apply Hkeep] | by eapply rows_kept] |].
    split; [done | by apply Hstored].
  - split; [done |]. by split.
Qed.

(** *** Cleaning up *)
Lemma discard_outlined faults corp id key P : stages key → outline (discard_and_clear faults corp id key) P anything.
Proof.
  intros Hk. eapply outlined_bind; [apply object_outlined; intros s _ _; by apply discard_keeps |].
  intros [u|e]; [| done]. eapply outlined_ignore, step_outlined, clear_step.
Qed.
Lemma cleanup_outlined faults p P : known_upload p → outline (cleanup_prepared_artifact faults p) P anything.
Proof.
  intros (staged & Hu & _ & Hk). unfold cleanup_prepared_artifact. destruct (pu_staging_key p) as [key|]; [| done].
  apply discard_outlined. rewrite (Hk key eq_refl). by apply uploads_stage.
Qed.
Lemma reject_outlined faults a error P : outline (reject_upload faults a error) P anything.
Proof.
  apply (store_attempt _ _ _ (λ key, ∀ k, key = Some k → stages k)).
  - intros s key db' [_ Hg] _ E. split.
    + eapply (step_good never); [by eapply reject_step | done | done].
    + intros k ->. eapply staged_key_of_row; [done | by eapply reject_answer].
  - intros [key|] Hk; [| done]. eapply outlined_bind; [by apply discard_outlined, Hk | done].
Qed.

(** *** One upload *)

(** The row may become ready: whatever it is of by now, its bytes are stored. *)
Lemma finalize_row_good s now a event db' : known a → consistent s → stored a (us_objects s) →
  finalize_artifact_upload now (sa_corp_id a) (sa_id a) (us_db s) = Ok (event, db') → rows_good (us_objects s) db'.
Proof.
  intros (st & Hu & ->) [_ Hg] Hst E. eapply step_good; [by eapply finalize_step | done |]. cbv beta.
  intros id row -> Hrow. destruct (Hg _ _ Hrow) as [(staged' & Hu' & Ea' & _) _]. rewrite <-Ea'.
  eapply stored_same_content; [| exact Hst]. apply uploads_agree; [done | done |].
  rewrite Ea'. symmetry. by eapply row_of_id.
Qed.
Lemma ingest_outlined t staged p P : known_upload p → outline (ingest_prepared t staged p) P anything.
Proof using All.
  intros Hp. pose proof Hp as (st & Hu & Ea & Hkey). unfold ingest_prepared.
  destruct (seqb (pu_status p) "ready").
  { eapply outlined_bind; [by apply cleanup_outlined | done]. }
  destruct (seqb (pu_status p) "rejected").
  { eapply outlined_bind; [by apply cleanup_outlined | done]. }
  destruct (seqb (pu_status p) "staged"); [| done].
  destruct (pu_staging_key p) as [key|] eqn:Ek; [| done]. rewrite (Hkey key eq_refl). set (stage := st_staging_key st).
  assert (known (pu_artifact p)) as Hknown by (by exists st).
  apply object_attempt; [intros s _ _; apply write_keeps; by apply (uploads_stage st) |]. intros u.
  eapply outlined_bind; [by apply finalize_outlined |].
  intros [[error failure]|].
  - destruct (is_permanent failure); [| done]. eapply outlined_bind; [apply reject_outlined |].
    by intros [[]|e].
  - apply (store_attempt _ _ _ (λ _, True)).
    + intros s event db' Hs Hst E. split; [| done]. by eapply finalize_row_good.
    + intros [event|e] _; [| done]. eapply outlined_bind; [by apply cleanup_outlined | done].
Qed.
Lemma upload_outlined t input : upload_of (re_event_id input) = input →
  outline (process_upload t input) always anything.
Proof using All.
  intros Hinput. apply read_attempt; [unfold artifact_context; within |]. intros context.
  apply read_attempt; [unfold retained_provider_receipt_grant_for_upload; within |]. intros grant.
  eapply (outlined_bind _ _ _ _ _ (λ objects _, same_config config objects)).
  { apply outlined_access; [intros; apply stable_pure |]. intros s [Hc Hg] _. split; [done |].
    split; [apply keeps_refl | exact Hc]. }
  intros objects. apply outlined_pure. intros Hc.
  eapply (outlined_attempt _ _ _ _ _ (λ staged _, uploads staged)).
  { apply outlined_done. intros s _ _. cbv zeta. unfold prepare_retained_provider_receipt_staging, prepare_staging.
    destruct grant as [g|]; rewrite same_config_staging by done;
      match goal with |- match ?r with _ => _ end => destruct r as [staged|] eqn:E end; try done;
      eexists (identity_of input context), _, _; simpl; rewrite Hinput; split; [done | exact E | done | exact E]. }
  intros staged. apply outlined_pure. intros Hu.
  apply (store_attempt _ _ _ known_upload).
  - intros s p db' [_ Hg] _ E. by eapply prepare_known.
  - intros p Hp. by apply ingest_outlined.
Qed.

(** *** A recovery pass *)
Lemma staged_keys_stage key s : key ∈ staged_keys s → stages key.
Proof.
  unfold staged_keys. rewrite sort_by_perm. intros [Hin _]%list_elem_of_In%filter_In. by apply filter_In in Hin as [_ Hk].
Qed.
Lemma orphans_outlined t pending P : outline (discard_orphans t pending) P anything.
Proof.
  unfold discard_orphans. eapply (outlined_bind _ _ _ _ _ (λ keys _, match keys with Ok ks => Forall stages ks | Err _ => True end)).
  { apply outlined_access; [intros; apply stable_pure |]. intros s Hs _. unfold run_txn.
    destruct (((fails_with (rt_list t) : txn artifact_store unit);; gets staged_keys) (us_objects s)) as [[ks o]|e] eqn:E;
      simpl; [| by split_and!; [| apply keeps_refl |]].
    apply txn_bind_ok in E as (u & s1 & Hu & [-> ->]%gets_ok).
    assert (s1 = us_objects s) as -> by (unfold fails_with in Hu; destruct (rt_list t); apply lift_ok in Hu as [? ->]; done).
    split; [by destruct s |]. split; [apply keeps_refl |]. apply Forall_forall. intros k. apply staged_keys_stage. }
  intros [keys|e]; [| done]. apply outlined_pure. intros Hkeys.
  eapply outlined_weaken; [intros s _ _; exact I | intros; exact I | apply (outlined_each _ _ _ _ always)].
  intros key Hin. rewrite Forall_forall in Hkeys. specialize (Hkeys key Hin). unfold discard_orphan.
  destruct (mem key (omap pu_staging_key pending)); [done |].
  eapply outlined_bind; [apply step_outlined; intros db a db' [_ ->]%lift_ok; reflexivity |].
  intros [[]|e]; [done | | done].
  eapply outlined_ignore, object_outlined. intros s _ _. by apply discard_keeps.
Qed.
Lemma release_outlined faults a P : outline (release_upload faults a) P anything.
Proof.
  eapply outlined_bind.
  { apply (store_outlined _ _ (λ key, ∀ k, key = Some k → stages k)). intros s key db' [_ Hg] _ E. split.
    - eapply (step_good never); [by eapply abandon_step | done | done].
    - intros k ->. eapply staged_key_of_row; [done | by eapply abandon_answer]. }
  intros [[key|]|e]; [| done | done]. apply outlined_pure. intros Hk.
  eapply outlined_ignore, object_outlined. intros s _ _. by apply discard_keeps, Hk.
Qed.
Lemma finalize_row_outlined now a P : known a → (∀ s, P s → stored a (us_objects s)) →
  outline (store_access (finalize_artifact_upload now (sa_corp_id a) (sa_id a))) P anything.
Proof using All.
  intros Hk HP. eapply outlined_weaken; [intros s _ Hs; exact Hs | intros r s _ _; exact I |].
  apply (store_outlined _ _ (λ _, True)). intros s event db' Hs Hst%HP E. split; [| done]. by eapply finalize_row_good.
Qed.
Lemma recover_one_outlined t p P : known_upload p → outline (recover_one t p) P anything.
Proof using All.
  intros Hp. pose proof Hp as (st & Hu & Ea & Hkey). unfold recover_one.
  destruct (_ && _); [done |]. destruct (seqb (pu_status p) "staged").
  2:{ destruct (mem _ _); [| done]. eapply outlined_bind; [by apply cleanup_outlined | done]. }
  destruct (pu_staging_key p) as [key|] eqn:Ek; [| done]. cbv zeta.
  assert (known (pu_artifact p)) as Hknown by (by exists st).
  eapply outlined_bind; [by apply finalize_outlined |]. intros [[error failure]|].
  - eapply (outlined_bind _ _ _ _ _ anything); [| done]. destruct (is_missing_objects failure); [apply release_outlined |].
    destruct (is_permanent failure); [| done]. eapply outlined_ignore, reject_outlined.
  - eapply outlined_bind; [by apply finalize_row_outlined |]. intros [[event|e]|e]; [| done | done].
    eapply outlined_bind; [by apply cleanup_outlined | done].
Qed.
Lemma recover_outlined t : outline (recover_pending_artifacts t) always anything.
Proof using All.
  apply (store_attempt _ _ _ (Forall known_upload)).
  - intros s ps db' [_ Hg] _ [E ->]%lift_ok. split; [done | by eapply pending_known].
  - intros ps Hps. eapply outlined_bind; [apply orphans_outlined |]. intros u.
    apply (outlined_weaken _ _ _ always _ anything anything); [done | done |]. clear u.
    induction Hps as [|p ps Hp _ IH]; [done |].
    apply (outlined_attempt _ _ _ _ _ (λ _, always)).
    + eapply outlined_weaken; [intros s _ Hs; exact Hs | | by apply recover_one_outlined]. by intros [r|e].
    + intros events. apply (outlined_attempt _ _ _ _ _ (λ _, always)); [| done].
      eapply outlined_weaken; [intros s _ Hs; exact Hs | | exact IH]. by intros [r|e].
Qed.
End workers.
End safety.

(** ** Whatever interleaves *)
Section reachable.
Context `{Serde} `{ExecSerde} `{Envelopes} `{JsonReader} `{ObjectFormats} `{Collections}.
Context (upload_of : uuid → runner_event_input).

(** The server takes in uploads, each under the event id of its own, and makes passes. *)
Inductive upload_worker : worker upload_server unit → Prop :=
| uploading t input : is_upload (re_event_type input) = true → upload_of (re_event_id input) = input →
    upload_worker (ignore (process_runner_event t input))
| recovering t : upload_worker (ignore (recover_pending_artifacts t)).
(** What everything else does: the artifacts, rows and objects, stay as they are. *)
Definition elsewhere (s s' : upload_server) : Prop :=
  us_objects s' = us_objects s ∧ ∀ id, row_of (us_db s') id = row_of (us_db s) id.
(** No other content has the digest of an upload. *)
Definition collision_free (config : artifact_store) : Prop :=
  ∀ staged b, uploads upload_of config staged → sha256_hex b = sha256_hex (st_bytes staged) → b = st_bytes staged.

Lemma reachable_consistent `{!EnvelopeLaws} s0 p : collision_free (us_objects s0) →
  (∀ id, row_of (us_db s0) id = None) → pool_reachable upload_worker elsewhere s0 p →
  consistent upload_of (us_objects s0) p.2.
Proof.
  intros Hnc Hempty. apply (pool_safe _ (keeps_stored upload_of (us_objects s0))).
  - intros w [t input Hup Hinput | t]; [| by eapply outlined_ignore, recover_outlined].
    unfold process_runner_event. rewrite Hup. by eapply outlined_ignore, upload_outlined.
  - intros s s' [Hc Hg] [Ho Hrows]. unfold consistent, keeps_stored. rewrite Ho. split; [| apply keeps_refl].
    split; [done |]. intros id row Hrow. rewrite Hrows in Hrow. by eapply Hg.
  - split; [done |]. intros id row Hrow. by rewrite Hempty in Hrow.
Qed.

(** C6: what can be downloaded is what was uploaded: from a database without
    artifacts, however uploads, recovery passes and everything else the server does
    interleave at its awaits, whichever accesses fail and wherever the server dies, an
    artifact that the store offers for download reads back, until its retention ends,
    as exactly the bytes of the upload its id names (an event id naming one upload, and
    no other content with the same SHA-256 being known). *)
Theorem downloads_are_the_uploads `{!EnvelopeLaws, !ObjectFormatsLaws _} s0 l s corp id actor a now :
  collision_free (us_objects s0) → (∀ id, row_of (us_db s0) id = None) →
  pool_reachable upload_worker elsewhere s0 (l, s) →
  artifact_for_download corp id actor (us_db s) = Some a → (now < sa_retention_until a)%Z →
  ∃ bytes, uploaded_bytes (ao_max_bytes (us_objects s0)) (re_payload (upload_of id)) = Ok (bytes, sa_sha256 a) ∧
    read_verified now no_faults a (us_objects s) = Ok (bytes, us_objects s).
Proof.
  intros Hnc Hempty Hreach Hd Hnow.
  destruct (reachable_consistent s0 (l, s) Hnc Hempty Hreach) as [Hc Hg]. simpl in *.
  unfold artifact_for_download in Hd. apply bind_Some in Hd as (row & [Hrow _]%scoped_row_spec & Hd).
  apply bind_Some in Hd as (t & _ & Hd). apply bind_Some in Hd as (m & _ & Hd).
  destruct (_ && seqb (ur_status row) "ready") eqn:E; [| done]. injection Hd as <-.
  apply andb_true_iff in E as [_ Hready%seqb_eq].
  destruct (Hg _ _ Hrow) as [(staged & Hu & Ea & _) Hstored]. destruct (Hstored Hready) as (bytes & Hb & Hv).
  pose proof (known_bytes upload_of _ Hnc _ _ _ staged Hu (eq_sym Ea) Hv) as ->.
  pose proof Hu as (i & Hkey & _ & Hsha & _ & Hsig)%uploads_prepared%prepared_spec.
  exists (st_bytes staged). split.
  - destruct Hu as (identity & r & g & _ & Hp).
    apply stage_shape in Hp as (b & sha & d & media & role & file & meta & Hbytes & _ & _ & Hp).
    destruct (Hp r) as (sig & Hs & _). specialize (Hs eq_refl). rewrite <-Ea. apply row_of_id in Hrow as Hid.
    rewrite <-Ea in Hid. rewrite Hs in *. simpl in *. by rewrite <-Hid.
  - apply reads_verified; [done | | done | done]. rewrite (verify_signature_config _ _ _ Hc), <-Ea. apply Hsig, _.
Qed.
End reachable.

(** ** Digests with capitals

    A deliverable whose verification digest is not in lower case never becomes ready,
    however often it is finalised, although an upload may write it with capitals. *)
Section capitals.
Context `{Serde} `{ExecSerde} `{Envelopes} `{JsonReader} `{ObjectFormats} `{Collections}.
Lemma capital_digests_stay_staged now corp id db row digest event db' :
  scoped_row corp id db = Some row → sa_artifact_role (ur_artifact row) = "source_deliverable" →
  get "verification_sha256" (sa_metadata (ur_artifact row)) ≫= as_str = Some digest → hex_digest digest [64%Z] = false →
  finalize_artifact_upload now corp id db ≠ Ok (Ok (Some event), db').
Proof.
  intros Hrow Hrole Hdigest Hcase. unfold finalize_artifact_upload. intros Hf.
  apply txn_bind_ok in Hf as (db0 & s1 & [-> ->]%gets_ok & Hf).
  apply txn_bind_ok in Hf as (row' & s1 & [Hrow'%with_context_ok ->]%lift_ok & Hf). simpl in Hrow'.
  rewrite Hrow in Hrow'. injection Hrow' as <-. destruct (fence_artifact _ _ _ _ _); [| by txn_inv].
  apply txn_bind_ok in Hf as (run & s1 & [_ ->]%lift_ok & Hf). apply txn_bind_ok in Hf as (u1 & s1 & [_ ->]%lift_ok & Hf).
  apply txn_bind_ok in Hf as ([t m] & s1 & [_ ->]%lift_ok & Hf).
  apply txn_bind_ok in Hf as (u2 & s1 & [_ ->]%lift_ok & Hf). case_match; [| by txn_inv].
  destruct (seqb _ "ready"); [by txn_inv |]. apply txn_bind_ok in Hf as (e & s1 & Hf & _).
  unfold finish_artifact in Hf. rewrite Hrole in Hf. simpl in Hf.
  apply txn_bind_ok in Hf as (e1 & s2 & _ & Hf). apply txn_bind_ok in Hf as (u3 & s3 & _ & Hf).
  apply txn_bind_ok in Hf as (u4 & s4 & Hf & _). apply txn_bind_ok in Hf as (u5 & s5 & Hf & _).
  apply txn_bind_ok in Hf as (d & s6 & [Hd _]%lift_ok & Hf). apply txn_bind_ok in Hf as (u6 & s7 & [Hc _]%lift_ok & _).
  unfold deliverable_columns in Hd. apply bind_ok in Hd as (form & _ & Hd). apply bind_ok in Hd as (v & Hv & Hd).
  apply bind_ok in Hd as (base & _ & Hd). apply bind_ok in Hd as (branch & _ & Hd).
  apply bind_ok in Hd as (state & _ & [= <-]). unfold deliverable_text in Hv. rewrite Hdigest in Hv.
  injection Hv as <-. unfold deliverable_constraints in Hc. simpl in Hc. rewrite Hcase in Hc.
  by rewrite andb_false_r in Hc.
Qed.
Lemma capital_digests_are_accepted :
  let digest := "ABCDEF1111111111111111111111111111111111111111111111111111111111" in
  is_ok (source_deliverable_metadata (json_object
    [("form", JStr "patch"); ("verification_sha256", JStr digest); ("base_commit", JStr digest); ("branch", JStr "main");
     ("integration_state", JStr "ready_for_review")])) = true ∧ hex_digest digest [64%Z] = false.
Proof. by vm_compute. Qed.
End capitals.

(** ** An upload that fails on the way and is recovered *)
Section ingest_demo.
#[local] Existing Instance sample_serde.
#[local] Existing Instance sample_exec_serde.
#[local] Existing Instance hello_digests.
#[local] Existing Instance hello_envelopes.
#[local] Existing Instance hello_laws.
#[local] Instance ingest_reader : JsonReader := λ _, None.
(** One signature, written in hexadecimal; other text is kept apart by its first character. *)
#[local] Instance ingest_formats : ObjectFormats := {|
  hmac_sha256 key message := "signature";
  mac_to_hex m := if seqb m "signature" then hello_digest else "z" +:+ m;
  mac_of_hex s := if seqb s hello_digest then Some "signature" else match s with String _ m => Some m | "" => None end;
  mime_essence s := Some s; json_to_vec _ := ""; parse_copilot_receipt _ := None |}.
#[local] Instance ingest_laws : ObjectFormatsLaws ingest_formats.
Proof. intros m. simpl. destruct (seqb m "signature") eqn:E; [by apply seqb_eq in E as -> | done]. Qed.
#[local] Instance no_collections : Collections := {|
  collection_grant _ _ := Err "none"; collection_reserve _ _ _ := Err "none"; collection_validate _ _ := Err "none" |}.

Definition ingest_input : runner_event_input :=
  RunnerEventInput 900 "runner-a" 1 60 30 61 "run.artifact_upload" demo_payload.
Definition ingest_start : upload_server :=
  UploadServer (UploadDb (HandoffDb (demo [demo_create None; demo_start 60]) ∅ ∅) ∅ ∅ ∅) demo_objects.
(** The final object cannot be written. *)
Definition ingest_turn : upload_turn := UploadTurn (demo_env 60) 100 1 no_faults put_fault no_faults.
Definition ingest_pass : recovery_turn := RecoveryTurn 100 0 None (λ _, no_faults).
Definition uploading_demo : worker upload_server unit := ignore (process_runner_event ingest_turn ingest_input).
Definition recovering_demo : worker upload_server unit := ignore (recover_pending_artifacts ingest_pass).
Definition ingest_failed : upload_server := (run_alone uploading_demo ingest_start).2.
Definition ingest_end : upload_server := (run_alone recovering_demo ingest_failed).2.

(** Every event id stands for the same upload, of these bytes. *)
Definition ingest_uploads (id : uuid) : runner_event_input := ingest_input.
Lemma ingest_bytes staged : uploads ingest_uploads demo_objects staged → st_bytes staged = "hello".
Proof.
  intros (identity & r & g & _ & Hp).
  apply stage_shape in Hp as (b & sha & d & media & role & file & meta & Hbytes & _ & _ & Hp).
  destruct (Hp r) as (sig & Hs & _). rewrite (Hs eq_refl). simpl.
  assert (uploaded_bytes (ao_max_bytes demo_objects) (re_payload (ingest_uploads (ai_id identity)))
    = Ok ("hello", hello_digest)) as E by (vm_compute; reflexivity). rewrite E in Hbytes. by injection Hbytes as <- _.
Qed.
Lemma ingest_reaches : pool_reachable (upload_worker ingest_uploads) elsewhere ingest_start ([], ingest_end).
Proof.
  apply (rtc_trans _ ([], ingest_failed)); (apply pool_serve; constructor); reflexivity.
Qed.

Lemma downloads_are_the_uploads_witness : ∃ a, artifact_for_download 1 900 10 (us_db ingest_end) = Some a ∧
  read_verified 200 no_faults a (us_objects ingest_end) = Ok ("hello", us_objects ingest_end).
Proof.
  assert (match artifact_for_download 1 900 10 (us_db ingest_end) with
    | Some a => (200 <? sa_retention_until a)%Z | None => false end = true) as Hd by (vm_compute; reflexivity).
  destruct (artifact_for_download 1 900 10 (us_db ingest_end)) as [a|] eqn:Ea; [| discriminate Hd].
  exists a. split; [reflexivity |].
  destruct (downloads_are_the_uploads ingest_uploads ingest_start [] ingest_end 1 900 10 a 200) as (bytes & Hb & Hr).
  - intros staged b Hu Hsha. rewrite (ingest_bytes staged Hu) in *. by apply hello_unique.
  - intros id. reflexivity.
  - exact ingest_reaches.
  - exact Ea.
  - by apply Z.ltb_lt.
  - assert (uploaded_bytes (ao_max_bytes (us_objects ingest_start)) (re_payload (ingest_uploads 900))
      = Ok ("hello", hello_digest)) as E by (vm_compute; reflexivity). rewrite E in Hb. injection Hb as <- _. exact Hr.
Defined.
End ingest_demo.
