(* ===== verification/Scheduling.v ===== *)
(** * Starting the ready tasks (crates/crony-server/src/main.rs)

    [schedule_ready_tasks] composes what the other files model: for every task
    the store says can be scheduled it picks a connected runner, creates the
    run, gathers the verified outputs of the dependencies and the secrets, and
    hands the assignment to the socket it picked.  Every await lets the other
    requests and sockets of the server proceed: a [turn] says what they do. *)
From S2P Require Import Prelude Text Json Domain Planning Deliverable DependencySource FactoryPolicy Store FactoryItems Breaker ExecTables Checkpoint RunFailure RunEvents Dispatch Materialization Polling GithubResponse Access Secrets RunnerPool Artifacts Handoff.

(** ** Messages to runners

    Of the messages only the assignment is spelled out. *)
Record start_run := StartRunMessage {
  sm_workspace_connection_id : option uuid; sm_corp_id : uuid; sm_room_id : uuid; sm_mission_id : uuid;
  sm_task_id : uuid; sm_run_id : uuid; sm_agent_id : uuid; sm_assignment_token : uuid; sm_adapter : string;
  sm_mission_title : string; sm_model : option string; sm_reasoning_effort : option string;
  sm_source_repository : option string; sm_source_base_ref : option string; sm_source_base_commit : option string;
  sm_verification_policy : verification_policy; sm_write_scope : list string;
  sm_deliverable : option deliverable_spec; sm_secrets : list resolved_secret }.
Inductive server_to_runner (Other : Type) :=
| StartRun (message : start_run)
| OtherMessage (message : Other).
Arguments StartRun {Other}.
Arguments OtherMessage {Other}.

(** ** The state of the server *)
Record server (Other : Type) := Server {
  sv_db : secret_db; sv_files : gmap uuid (string * string); sv_run_evidence : gmap uuid (string * string * string);
  sv_artifacts : artifact_store; sv_secret_key : string; sv_runners : runner_pool (server_to_runner Other) }.
Arguments Server {Other}.
Arguments sv_db {Other}.
Arguments sv_files {Other}.
Arguments sv_run_evidence {Other}.
Arguments sv_artifacts {Other}.
Arguments sv_secret_key {Other}.
Arguments sv_runners {Other}.

(** What happens at the awaits of one candidate, and what it draws from the world. *)
Record turn (Other : Type) := Turn {
  tn_env : exec_env; tn_now : timestamp; tn_faults : object_faults; tn_grants : list (uuid * timestamp);
  tn_create : server Other → server Other; tn_context : server Other → server Other;
  tn_secrets : server Other → server Other; tn_send : server Other → server Other;
  tn_fail : server Other → server Other }.
Arguments Turn {Other}.
Arguments tn_env {Other}.
Arguments tn_now {Other}.
Arguments tn_faults {Other}.
Arguments tn_grants {Other}.
Arguments tn_create {Other}.
Arguments tn_context {Other}.
Arguments tn_secrets {Other}.
Arguments tn_send {Other}.
Arguments tn_fail {Other}.

Record schedulable_task := SchedulableTask {
  sk_task_id : uuid; sk_required_adapter : string; sk_required_model : option string;
  sk_required_reasoning_effort : option string; sk_required_source_repository : option string;
  sk_required_source_base_ref : option string; sk_required_source_base_commit : option string;
  sk_workspace_connection_id : option uuid }.
Record schedule_outcome := ScheduleOutcome {
  so_records : list (launch_record * string); so_candidate_count : nat; so_failures : list string }.

Section scheduling.
Context `{Serde} `{ExecSerde} `{Envelopes} `{JsonReader} `{ObjectFormats} `{Chrono} `{Aead} {Other : Type}.
Abbreviation state := (server Other).

Definition sv_exec (s : state) : exec_db := se_exec (sv_db s).
Definition set_sv_db (db : secret_db) (s : state) : state :=
  Server db (sv_files s) (sv_run_evidence s) (sv_artifacts s) (sv_secret_key s) (sv_runners s).
Definition set_sv_exec (e : exec_db) (s : state) : state := set_sv_db (set_secret_exec e (sv_db s)) s.
Definition set_sv_runners (pool : runner_pool (server_to_runner Other)) (s : state) : state :=
  Server (sv_db s) (sv_files s) (sv_run_evidence s) (sv_artifacts s) (sv_secret_key s) pool.
(** A transaction of the store. *)
Definition in_store {A} (f : txn exec_db A) (s : state) : result A * state :=
  let '(answer, e) := run_txn f (sv_exec s) in (answer, set_sv_exec e s).
Definition in_handoff {A} (f : txn handoff_db A) (s : state) : result A * state :=
  let '(answer, db) := run_txn f (HandoffDb (sv_exec s) (sv_files s) (sv_run_evidence s)) in
  (answer, set_sv_exec (hd_exec db) s).

(** ** One candidate *)
(** The columns [schedulable_tasks] selects. *)
Definition schedulable_row (db : exec_db) (task_id : uuid) : option schedulable_task :=
  t ← task_of db task_id;
  agent_id ← ta_assigned_agent t;
  a ← agent_of db agent_id;
  let c := ta_contract t in
  Some (SchedulableTask task_id (default (xa_adapter a) (ta_required_adapter t)) (tc_model c) (tc_reasoning_effort c)
          (tc_source_repository c) (tc_source_base_ref c) (tc_source_base_commit c) (tc_workspace_connection_id c)).
Definition requirements_of (k : schedulable_task) : runner_requirements :=
  RunnerRequirements (sk_required_adapter k) (sk_required_model k) (sk_required_reasoning_effort k)
    (sk_required_source_repository k) (sk_required_source_base_ref k) (sk_required_source_base_commit k)
    (sk_workspace_connection_id k).
Definition push_context (context : string) (r : launch_record) : launch_record :=
  LaunchRecord (lr_room_id r) (lr_task_id r) (lr_run_id r) (lr_agent_id r) (lr_assignment_token r) (lr_attempt r)
    (lr_adapter r) (lr_prompt r +:+ context) (lr_contract r) (lr_connection r) (lr_policy r) (lr_queued_messages r).
Definition start_message (corp_id mission_id : uuid) (r : launch_record) (secrets : list resolved_secret) : start_run :=
  let c := lr_contract r in
  StartRunMessage (lr_connection r) corp_id (lr_room_id r) mission_id (lr_task_id r) (lr_run_id r) (lr_agent_id r)
    (lr_assignment_token r) (lr_adapter r) (lr_prompt r) (tc_model c) (tc_reasoning_effort c)
    (tc_source_repository c) (tc_source_base_ref c) (tc_source_base_commit c) (lr_policy r) (tc_write_scope c)
    (tc_deliverable c) secrets.
Definition resolve_run_secrets (fresh : list (uuid * timestamp)) (corp_id : uuid) (r : launch_record)
    (runner_id : string) (s : state) : result (list resolved_secret) * state :=
  let '(answer, db) := resolve_secret_refs (sv_secret_key s) fresh corp_id (lr_task_id r) (lr_run_id r) runner_id
    (tc_secret_refs (lr_contract r)) (sv_db s) in
  (answer, set_sv_db db s).
(** [if let Ok(events) = ...fail_run_before_dispatch(...)]: its error is dropped. *)
Definition abandon_run (t : turn Other) (corp_id run_id : uuid) (reason : string) (s : state) : state :=
  (in_store (fail_run_before_dispatch corp_id run_id reason) (tn_fail t s)).2.

Definition unselected (corp_id : uuid) (k : schedulable_task) (s : state) : string :=
  "task " +:+ uuid_to_string (sk_task_id k) +:+ " "
  +:+ runner_requirement_mismatch (runner_capabilities corp_id (rp_runners (sv_runners s))) (sk_required_adapter k)
        (sk_required_model k) (sk_required_reasoning_effort k) (sk_required_source_repository k)
        (sk_required_source_base_ref k) (sk_required_source_base_commit k).
Definition not_accepted : string := "runner disconnected or changed epoch before accepting the run".

(** The body of the loop after the run is created: what was launched, or the failure. *)
Definition assign (t : turn Other) (corp_id mission_id : uuid) (k : schedulable_task) (runner_id : string)
    (connection_epoch : uuid) (record : launch_record) (s : state) : result (launch_record * string) * state :=
  let task := "task " +:+ uuid_to_string (sk_task_id k) in
  let '(context, s) := in_handoff
    (resolve_dependency_context (tn_now t) (tn_faults t) (sv_artifacts (tn_context t s)) corp_id record)
    (tn_context t s) in
  match context with
  | Err e => (Err (task +:+ " dependency context failed: " +:+ e),
              abandon_run t corp_id (lr_run_id record) ("dependency context could not be verified: " +:+ e) s)
  | Ok (context, _) =>
      let record := push_context context record in
      let '(secrets, s) := resolve_run_secrets (tn_grants t) corp_id record runner_id (tn_secrets t s) in
      match secrets with
      | Err e => (Err (task +:+ " secret assignment failed: " +:+ e),
                  abandon_run t corp_id (lr_run_id record) ("secret broker denied assignment: " +:+ e) s)
      | Ok secrets =>
          let s := tn_send t s in
          let '(sent, pool) := send_command_to_current_runner runner_id connection_epoch
            (StartRun (start_message corp_id mission_id record secrets)) (sv_runners s) in
          let s := set_sv_runners pool s in
          if sent then (Ok (record, runner_id), s)
          else (Err (task +:+ " " +:+ not_accepted), abandon_run t corp_id (lr_run_id record) not_accepted s)
      end
  end.
Definition schedule_task (t : turn Other) (corp_id mission_id : uuid) (requested_by : option uuid)
    (k : schedulable_task) (s : state) : result (launch_record * string) * state :=
  match select_ready_runner corp_id (requirements_of k) (rp_runners (sv_runners s)) with
  | None => (Err (unselected corp_id k s), s)
  | Some (runner_id, connection_epoch) =>
      let '(created, s) := in_store
        (create_task_run (tn_env t) corp_id mission_id (sk_task_id k) requested_by runner_id) (tn_create t s) in
      match created with
      | Err e => (Err ("task " +:+ uuid_to_string (sk_task_id k) +:+ " could not create a run: " +:+ e), s)
      | Ok (record, _) => assign t corp_id mission_id k runner_id connection_epoch record s
      end
  end.

(** ** A mission, and a Corp *)
Fixpoint schedule_tasks (turns : list (turn Other)) (corp_id mission_id : uuid) (requested_by : option uuid)
    (candidates : list schedulable_task) (s : state) : list (launch_record * string) * list string * state :=
  match candidates, turns with
  | k :: candidates, t :: turns =>
      let '(answer, s) := schedule_task t corp_id mission_id requested_by k s in
      let '(records, failures, s) := schedule_tasks turns corp_id mission_id requested_by candidates s in
      match answer with
      | Ok record => (record :: records, failures, s)
      | Err failure => (records, failure :: failures, s)
      end
  | _, _ => ([], [], s)
  end.
Definition candidates (corp_id mission_id : uuid) (explicit_dispatch : bool) (db : exec_db) : list schedulable_task :=
  omap (schedulable_row db) (schedulable_tasks corp_id mission_id explicit_dispatch db).
Definition schedule_ready_tasks (turns : list (turn Other)) (corp_id mission_id : uuid) (requested_by : option uuid)
    (s : state) : schedule_outcome * state :=
  let found := candidates corp_id mission_id (is_some requested_by) (sv_exec s) in
  let '(records, failures, s) := schedule_tasks turns corp_id mission_id requested_by found s in
  (ScheduleOutcome records (length found) failures, s).
Definition failure_message (o : schedule_outcome) : string :=
  if negb (vec_is_empty (so_failures o)) then
    "mission dispatch incomplete (" +:+ show_int (vec_len (so_records o)) +:+ " new runs dispatched): "
    +:+ join "; " (so_failures o)
  else if (so_candidate_count o =? 0)%nat then
    "mission has no schedulable tasks; tasks may be waiting on dependencies, assigned to a busy agent, already active, or finished"
  else "mission had ready tasks, but none could be dispatched".
(** The missions are read once; [others] is what happens before each is scheduled. *)
Fixpoint schedule_missions (plan : list ((state → state) * list (turn Other))) (corp_id : uuid)
    (missions : list uuid) (s : state) : state :=
  match missions, plan with
  | mission_id :: missions, (others, turns) :: plan =>
      schedule_missions plan corp_id missions (schedule_ready_tasks turns corp_id mission_id None (others s)).2
  | _, _ => s
  end.
Definition schedule_ready_corp (plan : list ((state → state) * list (turn Other))) (corp_id : uuid) (s : state) : state :=
  schedule_missions plan corp_id (schedulable_mission_ids corp_id (sv_exec s)) s.
(** What a tick does for the runner whose turn it is. *)
Definition reconcile_corp (commands : ready_corp_schedule → state → result unit * state)
    (plan : list ((state → state) * list (turn Other))) (scope : ready_corp_schedule) (s : state) :
    result bool * state :=
  schedule_after_runner_commands (λ s, rp_runners (sv_runners s)) scope (commands scope)
    (λ s, (Ok tt, schedule_ready_corp plan (rs_corp_id scope) s)) s.
End scheduling.
