(* ===== verification/SchedulingSafety.v ===== *)
(** * Work goes to the runner it was made for

    Whatever else the server does meanwhile, an assignment is queued only at a
    socket of the runner, and of the Corp, its run is bound to
    ([assignments_reach_their_runner]); and each candidate is either assigned,
    to a runner that meets its requirements, or reported with the reason
    ([candidates_are_decided]). *)
From S2P Require Import Prelude Text Json Domain Planning Deliverable DependencySource FactoryPolicy Store FactoryItems Breaker ExecTables Checkpoint RunFailure RunEvents Dispatch Decisions ExecSpec EventSteps AttemptSteps Execution Materialization Polling GithubResponse Access Secrets SecretSafety RunnerPool RunnerRotation Artifacts Handoff HandoffSafety Scheduling.

Section launch.
Context `{Serde} `{ExecSerde}.

(** The row a launch leaves. *)
Lemma create_task_run_ok env corp mission task requested_by runner s record event s' :
  create_task_run env corp mission task requested_by runner s = Ok ((record, event), s') →
  lr_run_id record = xe_run env ∧ lr_task_id record = task ∧ run_of s (lr_run_id record) = None ∧
  ∃ r, run_of s' (lr_run_id record) = Some r ∧ rn_status r = RunStatus.Starting ∧
    rb_runner (rn_binding r) = runner ∧ rb_corp (rn_binding r) = corp ∧ rb_task (rn_binding r) = task ∧
    rb_agent (rn_binding r) = lr_agent_id record ∧ rb_assignment_token (rn_binding r) = lr_assignment_token record.
Proof.
  unfold create_task_run, check_launch, insert_run_tx, bind_new_run_tx, require_new, fetch_one.
  intros Ht. txn_inv.
  match goal with H : with_context (launch_row _ _ _ _) _ = Ok ?row |- _ =>
    apply with_context_ok in H; destruct row as [[[m t] agent_id] a]; rename H into Hrow end.
  txn_inv. ok_facts. core_rows. injection Ht as -> ->.
  cbn [lr_run_id lr_task_id lr_agent_id lr_assignment_token].
  split; [done |]. split; [done |]. split.
  { rewrite <-(run_of_core _ _ _ K1). by destruct (run_of s1 (xe_run env)). }
  eexists. split.
  { unfold run_of. rewrite core_set_log. core_of. rewrite K. simpl. rewrite lookup_alter_eq, lookup_insert_eq. done. }
  done.
Qed.
End launch.

(** ** What the sockets have been sent *)
Section safety.
Context `{Serde} `{ExecSerde} `{Envelopes} `{JsonReader} `{ObjectFormats} `{Chrono} `{Aead} {Other : Type}.
(** Each socket has an epoch of its own, and was opened by one runner of one Corp. *)
Context (socket_of : uuid → N) (owner : N → string * uuid).
Abbreviation state := (server Other).

(** The assignment names a run that is bound to the owner of the socket. *)
Record bound (s : state) (m : start_run) (o : string * uuid) (r : x_run) : Prop := {
  bo_run : run_of (sv_exec s) (sm_run_id m) = Some r;
  bo_runner : rb_runner (rn_binding r) = o.1;
  bo_corp : rb_corp (rn_binding r) = o.2 ∧ sm_corp_id m = o.2;
  bo_task : rb_task (rn_binding r) = sm_task_id m;
  bo_agent : rb_agent (rn_binding r) = sm_agent_id m;
  bo_token : rb_assignment_token (rn_binding r) = sm_assignment_token m;
}.
Record addressed (s : state) : Prop := {
  ad_core : core_inv (x_core (sv_exec s));
  ad_sockets : ∀ id c, rp_runners (sv_runners s) !! id = Some c →
    pc_tx c = socket_of (pc_connection_epoch c) ∧ owner (pc_tx c) = (id, pc_corp_id c);
  ad_sent : ∀ tx ch m, rp_channels (sv_runners s) !! tx = Some ch → StartRun m ∈ ch_sent ch →
    ∃ r, bound s m (owner tx) r;
}.
(** Runs stay, with what they were bound to when they were created. *)
Definition runs_stay (s s' : state) : Prop := ∀ id r, run_of (sv_exec s) id = Some r →
  ∃ r', run_of (sv_exec s') id = Some r' ∧ rn_binding r' = rn_binding r.
Definition respects (f : state → state) : Prop := ∀ s, addressed s → addressed (f s) ∧ runs_stay s (f s).

#[local] Instance runs_stay_preorder : PreOrder runs_stay.
Proof.
  split; [intros s id r Hr; by exists r |]. intros s1 s2 s3 H12 H23 id r (r2 & Hr2 & E2)%H12.
  apply H23 in Hr2 as (r3 & Hr3 & E3). exists r3. split; [done | congruence].
Qed.
Lemma bound_stays s s' m o r : bound s m o r → runs_stay s s' → ∃ r', bound s' m o r'.
Proof.
  intros [Hr ? ? ? ? ?] Hs. apply Hs in Hr as (r' & Hr' & E). exists r'. split; [done | by rewrite E ..].
Qed.
Lemma respects_compose f g : respects f → respects g → respects (λ s, g (f s)).
Proof. intros Hf Hg s Hs. apply Hf in Hs as [Ha S1]. apply Hg in Ha as [Hb S2]. split; [done | by etrans]. Qed.

(** A step of the store that moves the core tables as the specification allows. *)
Lemma stored s s' : sv_runners s' = sv_runners s →
  core_step (x_core (sv_exec s)) (x_core (sv_exec s')) → addressed s → addressed s' ∧ runs_stay s s'.
Proof.
  intros Hpool Hstep [Hcore Hsockets Hsent].
  assert (runs_stay s s') as Hstay.
  { intros id r Hr. destruct (cs_runs _ _ Hstep id r Hr) as (r' & Hr' & Hm). exists r'. split; [done | apply Hm]. }
  split; [| done]. split; [by eapply core_step_inv | by rewrite Hpool |]. rewrite Hpool. intros tx ch m Hch Hm.
  destruct (Hsent tx ch m Hch Hm) as [r Hb]. by eapply bound_stays.
Qed.
Lemma stored_same s s' : sv_runners s' = sv_runners s → x_core (sv_exec s') = x_core (sv_exec s) →
  addressed s → addressed s' ∧ runs_stay s s'.
Proof. intros Hp Hc. apply stored; [done |]. rewrite Hc. apply core_step_refl. Qed.
Lemma in_store_respects {A} (f : txn exec_db A) s :
  (∀ a e, f (sv_exec s) = Ok (a, e) → core_step (x_core (sv_exec s)) (x_core e)) →
  addressed s → addressed (in_store f s).2 ∧ runs_stay s (in_store f s).2.
Proof.
  intros Hf. unfold in_store, run_txn. destruct (f (sv_exec s)) as [[a e]|] eqn:E; simpl.
  - apply stored; [done |]. by apply (Hf a e).
  - by apply stored_same.
Qed.

(** ** The operations *)
Lemma abandon_run_respects t corp run reason : respects (tn_fail t) → respects (abandon_run t corp run reason).
Proof.
  intros Ht s Hs. destruct (Ht s Hs) as [A1 S1]. unfold abandon_run.
  destruct (in_store_respects (fail_run_before_dispatch corp run reason) (tn_fail t s)) as [A2 S2]; [| done |].
  - intros es e Hf. by eapply fail_run_before_dispatch_step; [apply A1 |].
  - split; [exact A2 | by etrans].
Qed.
Lemma resolve_context_respects now faults objects corp record (s : state) :
  addressed s → let s' := (in_handoff (resolve_dependency_context now faults objects corp record) s).2 in
  addressed s' ∧ runs_stay s s'.
Proof.
  unfold in_handoff, run_txn. intros Hs.
  destruct (resolve_dependency_context _ _ _ _ _ _) as [[a db]|] eqn:E; simpl.
  - apply resolve_dependency_context_frame in E as [E _]. by apply stored_same.
  - by apply stored_same.
Qed.
Lemma resolve_run_secrets_respects fresh corp record runner (s : state) :
  addressed s → let s' := (resolve_run_secrets fresh corp record runner s).2 in addressed s' ∧ runs_stay s s'.
Proof.
  unfold resolve_run_secrets, resolve_secret_refs. intros Hs.
  destruct (grant_run_secrets _ _ _ _ _ _ _) as [[[grants es] db]|] eqn:E; simpl.
  - apply grant_run_secrets_core in E. by apply stored_same.
  - by apply stored_same.
Qed.

Lemma send_current runner epoch (cmd : server_to_runner Other) pool b pool' :
  send_command_to_current_runner runner epoch cmd pool = (b, pool') →
  rp_runners pool' = rp_runners pool ∧
  if b then ∃ c ch, rp_runners pool !! runner = Some c ∧ pc_connection_epoch c = epoch ∧
    pc_dispatch_ready c = true ∧ rp_channels pool !! pc_tx c = Some ch ∧ ch_open ch = true ∧
    rp_channels pool' = <[pc_tx c := Channel true (ch_sent ch ++ [cmd])]> (rp_channels pool)
  else rp_channels pool' = rp_channels pool.
Proof.
  unfold send_command_to_current_runner, send. destruct (rp_runners pool !! runner) as [c|] eqn:Ec; [| by intros [= <- <-]].
  destruct ((pc_connection_epoch c =? epoch)%N && pc_dispatch_ready c) eqn:Eg; [| by intros [= <- <-]].
  apply andb_true_iff in Eg as [Ee%N.eqb_eq Er].
  destruct (rp_channels pool !! pc_tx c) as [ch|] eqn:Ech; [| by intros [= <- <-]].
  destruct (ch_open ch) eqn:Eo; intros [= <- <-]; simpl; [| done]. split; [done |]. by exists c, ch.
Qed.
Lemma send_addressed runner epoch corp m (s : state) b pool' r :
  addressed s → owner (socket_of epoch) = (runner, corp) → bound s m (runner, corp) r →
  send_command_to_current_runner runner epoch (StartRun m) (sv_runners s) = (b, pool') →
  addressed (set_sv_runners pool' s) ∧ runs_stay s (set_sv_runners pool' s).
Proof.
  intros [Hcore Hsockets Hsent] Howner Hb Hsend. apply send_current in Hsend as [Hr Hc].
  split; [| intros id r' Hr'; by exists r']. split; [done | simpl; by rewrite Hr |]. simpl.
  assert (∀ m' o r', bound s m' o r' → bound (set_sv_runners pool' s) m' o r') as Hset by (by intros ? ? ? [? ? ? ? ? ?]).
  destruct b.
  - destruct Hc as (c & ch & Hcon & <- & _ & Hch & _ & ->). intros tx ch' m' Hl Hm.
    apply lookup_insert_Some in Hl as [[<- <-] | [_ Hl]].
    + simpl in Hm. apply elem_of_app in Hm as [Hm | Hm].
      * destruct (Hsent _ _ _ Hch Hm) as [r' Hb']. exists r'. by apply Hset.
      * apply list_elem_of_singleton in Hm. injection Hm as ->. exists r. apply Hset.
        destruct (Hsockets _ _ Hcon) as [-> _]. by rewrite Howner.
    + destruct (Hsent _ _ _ Hl Hm) as [r' Hb']. exists r'. by apply Hset.
  - rewrite Hc. intros tx ch m' Hl Hm. destruct (Hsent _ _ _ Hl Hm) as [r' Hb']. exists r'. by apply Hset.
Qed.

(** ** One candidate, and all of them *)
Record turn_respects (t : turn Other) : Prop := {
  tr_create : respects (tn_create t); tr_context : respects (tn_context t); tr_secrets : respects (tn_secrets t);
  tr_send : respects (tn_send t); tr_fail : respects (tn_fail t);
}.
Lemma bound_message s corp mission record context secrets o r :
  bound s (start_message corp mission record []) o r →
  bound s (start_message corp mission (push_context context record) secrets) o r.
Proof. by intros [? ? ? ? ? ?]. Qed.

Lemma assign_respects t corp mission k runner epoch record (s : state) r : turn_respects t →
  owner (socket_of epoch) = (runner, corp) → addressed s → bound s (start_message corp mission record []) (runner, corp) r →
  let s' := (assign t corp mission k runner epoch record s).2 in addressed s' ∧ runs_stay s s'.
Proof.
  intros [_ Tc Ts Tn Tf] Howner Hs Hb. unfold assign.
  destruct (Tc s Hs) as [A1 S1].
  destruct (resolve_context_respects (tn_now t) (tn_faults t) (sv_artifacts (tn_context t s)) corp record _ A1) as [A2 S2].
  destruct (in_handoff _ _) as [context s2]. simpl in A2, S2.
  assert (runs_stay s s2) as S12 by (by etrans). destruct context as [[context ev]|e]; simpl.
  2: { destruct (abandon_run_respects t corp (lr_run_id record) ("dependency context could not be verified: " +:+ e) Tf s2 A2)
         as [A3 S3]. split; [exact A3 | by etrans]. }
  destruct (Ts s2 A2) as [A3 S3].
  destruct (resolve_run_secrets_respects (tn_grants t) corp (push_context context record) runner _ A3) as [A4 S4].
  destruct (resolve_run_secrets _ _ _ _ _) as [secrets s4]. simpl in A4, S4.
  assert (runs_stay s s4) as S14 by (etrans; [exact S12 |]; by etrans). destruct secrets as [secrets|e]; simpl.
  2: { destruct (abandon_run_respects t corp (lr_run_id record) ("secret broker denied assignment: " +:+ e) Tf s4 A4)
         as [A5 S5]. split; [exact A5 | by etrans]. }
  destruct (Tn s4 A4) as [A5 S5]. assert (runs_stay s (tn_send t s4)) as S15 by (by etrans).
  destruct (bound_stays _ _ _ _ _ Hb S15) as [r' Hb'].
  destruct (send_command_to_current_runner _ _ _ _) as [sent pool] eqn:Esend.
  destruct (send_addressed _ _ _ _ _ _ _ r' A5 Howner (bound_message _ _ _ _ context secrets _ _ Hb') Esend) as [A6 S6].
  assert (runs_stay s (set_sv_runners pool (tn_send t s4))) as S16 by (by etrans).
  destruct sent; simpl; [done |].
  destruct (abandon_run_respects t corp (lr_run_id record) not_accepted Tf _ A6) as [A7 S7]. split; [exact A7 | by etrans].
Qed.
Lemma schedule_task_respects t corp mission requested_by k : turn_respects t →
  respects (λ s, (schedule_task t corp mission requested_by k s).2).
Proof.
  intros Ht s Hs. unfold schedule_task.
  destruct (select_ready_runner _ _ _) as [[runner epoch]|] eqn:Esel; [| by split].
  apply select_ready_runner_found in Esel as (c & Hc & <- & Hserves).
  destruct (ad_sockets s Hs _ _ Hc) as [Htx Howner].
  destruct (tr_create t Ht s Hs) as [A1 S1]. unfold in_store, run_txn.
  destruct (create_task_run _ _ _ _ _ _ _) as [[[record event] e]|] eqn:E; simpl.
  - pose proof (create_task_run_ok _ _ _ _ _ _ _ _ _ _ E) as (_ & Htask & _ & r & Hr & _ & Hrun & Hcorp & Ht' & Hag & Htok).
    apply create_task_run_step in E; [| apply A1].
    destruct (stored (tn_create t s) (set_sv_exec e (tn_create t s)) eq_refl E A1) as [A2 S2].
    assert (bound (set_sv_exec e (tn_create t s)) (start_message corp mission record []) (runner, corp) r) as Hb.
    { split; try done. by rewrite Ht'. }
    assert (owner (socket_of (pc_connection_epoch c)) = (runner, corp)) as Ho.
    { rewrite <-Htx, Howner. f_equal. apply Hserves. }
    destruct (assign_respects t corp mission k runner (pc_connection_epoch c) record _ r Ht Ho A2 Hb) as [A3 S3].
    split; [exact A3 |]. etrans; [exact S1 |]. by etrans.
  - destruct (stored_same (tn_create t s) (set_sv_exec (sv_exec (tn_create t s)) (tn_create t s)) eq_refl eq_refl A1) as [A2 S2].
    split; [exact A2 | by etrans].
Qed.

End safety.

(** ** What else happens respects this *)
Section others.
Context `{Serde} `{ExecSerde} `{Envelopes} `{JsonReader} `{ObjectFormats} `{Chrono} `{Aead} {Other : Type}.
Context (socket_of : uuid → N) (owner : N → string * uuid).
Abbreviation state := (server Other).
Abbreviation respects := (respects (Other := Other) socket_of owner).
Abbreviation addressed := (addressed (Other := Other) socket_of owner).

Lemma quiet_respects : respects id.
Proof. intros s Hs. split; [done |]. intros i r Hr. by exists r. Qed.
(** Every request of the store that missions, tasks and runs are changed by. *)
Lemma requests_respect env request : respects (λ s, set_sv_exec (handle env request (sv_exec s)) s).
Proof.
  intros s Hs. set (e := handle env request (sv_exec s)).
  assert (rtc core_step (x_core (sv_exec s)) (x_core e)) as Hsteps.
  { unfold e, handle, run_txn. destruct (handler env request (sv_exec s)) as [[u e']|] eqn:E; [| done].
    eapply handler_steps; [apply Hs | exact E]. }
  clearbody e. revert s Hs Hsteps.
  assert (∀ c c', rtc core_step c c' → ∀ s : state, addressed s → x_core (sv_exec s) = c →
    ∀ e, x_core e = c' → addressed (set_sv_exec e s) ∧ runs_stay s (set_sv_exec e s)) as Hgen.
  { induction 1 as [c | c c1 c' Hstep _ IH]; intros s Hs Hc e' He'.
    - apply (stored_same socket_of owner); [done | by change (x_core e' = x_core (sv_exec s)); rewrite He', Hc | done].
    - set (e1 := ExecDb (x_base (sv_exec s)) c1 (x_side (sv_exec s)) (x_log (sv_exec s))).
      destruct (stored socket_of owner s (set_sv_exec e1 s)) as [A1 S1]; [done | by rewrite Hc | done |].
      destruct (IH (set_sv_exec e1 s) A1 eq_refl e' He') as [A2 S2].
      split; [exact A2 |]. intros i r Hr. apply S1 in Hr as (r1 & Hr1 & E1). apply S2 in Hr1 as (r2 & Hr2 & E2).
      exists r2. split; [done | congruence]. }
  intros s Hs Hsteps. by eapply Hgen.
Qed.

(** The sockets: a runner registers under its own epoch, is enabled, or goes; other messages are sent. *)
Definition on_pool (f : runner_pool (server_to_runner Other) → runner_pool (server_to_runner Other)) (s : state) : state :=
  set_sv_runners (f (sv_runners s)) s.
Lemma pool_respects f :
  (∀ p id c, rp_runners (f p) !! id = Some c → (∃ c', rp_runners p !! id = Some c' ∧ pc_tx c = pc_tx c' ∧
     pc_connection_epoch c = pc_connection_epoch c' ∧ pc_corp_id c = pc_corp_id c') ∨
     pc_tx c = socket_of (pc_connection_epoch c) ∧ owner (pc_tx c) = (id, pc_corp_id c)) →
  (∀ p tx ch m, rp_channels (f p) !! tx = Some ch → StartRun m ∈ ch_sent ch →
     ∃ ch', rp_channels p !! tx = Some ch' ∧ StartRun m ∈ ch_sent ch') →
  respects (on_pool f).
Proof.
  intros Hr Hc s [Hcore Hsockets Hsent]. split; [| intros i r Hi; by exists r]. split; [done | |].
  - intros i c Hi. apply Hr in Hi as [(c' & Hi & Et & Ee & Ecorp) | ?]; [| done].
    rewrite Et, Ee, Ecorp. by apply Hsockets.
  - intros tx ch m Hch Hm. destruct (Hc _ _ _ _ Hch Hm) as (ch' & Hch' & Hm').
    destruct (Hsent _ _ _ Hch' Hm') as [r [? ? ? ? ? ?]]. by exists r.
Qed.
Lemma register_respects runner corp epoch tx capabilities : tx = socket_of epoch → owner tx = (runner, corp) →
  respects (on_pool (λ p, RunnerPool (<[runner := RunnerConnection corp epoch false tx capabilities]> (rp_runners p))
                            (<[tx := Channel true []]> (rp_channels p)))).
Proof.
  intros Htx Ho. apply pool_respects; intros p i c; simpl.
  - intros [[<- <-] | [_ Hi]]%lookup_insert_Some; [by right | left; eauto].
  - intros m [[<- <-] | [_ Hi]]%lookup_insert_Some Hm; [by apply elem_of_nil in Hm | eauto].
Qed.
Lemma enable_respects runner epoch :
  respects (on_pool (λ p, RunnerPool (enable_runner_dispatch runner epoch (rp_runners p)).2 (rp_channels p))).
Proof.
  apply pool_respects; intros p i c; simpl; [| eauto]. unfold enable_runner_dispatch. intros Hi. left.
  destruct (rp_runners p !! runner) as [c0|] eqn:E; [| eauto].
  destruct (pc_connection_epoch c0 =? epoch)%N; simpl in Hi; [| eauto].
  apply lookup_insert_Some in Hi as [[<- <-] | [_ Hi]]; eauto.
Qed.
Lemma disconnect_respects runner tx :
  respects (on_pool (λ p, RunnerPool (delete runner (rp_runners p))
                            (alter (λ ch, Channel false (ch_sent ch)) tx (rp_channels p)))).
Proof.
  apply pool_respects; intros p i c; simpl; [intros [_ Hi]%lookup_delete_Some; left; eauto |].
  intros m [[-> (ch & Hi & ->)] | [_ Hi]]%lookup_alter_Some Hm; eauto.
Qed.
Lemma other_message_respects runner epoch message :
  respects (on_pool (λ p, (send_command_to_current_runner runner epoch (OtherMessage message) p).2)).
Proof.
  apply pool_respects; intros p i c; destruct (send_command_to_current_runner _ _ _ _) as [b p'] eqn:E;
    apply send_current in E as [E1 E2]; simpl.
  - rewrite E1. left. eauto.
  - intros m Hi Hm. destruct b; [| rewrite E2 in Hi; eauto]. destruct E2 as (c0 & ch & _ & _ & _ & Hch & _ & E2).
    rewrite E2 in Hi. apply lookup_insert_Some in Hi as [[<- <-] | [_ Hi]]; [| eauto]. exists ch. split; [done |].
    simpl in Hm. apply elem_of_app in Hm as [? | Hm]; [done |]. by apply list_elem_of_singleton in Hm.
Qed.
End others.

(** ** One task, while another runner connects *)
Section schedule_demo.
#[local] Existing Instance sample_serde.
#[local] Existing Instance sample_exec_serde.
#[local] Existing Instance sample_digests.
#[local] Existing Instance sample_envelopes.
#[local] Existing Instance sample_chrono.
#[local] Existing Instance open_cipher.
#[local] Instance schedule_reader : JsonReader := λ _, None.
#[local] Instance schedule_formats : ObjectFormats := {|
  hmac_sha256 key message := key +:+ message; mac_to_hex m := m; mac_of_hex m := Some m;
  mime_essence s := Some s; json_to_vec _ := ""; parse_copilot_receipt _ := None |}.

(** Sockets are numbered by their epochs; the first belongs to one runner, the others to another. *)
Definition schedule_owner (tx : N) : string * uuid := if (tx =? 7)%N then ("runner-a", 1%N) else ("runner-b", 1%N).
Definition codex : runner_capability := RunnerCapability "codex" true [] None None None None.
Definition schedule_start : server unit :=
  Server (SecretDb (demo [demo_create None]) ∅ ∅ ∅) ∅ ∅ (ArtifactStore ∅ "key" 100) "key"
    (RunnerPool {["runner-a" := RunnerConnection 1 7 true 7 [codex]]} {[7%N := Channel true []]}).
Definition registers_meanwhile : server unit → server unit :=
  on_pool (λ p, RunnerPool (<["runner-b" := RunnerConnection 1 8 false 8 [codex]]> (rp_runners p))
                  (<[8%N := Channel true []]> (rp_channels p))).
Definition schedule_turn : turn unit :=
  Turn (demo_env 60) 100 no_faults [] id registers_meanwhile id id id.
Definition scheduled := schedule_ready_tasks [schedule_turn] 1 40 (Some 10%N) schedule_start.

End schedule_demo.
