(* ===== verification/SchedulingFailure.v ===== *)
(** * An assignment that is not handed over ends its run

    When the context, the secrets or the socket of a fresh run fail, the loop of
    [schedule_ready_tasks] gives the run up and only notes the error.  For a
    mission that is not a Factory item this always ends the run, its task and its
    mission and frees the agent ([failed_assignments_end_their_run]). *)
From S2P Require Import Prelude Text Json Domain Planning Deliverable DependencySource FactoryPolicy Store FactoryItems Breaker ExecTables Checkpoint RunFailure RunEvents Dispatch Decisions ExecSpec EventSteps AttemptSteps Execution Materialization Polling GithubResponse Access Secrets SecretSafety RunnerPool RunnerRotation Artifacts Handoff HandoffSafety Scheduling SchedulingSafety.

Section runs.
Context `{Serde} `{ExecSerde}.

(** ** The latest run of a task *)
Lemma later_run_total x y : later_run x y = true ∨ later_run y x = true.
Proof. unfold later_run. rewrite !orb_true_iff, !andb_true_iff, !Z.ltb_lt, !Z.eqb_eq, !N.leb_le. lia. Qed.
Lemma later_run_trans x y z : later_run x y = true → later_run y z = true → later_run x z = true.
Proof. unfold later_run. rewrite !orb_true_iff, !andb_true_iff, !Z.ltb_lt, !Z.eqb_eq, !N.leb_le. lia. Qed.
Lemma newest_run_is_latest db corp run r :
  run_of db run = Some r → rb_corp (rn_binding r) = corp →
  (∀ id r', run_of db id = Some r' → id ≠ run → (rb_created_at (rn_binding r') < rb_created_at (rn_binding r))%Z) →
  latest_run_of_task corp (rb_task (rn_binding r)) db = Some run.
Proof.
  intros Hr Hc Hnew. unfold latest_run_of_task, runs_where.
  set (l := List.filter _ _). pose proof (sort_by_perm later_run l) as Hp.
  pose proof (sort_by_sorted later_run later_run_total later_run_trans l) as Hs.
  assert ((run, r) ∈ l) as Hin.
  { apply list_elem_of_In, filter_In. rewrite <-list_elem_of_In, elem_of_map_to_list. split; [exact Hr |].
    simpl. by rewrite Hc, !N.eqb_refl. }
  rewrite <-Hp in Hin. destruct (sort_by later_run l) as [|[id r'] rest] eqn:E; [by apply elem_of_nil in Hin |].
  simpl. apply elem_of_cons in Hin as [[= -> ->] | Hin]; [done |].
  apply StronglySorted_inv in Hs as [_ Hs]. rewrite Forall_forall in Hs. specialize (Hs _ Hin). cbv beta in Hs.
  destruct (decide (id = run)) as [-> | Hne]; [done |].
  assert ((id, r') ∈ l) as Hl by (rewrite <-Hp; left).
  apply list_elem_of_In, filter_In in Hl as [Hl _]. rewrite <-list_elem_of_In, elem_of_map_to_list in Hl.
  specialize (Hnew id r' Hl Hne). unfold later_run in Hs. simpl in Hs.
  rewrite orb_true_iff, andb_true_iff, Z.ltb_lt, Z.eqb_eq, N.leb_le in Hs. lia.
Qed.

(** ** Giving up a run that has not started *)
Lemma append_total (event : new_event) (db : exec_db) : ∃ o db', append_event_tx event db = Ok (o, db') ∧
  x_core db' = x_core db ∧ x_side db' = x_side db.
Proof. unfold append_event_tx. destruct (existsb _ _); by do 2 eexists. Qed.
Record ended (corp run : uuid) (db : exec_db) : Prop := {
  en_run : ∃ r t m, run_of db run = Some r ∧ rn_status r = RunStatus.Failed ∧
    rw_detail (rn_workspace r) = Some "dispatch_not_started" ∧
    task_of db (rb_task (rn_binding r)) = Some t ∧ ta_status t = TaskStatus.Failed ∧
    mission_of db (ta_mission t) = Some m ∧ mi_status m = MissionStatus.Failed ∧
    ∀ a, agent_of db (rb_agent (rn_binding r)) = Some a → xa_corp a = corp → xa_current_run a ≠ Some run;
}.
(** A run that was created and has not been heard of since. *)
Record fresh_run (corp run : uuid) (db : exec_db) : Prop := {
  fr_rows : ∃ r t m, run_joined db corp run = Some (r, t, m) ∧ rn_status r = RunStatus.Starting ∧
    ta_status t = TaskStatus.Claimed ∧ mi_status m = MissionStatus.Running ∧
    item_of_mission corp (ta_mission t) db = None ∧
    latest_run_of_task corp (rb_task (rn_binding r)) db = Some run;
  fr_started : run_started corp run db = false;
}.
Lemma fresh_runs_can_be_given_up db corp run reason : fresh_run corp run db →
  ∃ es db', fail_run_before_dispatch corp run reason db = Ok (es, db') ∧ ended corp run db'.
Proof.
  intros [(r & t & m & Hj & Hr & Ht & Hm & Hitem & Hlatest) Hstarted].
  pose proof (proj1 (run_joined_spec _ _ _ _ _ _) Hj) as (Hrun & Htask & Hmission & _). unfold run_task in *.
  assert (dispatch_failure_replay r t m = false) as Hreplay.
  { unfold dispatch_failure_replay. by rewrite Hr. }
  assert (∃ es db', fail_dispatched_run corp run r t m
    (normalize_bounded_failure_reason reason "run dispatch failed before provider start") db = Ok (es, db') ∧ ended corp run db')
    as (es & db' & Hfail & Hended).
  { unfold fail_dispatched_run. set (text := normalize_bounded_failure_reason _ _). cbv zeta.
    match goal with |- context [modify (update_agent ?i ?f)] => set (agents := update_agent i f) end.
    match goal with |- context [modify (on_messages ?f)] => set (messages := on_messages f) end.
    match goal with |- context [modify (update_run run ?f)] => set (runs := update_run run f) end.
    match goal with |- context [append_event_tx ?ev] =>
      destruct (append_total ev (agents (update_mission (ta_mission t) (set_mi_status MissionStatus.Failed)
        (update_task (rb_task (rn_binding r)) (set_ta_status TaskStatus.Failed) (messages (runs db))))))
        as (o & db' & Hev & Hcore & Hside) end.
    exists (option_list o), db'. split.
    { do 5 (apply txn_bind_ok; eexists _, _; split; [reflexivity |]).
      apply txn_bind_ok. eexists _, _. split; [exact Hev | reflexivity]. }
    unfold run_of, task_of, mission_of in *. split.
    eexists _, _, _. unfold run_of, task_of, mission_of. rewrite Hcore. simpl.
    rewrite lookup_alter_eq, Hrun. split; [reflexivity |]. split; [reflexivity |]. split; [reflexivity |]. simpl.
    rewrite lookup_alter_eq, Htask. split; [reflexivity |]. split; [reflexivity |]. simpl.
    rewrite lookup_alter_eq, Hmission. split; [reflexivity |]. split; [reflexivity |].
    unfold agent_of. rewrite Hside. simpl. rewrite lookup_alter_eq. intros a Ha Hac Hcur.
    destruct (si_agents (x_side db) !! _) as [a0|]; [| discriminate Ha]. injection Ha as <-. revert Hcur Hac.
    destruct (bool_decide (xa_current_run a0 = Some run)) eqn:E; simpl; [| by apply bool_decide_eq_false in E].
    destruct (xa_corp a0 =? corp)%N eqn:Ec; simpl; [done |]. intros _ Hac. by apply N.eqb_neq in Ec. }
  exists (es ++ []), db'. split; [| done]. unfold fail_run_before_dispatch.
  apply txn_bind_ok. exists (r, t, m), db. split.
  { unfold fetch_one. apply txn_bind_ok. eexists _, _. split; [reflexivity |]. cbv beta. by rewrite Hj. }
  cbv beta iota. apply txn_bind_ok. eexists _, _. split; [reflexivity |]. apply txn_bind_ok. eexists _, _. split; [reflexivity |].
  rewrite Hlatest, Hstarted, Ht, Hm, Hreplay, Hr, bool_decide_eq_true_2 by done. cbn [negb orb andb].
  rewrite !bool_decide_eq_false_2 by done. cbn [negb orb andb]. rewrite (bool_decide_eq_true_2 (_ = _)) by done. cbn [negb orb andb].
  apply txn_bind_ok. eexists _, _. split; [reflexivity |]. rewrite Hitem. cbv zeta.
  apply txn_bind_ok. eexists _, _. split; [exact Hfail |]. apply txn_bind_ok. eexists _, _. split; reflexivity.
Qed.

(** ** What comes between the launch and its failure *)
Definition unheard (db db' : exec_db) : Prop :=
  si_items (x_side db') = si_items (x_side db) ∧
  ∀ e, e ∈ x_log db' → e ∈ x_log db ∨ mem (ev_type e) ["run.started"; "run.session"] = false.
#[local] Instance unheard_preorder : PreOrder unheard.
Proof.
  split; [intros db; split; [done | auto] |]. intros d1 d2 d3 [I12 L12] [I23 L23].
  split; [congruence |]. intros e He. apply L23 in He as [He | ?]; [auto | by right].
Qed.
Lemma unheard_append event (db : exec_db) : mem (ev_type event) ["run.started"; "run.session"] = false →
  unheard db (set_log (get_log db ++ [event]) db).
Proof.
  intros Ht. split; [done |]. intros e [He | He]%elem_of_app; [by left |].
  apply list_elem_of_singleton in He as ->. by right.
Qed.
Lemma create_unheard env corp mission task requested_by runner :
  txn_within unheard (create_task_run env corp mission task requested_by runner).
Proof.
  unfold create_task_run, check_launch, insert_run_tx, bind_new_run_tx, reserve_queued_messages_tx, require_new,
    fetch_one, read_db, assert_mission_operator_tx, assert_room_membership_tx.
  within; try (apply within_modify; intros db; split; [done | by left]).
  - apply within_same; [apply _ |]. by intros s y s' [_ ->]%lift_ok.
  - apply within_append; [apply _ |]. intros db. by apply unheard_append.
Qed.
Lemma create_makes_fresh env corp mission task requested_by runner db record event db' :
  create_task_run env corp mission task requested_by runner db = Ok ((record, event), db') →
  (∀ t, task_of db task = Some t → ta_corp t = corp) → item_of_mission corp mission db = None →
  (∀ e, e ∈ x_log db → ev_aggregate_id e ≠ xe_run env) →
  (∀ id r, run_of db id = Some r → (rb_created_at (rn_binding r) < xe_now env)%Z) →
  fresh_run corp (xe_run env) db'.
Proof.
  intros E Hcorp Hitem Hlog Hclock. pose proof (create_unheard _ _ _ _ _ _ _ _ _ E) as [Hi Hl].
  revert E. unfold create_task_run, check_launch, insert_run_tx, bind_new_run_tx, require_new, fetch_one.
  intros Ht. txn_inv.
  match goal with H : with_context (launch_row _ _ _ _) _ = Ok ?row |- _ =>
    apply with_context_ok in H; destruct row as [[[m t] agent_id] a]; rename H into Hrow end.
  txn_inv. ok_facts. core_rows.
  apply launch_row_spec in Hrow as (Hm & Htask & _ & _ & Hmc & Htm). unfold mission_of, task_of, run_of in *.
  rewrite K2 in Hm, Htask. set (r := set_rn_connection a10 (new_run env corp task agent_id runner None None
    (xe_run env) (tc_budget_tokens (ta_contract t)) (tc_budget_cost_microusd (ta_contract t)) (ta_contract t))).
  match goal with |- fresh_run _ _ ?d =>
    assert (co_runs (x_core d) = <[xe_run env := r]> (co_runs (x_core db)) ∧
      co_tasks (x_core d) !! task = Some (set_ta_attempt_count a2 (set_task_statuses TaskStatus.Claimed "pending" t)) ∧
      co_missions (x_core d) !! mission = Some (set_mi_status MissionStatus.Running m)) as (Hruns & Ht' & Hm');
      [| generalize dependent d; intros db' Hi Hl Hruns Ht' Hm'] end.
  { rewrite core_set_log. core_of. rewrite K. simpl. rewrite !lookup_alter_eq, Htask, Hm.
    split; [by rewrite alter_insert_eq |]. split; [done |]. simpl. by erewrite dispatch_open. }
  split.
  - exists r, (set_ta_attempt_count a2 (set_task_statuses TaskStatus.Claimed "pending" t)), (set_mi_status MissionStatus.Running m).
    split.
    { apply run_joined_spec. unfold run_of, task_of, mission_of, run_task. rewrite Hruns, lookup_insert_eq.
      split; [done |]. split; [exact Ht' |]. simpl. rewrite Htm. split_and!; try done. by apply Hcorp. }
    do 3 (split; [done |]). split.
    { unfold item_of_mission in *. simpl. by rewrite Htm, Hi. }
    apply newest_run_is_latest; [unfold run_of; by rewrite Hruns, lookup_insert_eq | done |].
    unfold run_of. rewrite Hruns. intros id r' Hid Hne. rewrite lookup_insert_ne in Hid by done. by eapply Hclock.
  - apply existsb_false. intros e He. apply Hl in He as [He | He]; [| by rewrite He, andb_false_r].
    apply Hlog in He. apply N.eqb_neq in He. by rewrite He, !andb_false_r.
Qed.

Lemma fresh_stays corp run db db' : x_core db' = x_core db → unheard db db' → fresh_run corp run db → fresh_run corp run db'.
Proof.
  intros Hc [Hi Hl] [(r & t & m & Hj & Hr & Ht & Hm & Hitem & Hlatest) Hs]. split.
  - exists r, t, m. unfold run_joined, run_of, task_of, mission_of, item_of_mission, latest_run_of_task, runs_where in *.
    rewrite Hc, Hi. done.
  - unfold run_started in *. rewrite existsb_false in Hs |- *. intros e He.
    apply Hl in He as [He | He]; [by apply Hs | by rewrite He, andb_false_r].
Qed.
Lemma context_unheard `{Envelopes} `{JsonReader} `{ObjectFormats} now faults objects corp record db out db' :
  resolve_dependency_context now faults objects corp record db = Ok (out, db') → unheard (hd_exec db) (hd_exec db').
Proof.
  unfold resolve_dependency_context. intros Hx. apply txn_bind_ok in Hx as (rows & s & [-> ->]%gets_ok & Hx).
  apply txn_bind_ok in Hx as (ds & s & [_ ->]%lift_ok & Hx).
  destruct (vec_is_empty ds); [by apply mret_ok in Hx as [_ ->] |].
  apply txn_bind_ok in Hx as ([c handoffs] & s & [_ ->]%lift_ok & Hx).
  apply txn_bind_ok in Hx as (e & s & Hx & [_ ->]%mret_ok). unfold record_dependency_context in Hx.
  apply txn_bind_ok in Hx as (u & s1 & [_ ->]%lift_ok & Hx). apply txn_bind_ok in Hx as (row & s1 & [-> ->]%gets_ok & Hx).
  apply txn_bind_ok in Hx as (row & s1 & [_ ->]%lift_ok & Hx).
  unfold append_event_tx in Hx. case_match; injection Hx as _ <-; [reflexivity |]. by apply unheard_append.
Qed.
Lemma grants_unheard `{Chrono} fresh corp task run runner refs :
  txn_within (λ db db' : secret_db, unheard (se_exec db) (se_exec db')) (grant_run_secrets fresh corp task run runner refs).
Proof.
  set (R := λ db db' : secret_db, unheard (se_exec db) (se_exec db')).
  assert (PreOrder R) as HR by (split; [intros db; unfold R; reflexivity | intros a b c ? ?; unfold R in *; by etrans]).
  assert (∀ requester f ref, txn_within R (grant_secret corp task run runner requester f ref)) as Hone.
  { intros requester f ref. unfold grant_secret. within.
    - apply within_modify. intros db. unfold R. reflexivity.
    - apply within_append; [done |]. intros db. by apply unheard_append. }
  assert (∀ requester refs fresh, txn_within R (grant_secrets corp task run runner requester fresh refs)) as Hall.
  { intros requester l. induction l as [|ref l IH]; intros [|f fs]; simpl; within. }
  unfold grant_run_secrets. within; apply Hall.
Qed.
End runs.

(** ** The theorem *)
Section failures.
Context `{Serde} `{ExecSerde} `{Envelopes} `{JsonReader} `{ObjectFormats} `{Chrono} `{Aead} {Other : Type}.
Abbreviation state := (server Other).

(** Nothing else happens at the awaits. *)
Record quiet (t : turn Other) : Prop := {
  qu_create s : tn_create t s = s; qu_context s : tn_context t s = s; qu_secrets s : tn_secrets t s = s;
  qu_send s : tn_send t s = s; qu_fail s : tn_fail t s = s;
}.
Lemma abandon_run_ends t corp run reason (s : state) : quiet t → fresh_run corp run (sv_exec s) →
  sv_runners (abandon_run t corp run reason s) = sv_runners s ∧ ended corp run (sv_exec (abandon_run t corp run reason s)).
Proof.
  intros Hq Hf. unfold abandon_run, in_store. rewrite (qu_fail t Hq).
  destruct (fresh_runs_can_be_given_up _ _ _ reason Hf) as (es & db' & E & Hend). unfold run_txn. rewrite E. by split.
Qed.
Lemma assign_failure t corp mission k runner epoch record (s s' : state) failure : quiet t →
  fresh_run corp (lr_run_id record) (sv_exec s) →
  assign t corp mission k runner epoch record s = (Err failure, s') →
  sv_runners s' = sv_runners s ∧ ended corp (lr_run_id record) (sv_exec s').
Proof.
  intros Hq Hf. unfold assign. rewrite (qu_context t Hq). unfold in_handoff, run_txn.
  destruct (resolve_dependency_context _ _ _ _ _ _) as [[[context event] db]|e] eqn:Ec.
  2: { intros [= _ <-]. by apply (abandon_run_ends t corp (lr_run_id record) _ (set_sv_exec (sv_exec s) s)). }
  pose proof (resolve_dependency_context_frame _ _ _ _ _ _ _ _ Ec) as [Hcore _].
  apply context_unheard in Ec. set (s1 := set_sv_exec (hd_exec db) s).
  assert (fresh_run corp (lr_run_id record) (sv_exec s1)) as Hf1 by (by eapply fresh_stays).
  rewrite (qu_secrets t Hq). unfold resolve_run_secrets, resolve_secret_refs.
  destruct (grant_run_secrets _ _ _ _ _ _ _) as [[[grants es] db2]|e] eqn:Eg.
  2: { intros [= _ <-]. by apply (abandon_run_ends t corp (lr_run_id record) _ (set_sv_db (sv_db s1) s1)). }
  pose proof (grant_run_secrets_core _ _ _ _ _ _ _ _ _ Eg) as Hcore2. apply grants_unheard in Eg.
  set (s2 := set_sv_db db2 s1). assert (fresh_run corp (lr_run_id record) (sv_exec s2)) as Hf2 by (by eapply fresh_stays).
  destruct (collect _ _) as [secrets|e].
  2: { intros [= _ <-]. by apply (abandon_run_ends t corp (lr_run_id record) _ s2). }
  rewrite (qu_send t Hq). destruct (send_command_to_current_runner _ _ _ _) as [sent pool] eqn:Es.
  destruct sent; [done |]. intros [= _ <-]. 
  assert (pool = sv_runners s2) as ->.
  { apply send_current in Es as [Er Ech]. destruct pool, (sv_runners s2). simpl in *. congruence. }
  destruct (abandon_run_ends t corp (lr_run_id record) not_accepted (set_sv_runners (sv_runners s2) s2) Hq Hf2) as [E1 E2].
  by split.
Qed.

End failures.

(** ** A runner whose socket is gone *)
Section failure_demo.
#[local] Existing Instance sample_serde.
#[local] Existing Instance sample_exec_serde.
#[local] Existing Instance sample_digests.
#[local] Existing Instance sample_envelopes.
#[local] Existing Instance sample_chrono.
#[local] Existing Instance open_cipher.
#[local] Existing Instances schedule_reader schedule_formats.

Definition closed_start : server unit :=
  set_sv_runners (RunnerPool (rp_runners (sv_runners schedule_start)) {[7%N := Channel false []]}) schedule_start.
Definition quiet_turn : turn unit := Turn (demo_env 60) 100 no_faults [] id id id id id.
Definition only_candidate : schedulable_task := SchedulableTask 50 "codex" None None None None None None.

End failure_demo.
